(* ===== verification/_CoqProject ===== *)
-Q . S2P
Prelude.v
Blake2b.v
Portable.v
Fe64.v
Modm64.v
Prime.v
Group.v
Edwards.v
Ge25519.v
GePack.v
Tables.v
GeMult.v
Ed25519.v
Signing.v
Blocks.v
Store.v
Ledger.v
LedgerInv.v
LedgerAppend.v
LedgerProcess.v
LedgerRollback.v
LedgerUndo.v
LedgerTheorems.v
LedgerOutcome.v
Numbers.v
Work.v
Records.v
Votes.v
Messages.v
Elections.v
ElectionInv.v
ElectionTheorems.v
Caches.v
VoteStore.v
OnlineReps.v
VoteProcessor.v
VoteGenerator.v
Unchecked.v
BlockProcessor.v
BlockInv.v
BlockStep.v
BlockTheorems.v
Peers.v
PeerTheorems.v
SignatureChecker.v
Wallet.v
WalletTheorems.v
WalletSpec.v
WalletMove.v
WalletActions.v
WalletLedger.v
WalletNode.v
