(* ===== verification/Prelude.v ===== *)
(** * A block-lattice node: ledger, cryptography, elections and votes

    ** The program

    The repository is a node of a block-lattice currency.  Every account has a
    chain of blocks; a send block moves an amount into the table of pending
    amounts and a receive or open block of the destination takes it out; change
    blocks choose the representative who votes with the account's balance; state
    blocks can do all of these, and epoch blocks raise an account's version.
    Where two blocks claim the same predecessor, an election between them is
    decided by the votes of the representatives.

    The parts that carry the logic, from the bottom:
    - [src/crypto/blake2]: the BLAKE2b hash, used for block hashes and work;
    - [src/crypto/ed25519-donna]: the signature scheme: the field modulo
      [2^255 - 19], the scalars modulo the order of the group, the points of the
      curve, keys, signing and verification;
    - [src/nano/lib]: blocks, their hashes, their binary form, 128/256/512-bit
      numbers with their text forms, proof of work;
    - [src/nano/secure] and [src/nano/node/lmdb.cpp]: the tables of the store and
      their records, votes, and the ledger, which validates a block against the
      tables, writes it, and can roll it back;
    - [src/nano/node]: messages, elections, the processing and the making of
      votes, the caches between them, the processing of blocks, the peers, the
      wallet; networking, bootstrapping and RPC.

    ** Files

    Shared:
    - [Prelude.v]: machine words with their wrap-around, byte strings as numbers,
      a parser monad for streams, the shared lemmas and tactics.

    Cryptography:
    - [Blake2b.v]: [blake2b-ref.c]; refinement of the specification of RFC 7693.
    - [Portable.v]: the 64x64-bit products and 128-bit helpers of
      [ed25519-donna-portable.h].
    - [Fe64.v]: [curve25519-donna-64bit.h], [curve25519-donna-helpers.h]: five
      51-bit limbs in machine words, congruent to the field operations.
    - [Modm64.v]: [modm-donna-64bit.h]: Barrett reduction, scalar arithmetic and
      the signed-digit recodings.
    - [Prime.v]: [2^255 - 19] is prime, by a certificate that is evaluated.
    - [Group.v]: the interface [AbGroup] between the curve and the code that
      multiplies by scalars.
    - [Edwards.v]: the group of the twisted Edwards curve, the instance of
      [AbGroup] the code computes in.
    - [Ge25519.v], [GePack.v], [Tables.v], [GeMult.v]: [ed25519-donna-impl-base.h]
      and the tables: points in their four representations, encoding and decoding,
      the precomputed multiples of the base point, and the scalar multiplications.
    - [Ed25519.v]: [ed25519.c] over the hash of [nano/lib/interface.cpp].
    - [Signing.v]: the keys and signatures of [nano/lib/numbers.cpp].

    Ledger:
    - [Blocks.v]: [blocks.cpp], [blocks.hpp]: the five block types, hashing and
      (de)serialization.
    - [Store.v]: the tables of [lmdb.cpp] the ledger uses, as finite maps, and
      the visitors of [blockstore.cpp].
    - [Ledger.v]: [ledger.cpp]: [process] with every handler of
      [ledger_processor], [rollback] with every handler of [rollback_visitor],
      and the queries.  A computation of the monad [M] threads the store, the
      counters and the result record, and ends in a value, in [Failed] (an
      assertion of the code, or a null block that is dereferenced), or in
      [OutOfFuel].
    - [LedgerInv.v]: total-correctness rules for [M], the invariant [inv] of the
      tables, and [appended]: one store is another with one block appended.
    - [LedgerAppend.v]: appending preserves [inv].
    - [LedgerProcess.v]: each handler rejects the block without a change or
      appends it.
    - [LedgerRollback.v], [LedgerUndo.v]: [restored] stores, and each rollback
      handler restores the store its process handler changed.
    - [LedgerTheorems.v]: the start-up store, the theorems on [process] and
      [rollback], reachable stores, and a concrete ledger.
    - [LedgerOutcome.v]: partial-correctness rules, by which the reason for a
      rejection and the status of the signature are right.

    The rest of the library code and the formats:
    - [Numbers.v]: [numbers.cpp]: unions, account text, key derivation, decimals.
    - [Work.v]: [work.cpp], [xorshift.hpp]: validation and the pool of threads.
    - [Records.v]: the byte formats of the tables' records, as instances of the
      class [Format] with its laws [Lawful].
    - [Votes.v]: [nano::vote]: digest and byte formats.
    - [Messages.v]: [common.cpp]: headers, messages, the parser of datagrams.

    Voting:
    - [Elections.v], [ElectionInv.v], [ElectionTheorems.v]: [nano::election] and
      [nano::active_transactions]; elections are shared objects in a heap, reached
      through two indices, and the threads are interleavings of events.
    - [Caches.v]: the containers by time and hash: [votes_cache], [gap_cache] and
      [block_arrival] over one model of the multi-index container.
    - [VoteStore.v]: the vote table with its two caches and its snapshots; the
      class [Signatures] is discharged by [Signing.v].
    - [OnlineReps.v]: [nano::online_reps].
    - [VoteProcessor.v]: [nano::vote_processor], composed of the former and of the
      elections; the class [Checker] is what it asks of the signature checker.
    - [VoteGenerator.v]: [nano::vote_generator], the answers to [confirm_req], and
      [wallets::foreach_representative].

    The processing of blocks:
    - [Unchecked.v]: the table of the blocks that wait for another block.
    - [BlockProcessor.v]: [blockprocessor.cpp], [node::process_active] and
      [node::process_fork]: the queue, the verification in batches, the reactions to
      the results of the ledger and the replacement of a block that lost its
      election.  [step] is the thread among the others; it composes [Ledger.v],
      [Elections.v], [Caches.v] and [VoteGenerator.v].  The class [Verifier] is the
      signature checker, the class [Sound] of [BlockInv.v] what is asked of it.
    - [BlockInv.v]: the universe of the blocks of a run, and the invariants of
      ledger and queue.
    - [BlockStep.v]: every step keeps the invariant of the node.
    - [BlockTheorems.v]: runs, the thread alone, and concrete nodes.
    - [SignatureChecker.v]: [signatures.cpp]: the split of a set of signatures over
      threads; an instance of [Verifier], and of [Sound] for a sound batch.

    Peers:
    - [Peers.v], [PeerTheorems.v]: [peers.cpp], [reserved_address], the handlers of
      keepalive and handshake messages and the periodic tasks of [node.cpp].  The
      state is [container]; what one call sees (clock, random words, the order of
      equal keys) is the class [PeerEnv].

    The wallet:
    - [Wallet.v]: [nano::fan] and [nano::wallet_store]: the table of encrypted keys.
      Cipher and password hash are the class [Cipher].
    - [WalletTheorems.v]: the laws [CipherLaws], cursors over a table that changes,
      and what each operation does to the entries.
    - [WalletSpec.v]: a wallet as a map of keys under a password, the abstract
      specification that the table refines.
    - [WalletMove.v]: [move] and [import].
    - [WalletActions.v]: [nano::wallet] and [nano::wallets]: making blocks, the queue
      of actions, seeds and the search for used accounts, representatives.
    - [WalletLedger.v]: the blocks that are made, in the ledger of [Ledger.v]; the
      class [SignedLedger] ties its signature check to the wallet's keys and is
      discharged for the node by [node_signed].
    - [WalletNode.v]: search, queue, reloading, and the wallet as [VoteGenerator.v]
      sees it.

    ** What the theorems show

    The ledger: on a store that satisfies [inv], [process] returns (no assertion
    fails), preserves [inv], leaves a rejected block's store unchanged, and does
    with an accepted block what the result record says; two blocks with the same
    predecessor are not both accepted; in every store reachable from start-up the
    supply is the genesis amount and the wrapping representation table is exact;
    rolling back the last block restores the tables.  Hash, signature check and
    clock are the class [Env]; [admissible] names what is asked of a block: no
    collision of its hash with a stored block of other contents, a truthful
    verification status, and one condition the code forgets
    ([epoch_open_unguarded] shows the assertion it then fails).

    The processing of blocks: in every interleaving no assertion fails and no block is
    lost; the thread left alone comes to rest, and then a block that is neither in the
    ledger nor refused waits for a block that is missing; a block that lost its
    election is rolled back and kept out.  A run is asked to be about well-formed
    blocks without hash collisions, of chains that stay with one account, and to
    replace no block of the ledger; the replacement has a theorem of its own, for the
    block accepted last.

    Peers: in every sequence of messages and tasks no assertion fails, peers and
    cookies per address are bounded, and a peer that was not preconfigured has signed
    a cookie that was sent to it; the weight of a representative counts once; the
    peers take turns in bootstrapping.  The signature checker gives the same verdicts
    in whatever order its threads run.

    The wallet: in every sequence of operations, wrong passwords and restarts no
    assertion fails, and a key can be read exactly when the password set last was
    entered last, as it was inserted or derived; moving keys loses none; the blocks
    made for a send, a receive or a change have work and are accepted by the ledger,
    and move what was asked; an identifier sends once; the search for used accounts
    misses none before a gap of 63.  Accounts that are only watched lead to failed
    assertions.

    Elections and votes: in every interleaving no assertion fails and a
    confirmation is announced once; two quorums share a representative who voted
    twice; a vote replaces an earlier one by the stated rules; the numbers the node
    gives its votes increase; every valid vote that was queued is handled, in
    order, and the queue is bounded; every hash the generator is given is voted
    for, once and in time; the caches are bounded and hold what they should; the
    sampled stake is the median of the samples of two weeks.

    Cryptography: the buffered BLAKE2b computes RFC 7693's function however the
    input is split; the field and scalar routines, in wrapping 64-bit words,
    compute the canonical results modulo [2^255 - 19] and modulo the group order
    for all inputs in their documented ranges; the point routines compute in the
    group of the curve; the scalar multiplications return the integer multiples;
    verification decides the equation of the scheme and accepts what the code
    signs.

    Formats: reading inverts writing in both directions, for blocks, records,
    votes and messages; the hash of a block is BLAKE2b-256 of its hashables, and
    the preimage determines the block up to signature and work, receive and
    change blocks apart.

    Theorems that show the code doing what it should not are about concrete runs:
    [erase_unsafe], [tie_confirms], [confirmed_winner_replaced],
    [sequences_reused], [cached_votes_sent_twice], [bad_copy_blocks_good],
    [hostile_blocks_abort], [watch_erases], [reload_aborts] and others.

    ** Fuel

    [representative_compute] walks back one chain: one unit per stored block is
    enough ([walk_compute]).  [rollback] needs three units for a block that
    nothing depends on ([rollback_undoes_process]).  [confirm_back] adds three
    hashes for each election it confirms, and [scan] two elections for each it
    starts with; [confirm_fuel] and [scan_fuel] count them, and the invariant of
    [ElectionInv.v] proves that they are enough.  [drive], the thread alone, needs
    [steps_left] steps, quadratic in the number of blocks that are queued or wait.
    A walk over the table of a wallet needs [walk_fuel], one unit more than there are
    entries ([walk_fuel_enough]), which also bounds the search for an index that is not
    in use; [deterministic_check] needs what [check_finds] asks, by the last account
    that is in use.  The other loops are structural.

    ** Not modelled

    The LMDB calls themselves (tables are finite maps), the schema upgrades of the
    ledger's tables, the JSON forms; the batch verification of signatures (a parameter with its
    hypotheses) and the assembly variants of the table
    lookup; that a rollback of a block others depend on restores the ledger (the code
    is modelled, the theorem is about the last block); the 32-bit and SSE2 variants,
    which are alternatives of the modelled 64-bit code or intrinsics; the crawler of representatives, the
    sockets and alarms, bootstrapping, RPC, IPC, configuration and
    user interfaces, which are I/O and glue over the parts above; of the wallet the
    backups, the observers and the files it is kept in; OpenCL, gtest and
    the OpenCL headers, which are bindings or third-party code. *)

From Stdlib Require Import ZArith Lia List Bool.
Import ListNotations.
Local Open Scope Z_scope.

(** ** Machine words

    A [w]-bit unsigned integer of the C and C++ sources is a [Z] in
    [0, 2^w).  Every operation of the sources that can leave that range is
    written with the wrap-around it has: [u8], [u32], [u64], [u128] reduce
    modulo the width. *)

Definition u8 (x : Z) : Z := x mod 2 ^ 8.
Definition u16 (x : Z) : Z := x mod 2 ^ 16.
Definition u32 (x : Z) : Z := x mod 2 ^ 32.
Definition u64 (x : Z) : Z := x mod 2 ^ 64.
Definition u128 (x : Z) : Z := x mod 2 ^ 128.

Definition word (w x : Z) : Prop := 0 <= x < 2 ^ w.

Definition add64 (a b : Z) : Z := u64 (a + b).
Definition sub64 (a b : Z) : Z := u64 (a - b).
Definition mul64 (a b : Z) : Z := u64 (a * b).
Definition shl64 (a n : Z) : Z := u64 (Z.shiftl a n).
Definition not64 (a : Z) : Z := 2 ^ 64 - 1 - a.

Declare Scope word_scope.
Delimit Scope word_scope with word.

Notation "a '+u' b" := (add64 a b) (at level 50, left associativity) : word_scope.
Notation "a '-u' b" := (sub64 a b) (at level 50, left associativity) : word_scope.
Notation "a '*u' b" := (mul64 a b) (at level 40, left associativity) : word_scope.
Notation "a '<<u' n" := (shl64 a n) (at level 45, left associativity) : word_scope.
Notation "a '>>u' n" := (Z.shiftr a n) (at level 45, left associativity) : word_scope.
Notation "a '&u' b" := (Z.land a b) (at level 46, left associativity) : word_scope.
Notation "a '|u' b" := (Z.lor a b) (at level 48, left associativity) : word_scope.
Notation "a '^u' b" := (Z.lxor a b) (at level 47, left associativity) : word_scope.

(** ** Generic tactics *)

Ltac inv H := inversion H; subst; clear H.

(** Split every conjunction of the context. *)
Ltac destruct_ands :=
  repeat match goal with H : _ /\ _ |- _ => destruct H end.

(** ** Lemmas on wrap-around *)

Lemma u8_small (x : Z) : 0 <= x < 2 ^ 8 -> u8 x = x.
Proof. apply Z.mod_small. Qed.

Lemma u32_small (x : Z) : 0 <= x < 2 ^ 32 -> u32 x = x.
Proof. apply Z.mod_small. Qed.

Lemma u64_small (x : Z) : 0 <= x < 2 ^ 64 -> u64 x = x.
Proof. apply Z.mod_small. Qed.

Lemma u128_small (x : Z) : 0 <= x < 2 ^ 128 -> u128 x = x.
Proof. apply Z.mod_small. Qed.

Lemma u8_range (x : Z) : 0 <= u8 x < 2 ^ 8.
Proof. apply Z.mod_pos_bound; lia. Qed.

Lemma u32_range (x : Z) : 0 <= u32 x < 2 ^ 32.
Proof. apply Z.mod_pos_bound; lia. Qed.

Lemma u64_range (x : Z) : 0 <= u64 x < 2 ^ 64.
Proof. apply Z.mod_pos_bound; lia. Qed.

Lemma u128_range (x : Z) : 0 <= u128 x < 2 ^ 128.
Proof. apply Z.mod_pos_bound; lia. Qed.

Create HintDb words.
Create Rewrite HintDb words.
#[export] Hint Resolve u8_range u32_range u64_range u128_range : words.
#[export] Hint Rewrite u8_small u32_small u64_small u128_small using lia : words.

(** ** Bit operations as arithmetic *)

Lemma shiftr_div (a n : Z) : 0 <= n -> Z.shiftr a n = a / 2 ^ n.
Proof. apply Z.shiftr_div_pow2. Qed.

Lemma land_mask (a n : Z) : 0 <= n -> Z.land a (2 ^ n - 1) = a mod 2 ^ n.
Proof.
  intros. rewrite <- Z.land_ones by assumption.
  rewrite Z.ones_equiv, <- Z.sub_1_r. reflexivity.
Qed.

Lemma testbit_above (x n i : Z) : 0 <= x < 2 ^ n -> 0 <= n <= i -> Z.testbit x i = false.
Proof.
  intros Hx Hi. rewrite <- (Z.mod_small x (2 ^ n)) by assumption.
  apply Z.mod_pow2_bits_high; lia.
Qed.

(** Or-ing a value below [2^n] with a multiple of [2^n] is adding it. *)
Lemma land_disjoint (a b n : Z) : 0 <= n -> 0 <= a < 2 ^ n -> Z.land a (b * 2 ^ n) = 0.
Proof.
  intros Hn Ha. apply Z.bits_inj'. intros i Hi.
  rewrite Z.land_spec, Z.bits_0, <- Z.shiftl_mul_pow2, Z.shiftl_spec by lia.
  destruct (Z.le_gt_cases n i) as [Hle | Hlt].
  - rewrite (testbit_above a n i) by lia. reflexivity.
  - rewrite (Z.testbit_neg_r b) by lia. apply andb_false_r.
Qed.

Lemma lor_disjoint (a b n : Z) :
  0 <= n -> 0 <= a < 2 ^ n -> Z.lor a (b * 2 ^ n) = a + b * 2 ^ n.
Proof.
  intros Hn Ha. pose proof (Z.add_lor_land a (b * 2 ^ n)) as H.
  rewrite (land_disjoint a b n Hn Ha) in H. lia.
Qed.

(** The same for a left shift. *)
Lemma lor_shiftl (a b n : Z) :
  0 <= n -> 0 <= a < 2 ^ n -> Z.lor a (Z.shiftl b n) = a + b * 2 ^ n.
Proof. intros. rewrite Z.shiftl_mul_pow2 by lia. now apply lor_disjoint. Qed.

Lemma mul_bound (a b A B : Z) : 0 <= a <= A -> 0 <= b <= B -> 0 <= a * b <= A * B.
Proof. intros [? ?] [? ?]. split; [nia | apply Z.mul_le_mono_nonneg; lia]. Qed.

(** A value below [2^n] is its own low [n] bits. *)
Lemma land_ones_id (a n : Z) : 0 <= n -> 0 <= a < 2 ^ n -> Z.land a (Z.ones n) = a.
Proof. intros Hn Ha. rewrite Z.land_ones, Z.mod_small by lia. reflexivity. Qed.

Lemma land_ones_range (a n : Z) : 0 <= n -> 0 <= Z.land a (Z.ones n) < 2 ^ n.
Proof. intros Hn. rewrite Z.land_ones by lia. apply Z.mod_pos_bound; lia. Qed.

Lemma land_range (a b n : Z) : 0 <= n -> 0 <= a < 2 ^ n -> 0 <= Z.land a b < 2 ^ n.
Proof.
  intros Hn Ha. rewrite <- (land_ones_id a n) by lia.
  rewrite <- Z.land_assoc, (Z.land_comm (Z.ones n)), Z.land_assoc.
  now apply land_ones_range.
Qed.

Lemma lxor_range (a b n : Z) :
  0 <= n -> 0 <= a < 2 ^ n -> 0 <= b < 2 ^ n -> 0 <= Z.lxor a b < 2 ^ n.
Proof.
  intros Hn Ha Hb.
  rewrite <- (land_ones_id a n), <- (land_ones_id b n) by lia.
  replace (Z.lxor _ _) with (Z.land (Z.lxor a b) (Z.ones n)); [now apply land_ones_range |].
  apply Z.bits_inj'. intros i Hi. rewrite !Z.land_spec, !Z.lxor_spec, !Z.land_spec.
  destruct (Z.testbit a i), (Z.testbit b i), (Z.testbit (Z.ones n) i); reflexivity.
Qed.

Lemma lor_range (a b n : Z) :
  0 <= n -> 0 <= a < 2 ^ n -> 0 <= b < 2 ^ n -> 0 <= Z.lor a b < 2 ^ n.
Proof.
  intros Hn Ha Hb.
  rewrite <- (land_ones_id a n), <- (land_ones_id b n) by lia.
  rewrite <- Z.land_lor_distr_l. now apply land_ones_range.
Qed.

#[export] Hint Resolve land_range lxor_range lor_range : words.

(** ** Bytes

    Byte strings are lists of [Z] in [0, 256).  [le_bytes n x] is the
    little-endian image of an [n]-byte integer and [le_val] reads it back;
    [be_bytes]/[be_val] are the big-endian ones (the layout of
    [uint128_union], [uint256_union] and [uint512_union]). *)

Fixpoint le_bytes (n : nat) (x : Z) : list Z :=
  match n with
  | O => []
  | S n' => x mod 2 ^ 8 :: le_bytes n' (x / 2 ^ 8)
  end.

Fixpoint le_val (l : list Z) : Z :=
  match l with
  | [] => 0
  | b :: l' => b + 2 ^ 8 * le_val l'
  end.

Definition be_bytes (n : nat) (x : Z) : list Z := rev (le_bytes n x).
Definition be_val (l : list Z) : Z := le_val (rev l).

Definition bytes_ok (l : list Z) : Prop := Forall (fun b => 0 <= b < 2 ^ 8) l.

Lemma le_bytes_length (n : nat) (x : Z) : length (le_bytes n x) = n.
Proof. revert x. induction n; intros; simpl; [reflexivity | now rewrite IHn]. Qed.

Lemma be_bytes_length (n : nat) (x : Z) : length (be_bytes n x) = n.
Proof. unfold be_bytes. now rewrite length_rev, le_bytes_length. Qed.

Lemma le_bytes_ok (n : nat) (x : Z) : bytes_ok (le_bytes n x).
Proof.
  revert x. induction n; intros; simpl; constructor; [| apply IHn].
  apply Z.mod_pos_bound; lia.
Qed.

Lemma be_bytes_ok (n : nat) (x : Z) : bytes_ok (be_bytes n x).
Proof. apply Forall_rev, le_bytes_ok. Qed.

Lemma pow8_succ (n : nat) : 2 ^ (8 * Z.of_nat (S n)) = 2 ^ 8 * 2 ^ (8 * Z.of_nat n).
Proof.
  replace (8 * Z.of_nat (S n)) with (8 + 8 * Z.of_nat n) by lia.
  apply Z.pow_add_r; lia.
Qed.

Lemma le_val_bytes (n : nat) (x : Z) : le_val (le_bytes n x) = x mod 2 ^ (8 * Z.of_nat n).
Proof.
  revert x. induction n as [| n IH]; intros.
  - simpl. rewrite Z.mod_1_r. reflexivity.
  - cbn [le_bytes le_val]. rewrite IH, pow8_succ.
    rewrite (Z.rem_mul_r x) by (try apply Z.pow_nonzero; lia). lia.
Qed.

Lemma le_val_range (l : list Z) : bytes_ok l -> 0 <= le_val l < 2 ^ (8 * Z.of_nat (length l)).
Proof.
  induction 1 as [| b l Hb Hl IH]; [simpl; lia |].
  cbn [le_val length]. rewrite pow8_succ. lia.
Qed.

Lemma le_bytes_val (l : list Z) : bytes_ok l -> le_bytes (length l) (le_val l) = l.
Proof.
  induction 1 as [| b l Hb Hl IH]; [reflexivity |].
  cbn [le_val length le_bytes].
  replace ((b + 2 ^ 8 * le_val l) mod 2 ^ 8) with b.
  - replace ((b + 2 ^ 8 * le_val l) / 2 ^ 8) with (le_val l); [now rewrite IH |].
    rewrite Z.mul_comm, Z.div_add, Z.div_small by lia. lia.
  - rewrite Z.mul_comm, Z.mod_add, Z.mod_small by lia. reflexivity.
Qed.

Lemma le_val_app (l1 l2 : list Z) :
  le_val (l1 ++ l2) = le_val l1 + 2 ^ (8 * Z.of_nat (length l1)) * le_val l2.
Proof.
  induction l1 as [| b l1 IH]; [simpl; destruct (le_val l2); reflexivity |].
  cbn [le_val length app]. rewrite IH, pow8_succ. ring.
Qed.

Lemma be_val_bytes (n : nat) (x : Z) : be_val (be_bytes n x) = x mod 2 ^ (8 * Z.of_nat n).
Proof. unfold be_val, be_bytes. rewrite rev_involutive. apply le_val_bytes. Qed.

Lemma be_bytes_val (l : list Z) : bytes_ok l -> be_bytes (length l) (be_val l) = l.
Proof.
  intros H. unfold be_val, be_bytes. rewrite <- (length_rev l).
  rewrite le_bytes_val by (apply Forall_rev, H). apply rev_involutive.
Qed.

Lemma be_val_range (l : list Z) : bytes_ok l -> 0 <= be_val l < 2 ^ (8 * Z.of_nat (length l)).
Proof. intros H. unfold be_val. rewrite <- (length_rev l). apply le_val_range, Forall_rev, H. Qed.

Lemma bytes_ok_app (l1 l2 : list Z) : bytes_ok (l1 ++ l2) <-> bytes_ok l1 /\ bytes_ok l2.
Proof. apply Forall_app. Qed.

Lemma bytes_ok_firstn (n : nat) (l : list Z) : bytes_ok l -> bytes_ok (firstn n l).
Proof. intros H. rewrite <- (firstn_skipn n l) in H. now apply Forall_app in H. Qed.

Lemma bytes_ok_skipn (n : nat) (l : list Z) : bytes_ok l -> bytes_ok (skipn n l).
Proof. intros H. rewrite <- (firstn_skipn n l) in H. now apply Forall_app in H. Qed.

Lemma bytes_ok_repeat0 (n : nat) : bytes_ok (repeat 0 n).
Proof. induction n; constructor; [lia | assumption]. Qed.

Create HintDb bytes.
Create Rewrite HintDb bytes.
#[export] Hint Resolve le_bytes_ok be_bytes_ok bytes_ok_firstn bytes_ok_skipn
  bytes_ok_repeat0 : bytes.
#[export] Hint Rewrite le_bytes_length be_bytes_length : bytes.

(** [memcpy (dst + off, src)]: overwrite a prefix of a fixed-size buffer. *)
Definition memcpy_at (dst : list Z) (off : nat) (src : list Z) : list Z :=
  firstn off dst ++ src ++ skipn (off + length src) dst.

Lemma memcpy_at_length (dst : list Z) (off : nat) (src : list Z) :
  (off + length src <= length dst)%nat -> length (memcpy_at dst off src) = length dst.
Proof.
  intros H. unfold memcpy_at. rewrite !length_app, length_firstn, length_skipn. lia.
Qed.

Lemma memcpy_at_ok (dst : list Z) (off : nat) (src : list Z) :
  bytes_ok dst -> bytes_ok src -> bytes_ok (memcpy_at dst off src).
Proof. intros. unfold memcpy_at. repeat (apply bytes_ok_app; split); auto with bytes. Qed.

(** The bytes before [off + length src] after the copy. *)
Lemma memcpy_at_prefix (dst : list Z) (off : nat) (src : list Z) :
  (off <= length dst)%nat ->
  firstn (off + length src) (memcpy_at dst off src) = firstn off dst ++ src.
Proof.
  intros H. unfold memcpy_at. rewrite app_assoc, firstn_app.
  rewrite firstn_all2 by (rewrite length_app, length_firstn; lia).
  replace (off + length src - _)%nat with 0%nat
    by (rewrite length_app, length_firstn; lia).
  apply app_nil_r.
Qed.

Lemma skipn_repeat {A : Type} (x : A) (n m : nat) : skipn n (repeat x m) = repeat x (m - n).
Proof.
  revert m. induction n as [| n IH]; intros m; [now rewrite Nat.sub_0_r |].
  destruct m; [reflexivity | apply IH].
Qed.

Lemma mod_mod_pow2 (x a b : Z) : 0 <= a <= b -> (x mod 2 ^ b) mod 2 ^ a = x mod 2 ^ a.
Proof.
  intros H. apply Z.mod_mod_divide. exists (2 ^ (b - a)).
  rewrite <- Z.pow_add_r by lia. f_equal. lia.
Qed.

Lemma le_bytes_app (n m : nat) (x : Z) :
  le_bytes (n + m) x = le_bytes n x ++ le_bytes m (x / 2 ^ (8 * Z.of_nat n)).
Proof.
  revert x. induction n as [| n IH]; intros x; [now rewrite Z.div_1_r |].
  cbn [le_bytes Nat.add app]. rewrite IH, pow8_succ, Z.div_div by (try apply Z.pow_pos_nonneg; lia).
  reflexivity.
Qed.

Lemma le_bytes_mod (n : nat) (x : Z) : le_bytes n (x mod 2 ^ (8 * Z.of_nat n)) = le_bytes n x.
Proof.
  revert x. induction n as [| n IH]; intros x; [reflexivity |].
  cbn [le_bytes]. rewrite <- (IH (x / 2 ^ 8)). f_equal.
  - replace (2 ^ (8 * Z.of_nat (S n))) with (2 ^ (8 * Z.of_nat n + 8)) by (f_equal; lia).
    apply mod_mod_pow2. lia.
  - f_equal. rewrite pow8_succ, (Z.rem_mul_r x) by (try apply Z.pow_pos_nonneg; lia).
    rewrite Z.mul_comm, Z.div_add, Z.div_small by (try apply Z.mod_pos_bound; lia).
    reflexivity.
Qed.

(** A signed byte. *)
Definition s8 (x : Z) : Z := (x + 2 ^ 7) mod 2 ^ 8 - 2 ^ 7.

Lemma s8_small (x : Z) : - 2 ^ 7 <= x < 2 ^ 7 -> s8 x = x.
Proof. intros H. unfold s8. rewrite Z.mod_small by lia. lia. Qed.

(** The value of a list of digits in radix [w], low digit first. *)
Fixpoint digits_val (w : Z) (l : list Z) : Z :=
  match l with
  | [] => 0
  | d :: l' => d + w * digits_val w l'
  end.

Lemma digits_val_app (w : Z) (l1 l2 : list Z) :
  digits_val w (l1 ++ l2) = digits_val w l1 + w ^ Z.of_nat (length l1) * digits_val w l2.
Proof.
  induction l1 as [| d l1 IH]; [cbn [app digits_val length]; change (Z.of_nat 0) with 0; lia |].
  cbn [app digits_val length]. rewrite IH, Nat2Z.inj_succ, Z.pow_succ_r by lia. ring.
Qed.

Lemma digits_val_zeros (w : Z) (n : nat) : digits_val w (repeat 0 n) = 0.
Proof. induction n as [| n IH]; [reflexivity |]. cbn [repeat digits_val]. rewrite IH. lia. Qed.

Lemma app_inj_length {A : Type} (a b l l' : list A) :
  a ++ l = b ++ l' -> length a = length b -> a = b /\ l = l'.
Proof.
  revert b. induction a as [| x a IH]; intros [| y b] E L; try discriminate L.
  - split; [reflexivity | exact E].
  - injection E as <- E. injection L as L. destruct (IH b E L) as [-> ->]. split; reflexivity.
Qed.
