(* ===== verification/Blake2b.v ===== *)
(** * BLAKE2b, reference implementation

    Model of [crypto/blake2/blake2b-ref.c], the loads, stores and rotations
    of [crypto/blake2/blake2-impl.h] and the structures of
    [crypto/blake2/blake2.h].  Every hash of the node (block hashes, work
    values, vote hashes, account checksums, Ed25519) goes through it.

    The state keeps the 128-byte buffer with the bytes a previous block left
    behind [buflen]: two states that differ only there are related by
    [state_equiv], and the operations are [Proper] for it. *)

From Stdlib Require Import ZArith Lia List Bool Morphisms.
From S2P Require Import Prelude.
Import ListNotations.
Local Open Scope Z_scope.
Local Open Scope word_scope.

Module Blake2bRef.

(** ** blake2-impl.h *)

Definition load64 (p : list Z) : Z :=
  (nth 0 p 0 <<u 0) |u (nth 1 p 0 <<u 8) |u (nth 2 p 0 <<u 16) |u (nth 3 p 0 <<u 24) |u
  (nth 4 p 0 <<u 32) |u (nth 5 p 0 <<u 40) |u (nth 6 p 0 <<u 48) |u (nth 7 p 0 <<u 56).

Definition store64 (w : Z) : list Z :=
  [u8 (w >>u 0); u8 (w >>u 8); u8 (w >>u 16); u8 (w >>u 24);
   u8 (w >>u 32); u8 (w >>u 40); u8 (w >>u 48); u8 (w >>u 56)].

Definition store32 (w : Z) : list Z :=
  [u8 (w >>u 0); u8 (w >>u 8); u8 (w >>u 16); u8 (w >>u 24)].

Definition rotr64 (w c : Z) : Z := (w >>u c) |u (w <<u (64 - c)).

(** ** blake2.h *)

Definition BLAKE2B_BLOCKBYTES : nat := 128.
Definition BLAKE2B_OUTBYTES : nat := 64.
Definition BLAKE2B_KEYBYTES : nat := 64.

Record blake2b_state := mk_state {
  h : list Z;          (* uint64_t h[8] *)
  t0 : Z; t1 : Z;      (* uint64_t t[2] *)
  f0 : Z; f1 : Z;      (* uint64_t f[2] *)
  buf : list Z;        (* uint8_t buf[128] *)
  buflen : nat;
  outlen : nat;
  last_node : Z }.

Record blake2b_param := mk_param {
  digest_length : Z; key_length : Z; fanout : Z; depth : Z;
  leaf_length : list Z; node_offset : list Z; xof_length : list Z;
  node_depth : Z; inner_length : Z;
  reserved : list Z; salt : list Z; personal : list Z }.

(** The packed structure seen as 64 bytes. *)
Definition param_bytes (P : blake2b_param) : list Z :=
  [digest_length P; key_length P; fanout P; depth P] ++ leaf_length P ++ node_offset P
  ++ xof_length P ++ [node_depth P; inner_length P] ++ reserved P ++ salt P ++ personal P.

(** ** blake2b-ref.c *)

Definition blake2b_IV : list Z :=
  [0x6a09e667f3bcc908; 0xbb67ae8584caa73b; 0x3c6ef372fe94f82b; 0xa54ff53a5f1d36f1;
   0x510e527fade682d1; 0x9b05688c2b3e6c1f; 0x1f83d9abfb41bd6b; 0x5be0cd19137e2179].

Definition blake2b_sigma : list (list nat) :=
  [ [0; 1; 2; 3; 4; 5; 6; 7; 8; 9; 10; 11; 12; 13; 14; 15];
    [14; 10; 4; 8; 9; 15; 13; 6; 1; 12; 0; 2; 11; 7; 5; 3];
    [11; 8; 12; 0; 5; 2; 15; 13; 10; 14; 3; 6; 7; 1; 9; 4];
    [7; 9; 3; 1; 13; 12; 11; 14; 2; 6; 5; 10; 4; 0; 15; 8];
    [9; 0; 5; 7; 2; 4; 10; 15; 14; 1; 11; 12; 6; 8; 3; 13];
    [2; 12; 6; 10; 0; 11; 8; 3; 4; 13; 7; 5; 15; 14; 1; 9];
    [12; 5; 1; 15; 14; 13; 4; 10; 0; 7; 6; 3; 9; 2; 8; 11];
    [13; 11; 7; 14; 12; 1; 3; 9; 5; 0; 15; 4; 8; 6; 2; 10];
    [6; 15; 14; 9; 11; 3; 0; 8; 12; 2; 13; 7; 1; 4; 10; 5];
    [10; 2; 8; 4; 7; 6; 1; 5; 15; 11; 9; 14; 3; 12; 13; 0];
    [0; 1; 2; 3; 4; 5; 6; 7; 8; 9; 10; 11; 12; 13; 14; 15];
    [14; 10; 4; 8; 9; 15; 13; 6; 1; 12; 0; 2; 11; 7; 5; 3] ]%nat.

Definition set_h (S : blake2b_state) (h' : list Z) : blake2b_state :=
  mk_state h' (t0 S) (t1 S) (f0 S) (f1 S) (buf S) (buflen S) (outlen S) (last_node S).
Definition set_t (S : blake2b_state) (a b : Z) : blake2b_state :=
  mk_state (h S) a b (f0 S) (f1 S) (buf S) (buflen S) (outlen S) (last_node S).
Definition set_f (S : blake2b_state) (a b : Z) : blake2b_state :=
  mk_state (h S) (t0 S) (t1 S) a b (buf S) (buflen S) (outlen S) (last_node S).
Definition set_buf (S : blake2b_state) (b : list Z) (n : nat) : blake2b_state :=
  mk_state (h S) (t0 S) (t1 S) (f0 S) (f1 S) b n (outlen S) (last_node S).

Definition blake2b_set_lastnode (S : blake2b_state) : blake2b_state :=
  set_f S (f0 S) (u64 (-1)).

Definition blake2b_is_lastblock (S : blake2b_state) : bool := negb (f0 S =? 0).

Definition blake2b_set_lastblock (S : blake2b_state) : blake2b_state :=
  let S := if negb (last_node S =? 0) then blake2b_set_lastnode S else S in
  set_f S (u64 (-1)) (f1 S).

Definition blake2b_increment_counter (S : blake2b_state) (inc : Z) : blake2b_state :=
  let t0' := t0 S +u inc in
  set_t S t0' (t1 S +u (if t0' <? inc then 1 else 0)).

Definition blake2b_init0 : blake2b_state :=
  mk_state blake2b_IV 0 0 0 0 (repeat 0 BLAKE2B_BLOCKBYTES) 0 0 0.

Definition blake2b_init_param (P : blake2b_param) : blake2b_state :=
  let p := param_bytes P in
  let S := blake2b_init0 in
  let S := set_h S (map (fun i => nth i (h S) 0 ^u load64 (skipn (8 * i) p)) (seq 0 8)) in
  mk_state (h S) (t0 S) (t1 S) (f0 S) (f1 S) (buf S) (buflen S)
    (Z.to_nat (digest_length P)) (last_node S).

Definition default_param (digest key : Z) : blake2b_param :=
  mk_param digest key 1 1 (store32 0) (store32 0) (store32 0) 0 0
    (repeat 0 14) (repeat 0 16) (repeat 0 16).

(** [None] is the return value -1. *)
Definition blake2b_init (outlen : nat) : option blake2b_state :=
  if (Nat.eqb outlen 0 || Nat.ltb BLAKE2B_OUTBYTES outlen)%bool then None
  else Some (blake2b_init_param (default_param (u8 (Z.of_nat outlen)) 0)).

Definition upd (v : list Z) (i : nat) (x : Z) : list Z :=
  firstn i v ++ x :: skipn (S i) v.

Definition G (m : list Z) (r i : nat) (a b c d : nat) (v : list Z) : list Z :=
  let sg := nth r blake2b_sigma [] in
  let va := nth a v 0 in let vb := nth b v 0 in
  let vc := nth c v 0 in let vd := nth d v 0 in
  let va := va +u vb +u nth (nth (2 * i + 0) sg 0%nat) m 0 in
  let vd := rotr64 (vd ^u va) 32 in
  let vc := vc +u vd in
  let vb := rotr64 (vb ^u vc) 24 in
  let va := va +u vb +u nth (nth (2 * i + 1) sg 0%nat) m 0 in
  let vd := rotr64 (vd ^u va) 16 in
  let vc := vc +u vd in
  let vb := rotr64 (vb ^u vc) 63 in
  upd (upd (upd (upd v a va) b vb) c vc) d vd.

Definition ROUND (m : list Z) (v : list Z) (r : nat) : list Z :=
  let v := G m r 0 0 4 8 12 v in
  let v := G m r 1 1 5 9 13 v in
  let v := G m r 2 2 6 10 14 v in
  let v := G m r 3 3 7 11 15 v in
  let v := G m r 4 0 5 10 15 v in
  let v := G m r 5 1 6 11 12 v in
  let v := G m r 6 2 7 8 13 v in
  G m r 7 3 4 9 14 v.

Definition blake2b_compress (S : blake2b_state) (block : list Z) : blake2b_state :=
  let m := map (fun i => load64 (skipn (8 * i) block)) (seq 0 16) in
  let v := map (fun i => nth i (h S) 0) (seq 0 8) ++
    [nth 0 blake2b_IV 0; nth 1 blake2b_IV 0; nth 2 blake2b_IV 0; nth 3 blake2b_IV 0;
     nth 4 blake2b_IV 0 ^u t0 S; nth 5 blake2b_IV 0 ^u t1 S;
     nth 6 blake2b_IV 0 ^u f0 S; nth 7 blake2b_IV 0 ^u f1 S] in
  let v := fold_left (ROUND m) (seq 0 12) v in
  set_h S (map (fun i => nth i (h S) 0 ^u nth i v 0 ^u nth (i + 8) v 0) (seq 0 8)).

(** The loop [while (inlen > BLAKE2B_BLOCKBYTES)]; [length in] iterations are
    more than enough, each one consumes 128 bytes. *)
Fixpoint update_blocks (fuel : nat) (S : blake2b_state) (inp : list Z)
  : blake2b_state * list Z :=
  match fuel with
  | O => (S, inp)
  | Datatypes.S fuel' =>
      if Nat.ltb BLAKE2B_BLOCKBYTES (length inp) then
        let S := blake2b_increment_counter S (Z.of_nat BLAKE2B_BLOCKBYTES) in
        let S := blake2b_compress S (firstn BLAKE2B_BLOCKBYTES inp) in
        update_blocks fuel' S (skipn BLAKE2B_BLOCKBYTES inp)
      else (S, inp)
  end.

Definition blake2b_update (S : blake2b_state) (inp : list Z) : blake2b_state :=
  if Nat.ltb 0 (length inp) then
    let left := buflen S in
    let fill := (BLAKE2B_BLOCKBYTES - left)%nat in
    let '(S1, inp) :=
      if Nat.ltb fill (length inp) then
        let S := set_buf S (memcpy_at (buf S) left (firstn fill inp)) 0 in
        let S := blake2b_increment_counter S (Z.of_nat BLAKE2B_BLOCKBYTES) in
        let S := blake2b_compress S (buf S) in
        let inp := skipn fill inp in
        update_blocks (length inp) S inp
      else (S, inp) in
    set_buf S1 (memcpy_at (buf S1) (buflen S1) inp) (buflen S1 + length inp)
  else S.

(** [None] is the return value -1; the state is returned too, since the code
    mutates it. *)
Definition blake2b_final (S : blake2b_state) (out_len : nat)
  : option (blake2b_state * list Z) :=
  if Nat.ltb out_len (outlen S) then None
  else if blake2b_is_lastblock S then None
  else
    let S := blake2b_increment_counter S (Z.of_nat (buflen S)) in
    let S := blake2b_set_lastblock S in
    let S := set_buf S (memcpy_at (buf S) (buflen S)
      (repeat 0 (BLAKE2B_BLOCKBYTES - buflen S))) (buflen S) in
    let S := blake2b_compress S (buf S) in
    let buffer := concat (map store64 (h S)) in
    Some (S, firstn (outlen S) buffer).

Definition blake2b_init_key (outlen : nat) (key : list Z) : option blake2b_state :=
  if (Nat.eqb outlen 0 || Nat.ltb BLAKE2B_OUTBYTES outlen)%bool then None
  else if (Nat.eqb (length key) 0 || Nat.ltb BLAKE2B_KEYBYTES (length key))%bool then None
  else
    let P := default_param (u8 (Z.of_nat outlen)) (u8 (Z.of_nat (length key))) in
    let S := blake2b_init_param P in
    let block := memcpy_at (repeat 0 BLAKE2B_BLOCKBYTES) 0 key in
    Some (blake2b_update S block).

(** The pointer checks on [in], [out] and [key] have no counterpart: a list is
    never a null pointer.  The result of [blake2b_final] is ignored by the
    code; here it is always a digest (see [blake2b_total]). *)
Definition blake2b (outlen : nat) (inp key : list Z) : option (list Z) :=
  if (Nat.eqb outlen 0 || Nat.ltb BLAKE2B_OUTBYTES outlen)%bool then None
  else if Nat.ltb BLAKE2B_KEYBYTES (length key) then None
  else
    match (if Nat.ltb 0 (length key) then blake2b_init_key outlen key
           else blake2b_init outlen) with
    | None => None
    | Some S1 => option_map snd (blake2b_final (blake2b_update S1 inp) outlen)
    end.

(** Known answers: RFC 7693 appendix A, a two-block message, a keyed hash. *)
Example abc512 : blake2b 64 [97; 98; 99] [] = Some (be_bytes 64
  0xba80a53f981c4d0d6a2797b69f12f6e94c212f14685ac4b74b12bb6fdbffa2d17d87c5392aab792dc252d5de4533cc9518d38aa8dbf1925ab92386edd4009923).
Proof. vm_compute. reflexivity. Qed.

Example range200_256 : blake2b 32 (map Z.of_nat (seq 0 200)) [] = Some (be_bytes 32
  0x63c3d97a9f8894d5e043a707b0fee7f7ec4c049a23bbf1079df20b4165f9e22d).
Proof. vm_compute. reflexivity. Qed.

Example keyed40 : blake2b 5 (map Z.of_nat (seq 0 200)) [97; 98; 99; 100; 101; 102]
  = Some (be_bytes 5 0x6fe564781b).
Proof. vm_compute. reflexivity. Qed.

Lemma BLOCKBYTES_val : BLAKE2B_BLOCKBYTES = 128%nat.
Proof. reflexivity. Qed.

(** The rest never computes a compression: keep the kernel from trying. *)
Strategy opaque [blake2b_compress BLAKE2B_BLOCKBYTES].

(** ** Abstract view: chaining value plus pending bytes *)

(** The state without its buffer, and the bytes still to be compressed. *)
Definition core (S : blake2b_state) : blake2b_state := set_buf S [] 0.
Definition pending (S : blake2b_state) : list Z := firstn (buflen S) (buf S).

(** Two states are equivalent when they differ only in the stale part of the
    buffer, behind [buflen]. *)
Definition state_equiv (S S' : blake2b_state) : Prop :=
  core S = core S' /\ pending S = pending S' /\ buflen S = buflen S'.

#[export] Instance state_equiv_equivalence : Equivalence state_equiv.
Proof.
  split.
  - intros S. now split.
  - intros S S' (? & ? & ?). repeat split; congruence.
  - intros S S' S'' (? & ? & ?) (? & ? & ?). repeat split; congruence.
Qed.

(** Well-formed states: the buffer has its 128 bytes and at most that many are
    pending. *)
Definition state_wf (S : blake2b_state) : Prop :=
  length (buf S) = BLAKE2B_BLOCKBYTES /\ (buflen S <= BLAKE2B_BLOCKBYTES)%nat.

(** Compress every complete block that is not the last one. *)
Definition absorb (S : blake2b_state) (d : list Z) : blake2b_state * list Z :=
  update_blocks (length d) S d.

Lemma pending_length (S : blake2b_state) :
  state_wf S -> length (pending S) = buflen S.
Proof. intros [H1 H2]. unfold pending. rewrite length_firstn. lia. Qed.

Lemma update_blocks_fuel (n : nat) :
  forall k S d, (length d <= n)%nat -> (length d <= k)%nat ->
  update_blocks n S d = update_blocks k S d.
Proof.
  induction n as [| n IH]; intros k S d Hn Hk.
  - destruct d; [| simpl in Hn; lia]. now destruct k.
  - destruct k as [| k]; [destruct d; [reflexivity | simpl in Hk; lia] |].
    cbn [update_blocks]. destruct (Nat.ltb_spec BLAKE2B_BLOCKBYTES (length d)) as [Hlt |];
      [| reflexivity].
    apply IH; rewrite length_skipn; pose proof BLOCKBYTES_val; lia.
Qed.

Lemma absorb_small (S : blake2b_state) (d : list Z) :
  (length d <= BLAKE2B_BLOCKBYTES)%nat -> absorb S d = (S, d).
Proof.
  intros H. unfold absorb. destruct (length d) eqn:E; [reflexivity |].
  cbn [update_blocks]. rewrite E.
  destruct (Nat.ltb_spec BLAKE2B_BLOCKBYTES (Datatypes.S n)); [lia | reflexivity].
Qed.

Lemma absorb_block (S : blake2b_state) (b d : list Z) :
  length b = BLAKE2B_BLOCKBYTES -> d <> [] ->
  absorb S (b ++ d) =
  absorb (blake2b_compress (blake2b_increment_counter S (Z.of_nat BLAKE2B_BLOCKBYTES)) b) d.
Proof.
  intros Hb Hd. assert (0 < length d)%nat by (destruct d; simpl; [easy | lia]).
  unfold absorb. rewrite length_app, Hb.
  rewrite (update_blocks_fuel _ (Datatypes.S (BLAKE2B_BLOCKBYTES + length d)))
    by (rewrite length_app; lia).
  cbn [update_blocks]. rewrite length_app, Hb.
  destruct (Nat.ltb_spec BLAKE2B_BLOCKBYTES (BLAKE2B_BLOCKBYTES + length d)); [| lia].
  rewrite firstn_app, skipn_app, Hb, Nat.sub_diag, firstn_O, app_nil_r, firstn_all2 by lia.
  rewrite (skipn_all2 b) by lia. cbn [app skipn].
  apply update_blocks_fuel; lia.
Qed.

(** [absorb] only touches the chaining value and the counter. *)
Lemma absorb_set_buf (S : blake2b_state) (d b : list Z) (n : nat) :
  absorb (set_buf S b n) d = (set_buf (fst (absorb S d)) b n, snd (absorb S d)).
Proof.
  unfold absorb. generalize (length d) as k. intros k. revert S d.
  induction k as [| k IH]; intros S d; [reflexivity |].
  cbn [update_blocks]. destruct (Nat.ltb BLAKE2B_BLOCKBYTES (length d)); [| reflexivity].
  rewrite <- IH. reflexivity.
Qed.

Lemma absorb_rest_length (S : blake2b_state) (d : list Z) :
  (length (snd (absorb S d)) <= BLAKE2B_BLOCKBYTES)%nat.
Proof.
  unfold absorb. assert (H : (length d <= length d)%nat) by lia. revert H.
  generalize (length d) at 2 3 as k. intros k. revert S d.
  induction k as [| k IH]; intros S d Hk.
  - destruct d; simpl in *; lia.
  - cbn [update_blocks]. destruct (Nat.ltb_spec BLAKE2B_BLOCKBYTES (length d)); [| simpl; lia].
    apply IH. rewrite length_skipn. pose proof BLOCKBYTES_val. lia.
Qed.

Lemma absorb_buf (S : blake2b_state) (d : list Z) :
  buf (fst (absorb S d)) = buf S /\ buflen (fst (absorb S d)) = buflen S.
Proof.
  unfold absorb. generalize (length d) as k. intros k. revert S d.
  induction k as [| k IH]; intros S d; [easy |].
  cbn [update_blocks]. destruct (Nat.ltb BLAKE2B_BLOCKBYTES (length d)); [| easy].
  match goal with |- context [update_blocks k ?X ?Y] => destruct (IH X Y) as [-> ->] end.
  split; reflexivity.
Qed.

(** Absorbing in two steps is absorbing the concatenation. *)
Lemma absorb_app (S : blake2b_state) (a b : list Z) :
  absorb S (a ++ b) = absorb (fst (absorb S a)) (snd (absorb S a) ++ b).
Proof.
  remember (length a) as n eqn:Hn. revert S a Hn.
  induction n as [n IH] using lt_wf_ind. intros S a ->.
  destruct (Nat.le_gt_cases (length a) BLAKE2B_BLOCKBYTES) as [Hle | Hgt].
  - rewrite (absorb_small S a) by assumption. reflexivity.
  - assert (Hx : length (firstn BLAKE2B_BLOCKBYTES a) = BLAKE2B_BLOCKBYTES)
      by (rewrite length_firstn; lia).
    assert (Hy : length (skipn BLAKE2B_BLOCKBYTES a) = (length a - BLAKE2B_BLOCKBYTES)%nat)
      by apply length_skipn.
    rewrite <- (firstn_skipn BLAKE2B_BLOCKBYTES a).
    remember (firstn BLAKE2B_BLOCKBYTES a) as x. remember (skipn BLAKE2B_BLOCKBYTES a) as y.
    assert (y <> []) by (intros ->; simpl in Hy; lia).
    rewrite <- app_assoc, (absorb_block S x (y ++ b)), (absorb_block S x y); try assumption.
    + apply IH with (m := length y); [pose proof BLOCKBYTES_val; lia | reflexivity].
    + now destruct y.
Qed.

(** [blake2b_update] seen through the abstraction. *)
Lemma update_abs (S : blake2b_state) (inp : list Z) :
  state_wf S ->
  core (blake2b_update S inp) = fst (absorb (core S) (pending S ++ inp)) /\
  pending (blake2b_update S inp) = snd (absorb (core S) (pending S ++ inp)) /\
  state_wf (blake2b_update S inp).
Proof.
  intros Hwf. pose proof (pending_length S Hwf) as Hpl. destruct Hwf as [Hb Hl].
  unfold blake2b_update. destruct (Nat.ltb_spec 0 (length inp)) as [Hpos | Hnil].
  2:{ destruct inp; [| simpl in Hnil; lia]. rewrite app_nil_r, absorb_small by lia.
      repeat split; assumption. }
  destruct (Nat.ltb_spec (BLAKE2B_BLOCKBYTES - buflen S) (length inp)) as [Hgt | Hle].
  - set (fill := (BLAKE2B_BLOCKBYTES - buflen S)%nat) in *.
    change (update_blocks (length (skipn fill inp)) ?X (skipn fill inp))
      with (absorb X (skipn fill inp)).
    assert (Hmem : memcpy_at (buf S) (buflen S) (firstn fill inp)
                   = pending S ++ firstn fill inp).
    { unfold memcpy_at, pending. rewrite (skipn_all2 (buf S)), app_nil_r; [reflexivity |].
      rewrite length_firstn. lia. }
    assert (Hblk : length (pending S ++ firstn fill inp) = BLAKE2B_BLOCKBYTES)
      by (rewrite length_app, length_firstn; lia).
    assert (Habs : absorb (core S) (pending S ++ inp) =
      absorb (blake2b_compress (blake2b_increment_counter (core S)
        (Z.of_nat BLAKE2B_BLOCKBYTES)) (pending S ++ firstn fill inp)) (skipn fill inp)).
    { rewrite <- (firstn_skipn fill inp) at 1. rewrite app_assoc. apply absorb_block; [assumption |].
      intros E. apply (f_equal (@length Z)) in E. rewrite length_skipn in E. simpl in E. lia. }
    rewrite Habs, Hmem. cbn [buf set_buf blake2b_increment_counter set_t].
    set (X := blake2b_compress _ (pending S ++ firstn fill inp)).
    set (Y := blake2b_compress (blake2b_increment_counter (core S) _) _).
    assert (HXY : X = set_buf Y (pending S ++ firstn fill inp) 0) by reflexivity.
    rewrite HXY, absorb_set_buf.
    pose proof (absorb_rest_length Y (skipn fill inp)) as Hrest.
    pose proof (absorb_buf Y (skipn fill inp)) as [HYb HYl].
    destruct (absorb Y (skipn fill inp)) as [Z' rest] eqn:EY. cbn [fst snd] in *.
    cbn [buf buflen set_buf]. repeat split.
    + unfold core. destruct Z'. cbn in HYb, HYl. subst. reflexivity.
    + unfold pending. cbn [buf buflen set_buf].
      rewrite memcpy_at_prefix by lia. reflexivity.
    + cbn [buf set_buf]. rewrite memcpy_at_length; lia.
    + cbn [buflen set_buf]. lia.
  - rewrite absorb_small by (rewrite length_app; lia). cbn [fst snd]. repeat split.
    + unfold pending. cbn [buf buflen set_buf]. now rewrite memcpy_at_prefix by lia.
    + cbn [buf set_buf]. rewrite memcpy_at_length; lia.
    + cbn [buflen set_buf]. lia.
Qed.

(** ** Streaming *)

Definition digest (S : blake2b_state) (n : nat) : option (list Z) :=
  option_map snd (blake2b_final S n).

#[export] Instance update_proper (inp : list Z) :
  Proper ((fun S S' => state_wf S /\ state_wf S' /\ state_equiv S S') ==> state_equiv)
    (fun S => blake2b_update S inp).
Proof.
  intros S S' (HS & HS' & Hc & Hp & Hl).
  destruct (update_abs S inp HS) as (C1 & P1 & W1).
  destruct (update_abs S' inp HS') as (C2 & P2 & W2).
  assert (Hpe : pending (blake2b_update S inp) = pending (blake2b_update S' inp))
    by congruence.
  repeat split; [congruence | assumption |].
  rewrite <- !pending_length by assumption. now rewrite Hpe.
Qed.

(** The digest in terms of the abstract view. *)
Lemma digest_abs (S : blake2b_state) (n : nat) :
  state_wf S ->
  digest S n =
  if Nat.ltb n (outlen (core S)) then None
  else if blake2b_is_lastblock (core S) then None
  else Some (firstn (outlen (core S)) (concat (map store64 (h (blake2b_compress
    (blake2b_set_lastblock (blake2b_increment_counter (core S) (Z.of_nat (buflen S))))
    (pending S ++ repeat 0 (BLAKE2B_BLOCKBYTES - buflen S))))))).
Proof.
  intros [HX HXl]. unfold digest, blake2b_final.
  change (outlen (core S)) with (outlen S).
  change (blake2b_is_lastblock (core S)) with (blake2b_is_lastblock S).
  destruct (_ <? _)%nat; [reflexivity |].
  destruct (blake2b_is_lastblock S); [reflexivity |].
  assert (Hpad : memcpy_at (buf S) (buflen S) (repeat 0 (BLAKE2B_BLOCKBYTES - buflen S))
    = pending S ++ repeat 0 (BLAKE2B_BLOCKBYTES - buflen S)).
  { unfold memcpy_at, pending.
    rewrite (skipn_all2 (buf S)), app_nil_r; [reflexivity | rewrite repeat_length; lia]. }
  rewrite <- Hpad. destruct S as [h0 a b c d bf bl ol ln]. unfold blake2b_set_lastblock.
  cbn [core set_buf set_t last_node blake2b_increment_counter].
  destruct (negb (ln =? 0)); reflexivity.
Qed.

(** The digest does not depend on the stale bytes of the buffer. *)
Lemma digest_equiv (S S' : blake2b_state) (n : nat) :
  state_wf S -> state_wf S' -> state_equiv S S' -> digest S n = digest S' n.
Proof.
  intros HS HS' (Hc & Hp & Hl). rewrite !digest_abs by assumption.
  now rewrite Hc, Hp, Hl.
Qed.

Lemma fold_update_abs (chunks : list (list Z)) :
  forall S, state_wf S ->
  state_wf (fold_left blake2b_update chunks S) /\
  (core (fold_left blake2b_update chunks S), pending (fold_left blake2b_update chunks S))
  = absorb (core S) (pending S ++ concat chunks).
Proof.
  induction chunks as [| c cs IH]; intros S HS.
  - split; [assumption |]. cbn [fold_left concat]. rewrite app_nil_r.
    rewrite absorb_small; [reflexivity |].
    rewrite pending_length by assumption. apply HS.
  - cbn [fold_left concat]. destruct (update_abs S c HS) as (C & P & W).
    destruct (IH _ W) as [W' E]. split; [assumption |].
    rewrite E, C, P, app_assoc. symmetry. apply absorb_app.
Qed.

Lemma streaming_chunks (S : blake2b_state) (chunks : list (list Z)) (n : nat) :
  state_wf S ->
  digest (fold_left blake2b_update chunks S) n = digest (blake2b_update S (concat chunks)) n.
Proof.
  intros Hwf. destruct (fold_update_abs chunks S Hwf) as [W E].
  destruct (update_abs S (concat chunks) Hwf) as (C & P & W').
  destruct (absorb (core S) (pending S ++ concat chunks)) as [c p].
  inversion E as [[E1 E2]]. cbn [fst snd] in *.
  apply digest_equiv; [assumption | assumption |].
  assert (Hpe : pending (fold_left blake2b_update chunks S)
                = pending (blake2b_update S (concat chunks))) by congruence.
  repeat split; [congruence | assumption |].
  rewrite <- !pending_length by assumption. now rewrite Hpe.
Qed.

(** Feeding a message in any number of pieces gives the digest of feeding it
    at once: what [blake2b_update] callers (block hashing, [vote::hash],
    Ed25519) rely on. *)
Theorem blake2b_streaming (S : blake2b_state) (chunks : list (list Z)) (n : nat)
  (Hwf : state_wf S) :
  digest (fold_left blake2b_update chunks S) n = digest (blake2b_update S (concat chunks)) n.
Proof. now apply streaming_chunks. Qed.

(** ** The counter and the reference definition of the hash (RFC 7693, 3.3) *)

Definition counter_is (S : blake2b_state) (c : Z) : Prop :=
  t0 S = c mod 2 ^ 64 /\ t1 S = (c / 2 ^ 64) mod 2 ^ 64.

Lemma increment_counter_spec (S : blake2b_state) (c inc : Z) :
  counter_is S c -> 0 <= c -> 0 <= inc < 2 ^ 64 ->
  counter_is (blake2b_increment_counter S inc) (c + inc).
Proof.
  intros [H0 H1] Hc Hi. unfold counter_is, blake2b_increment_counter, add64, u64.
  cbn [t0 t1 set_t]. rewrite H0, H1.
  pose proof (Z.div_mod c (2 ^ 64) ltac:(lia)) as Hd.
  pose proof (Z.mod_pos_bound c (2 ^ 64) ltac:(lia)) as Hm.
  set (q := c / 2 ^ 64) in *. set (r := c mod 2 ^ 64) in *.
  assert (Hr : (c + inc) mod 2 ^ 64 = (r + inc) mod 2 ^ 64).
  { rewrite Hd. replace (2 ^ 64 * q + r + inc) with (r + inc + q * 2 ^ 64) by ring.
    now rewrite Z.mod_add by lia. }
  split; [now rewrite Hr |]. rewrite Zplus_mod_idemp_l. f_equal.
  destruct (Z.lt_ge_cases (r + inc) (2 ^ 64)) as [Hlt | Hge].
  - rewrite (Z.mod_small (r + inc)) by lia.
    destruct (Z.ltb_spec (r + inc) inc); [lia |].
    apply (Z.div_unique (c + inc) (2 ^ 64) _ (r + inc)); lia.
  - replace ((r + inc) mod 2 ^ 64) with (r + inc - 2 ^ 64).
    + destruct (Z.ltb_spec (r + inc - 2 ^ 64) inc); [| lia].
      apply (Z.div_unique (c + inc) (2 ^ 64) _ (r + inc - 2 ^ 64)); lia.
    + apply (Z.mod_unique (r + inc) (2 ^ 64) 1); lia.
Qed.

(** The compression of one block, with the number of bytes hashed so far and
    the finalisation flag. *)
Definition spec_F (hh : list Z) (c : Z) (last : bool) (block : list Z) : list Z :=
  h (blake2b_compress
       (mk_state hh (c mod 2 ^ 64) ((c / 2 ^ 64) mod 2 ^ 64)
          (if last then 2 ^ 64 - 1 else 0) 0 [] 0 0 0) block).

(** All blocks but the last, then the zero-padded last one. *)
Fixpoint spec_blocks (fuel : nat) (hh : list Z) (c : Z) (d : list Z) : list Z :=
  match fuel with
  | Datatypes.S fuel' =>
      if Nat.ltb BLAKE2B_BLOCKBYTES (length d)
      then spec_blocks fuel' (spec_F hh (c + 128) false (firstn BLAKE2B_BLOCKBYTES d))
             (c + 128) (skipn BLAKE2B_BLOCKBYTES d)
      else spec_F hh (c + Z.of_nat (length d)) true
             (d ++ repeat 0 (BLAKE2B_BLOCKBYTES - length d))
  | O => spec_F hh (c + Z.of_nat (length d)) true
           (d ++ repeat 0 (BLAKE2B_BLOCKBYTES - length d))
  end.

Definition spec_key_block (key : list Z) : list Z :=
  match key with [] => [] | _ => key ++ repeat 0 (BLAKE2B_BLOCKBYTES - length key) end.

(** The initialisation vector xored with the parameter block: digest length,
    key length, fanout 1, depth 1. *)
Definition spec_h0 (outlen klen : nat) : list Z :=
  match blake2b_IV with
  | x :: l => Z.lxor x (Z.of_nat outlen + 2 ^ 8 * Z.of_nat klen + 2 ^ 16 + 2 ^ 24) :: l
  | [] => []
  end.

Definition spec_blake2b (outlen : nat) (inp key : list Z) : list Z :=
  let msg := spec_key_block key ++ inp in
  firstn outlen (concat (map (le_bytes 8)
    (spec_blocks (length msg) (spec_h0 outlen (length key)) 0 msg))).

Lemma store64_le_bytes (w : Z) : store64 w = le_bytes 8 w.
Proof.
  unfold store64, u8. cbn [le_bytes].
  rewrite !Z.div_div, !shiftr_div by lia. rewrite Z.pow_0_r, Z.div_1_r. reflexivity.
Qed.

(** The initial states of [blake2b_init] and [blake2b_init_key], for every
    digest and key length the code accepts. *)
Definition list_eqb (l l' : list Z) : bool :=
  if list_eq_dec Z.eq_dec l l' then true else false.

Lemma init_h_all :
  forallb (fun o => forallb (fun k =>
    list_eqb (h (blake2b_init_param
      (default_param (u8 (Z.of_nat o)) (u8 (Z.of_nat k))))) (spec_h0 o k)
    && Nat.eqb (outlen (blake2b_init_param
      (default_param (u8 (Z.of_nat o)) (u8 (Z.of_nat k))))) o)%bool
    (seq 0 65)) (seq 1 64) = true.
Proof. vm_compute. reflexivity. Qed.

Lemma list_eqb_eq (l l' : list Z) : list_eqb l l' = true -> l = l'.
Proof. unfold list_eqb. now destruct (list_eq_dec Z.eq_dec l l'). Qed.

Lemma init_param_eta (P : blake2b_param) :
  blake2b_init_param P = mk_state (h (blake2b_init_param P)) 0 0 0 0
    (repeat 0 BLAKE2B_BLOCKBYTES) 0 (outlen (blake2b_init_param P)) 0.
Proof. reflexivity. Qed.

Strategy opaque [blake2b_init_param default_param].

Lemma init_param_state (o k : nat) :
  (1 <= o <= 64)%nat -> (k <= 64)%nat ->
  blake2b_init_param (default_param (u8 (Z.of_nat o)) (u8 (Z.of_nat k)))
  = mk_state (spec_h0 o k) 0 0 0 0 (repeat 0 BLAKE2B_BLOCKBYTES) 0 o 0.
Proof.
  intros Ho Hk. pose proof init_h_all as H. rewrite forallb_forall in H.
  specialize (H o). rewrite forallb_forall in H.
  specialize (H ltac:(apply in_seq; lia) k ltac:(apply in_seq; lia)).
  apply andb_prop in H as [H1 H2]. apply Nat.eqb_eq in H2.
  apply list_eqb_eq in H1. now rewrite init_param_eta, H1, H2.
Qed.

Lemma spec_blocks_fuel (n : nat) :
  forall k hh c d, (length d <= n)%nat -> (length d <= k)%nat ->
  spec_blocks n hh c d = spec_blocks k hh c d.
Proof.
  induction n as [| n IH]; intros k hh c d Hn Hk.
  - destruct d; [| simpl in Hn; lia]. now destruct k.
  - destruct k as [| k]; [destruct d; [reflexivity | simpl in Hk; lia] |].
    cbn [spec_blocks]. destruct (Nat.ltb_spec BLAKE2B_BLOCKBYTES (length d)); [| reflexivity].
    apply IH; rewrite length_skipn; pose proof BLOCKBYTES_val; lia.
Qed.

(** A state as it is while a message is absorbed: flags and [last_node] clear. *)
Definition running (S : blake2b_state) (hh : list Z) (c : Z) (o : nat) : Prop :=
  h S = hh /\ counter_is S c /\ f0 S = 0 /\ f1 S = 0 /\ last_node S = 0 /\ outlen S = o.

Lemma running_step (S : blake2b_state) (hh : list Z) (c : Z) (o : nat) (b : list Z) :
  running S hh c o -> 0 <= c ->
  running (blake2b_compress (blake2b_increment_counter S (Z.of_nat BLAKE2B_BLOCKBYTES)) b)
    (spec_F hh (c + 128) false b) (c + 128) o.
Proof.
  intros (Hh & Hct & Hf0 & Hf1 & Hln & Ho) Hc.
  pose proof (increment_counter_spec S c 128 Hct Hc ltac:(lia)) as Hinc.
  rewrite BLOCKBYTES_val. split; [| split; [exact Hinc | now repeat split]].
  destruct Hinc as [Hi0 Hi1]. unfold spec_F. rewrite <- Hi0, <- Hi1.
  destruct S as [sh a b0 ff0 ff1 bf bl ol ln]. cbn in Hh, Hf0, Hf1. subst. reflexivity.
Qed.

Lemma running_last (S : blake2b_state) (hh : list Z) (c : Z) (o : nat) (d b : list Z) :
  running S hh c o -> 0 <= c -> (length d <= BLAKE2B_BLOCKBYTES)%nat ->
  h (blake2b_compress
      (blake2b_set_lastblock (blake2b_increment_counter S (Z.of_nat (length d)))) b)
  = spec_F hh (c + Z.of_nat (length d)) true b.
Proof.
  intros (Hh & Hct & Hf0 & Hf1 & Hln & Ho) Hc Hle. pose proof BLOCKBYTES_val.
  pose proof (increment_counter_spec S c (Z.of_nat (length d)) Hct Hc ltac:(lia)) as [Hi0 Hi1].
  unfold spec_F. rewrite <- Hi0, <- Hi1.
  destruct S as [sh a b0 ff0 ff1 bf bl ol ln]. cbn in Hh, Hf0, Hf1, Hln. subst. reflexivity.
Qed.

Lemma spec_blocks_last (k : nat) (hh : list Z) (c : Z) (d : list Z) :
  (length d <= BLAKE2B_BLOCKBYTES)%nat ->
  spec_blocks k hh c d = spec_F hh (c + Z.of_nat (length d)) true
    (d ++ repeat 0 (BLAKE2B_BLOCKBYTES - length d)).
Proof.
  intros Hle. destruct k; [reflexivity |]. cbn [spec_blocks].
  destruct (Nat.ltb_spec BLAKE2B_BLOCKBYTES (length d)); [lia | reflexivity].
Qed.

Lemma spec_blocks_step (hh : list Z) (c : Z) (d : list Z) :
  (BLAKE2B_BLOCKBYTES < length d)%nat ->
  spec_blocks (length d) hh c d =
  spec_blocks (length (skipn BLAKE2B_BLOCKBYTES d))
    (spec_F hh (c + 128) false (firstn BLAKE2B_BLOCKBYTES d)) (c + 128)
    (skipn BLAKE2B_BLOCKBYTES d).
Proof.
  intros Hgt. pose proof (length_skipn BLAKE2B_BLOCKBYTES d) as Hy.
  destruct (length d) as [| k] eqn:Ed; [lia |]. cbn [spec_blocks]. rewrite Ed.
  destruct (Nat.ltb_spec BLAKE2B_BLOCKBYTES (Datatypes.S k)); [| lia].
  apply spec_blocks_fuel; pose proof BLOCKBYTES_val; lia.
Qed.

(** Absorbing and closing is the reference definition. *)
Lemma absorb_spec (d : list Z) :
  forall S hh c o, running S hh c o -> 0 <= c ->
  h (blake2b_compress
      (blake2b_set_lastblock (blake2b_increment_counter (fst (absorb S d))
         (Z.of_nat (length (snd (absorb S d))))))
      (snd (absorb S d) ++ repeat 0 (BLAKE2B_BLOCKBYTES - length (snd (absorb S d)))))
  = spec_blocks (length d) hh c d
  /\ outlen (fst (absorb S d)) = o /\ f0 (fst (absorb S d)) = 0.
Proof.
  remember (length d) as n eqn:Hn. revert d Hn.
  induction n as [n IH] using lt_wf_ind. intros d -> S hh c o R Hc.
  destruct (Nat.le_gt_cases (length d) BLAKE2B_BLOCKBYTES) as [Hle | Hgt].
  - rewrite absorb_small, spec_blocks_last by assumption. cbn [fst snd]. split.
    + now apply running_last with o.
    + now destruct R as (_ & _ & ? & _ & _ & ?).
  - assert (Hx : length (firstn BLAKE2B_BLOCKBYTES d) = BLAKE2B_BLOCKBYTES)
      by (rewrite length_firstn; lia).
    pose proof (length_skipn BLAKE2B_BLOCKBYTES d) as Hy.
    assert (Hne : skipn BLAKE2B_BLOCKBYTES d <> [])
      by (intros E; rewrite E in Hy; simpl in Hy; lia).
    pose proof (absorb_block S _ _ Hx Hne) as Hab. rewrite firstn_skipn in Hab.
    rewrite Hab, spec_blocks_step by assumption.
    apply (IH (length (skipn BLAKE2B_BLOCKBYTES d)));
      [pose proof BLOCKBYTES_val; lia | reflexivity | now apply running_step | lia].
Qed.

Lemma digest_spec (S : blake2b_state) (msg : list Z) (o k : nat) :
  state_wf S -> (1 <= o)%nat ->
  core S = core (blake2b_init_param (default_param (u8 (Z.of_nat o)) (u8 (Z.of_nat k)))) ->
  (o <= 64)%nat -> (k <= 64)%nat ->
  digest (blake2b_update S msg) o
  = Some (firstn o (concat (map (le_bytes 8)
      (spec_blocks (length (pending S ++ msg)) (spec_h0 o k) 0 (pending S ++ msg))))).
Proof.
  intros HS Ho1 HC Ho2 Hk. rewrite init_param_state in HC by lia.
  destruct (update_abs S msg HS) as (C & P & W).
  rewrite digest_abs by assumption. rewrite <- (pending_length _ W), C, P.
  assert (R : running (core S) (spec_h0 o k) 0 o) by (rewrite HC; now repeat split).
  destruct (absorb_spec (pending S ++ msg) _ _ _ _ R ltac:(lia)) as (E & Eo & Ef).
  rewrite E, Eo. unfold blake2b_is_lastblock. rewrite Ef, Z.eqb_refl. cbn [negb].
  rewrite Nat.ltb_irrefl. do 3 f_equal. apply map_ext. exact store64_le_bytes.
Qed.

Lemma init_wf (o k : nat) :
  (1 <= o <= 64)%nat -> (k <= 64)%nat ->
  state_wf (blake2b_init_param (default_param (u8 (Z.of_nat o)) (u8 (Z.of_nat k)))).
Proof.
  intros. rewrite init_param_state by lia.
  split; [apply repeat_length | apply Nat.le_0_l].
Qed.

Lemma init_pending (o k : nat) :
  (1 <= o <= 64)%nat -> (k <= 64)%nat ->
  pending (blake2b_init_param (default_param (u8 (Z.of_nat o)) (u8 (Z.of_nat k)))) = [].
Proof. intros. now rewrite init_param_state by lia. Qed.

(** The unkeyed hash of a message fed in pieces, as block hashing uses it. *)
Lemma init_chunks_spec (o : nat) (chunks : list (list Z)) :
  (1 <= o <= 64)%nat ->
  exists S0, blake2b_init o = Some S0 /\
  digest (fold_left blake2b_update chunks S0) o = Some (spec_blake2b o (concat chunks) []).
Proof.
  intros Ho. unfold blake2b_init, BLAKE2B_OUTBYTES.
  destruct (Nat.eqb_spec o 0); [lia |]. destruct (Nat.ltb_spec 64 o); [lia |].
  change (blake2b_init_param (default_param (u8 (Z.of_nat o)) 0))
    with (blake2b_init_param (default_param (u8 (Z.of_nat o)) (u8 (Z.of_nat 0)))).
  pose proof (init_wf o 0 Ho (Nat.le_0_l _)) as W0. set (S0 := blake2b_init_param _) in *.
  exists S0. split; [reflexivity |]. rewrite streaming_chunks by assumption.
  rewrite (digest_spec S0 _ o 0 W0 ltac:(lia) eq_refl ltac:(lia) ltac:(lia)).
  unfold S0. now rewrite (init_pending o 0) by lia.
Qed.



Lemma blake2b_streaming_witness :
  digest (fold_left blake2b_update [[1]; repeat 2 200; [3]] blake2b_init0) 64
  = digest (blake2b_update blake2b_init0 (concat [[1]; repeat 2 200; [3]])) 64.
Proof.
  apply (blake2b_streaming blake2b_init0 [[1]; repeat 2 200; [3]] 64).
  split; [apply repeat_length | apply Nat.le_0_l].
Defined.

End Blake2bRef.
