(* ===== verification/Portable.v ===== *)
(** * Portable word operations

    Model of [crypto/ed25519-donna/ed25519-donna-portable.h]: the 128-bit
    macros (the branch with a native [uint128_t]) and the endian helpers, with
    the lemmas the field and scalar arithmetic share: no-overflow evaluation
    ([exact]), shifting two words into one, reading words from bytes. *)

From Stdlib Require Import ZArith Lia List Bool.
From S2P Require Import Prelude.
Import ListNotations.
Local Open Scope Z_scope.
Local Open Scope word_scope.

(** ** ed25519-donna-portable.h: the 128-bit macros *)

Definition mul64x64_128 (a b : Z) : Z := u128 (a * b).
Definition add128 (a b : Z) : Z := u128 (a + b).
Definition add128_64 (a b : Z) : Z := u128 (a + u64 b).
Definition lo128 (a : Z) : Z := u64 a.
Definition shr128 (t n : Z) : Z := u64 (t >>u n).
Definition shl128 (t n : Z) : Z := u64 (u128 (Z.shiftl t n) >>u 64).

Definition U8TO64_LE (p : list Z) : Z :=
  nth 0 p 0 |u (nth 1 p 0 <<u 8) |u (nth 2 p 0 <<u 16) |u (nth 3 p 0 <<u 24) |u
  (nth 4 p 0 <<u 32) |u (nth 5 p 0 <<u 40) |u (nth 6 p 0 <<u 48) |u (nth 7 p 0 <<u 56).

Definition U64TO8_LE (v : Z) : list Z :=
  [u8 v; u8 (v >>u 8); u8 (v >>u 16); u8 (v >>u 24);
   u8 (v >>u 32); u8 (v >>u 40); u8 (v >>u 48); u8 (v >>u 56)].

(** ** Exact evaluation *)

Lemma bound_weaken (x N M : Z) : 0 <= x <= N -> (N <=? M) = true -> 0 <= x <= M.
Proof. intros H HN%Z.leb_le. lia. Qed.

(** [exact e v N]: the machine expression [e] is the integer [v], at most [N]:
    no wrap-around happened in it. *)
Definition exact (e v N : Z) : Prop := e = v /\ 0 <= v <= N.

Lemma exact_limb (x N : Z) : 0 <= x < N -> exact x x N.
Proof. unfold exact. lia. Qed.

Lemma exact_const (k : Z) : (0 <=? k) = true -> exact k k k.
Proof. intros H%Z.leb_le. unfold exact. lia. Qed.

Lemma exact_mul64 (a va A k : Z) :
  exact a va A -> 0 <= k -> (A * k <? 2 ^ 64) = true -> exact (a *u k) (va * k) (A * k).
Proof.
  intros [-> Ha] Hk HA%Z.ltb_lt. pose proof (mul_bound va k A k ltac:(lia) ltac:(lia)).
  split; [apply u64_small |]; lia.
Qed.

Lemma exact_mul128 (a va A b vb B : Z) :
  exact a va A -> exact b vb B -> (A * B <? 2 ^ 128) = true ->
  exact (mul64x64_128 a b) (va * vb) (A * B).
Proof.
  intros [-> Ha] [-> Hb] HA%Z.ltb_lt. pose proof (mul_bound va vb A B ltac:(lia) ltac:(lia)).
  split; [apply u128_small |]; lia.
Qed.

Lemma exact_add128 (a va A b vb B : Z) :
  exact a va A -> exact b vb B -> (A + B <? 2 ^ 128) = true ->
  exact (add128 a b) (va + vb) (A + B).
Proof.
  intros [-> Ha] [-> Hb] HA%Z.ltb_lt. split; [apply u128_small |]; lia.
Qed.

Lemma exact_add128_64 (a va A b vb B : Z) :
  exact a va A -> exact b vb B -> (B <? 2 ^ 64) = true -> (A + B <? 2 ^ 128) = true ->
  exact (add128_64 a b) (va + vb) (A + B).
Proof.
  intros [-> Ha] [-> Hb] HB%Z.ltb_lt HA%Z.ltb_lt.
  split; [unfold add128_64; rewrite u64_small by lia; apply u128_small |]; lia.
Qed.

(** Build [exact] for an expression over bounded limbs. *)
Ltac exact_build :=
  lazymatch goal with
  | |- exact (add128 _ _) _ _ =>
      eapply exact_add128; [exact_build | exact_build | vm_compute; reflexivity]
  | |- exact (add128_64 _ _) _ _ =>
      eapply exact_add128_64; [exact_build | exact_build | vm_compute; reflexivity
        | vm_compute; reflexivity]
  | |- exact (mul64x64_128 _ _) _ _ =>
      eapply exact_mul128; [exact_build | exact_build | vm_compute; reflexivity]
  | |- exact (_ *u _) _ _ =>
      eapply exact_mul64; [exact_build | lia | vm_compute; reflexivity]
  | |- _ => first [apply exact_limb; eassumption | apply exact_const; vm_compute; reflexivity]
  end.

Ltac exact_rewrite t :=
  let H := fresh "Hex" in let E := fresh "E" in
  eassert (exact t _ _) as H by exact_build; destruct H as [E H]; rewrite E; clear E.

(** Name the quotient and the remainder of [x] by [2^n]. *)
Ltac split_at n x q r :=
  let Hd := fresh "Hd" in let Hm := fresh "Hm" in
  pose proof (Z.div_mod x (2 ^ n) ltac:(lia)) as Hd;
  pose proof (Z.mod_pos_bound x (2 ^ n) ltac:(lia)) as Hm;
  set (q := x / 2 ^ n) in *; set (r := x mod 2 ^ n) in *; clearbody q r.

(** ** Bytes and words *)

Lemma lor_shl64 (a b n : Z) :
  0 <= n -> 0 <= a < 2 ^ n -> 0 <= b -> b * 2 ^ n < 2 ^ 64 -> a |u (b <<u n) = a + b * 2 ^ n.
Proof.
  intros Hn Ha Hb H. unfold shl64. rewrite Z.shiftl_mul_pow2, u64_small by lia.
  now apply lor_disjoint.
Qed.

Lemma U8TO64_LE_val (l : list Z) :
  bytes_ok l -> (8 <= length l)%nat -> U8TO64_LE l = le_val (firstn 8 l).
Proof.
  intros Hl Hn. do 8 (destruct l as [| ? l]; [cbn in Hn; lia |]). clear Hn.
  unfold bytes_ok in Hl. repeat match goal with H : Forall _ (_ :: _) |- _ =>
    apply Forall_inv in H as ?; apply Forall_inv_tail in H end.
  cbv beta in *. unfold U8TO64_LE. cbn [nth firstn le_val].
  repeat match goal with |- context [?a |u (?b <<u ?n)] =>
    lazymatch a with Z.lor _ _ => fail | _ => rewrite (lor_shl64 a b n) by lia end end. lia.
Qed.

(** Four words of a 32-byte string. *)
Lemma le_val_words (l : list Z) :
  bytes_ok l -> length l = 32%nat ->
  le_val l = le_val (firstn 8 l) + 2 ^ 64 * le_val (firstn 8 (skipn 8 l))
    + 2 ^ 128 * le_val (firstn 8 (skipn 16 l)) + 2 ^ 192 * le_val (firstn 8 (skipn 24 l)).
Proof.
  intros Hl Hn. do 32 (destruct l as [| ? l]; [discriminate |]). destruct l; [| discriminate].
  cbn [firstn skipn le_val]. ring.
Qed.

Lemma word_range (l : list Z) (n : nat) :
  bytes_ok l -> (n + 8 <= length l)%nat -> 0 <= le_val (firstn 8 (skipn n l)) < 2 ^ 64.
Proof.
  intros Hl Hn. pose proof (le_val_range (firstn 8 (skipn n l)) ltac:(auto with bytes)) as H.
  rewrite length_firstn, length_skipn in H.
  now replace (Nat.min 8 (length l - n)) with 8%nat in H by lia.
Qed.

Lemma U64TO8_LE_bytes (v : Z) : 0 <= v -> U64TO8_LE v = le_bytes 8 v.
Proof.
  intros Hv. unfold U64TO8_LE, u8. rewrite !shiftr_div by lia. cbn [le_bytes].
  rewrite !Z.div_div by lia. reflexivity.
Qed.

(** Two words shifted into one, cut to [w] bits. *)
Lemma funnel (w lo hi s t : Z) :
  0 <= lo < 2 ^ 64 -> 0 <= hi -> 0 <= s -> 0 <= t <= w -> w <= 64 -> s + t = 64 ->
  ((lo >>u s) |u (hi <<u t)) mod 2 ^ w = lo / 2 ^ s + 2 ^ t * (hi mod 2 ^ (w - t)).
Proof.
  intros Hlo Hhi Hs Ht Hw Hst.
  assert (E64 : 2 ^ 64 = 2 ^ s * 2 ^ t) by (rewrite <- Z.pow_add_r by lia; f_equal; lia).
  assert (Ew : 2 ^ w = 2 ^ t * 2 ^ (w - t)) by (rewrite <- Z.pow_add_r by lia; f_equal; lia).
  pose proof (Z.pow_pos_nonneg 2 s). pose proof (Z.pow_pos_nonneg 2 t).
  pose proof (Z.pow_pos_nonneg 2 (w - t)).
  assert (Hq : 0 <= lo / 2 ^ s < 2 ^ t)
    by (split; [apply Z.div_pos | apply Z.div_lt_upper_bound]; lia).
  unfold shl64, u64. rewrite shiftr_div, Z.shiftl_mul_pow2, E64 by lia.
  rewrite Z.mul_mod_distr_r by lia. rewrite lor_disjoint by lia.
  rewrite Ew, Z.rem_mul_r, Z.mod_add, Z.div_add, (Z.mod_small (lo / 2 ^ s)) by lia.
  rewrite (Z.div_small (lo / 2 ^ s)) by lia. rewrite Z.add_0_l, mod_mod_pow2 by lia.
  reflexivity.
Qed.

(** The eight bytes of a word assembled from two limbs of [w] bits. *)
Lemma pack_word (w lo hi s t : Z) :
  w <= 64 -> 0 <= lo < 2 ^ w -> 0 <= s -> 0 <= t -> s + t = w ->
  le_bytes 8 ((lo >>u s) |u (hi <<u t)) = le_bytes 8 (lo / 2 ^ s + 2 ^ t * hi).
Proof.
  intros Hw Hlo Hs Ht Hst. rewrite <- (le_bytes_mod 8 (_ + _)).
  rewrite <- (le_bytes_mod 8 (_ |u _)). f_equal. change (8 * Z.of_nat 8) with 64.
  pose proof (Z.pow_pos_nonneg 2 s). pose proof (Z.pow_pos_nonneg 2 t).
  assert (Ew : 2 ^ w = 2 ^ s * 2 ^ t) by (rewrite <- Z.pow_add_r by lia; f_equal; lia).
  assert (E64 : 2 ^ 64 = 2 ^ (64 - t) * 2 ^ t)
    by (rewrite <- Z.pow_add_r by lia; f_equal; lia).
  pose proof (Z.pow_pos_nonneg 2 (64 - t)).
  assert (Hq : 0 <= lo / 2 ^ s < 2 ^ t)
    by (split; [apply Z.div_pos | apply Z.div_lt_upper_bound]; lia).
  unfold shl64, u64. rewrite shiftr_div, Z.shiftl_mul_pow2, E64, Z.mul_mod_distr_r by lia.
  rewrite lor_disjoint by lia. rewrite <- Z.mul_mod_distr_r, Z.add_mod_idemp_r by lia.
  f_equal. lia.
Qed.

(** The word of [V] at bit [n]. *)
Lemma word_of_limbs (q s r hi rest V n : Z) :
  0 <= r < 2 ^ n -> 0 <= n -> V = r + 2 ^ n * (q + 2 ^ s * hi + 2 ^ 64 * rest) ->
  le_bytes 8 (V / 2 ^ n) = le_bytes 8 (q + 2 ^ s * hi).
Proof.
  intros Hr Hn ->. rewrite <- le_bytes_mod, <- (le_bytes_mod 8 (q + 2 ^ s * hi)). f_equal.
  rewrite (Z.mul_comm (2 ^ n)), Z.div_add by lia. rewrite (Z.div_small r), Z.add_0_l by lia.
  change (8 * Z.of_nat 8) with 64. rewrite (Z.mul_comm (2 ^ 64)). apply Z.mod_add. lia.
Qed.

(** The first word of a byte string. *)
Lemma le_val_word (l : list Z) :
  (8 <= length l)%nat -> le_val l = le_val (firstn 8 l) + 2 ^ 64 * le_val (skipn 8 l).
Proof.
  intros Hl. rewrite <- (firstn_skipn 8 l) at 1. rewrite le_val_app, length_firstn.
  now replace (Nat.min 8 (length l)) with 8%nat by lia.
Qed.
