(* ===== verification/Fe64.v ===== *)
(** * Field arithmetic modulo 2^255 - 19, 64-bit limbs

    Model of [crypto/ed25519-donna/curve25519-donna-64bit.h] and of the exponentiation
    chains of [curve25519-donna-helpers.h].  A field element is five 64-bit
    limbs in radix 2^51; every operation wraps at its width.  The theorems
    bound the limbs (no wrap happens) and relate the limbs to the integer they
    represent, modulo p. *)

From Stdlib Require Import ZArith Lia List Bool Morphisms Setoid.
From S2P Require Import Prelude Portable.
Import ListNotations.
Local Open Scope Z_scope.
Local Open Scope word_scope.

Module Donna64.

(** ** curve25519-donna-64bit.h *)

Record bignum25519 := bn { l0 : Z; l1 : Z; l2 : Z; l3 : Z; l4 : Z }.

Definition reduce_mask_51 : Z := (1 <<u 51) -u 1.

Definition curve25519_copy (inp : bignum25519) : bignum25519 :=
  bn (l0 inp) (l1 inp) (l2 inp) (l3 inp) (l4 inp).

Definition curve25519_add (a b : bignum25519) : bignum25519 :=
  bn (l0 a +u l0 b) (l1 a +u l1 b) (l2 a +u l2 b) (l3 a +u l3 b) (l4 a +u l4 b).

Definition curve25519_add_after_basic (a b : bignum25519) : bignum25519 :=
  bn (l0 a +u l0 b) (l1 a +u l1 b) (l2 a +u l2 b) (l3 a +u l3 b) (l4 a +u l4 b).

Definition curve25519_add_reduce (a b : bignum25519) : bignum25519 :=
  let o0 := l0 a +u l0 b in let c := o0 >>u 51 in let o0 := o0 &u reduce_mask_51 in
  let o1 := l1 a +u l1 b +u c in let c := o1 >>u 51 in let o1 := o1 &u reduce_mask_51 in
  let o2 := l2 a +u l2 b +u c in let c := o2 >>u 51 in let o2 := o2 &u reduce_mask_51 in
  let o3 := l3 a +u l3 b +u c in let c := o3 >>u 51 in let o3 := o3 &u reduce_mask_51 in
  let o4 := l4 a +u l4 b +u c in let c := o4 >>u 51 in let o4 := o4 &u reduce_mask_51 in
  let o0 := o0 +u (c *u 19) in
  bn o0 o1 o2 o3 o4.

Definition twoP0 : Z := 0x0fffffffffffda.
Definition twoP1234 : Z := 0x0ffffffffffffe.
Definition fourP0 : Z := 0x1fffffffffffb4.
Definition fourP1234 : Z := 0x1ffffffffffffc.

Definition curve25519_sub (a b : bignum25519) : bignum25519 :=
  bn (l0 a +u twoP0 -u l0 b) (l1 a +u twoP1234 -u l1 b) (l2 a +u twoP1234 -u l2 b)
     (l3 a +u twoP1234 -u l3 b) (l4 a +u twoP1234 -u l4 b).

Definition curve25519_sub_after_basic (a b : bignum25519) : bignum25519 :=
  bn (l0 a +u fourP0 -u l0 b) (l1 a +u fourP1234 -u l1 b) (l2 a +u fourP1234 -u l2 b)
     (l3 a +u fourP1234 -u l3 b) (l4 a +u fourP1234 -u l4 b).

Definition curve25519_sub_reduce (a b : bignum25519) : bignum25519 :=
  let o0 := l0 a +u fourP0 -u l0 b in
  let c := o0 >>u 51 in let o0 := o0 &u reduce_mask_51 in
  let o1 := l1 a +u fourP1234 -u l1 b +u c in
  let c := o1 >>u 51 in let o1 := o1 &u reduce_mask_51 in
  let o2 := l2 a +u fourP1234 -u l2 b +u c in
  let c := o2 >>u 51 in let o2 := o2 &u reduce_mask_51 in
  let o3 := l3 a +u fourP1234 -u l3 b +u c in
  let c := o3 >>u 51 in let o3 := o3 &u reduce_mask_51 in
  let o4 := l4 a +u fourP1234 -u l4 b +u c in
  let c := o4 >>u 51 in let o4 := o4 &u reduce_mask_51 in
  let o0 := o0 +u (c *u 19) in
  bn o0 o1 o2 o3 o4.

Definition curve25519_neg (a : bignum25519) : bignum25519 :=
  let o0 := twoP0 -u l0 a in let c := o0 >>u 51 in let o0 := o0 &u reduce_mask_51 in
  let o1 := twoP1234 -u l1 a +u c in let c := o1 >>u 51 in let o1 := o1 &u reduce_mask_51 in
  let o2 := twoP1234 -u l2 a +u c in let c := o2 >>u 51 in let o2 := o2 &u reduce_mask_51 in
  let o3 := twoP1234 -u l3 a +u c in let c := o3 >>u 51 in let o3 := o3 &u reduce_mask_51 in
  let o4 := twoP1234 -u l4 a +u c in let c := o4 >>u 51 in let o4 := o4 &u reduce_mask_51 in
  let o0 := o0 +u (c *u 19) in
  bn o0 o1 o2 o3 o4.

(** The carry chain that ends both [curve25519_mul] and [curve25519_square]. *)
Definition reduce_products (t0 t1 t2 t3 t4 : Z) : bignum25519 :=
  let r0 := lo128 t0 &u reduce_mask_51 in let c := shr128 t0 51 in
  let t1 := add128_64 t1 c in
  let r1 := lo128 t1 &u reduce_mask_51 in let c := shr128 t1 51 in
  let t2 := add128_64 t2 c in
  let r2 := lo128 t2 &u reduce_mask_51 in let c := shr128 t2 51 in
  let t3 := add128_64 t3 c in
  let r3 := lo128 t3 &u reduce_mask_51 in let c := shr128 t3 51 in
  let t4 := add128_64 t4 c in
  let r4 := lo128 t4 &u reduce_mask_51 in let c := shr128 t4 51 in
  let r0 := r0 +u (c *u 19) in let c := r0 >>u 51 in let r0 := r0 &u reduce_mask_51 in
  let r1 := r1 +u c in
  bn r0 r1 r2 r3 r4.

Definition curve25519_mul (in2 inp : bignum25519) : bignum25519 :=
  let r0 := l0 inp in let r1 := l1 inp in let r2 := l2 inp in
  let r3 := l3 inp in let r4 := l4 inp in
  let s0 := l0 in2 in let s1 := l1 in2 in let s2 := l2 in2 in
  let s3 := l3 in2 in let s4 := l4 in2 in
  let m := mul64x64_128 in
  let t0 := m r0 s0 in
  let t1 := add128 (m r0 s1) (m r1 s0) in
  let t2 := add128 (add128 (m r0 s2) (m r2 s0)) (m r1 s1) in
  let t3 := add128 (add128 (add128 (m r0 s3) (m r3 s0)) (m r1 s2)) (m r2 s1) in
  let t4 := add128 (add128 (add128 (add128 (m r0 s4) (m r4 s0)) (m r3 s1)) (m r1 s3)) (m r2 s2) in
  let r1 := r1 *u 19 in let r2 := r2 *u 19 in
  let r3 := r3 *u 19 in let r4 := r4 *u 19 in
  let t0 := add128 t0 (add128 (add128 (add128 (m r4 s1) (m r1 s4)) (m r2 s3)) (m r3 s2)) in
  let t1 := add128 t1 (add128 (add128 (m r4 s2) (m r2 s4)) (m r3 s3)) in
  let t2 := add128 t2 (add128 (m r4 s3) (m r3 s4)) in
  let t3 := add128 t3 (m r4 s4) in
  reduce_products t0 t1 t2 t3 t4.

Definition curve25519_mul_noinline (in2 inp : bignum25519) : bignum25519 :=
  curve25519_mul in2 inp.

(** The five column sums of a square, shared by [curve25519_square] and each
    iteration of [curve25519_square_times]. *)
Definition square_products (r : bignum25519) : Z * Z * Z * Z * Z :=
  let r0 := l0 r in let r1 := l1 r in let r2 := l2 r in let r3 := l3 r in let r4 := l4 r in
  let d0 := r0 *u 2 in
  let d1 := r1 *u 2 in
  let d2 := r2 *u 2 *u 19 in
  let d419 := r4 *u 19 in
  let d4 := d419 *u 2 in
  let m := mul64x64_128 in
  let t0 := add128 (add128 (m r0 r0) (m d4 r1)) (m d2 r3) in
  let t1 := add128 (add128 (m d0 r1) (m d4 r2)) (m r3 (r3 *u 19)) in
  let t2 := add128 (add128 (m d0 r2) (m r1 r1)) (m d4 r3) in
  let t3 := add128 (add128 (m d0 r3) (m d1 r2)) (m r4 d419) in
  let t4 := add128 (add128 (m d0 r4) (m d1 r3)) (m r2 r2) in
  (t0, t1, t2, t3, t4).

(** One iteration of the loop of [curve25519_square_times]. *)
Definition square_times_step (r : bignum25519) : bignum25519 :=
  let '(t0, t1, t2, t3, t4) := square_products r in
  let r0 := lo128 t0 &u reduce_mask_51 in
  let r1 := lo128 t1 &u reduce_mask_51 in let c := shl128 t0 13 in let r1 := r1 +u c in
  let r2 := lo128 t2 &u reduce_mask_51 in let c := shl128 t1 13 in let r2 := r2 +u c in
  let r3 := lo128 t3 &u reduce_mask_51 in let c := shl128 t2 13 in let r3 := r3 +u c in
  let r4 := lo128 t4 &u reduce_mask_51 in let c := shl128 t3 13 in let r4 := r4 +u c in
  let c := shl128 t4 13 in let r0 := r0 +u (c *u 19) in
  let c := r0 >>u 51 in let r0 := r0 &u reduce_mask_51 in
  let r1 := r1 +u c in let c := r1 >>u 51 in let r1 := r1 &u reduce_mask_51 in
  let r2 := r2 +u c in let c := r2 >>u 51 in let r2 := r2 &u reduce_mask_51 in
  let r3 := r3 +u c in let c := r3 >>u 51 in let r3 := r3 &u reduce_mask_51 in
  let r4 := r4 +u c in let c := r4 >>u 51 in let r4 := r4 &u reduce_mask_51 in
  let r0 := r0 +u (c *u 19) in
  bn r0 r1 r2 r3 r4.

(** [do ... while (--count)]: [count] iterations for [count >= 1].  (With a
    count of 0 the source loops 2^64 times; it is never called so.) *)
Definition curve25519_square_times (inp : bignum25519) (count : nat) : bignum25519 :=
  Nat.iter count square_times_step inp.

Definition curve25519_square (inp : bignum25519) : bignum25519 :=
  let '(t0, t1, t2, t3, t4) := square_products inp in
  reduce_products t0 t1 t2 t3 t4.

(** The little-endian host branch and the portable branch read the same
    64-bit words. *)
Definition curve25519_expand (inp : list Z) : bignum25519 :=
  let x0 := U8TO64_LE inp in
  let x1 := U8TO64_LE (skipn 8 inp) in
  let x2 := U8TO64_LE (skipn 16 inp) in
  let x3 := U8TO64_LE (skipn 24 inp) in
  let o0 := x0 &u reduce_mask_51 in let x0 := (x0 >>u 51) |u (x1 <<u 13) in
  let o1 := x0 &u reduce_mask_51 in let x1 := (x1 >>u 38) |u (x2 <<u 26) in
  let o2 := x1 &u reduce_mask_51 in let x2 := (x2 >>u 25) |u (x3 <<u 39) in
  let o3 := x2 &u reduce_mask_51 in let x3 := (x3 >>u 12) in
  let o4 := x3 &u reduce_mask_51 in
  bn o0 o1 o2 o3 o4.

Definition curve25519_contract_carry (t : bignum25519) : bignum25519 :=
  let t1 := l1 t +u (l0 t >>u 51) in let t0 := l0 t &u reduce_mask_51 in
  let t2 := l2 t +u (t1 >>u 51) in let t1 := t1 &u reduce_mask_51 in
  let t3 := l3 t +u (t2 >>u 51) in let t2 := t2 &u reduce_mask_51 in
  let t4 := l4 t +u (t3 >>u 51) in let t3 := t3 &u reduce_mask_51 in
  bn t0 t1 t2 t3 t4.

Definition curve25519_contract_carry_full (t : bignum25519) : bignum25519 :=
  let t := curve25519_contract_carry t in
  bn (l0 t +u (19 *u (l4 t >>u 51))) (l1 t) (l2 t) (l3 t) (l4 t &u reduce_mask_51).

Definition curve25519_contract_carry_final (t : bignum25519) : bignum25519 :=
  let t := curve25519_contract_carry t in
  bn (l0 t) (l1 t) (l2 t) (l3 t) (l4 t &u reduce_mask_51).

(** [write51full (n, shift)]: eight bytes, low byte first. *)
Definition write51full (lo hi shift : Z) : list Z :=
  let f := (lo >>u shift) |u (hi <<u (51 - shift)) in
  le_bytes 8 f.

Definition curve25519_contract (input : bignum25519) : list Z :=
  let t := curve25519_copy input in
  let t := curve25519_contract_carry_full t in
  let t := curve25519_contract_carry_full t in
  let t := bn (l0 t +u 19) (l1 t) (l2 t) (l3 t) (l4 t) in
  let t := curve25519_contract_carry_full t in
  let t := bn (l0 t +u (reduce_mask_51 +u 1 -u 19)) (l1 t +u (reduce_mask_51 +u 1 -u 1))
              (l2 t +u (reduce_mask_51 +u 1 -u 1)) (l3 t +u (reduce_mask_51 +u 1 -u 1))
              (l4 t +u (reduce_mask_51 +u 1 -u 1)) in
  let t := curve25519_contract_carry_final t in
  write51full (l0 t) (l1 t) 0 ++ write51full (l1 t) (l2 t) 13 ++
  write51full (l2 t) (l3 t) 26 ++ write51full (l3 t) (l4 t) 39.

(** A 96-byte table entry as twelve 64-bit words. *)
Definition move_conditional_word (o i nb b : Z) : Z := (o &u nb) |u (i &u b).

Definition curve25519_move_conditional_bytes (out inp : list Z) (flag : Z) : list Z :=
  let nb := flag -u 1 in let b := not64 nb in
  concat (map (fun k => U64TO8_LE (move_conditional_word
    (U8TO64_LE (skipn (8 * k) out)) (U8TO64_LE (skipn (8 * k) inp)) nb b)) (seq 0 12)).

Definition swap_conditional_word (swap a b : Z) : Z * Z :=
  let x := swap &u (a ^u b) in (a ^u x, b ^u x).

Definition curve25519_swap_conditional (a b : bignum25519) (iswap : Z)
  : bignum25519 * bignum25519 :=
  let swap := u64 (- iswap) in
  let '(a0, b0) := swap_conditional_word swap (l0 a) (l0 b) in
  let '(a1, b1) := swap_conditional_word swap (l1 a) (l1 b) in
  let '(a2, b2) := swap_conditional_word swap (l2 a) (l2 b) in
  let '(a3, b3) := swap_conditional_word swap (l3 a) (l3 b) in
  let '(a4, b4) := swap_conditional_word swap (l4 a) (l4 b) in
  (bn a0 a1 a2 a3 a4, bn b0 b1 b2 b3 b4).

(** ** curve25519-donna-helpers.h *)

Definition curve25519_pow_two5mtwo0_two250mtwo0 (b : bignum25519) : bignum25519 :=
  let t0 := curve25519_square_times b 5 in
  let b := curve25519_mul_noinline t0 b in
  let t0 := curve25519_square_times b 10 in
  let c := curve25519_mul_noinline t0 b in
  let t0 := curve25519_square_times c 20 in
  let t0 := curve25519_mul_noinline t0 c in
  let t0 := curve25519_square_times t0 10 in
  let b := curve25519_mul_noinline t0 b in
  let t0 := curve25519_square_times b 50 in
  let c := curve25519_mul_noinline t0 b in
  let t0 := curve25519_square_times c 100 in
  let t0 := curve25519_mul_noinline t0 c in
  let t0 := curve25519_square_times t0 50 in
  curve25519_mul_noinline t0 b.

Definition curve25519_recip (z : bignum25519) : bignum25519 :=
  let a := curve25519_square_times z 1 in
  let t0 := curve25519_square_times a 2 in
  let b := curve25519_mul_noinline t0 z in
  let a := curve25519_mul_noinline b a in
  let t0 := curve25519_square_times a 1 in
  let b := curve25519_mul_noinline t0 b in
  let b := curve25519_pow_two5mtwo0_two250mtwo0 b in
  let b := curve25519_square_times b 5 in
  curve25519_mul_noinline b a.

Definition curve25519_pow_two252m3 (z : bignum25519) : bignum25519 :=
  let c := curve25519_square_times z 1 in
  let t0 := curve25519_square_times c 2 in
  let b := curve25519_mul_noinline t0 z in
  let c := curve25519_mul_noinline b c in
  let t0 := curve25519_square_times c 1 in
  let b := curve25519_mul_noinline t0 b in
  let b := curve25519_pow_two5mtwo0_two250mtwo0 b in
  let b := curve25519_square_times b 2 in
  curve25519_mul_noinline b z.

(** ** Values and bounds *)

Definition p : Z := 2 ^ 255 - 19.

Definition val (b : bignum25519) : Z :=
  l0 b + 2 ^ 51 * l1 b + 2 ^ 102 * l2 b + 2 ^ 153 * l3 b + 2 ^ 204 * l4 b.

(** Every limb is below [n]. *)
Definition limbs_lt (n : Z) (b : bignum25519) : Prop :=
  0 <= l0 b < n /\ 0 <= l1 b < n /\ 0 <= l2 b < n /\ 0 <= l3 b < n /\ 0 <= l4 b < n.

(** [tight]: what multiplication, squaring, [add_reduce], [sub_reduce] and
    [neg] return.  [loose]: what they accept; two unreduced additions or
    subtractions of tight elements stay loose. *)
Definition tight : bignum25519 -> Prop := limbs_lt (2 ^ 51 + 2 ^ 18).
Definition loose : bignum25519 -> Prop := limbs_lt (2 ^ 54).

Lemma limbs_lt_le (n m : Z) (b : bignum25519) : n <= m -> limbs_lt n b -> limbs_lt m b.
Proof. unfold limbs_lt. lia. Qed.

Lemma tight_loose (b : bignum25519) : tight b -> loose b.
Proof. apply limbs_lt_le. lia. Qed.

(** Congruence modulo p, as a setoid compatible with the ring operations. *)
Definition feq (x y : Z) : Prop := x mod p = y mod p.
Notation "x ≡ y" := (feq x y) (at level 70) : word_scope.

#[export] Instance feq_equiv : Equivalence feq.
Proof. split; red; unfold feq; intros; congruence. Qed.

#[export] Instance add_feq : Proper (feq ==> feq ==> feq) Z.add.
Proof. intros x x' Hx y y' Hy. unfold feq in *. now rewrite Z.add_mod, Hx, Hy, <- Z.add_mod. Qed.

#[export] Instance mul_feq : Proper (feq ==> feq ==> feq) Z.mul.
Proof. intros x x' Hx y y' Hy. unfold feq in *. now rewrite Z.mul_mod, Hx, Hy, <- Z.mul_mod. Qed.

#[export] Instance opp_feq : Proper (feq ==> feq) Z.opp.
Proof.
  intros x x' Hx. replace (- x) with ((-1) * x) by ring. replace (- x') with ((-1) * x') by ring.
  now rewrite Hx.
Qed.

#[export] Instance sub_feq : Proper (feq ==> feq ==> feq) Z.sub.
Proof. intros x x' Hx y y' Hy. rewrite <- !Z.add_opp_r. now rewrite Hx, Hy. Qed.

Lemma feq_intro (x y k : Z) : x = y + k * p -> x ≡ y.
Proof. intros ->. unfold feq. now rewrite Z.mod_add. Qed.

Lemma feq_elim (x y : Z) : x ≡ y -> exists k, x = y + k * p.
Proof.
  unfold feq. intros H. exists (x / p - y / p).
  pose proof (Z.div_mod x p ltac:(easy)). pose proof (Z.div_mod y p ltac:(easy)). lia.
Qed.

(** ** Single-word facts *)

Lemma mask_mod (x : Z) : x &u reduce_mask_51 = x mod 2 ^ 51.
Proof. change reduce_mask_51 with (2 ^ 51 - 1). apply land_mask. lia. Qed.

Lemma lo_mask (t : Z) : lo128 t &u reduce_mask_51 = t mod 2 ^ 51.
Proof.
  rewrite mask_mod. apply mod_mod_pow2. lia.
Qed.

Lemma shr128_small (t : Z) : 0 <= t < 2 ^ 115 -> shr128 t 51 = t / 2 ^ 51.
Proof.
  intros H. unfold shr128. rewrite shiftr_div by lia. apply u64_small.
  split; [apply Z.div_pos; lia | apply Z.div_lt_upper_bound; lia].
Qed.

Lemma shl128_small (t : Z) : 0 <= t < 2 ^ 115 -> shl128 t 13 = t / 2 ^ 51.
Proof.
  intros H. unfold shl128. rewrite Z.shiftl_mul_pow2, u128_small, shiftr_div by lia.
  replace (2 ^ 64) with (2 ^ 51 * 2 ^ 13) by reflexivity.
  rewrite Z.div_mul_cancel_r by lia. apply u64_small.
  split; [apply Z.div_pos; lia | apply Z.div_lt_upper_bound; lia].
Qed.

(** Name the quotient and the remainder of [x] by [2^51]. *)
Ltac split51 x q r := split_at 51 x q r.

(** ** The carry chain *)

Lemma reduce_products_spec (t0 t1 t2 t3 t4 : Z) :
  0 <= t0 <= 77 * 2 ^ 108 -> 0 <= t1 <= 77 * 2 ^ 108 -> 0 <= t2 <= 77 * 2 ^ 108 ->
  0 <= t3 <= 77 * 2 ^ 108 -> 0 <= t4 <= 5 * 2 ^ 108 ->
  tight (reduce_products t0 t1 t2 t3 t4) /\
  val (reduce_products t0 t1 t2 t3 t4)
  ≡ t0 + 2 ^ 51 * t1 + 2 ^ 102 * t2 + 2 ^ 153 * t3 + 2 ^ 204 * t4.
Proof.
  intros H0 H1 H2 H3 H4. unfold reduce_products, add128_64. cbv zeta.
  rewrite !lo_mask, !mask_mod, !(shiftr_div _ 51) by lia.
  rewrite (shr128_small t0) by lia. split51 t0 c0 r0.
  rewrite (u64_small c0), (u128_small (t1 + c0)), (shr128_small (t1 + c0)) by lia.
  split51 (t1 + c0) c1 r1.
  rewrite (u64_small c1), (u128_small (t2 + c1)), (shr128_small (t2 + c1)) by lia.
  split51 (t2 + c1) c2 r2.
  rewrite (u64_small c2), (u128_small (t3 + c2)), (shr128_small (t3 + c2)) by lia.
  split51 (t3 + c2) c3 r3.
  rewrite (u64_small c3), (u128_small (t4 + c3)), (shr128_small (t4 + c3)) by lia.
  split51 (t4 + c3) c4 r4. unfold add64, mul64.
  rewrite (u64_small (c4 * 19)), (u64_small (r0 + c4 * 19)) by lia.
  split51 (r0 + c4 * 19) c5 r5. rewrite (u64_small (r1 + c5)) by lia. split.
  - repeat split; cbn [l0 l1 l2 l3 l4]; lia.
  - apply (feq_intro _ _ (- c4)). unfold val, p. cbn [l0 l1 l2 l3 l4]. lia.
Qed.

(** ** Multiplication and squaring *)

Lemma mul_spec (a b : bignum25519) :
  loose a -> loose b ->
  tight (curve25519_mul a b) /\ val (curve25519_mul a b) ≡ val a * val b.
Proof.
  destruct a as [s0 s1 s2 s3 s4], b as [r0 r1 r2 r3 r4].
  intros (? & ? & ? & ? & ?) (? & ? & ? & ? & ?). cbn [l0 l1 l2 l3 l4] in *.
  unfold curve25519_mul. cbv zeta. cbn [l0 l1 l2 l3 l4].
  match goal with |- context [reduce_products ?t0 ?t1 ?t2 ?t3 ?t4] =>
    exact_rewrite t0; exact_rewrite t1; exact_rewrite t2; exact_rewrite t3; exact_rewrite t4 end.
  match goal with |- context [reduce_products ?t0 ?t1 ?t2 ?t3 ?t4] =>
    destruct (reduce_products_spec t0 t1 t2 t3 t4) as [Ht Hv];
    try (eapply bound_weaken; [eassumption | vm_compute; reflexivity]) end.
  split; [exact Ht |]. rewrite Hv.
  apply (feq_intro _ _ (- (r1 * s4 + r2 * s3 + r3 * s2 + r4 * s1
    + 2 ^ 51 * (r2 * s4 + r3 * s3 + r4 * s2) + 2 ^ 102 * (r3 * s4 + r4 * s3)
    + 2 ^ 153 * (r4 * s4)))).
  unfold val, p. cbn [l0 l1 l2 l3 l4]. ring.
Qed.

(** The column sums of a square are the exact integers. *)
Lemma square_products_spec (a : bignum25519) :
  loose a ->
  exists t0 t1 t2 t3 t4, square_products a = (t0, t1, t2, t3, t4) /\
  0 <= t0 <= 77 * 2 ^ 108 /\ 0 <= t1 <= 77 * 2 ^ 108 /\ 0 <= t2 <= 77 * 2 ^ 108 /\
  0 <= t3 <= 77 * 2 ^ 108 /\ 0 <= t4 <= 5 * 2 ^ 108 /\
  t0 + 2 ^ 51 * t1 + 2 ^ 102 * t2 + 2 ^ 153 * t3 + 2 ^ 204 * t4 ≡ val a * val a.
Proof.
  destruct a as [r0 r1 r2 r3 r4]. intros (? & ? & ? & ? & ?). cbn [l0 l1 l2 l3 l4] in *.
  unfold square_products. cbv zeta. cbn [l0 l1 l2 l3 l4].
  match goal with |- context [(?t0, ?t1, ?t2, ?t3, ?t4) = _] =>
    exact_rewrite t0; exact_rewrite t1; exact_rewrite t2; exact_rewrite t3; exact_rewrite t4 end.
  do 5 eexists. split; [reflexivity |].
  do 5 (split; [eapply bound_weaken; [eassumption | vm_compute; reflexivity] |]).
  apply (feq_intro _ _ (- (2 * r1 * r4 + 2 * r2 * r3 + 2 ^ 51 * (2 * r2 * r4 + r3 * r3)
    + 2 ^ 102 * (2 * r3 * r4) + 2 ^ 153 * (r4 * r4)))).
  unfold val, p. cbn [l0 l1 l2 l3 l4]. ring.
Qed.

Lemma square_spec (a : bignum25519) :
  loose a ->
  tight (curve25519_square a) /\ val (curve25519_square a) ≡ val a * val a.
Proof.
  intros Ha. destruct (square_products_spec a Ha)
    as (t0 & t1 & t2 & t3 & t4 & E & B0 & B1 & B2 & B3 & B4 & Hv).
  unfold curve25519_square. rewrite E.
  destruct (reduce_products_spec t0 t1 t2 t3 t4) as [Ht Hr]; try assumption.
  split; [exact Ht | now rewrite Hr].
Qed.

Lemma square_times_step_spec (a : bignum25519) :
  loose a ->
  tight (square_times_step a) /\ val (square_times_step a) ≡ val a * val a.
Proof.
  intros Ha. destruct (square_products_spec a Ha)
    as (t0 & t1 & t2 & t3 & t4 & E & B0 & B1 & B2 & B3 & B4 & Hv).
  unfold square_times_step. rewrite E. cbv zeta.
  rewrite !lo_mask, !mask_mod, !(shiftr_div _ 51), !shl128_small by lia.
  split51 t0 c0 r0. split51 t1 c1 r1. split51 t2 c2 r2. split51 t3 c3 r3. split51 t4 c4 r4.
  unfold add64, mul64.
  rewrite (u64_small (r1 + c0)), (u64_small (r2 + c1)), (u64_small (r3 + c2)),
    (u64_small (r4 + c3)), (u64_small (c4 * 19)), (u64_small (r0 + c4 * 19)) by lia.
  split51 (r0 + c4 * 19) d0 e0.
  rewrite (u64_small (r1 + c0 + d0)) by lia. split51 (r1 + c0 + d0) d1 e1.
  rewrite (u64_small (r2 + c1 + d1)) by lia. split51 (r2 + c1 + d1) d2 e2.
  rewrite (u64_small (r3 + c2 + d2)) by lia. split51 (r3 + c2 + d2) d3 e3.
  rewrite (u64_small (r4 + c3 + d3)) by lia. split51 (r4 + c3 + d3) d4 e4.
  rewrite (u64_small (d4 * 19)), (u64_small (e0 + d4 * 19)) by lia. split.
  - repeat split; cbn [l0 l1 l2 l3 l4]; lia.
  - rewrite <- Hv. apply (feq_intro _ _ (- (c4 + d4))).
    unfold val, p. cbn [l0 l1 l2 l3 l4]. lia.
Qed.

(** [curve25519_square_times] raises to the power 2^count (for the counts
    the sources use, at least 1, a tight result). *)
Lemma square_times_spec (a : bignum25519) (n : nat) :
  loose a -> (1 <= n)%nat ->
  tight (curve25519_square_times a n) /\
  val (curve25519_square_times a n) ≡ val a ^ (2 ^ Z.of_nat n).
Proof.
  intros Ha Hn. destruct n as [| n]; [lia |]. clear Hn.
  unfold curve25519_square_times. induction n as [| n IH].
  - destruct (square_times_step_spec a Ha) as [Ht Hv]. split; [exact Ht |].
    cbn [Nat.iter]. rewrite Hv. change (2 ^ Z.of_nat 1) with 2. now rewrite Z.pow_2_r.
  - destruct IH as [Ht Hv]. rewrite Nat.iter_succ.
    destruct (square_times_step_spec _ (tight_loose _ Ht)) as [Ht' Hv'].
    split; [exact Ht' |]. rewrite Hv', Hv, <- Z.pow_add_r by lia.
    replace (2 ^ Z.of_nat (S (S n))) with (2 ^ Z.of_nat (S n) + 2 ^ Z.of_nat (S n));
      [reflexivity |].
    rewrite (Nat2Z.inj_succ (S n)), Z.pow_succ_r by lia. ring.
Qed.

(** ** Additions and subtractions *)

Ltac limbs b := destruct b as [?x0 ?x1 ?x2 ?x3 ?x4]; unfold limbs_lt in *; cbn [l0 l1 l2 l3 l4] in *.

Lemma add_spec (n : Z) (a b : bignum25519) :
  n <= 2 ^ 60 -> limbs_lt n a -> limbs_lt n b ->
  limbs_lt (2 * n) (curve25519_add a b) /\ val (curve25519_add a b) = val a + val b.
Proof.
  intros Hn Ha Hb. destruct a, b. unfold limbs_lt, curve25519_add, val, add64 in *.
  cbn [l0 l1 l2 l3 l4] in *. rewrite !u64_small by lia. split; lia.
Qed.

Lemma sub_spec (n : Z) (a b : bignum25519) :
  n <= 2 ^ 60 -> limbs_lt n a -> tight b ->
  limbs_lt (n + 2 ^ 52) (curve25519_sub a b) /\ val (curve25519_sub a b) ≡ val a - val b.
Proof.
  intros Hn Ha Hb. destruct a, b. unfold tight, limbs_lt, curve25519_sub, add64, sub64 in *.
  cbn [l0 l1 l2 l3 l4] in *. unfold twoP0, twoP1234.
  repeat rewrite u64_small by (rewrite ?u64_small by lia; lia). split; [lia |].
  apply (feq_intro _ _ 2). unfold val, p. cbn [l0 l1 l2 l3 l4]. lia.
Qed.

Lemma sub_after_basic_spec (n : Z) (a b : bignum25519) :
  n <= 2 ^ 60 -> limbs_lt n a -> limbs_lt (2 ^ 53 - 76) b ->
  limbs_lt (n + 2 ^ 53) (curve25519_sub_after_basic a b) /\
  val (curve25519_sub_after_basic a b) ≡ val a - val b.
Proof.
  intros Hn Ha Hb. destruct a, b.
  unfold limbs_lt, curve25519_sub_after_basic, add64, sub64 in *.
  cbn [l0 l1 l2 l3 l4] in *. unfold fourP0, fourP1234.
  repeat rewrite u64_small by (rewrite ?u64_small by lia; lia). split; [lia |].
  apply (feq_intro _ _ 4). unfold val, p. cbn [l0 l1 l2 l3 l4]. lia.
Qed.

(** The pass of carries that ends [add_reduce], [sub_reduce] and [neg]. *)
Definition carry_reduce (x0 x1 x2 x3 x4 : Z) : bignum25519 :=
  let c := x0 >>u 51 in let o0 := x0 &u reduce_mask_51 in
  let o1 := x1 +u c in let c := o1 >>u 51 in let o1 := o1 &u reduce_mask_51 in
  let o2 := x2 +u c in let c := o2 >>u 51 in let o2 := o2 &u reduce_mask_51 in
  let o3 := x3 +u c in let c := o3 >>u 51 in let o3 := o3 &u reduce_mask_51 in
  let o4 := x4 +u c in let c := o4 >>u 51 in let o4 := o4 &u reduce_mask_51 in
  bn (o0 +u (c *u 19)) o1 o2 o3 o4.

Lemma carry_reduce_spec (x : bignum25519) :
  limbs_lt (2 ^ 62) x ->
  tight (carry_reduce (l0 x) (l1 x) (l2 x) (l3 x) (l4 x)) /\
  val (carry_reduce (l0 x) (l1 x) (l2 x) (l3 x) (l4 x)) ≡ val x.
Proof.
  destruct x as [x0 x1 x2 x3 x4]. unfold limbs_lt. cbn [l0 l1 l2 l3 l4].
  intros (H0 & H1 & H2 & H3 & H4). unfold carry_reduce. cbv zeta.
  rewrite !mask_mod, !(shiftr_div _ 51) by lia. unfold add64, mul64. split51 x0 c0 r0.
  rewrite (u64_small (x1 + c0)) by lia. split51 (x1 + c0) c1 r1.
  rewrite (u64_small (x2 + c1)) by lia. split51 (x2 + c1) c2 r2.
  rewrite (u64_small (x3 + c2)) by lia. split51 (x3 + c2) c3 r3.
  rewrite (u64_small (x4 + c3)) by lia. split51 (x4 + c3) c4 r4.
  rewrite (u64_small (c4 * 19)), (u64_small (r0 + c4 * 19)) by lia. split.
  - repeat split; cbn [l0 l1 l2 l3 l4]; lia.
  - apply (feq_intro _ _ (- c4)). unfold val, p. cbn [l0 l1 l2 l3 l4]. lia.
Qed.

Lemma add_reduce_spec (a b : bignum25519) :
  limbs_lt (2 ^ 60) a -> limbs_lt (2 ^ 60) b ->
  tight (curve25519_add_reduce a b) /\ val (curve25519_add_reduce a b) ≡ val a + val b.
Proof.
  intros Ha Hb. destruct (add_spec (2 ^ 60) a b ltac:(lia) Ha Hb) as [Hl <-].
  apply (carry_reduce_spec (curve25519_add a b)).
  eapply limbs_lt_le; [| exact Hl]. lia.
Qed.

Lemma sub_reduce_spec (a b : bignum25519) :
  limbs_lt (2 ^ 60) a -> limbs_lt (2 ^ 53 - 76) b ->
  tight (curve25519_sub_reduce a b) /\ val (curve25519_sub_reduce a b) ≡ val a - val b.
Proof.
  intros Ha Hb. destruct (sub_after_basic_spec (2 ^ 60) a b ltac:(lia) Ha Hb) as [Hl <-].
  apply (carry_reduce_spec (curve25519_sub_after_basic a b)).
  eapply limbs_lt_le; [| exact Hl]. lia.
Qed.

Lemma neg_spec (a : bignum25519) :
  tight a -> tight (curve25519_neg a) /\ val (curve25519_neg a) ≡ - val a.
Proof.
  intros Ha. assert (H0 : limbs_lt 1 (bn 0 0 0 0 0)) by (repeat split; cbn; lia).
  destruct (sub_spec 1 (bn 0 0 0 0 0) a ltac:(lia) H0 Ha) as [Hl Hv].
  change (val (bn 0 0 0 0 0)) with 0 in Hv.
  assert (E : - val a = 0 - val a) by lia. rewrite E, <- Hv.
  change (curve25519_neg a) with
    (let x := curve25519_sub (bn 0 0 0 0 0) a in
     carry_reduce (l0 x) (l1 x) (l2 x) (l3 x) (l4 x)).
  apply (carry_reduce_spec (curve25519_sub (bn 0 0 0 0 0) a)).
  eapply limbs_lt_le; [| exact Hl]. lia.
Qed.

(** ** Exponentiation chains *)

Lemma mul_pow (x m n e : Z) (A B : bignum25519) :
  0 <= m -> 0 <= n -> m + n = e ->
  loose A -> loose B -> val A ≡ x ^ m -> val B ≡ x ^ n ->
  tight (curve25519_mul_noinline A B) /\ val (curve25519_mul_noinline A B) ≡ x ^ e.
Proof.
  intros Hm Hn <- HA HB EA EB. destruct (mul_spec A B HA HB) as [Ht Hv].
  split; [exact Ht |]. unfold curve25519_mul_noinline.
  now rewrite Hv, EA, EB, Z.pow_add_r.
Qed.

#[export] Instance pow_feq : Proper (feq ==> eq ==> feq) Z.pow.
Proof.
  intros x y Hxy n ? <-. destruct (Z.le_gt_cases 0 n) as [Hn | Hn].
  - revert n Hn. apply natlike_ind; [reflexivity |].
    intros n Hn IH. rewrite !Z.pow_succ_r by assumption. now rewrite IH, Hxy.
  - now rewrite !Z.pow_neg_r.
Qed.

Lemma square_times_pow (x m e : Z) (n : nat) (A : bignum25519) :
  0 <= m -> (1 <= n)%nat -> m * 2 ^ Z.of_nat n = e -> loose A -> val A ≡ x ^ m ->
  tight (curve25519_square_times A n) /\ val (curve25519_square_times A n) ≡ x ^ e.
Proof.
  intros Hm Hn <- HA EA. destruct (square_times_spec A n HA Hn) as [Ht Hv].
  split; [exact Ht |]. rewrite Hv, EA, Z.pow_mul_r; [reflexivity | lia | lia].
Qed.

(** From here on multiplication and squaring are used through their
    specifications only. *)
Strategy opaque [curve25519_mul_noinline curve25519_square_times Z.pow val].

(** Run one call of a chain on powers of [x]. *)
Ltac chain_step :=
  let Ht := fresh "Ht" in let Hl := fresh "Hl" in let Hv := fresh "Hv" in let R := fresh "R" in
  match goal with
  | HA : loose ?A, EA : val ?A ≡ ?x ^ ?m, HB : loose ?B, EB : val ?B ≡ ?x ^ ?n
    |- context [curve25519_mul_noinline ?A ?B] =>
      let e := eval vm_compute in (m + n) in
      destruct (mul_pow x m n e A B ltac:(discriminate) ltac:(discriminate)
        ltac:(vm_compute; reflexivity) HA HB EA EB) as [Ht Hv];
      pose proof (tight_loose _ Ht) as Hl;
      set (R := curve25519_mul_noinline A B) in *; clearbody R
  | HA : loose ?A, EA : val ?A ≡ ?x ^ ?m |- context [curve25519_square_times ?A ?n] =>
      let e := eval vm_compute in (m * 2 ^ Z.of_nat n) in
      destruct (square_times_pow x m e n A ltac:(discriminate) (le_n_S _ _ (Nat.le_0_l _))
        ltac:(vm_compute; reflexivity) HA EA) as [Ht Hv];
      pose proof (tight_loose _ Ht) as Hl;
      set (R := curve25519_square_times A n) in *; clearbody R
  end.

Lemma pow_two5mtwo0_two250mtwo0_spec (b : bignum25519) (x : Z) :
  tight b -> val b ≡ x ^ 31 ->
  tight (curve25519_pow_two5mtwo0_two250mtwo0 b) /\
  val (curve25519_pow_two5mtwo0_two250mtwo0 b) ≡ x ^ (2 ^ 250 - 1).
Proof.
  intros Hb Eb. apply tight_loose in Hb. unfold curve25519_pow_two5mtwo0_two250mtwo0. cbv zeta.
  repeat chain_step. split; assumption.
Qed.

(** The argument is its first power. *)
Lemma pow1 (z : bignum25519) : val z ≡ val z ^ 1.
Proof. now rewrite Z.pow_1_r. Qed.

(** The prefix shared by both chains: from [x] to x^31. *)
Ltac chain_250 :=
  match goal with HA : tight ?A, EA : val ?A ≡ ?x ^ 31 |- _ =>
    let Ht := fresh "Ht" in let Hv := fresh "Hv" in let P := fresh "P" in
    destruct (pow_two5mtwo0_two250mtwo0_spec A x HA EA) as [Ht Hv];
    change (2 ^ 250 - 1) with
      1809251394333065553493296640760748560207343510400633813116524750123642650623 in Hv;
    set (P := curve25519_pow_two5mtwo0_two250mtwo0 A) in *;
    pose proof (tight_loose P Ht); clearbody P end.

Lemma recip_spec (z : bignum25519) :
  loose z -> tight (curve25519_recip z) /\ val (curve25519_recip z) ≡ val z ^ (p - 2).
Proof.
  intros Hz. pose proof (pow1 z) as Ez. revert Ez. generalize (val z) at 2 3 as x. intros x Ez.
  unfold curve25519_recip. cbv zeta. do 6 chain_step. chain_250.
  repeat chain_step. split; assumption.
Qed.

Lemma pow_two252m3_spec (z : bignum25519) :
  loose z ->
  tight (curve25519_pow_two252m3 z) /\
  val (curve25519_pow_two252m3 z) ≡ val z ^ ((p - 5) / 8).
Proof.
  intros Hz. pose proof (pow1 z) as Ez. revert Ez. generalize (val z) at 2 3 as x. intros x Ez.
  unfold curve25519_pow_two252m3. cbv zeta. do 6 chain_step. chain_250.
  repeat chain_step. split; assumption.
Qed.

Strategy transparent [curve25519_mul_noinline curve25519_square_times Z.pow val].

(** ** Reading a field element *)

(** [curve25519_expand] reads the low 255 bits of a 32-byte string into
    fully reduced limbs. *)
Lemma expand_spec (l : list Z) :
  bytes_ok l -> length l = 32%nat ->
  limbs_lt (2 ^ 51) (curve25519_expand l) /\
  val (curve25519_expand l) = le_val l mod 2 ^ 255.
Proof.
  intros Hl Hn. rewrite (le_val_words l Hl Hn).
  pose proof (word_range l 0 Hl ltac:(lia)) as B0. pose proof (word_range l 8 Hl ltac:(lia)) as B1.
  pose proof (word_range l 16 Hl ltac:(lia)) as B2. pose proof (word_range l 24 Hl ltac:(lia)) as B3.
  unfold curve25519_expand. cbv zeta.
  rewrite !U8TO64_LE_val by (rewrite ?length_skipn; auto with bytes; lia).
  change (skipn 0 l) with l in B0.
  set (x0 := le_val (firstn 8 l)) in *. set (x1 := le_val (firstn 8 (skipn 8 l))) in *.
  set (x2 := le_val (firstn 8 (skipn 16 l))) in *.
  set (x3 := le_val (firstn 8 (skipn 24 l))) in *. clearbody x0 x1 x2 x3.
  rewrite !mask_mod, !(funnel 51), (shiftr_div x3) by lia. unfold limbs_lt, val. cbn [l0 l1 l2 l3 l4].
  Z.div_mod_to_equations. lia.
Qed.

(** ** Writing a field element *)

Lemma contract_carry_spec (t : bignum25519) :
  limbs_lt (2 ^ 62) t ->
  let r := curve25519_contract_carry t in
  val r = val t /\ (0 <= l0 r < 2 ^ 51 /\ 0 <= l1 r < 2 ^ 51 /\ 0 <= l2 r < 2 ^ 51 /\
  0 <= l3 r < 2 ^ 51) /\ 0 <= l4 r < 2 ^ 63.
Proof.
  destruct t as [x0 x1 x2 x3 x4]. unfold limbs_lt. cbn [l0 l1 l2 l3 l4].
  intros (H0 & H1 & H2 & H3 & H4). unfold curve25519_contract_carry. cbv zeta.
  cbn [l0 l1 l2 l3 l4]. rewrite !mask_mod, !(shiftr_div _ 51) by lia. unfold add64.
  split51 x0 c0 r0. rewrite (u64_small (x1 + c0)) by lia. split51 (x1 + c0) c1 r1.
  rewrite (u64_small (x2 + c1)) by lia. split51 (x2 + c1) c2 r2.
  rewrite (u64_small (x3 + c2)) by lia. split51 (x3 + c2) c3 r3.
  rewrite (u64_small (x4 + c3)) by lia. unfold val. cbn [l0 l1 l2 l3 l4]. lia.
Qed.

(** One pass folds the part above 2^255 back in, multiplied by 19. *)
Lemma contract_carry_full_spec (t : bignum25519) :
  limbs_lt (2 ^ 55) t ->
  let r := curve25519_contract_carry_full t in let q := val t / 2 ^ 255 in
  val r = val t mod 2 ^ 255 + 19 * q /\
  0 <= l0 r < 2 ^ 51 + 19 * q /\ 0 <= l1 r < 2 ^ 51 /\ 0 <= l2 r < 2 ^ 51 /\
  0 <= l3 r < 2 ^ 51 /\ 0 <= l4 r < 2 ^ 51.
Proof.
  intros Ht. destruct (contract_carry_spec t) as (Hv & (B0 & B1 & B2 & B3) & B4);
    [eapply limbs_lt_le; [| exact Ht]; lia |].
  assert (Hb : 0 <= val t < 2 ^ 255 * 2 ^ 5) by (unfold limbs_lt, val in *; lia).
  rewrite <- Hv in *. clear Hv. unfold curve25519_contract_carry_full. cbv zeta.
  destruct (curve25519_contract_carry t) as [x0 x1 x2 x3 x4]. unfold val in *.
  cbn [l0 l1 l2 l3 l4] in *. rewrite mask_mod, (shiftr_div x4) by lia.
  set (V := x0 + 2 ^ 51 * x1 + 2 ^ 102 * x2 + 2 ^ 153 * x3 + 2 ^ 204 * x4) in *.
  assert (Eq : x4 / 2 ^ 51 = V / 2 ^ 255) by (unfold V; Z.div_mod_to_equations; lia).
  pose proof (Z.div_mod V (2 ^ 255) ltac:(lia)) as HV.
  pose proof (Z.mod_pos_bound V (2 ^ 255) ltac:(lia)).
  pose proof (Z.div_mod x4 (2 ^ 51) ltac:(lia)). pose proof (Z.mod_pos_bound x4 (2 ^ 51) ltac:(lia)).
  rewrite Eq in *. unfold add64, mul64. rewrite (u64_small (19 * _)), u64_small by lia.
  unfold V in HV at 1. lia.
Qed.

Lemma contract_carry_final_spec (t : bignum25519) :
  limbs_lt (2 ^ 55) t ->
  let r := curve25519_contract_carry_final t in
  val r = val t mod 2 ^ 255 /\ limbs_lt (2 ^ 51) r.
Proof.
  intros Ht. destruct (contract_carry_spec t) as (Hv & (B0 & B1 & B2 & B3) & B4);
    [eapply limbs_lt_le; [| exact Ht]; lia |].
  rewrite <- Hv in *. clear Hv. unfold curve25519_contract_carry_final. cbv zeta.
  destruct (curve25519_contract_carry t) as [x0 x1 x2 x3 x4]. unfold val, limbs_lt in *.
  cbn [l0 l1 l2 l3 l4] in *. rewrite mask_mod. Z.div_mod_to_equations. lia.
Qed.

(** The five steps of [curve25519_contract] before the bytes are written. *)
Definition contract_reduce (input : bignum25519) : bignum25519 :=
  let t := curve25519_contract_carry_full (curve25519_contract_carry_full (curve25519_copy input)) in
  let t := curve25519_contract_carry_full (bn (l0 t +u 19) (l1 t) (l2 t) (l3 t) (l4 t)) in
  curve25519_contract_carry_final
    (bn (l0 t +u (reduce_mask_51 +u 1 -u 19)) (l1 t +u (reduce_mask_51 +u 1 -u 1))
        (l2 t +u (reduce_mask_51 +u 1 -u 1)) (l3 t +u (reduce_mask_51 +u 1 -u 1))
        (l4 t +u (reduce_mask_51 +u 1 -u 1))).

Strategy 1000 [curve25519_contract_carry curve25519_contract_carry_full
  curve25519_contract_carry_final Z.pow Z.add Z.mul Z.div Z.modulo].

(** Two passes bring any loose element below 2^255. *)
Lemma contract_two_passes (t : bignum25519) :
  loose t ->
  let r := curve25519_contract_carry_full (curve25519_contract_carry_full t) in
  val r ≡ val t /\ limbs_lt (2 ^ 51) r.
Proof.
  intros Ht. destruct (contract_carry_full_spec t) as (E1 & B1);
    [eapply limbs_lt_le; [| exact Ht]; lia |].
  assert (Hq : 0 <= val t / 2 ^ 255 <= 8).
  { split; [apply Z.div_pos | apply Z.lt_succ_r, Z.div_lt_upper_bound];
      unfold loose, limbs_lt, val in *; lia. }
  set (u := curve25519_contract_carry_full t) in *. cbv zeta in *.
  destruct (contract_carry_full_spec u) as (E2 & B2); [unfold limbs_lt; lia |].
  set (r := curve25519_contract_carry_full u) in *. cbv zeta in *.
  pose proof (Z.div_mod (val t) (2 ^ 255) ltac:(lia)).
  pose proof (Z.mod_pos_bound (val t) (2 ^ 255) ltac:(lia)).
  pose proof (Z.div_mod (val u) (2 ^ 255) ltac:(lia)).
  pose proof (Z.mod_pos_bound (val u) (2 ^ 255) ltac:(lia)).
  split.
  - apply (feq_intro _ _ (- (val t / 2 ^ 255 + val u / 2 ^ 255))). unfold p. lia.
  - assert (val r < 2 ^ 255) by lia. unfold limbs_lt, val in *. lia.
Qed.

Lemma mask_minus_19 : reduce_mask_51 +u 1 -u 19 = 2 ^ 51 - 19.
Proof. reflexivity. Qed.

Lemma mask_minus_1 : reduce_mask_51 +u 1 -u 1 = 2 ^ 51 - 1.
Proof. reflexivity. Qed.

Lemma contract_reduce_spec (t : bignum25519) :
  loose t -> val (contract_reduce t) = val t mod p /\ limbs_lt (2 ^ 51) (contract_reduce t).
Proof.
  intros Ht. unfold contract_reduce. cbv zeta.
  replace (curve25519_copy t) with t by (destruct t; reflexivity).
  destruct (contract_two_passes t Ht) as [E B]. unfold feq in E. rewrite <- E. clear E.
  set (v := curve25519_contract_carry_full (curve25519_contract_carry_full t)) in *. clearbody v.
  unfold limbs_lt in B. replace (l0 v +u 19) with (l0 v + 19) by (symmetry; apply u64_small; lia).
  set (w := bn (l0 v + 19) (l1 v) (l2 v) (l3 v) (l4 v)).
  assert (Ew : val w = val v + 19) by (unfold val, w; cbn [l0 l1 l2 l3 l4]; lia).
  destruct (contract_carry_full_spec w) as (E1 & B1);
    [unfold limbs_lt, w; cbn [l0 l1 l2 l3 l4]; lia |]. cbv zeta in *.
  set (r := curve25519_contract_carry_full w) in *. clearbody r w.
  rewrite mask_minus_19, mask_minus_1.
  assert (Hv : 0 <= val v < 2 ^ 255) by (unfold val; lia).
  assert (Hq : 0 <= val w / 2 ^ 255 <= 1)
    by (split; [apply Z.div_pos | apply Z.lt_succ_r, Z.div_lt_upper_bound]; lia).
  unfold add64. rewrite !u64_small by lia.
  match goal with |- context [curve25519_contract_carry_final ?x] => set (y := x) end.
  destruct (contract_carry_final_spec y) as [E2 B2];
    [unfold limbs_lt, y; cbn [l0 l1 l2 l3 l4]; lia |]. split; [| exact B2].
  assert (Ey : val y = val r + 2 ^ 255 - 19) by (unfold val, y; cbn [l0 l1 l2 l3 l4]; lia).
  rewrite E2, Ey, E1, Ew. clear - Hv. unfold p. Z.div_mod_to_equations. lia.
Qed.

Lemma write51full_spec (lo hi s : Z) :
  0 <= lo < 2 ^ 51 -> 0 <= s <= 51 ->
  write51full lo hi s = le_bytes 8 (lo / 2 ^ s + 2 ^ (51 - s) * hi).
Proof. intros Hlo Hs. apply (pack_word 51); lia. Qed.

Lemma write_limbs (t : bignum25519) :
  limbs_lt (2 ^ 51) t ->
  write51full (l0 t) (l1 t) 0 ++ write51full (l1 t) (l2 t) 13 ++
  write51full (l2 t) (l3 t) 26 ++ write51full (l3 t) (l4 t) 39 = le_bytes 32 (val t).
Proof.
  intros (H0 & H1 & H2 & H3 & H4). rewrite !write51full_spec by lia. symmetry.
  change 32%nat with (8 + (8 + (8 + 8)))%nat. rewrite !le_bytes_app.
  change (8 * Z.of_nat 8) with 64. rewrite !Z.div_div by lia.
  change (2 ^ 64 * 2 ^ 64) with (2 ^ 128). change (2 ^ 128 * 2 ^ 64) with (2 ^ 192).
  destruct t as [x0 x1 x2 x3 x4]. unfold val. cbn [l0 l1 l2 l3 l4] in *. f_equal; [| f_equal; [| f_equal]].
  - rewrite <- (Z.div_1_r (x0 + _ + _ + _ + _)). change 1 with (2 ^ 0) at 1.
    apply (word_of_limbs _ _ 0 _ (2 ^ 38 * x2 + 2 ^ 89 * x3 + 2 ^ 140 * x4)); try lia.
    change (2 ^ 0) with 1. rewrite Z.div_1_r. change (51 - 0) with 51. lia.
  - apply (word_of_limbs _ _ (x0 + 2 ^ 51 * (x1 mod 2 ^ 13)) _ (2 ^ 25 * x3 + 2 ^ 76 * x4));
      Z.div_mod_to_equations; lia.
  - apply (word_of_limbs _ _ (x0 + 2 ^ 51 * x1 + 2 ^ 102 * (x2 mod 2 ^ 26)) _ (2 ^ 12 * x4));
      Z.div_mod_to_equations; lia.
  - apply (word_of_limbs _ _ (x0 + 2 ^ 51 * x1 + 2 ^ 102 * x2 + 2 ^ 153 * (x3 mod 2 ^ 39)) _ 0);
      Z.div_mod_to_equations; lia.
Qed.

(** [curve25519_contract] writes the canonical residue, little endian. *)
Lemma contract_spec (b : bignum25519) :
  loose b -> curve25519_contract b = le_bytes 32 (val b mod p).
Proof.
  intros Hb. destruct (contract_reduce_spec b Hb) as [<- B].
  rewrite <- (write_limbs _ B). reflexivity.
Qed.

(** ** Constant-time selection *)

Lemma swap_conditional_word_spec (a b : Z) :
  0 <= a < 2 ^ 64 -> 0 <= b < 2 ^ 64 ->
  swap_conditional_word (u64 (- (0))) a b = (a, b) /\
  swap_conditional_word (u64 (- (1))) a b = (b, a).
Proof.
  intros Ha Hb. unfold swap_conditional_word.
  change (u64 (- (0))) with 0. change (u64 (- (1))) with (Z.ones 64).
  rewrite Z.land_0_l, !Z.lxor_0_r. split; [reflexivity |].
  rewrite Z.land_comm, land_ones_id by (try apply lxor_range; lia).
  rewrite (Z.lxor_comm a b) at 2. rewrite <- !Z.lxor_assoc, !Z.lxor_nilpotent, !Z.lxor_0_l.
  reflexivity.
Qed.

Lemma swap_conditional_spec (a b : bignum25519) (swap : bool) :
  limbs_lt (2 ^ 64) a -> limbs_lt (2 ^ 64) b ->
  curve25519_swap_conditional a b (Z.b2z swap) = if swap then (b, a) else (a, b).
Proof.
  intros (A0 & A1 & A2 & A3 & A4) (B0 & B1 & B2 & B3 & B4).
  unfold curve25519_swap_conditional. destruct a, b; cbn [l0 l1 l2 l3 l4] in *.
  destruct swap; cbn [Z.b2z].
  - repeat match goal with |- context [swap_conditional_word _ ?x ?y] =>
      rewrite (proj2 (swap_conditional_word_spec x y ltac:(assumption) ltac:(assumption))) end.
    reflexivity.
  - repeat match goal with |- context [swap_conditional_word _ ?x ?y] =>
      rewrite (proj1 (swap_conditional_word_spec x y ltac:(assumption) ltac:(assumption))) end.
    reflexivity.
Qed.

Lemma move_conditional_word_spec (o i : Z) :
  0 <= o < 2 ^ 64 -> 0 <= i < 2 ^ 64 ->
  move_conditional_word o i (0 -u 1) (not64 (0 -u 1)) = o /\
  move_conditional_word o i (1 -u 1) (not64 (1 -u 1)) = i.
Proof.
  intros Ho Hi. unfold move_conditional_word.
  change (0 -u 1) with (Z.ones 64). change (not64 (Z.ones 64)) with 0.
  change (1 -u 1) with 0. change (not64 0) with (Z.ones 64).
  rewrite !land_ones_id, !Z.land_0_r, Z.lor_0_r, Z.lor_0_l by lia. split; reflexivity.
Qed.

(** The twelve words of a 96-byte entry, written back. *)
Lemma words_of_bytes (l : list Z) (n : nat) :
  bytes_ok l -> length l = (8 * n)%nat ->
  concat (map (fun k => le_bytes 8 (le_val (firstn 8 (skipn (8 * k) l)))) (seq 0 n)) = l.
Proof.
  revert l. induction n as [| n IH]; intros l Hl Hn.
  - destruct l; [reflexivity | discriminate].
  - cbn [seq map concat]. rewrite <- seq_shift, map_map.
    transitivity (firstn 8 l ++ skipn 8 l); [f_equal | apply firstn_skipn].
    + change (skipn (8 * 0) l) with l.
      replace 8%nat with (length (firstn 8 l)) at 1 by (rewrite length_firstn; lia).
      apply le_bytes_val; auto with bytes.
    + rewrite <- (IH (skipn 8 l)) by (rewrite ?length_skipn; auto with bytes; lia).
      f_equal. apply map_ext. intros k. rewrite skipn_skipn.
      replace (8 * k + 8)%nat with (8 * S k)%nat by lia. reflexivity.
Qed.

(** [curve25519_move_conditional_bytes]: the entry or what was there. *)
Lemma move_conditional_bytes_spec (out inp : list Z) (flag : bool) :
  bytes_ok out -> bytes_ok inp -> length out = 96%nat -> length inp = 96%nat ->
  curve25519_move_conditional_bytes out inp (Z.b2z flag) = if flag then inp else out.
Proof.
  intros Ho Hi Lo Li. unfold curve25519_move_conditional_bytes. cbv zeta.
  transitivity (concat (map (fun k => le_bytes 8 (le_val (firstn 8 (skipn (8 * k)
    (if flag then inp else out))))) (seq 0 12)));
    [| apply words_of_bytes; destruct flag; assumption].
  f_equal. apply map_ext_in. intros k Hk%in_seq.
  rewrite !U8TO64_LE_val by (rewrite ?length_skipn; auto with bytes; lia).
  pose proof (word_range out (8 * k) Ho ltac:(lia)) as Bo.
  pose proof (word_range inp (8 * k) Hi ltac:(lia)) as Bi.
  destruct (move_conditional_word_spec _ _ Bo Bi) as [E0 E1].
  destruct flag; cbn [Z.b2z]; rewrite ?E0, ?E1; apply U64TO8_LE_bytes; lia.
Qed.

(** ** Field arithmetic on encodings *)

(** Any 32 bytes, as a tight element. *)
Lemma expand_tight (l : list Z) : bytes_ok l -> length l = 32%nat -> tight (curve25519_expand l).
Proof.
  intros Hl Hn. destruct (expand_spec l Hl Hn) as [B _]. revert B. apply limbs_lt_le. lia.
Qed.

Lemma contract_feq (b : bignum25519) (x : Z) :
  tight b -> val b ≡ x -> curve25519_contract b = le_bytes 32 (x mod p).
Proof. intros Hb Hx. rewrite (contract_spec _ (tight_loose _ Hb)). unfold feq in Hx. now rewrite Hx. Qed.

(** Multiplying two field elements through their 32-byte encodings gives the
    encoding of the canonical product modulo 2^255 - 19. *)
Theorem mul_bytes (x y : list Z) (Hx : bytes_ok x) (Lx : length x = 32%nat)
  (Hy : bytes_ok y) (Ly : length y = 32%nat) :
  curve25519_contract (curve25519_mul (curve25519_expand x) (curve25519_expand y)) =
  le_bytes 32 ((le_val x mod 2 ^ 255) * (le_val y mod 2 ^ 255) mod p).
Proof.
  destruct (mul_spec (curve25519_expand x) (curve25519_expand y)) as [Ht Hv];
    try now apply tight_loose, expand_tight.
  apply contract_feq; [assumption |]. rewrite Hv.
  now rewrite (proj2 (expand_spec x Hx Lx)), (proj2 (expand_spec y Hy Ly)).
Qed.

Lemma mul_bytes_witness :
  curve25519_contract (curve25519_mul (curve25519_expand (le_bytes 32 (p - 1))) (curve25519_expand (le_bytes 32 2)))
  = le_bytes 32 ((le_val (le_bytes 32 (p - 1)) mod 2 ^ 255) * (le_val (le_bytes 32 2) mod 2 ^ 255) mod p).
Proof.
  apply (mul_bytes (le_bytes 32 (p - 1)) (le_bytes 32 2));
    try apply le_bytes_ok; try apply le_bytes_length.
Defined.

(** Inversion computes the power p - 2 of the encoded element, canonically
    encoded, and the square-root exponentiation the power (p - 5) / 8. *)
Theorem recip_bytes (x : list Z) (Hx : bytes_ok x) (Lx : length x = 32%nat) :
  curve25519_contract (curve25519_recip (curve25519_expand x)) =
    le_bytes 32 ((le_val x mod 2 ^ 255) ^ (p - 2) mod p) /\
  curve25519_contract (curve25519_pow_two252m3 (curve25519_expand x)) =
    le_bytes 32 ((le_val x mod 2 ^ 255) ^ ((p - 5) / 8) mod p).
Proof.
  rewrite <- (proj2 (expand_spec x Hx Lx)). pose proof (tight_loose _ (expand_tight x Hx Lx)) as Ht. split.
  - destruct (recip_spec _ Ht) as [Ht' Hv]. now apply contract_feq.
  - destruct (pow_two252m3_spec _ Ht) as [Ht' Hv]. now apply contract_feq.
Qed.

Lemma recip_bytes_witness :
  curve25519_contract (curve25519_recip (curve25519_expand (le_bytes 32 2))) =
    le_bytes 32 ((le_val (le_bytes 32 2) mod 2 ^ 255) ^ (p - 2) mod p) /\
  curve25519_contract (curve25519_pow_two252m3 (curve25519_expand (le_bytes 32 2))) =
    le_bytes 32 ((le_val (le_bytes 32 2) mod 2 ^ 255) ^ ((p - 5) / 8) mod p).
Proof. apply (recip_bytes (le_bytes 32 2)); [apply le_bytes_ok | apply le_bytes_length]. Defined.

End Donna64.
