(* ===== verification/Modm64.v ===== *)
(** * Arithmetic modulo the group order, 64-bit limbs

    Model of [crypto/ed25519-donna/modm-donna-64bit.h].  A scalar is five
    limbs in radix 2^56; every operation wraps at 64 bits (128 bits for the
    column sums).  The theorems show that Barrett reduction, multiplication
    and addition return the canonical residue modulo the group order, that
    reading and writing scalars are inverse, and that the signed window
    recodings represent the scalar. *)

From Stdlib Require Import ZArith Lia List Bool.
From S2P Require Import Prelude Portable.
Import ListNotations.
Local Open Scope Z_scope.
Local Open Scope word_scope.

Module Scalar64.

Record bignum256modm := bm { a0 : Z; a1 : Z; a2 : Z; a3 : Z; a4 : Z }.

Definition modm_m : bignum256modm :=
  bm 0x12631a5cf5d3ed 0xf9dea2f79cd658 0x000000000014de 0x00000000000000 0x00000010000000.

Definition modm_mu : bignum256modm :=
  bm 0x9ce5a30a2c131b 0x215d086329a7ed 0xffffffffeb2106 0xffffffffffffff 0x00000fffffffff.

Definition mask56 : Z := 0xffffffffffffff.

Definition lt_modm (a b : Z) : Z := (a -u b) >>u 63.

(** One line of a subtraction with borrow:
    [pb += y; b = lt_modm (x, pb); t = x - pb + (b << sh)]. *)
Definition sub_limb (x y pb sh : Z) : Z * Z :=
  let pb := pb +u y in
  let b := lt_modm x pb in
  (x -u pb +u (b <<u sh), b).

(** The five lines; the last limb wraps at [top] bits. *)
Definition sub_borrow (x y : bignum256modm) (top : Z) : bignum256modm * Z :=
  let '(t0, b) := sub_limb (a0 x) (a0 y) 0 56 in
  let '(t1, b) := sub_limb (a1 x) (a1 y) b 56 in
  let '(t2, b) := sub_limb (a2 x) (a2 y) b 56 in
  let '(t3, b) := sub_limb (a3 x) (a3 y) b 56 in
  let '(t4, b) := sub_limb (a4 x) (a4 y) b top in
  (bm t0 t1 t2 t3 t4, b).

Definition reduce256_modm (r : bignum256modm) : bignum256modm :=
  let '(t, b) := sub_borrow r modm_m 32 in
  let mask := b -u 1 in
  bm (a0 r ^u (mask &u (a0 r ^u a0 t))) (a1 r ^u (mask &u (a1 r ^u a1 t)))
     (a2 r ^u (mask &u (a2 r ^u a2 t))) (a3 r ^u (mask &u (a3 r ^u a3 t)))
     (a4 r ^u (mask &u (a4 r ^u a4 t))).

(** [q3 = (mu * q1) >> 264], without the three lowest columns. *)
Definition barrett_q3 (q1 : bignum256modm) : bignum256modm :=
  let m := mul64x64_128 in let mu := modm_mu in
  let c := add128 (add128 (add128 (m (a0 mu) (a3 q1)) (m (a3 mu) (a0 q1)))
    (m (a1 mu) (a2 q1))) (m (a2 mu) (a1 q1)) in
  let f := shr128 c 56 in
  let c := add128 (add128 (add128 (add128 (add128_64 (m (a0 mu) (a4 q1)) f)
    (m (a4 mu) (a0 q1))) (m (a3 mu) (a1 q1))) (m (a1 mu) (a3 q1))) (m (a2 mu) (a2 q1)) in
  let f := lo128 c in let q0 := (f >>u 40) &u 0xffff in let f := shr128 c 56 in
  let c := add128 (add128 (add128 (add128_64 (m (a4 mu) (a1 q1)) f)
    (m (a1 mu) (a4 q1))) (m (a2 mu) (a3 q1))) (m (a3 mu) (a2 q1)) in
  let f := lo128 c in let q0 := q0 |u ((f <<u 16) &u mask56) in
  let q1' := (f >>u 40) &u 0xffff in let f := shr128 c 56 in
  let c := add128 (add128 (add128_64 (m (a4 mu) (a2 q1)) f)
    (m (a2 mu) (a4 q1))) (m (a3 mu) (a3 q1)) in
  let f := lo128 c in let q1' := q1' |u ((f <<u 16) &u mask56) in
  let q2 := (f >>u 40) &u 0xffff in let f := shr128 c 56 in
  let c := add128 (add128_64 (m (a4 mu) (a3 q1)) f) (m (a3 mu) (a4 q1)) in
  let f := lo128 c in let q2 := q2 |u ((f <<u 16) &u mask56) in
  let q3 := (f >>u 40) &u 0xffff in let f := shr128 c 56 in
  let c := add128_64 (m (a4 mu) (a4 q1)) f in
  let f := lo128 c in let q3 := q3 |u ((f <<u 16) &u mask56) in
  let q4 := (f >>u 40) &u 0xffff in let f := shr128 c 56 in
  let q4 := q4 |u (f <<u 16) in
  bm q0 q1' q2 q3 q4.

(** [r2 = (q3 * m) mod 2^264]. *)
Definition barrett_r2 (q3 : bignum256modm) : bignum256modm :=
  let m := mul64x64_128 in let n := modm_m in
  let c := m (a0 n) (a0 q3) in
  let r0 := lo128 c &u mask56 in let f := shr128 c 56 in
  let c := add128 (add128_64 (m (a0 n) (a1 q3)) f) (m (a1 n) (a0 q3)) in
  let r1 := lo128 c &u mask56 in let f := shr128 c 56 in
  let c := add128 (add128 (add128_64 (m (a0 n) (a2 q3)) f) (m (a2 n) (a0 q3)))
    (m (a1 n) (a1 q3)) in
  let r2 := lo128 c &u mask56 in let f := shr128 c 56 in
  let c := add128 (add128 (add128 (add128_64 (m (a0 n) (a3 q3)) f) (m (a3 n) (a0 q3)))
    (m (a1 n) (a2 q3))) (m (a2 n) (a1 q3)) in
  let r3 := lo128 c &u mask56 in let f := shr128 c 56 in
  let c := add128 (add128 (add128 (add128 (add128_64 (m (a0 n) (a4 q3)) f)
    (m (a4 n) (a0 q3))) (m (a3 n) (a1 q3))) (m (a1 n) (a3 q3))) (m (a2 n) (a2 q3)) in
  let r4 := lo128 c &u 0x0000ffffffffff in
  bm r0 r1 r2 r3 r4.

Definition barrett_reduce256_modm (q1 r1 : bignum256modm) : bignum256modm :=
  let r2 := barrett_r2 (barrett_q3 q1) in
  let '(r, _) := sub_borrow r1 r2 40 in
  reduce256_modm (reduce256_modm r).

Definition add256_modm (x y : bignum256modm) : bignum256modm :=
  let c := a0 x +u a0 y in let r0 := c &u mask56 in let c := c >>u 56 in
  let c := c +u (a1 x +u a1 y) in let r1 := c &u mask56 in let c := c >>u 56 in
  let c := c +u (a2 x +u a2 y) in let r2 := c &u mask56 in let c := c >>u 56 in
  let c := c +u (a3 x +u a3 y) in let r3 := c &u mask56 in let c := c >>u 56 in
  let c := c +u (a4 x +u a4 y) in
  reduce256_modm (bm r0 r1 r2 r3 c).

(** The columns of the product, split into [q1 = (x * y) >> 248] and
    [r1 = (x * y) mod 2^264]. *)
Definition mul_split (x y : bignum256modm) : bignum256modm * bignum256modm :=
  let m := mul64x64_128 in
  let c := m (a0 x) (a0 y) in
  let f := lo128 c in let r0 := f &u mask56 in let f := shr128 c 56 in
  let c := add128 (add128_64 (m (a0 x) (a1 y)) f) (m (a1 x) (a0 y)) in
  let f := lo128 c in let r1 := f &u mask56 in let f := shr128 c 56 in
  let c := add128 (add128 (add128_64 (m (a0 x) (a2 y)) f) (m (a2 x) (a0 y)))
    (m (a1 x) (a1 y)) in
  let f := lo128 c in let r2 := f &u mask56 in let f := shr128 c 56 in
  let c := add128 (add128 (add128 (add128_64 (m (a0 x) (a3 y)) f) (m (a3 x) (a0 y)))
    (m (a1 x) (a2 y))) (m (a2 x) (a1 y)) in
  let f := lo128 c in let r3 := f &u mask56 in let f := shr128 c 56 in
  let c := add128 (add128 (add128 (add128 (add128_64 (m (a0 x) (a4 y)) f)
    (m (a4 x) (a0 y))) (m (a3 x) (a1 y))) (m (a1 x) (a3 y))) (m (a2 x) (a2 y)) in
  let f := lo128 c in let r4 := f &u 0x0000ffffffffff in
  let q0 := (f >>u 24) &u 0xffffffff in let f := shr128 c 56 in
  let c := add128 (add128 (add128 (add128_64 (m (a4 x) (a1 y)) f) (m (a1 x) (a4 y)))
    (m (a2 x) (a3 y))) (m (a3 x) (a2 y)) in
  let f := lo128 c in let q0 := q0 |u ((f <<u 32) &u mask56) in
  let q1 := (f >>u 24) &u 0xffffffff in let f := shr128 c 56 in
  let c := add128 (add128 (add128_64 (m (a4 x) (a2 y)) f) (m (a2 x) (a4 y)))
    (m (a3 x) (a3 y)) in
  let f := lo128 c in let q1 := q1 |u ((f <<u 32) &u mask56) in
  let q2 := (f >>u 24) &u 0xffffffff in let f := shr128 c 56 in
  let c := add128 (add128_64 (m (a4 x) (a3 y)) f) (m (a3 x) (a4 y)) in
  let f := lo128 c in let q2 := q2 |u ((f <<u 32) &u mask56) in
  let q3 := (f >>u 24) &u 0xffffffff in let f := shr128 c 56 in
  let c := add128_64 (m (a4 x) (a4 y)) f in
  let f := lo128 c in let q3 := q3 |u ((f <<u 32) &u mask56) in
  let q4 := (f >>u 24) &u 0xffffffff in let f := shr128 c 56 in
  let q4 := q4 |u (f <<u 32) in
  (bm q0 q1 q2 q3 q4, bm r0 r1 r2 r3 r4).

Definition mul256_modm (x y : bignum256modm) : bignum256modm :=
  let '(q1, r1) := mul_split x y in barrett_reduce256_modm q1 r1.

(** [inp] is the [len] bytes read; the work buffer holds 64. *)
Definition expand256_modm (inp : list Z) : bignum256modm :=
  let work := memcpy_at (repeat 0 64) 0 inp in
  let x := fun i => U8TO64_LE (skipn (8 * i) work) in
  let out := bm (x 0%nat &u mask56)
    (((x 0%nat >>u 56) |u (x 1%nat <<u 8)) &u mask56)
    (((x 1%nat >>u 48) |u (x 2%nat <<u 16)) &u mask56)
    (((x 2%nat >>u 40) |u (x 3%nat <<u 24)) &u mask56)
    (((x 3%nat >>u 32) |u (x 4%nat <<u 32)) &u 0x0000ffffffffff) in
  if (length inp <? 32)%nat then out else
  let q1 := bm (((x 3%nat >>u 56) |u (x 4%nat <<u 8)) &u mask56)
    (((x 4%nat >>u 48) |u (x 5%nat <<u 16)) &u mask56)
    (((x 5%nat >>u 40) |u (x 6%nat <<u 24)) &u mask56)
    (((x 6%nat >>u 32) |u (x 7%nat <<u 32)) &u mask56)
    (x 7%nat >>u 24) in
  barrett_reduce256_modm q1 out.

Definition expand_raw256_modm (inp : list Z) : bignum256modm :=
  let x := fun i => U8TO64_LE (skipn (8 * i) inp) in
  bm (x 0%nat &u mask56)
    (((x 0%nat >>u 56) |u (x 1%nat <<u 8)) &u mask56)
    (((x 1%nat >>u 48) |u (x 2%nat <<u 16)) &u mask56)
    (((x 2%nat >>u 40) |u (x 3%nat <<u 24)) &u mask56)
    ((x 3%nat >>u 32) &u 0x000000ffffffff).

Definition contract256_modm (inp : bignum256modm) : list Z :=
  U64TO8_LE (a0 inp |u (a1 inp <<u 56)) ++
  U64TO8_LE ((a1 inp >>u 8) |u (a2 inp <<u 48)) ++
  U64TO8_LE ((a2 inp >>u 16) |u (a3 inp <<u 40)) ++
  U64TO8_LE ((a3 inp >>u 24) |u (a4 inp <<u 32)).

(** ** Signed recodings *)

(** [n] digits of [k] bits of a limb, low first:
    [*quads++ = (v & (2^k - 1)); v >>= k]. *)
Fixpoint digits_of (k : Z) (n : nat) (v : Z) : list Z :=
  match n with
  | O => []
  | S n' => (v &u (2 ^ k - 1)) :: digits_of k n' (v >>u k)
  end.

(** The loop that makes the quads signed, from index [i] on: [ri] is [r[i]],
    [rest] the entries above it. *)
Fixpoint window4_signed (ri carry : Z) (rest : list Z) : list Z :=
  match rest with
  | [] => [s8 (ri + carry)]
  | rn :: rest' =>
      let ri := s8 (ri + carry) in
      let rn := s8 (rn + (ri >>u 4)) in
      let ri := ri &u 15 in
      let carry := ri >>u 3 in
      let ri := s8 (ri - Z.shiftl carry 4) in
      ri :: window4_signed rn carry rest'
  end.

Definition contract256_window4_modm (inp : bignum256modm) : list Z :=
  let quads := digits_of 4 14 (a0 inp) ++ digits_of 4 14 (a1 inp) ++ digits_of 4 14 (a2 inp) ++
    digits_of 4 14 (a3 inp) ++ digits_of 4 8 (a4 inp) in
  match quads with
  | [] => []
  | r0 :: rest => window4_signed r0 0 rest
  end.

(** The loop over [k]: clear the ones up to the first zero, which becomes one. *)
Fixpoint ripple (r : list Z) : list Z :=
  match r with
  | [] => []
  | x :: r' => if x =? 0 then 1 :: r' else 0 :: ripple r'
  end.

Definition upd (l : list Z) (i : nat) (x : Z) : list Z :=
  firstn i l ++ x :: skipn (S i) l.

(** The loop over [b] at index [j]: [d] is [r[j]], [t] the entries above it,
    so that [r[j + b]] is entry [b - 1] of [t] and [b < soplen - j] is
    [b - 1 < length t].  [n] counts the iterations left up to [b = 6]. *)
Fixpoint slide_window (m : Z) (n b : nat) (d : Z) (t : list Z) : Z * list Z :=
  match n with
  | O => (d, t)
  | S n' =>
      if (b - 1 <? length t)%nat then
        let x := Z.shiftl (nth (b - 1) t 0) (Z.of_nat b) in
        if d + x <=? m then slide_window m n' (S b) (s8 (d + x)) (upd t (b - 1) 0)
        else if - m <=? d - x then
          slide_window m n' (S b) (s8 (d - x)) (firstn (b - 1) t ++ ripple (skipn (b - 1) t))
        else if negb (nth (b - 1) t 0 =? 0) then (d, t)
        else slide_window m n' (S b) d t
      else (d, t)
  end.

(** The loop over [j]; one unit of fuel per index. *)
Fixpoint slide (m : Z) (fuel : nat) (r : list Z) : list Z :=
  match fuel, r with
  | S fuel', d :: t =>
      if d =? 0 then d :: slide m fuel' t
      else let '(d, t) := slide_window m 6 1 d t in d :: slide m fuel' t
  | _, _ => r
  end.

Definition contract256_slidingwindow_modm (s : bignum256modm) (windowsize : Z) : list Z :=
  let m := Z.shiftl 1 (windowsize - 1) - 1 in
  let bits := digits_of 1 56 (a0 s) ++ digits_of 1 56 (a1 s) ++ digits_of 1 56 (a2 s) ++
    digits_of 1 56 (a3 s) ++ digits_of 1 32 (a4 s) in
  slide m 256 bits.

(** ** Helpers for batch verification *)

Definition limb (a : bignum256modm) (i : nat) : Z := nth i [a0 a; a1 a; a2 a; a3 a; a4 a] 0.

Definition of_limbs (l : list Z) : bignum256modm :=
  bm (nth 0 l 0) (nth 1 l 0) (nth 2 l 0) (nth 3 l 0) (nth 4 l 0).

(** The cases of the [switch] from [n] down, at index [i]. *)
Fixpoint sub_batch_from (n i : nat) (a b : bignum256modm) (carry : Z) : list Z :=
  let o := limb a i -u limb b i -u carry in
  match n with
  | O => [o]
  | S n' => (o &u mask56) :: sub_batch_from n' (S i) a b (o >>u 63)
  end.

(** [out] keeps the limbs above [limbsize] it had before the call. *)
Definition sub256_modm_batch (out a b : bignum256modm) (limbsize : nat) : bignum256modm :=
  let n := if (limbsize <=? 4)%nat then limbsize else 0%nat in
  of_limbs (sub_batch_from n 0 a b 0 ++ skipn (S n) [a0 out; a1 out; a2 out; a3 out; a4 out]).

Fixpoint borrow_batch_from (n i : nat) (a b : bignum256modm) (carry : Z) : Z :=
  let t := limb a i -u limb b i -u carry in
  match n with
  | O => t >>u 63
  | S n' => borrow_batch_from n' (S i) a b (t >>u 63)
  end.

Definition lt256_modm_batch (a b : bignum256modm) (limbsize : nat) : bool :=
  if (limbsize <=? 4)%nat then negb (borrow_batch_from limbsize 0 a b 0 =? 0) else false.

Definition lte256_modm_batch (a b : bignum256modm) (limbsize : nat) : bool :=
  if (limbsize <=? 4)%nat then borrow_batch_from limbsize 0 b a 0 =? 0 else true.

Definition iszero256_modm_batch (a : bignum256modm) : bool :=
  forallb (fun i => limb a i =? 0) (seq 0 5).

Definition isone256_modm_batch (a : bignum256modm) : bool :=
  forallb (fun i => limb a i =? (if (i =? 0)%nat then 1 else 0)) (seq 0 5).

Definition isatmost128bits256_modm_batch (a : bignum256modm) : bool :=
  (a4 a |u a3 a |u (a2 a &u 0xffffffffff0000)) =? 0.

(** ** Values *)

Definition val (b : bignum256modm) : Z :=
  a0 b + 2 ^ 56 * a1 b + 2 ^ 112 * a2 b + 2 ^ 168 * a3 b + 2 ^ 224 * a4 b.

(** The group order. *)
Definition ell : Z := 2 ^ 252 + 27742317777372353535851937790883648493.

(** Four 56-bit limbs and a top limb below [n]. *)
Definition limbs (n : Z) (b : bignum256modm) : Prop :=
  0 <= a0 b < 2 ^ 56 /\ 0 <= a1 b < 2 ^ 56 /\ 0 <= a2 b < 2 ^ 56 /\ 0 <= a3 b < 2 ^ 56 /\
  0 <= a4 b < n.

(** A reduced scalar. *)
Definition reduced (b : bignum256modm) : Prop := limbs (2 ^ 32) b /\ val b < ell.

Example modm_m_val : val modm_m = ell.
Proof. reflexivity. Qed.

Example modm_mu_val : val modm_mu = 2 ^ 512 / ell.
Proof. reflexivity. Qed.

Lemma mu_numeral : val modm_mu = 0xfffffffffffffffffffffffffffffffeb2106215d086329a7ed9ce5a30a2c131b.
Proof. reflexivity. Qed.

Example expand_known : val (expand256_modm (le_bytes 64 (2 ^ 512 - 12345))) = (2 ^ 512 - 12345) mod ell.
Proof. vm_compute. reflexivity. Qed.

Example mul_known : val (mul256_modm (expand256_modm (le_bytes 64 (7 ^ 150)))
  (expand256_modm (le_bytes 32 (3 ^ 150)))) = (7 ^ 150 * 3 ^ 150) mod ell.
Proof. vm_compute. reflexivity. Qed.

(** ** Subtraction with borrow *)

Lemma lt_modm_spec (x y : Z) :
  0 <= x < 2 ^ 62 -> 0 <= y < 2 ^ 62 -> lt_modm x y = Z.b2z (x <? y).
Proof.
  intros Hx Hy. unfold lt_modm, sub64, u64. rewrite shiftr_div by lia.
  destruct (x <? y) eqn:E; [apply Z.ltb_lt in E | apply Z.ltb_ge in E]; cbn [Z.b2z];
    Z.div_mod_to_equations; lia.
Qed.

Lemma sub_limb_spec (x y pb sh : Z) :
  0 <= x < 2 ^ 60 -> 0 <= y < 2 ^ 60 -> 0 <= pb <= 1 -> 0 <= sh <= 56 ->
  let '(t, b) := sub_limb x y pb sh in
  b = 0 /\ pb + y <= x /\ t = x - y - pb \/
  b = 1 /\ x < pb + y /\ (- 2 ^ sh <= x - y - pb -> t = x - y - pb + 2 ^ sh).
Proof.
  intros Hx Hy Hp Hs. unfold sub_limb. pose proof (Z.pow_pos_nonneg 2 sh).
  assert (2 ^ sh <= 2 ^ 56) by (apply Z.pow_le_mono_r; lia).
  unfold add64. rewrite (u64_small (pb + y)) by lia. rewrite lt_modm_spec by lia.
  unfold shl64. rewrite Z.shiftl_mul_pow2 by lia.
  destruct (x <? pb + y) eqn:E; [apply Z.ltb_lt in E; right | apply Z.ltb_ge in E; left];
    cbn [Z.b2z] in *; do 2 (split; [lia |]).
  - intros Hb. rewrite Z.mul_1_l, (u64_small (2 ^ sh)) by lia. unfold sub64, u64.
    rewrite Z.add_mod_idemp_l, Z.mod_small by lia. lia.
  - rewrite Z.mul_0_l, (u64_small 0) by lia. unfold sub64.
    rewrite (u64_small (x - (pb + y))), Z.add_0_r, u64_small; lia.
Qed.

(** The five limbs: the borrow out says whether [x < y]; without it, or when
    [y] exceeds [x] by at most the wrap of the top limb, the difference is
    exact. *)
Lemma sub_borrow_spec (x y : bignum256modm) (top : Z) :
  limbs (2 ^ 59) x -> limbs (2 ^ 59) y -> 0 <= top <= 56 ->
  let '(t, b) := sub_borrow x y top in
  (b = 0 /\ val y <= val x \/ b = 1 /\ val x < val y) /\
  (val y <= val x \/ a4 y < a4 x + 2 ^ top ->
   val t = val x - val y + b * 2 ^ (224 + top) /\
   0 <= a0 t < 2 ^ 56 /\ 0 <= a1 t < 2 ^ 56 /\ 0 <= a2 t < 2 ^ 56 /\ 0 <= a3 t < 2 ^ 56).
Proof.
  destruct x as [x0 x1 x2 x3 x4], y as [y0 y1 y2 y3 y4]. unfold limbs, val.
  cbn [a0 a1 a2 a3 a4]. intros (X0 & X1 & X2 & X3 & X4) (Y0 & Y1 & Y2 & Y3 & Y4) Ht.
  unfold sub_borrow. cbn [a0 a1 a2 a3 a4].
  pose proof (Z.pow_pos_nonneg 2 top ltac:(lia) ltac:(lia)).
  rewrite (Z.pow_add_r 2 224 top) by lia.
  pose proof (sub_limb_spec x0 y0 0 56 ltac:(lia) ltac:(lia) ltac:(lia) ltac:(lia)) as S0.
  destruct (sub_limb x0 y0 0 56) as [t0 b0]. 
  pose proof (sub_limb_spec x1 y1 b0 56 ltac:(lia) ltac:(lia) ltac:(lia) ltac:(lia)) as S1.
  destruct (sub_limb x1 y1 b0 56) as [t1 b1]. 
  pose proof (sub_limb_spec x2 y2 b1 56 ltac:(lia) ltac:(lia) ltac:(lia) ltac:(lia)) as S2.
  destruct (sub_limb x2 y2 b1 56) as [t2 b2]. 
  pose proof (sub_limb_spec x3 y3 b2 56 ltac:(lia) ltac:(lia) ltac:(lia) ltac:(lia)) as S3.
  destruct (sub_limb x3 y3 b2 56) as [t3 b3]. 
  pose proof (sub_limb_spec x4 y4 b3 top ltac:(lia) ltac:(lia) ltac:(lia) ltac:(lia)) as S4.
  destruct (sub_limb x4 y4 b3 top) as [t4 b4]. 
  cbn [a0 a1 a2 a3 a4]. split; [lia |]. intros Hy.
  destruct S4 as [(-> & ? & ->) | (-> & ? & S4)]; [| rewrite S4 by lia]; lia.
Qed.

Lemma select_word (r t : Z) :
  0 <= r < 2 ^ 64 -> 0 <= t < 2 ^ 64 ->
  r ^u ((1 -u 1) &u (r ^u t)) = r /\ r ^u ((0 -u 1) &u (r ^u t)) = t.
Proof.
  intros Hr Ht. change (1 -u 1) with 0. change (0 -u 1) with (Z.ones 64). split.
  - now rewrite Z.land_0_l, Z.lxor_0_r.
  - rewrite Z.land_comm, land_ones_id by (try apply lxor_range; lia).
    now rewrite <- Z.lxor_assoc, Z.lxor_nilpotent, Z.lxor_0_l.
Qed.

(** [reduce256_modm] subtracts the order once, if it can. *)
Lemma reduce256_spec (r : bignum256modm) :
  limbs (2 ^ 58) r ->
  limbs (2 ^ 58) (reduce256_modm r) /\
  val (reduce256_modm r) = if val r <? ell then val r else val r - ell.
Proof.
  intros Hr. assert (Hm : limbs (2 ^ 59) modm_m) by (unfold limbs; cbn; lia).
  pose proof (sub_borrow_spec r modm_m 32 ltac:(unfold limbs in *; lia) Hm ltac:(lia)) as S.
  unfold reduce256_modm. destruct (sub_borrow r modm_m 32) as [t b]. rewrite modm_m_val in S.
  destruct S as [[[-> Hb] | [-> Hb]] Ht].
  - rewrite (proj2 (Z.ltb_ge _ _) Hb). destruct Ht as (Ev & T0 & T1 & T2 & T3); [now left |].
    assert (T4 : 0 <= a4 t < 2 ^ 58) by (unfold limbs, val, ell in *; lia).
    unfold limbs in Hr. cbv zeta.
    rewrite !(fun x y Hx Hy => proj2 (select_word x y Hx Hy)) by lia.
    unfold val in *. cbn [a0 a1 a2 a3 a4]. unfold limbs. cbn [a0 a1 a2 a3 a4]. lia.
  - rewrite (proj2 (Z.ltb_lt _ _) Hb). cbv zeta. change (1 -u 1) with 0.
    rewrite !Z.land_0_l, !Z.lxor_0_r. destruct r. split; [exact Hr | reflexivity].
Qed.

Strategy 1000 [reduce256_modm Z.add Z.mul Z.modulo Z.pow].

(** Reducing a value below [3 * ell] twice gives its residue. *)
Lemma reduce_twice (r : bignum256modm) :
  limbs (2 ^ 58) r -> val r < 3 * ell ->
  reduced (reduce256_modm (reduce256_modm r)) /\
  val (reduce256_modm (reduce256_modm r)) = val r mod ell.
Proof.
  intros Hr Hv. destruct (reduce256_spec r Hr) as [H1 E1].
  destruct (reduce256_spec _ H1) as [H2 E2]. rewrite E1 in E2.
  assert (H0 : 0 <= val r) by (unfold limbs, val in *; lia).
  assert (E : val (reduce256_modm (reduce256_modm r)) = val r mod ell).
  { rewrite E2. destruct (val r <? ell) eqn:C1; [apply Z.ltb_lt in C1 | apply Z.ltb_ge in C1].
    - rewrite (proj2 (Z.ltb_lt _ _) C1). symmetry. apply Z.mod_small. lia.
    - destruct (val r - ell <? ell) eqn:C2; [apply Z.ltb_lt in C2 | apply Z.ltb_ge in C2].
      + apply Z.mod_unique with 1; lia.
      + apply Z.mod_unique with 2; lia. }
  split; [| exact E]. pose proof (Z.mod_pos_bound (val r) ell ltac:(reflexivity)).
  rewrite <- E in *. split; [| lia]. clear - H2 H. unfold limbs, val, ell in *. lia.
Qed.

(** ** Columns *)

Lemma mask56_mod (x : Z) : x &u mask56 = x mod 2 ^ 56.
Proof. change mask56 with (2 ^ 56 - 1). apply land_mask. lia. Qed.

Lemma lo_mask56 (c : Z) : lo128 c &u mask56 = c mod 2 ^ 56.
Proof. rewrite mask56_mod. apply mod_mod_pow2. lia. Qed.

Lemma lo_mask40 (c : Z) : lo128 c &u 0x0000ffffffffff = c mod 2 ^ 40.
Proof.
  change 0x0000ffffffffff with (2 ^ 40 - 1). rewrite land_mask by lia. apply mod_mod_pow2. lia.
Qed.

(** A column [c] as its carry, the high bits and the low [s] bits of its low
    56 bits. *)
Lemma column (c s : Z) :
  0 <= c <= 2 ^ 116 - 1 -> 0 <= s <= 56 ->
  exists f h l, shr128 c 56 = f /\ (c mod 2 ^ 56) / 2 ^ s = h /\ c mod 2 ^ s = l /\
  c mod 2 ^ 56 = 2 ^ s * h + l /\ c = 2 ^ 56 * f + (2 ^ s * h + l) /\
  0 <= f < 2 ^ 60 /\ 0 <= h < 2 ^ (56 - s) /\ 0 <= l < 2 ^ s.
Proof.
  intros Hc Hs. exists (c / 2 ^ 56), ((c mod 2 ^ 56) / 2 ^ s), (c mod 2 ^ s).
  pose proof (Z.pow_pos_nonneg 2 s). pose proof (Z.pow_pos_nonneg 2 (56 - s)).
  assert (Hf : 0 <= c / 2 ^ 56 < 2 ^ 60)
    by (split; [apply Z.div_pos | apply Z.div_lt_upper_bound]; lia).
  assert (E56 : 2 ^ 56 = 2 ^ s * 2 ^ (56 - s)) by (rewrite <- Z.pow_add_r by lia; f_equal; lia).
  pose proof (Z.mod_pos_bound c (2 ^ 56) ltac:(lia)).
  assert (Em : c mod 2 ^ 56 = 2 ^ s * ((c mod 2 ^ 56) / 2 ^ s) + c mod 2 ^ s)
    by (rewrite <- (mod_mod_pow2 c s 56) by lia; apply Z.div_mod; lia).
  repeat split; try lia.
  - unfold shr128. rewrite shiftr_div, u64_small; lia.
  - rewrite <- Em. apply Z.div_mod. lia.
  - apply Z.div_pos; lia.
  - apply Z.div_lt_upper_bound; lia.
  - apply Z.mod_pos_bound; lia.
  - apply Z.mod_pos_bound; lia.
Qed.

(** The high bits of a column's low 56 bits. *)
Lemma lo_high (c s k : Z) :
  0 <= s -> 0 <= k -> s + k = 56 -> (lo128 c >>u s) &u (2 ^ k - 1) = (c mod 2 ^ 56) / 2 ^ s.
Proof.
  intros Hs Hk E. rewrite land_mask, shiftr_div by lia. unfold lo128, u64. rewrite <- E.
  pose proof (Z.pow_pos_nonneg 2 s). pose proof (Z.pow_pos_nonneg 2 k).
  rewrite <- (mod_mod_pow2 c (s + k) 64) by lia. set (x := c mod 2 ^ 64).
  rewrite Z.pow_add_r, Z.rem_mul_r, (Z.mul_comm (2 ^ s)), Z.div_add by lia.
  rewrite (Z.div_small (x mod _)) by (apply Z.mod_pos_bound; lia). lia.
Qed.

(** The low bits of a column, moved up. *)
Lemma lo_low (c s : Z) :
  0 <= s <= 56 -> (lo128 c <<u s) &u mask56 = c mod 2 ^ (56 - s) * 2 ^ s.
Proof.
  intros Hs. rewrite mask56_mod. unfold shl64, lo128, u64. rewrite Z.shiftl_mul_pow2 by lia.
  rewrite mod_mod_pow2 by lia. pose proof (Z.pow_pos_nonneg 2 s).
  pose proof (Z.pow_pos_nonneg 2 (56 - s)).
  replace (2 ^ 56) with (2 ^ (56 - s) * 2 ^ s) by (rewrite <- Z.pow_add_r by lia; f_equal; lia).
  rewrite Z.mul_mod_distr_r by lia. f_equal. apply mod_mod_pow2. lia.
Qed.

Lemma lo_high40 (c : Z) : (lo128 c >>u 40) &u 0xffff = (c mod 2 ^ 56) / 2 ^ 40.
Proof. apply (lo_high c 40 16); lia. Qed.

Lemma lo_high24 (c : Z) : (lo128 c >>u 24) &u 0xffffffff = (c mod 2 ^ 56) / 2 ^ 24.
Proof. apply (lo_high c 24 32); lia. Qed.

Lemma join_low (q c s : Z) :
  0 <= s <= 56 -> 0 <= q < 2 ^ s ->
  q |u ((lo128 c <<u s) &u mask56) = q + 2 ^ s * (c mod 2 ^ (56 - s)).
Proof. intros Hs Hq. rewrite lo_low, lor_disjoint by lia. lia. Qed.

Lemma join_low16 (q c : Z) :
  0 <= q < 2 ^ 16 -> q |u ((lo128 c <<u 16) &u mask56) = q + 2 ^ 16 * (c mod 2 ^ 40).
Proof. intros Hq. apply (join_low q c 16); lia. Qed.

Lemma join_low32 (q c : Z) :
  0 <= q < 2 ^ 32 -> q |u ((lo128 c <<u 32) &u mask56) = q + 2 ^ 32 * (c mod 2 ^ 24).
Proof. intros Hq. apply (join_low q c 32); lia. Qed.

(** Walk through the [let]s of a column computation [E : r = let ... in ...]:
    every column sum gets a name, its integer value and its pieces
    ([column], split at bit [s]); every word read off a column is rewritten
    into these pieces. *)
Ltac step_let E s :=
  lazymatch type of E with
  | ?r = (let x := ?X in @?B x) =>
      let put v := (let b := eval cbv beta in (B v) in change (r = b) in E) in
      lazymatch X with
      | lo128 _ => put X
      | mul64x64_128 => put X
      | modm_mu => put X; cbv beta iota delta [a0 a1 a2 a3 a4 modm_mu] in E
      | modm_m => put X; cbv beta iota delta [a0 a1 a2 a3 a4 modm_m] in E
      | add128 _ _ => step_column E s
      | add128_64 _ _ => step_column E s
      | mul64x64_128 _ _ => step_column E s
      | _ => let q := fresh "q" in let Eq := fresh "Eq" in
             remember X as q eqn:Eq in E; put q;
             rewrite ?lo_mask56, ?lo_mask40, ?lo_high40, ?lo_high24 in Eq;
             try (rewrite join_low16 in Eq by lia); try (rewrite join_low32 in Eq by lia);
             try (rewrite lor_shl64 in Eq by lia);
             rewrite_pieces Eq;
             lazymatch type of Eq with _ = ?y => first [is_var y; subst q | idtac] end
      end
  end
with step_column E s :=
  lazymatch type of E with
  | ?r = (let x := ?X in @?B x) =>
      let c := fresh "c" in let Ec := fresh "Ec" in let Hc := fresh "Hc" in
      eassert (exact X _ _) as [Ec Hc] by exact_build; rewrite <- Ec in Hc;
      set (c := X) in *; (let b := eval cbv beta in (B c) in change (r = b) in E); clearbody c;
      eapply bound_weaken with (M := 2 ^ 116 - 1) in Hc; [| vm_compute; reflexivity];
      let f := fresh "f" in let h := fresh "h" in let l := fresh "l" in
      let Ef := fresh "Pf" in let Eh := fresh "Ph" in let El := fresh "Pl" in
      let Em := fresh "Pm" in let Es := fresh "Es" in
      destruct (column c s Hc ltac:(lia)) as (f & h & l & Ef & Eh & El & Em & Es & ? & ? & ?)
  end
with rewrite_pieces Eq :=
  repeat match goal with
  | P : shr128 _ _ = _ |- _ => rewrite P in Eq
  | P : _ / _ = _ |- _ => rewrite P in Eq
  | P : _ mod _ = _ |- _ => rewrite P in Eq
  end.

(** Keep the linear facts only. *)
Ltac columns_done :=
  repeat match goal with
  | P : shr128 _ _ = _ |- _ => clear P
  | P : _ / _ = _ |- _ => clear P
  | P : _ mod _ = _ |- _ => clear P
  | P : 0 <= _ <= 2 ^ 116 - 1 |- _ => clear P
  end; subst.

Lemma barrett_q3_spec (q : bignum256modm) :
  limbs (2 ^ 40) q ->
  limbs (2 ^ 40) (barrett_q3 q) /\
  2 ^ 264 * val (barrett_q3 q) <= val modm_mu * val q
    < 2 ^ 264 * val (barrett_q3 q) + 2 ^ 264 + 2 ^ 227.
Proof.
  destruct q as [x0 x1 x2 x3 x4]. intros (X0 & X1 & X2 & X3 & X4). cbn [a0 a1 a2 a3 a4] in *.
  remember (barrett_q3 (bm x0 x1 x2 x3 x4)) as r eqn:E. cbv beta delta [barrett_q3] in E.
  cbv beta iota delta [a0 a1 a2 a3 a4] in E. repeat step_let E 40. columns_done.
  unfold limbs, val. cbn [a0 a1 a2 a3 a4 modm_mu]. repeat split; lia.
Qed.

Lemma barrett_r2_spec (q : bignum256modm) :
  limbs (2 ^ 40) q ->
  limbs (2 ^ 40) (barrett_r2 q) /\ exists k, ell * val q = val (barrett_r2 q) + 2 ^ 264 * k.
Proof.
  destruct q as [x0 x1 x2 x3 x4]. intros (X0 & X1 & X2 & X3 & X4). cbn [a0 a1 a2 a3 a4] in *.
  remember (barrett_r2 (bm x0 x1 x2 x3 x4)) as r eqn:E. cbv beta delta [barrett_r2] in E.
  cbv beta iota delta [a0 a1 a2 a3 a4] in E. repeat step_let E 40. columns_done.
  unfold limbs, val. cbn [a0 a1 a2 a3 a4]. split; [lia |]. unfold ell.
  exists (h3 + 2 ^ 16 * f3 + 2 ^ 16 * (0xf9dea2f79cd658 * x4 + 0x14de * x3 + 0x10000000 * x1)
    + 2 ^ 72 * (0x14de * x4 + 0x10000000 * x2) + 2 ^ 128 * (0x10000000 * x3)
    + 2 ^ 184 * (0x10000000 * x4)). lia.
Qed.

(** Barrett reduction of any value below 2^512. *)
Lemma barrett_spec (q1 r1 : bignum256modm) (X : Z) :
  0 <= X < 2 ^ 512 -> limbs (2 ^ 40) q1 -> limbs (2 ^ 40) r1 ->
  val q1 = X / 2 ^ 248 -> val r1 = X mod 2 ^ 264 ->
  reduced (barrett_reduce256_modm q1 r1) /\ val (barrett_reduce256_modm q1 r1) = X mod ell.
Proof.
  intros HX Hq1 Hr1 Eq Er. unfold barrett_reduce256_modm.
  destruct (barrett_q3_spec q1 Hq1) as [Hq3 Bq3]. set (q3 := barrett_q3 q1) in *. clearbody q3.
  destruct (barrett_r2_spec q3 Hq3) as [Hr2 [k Er2]]. set (r2 := barrett_r2 q3) in *. clearbody r2.
  rewrite mu_numeral, Eq in Bq3.
  pose proof (sub_borrow_spec r1 r2 40 ltac:(unfold limbs in *; lia) ltac:(unfold limbs in *; lia)
    ltac:(lia)) as S.
  destruct (sub_borrow r1 r2 40) as [r b]. destruct S as [Hb S].
  destruct S as (Ev & R0 & R1 & R2 & R3); [unfold limbs in *; lia |].
  assert (Eq3 : 0 <= X - ell * val q3 < 3 * ell).
  { pose proof (Z.div_mod X (2 ^ 248)). pose proof (Z.mod_pos_bound X (2 ^ 248)).
    pose proof (Z.div_lt_upper_bound X (2 ^ 248) (2 ^ 264)).
    pose proof (Z.div_pos X (2 ^ 248)). unfold ell in *. lia. }
  assert (Evr : val r = X - ell * val q3).
  { assert (0 <= val r < 2 ^ 264).
    { unfold limbs, val in *. lia. }
    pose proof (Z.div_mod X (2 ^ 264)). pose proof (Z.mod_pos_bound X (2 ^ 264)).
    unfold ell in *. lia. }
  destruct (reduce_twice r) as [Hr E2]; [unfold limbs, val in *; lia | lia |].
  split; [exact Hr |]. rewrite E2, Evr.
  replace (X - ell * val q3) with (X + (- val q3) * ell) by lia.
  apply Z.mod_add. discriminate.
Qed.

(** The split of a product, as the two parts Barrett reduction takes. *)
Lemma mul_split_spec (x y : bignum256modm) :
  limbs (2 ^ 32) x -> limbs (2 ^ 32) y ->
  let '(q1, r1) := mul_split x y in
  limbs (2 ^ 40) q1 /\ limbs (2 ^ 40) r1 /\
  val q1 = (val x * val y) / 2 ^ 248 /\ val r1 = (val x * val y) mod 2 ^ 264.
Proof.
  destruct x as [x0 x1 x2 x3 x4], y as [y0 y1 y2 y3 y4].
  intros (X0 & X1 & X2 & X3 & X4) (Y0 & Y1 & Y2 & Y3 & Y4). cbn [a0 a1 a2 a3 a4] in *.
  remember (mul_split (bm x0 x1 x2 x3 x4) (bm y0 y1 y2 y3 y4)) as r eqn:E.
  cbv beta delta [mul_split] in E. cbv beta iota delta [a0 a1 a2 a3 a4] in E.
  pose proof (mul_bound x4 y4 (2 ^ 32) (2 ^ 32) ltac:(lia) ltac:(lia)) as B4.
  repeat step_let E 24. rewrite E. clear E.
  pose proof (Z.div_mod c4 (2 ^ 40) ltac:(lia)) as D. rewrite <- Eq3 in D.
  pose proof (Z.mod_pos_bound c4 (2 ^ 40) ltac:(lia)) as M. rewrite <- Eq3 in M.
  set (k := c4 / 2 ^ 40) in D. clearbody k. clear Eq3.
  unfold limbs, val. cbn [a0 a1 a2 a3 a4].
  set (VX := x0 + 2 ^ 56 * x1 + 2 ^ 112 * x2 + 2 ^ 168 * x3 + 2 ^ 224 * x4).
  set (VY := y0 + 2 ^ 56 * y1 + 2 ^ 112 * y2 + 2 ^ 168 * y3 + 2 ^ 224 * y4).
  pose proof (mul_bound VX VY (2 ^ 256 - 1) (2 ^ 256 - 1) ltac:(lia) ltac:(lia)) as BX.
  assert (EX : VX * VY = c0 - 0 + 2 ^ 56 * (c1 - f) + 2 ^ 112 * (c2 - f0) + 2 ^ 168 * (c3 - f1)
    + 2 ^ 224 * (c4 - f2) + 2 ^ 280 * (c5 - f3) + 2 ^ 336 * (c6 - f4) + 2 ^ 392 * (c7 - f5)
    + 2 ^ 448 * (c8 - f6)) by (unfold VX, VY; rewrite Ec, Ec0, Ec1, Ec2, Ec3, Ec4, Ec5, Ec6, Ec7; ring).
  set (X := VX * VY) in *. clearbody X. clear VX VY.
  clear Ec Ec0 Ec1 Ec2 Ec3 Ec4 Ec5 Ec6 Ec7 X0 X1 X2 X3 X4 Y0 Y1 Y2 Y3 Y4 B4. columns_done.
  split; [lia |]. split; [lia |]. split.
  - apply Z.div_unique with (2 ^ 24 * h + l + 2 ^ 56 * (2 ^ 24 * h0 + l0) + 2 ^ 112 * (2 ^ 24 * h1 + l1)
      + 2 ^ 168 * (2 ^ 24 * h2 + l2) + 2 ^ 224 * l3); lia.
  - apply Z.mod_unique with (k - 2 ^ 16 * f3 + 2 ^ 16 * (2 ^ 24 * h4 + l4) + 2 ^ 72 * (2 ^ 24 * h5 + l5)
      + 2 ^ 128 * (2 ^ 24 * h6 + l6) + 2 ^ 184 * (2 ^ 24 * h7 + l7) + 2 ^ 240 * f7); lia.
Qed.

(** [mul256_modm] returns the canonical product modulo the order. *)
Lemma mul256_spec (x y : bignum256modm) :
  limbs (2 ^ 32) x -> limbs (2 ^ 32) y ->
  reduced (mul256_modm x y) /\ val (mul256_modm x y) = (val x * val y) mod ell.
Proof.
  intros Hx Hy. pose proof (mul_split_spec x y Hx Hy) as S. unfold mul256_modm.
  destruct (mul_split x y) as [q1 r1]. destruct S as (Hq & Hr & Eq & Er).
  apply barrett_spec; try assumption.
  pose proof (mul_bound (val x) (val y) (2 ^ 256 - 1) (2 ^ 256 - 1)
    ltac:(unfold limbs, val in *; lia) ltac:(unfold limbs, val in *; lia)). lia.
Qed.

Lemma add256_spec (x y : bignum256modm) :
  reduced x -> reduced y ->
  reduced (add256_modm x y) /\ val (add256_modm x y) = (val x + val y) mod ell.
Proof.
  intros [Hx Bx] [Hy By]. unfold add256_modm. cbv zeta. unfold add64.
  destruct x as [x0 x1 x2 x3 x4], y as [y0 y1 y2 y3 y4]. unfold limbs, val in Hx, Hy, Bx, By.
  cbn [a0 a1 a2 a3 a4] in *. rewrite !mask56_mod, !(shiftr_div _ 56) by lia.
  rewrite (u64_small (x0 + y0)) by lia. split_at 56 (x0 + y0) c0 r0.
  rewrite (u64_small (x1 + y1)), (u64_small (c0 + _)) by lia. split_at 56 (c0 + (x1 + y1)) c1 r1.
  rewrite (u64_small (x2 + y2)), (u64_small (c1 + _)) by lia. split_at 56 (c1 + (x2 + y2)) c2 r2.
  rewrite (u64_small (x3 + y3)), (u64_small (c2 + _)) by lia. split_at 56 (c2 + (x3 + y3)) c3 r3.
  rewrite (u64_small (x4 + y4)), (u64_small (c3 + _)) by lia.
  set (r := bm r0 r1 r2 r3 (c3 + (x4 + y4))).
  destruct (reduce256_spec r) as [Hr Er]; [unfold limbs, r; cbn [a0 a1 a2 a3 a4]; lia |].
  assert (Ev : val r = val (bm x0 x1 x2 x3 x4) + val (bm y0 y1 y2 y3 y4))
    by (unfold val, r; cbn [a0 a1 a2 a3 a4]; lia).
  fold (val (bm x0 x1 x2 x3 x4)) in Bx. fold (val (bm y0 y1 y2 y3 y4)) in By.
  assert (0 <= val r < 2 * ell) by (unfold val in *; cbn [a0 a1 a2 a3 a4] in *; lia).
  rewrite <- Ev. clearbody r. clear - Hr Er H.
  assert (E : val (reduce256_modm r) = val r mod ell).
  { rewrite Er. destruct (val r <? ell) eqn:C; [apply Z.ltb_lt in C | apply Z.ltb_ge in C].
    - symmetry. apply Z.mod_small. lia.
    - apply Z.mod_unique with 1; lia. }
  split; [| exact E]. pose proof (Z.mod_pos_bound (val r) ell ltac:(reflexivity)) as B.
  rewrite <- E in B. split; [| lia]. clear - Hr B. unfold limbs, val, ell in *. lia.
Qed.

(** ** Reading and writing scalars *)

Lemma mask40_mod (x : Z) : x &u 0x0000ffffffffff = x mod 2 ^ 40.
Proof. apply (land_mask x 40). lia. Qed.

Lemma mask32_mod (x : Z) : x &u 0x000000ffffffff = x mod 2 ^ 32.
Proof. apply (land_mask x 32). lia. Qed.

(** The eight words of a 64-byte buffer. *)
Lemma le_val_words8 (l : list Z) :
  length l = 64%nat ->
  le_val l = le_val (firstn 8 (skipn (8 * 0) l)) + 2 ^ 64 * le_val (firstn 8 (skipn (8 * 1) l))
    + 2 ^ 128 * le_val (firstn 8 (skipn (8 * 2) l)) + 2 ^ 192 * le_val (firstn 8 (skipn (8 * 3) l))
    + 2 ^ 256 * le_val (firstn 8 (skipn (8 * 4) l)) + 2 ^ 320 * le_val (firstn 8 (skipn (8 * 5) l))
    + 2 ^ 384 * le_val (firstn 8 (skipn (8 * 6) l)) + 2 ^ 448 * le_val (firstn 8 (skipn (8 * 7) l)).
Proof.
  intros Hl. change (skipn (8 * 0) l) with l.
  rewrite (le_val_word l) at 1 by lia.
  do 6 (rewrite (le_val_word (skipn _ _)) by (rewrite !length_skipn; lia)).
  rewrite !skipn_skipn. cbn [Nat.add Nat.mul].
  set (z := le_val (skipn 56 l)).
  replace z with (le_val (firstn 8 (skipn 56 l))); [ring |].
  unfold z. rewrite (le_val_word (skipn 56 l)) by (rewrite length_skipn; lia).
  rewrite skipn_skipn, (skipn_all2 (n := 8 + 56) l) by lia. cbn [le_val]. lia.
Qed.

Lemma le_val_zeros (n : nat) : le_val (repeat 0 n) = 0.
Proof. induction n as [| n IH]; [reflexivity |]. cbn [repeat le_val]. rewrite IH. reflexivity. Qed.

(** The zero-padded work buffer of [expand256_modm]. *)
Lemma work_buffer (inp : list Z) :
  bytes_ok inp -> (length inp <= 64)%nat ->
  let work := memcpy_at (repeat 0 64) 0 inp in
  bytes_ok work /\ length work = 64%nat /\ le_val work = le_val inp.
Proof.
  intros Hi Hn. cbv zeta. split; [apply memcpy_at_ok; auto with bytes |].
  split; [rewrite memcpy_at_length; rewrite repeat_length; lia |].
  unfold memcpy_at. cbn [firstn app Nat.add]. rewrite skipn_repeat, le_val_app, le_val_zeros. lia.
Qed.

(** The limbs of eight words: the low 264 bits and the bits from 248 up. *)
Lemma expand_low (x0 x1 x2 x3 x4 : Z) :
  0 <= x0 < 2 ^ 64 -> 0 <= x1 < 2 ^ 64 -> 0 <= x2 < 2 ^ 64 -> 0 <= x3 < 2 ^ 64 ->
  0 <= x4 < 2 ^ 64 ->
  let out := bm (x0 &u mask56) (((x0 >>u 56) |u (x1 <<u 8)) &u mask56)
    (((x1 >>u 48) |u (x2 <<u 16)) &u mask56) (((x2 >>u 40) |u (x3 <<u 24)) &u mask56)
    (((x3 >>u 32) |u (x4 <<u 32)) &u 0x0000ffffffffff) in
  limbs (2 ^ 40) out /\
  val out = x0 + 2 ^ 64 * x1 + 2 ^ 128 * x2 + 2 ^ 192 * x3 + 2 ^ 256 * (x4 mod 2 ^ 8).
Proof.
  intros B0 B1 B2 B3 B4. cbv zeta.
  rewrite !mask56_mod, mask40_mod, !(funnel 56), (funnel 40) by lia.
  unfold limbs, val. cbn [a0 a1 a2 a3 a4]. Z.div_mod_to_equations. lia.
Qed.

Lemma expand_high (x3 x4 x5 x6 x7 : Z) :
  0 <= x3 < 2 ^ 64 -> 0 <= x4 < 2 ^ 64 -> 0 <= x5 < 2 ^ 64 -> 0 <= x6 < 2 ^ 64 ->
  0 <= x7 < 2 ^ 64 ->
  let q1 := bm (((x3 >>u 56) |u (x4 <<u 8)) &u mask56) (((x4 >>u 48) |u (x5 <<u 16)) &u mask56)
    (((x5 >>u 40) |u (x6 <<u 24)) &u mask56) (((x6 >>u 32) |u (x7 <<u 32)) &u mask56)
    (x7 >>u 24) in
  limbs (2 ^ 40) q1 /\
  val q1 = x3 / 2 ^ 56 + 2 ^ 8 * x4 + 2 ^ 72 * x5 + 2 ^ 136 * x6 + 2 ^ 200 * x7.
Proof.
  intros B3 B4 B5 B6 B7. cbv zeta.
  rewrite !mask56_mod, !(funnel 56), (shiftr_div x7) by lia.
  unfold limbs, val. cbn [a0 a1 a2 a3 a4]. Z.div_mod_to_equations. lia.
Qed.

(** [expand256_modm] of a full-length input is its residue; of an input
    shorter than 32 bytes, the value itself. *)
Lemma expand256_spec (inp : list Z) :
  bytes_ok inp -> (length inp <= 64)%nat ->
  if (length inp <? 32)%nat
  then limbs (2 ^ 32) (expand256_modm inp) /\ val (expand256_modm inp) = le_val inp
  else reduced (expand256_modm inp) /\ val (expand256_modm inp) = le_val inp mod ell.
Proof.
  intros Hi Hn. destruct (work_buffer inp Hi Hn) as (Hw & Lw & Ew).
  pose proof (le_val_range inp Hi) as Hr.
  unfold expand256_modm. cbv zeta. set (work := memcpy_at (repeat 0 64) 0 inp) in *.
  rewrite !U8TO64_LE_val by (rewrite ?length_skipn; auto with bytes; lia).
  pose proof (le_val_words8 work Lw) as EX. rewrite Ew in EX.
  assert (B : forall i, (i < 8)%nat -> 0 <= le_val (firstn 8 (skipn (8 * i) work)) < 2 ^ 64)
    by (intros i Hlt; apply word_range; [assumption | lia]).
  pose proof (expand_low _ _ _ _ _ (B 0 ltac:(lia)) (B 1 ltac:(lia)) (B 2 ltac:(lia))
    (B 3 ltac:(lia)) (B 4 ltac:(lia)))%nat as [Hl El].
  pose proof (expand_high _ _ _ _ _ (B 3 ltac:(lia)) (B 4 ltac:(lia)) (B 5 ltac:(lia))
    (B 6 ltac:(lia)) (B 7 ltac:(lia)))%nat as [Hh Eh].
  pose proof (B 0%nat ltac:(lia)) as B0. pose proof (B 1%nat ltac:(lia)) as B1.
  pose proof (B 2%nat ltac:(lia)) as B2. pose proof (B 3%nat ltac:(lia)) as B3.
  pose proof (B 4%nat ltac:(lia)) as B4. pose proof (B 5%nat ltac:(lia)) as B5.
  pose proof (B 6%nat ltac:(lia)) as B6. pose proof (B 7%nat ltac:(lia)) as B7.
  destruct (length inp <? 32)%nat eqn:C.
  - apply Nat.ltb_lt in C.
    assert (2 ^ (8 * Z.of_nat (length inp)) <= 2 ^ 248) by (apply Z.pow_le_mono_r; lia).
    match type of El with val ?o = _ => set (out := o) in *; clearbody out end.
    assert (Ev : val out = le_val inp) by (rewrite El, EX; clear - EX Hr H B0 B1 B2 B3 B4 B5 B6 B7;
      Z.div_mod_to_equations; lia).
    split; [| exact Ev]. rewrite <- Ev in Hr. clear - Hl Hr H. unfold limbs, val in *. lia.
  - apply barrett_spec; [lia | exact Hh | exact Hl | rewrite Eh | rewrite El];
      rewrite EX; clear - B0 B1 B2 B3 B4 B5 B6 B7; Z.div_mod_to_equations; lia.
Qed.

Lemma expand_raw256_spec (inp : list Z) :
  bytes_ok inp -> length inp = 32%nat ->
  limbs (2 ^ 32) (expand_raw256_modm inp) /\ val (expand_raw256_modm inp) = le_val inp.
Proof.
  intros Hi Hn. rewrite (le_val_words inp Hi Hn).
  pose proof (word_range inp 0 Hi ltac:(lia)) as B0. pose proof (word_range inp 8 Hi ltac:(lia)) as B1.
  pose proof (word_range inp 16 Hi ltac:(lia)) as B2.
  pose proof (word_range inp 24 Hi ltac:(lia)) as B3. change (skipn 0 inp) with inp in B0.
  unfold expand_raw256_modm. cbv zeta.
  rewrite !U8TO64_LE_val by (rewrite ?length_skipn; auto with bytes; lia).
  cbn [Nat.mul Nat.add]. change (skipn 0 inp) with inp.
  rewrite !mask56_mod, mask32_mod, !(funnel 56), shiftr_div by lia.
  unfold limbs, val. cbn [a0 a1 a2 a3 a4]. Z.div_mod_to_equations. lia.
Qed.

(** [contract256_modm] writes the value, little endian. *)
Lemma contract256_spec (b : bignum256modm) :
  limbs (2 ^ 32) b -> contract256_modm b = le_bytes 32 (val b).
Proof.
  destruct b as [x0 x1 x2 x3 x4]. intros (B0 & B1 & B2 & B3 & B4). unfold contract256_modm, val.
  cbn [a0 a1 a2 a3 a4] in *.
  rewrite !U64TO8_LE_bytes by (apply Z.lor_nonneg; split;
    [try apply Z.shiftr_nonneg; lia | apply u64_range]).
  rewrite <- (Z.shiftr_0_r x0) at 1.
  rewrite !(pack_word 56) by lia. symmetry.
  change 32%nat with (8 + (8 + (8 + 8)))%nat. rewrite !le_bytes_app.
  change (8 * Z.of_nat 8) with 64. rewrite !Z.div_div by lia.
  change (2 ^ 64 * 2 ^ 64) with (2 ^ 128). change (2 ^ 128 * 2 ^ 64) with (2 ^ 192).
  f_equal; [| f_equal; [| f_equal]].
  - rewrite <- (Z.div_1_r (x0 + _ + _ + _ + _)). change 1 with (2 ^ 0) at 1.
    apply (word_of_limbs _ _ 0 _ (2 ^ 48 * x2 + 2 ^ 104 * x3 + 2 ^ 160 * x4)); try lia.
    change (2 ^ 0) with 1. rewrite Z.div_1_r. lia.
  - apply (word_of_limbs _ _ (x0 + 2 ^ 56 * (x1 mod 2 ^ 8)) _ (2 ^ 40 * x3 + 2 ^ 96 * x4));
      Z.div_mod_to_equations; lia.
  - apply (word_of_limbs _ _ (x0 + 2 ^ 56 * x1 + 2 ^ 112 * (x2 mod 2 ^ 16)) _ (2 ^ 32 * x4));
      Z.div_mod_to_equations; lia.
  - apply (word_of_limbs _ _ (x0 + 2 ^ 56 * x1 + 2 ^ 112 * x2 + 2 ^ 168 * (x3 mod 2 ^ 24)) _ 0);
      Z.div_mod_to_equations; lia.
Qed.

(** ** The signed recodings represent the scalar *)

Lemma digits_of_length (k : Z) (n : nat) (v : Z) : length (digits_of k n v) = n.
Proof. revert v. induction n; intros; cbn [digits_of length]; congruence. Qed.

Lemma digits_of_range (k : Z) (n : nat) (v : Z) :
  0 <= k -> Forall (fun d => 0 <= d < 2 ^ k) (digits_of k n v).
Proof.
  intros Hk. revert v. induction n; intros; constructor; [| apply IHn].
  rewrite land_mask by lia. apply Z.mod_pos_bound. pose proof (Z.pow_pos_nonneg 2 k). lia.
Qed.

Lemma digits_of_val (k : Z) (n : nat) (v : Z) :
  0 <= k -> 0 <= v < 2 ^ (k * Z.of_nat n) -> digits_val (2 ^ k) (digits_of k n v) = v.
Proof.
  intros Hk. revert v. induction n as [| n IH]; intros v Hv.
  - rewrite Z.mul_0_r in Hv. change (2 ^ 0) with 1 in Hv. cbn [digits_of digits_val]. lia.
  - cbn [digits_of digits_val]. pose proof (Z.pow_pos_nonneg 2 k).
    assert (E : 2 ^ (k * Z.of_nat (S n)) = 2 ^ k * 2 ^ (k * Z.of_nat n))
      by (rewrite <- Z.pow_add_r by lia; f_equal; lia).
    rewrite land_mask, shiftr_div by lia.
    rewrite IH by (split; [apply Z.div_pos | apply Z.div_lt_upper_bound]; lia).
    rewrite Z.add_comm. symmetry. apply Z.div_mod. lia.
Qed.

(** The limbs, cut into digits of [k] bits. *)
Lemma limbs_digits (b : bignum256modm) (k : Z) (n n4 : nat) :
  0 < k -> k * Z.of_nat n = 56 -> k * Z.of_nat n4 = 32 -> limbs (2 ^ 32) b ->
  digits_val (2 ^ k) (digits_of k n (a0 b) ++ digits_of k n (a1 b) ++ digits_of k n (a2 b) ++
    digits_of k n (a3 b) ++ digits_of k n4 (a4 b)) = val b.
Proof.
  intros Hk Hn Hn4 (B0 & B1 & B2 & B3 & B4).
  rewrite !digits_val_app, !digits_of_length, <- !Z.pow_mul_r by lia. rewrite Hn.
  rewrite !digits_of_val by (rewrite ?Hn, ?Hn4; lia). unfold val. ring.
Qed.

Lemma window4_signed_spec (rest : list Z) :
  forall ri carry, 0 <= ri <= 16 -> 0 <= carry <= 1 ->
  Forall (fun d => 0 <= d < 2 ^ 4) rest ->
  digits_val 16 (window4_signed ri carry rest) = carry + ri + 16 * digits_val 16 rest /\
  length (window4_signed ri carry rest) = S (length rest) /\
  Forall (fun d => - 8 <= d < 8) (removelast (window4_signed ri carry rest)).
Proof.
  induction rest as [| rn rest IH]; intros ri carry Hr Hc Hd.
  - cbn [window4_signed digits_val length removelast].
    rewrite s8_small by lia. repeat split; [lia | constructor].
  - inversion Hd as [| ? ? Hn Hd']; subst. cbn [window4_signed]. cbv zeta.
    rewrite (s8_small (ri + carry)) by lia. rewrite (shiftr_div _ 4), (land_mask _ 4) by lia.
    rewrite Z.shiftl_mul_pow2, (shiftr_div _ 3) by lia.
    set (x := ri + carry) in *. assert (Hx : 0 <= x <= 17) by lia.
    rewrite (s8_small (rn + x / 2 ^ 4)) by (Z.div_mod_to_equations; lia).
    set (c := (x mod 2 ^ 4) / 2 ^ 3).
    assert (Hcc : 0 <= c <= 1) by (unfold c; Z.div_mod_to_equations; lia).
    assert (Hdig : - 8 <= x mod 2 ^ 4 - c * 2 ^ 4 < 8) by (unfold c; Z.div_mod_to_equations; lia).
    rewrite (s8_small (_ - _)) by lia.
    destruct (IH (rn + x / 2 ^ 4) c) as (Hv & Hl & Hf); try assumption;
      [Z.div_mod_to_equations; lia |].
    cbn [digits_val length]. rewrite Hv, Hl. split; [| split; [reflexivity |]].
    + pose proof (Z.div_mod x (2 ^ 4) ltac:(lia)). lia.
    + destruct (window4_signed (rn + x / 2 ^ 4) c rest) eqn:E; [discriminate |].
      cbn [removelast]. constructor; assumption.
Qed.

Lemma signed_digits_bound (l : list Z) :
  Forall (fun d => - 8 <= d < 8) l ->
  - 8 * (16 ^ Z.of_nat (length l) - 1) <= 15 * digits_val 16 l <= 7 * (16 ^ Z.of_nat (length l) - 1).
Proof.
  induction 1 as [| d l Hd Hl IH]; [cbn; lia |].
  cbn [digits_val length]. rewrite Nat2Z.inj_succ, Z.pow_succ_r by lia. lia.
Qed.

(** The window-4 recoding of a scalar below 2^255: 64 digits between -8 and 8
    that represent it in radix 16. *)
Lemma window4_spec (b : bignum256modm) :
  limbs (2 ^ 32) b -> val b < 2 ^ 255 ->
  digits_val 16 (contract256_window4_modm b) = val b /\
  length (contract256_window4_modm b) = 64%nat /\
  Forall (fun d => - 8 <= d <= 8) (contract256_window4_modm b).
Proof.
  intros Hb Hv. pose proof (limbs_digits b 4 14 8 ltac:(lia) eq_refl eq_refl Hb) as E.
  unfold contract256_window4_modm.
  match type of E with digits_val _ ?q = _ => set (quads := q) in * end.
  assert (Hq : Forall (fun d => 0 <= d < 2 ^ 4) quads)
    by (unfold quads; rewrite !Forall_app; repeat split; apply digits_of_range; lia).
  assert (Hl : length quads = 64%nat)
    by (unfold quads; rewrite !length_app, !digits_of_length; reflexivity).
  clearbody quads. destruct quads as [| r0 rest]; [discriminate |].
  inversion Hq as [| ? ? H0 Hq']; subst.
  destruct (window4_signed_spec rest r0 0 ltac:(lia) ltac:(lia) Hq') as (Ev & El & Ef).
  set (w := window4_signed r0 0 rest) in *. clearbody w.
  cbn [digits_val] in E. change (2 ^ 4) with 16 in E.
  assert (Ew : digits_val 16 w = val b) by lia. injection Hl as Hl. rewrite Hl in El.
  split; [exact Ew |]. split; [exact El |].
  assert (Hne : w <> []) by (intros ->; discriminate).
  rewrite (app_removelast_last 0 Hne). apply Forall_app. split.
  - eapply Forall_impl; [| exact Ef]. cbv beta. lia.
  - constructor; [| constructor]. rewrite (app_removelast_last 0 Hne), digits_val_app in Ew.
    pose proof (signed_digits_bound _ Ef) as B.
    assert (Lr : length (removelast w) = 63%nat).
    { pose proof (f_equal (@length Z) (app_removelast_last 0 Hne)) as L.
      rewrite length_app in L. cbn [length] in L. lia. }
    rewrite Lr in *. cbn [digits_val] in Ew. change (16 ^ Z.of_nat 63) with (2 ^ 252) in *.
    assert (0 <= val b) by (unfold limbs, val in *; lia). lia.
Qed.

(** *** Sliding windows *)

Definition bits (t : list Z) : Prop := Forall (fun x => x = 0 \/ x = 1) t.

(** A digit of a sliding window: zero, or odd and at most [m]. *)
Definition slide_digit (m d : Z) : Prop := d = 0 \/ Z.odd d = true /\ - m <= d <= m.

(** [ripple] adds one, unless every bit is one. *)
Lemma ripple_spec (t : list Z) :
  bits t ->
  bits (ripple t) /\ length (ripple t) = length t /\
  (digits_val 2 (ripple t) = digits_val 2 t + 1 \/ digits_val 2 t = 2 ^ Z.of_nat (length t) - 1).
Proof.
  induction 1 as [| x t Hx Ht IH]; [repeat split; [constructor | right; reflexivity] |].
  destruct IH as (Hb & Hl & Hv). cbn [ripple]. destruct Hx as [-> | ->]; cbn [Z.eqb].
  - repeat split; [constructor; [now right | assumption] | left; cbn [digits_val]; lia].
  - repeat split; [constructor; [now left | assumption] | cbn [length]; lia |].
    cbn [digits_val length]. rewrite Nat2Z.inj_succ, Z.pow_succ_r by lia. lia.
Qed.

Lemma bits_val_nonneg (t : list Z) : bits t -> 0 <= digits_val 2 t.
Proof. induction 1 as [| x t Hx Ht IH]; cbn [digits_val]; lia. Qed.

Lemma upd_zeros (k : nat) (x y : Z) (l : list Z) :
  upd (repeat 0 k ++ x :: l) k y = repeat 0 k ++ y :: l.
Proof.
  unfold upd. rewrite firstn_app, repeat_length, Nat.sub_diag, firstn_all2
    by (rewrite repeat_length; lia).
  rewrite skipn_app, repeat_length, skipn_all2 by (rewrite repeat_length; lia).
  replace (S k - k)%nat with 1%nat by lia. cbn [firstn skipn app]. now rewrite app_nil_r.
Qed.

Lemma zeros_snoc (k : nat) (l : list Z) : repeat 0 k ++ 0 :: l = repeat 0 (S k) ++ l.
Proof. induction k as [| k IH]; [reflexivity |]. cbn [repeat app] in *. now rewrite IH. Qed.

Lemma nth_zeros (k : nat) (x : Z) (l : list Z) : nth k (repeat 0 k ++ x :: l) 0 = x.
Proof. rewrite app_nth2, repeat_length, Nat.sub_diag by (rewrite repeat_length; lia). reflexivity. Qed.

Lemma skipn_zeros (k : nat) (l : list Z) : skipn k (repeat 0 k ++ l) = l.
Proof.
  rewrite skipn_app, repeat_length, Nat.sub_diag, skipn_all2 by (rewrite repeat_length; lia).
  reflexivity.
Qed.

Lemma firstn_zeros (k : nat) (l : list Z) : firstn k (repeat 0 k ++ l) = repeat 0 k.
Proof.
  rewrite firstn_app, repeat_length, Nat.sub_diag, firstn_all2 by (rewrite repeat_length; lia).
  cbn [firstn]. apply app_nil_r.
Qed.

Lemma odd_add_even (d k : Z) : Z.odd d = true -> Z.odd (d + 2 * k) = true.
Proof. intros H. now rewrite Z.odd_add_mul_2. Qed.

Section Window.

Context (w : nat) (Hw : (2 <= w <= 7)%nat).
Let m : Z := 2 ^ Z.of_nat (w - 1) - 1.

Lemma m_range : 1 <= m <= 63.
Proof.
  unfold m. assert (2 ^ 1 <= 2 ^ Z.of_nat (w - 1) <= 2 ^ 6)
    by (split; apply Z.pow_le_mono_r; lia). lia.
Qed.

(** What the loop over [b] leaves: the digit, and above it at least [w - 1]
    zeros (or nothing at all). *)
Definition window_result (R : Z) (len : nat) (res : Z * list Z) : Prop :=
  exists (z : nat) (s : list Z), snd res = repeat 0 z ++ s /\ bits s /\
  (s = [] \/ (w - 1 <= z)%nat) /\ length (snd res) = len /\
  Z.odd (fst res) = true /\ - m <= fst res <= m /\
  fst res + 2 ^ Z.of_nat (S z) * digits_val 2 s = R.

Lemma slide_window_spec (n : nat) :
  forall (k : nat) (d : Z) (s : list Z) (R : Z),
  (n + k = 6)%nat -> bits s -> Z.odd d = true -> - m <= d <= m ->
  d + 2 ^ Z.of_nat (S k) * digits_val 2 s = R ->
  8 * R <= 2 ^ Z.of_nat (S (k + length s)) + 8 ->
  window_result R (k + length s) (slide_window m n (S k) d (repeat 0 k ++ s)).
Proof.
  pose proof m_range as Hm.
  induction n as [| n IH]; intros k d s R Hnk Hs Ho Hd HR Hb.
  - exists k, s. cbn [slide_window fst snd]. rewrite length_app, repeat_length.
    repeat split; try assumption; lia.
  - cbn [slide_window]. rewrite Nat.sub_succ, Nat.sub_0_r, length_app, repeat_length.
    destruct s as [| x s].
    { rewrite Nat.add_0_r, Nat.ltb_irrefl. exists k, []. cbn [fst snd].
      rewrite length_app, repeat_length. repeat split; try assumption; try lia; [now left | apply Nat.add_0_r]. }
    replace (k <? k + length (x :: s))%nat with true
      by (symmetry; apply Nat.ltb_lt; cbn [length]; lia).
    inversion Hs as [| ? ? Hx Hs']; subst x0 l. rewrite nth_zeros, Z.shiftl_mul_pow2 by lia.
    set (y := 2 ^ Z.of_nat (S k)) in *.
    assert (Hy : 2 <= y <= 64).
    { unfold y. change 2 with (2 ^ 1) at 1. change 64 with (2 ^ 6).
      split; apply Z.pow_le_mono_r; lia. }
    assert (Ey : y = 2 * 2 ^ Z.of_nat k) by (unfold y; rewrite Nat2Z.inj_succ, Z.pow_succ_r; lia).
    assert (Ey2 : 2 ^ Z.of_nat (S (S k)) = 2 * y)
      by (unfold y; rewrite (Nat2Z.inj_succ (S k)), Z.pow_succ_r; lia).
    assert (El : (k + length (x :: s) = S k + length s)%nat) by (cbn [length]; lia).
    rewrite El in *. cbn [digits_val] in HR. rewrite upd_zeros, zeros_snoc.
    pose proof (bits_val_nonneg s Hs') as Hn.
    destruct Hx as [-> | ->].
    { rewrite Z.mul_0_l, Z.add_0_r, (proj2 (Z.leb_le d m)), s8_small by lia.
      apply IH; try assumption; rewrite ?Ey2; lia. }
    rewrite Z.mul_1_l. destruct (d + y <=? m) eqn:C1.
    { apply Z.leb_le in C1. rewrite s8_small by lia. apply IH; try assumption; try lia.
      rewrite Ey. now apply odd_add_even. }
    apply Z.leb_gt in C1. destruct (- m <=? d - y) eqn:C2.
    { apply Z.leb_le in C2. rewrite s8_small, firstn_zeros, skipn_zeros by lia.
      cbn [ripple Z.eqb]. destruct (ripple_spec s Hs') as (Hrb & Hrl & Hrv).
      rewrite zeros_snoc, <- Hrl. apply IH; try assumption; try lia.
      - replace (d - y) with (d + 2 * (- 2 ^ Z.of_nat k)) by lia. now apply odd_add_even.
      - rewrite Ey2. destruct Hrv as [-> | Hall]; [lia | exfalso].
        assert (EN : 2 ^ Z.of_nat (S (S k + length s)) = 2 * y * 2 ^ Z.of_nat (length s)).
        { rewrite <- Ey2, <- Z.pow_add_r by lia. f_equal. lia. }
        rewrite EN in Hb. rewrite Hall in HR.
        pose proof (Z.pow_pos_nonneg 2 (Z.of_nat (length s))). nia.
      - rewrite Hrl. exact Hb. }
    apply Z.leb_gt in C2. cbn [Z.eqb negb].
    exists k, (1 :: s). cbn [fst snd]. rewrite length_app, repeat_length.
    repeat split; try assumption; try lia.
    right. destruct (Nat.le_gt_cases (w - 1) k) as [| Hlt]; [assumption | exfalso].
    assert (y <= m + 1) by (unfold y, m; rewrite Z.sub_add; apply Z.pow_le_mono_r; lia).
    assert (d = 0) as -> by lia. discriminate Ho.
Qed.

Lemma slide_spec (fuel : nat) :
  forall (z : nat) (s : list Z),
  (z + length s <= fuel)%nat -> bits s ->
  8 * digits_val 2 s <= 2 ^ Z.of_nat (length s) + 8 ->
  digits_val 2 (slide m fuel (repeat 0 z ++ s)) = digits_val 2 (repeat 0 z ++ s) /\
  length (slide m fuel (repeat 0 z ++ s)) = (z + length s)%nat /\
  Forall (slide_digit m) (slide m fuel (repeat 0 z ++ s)).
Proof.
  pose proof m_range as Hm.
  induction fuel as [| fuel IH]; intros z s Hf Hs Hb.
  - destruct z; [| lia]. destruct s; [| cbn in Hf; lia]. repeat split. constructor.
  - destruct z as [| z].
    2:{ cbn [repeat app slide Z.eqb]. destruct (IH z s ltac:(lia) Hs Hb) as (Ev & El & Ef).
        cbn [digits_val length]. rewrite Ev, El. repeat split.
        constructor; [now left | exact Ef]. }
    cbn [repeat app]. destruct s as [| x s]; [repeat split; constructor |].
    inversion Hs as [| ? ? Hx Hs']; subst x0 l. cbn [length] in Hf, Hb |- *. cbn [slide].
    rewrite Nat2Z.inj_succ, Z.pow_succ_r in Hb by lia. cbn [digits_val] in Hb.
    destruct Hx as [-> | ->]; cbn [Z.eqb].
    + destruct (IH 0%nat s ltac:(lia) Hs' ltac:(lia)) as (Ev & El & Ef). cbn [repeat app] in *.
      cbn [digits_val length]. rewrite Ev, El. repeat split. constructor; [now left | exact Ef].
    + pose proof (slide_window_spec 6 0 1 s (1 + 2 * digits_val 2 s) eq_refl Hs' eq_refl
        ltac:(lia) eq_refl) as W.
      destruct W as (z & s' & Et & Hs2 & Hz & Hl & Ho & Hd & ER).
      { cbn [Nat.add]. rewrite Nat2Z.inj_succ, Z.pow_succ_r by lia. lia. }
      cbn [repeat app Nat.add] in *. destruct (slide_window m 6 1 1 s) as [d t].
      cbn [fst snd] in *. subst t. rewrite length_app, repeat_length in Hl.
      destruct (IH z s' ltac:(lia) Hs2) as (Ev & El & Ef).
      { destruct Hz as [-> | Hz]; [cbn; lia |].
        assert (m + 1 <= 2 ^ Z.of_nat z) by (unfold m; rewrite Z.sub_add; apply Z.pow_le_mono_r; lia).
        rewrite <- Hl, Nat2Z.inj_add, Z.pow_add_r in Hb by lia.
        rewrite Nat2Z.inj_succ, Z.pow_succ_r in ER by lia.
        pose proof (Z.pow_pos_nonneg 2 (Z.of_nat z)). nia. }
      cbn [digits_val length]. rewrite Ev, El, digits_val_app, digits_val_zeros, repeat_length.
      rewrite Nat2Z.inj_succ, Z.pow_succ_r in ER by lia.
      repeat split; [lia | lia |]. constructor; [now right | exact Ef].
Qed.

End Window.

(** The sliding-window recoding of a scalar below 2^253: 256 digits, each zero
    or odd and below half the window, that represent it in radix 2. *)
Lemma slidingwindow_spec (b : bignum256modm) (w : nat) :
  (2 <= w <= 7)%nat -> limbs (2 ^ 32) b -> val b < 2 ^ 253 ->
  let r := contract256_slidingwindow_modm b (Z.of_nat w) in
  digits_val 2 r = val b /\ length r = 256%nat /\
  Forall (slide_digit (2 ^ (Z.of_nat w - 1) - 1)) r.
Proof.
  intros Hw Hb Hv. pose proof (limbs_digits b 1 56 32 ltac:(lia) eq_refl eq_refl Hb) as E.
  unfold contract256_slidingwindow_modm. cbv zeta. rewrite Z.shiftl_mul_pow2, Z.mul_1_l by lia.
  replace (Z.of_nat w - 1) with (Z.of_nat (w - 1)) by lia.
  match type of E with digits_val _ ?q = _ => set (q0 := q) in * end.
  change (2 ^ 1) with 2 in E.
  assert (Hq : bits q0).
  { unfold bits. assert (H : Forall (fun d => 0 <= d < 2 ^ 1) q0)
      by (unfold q0; rewrite !Forall_app; repeat split; apply digits_of_range; lia).
    eapply Forall_impl; [| exact H]. cbv beta. lia. }
  assert (Hl : length q0 = 256%nat)
    by (unfold q0; rewrite !length_app, !digits_of_length; reflexivity).
  clearbody q0. destruct (slide_spec w Hw 256 0 q0) as (Ev & El & Ef);
    [lia | exact Hq | rewrite Hl, E; lia |].
  cbn [repeat app Nat.add] in *. rewrite Ev, El. repeat split; assumption.
Qed.

(** ** The batch helpers *)

(** The limbs above [k] are zero. *)
Definition fits (k : nat) (a : bignum256modm) : Prop :=
  limbs (2 ^ 56) a /\ forall i, (k < i)%nat -> limb a i = 0.

Lemma batch_step (x y c : Z) :
  0 <= x < 2 ^ 56 -> 0 <= y < 2 ^ 56 -> 0 <= c <= 1 ->
  let o := x -u y -u c in
  o >>u 63 = 0 /\ y + c <= x /\ o = x - y - c /\ o &u mask56 = x - y - c \/
  o >>u 63 = 1 /\ x < y + c /\ o &u mask56 = x - y - c + 2 ^ 56.
Proof.
  intros Hx Hy Hc. cbv zeta. rewrite mask56_mod, shiftr_div by lia. unfold sub64, u64.
  rewrite Zminus_mod_idemp_l.
  destruct (Z.le_gt_cases (y + c) x); [left | right].
  - rewrite (Z.mod_small (x - y - c)) by lia. rewrite Z.div_small, Z.mod_small by lia. lia.
  - replace ((x - y - c) mod 2 ^ 64) with (x - y - c + 2 ^ 64)
      by (apply Z.mod_unique with (-1); lia).
    split; [| split; [lia |]]; Z.div_mod_to_equations; lia.
Qed.

(** The value carried by limbs [i] to [i + n]. *)
Fixpoint val_from (n i : nat) (a : bignum256modm) : Z :=
  match n with
  | O => limb a i
  | S n' => limb a i + 2 ^ 56 * val_from n' (S i) a
  end.

Lemma limb_range (a : bignum256modm) (i : nat) : limbs (2 ^ 56) a -> 0 <= limb a i < 2 ^ 56.
Proof.
  intros (B0 & B1 & B2 & B3 & B4). unfold limb.
  do 5 (destruct i as [| i]; [cbn [nth]; lia |]). destruct i; cbn [nth]; lia.
Qed.

Lemma borrow_batch_spec (a b : bignum256modm) (n : nat) :
  limbs (2 ^ 56) a -> limbs (2 ^ 56) b -> forall i c, 0 <= c <= 1 ->
  borrow_batch_from n i a b c = Z.b2z (val_from n i a <? val_from n i b + c).
Proof.
  intros Ha Hb. induction n as [| n IH]; intros i c Hc;
    pose proof (limb_range a i Ha) as Hx; pose proof (limb_range b i Hb) as Hy;
    pose proof (batch_step _ _ c Hx Hy Hc) as S; cbv zeta in S;
    cbn [borrow_batch_from val_from].
  - destruct (Z.ltb_spec (limb a i) (limb b i + c)); cbn [Z.b2z]; lia.
  - rewrite IH by lia.
    match goal with |- Z.b2z ?x = Z.b2z ?y => assert (E : x = y); [| now rewrite E] end.
    destruct (Z.ltb_spec (val_from n (Datatypes.S i) a) (val_from n (Datatypes.S i) b
      + ((limb a i -u limb b i -u c) >>u 63)));
    destruct (Z.ltb_spec (limb a i + 2 ^ 56 * val_from n (Datatypes.S i) a)
      (limb b i + 2 ^ 56 * val_from n (Datatypes.S i) b + c)); try reflexivity; lia.
Qed.

Lemma sub_batch_spec (a b : bignum256modm) (n : nat) :
  limbs (2 ^ 56) a -> limbs (2 ^ 56) b -> forall i c, 0 <= c <= 1 ->
  val_from n i b + c <= val_from n i a ->
  digits_val (2 ^ 56) (sub_batch_from n i a b c) = val_from n i a - val_from n i b - c /\
  length (sub_batch_from n i a b c) = S n /\
  Forall (fun x => 0 <= x < 2 ^ 56) (sub_batch_from n i a b c).
Proof.
  intros Ha Hb. induction n as [| n IH]; intros i c Hc Hle;
    pose proof (limb_range a i Ha) as Hx; pose proof (limb_range b i Hb) as Hy;
    pose proof (batch_step _ _ c Hx Hy Hc) as S; cbv zeta in S;
    cbn [sub_batch_from val_from digits_val length] in *.
  - repeat split; [lia |]. constructor; [lia | constructor].
  - destruct (IH (Datatypes.S i) ((limb a i -u limb b i -u c) >>u 63) ltac:(lia) ltac:(lia))
      as (Ev & El & Ef). cbn [digits_val length]. rewrite Ev, El.
    repeat split; [lia |]. constructor; [lia | exact Ef].
Qed.

Lemma val_from_fits (k : nat) (a : bignum256modm) :
  (k <= 4)%nat -> fits k a -> val_from k 0 a = val a.
Proof.
  intros Hk [Ha Hz].
  pose proof (Hz 1%nat) as Z1. pose proof (Hz 2%nat) as Z2. pose proof (Hz 3%nat) as Z3.
  pose proof (Hz 4%nat) as Z4. unfold limb in *. unfold val. cbn [nth] in *.
  do 5 (destruct k as [| k]; [cbn [val_from nth]; unfold limb; cbn [nth];
    repeat match goal with H : (_ < _)%nat -> _ |- _ =>
      first [rewrite H by lia; clear H | clear H] end; lia |]). lia.
Qed.

(** The comparisons decide the order of the values, given that the limbs above
    [limbsize] are zero. *)
Lemma lt_batch_spec (a b : bignum256modm) (k : nat) :
  (k <= 4)%nat -> fits k a -> fits k b ->
  lt256_modm_batch a b k = (val a <? val b) /\ lte256_modm_batch a b k = (val a <=? val b).
Proof.
  intros Hk Ha Hb. unfold lt256_modm_batch, lte256_modm_batch.
  rewrite (proj2 (Nat.leb_le k 4) Hk).
  rewrite !borrow_batch_spec, !val_from_fits, !Z.add_0_r by (try apply Ha; try apply Hb; assumption || lia).
  split; [now destruct (val a <? val b) |].
  destruct (Z.ltb_spec (val b) (val a)), (Z.leb_spec (val a) (val b)); try reflexivity; lia.
Qed.

(** In-place subtraction of a smaller scalar. *)
Lemma sub256_batch_spec (a b : bignum256modm) (k : nat) :
  (k <= 4)%nat -> fits k a -> fits k b -> val b <= val a ->
  fits k (sub256_modm_batch a a b k) /\ val (sub256_modm_batch a a b k) = val a - val b.
Proof.
  intros Hk Ha Hb Hle. rewrite <- (val_from_fits k a), <- (val_from_fits k b) in * by assumption.
  destruct (sub_batch_spec a b k (proj1 Ha) (proj1 Hb) 0 0 ltac:(lia) ltac:(lia)) as (Ev & El & Ef).
  unfold sub256_modm_batch. rewrite (proj2 (Nat.leb_le k 4) Hk).
  rewrite Z.sub_0_r in Ev. rewrite <- Ev. destruct Ha as [Ha Hz]. clear Hb Hle Ev.
  pose proof (Hz 1%nat) as Z1. pose proof (Hz 2%nat) as Z2. pose proof (Hz 3%nat) as Z3.
  pose proof (Hz 4%nat) as Z4. unfold limb in Z1, Z2, Z3, Z4. cbn [nth] in Z1, Z2, Z3, Z4.
  set (l := sub_batch_from k 0 a b 0) in *. clearbody l.
  do 5 (destruct k as [| k]; [
    repeat match goal with H : length ?l = S _ |- _ =>
      destruct l; [discriminate H | cbn [length] in H; apply Nat.succ_inj in H] end;
    match goal with H : length ?l = 0%nat |- _ => destruct l; [clear H | discriminate H] end;
    repeat match goal with H : Forall _ (_ :: _) |- _ => inversion H; clear H; subst end;
    unfold fits, limbs, limb, val, of_limbs; cbn [app skipn nth a0 a1 a2 a3 a4 digits_val];
    (split; [split; [lia |]; intros i Hi; do 5 (destruct i as [| i]; [cbn [nth]; lia |]);
      destruct i; reflexivity | lia]) |]). lia.
Qed.

Lemma iszero_batch_spec (a : bignum256modm) :
  limbs (2 ^ 56) a -> iszero256_modm_batch a = (val a =? 0).
Proof.
  intros (B0 & B1 & B2 & B3 & B4). unfold iszero256_modm_batch, limb. cbn [seq forallb nth].
  destruct (Z.eqb_spec (val a) 0) as [E | E]; unfold val in E.
  - assert (a0 a = 0 /\ a1 a = 0 /\ a2 a = 0 /\ a3 a = 0 /\ a4 a = 0)
      as (-> & -> & -> & -> & ->) by lia. reflexivity.
  - destruct (a0 a =? 0) eqn:E0, (a1 a =? 0) eqn:E1, (a2 a =? 0) eqn:E2, (a3 a =? 0) eqn:E3,
      (a4 a =? 0) eqn:E4; try reflexivity. apply Z.eqb_eq in E0, E1, E2, E3, E4. lia.
Qed.

Lemma isone_batch_spec (a : bignum256modm) :
  limbs (2 ^ 56) a -> isone256_modm_batch a = (val a =? 1).
Proof.
  intros (B0 & B1 & B2 & B3 & B4). unfold isone256_modm_batch, limb. cbn [seq forallb nth Nat.eqb].
  destruct (Z.eqb_spec (val a) 1) as [E | E]; unfold val in E.
  - assert (a0 a = 1 /\ a1 a = 0 /\ a2 a = 0 /\ a3 a = 0 /\ a4 a = 0)
      as (-> & -> & -> & -> & ->) by lia. reflexivity.
  - destruct (a0 a =? 1) eqn:E0, (a1 a =? 0) eqn:E1, (a2 a =? 0) eqn:E2, (a3 a =? 0) eqn:E3,
      (a4 a =? 0) eqn:E4; try reflexivity. apply Z.eqb_eq in E0, E1, E2, E3, E4. lia.
Qed.

Lemma isatmost128bits_batch_spec (a : bignum256modm) :
  limbs (2 ^ 56) a -> isatmost128bits256_modm_batch a = (val a <? 2 ^ 128).
Proof.
  intros (B0 & B1 & B2 & B3 & B4). unfold isatmost128bits256_modm_batch.
  assert (E2 : a2 a &u 0xffffffffff0000 = a2 a / 2 ^ 16 * 2 ^ 16).
  { rewrite <- Z.shiftl_mul_pow2, <- shiftr_div by lia. apply Z.bits_inj'. intros i Hi.
    rewrite Z.land_spec, Z.shiftl_spec by lia.
    change 0xffffffffff0000 with (Z.shiftl (Z.ones 40) 16). rewrite Z.shiftl_spec by lia.
    destruct (Z.le_gt_cases 16 i) as [H16 | H16].
    - rewrite Z.shiftr_spec, Z.sub_add by lia. destruct (Z.le_gt_cases 56 i) as [H56 | H56].
      + rewrite (testbit_above (a2 a) 56 i) by lia. reflexivity.
      + rewrite Z.ones_spec_low by lia. apply andb_true_r.
    - rewrite !(fun x => Z.testbit_neg_r x (i - 16)) by lia. apply andb_false_r. }
  rewrite E2. destruct (Z.eqb_spec (a4 a |u a3 a |u (a2 a / 2 ^ 16 * 2 ^ 16)) 0) as [E | E].
  - apply Z.lor_eq_0_iff in E as [E Ex]. apply Z.lor_eq_0_iff in E as [E4 E3].
    symmetry. apply Z.ltb_lt. unfold val. rewrite E3, E4. Z.div_mod_to_equations. lia.
  - symmetry. apply Z.ltb_ge. destruct (Z.le_gt_cases (2 ^ 128) (val a)) as [| Hlt]; [assumption |].
    exfalso. apply E. unfold val in Hlt.
    assert (a4 a = 0 /\ a3 a = 0 /\ a2 a / 2 ^ 16 = 0) as (-> & -> & ->)
      by (Z.div_mod_to_equations; lia). reflexivity.
Qed.

(** ** Scalar arithmetic on encodings *)

Lemma expand256_limbs (x : list Z) : bytes_ok x -> (length x <= 64)%nat ->
  limbs (2 ^ 32) (expand256_modm x) /\ val (expand256_modm x) mod ell = le_val x mod ell.
Proof.
  intros Hx Lx. pose proof (expand256_spec x Hx Lx) as E. destruct (length x <? 32)%nat.
  - destruct E as [B ->]. now split.
  - destruct E as [[B _] ->]. rewrite Z.mod_mod by discriminate. now split.
Qed.

(** Multiplying, then adding, scalars given as up to 64 bytes (the step
    [s = hash * key + r] of signing) yields the 32-byte encoding of the
    canonical residue modulo the group order. *)
Theorem muladd_bytes (x y z : list Z) (Hx : bytes_ok x) (Lx : (length x <= 64)%nat)
  (Hy : bytes_ok y) (Ly : (length y <= 64)%nat) (Hz : bytes_ok z) (Lz : (32 <= length z <= 64)%nat) :
  contract256_modm (add256_modm (mul256_modm (expand256_modm x) (expand256_modm y)) (expand256_modm z)) =
  le_bytes 32 ((le_val x * le_val y + le_val z) mod ell).
Proof.
  destruct (expand256_limbs x Hx Lx) as [Bx Ex], (expand256_limbs y Hy Ly) as [By Ey].
  pose proof (expand256_spec z Hz (proj2 Lz)) as Ez.
  rewrite (proj2 (Nat.ltb_ge (length z) 32) (proj1 Lz)) in Ez. destruct Ez as [Rz Ez].
  destruct (mul256_spec _ _ Bx By) as [Rm Em]. destruct (add256_spec _ _ Rm Rz) as [Ra Ea].
  rewrite contract256_spec by apply Ra. f_equal. rewrite Ea, Em, Ez.
  rewrite <- Z.add_mod by discriminate. rewrite <- (Z.add_mod_idemp_l (_ * _)) by discriminate.
  rewrite Z.mul_mod, Ex, Ey, <- Z.mul_mod, Z.add_mod_idemp_l by discriminate. reflexivity.
Qed.

Lemma muladd_bytes_witness :
  contract256_modm (add256_modm (mul256_modm (expand256_modm [3]) (expand256_modm (repeat 255 64)))
    (expand256_modm (repeat 7 32))) =
  le_bytes 32 ((le_val [3] * le_val (repeat 255 64) + le_val (repeat 7 32)) mod ell).
Proof.
  apply (muladd_bytes [3] (repeat 255 64) (repeat 7 32)); rewrite ?repeat_length; cbn [length];
    try lia; unfold bytes_ok; repeat constructor; unfold word; lia.
Defined.

(** The window-4 recoding of a reduced scalar: 64 signed digits of at most 8
    in magnitude that represent it in radix 16. *)
Theorem window4_recodes (b : bignum256modm) (Hb : reduced b) :
  digits_val 16 (contract256_window4_modm b) = val b /\
  length (contract256_window4_modm b) = 64%nat /\
  Forall (fun d => - 8 <= d <= 8) (contract256_window4_modm b).
Proof. apply window4_spec; [apply Hb |]. destruct Hb as [_ Hb]. unfold ell in Hb. lia. Qed.

Lemma window4_recodes_witness :
  let b := bm 0x1234567890abcd 0x77777777777777 1 2 3 in
  digits_val 16 (contract256_window4_modm b) = val b /\
  length (contract256_window4_modm b) = 64%nat /\
  Forall (fun d => - 8 <= d <= 8) (contract256_window4_modm b).
Proof.
  apply (window4_recodes (bm 0x1234567890abcd 0x77777777777777 1 2 3)).
  unfold reduced, limbs, val, ell. cbn [a0 a1 a2 a3 a4]. lia.
Defined.

(** The sliding-window recoding of a reduced scalar: 256 digits, each zero or
    odd and below half the window, that represent it in radix 2. *)
Theorem slidingwindow_recodes (b : bignum256modm) (w : nat) (Hw : (2 <= w <= 7)%nat) (Hb : reduced b) :
  digits_val 2 (contract256_slidingwindow_modm b (Z.of_nat w)) = val b /\
  length (contract256_slidingwindow_modm b (Z.of_nat w)) = 256%nat /\
  Forall (slide_digit (2 ^ (Z.of_nat w - 1) - 1)) (contract256_slidingwindow_modm b (Z.of_nat w)).
Proof.
  apply slidingwindow_spec; [exact Hw | apply Hb |]. destruct Hb as [_ Hb]. unfold ell in Hb. lia.
Qed.

Lemma slidingwindow_recodes_witness :
  let b := bm 0x1234567890abcd 0x77777777777777 1 2 3 in
  digits_val 2 (contract256_slidingwindow_modm b 5) = val b /\
  length (contract256_slidingwindow_modm b 5) = 256%nat /\
  Forall (slide_digit (2 ^ (5 - 1) - 1)) (contract256_slidingwindow_modm b 5).
Proof.
  apply (slidingwindow_recodes (bm 0x1234567890abcd 0x77777777777777 1 2 3) 5); [lia |].
  unfold reduced, limbs, val, ell. cbn [a0 a1 a2 a3 a4]. lia.
Defined.

(** The variable-size operations of batch verification decide the order of
    two scalars and subtract the smaller, on the limbs they are told to use. *)
Theorem batch_compare_subtract (a b : bignum256modm) (k : nat) (Hk : (k <= 4)%nat)
  (Ha : fits k a) (Hb : fits k b) :
  lt256_modm_batch a b k = (val a <? val b) /\ lte256_modm_batch a b k = (val a <=? val b) /\
  (val b <= val a -> val (sub256_modm_batch a a b k) = val a - val b).
Proof.
  destruct (lt_batch_spec a b k Hk Ha Hb) as [E1 E2]. split; [exact E1 |]. split; [exact E2 |].
  intros Hle. now apply sub256_batch_spec.
Qed.

Lemma batch_compare_subtract_witness :
  let a := bm 0 5 0 0 0 in let b := bm 1 4 0 0 0 in
  lt256_modm_batch a b 1 = (val a <? val b) /\ lte256_modm_batch a b 1 = (val a <=? val b) /\
  (val b <= val a -> val (sub256_modm_batch a a b 1) = val a - val b).
Proof.
  apply (batch_compare_subtract (bm 0 5 0 0 0) (bm 1 4 0 0 0) 1);
    [lia | |]; (split; [unfold limbs; cbn [a0 a1 a2 a3 a4]; lia |]);
    intros [| [| [| [| [| i]]]]] Hi; try lia; try reflexivity; now destruct i.
Defined.

End Scalar64.
