(* ===== verification/Prime.v ===== *)
(** * Primality of the field modulus

    The field code of [Fe64] computes modulo 2^255 - 19.  Decompressing a
    point, inverting by a power and the completeness of the addition on the
    curve all rest on that number being prime, which this file proves: a
    certificate is a list of Pocklington steps over small primes found by
    trial division, [check_chain] evaluates it, and [check_chain_sound] turns
    a positive answer into the primality of every number of the chain. *)

From Stdlib Require Import ZArith List Lia Bool Zdivisibility Zmod.
From Bignums Require Import BigZ.
Import ListNotations.
From S2P Require Import Prelude Fe64.
Open Scope Z_scope.

(** ** Modular arithmetic that evaluates

    The certificates here and the tables of the curve need many products of
    255-bit numbers; they are evaluated on machine-word big integers. *)

Module Big.

Definition mulmod (x y n : bigZ) : bigZ := BigZ.modulo (BigZ.mul x y) n.

Fixpoint pow_loop (a : bigZ) (e : positive) (n : bigZ) : bigZ :=
  match e with
  | xH => BigZ.modulo a n
  | xO e' => let r := pow_loop a e' n in mulmod r r n
  | xI e' => let r := pow_loop a e' n in mulmod (mulmod r r n) a n
  end.

Definition powmod (a : Z) (e : positive) (n : Z) : Z :=
  BigZ.to_Z (pow_loop (BigZ.of_Z a) e (BigZ.of_Z n)).

Definition gcd (a b : Z) : Z := BigZ.to_Z (BigZ.gcd (BigZ.of_Z a) (BigZ.of_Z b)).

Lemma mulmod_spec (x y n : bigZ) :
  BigZ.to_Z (mulmod x y n) = (BigZ.to_Z x * BigZ.to_Z y) mod BigZ.to_Z n.
Proof. unfold mulmod. now rewrite BigZ.spec_modulo, BigZ.spec_mul. Qed.

Lemma pow_loop_spec (a : bigZ) (e : positive) (n : bigZ) :
  BigZ.to_Z (pow_loop a e n) = BigZ.to_Z a ^ Z.pos e mod BigZ.to_Z n.
Proof.
  induction e as [e IH | e IH |]; cbn [pow_loop]; cbv zeta.
  - rewrite !mulmod_spec, IH, <- Zmult_mod, Zmult_mod_idemp_l. f_equal.
    replace (Z.pos e~1) with (Z.pos e + Z.pos e + 1) by lia.
    rewrite !Z.pow_add_r, Z.pow_1_r by lia. ring.
  - rewrite mulmod_spec, IH, <- Zmult_mod. f_equal.
    replace (Z.pos e~0) with (Z.pos e + Z.pos e) by lia. now rewrite Z.pow_add_r by lia.
  - now rewrite BigZ.spec_modulo, Z.pow_1_r.
Qed.

Lemma powmod_spec (a : Z) (e : positive) (n : Z) : powmod a e n = a ^ Z.pos e mod n.
Proof. unfold powmod. now rewrite pow_loop_spec, !BigZ.spec_of_Z. Qed.

Lemma gcd_spec (a b : Z) : gcd a b = Z.gcd a b.
Proof. unfold gcd. now rewrite BigZ.spec_gcd, !BigZ.spec_of_Z. Qed.

End Big.

Module Pocklington.

(** ** The least divisor *)

(** A number that is not prime has a prime divisor below its square root. *)
Lemma small_prime_divisor (n : Z) :
  1 < n -> Z.prime n \/ exists r, Z.prime r /\ (r | n) /\ r * r <= n.
Proof.
  intros Hn.
  assert (H : forall k, 1 <= k -> (forall d, 1 < d <= k -> ~ (d | n)) \/
    exists r, Z.prime r /\ (r | n) /\ r <= k).
  { intros k Hk. pattern k. apply (Zlt_lower_bound_ind _ 1); [clear k Hk | exact Hk].
    intros k IH Hk. destruct (Z.eq_dec k 1) as [-> | Hk1]; [left; lia |].
    destruct (IH (k - 1) ltac:(lia)) as [Hno | (r & Hr & Hd & Hle)].
    2: { right. exists r. repeat split; auto; try lia; apply Hr. }
    destruct (Znumtheory.Zdivide_dec k n) as [Hd | Hnd].
    - right. exists k. split; [| split; [exact Hd | lia]]. split; [lia |].
      intros m Hm Hmk. apply (Hno m); [lia |]. etransitivity; eauto.
    - left. intros d Hd. destruct (Z.eq_dec d k) as [-> | ?]; [exact Hnd |].
      apply Hno. lia. }
  destruct (H (Z.sqrt n)) as [Hno | (r & Hr & Hd & Hle)].
  - apply Z.sqrt_le_square; lia.
  - left. split; [exact Hn |]. intros m Hm [c Hc].
    destruct (Z.le_gt_cases m (Z.sqrt n)) as [Hs | Hs].
    + apply (Hno m); [lia | now exists c].
    + assert (1 < c) by (clear Hno; nia).
      assert (c <= Z.sqrt n).
      { destruct (Z.le_gt_cases c (Z.sqrt n)) as [| Hc']; [assumption |].
        exfalso. pose proof (Z.sqrt_spec n ltac:(lia)) as Hsq; cbv zeta in Hsq. pose proof (Z.sqrt_nonneg n).
        assert ((Z.sqrt n + 1) * (Z.sqrt n + 1) <= c * m) by (apply Z.mul_le_mono_nonneg; lia). lia. }
      apply (Hno c); [lia | exists m; lia].
  - right. exists r. split; [exact Hr | split; [exact Hd |]].
    pose proof (Z.sqrt_spec n ltac:(lia)) as Hsq; cbv zeta in Hsq. pose proof (Z.prime_ge_2 _ Hr). nia.
Qed.

(** ** One Pocklington step *)

Lemma pow_mod_one (a e m n : Z) : 0 <= e -> 0 <= m -> 1 < n ->
  a ^ e mod n = 1 -> a ^ (e * m) mod n = 1.
Proof.
  intros He Hm Hn Ha. rewrite Z.pow_mul_r by assumption.
  rewrite <- Z.mod_pow_l, Ha, Z.pow_1_l by assumption. apply Z.mod_small. lia.
Qed.

Lemma mod_divisor (a n r : Z) : 0 < r -> 0 < n -> (r | n) -> a mod n = 1 -> a mod r = 1 mod r.
Proof.
  intros Hr Hn [c Hc] Ha. pose proof (Z.div_mod a n ltac:(lia)) as E. rewrite Ha in E.
  rewrite E, Hc. replace (c * r * (a / (c * r)) + 1) with (1 + (c * (a / (c * r))) * r) by ring.
  apply Z.mod_add. lia.
Qed.

Lemma bezout_nonneg (q m u v : Z) :
  1 <= q -> 1 <= m -> u * q + v * m = 1 -> exists s t, 0 <= s /\ 0 <= t /\ 1 + t * m = s * q.
Proof.
  intros Hq Hm Huv.
  assert (K : forall x y, 0 <= x -> 1 <= y -> x <= y * x) by (intros; nia).
  pose proof (K (Z.abs u + Z.abs v) m ltac:(lia) Hm).
  pose proof (K (Z.abs u + Z.abs v) q ltac:(lia) Hq).
  exists (u + m * (Z.abs u + Z.abs v)), (- v + q * (Z.abs u + Z.abs v)).
  repeat split; lia.
Qed.

(** The order of [a ^ ((n-1)/q)] modulo a prime divisor [r] of [n] is [q]. *)
Lemma pocklington_factor (n q a r : Z) :
  1 < n -> Z.prime q -> (q | n - 1) -> a ^ (n - 1) mod n = 1 ->
  Z.gcd (a ^ ((n - 1) / q) - 1) n = 1 -> Z.prime r -> (r | n) -> (q | r - 1).
Proof.
  intros Hn Hq [c Hc] Ha Hg Hr Hd.
  pose proof (Z.prime_ge_2 _ Hq) as Hq2. pose proof (Z.prime_ge_2 _ Hr) as Hr2.
  assert (Hc0 : 0 < c) by nia.
  rewrite Hc in Hg. rewrite Z.div_mul in Hg by lia. set (b := a ^ c) in *.
  assert (Hbq : b ^ q mod r = 1 mod r).
  { unfold b. rewrite <- Z.pow_mul_r, <- Hc by lia. apply (mod_divisor _ n); auto; lia. }
  assert (Hb1 : b mod r <> 1 mod r).
  { intros E. assert (Hdb : (r | b - 1)).
    { apply Z.mod_divide; [lia |]. rewrite Zminus_mod, E, <- Zminus_mod. reflexivity. }
    pose proof (Z.gcd_greatest _ _ _ Hdb Hd) as Hdg. rewrite Hg in Hdg.
    apply Z.divide_1_r_nonneg in Hdg; lia. }
  assert (Hb0 : b mod r <> 0).
  { intros E. assert (Z0 : b ^ q mod r = 0).
    { rewrite <- Z.mod_pow_l, E, Z.pow_0_l by lia. apply Z.mod_0_l. lia. }
    rewrite Z0, Z.mod_1_l in Hbq by lia. discriminate. }
  pose proof (Z.fermat_nz r b Hr Hb0) as Hf.
  destruct (Znumtheory.Zdivide_dec q (r - 1)) as [| Hnd]; [assumption | exfalso].
  apply Z.coprime_prime_l, Z.Bezout_coprime in Hnd; [| assumption].
  destruct Hnd as (u & v & Huv).
  (* b = b ^ (1 + q * (r - 1) * k) for a large enough k, in two ways *)
  apply Hb1.
  destruct (bezout_nonneg q (r - 1) u v ltac:(clear - Hq2; lia) ltac:(clear - Hr2; lia) Huv)
    as (s & t & Hs & Ht & Est).
  transitivity (b ^ (1 + t * (r - 1)) mod r).
  - rewrite Z.pow_add_r, Z.pow_1_r by (try apply Z.mul_nonneg_nonneg; lia). rewrite <- Z.mul_mod_idemp_r by lia.
    rewrite (Z.mul_comm t), (pow_mod_one b (r - 1) t r); try lia. now rewrite Z.mul_1_r.
  - rewrite Est, (Z.mul_comm s), (pow_mod_one b q s r); try lia.
    + now rewrite Z.mod_1_l by lia.
    + rewrite Hbq. apply Z.mod_1_l. lia.
Qed.

(** Distinct primes that divide a number: so does their product. *)
Lemma primes_product (qs : list Z) (m : Z) :
  NoDup qs -> Forall Z.prime qs -> Forall (fun q => (q | m)) qs -> (fold_right Z.mul 1 qs | m).
Proof.
  induction qs as [| q qs IH]; cbn; intros Hnd Hp Hd; [apply Z.divide_1_l |].
  apply NoDup_cons_iff in Hnd. destruct Hnd as [Hnq Hnd]. inv Hp. inv Hd. specialize (IH Hnd H2 H4).
  assert (Hc : Z.coprime q (fold_right Z.mul 1 qs)).
  { apply Z.coprime_prime_l; [assumption |]. clear - Hnq H1 H2. intros Hdv.
    induction qs as [| x qs IH]; cbn in Hdv.
    - apply Z.divide_1_r_nonneg in Hdv; pose proof (Z.prime_ge_2 _ H1); lia.
    - inv H2. apply Z.divide_prime_mul in Hdv; [| assumption]. destruct Hdv as [Hx | Hx].
      + apply Hnq. left. symmetry. now apply Z.divide_prime_prime.
      + apply IH; auto. intros Hin. apply Hnq. now right. }
  destruct IH as [k Hk]. rewrite Hk in H3. rewrite Z.mul_comm in H3.
  apply Z.gauss in H3; [| exact Hc]. destruct H3 as [j Hj]. exists j. rewrite Hk, Hj. ring.
Qed.

Theorem pocklington (n a : Z) (qs : list Z) :
  1 < n -> NoDup qs -> Forall Z.prime qs -> a ^ (n - 1) mod n = 1 ->
  Forall (fun q => (q | n - 1) /\ Z.gcd (a ^ ((n - 1) / q) - 1) n = 1) qs ->
  n < fold_right Z.mul 1 qs * fold_right Z.mul 1 qs -> Z.prime n.
Proof.
  intros Hn Hnd Hp Ha Hq Hbig.
  destruct (small_prime_divisor n Hn) as [| (r & Hr & Hd & Hsq)]; [assumption | exfalso].
  assert (HF : (fold_right Z.mul 1 qs | r - 1)).
  { apply primes_product; auto. rewrite Forall_forall in *. intros q Hin.
    destruct (Hq q Hin). apply (pocklington_factor n q a r); auto. }
  apply Z.divide_pos_le in HF; pose proof (Z.prime_ge_2 _ Hr); [| lia].
  assert (0 <= fold_right Z.mul 1 qs).
  { clear - Hp. induction Hp; cbn; [lia |]. pose proof (Z.prime_ge_2 _ H). nia. }
  nia.
Qed.

(** ** Certificates *)

(** No divisor from [d] on, below the square root; [fuel] steps. *)
Fixpoint no_divisor (fuel : nat) (d n : Z) : bool :=
  match fuel with
  | O => false
  | S f => if n <? d * d then true
           else if n mod d =? 0 then false else no_divisor f (d + 1) n
  end.

Definition trial (n : Z) : bool := (1 <? n) && no_divisor (Z.to_nat (Z.sqrt n) + 2) 2 n.

Inductive step :=
| Trial (n : Z)
| Step (n a : Z) (qs : list Z).

Definition nodupb (qs : list Z) : bool := Nat.eqb (length (nodup Z.eq_dec qs)) (length qs).

(** A step is checked against the numbers already known to be prime. *)
Definition check_step (known : list Z) (s : step) : option Z :=
  match s with
  | Trial n => if trial n then Some n else None
  | Step n a qs =>
      if (1 <? n) && nodupb qs && forallb (fun q => existsb (Z.eqb q) known) qs
         && (Big.powmod a (Z.to_pos (n - 1)) n =? 1)
         && forallb (fun q => ((n - 1) mod q =? 0) && (0 <? (n - 1) / q)
                  && (Big.gcd (Big.powmod a (Z.to_pos ((n - 1) / q)) n - 1) n =? 1)) qs
         && (n <? fold_right Z.mul 1 qs * fold_right Z.mul 1 qs)
      then Some n else None
  end.

Fixpoint check_chain (known : list Z) (ss : list step) : option (list Z) :=
  match ss with
  | [] => Some known
  | s :: rest => match check_step known s with
                 | Some n => check_chain (n :: known) rest
                 | None => None
                 end
  end.

Lemma no_divisor_sound (fuel : nat) (d n : Z) :
  2 <= d -> no_divisor fuel d n = true ->
  forall m, d <= m -> m * m <= n -> ~ (m | n).
Proof.
  revert d. induction fuel as [| f IH]; cbn; intros d Hd H m Hm Hmn Hdiv; [discriminate |].
  destruct (Z.ltb_spec n (d * d)); [nia |].
  destruct (Z.eqb_spec (n mod d) 0) as [| Hnz]; [discriminate |].
  destruct (Z.eq_dec m d) as [-> | Hne].
  - apply Hnz. apply Z.mod_divide; [lia | exact Hdiv].
  - apply (IH (d + 1) ltac:(lia) H m); auto; lia.
Qed.

Lemma trial_sound (n : Z) : trial n = true -> Z.prime n.
Proof.
  unfold trial. intros [H1 H2]%andb_true_iff. apply Z.ltb_lt in H1.
  destruct (small_prime_divisor n H1) as [| (r & Hr & Hd & Hsq)]; [assumption | exfalso].
  pose proof (Z.prime_ge_2 _ Hr).
  apply (no_divisor_sound _ 2 n ltac:(lia) H2 r); auto.
Qed.

Lemma nodupb_sound (qs : list Z) : nodupb qs = true -> NoDup qs.
Proof.
  unfold nodupb. intros H%Nat.eqb_eq.
  eapply NoDup_incl_NoDup; [apply (NoDup_nodup Z.eq_dec) | rewrite H; reflexivity |].
  intros x Hx. now apply nodup_In in Hx.
Qed.

Lemma check_step_sound (known : list Z) (s : step) (n : Z) :
  Forall Z.prime known -> check_step known s = Some n -> Z.prime n.
Proof.
  intros Hk. destruct s as [m | m a qs]; cbn [check_step].
  - destruct (trial m) eqn:E; [| discriminate]. intros [= <-]. now apply trial_sound.
  - match goal with |- context [if ?c then _ else _] => destruct c eqn:E end; [| discriminate].
    intros [= <-].
    apply andb_true_iff in E; destruct E as [E Hbig]. apply andb_true_iff in E; destruct E as [E Hqs].
    apply andb_true_iff in E; destruct E as [E Ha]. apply andb_true_iff in E; destruct E as [E Hin].
    apply andb_true_iff in E; destruct E as [Hm Hnd].
    apply Z.ltb_lt in Hm. apply Z.ltb_lt in Hbig. apply Z.eqb_eq in Ha.
    rewrite Big.powmod_spec, Z2Pos.id in Ha by lia.
    apply (pocklington m a qs); auto using nodupb_sound.
    + rewrite Forall_forall in *. rewrite forallb_forall in Hin. intros q Hq.
      specialize (Hin q Hq). apply existsb_exists in Hin. destruct Hin as (x & Hx & ->%Z.eqb_eq).
      now apply Hk.
    + rewrite forallb_forall in Hqs. apply Forall_forall. intros q Hq. specialize (Hqs q Hq).
      apply andb_true_iff in Hqs. destruct Hqs as [Hqs Hg].
      apply andb_true_iff in Hqs. destruct Hqs as [Hdv Hpos]. apply Z.eqb_eq in Hdv, Hg.
      apply Z.ltb_lt in Hpos.
      assert (Hq0 : q <> 0). { intros ->. rewrite Zmod_0_r in Hdv. lia. }
      split; [now apply Z.mod_divide |].
      rewrite Big.gcd_spec, Big.powmod_spec, Z2Pos.id in Hg by exact Hpos.
      rewrite <- Z.gcd_mod_l, Zminus_mod_idemp_l, Z.gcd_mod_l in Hg. exact Hg.
Qed.

Lemma check_chain_sound (ss : list step) (known all : list Z) :
  Forall Z.prime known -> check_chain known ss = Some all -> Forall Z.prime all.
Proof.
  revert known. induction ss as [| s ss IH]; cbn; intros known Hk H; [now inv H |].
  destruct (check_step known s) as [n |] eqn:E; [| discriminate].
  apply (IH (n :: known)); [| exact H]. constructor; [| exact Hk].
  now apply (check_step_sound known s).
Qed.

(** ** The modulus of the curve *)

Definition p_chain : list step :=
  [ Trial 127; Trial 353; Trial 75707; Trial 8574133;
    Step 1919519569386763 2 [127; 8574133];
    Step 75445702479781427272750846543864801 2 [75707; 1919519569386763];
    Step 74058212732561358302231226437062788676166966415465897661863160754340907 2
      [353; 75445702479781427272750846543864801];
    Step Donna64.p 2 [74058212732561358302231226437062788676166966415465897661863160754340907] ].

(** The last number of a chain that checks. *)
Definition chain_proves (ss : list step) (n : Z) : bool :=
  match check_chain [] ss with Some (q :: _) => q =? n | _ => false end.

Lemma chain_proves_sound (ss : list step) (n : Z) : chain_proves ss n = true -> Z.prime n.
Proof.
  unfold chain_proves. destruct (check_chain [] ss) as [[| q all] |] eqn:E; try discriminate.
  intros ->%Z.eqb_eq. apply check_chain_sound in E; [now inv E | constructor].
Qed.

Lemma p_prime : Z.prime Donna64.p.
Proof. apply (chain_proves_sound p_chain). vm_compute. reflexivity. Qed.

End Pocklington.
