(* ===== verification/Group.v ===== *)
(** * Abelian groups and integer multiples

    The interface between the curve and the code that multiplies points by
    scalars: [AbGroup] states what the addition of points promises, [smul] is
    the integer multiple every scalar multiplication of the code must return,
    and its laws are what the windowed loops are proved against. *)

From Stdlib Require Import ZArith List Lia.
Import ListNotations.
From S2P Require Import Prelude.
Open Scope Z_scope.

Class AbGroup (G : Type) := {
  gadd : G -> G -> G;
  gzero : G;
  gopp : G -> G;
  gadd_assoc : forall a b c, gadd a (gadd b c) = gadd (gadd a b) c;
  gadd_comm : forall a b, gadd a b = gadd b a;
  gadd_0_l : forall a, gadd gzero a = a;
  gadd_opp_r : forall a, gadd a (gopp a) = gzero
}.

Declare Scope group_scope.
Delimit Scope group_scope with G.
Infix "⊕" := gadd (at level 50, left associativity) : group_scope.
Open Scope group_scope.

Section Laws.
Context {G : Type} {gr : AbGroup G}.
Implicit Types a b c P Q : G.

Lemma gadd_0_r a : a ⊕ gzero = a.
Proof. now rewrite gadd_comm, gadd_0_l. Qed.

Lemma gadd_opp_l a : gopp a ⊕ a = gzero.
Proof. now rewrite gadd_comm, gadd_opp_r. Qed.

Lemma gadd_cancel_l a b c : a ⊕ b = a ⊕ c -> b = c.
Proof.
  intros H. rewrite <- (gadd_0_l b), <- (gadd_0_l c), <- (gadd_opp_l a), <- !gadd_assoc.
  now rewrite H.
Qed.

Lemma gopp_unique a b : a ⊕ b = gzero -> b = gopp a.
Proof. intros H. apply (gadd_cancel_l a). now rewrite H, gadd_opp_r. Qed.

Lemma gopp_zero : gopp gzero = gzero.
Proof. symmetry. apply gopp_unique, gadd_0_l. Qed.

Lemma gopp_opp a : gopp (gopp a) = a.
Proof. symmetry. apply gopp_unique, gadd_opp_l. Qed.

Lemma gadd_shuffle a b c d : (a ⊕ b) ⊕ (c ⊕ d) = (a ⊕ c) ⊕ (b ⊕ d).
Proof.
  rewrite <- !gadd_assoc. f_equal. rewrite !gadd_assoc. f_equal. apply gadd_comm.
Qed.

Lemma gopp_add a b : gopp (a ⊕ b) = gopp a ⊕ gopp b.
Proof.
  symmetry. apply gopp_unique. rewrite gadd_shuffle, !gadd_opp_r. apply gadd_0_l.
Qed.

(** ** Integer multiples *)

Definition pmul (n : positive) P : G := Pos.iter (gadd P) gzero n.

Definition smul (n : Z) P : G :=
  match n with
  | Z0 => gzero
  | Zpos k => pmul k P
  | Zneg k => gopp (pmul k P)
  end.

Lemma pmul_succ (n : positive) P : pmul (Pos.succ n) P = P ⊕ pmul n P.
Proof. unfold pmul. apply Pos.iter_succ. Qed.

Lemma smul_succ (n : Z) P : smul (n + 1) P = P ⊕ smul n P.
Proof.
  destruct n as [| n | n].
  - reflexivity.
  - change (Z.pos n + 1) with (Z.pos (n + 1)). rewrite Pos.add_1_r. apply pmul_succ.
  - destruct (Pos.eq_dec n 1) as [-> | Hn].
    + cbn. now rewrite gadd_0_r, gadd_opp_r.
    + rewrite <- (Pos.succ_pred n Hn) at 2.
      replace (Z.neg n + 1) with (Z.neg (Pos.pred n)) by lia. cbn [smul].
      rewrite pmul_succ, gopp_add, gadd_assoc, gadd_opp_r, gadd_0_l. reflexivity.
Qed.

Lemma smul_pred (n : Z) P : smul (n - 1) P = gopp P ⊕ smul n P.
Proof.
  replace n with (n - 1 + 1) at 2 by lia.
  now rewrite smul_succ, gadd_assoc, gadd_opp_l, gadd_0_l.
Qed.

Lemma smul_0 P : smul 0 P = gzero.
Proof. reflexivity. Qed.

Lemma smul_1 P : smul 1 P = P.
Proof. apply gadd_0_r. Qed.

Lemma smul_add (n m : Z) P : smul (n + m) P = smul n P ⊕ smul m P.
Proof.
  revert n. apply Z.bi_induction; [intros ? ? ->; reflexivity | |].
  - now rewrite Z.add_0_l, smul_0, gadd_0_l.
  - intros n. replace (Z.succ n + m) with (n + m + 1) by lia. change (Z.succ n) with (n + 1).
    rewrite !smul_succ, <- gadd_assoc. split; [now intros -> |]. apply gadd_cancel_l.
Qed.

Lemma smul_opp (n : Z) P : smul (- n) P = gopp (smul n P).
Proof.
  apply gopp_unique. rewrite <- smul_add. now replace (n + - n) with 0 by lia.
Qed.

Lemma smul_gadd (n : Z) P Q : smul n (P ⊕ Q) = smul n P ⊕ smul n Q.
Proof.
  revert n. apply Z.bi_induction; [intros ? ? ->; reflexivity | |].
  - cbn. now rewrite gadd_0_l.
  - intros n. change (Z.succ n) with (n + 1). rewrite !smul_succ, gadd_shuffle.
    split; [now intros -> |]. apply gadd_cancel_l.
Qed.

Lemma smul_zero (n : Z) : smul n gzero = gzero.
Proof. apply (gadd_cancel_l (smul n gzero)). now rewrite <- smul_gadd, gadd_0_l, gadd_0_r. Qed.

Lemma smul_mul (n m : Z) P : smul (n * m) P = smul n (smul m P).
Proof.
  revert n. apply Z.bi_induction; [intros ? ? ->; reflexivity | |].
  - reflexivity.
  - intros n. replace (Z.succ n * m) with (m + n * m) by lia. change (Z.succ n) with (n + 1).
    rewrite smul_succ, smul_add. split; [now intros -> |]. apply gadd_cancel_l.
Qed.

Lemma smul_gopp (n : Z) P : smul n (gopp P) = smul (- n) P.
Proof.
  rewrite smul_opp. apply gopp_unique. rewrite <- smul_gadd, gadd_opp_r. apply smul_zero.
Qed.

Lemma smul_2 P : smul 2 P = P ⊕ P.
Proof. change 2 with (1 + 1). now rewrite smul_add, smul_1. Qed.

(** Multiples only depend on the scalar modulo an annihilator. *)
Lemma smul_mod (L n : Z) P : smul L P = gzero -> L <> 0 -> smul (n mod L) P = smul n P.
Proof.
  intros HL HL0. rewrite (Z.div_mod n L HL0) at 2.
  rewrite smul_add, Z.mul_comm, smul_mul, HL, smul_zero. now rewrite gadd_0_l.
Qed.

(** The step of a left-to-right loop over digits. *)
Lemma smul_horner (n b x : Z) P : smul (x + b * n) P = smul b (smul n P) ⊕ smul x P.
Proof. now rewrite smul_add, smul_mul, gadd_comm. Qed.

End Laws.

#[export] Hint Rewrite @gadd_0_l @gadd_0_r @gadd_opp_l @gadd_opp_r @gopp_zero @gopp_opp
  @smul_0 @smul_1 @smul_zero : group.
