(* ===== verification/Edwards.v ===== *)
(** * The twisted Edwards curve -x^2 + y^2 = 1 + d x^2 y^2

    The group the signature code computes in.  Over a prime field in which -1
    is a square and [d] is not, the addition law has no exceptional cases:
    [denominators] shows that neither denominator is ever zero, [add_on_curve]
    that the sum is on the curve, and [edwards_group] that the points form an
    abelian group.  The polynomial identities behind closure and
    associativity are decided by [ring] modulo the curve equations. *)

From Stdlib Require Import ZArith Lia Bool Eqdep_dec Field Zmod.
From S2P Require Import Prelude Group.
Open Scope Z_scope.

Declare Scope field_scope.
Delimit Scope field_scope with F.

Module Edwards.

Section Curve.

Context (m : Z) (Hm : Z.prime m).

Notation F := (Zmod m).
Local Notation "0" := (@Zmod.zero m) : field_scope.
Local Notation "1" := (@Zmod.one m) : field_scope.
Local Infix "+" := (@Zmod.add m) : field_scope.
Local Infix "*" := (@Zmod.mul m) : field_scope.
Local Infix "-" := (@Zmod.sub m) : field_scope.
Local Infix "/" := (@Zmod.mdiv m) : field_scope.
Local Notation "- x" := (@Zmod.opp m x) : field_scope.
Open Scope field_scope.

Add Field curve_field : (Zmod.field_theory m Hm).

Context (d i : F) (Hi : i * i = - (1)) (H2 : 1 + 1 <> 0) (Hd : forall x, x * x <> d).

Lemma field_mul_nz (a b : F) : a <> 0 -> b <> 0 -> a * b <> 0.
Proof. intros Ha Hb H. apply (Zmod.mul_0_iff_prime Hm) in H. tauto. Qed.

Lemma eq_nz (a b : F) : a <> b -> a - b <> 0.
Proof. intros H E. apply H. replace a with ((a - b) + b) by ring. rewrite E. ring. Qed.

Lemma frac_eq (a b c e : F) : b <> 0 -> e <> 0 -> a * e = c * b -> a / b = c / e.
Proof.
  intros Hb He H. transitivity (a * e / (b * e)); [field; auto |]. rewrite H. field; auto.
Qed.

(** ** The curve and its addition law *)

Definition on_curve (x y : F) : Prop := d * (x * x) * (y * y) = y * y - x * x - 1.

Definition on_curveb (x y : F) : bool := Zmod.eqb (d * (x * x) * (y * y)) (y * y - x * x - 1).

Lemma on_curveb_spec (x y : F) : on_curveb x y = true <-> on_curve x y.
Proof. apply Zmod.eqb_eq. Qed.

Definition add_x (x1 y1 x2 y2 : F) : F := (x1 * y2 + x2 * y1) / (1 + d * x1 * x2 * y1 * y2).
Definition add_y (x1 y1 x2 y2 : F) : F := (y1 * y2 + x1 * x2) / (1 - d * x1 * x2 * y1 * y2).

(** If [d x1 x2 y1 y2] squared to 1, [d] would be a quotient of squares. *)
Lemma square_quotient (x1 y1 x2 y2 j : F) :
  on_curve x1 y1 -> on_curve x2 y2 -> j * j = - (1) ->
  (d * x1 * x2 * y1 * y2) * (d * x1 * x2 * y1 * y2) = 1 ->
  x1 * y1 <> 0 -> j * x2 + y2 = 0.
Proof.
  intros C1 C2 Hj Hdl Hxy. set (e := d * x1 * x2 * y1 * y2) in *.
  destruct (Zmod.eqb_spec (j * x2 + y2) 0) as [H | H]; [exact H | exfalso].
  apply (Hd ((j * x1 + e * y1) / (x1 * y1 * (j * x2 + y2)))).
  assert (E : (j * x1 + e * y1) * (j * x1 + e * y1) =
              d * ((x1 * y1 * (j * x2 + y2)) * (x1 * y1 * (j * x2 + y2)))).
  { transitivity (j * j * (x1 * x1) + e * e * (y1 * y1) + (1 + 1) * j * e * (x1 * y1)); [ring |].
    transitivity (d * (x1 * x1) * (y1 * y1) * (j * j * (x2 * x2) + y2 * y2)
                  + (1 + 1) * j * (d * x1 * x2 * y1 * y2) * (x1 * y1)); [| ring].
    fold e. rewrite Hj, Hdl. f_equal.
    transitivity (d * (x1 * x1) * (y1 * y1) * (1 + d * (x2 * x2) * (y2 * y2))).
    - transitivity (d * (x1 * x1) * (y1 * y1) + e * e); [| unfold e; ring].
      rewrite Hdl, C1. ring.
    - rewrite C2. ring. }
  transitivity ((j * x1 + e * y1) * (j * x1 + e * y1)
                / ((x1 * y1 * (j * x2 + y2)) * (x1 * y1 * (j * x2 + y2)))).
  - field. repeat split; auto; intros Z; apply Hxy; rewrite Z; ring.
  - rewrite E. field. repeat split; auto; intros Z; apply Hxy; rewrite Z; ring.
Qed.

Lemma product_not_unit (x1 y1 x2 y2 : F) :
  on_curve x1 y1 -> on_curve x2 y2 ->
  (d * x1 * x2 * y1 * y2) * (d * x1 * x2 * y1 * y2) <> 1.
Proof.
  intros C1 C2 Hdl.
  assert (H01 : 1 <> 0) by (apply Zmod.one_neq_zero; pose proof (Z.prime_ge_2 _ Hm); lia).
  assert (Hxy : x1 * y1 <> 0).
  { intros Z. apply H01. rewrite <- Hdl.
    replace (d * x1 * x2 * y1 * y2) with (x1 * y1 * (d * x2 * y2)) by ring. rewrite Z. ring. }
  pose proof (square_quotient x1 y1 x2 y2 i C1 C2 Hi Hdl Hxy) as Ep.
  pose proof (square_quotient x1 y1 x2 y2 (- i) C1 C2 ltac:(rewrite <- Hi; ring) Hdl Hxy) as Em.
  assert (Hy : (1 + 1) * y2 = 0).
  { transitivity ((i * x2 + y2) + (- i * x2 + y2)); [ring |]. rewrite Ep, Em. ring. }
  apply (Zmod.mul_0_iff_prime Hm) in Hy. destruct Hy as [Hy | Hy]; [now apply H2 |].
  apply H01. rewrite <- Hdl, Hy. ring.
Qed.

(** The addition law is complete. *)
Lemma denominators (x1 y1 x2 y2 : F) :
  on_curve x1 y1 -> on_curve x2 y2 ->
  1 + d * x1 * x2 * y1 * y2 <> 0 /\ 1 - d * x1 * x2 * y1 * y2 <> 0.
Proof.
  intros C1 C2. pose proof (product_not_unit _ _ _ _ C1 C2) as H.
  split; intros Z; apply H; clear H; set (e := d * x1 * x2 * y1 * y2) in *.
  - transitivity ((1 + e) * (e - 1) + 1); [ring |]. rewrite Z. ring.
  - transitivity (1 - (1 - e) * (1 + e)); [ring |]. rewrite Z. ring.
Qed.

Lemma on_curve_frac (a b c e : F) :
  b <> 0 -> e <> 0 ->
  d * (a * a) * (c * c) = c * c * (b * b) - a * a * (e * e) - b * b * (e * e) ->
  on_curve (a / b) (c / e).
Proof.
  intros Hb He H. unfold on_curve.
  transitivity (d * (a * a) * (c * c) / (b * b * (e * e))); [field; auto |].
  rewrite H. field. auto.
Qed.

Lemma add_on_curve (x1 y1 x2 y2 : F) :
  on_curve x1 y1 -> on_curve x2 y2 -> on_curve (add_x x1 y1 x2 y2) (add_y x1 y1 x2 y2).
Proof.
  intros C1 C2. destruct (denominators _ _ _ _ C1 C2) as [Dp Dm].
  apply on_curve_frac; auto. unfold on_curve in C1, C2. ring [C1 C2].
Qed.

(** ** Associativity, on the coordinates *)

(** A sum whose left summand is the pair of fractions (a/b, c/e). *)
Lemma add_frac (a b c e x y : F) :
  b <> 0 -> e <> 0 ->
  1 + d * (a / b) * x * (c / e) * y = (b * e + d * a * c * x * y) / (b * e) /\
  1 - d * (a / b) * x * (c / e) * y = (b * e - d * a * c * x * y) / (b * e).
Proof. intros Hb He. split; field; auto. Qed.

Lemma add_x_frac (a b c e x y : F) :
  b <> 0 -> e <> 0 -> 1 + d * (a / b) * x * (c / e) * y <> 0 ->
  add_x (a / b) (c / e) x y = (a * e * y + c * b * x) / (b * e + d * a * c * x * y) /\
  b * e + d * a * c * x * y <> 0.
Proof.
  intros Hb He H. destruct (add_frac a b c e x y Hb He) as [Ep _]. rewrite Ep in H.
  assert (Hn : b * e + d * a * c * x * y <> 0) by (intros Z; apply H; rewrite Z; field; auto).
  split; [| exact Hn]. unfold add_x. rewrite Ep. field. repeat split; auto.
Qed.

Lemma add_y_frac (a b c e x y : F) :
  b <> 0 -> e <> 0 -> 1 - d * (a / b) * x * (c / e) * y <> 0 ->
  add_y (a / b) (c / e) x y = (c * b * y + a * e * x) / (b * e - d * a * c * x * y) /\
  b * e - d * a * c * x * y <> 0.
Proof.
  intros Hb He H. destruct (add_frac a b c e x y Hb He) as [_ Em]. rewrite Em in H.
  assert (Hn : b * e - d * a * c * x * y <> 0) by (intros Z; apply H; rewrite Z; field; auto).
  split; [| exact Hn]. unfold add_y. rewrite Em. field. repeat split; auto.
Qed.

Lemma add_x_comm (x1 y1 x2 y2 : F) : add_x x1 y1 x2 y2 = add_x x2 y2 x1 y1.
Proof. unfold add_x. f_equal; ring. Qed.

Lemma add_y_comm (x1 y1 x2 y2 : F) : add_y x1 y1 x2 y2 = add_y x2 y2 x1 y1.
Proof. unfold add_y. f_equal; ring. Qed.

Lemma add_assoc_coordinates (x1 y1 x2 y2 x3 y3 : F) :
  on_curve x1 y1 -> on_curve x2 y2 -> on_curve x3 y3 ->
  add_x (add_x x1 y1 x2 y2) (add_y x1 y1 x2 y2) x3 y3 =
    add_x x1 y1 (add_x x2 y2 x3 y3) (add_y x2 y2 x3 y3) /\
  add_y (add_x x1 y1 x2 y2) (add_y x1 y1 x2 y2) x3 y3 =
    add_y x1 y1 (add_x x2 y2 x3 y3) (add_y x2 y2 x3 y3).
Proof.
  intros C1 C2 C3.
  destruct (denominators _ _ _ _ C1 C2) as [Dp Dm]. destruct (denominators _ _ _ _ C2 C3) as [Ep Em].
  destruct (denominators _ _ _ _ (add_on_curve _ _ _ _ C1 C2) C3) as [Lp Lm].
  destruct (denominators _ _ _ _ (add_on_curve _ _ _ _ C2 C3) C1) as [Rp Rm].
  rewrite (add_x_comm x1 y1 (add_x _ _ _ _)), (add_y_comm x1 y1 (add_x _ _ _ _)).
  destruct (add_x_frac _ _ _ _ _ _ Dp Dm Lp) as [Elx Nlx].
  destruct (add_y_frac _ _ _ _ _ _ Dp Dm Lm) as [Ely Nly].
  destruct (add_x_frac _ _ _ _ _ _ Ep Em Rp) as [Erx Nrx].
  destruct (add_y_frac _ _ _ _ _ _ Ep Em Rm) as [Ery Nry].
  unfold on_curve in *. split.
  - etransitivity; [exact Elx |]. etransitivity; [| symmetry; exact Erx].
    apply frac_eq; auto. ring [C1 C3 C2].
  - etransitivity; [exact Ely |]. etransitivity; [| symmetry; exact Ery].
    apply frac_eq; auto. ring [C1 C3 C2].
Qed.

(** ** Points *)

Record point := Point { px : F; py : F; pok : on_curveb px py = true }.

Lemma point_ext (P Q : point) : px P = px Q -> py P = py Q -> P = Q.
Proof.
  destruct P as [x y H], Q as [x' y' H']. cbn. intros <- <-. f_equal.
  apply UIP_dec, bool_dec.
Qed.

Lemma on_point (P : point) : on_curve (px P) (py P).
Proof. apply on_curveb_spec, pok. Qed.

Lemma zero_on_curve : on_curveb 0 1 = true.
Proof. apply on_curveb_spec. unfold on_curve. ring. Qed.

Lemma opp_on_curve (P : point) : on_curveb (- px P) (py P) = true.
Proof. apply on_curveb_spec. pose proof (on_point P) as H. unfold on_curve in *. ring [H]. Qed.

Definition zero : point := Point 0 1 zero_on_curve.
Definition opp (P : point) : point := Point (- px P) (py P) (opp_on_curve P).
Definition add (P Q : point) : point :=
  Point (add_x (px P) (py P) (px Q) (py Q)) (add_y (px P) (py P) (px Q) (py Q))
    (proj2 (on_curveb_spec _ _) (add_on_curve _ _ _ _ (on_point P) (on_point Q))).

Lemma add_assoc (P Q R : point) : add P (add Q R) = add (add P Q) R.
Proof.
  destruct (add_assoc_coordinates _ _ _ _ _ _ (on_point P) (on_point Q) (on_point R)) as [Ex Ey].
  apply point_ext; symmetry; [exact Ex | exact Ey].
Qed.

Lemma add_comm (P Q : point) : add P Q = add Q P.
Proof. apply point_ext; [apply add_x_comm | apply add_y_comm]. Qed.

Lemma add_zero (P : point) : add zero P = P.
Proof. apply point_ext; cbn; unfold add_x, add_y; field; apply Zmod.one_neq_zero; pose proof (Z.prime_ge_2 _ Hm); lia. Qed.

Lemma add_opp (P : point) : add P (opp P) = zero.
Proof.
  destruct (denominators _ _ _ _ (on_point P) (on_point (opp P))) as [Dp Dm].
  pose proof (on_point P) as C. unfold on_curve in C. cbn in *.
  apply point_ext; cbn; unfold add_x, add_y.
  - field. exact Dp.
  - transitivity ((1 - d * px P * - px P * py P * py P) / (1 - d * px P * - px P * py P * py P)).
    + f_equal. transitivity (1 + d * (px P * px P) * (py P * py P)); [rewrite C; ring | ring].
    + field. exact Dm.
Qed.

#[export] Instance edwards_group : AbGroup point := {|
  gadd := add; gzero := zero; gopp := opp;
  gadd_assoc := add_assoc; gadd_comm := add_comm; gadd_0_l := add_zero; gadd_opp_r := add_opp |}.

(** A sum without divisions: coordinates that satisfy the law's equations. *)
Lemma add_unique (P Q : point) (x y : F) :
  let e := d * px P * px Q * py P * py Q in
  x * (1 + e) = px P * py Q + px Q * py P ->
  y * (1 - e) = py P * py Q + px P * px Q -> px (add P Q) = x /\ py (add P Q) = y.
Proof.
  intros e Hx Hy. destruct (denominators _ _ _ _ (on_point P) (on_point Q)) as [Dp Dm].
  fold e in Dp, Dm. cbn. unfold add_x, add_y. fold e. split.
  - rewrite <- Hx. field. exact Dp.
  - rewrite <- Hy. field. exact Dm.
Qed.

End Curve.
End Edwards.
