(* ===== verification/Ge25519.v ===== *)
(** * Points of the curve: ed25519-donna-impl-base.h

    The four representations of a point (extended, completed, and the two
    precomputed forms), the conversions between them and every addition and
    doubling routine, on the limbs of [Fe64].  Each representation is related
    to a point of the group of [Edwards] by a predicate that also bounds the
    limbs, and each routine is proved to compute the sum, the difference or
    the double in the group with no overflow on the way. *)

From Stdlib Require Import ZArith List Lia Bool Field Zmod.
Import ListNotations.
From S2P Require Import Prelude Portable Fe64 Prime Group Edwards.
Open Scope Z_scope.
Open Scope word_scope.

Module Ge.

Import Donna64.

(** ** Representations (ed25519-donna.h) *)

Record ge25519 := mk_ge { x : bignum25519; y : bignum25519; z : bignum25519; t : bignum25519 }.

Record ge25519_p1p1 := mk_p1p1
  { p1_x : bignum25519; p1_y : bignum25519; p1_z : bignum25519; p1_t : bignum25519 }.

Record ge25519_niels := mk_niels { ysubx : bignum25519; xaddy : bignum25519; t2d : bignum25519 }.

Record ge25519_pniels := mk_pniels
  { p_ysubx : bignum25519; p_xaddy : bignum25519; p_z : bignum25519; p_t2d : bignum25519 }.

(** ** Constants (ed25519-donna-64bit-tables.h) *)

Definition ge25519_basepoint : ge25519 := mk_ge
  (bn 0x00062d608f25d51a 0x000412a4b4f6592a 0x00075b7171a4b31d 0x0001ff60527118fe 0x000216936d3cd6e5)
  (bn 0x0006666666666658 0x0004cccccccccccc 0x0001999999999999 0x0003333333333333 0x0006666666666666)
  (bn 0x0000000000000001 0x0000000000000000 0x0000000000000000 0x0000000000000000 0x0000000000000000)
  (bn 0x00068ab3a5b7dda3 0x00000eea2a5eadbb 0x0002af8df483c27e 0x000332b375274732 0x00067875f0fd78b7).

Definition ge25519_ecd : bignum25519 :=
  bn 0x00034dca135978a3 0x0001a8283b156ebd 0x0005e7a26001c029 0x000739c663a03cbb 0x00052036cee2b6ff.

Definition ge25519_ec2d : bignum25519 :=
  bn 0x00069b9426b2f159 0x00035050762add7a 0x0003cf44c0038052 0x0006738cc7407977 0x0002406d9dc56dff.

Definition ge25519_sqrtneg1 : bignum25519 :=
  bn 0x00061b274a0ea0b0 0x0000d5a5fc8f189d 0x0007ef5e9cbd0c60 0x00078595a6804c9e 0x0002b8324804fc1d.

(** ** Conversions *)

Definition ge25519_p1p1_to_partial (r : ge25519) (p : ge25519_p1p1) : ge25519 :=
  mk_ge (curve25519_mul (p1_x p) (p1_t p)) (curve25519_mul (p1_y p) (p1_z p))
        (curve25519_mul (p1_z p) (p1_t p)) (t r).

Definition ge25519_p1p1_to_full (p : ge25519_p1p1) : ge25519 :=
  mk_ge (curve25519_mul (p1_x p) (p1_t p)) (curve25519_mul (p1_y p) (p1_z p))
        (curve25519_mul (p1_z p) (p1_t p)) (curve25519_mul (p1_x p) (p1_y p)).

Definition ge25519_full_to_pniels (r : ge25519) : ge25519_pniels :=
  mk_pniels (curve25519_sub (y r) (x r)) (curve25519_add (y r) (x r))
            (curve25519_copy (z r)) (curve25519_mul (t r) ge25519_ec2d).

(** ** Adding and doubling *)

Definition ge25519_add_p1p1 (p q : ge25519) : ge25519_p1p1 :=
  let a := curve25519_sub (y p) (x p) in
  let b := curve25519_add (y p) (x p) in
  let t' := curve25519_sub (y q) (x q) in
  let u := curve25519_add (y q) (x q) in
  let a := curve25519_mul a t' in
  let b := curve25519_mul b u in
  let c := curve25519_mul (t p) (t q) in
  let c := curve25519_mul c ge25519_ec2d in
  let d := curve25519_mul (z p) (z q) in
  let d := curve25519_add d d in
  mk_p1p1 (curve25519_sub b a) (curve25519_add b a)
          (curve25519_add_after_basic d c) (curve25519_sub_after_basic d c).

Definition ge25519_double_p1p1 (p : ge25519) : ge25519_p1p1 :=
  let a := curve25519_square (x p) in
  let b := curve25519_square (y p) in
  let c := curve25519_square (z p) in
  let c := curve25519_add_reduce c c in
  let rx := curve25519_add (x p) (y p) in
  let rx := curve25519_square rx in
  let ry := curve25519_add b a in
  let rz := curve25519_sub b a in
  let rx := curve25519_sub_after_basic rx ry in
  let rt := curve25519_sub_after_basic c rz in
  mk_p1p1 rx ry rz rt.

(** The arrays of field elements the two sign-dependent additions index. *)
Definition qb_niels (q : ge25519_niels) (k : Z) : bignum25519 :=
  if k =? 0 then ysubx q else if k =? 1 then xaddy q else t2d q.

Definition qb_pniels (q : ge25519_pniels) (k : Z) : bignum25519 :=
  if k =? 0 then p_ysubx q else if k =? 1 then p_xaddy q else if k =? 2 then p_z q else p_t2d q.

Definition rb (r : ge25519_p1p1) (k : Z) : bignum25519 :=
  if k =? 0 then p1_x r else if k =? 1 then p1_y r else if k =? 2 then p1_z r else p1_t r.

Definition set_rb (r : ge25519_p1p1) (k : Z) (v : bignum25519) : ge25519_p1p1 :=
  if k =? 0 then mk_p1p1 v (p1_y r) (p1_z r) (p1_t r)
  else if k =? 1 then mk_p1p1 (p1_x r) v (p1_z r) (p1_t r)
  else if k =? 2 then mk_p1p1 (p1_x r) (p1_y r) v (p1_t r)
  else mk_p1p1 (p1_x r) (p1_y r) (p1_z r) v.

Definition ge25519_nielsadd2_p1p1 (p : ge25519) (q : ge25519_niels) (signbit : Z) : ge25519_p1p1 :=
  let a := curve25519_sub (y p) (x p) in
  let b := curve25519_add (y p) (x p) in
  let a := curve25519_mul a (qb_niels q signbit) in
  let rx := curve25519_mul b (qb_niels q (signbit ^u 1)) in
  let ry := curve25519_add rx a in
  let rx := curve25519_sub rx a in
  let c := curve25519_mul (t p) (t2d q) in
  let rt := curve25519_add_reduce (z p) (z p) in
  let rz := curve25519_copy rt in
  let r := mk_p1p1 rx ry rz rt in
  let r := set_rb r (2 + signbit) (curve25519_add (rb r (2 + signbit)) c) in
  set_rb r (2 + (signbit ^u 1)) (curve25519_sub (rb r (2 + (signbit ^u 1))) c).

Definition ge25519_pnielsadd_p1p1 (p : ge25519) (q : ge25519_pniels) (signbit : Z) : ge25519_p1p1 :=
  let a := curve25519_sub (y p) (x p) in
  let b := curve25519_add (y p) (x p) in
  let a := curve25519_mul a (qb_pniels q signbit) in
  let rx := curve25519_mul b (qb_pniels q (signbit ^u 1)) in
  let ry := curve25519_add rx a in
  let rx := curve25519_sub rx a in
  let c := curve25519_mul (t p) (p_t2d q) in
  let rt := curve25519_mul (z p) (p_z q) in
  let rt := curve25519_add_reduce rt rt in
  let rz := curve25519_copy rt in
  let r := mk_p1p1 rx ry rz rt in
  let r := set_rb r (2 + signbit) (curve25519_add (rb r (2 + signbit)) c) in
  set_rb r (2 + (signbit ^u 1)) (curve25519_sub (rb r (2 + (signbit ^u 1))) c).

Definition ge25519_double_partial (r p : ge25519) : ge25519 :=
  ge25519_p1p1_to_partial r (ge25519_double_p1p1 p).

Definition ge25519_double (p : ge25519) : ge25519 :=
  ge25519_p1p1_to_full (ge25519_double_p1p1 p).

Definition ge25519_add (p q : ge25519) : ge25519 :=
  ge25519_p1p1_to_full (ge25519_add_p1p1 p q).

Definition ge25519_nielsadd2 (r : ge25519) (q : ge25519_niels) : ge25519 :=
  let a := curve25519_sub (y r) (x r) in
  let b := curve25519_add (y r) (x r) in
  let a := curve25519_mul a (ysubx q) in
  let e := curve25519_mul b (xaddy q) in
  let h := curve25519_add e a in
  let e := curve25519_sub e a in
  let c := curve25519_mul (t r) (t2d q) in
  let f := curve25519_add (z r) (z r) in
  let g := curve25519_add_after_basic f c in
  let f := curve25519_sub_after_basic f c in
  mk_ge (curve25519_mul e f) (curve25519_mul h g) (curve25519_mul g f) (curve25519_mul e h).

Definition ge25519_pnielsadd (p : ge25519) (q : ge25519_pniels) : ge25519_pniels :=
  let a := curve25519_sub (y p) (x p) in
  let b := curve25519_add (y p) (x p) in
  let a := curve25519_mul a (p_ysubx q) in
  let x' := curve25519_mul b (p_xaddy q) in
  let y' := curve25519_add x' a in
  let x' := curve25519_sub x' a in
  let c := curve25519_mul (t p) (p_t2d q) in
  let t' := curve25519_mul (z p) (p_z q) in
  let t' := curve25519_add t' t' in
  let z' := curve25519_add_after_basic t' c in
  let t' := curve25519_sub_after_basic t' c in
  let r_xaddy := curve25519_mul x' t' in
  let r_ysubx := curve25519_mul y' z' in
  let r_z := curve25519_mul z' t' in
  let r_t2d := curve25519_mul x' y' in
  let y' := curve25519_copy r_ysubx in
  let r_ysubx := curve25519_sub r_ysubx r_xaddy in
  let r_xaddy := curve25519_add r_xaddy y' in
  let r_t2d := curve25519_mul r_t2d ge25519_ec2d in
  mk_pniels r_ysubx r_xaddy r_z r_t2d.

(** ** The field and the curve of the code *)

Notation F := (Zmod p).
Notation "0" := (@Zmod.zero p) : field_scope.
Notation "1" := (@Zmod.one p) : field_scope.
Notation "2" := (Zmod.add (@Zmod.one p) (@Zmod.one p)) : field_scope.
Infix "+" := (@Zmod.add p) : field_scope.
Infix "*" := (@Zmod.mul p) : field_scope.
Infix "-" := (@Zmod.sub p) : field_scope.
Infix "/" := (@Zmod.mdiv p) : field_scope.
Notation "- x" := (@Zmod.opp p x) : field_scope.

(** The field element an integer, or a limbed number, stands for. *)
Definition fe (v : Z) : F := Zmod.of_Z p v.
Definition el (b : bignum25519) : F := fe (val b).

Lemma fe_feq (v w : Z) : feq v w <-> fe v = fe w.
Proof. symmetry. apply Zmod.of_Z_inj. Qed.

Definition d : F := el ge25519_ecd.
Definition i : F := el ge25519_sqrtneg1.

Add Field fe_field : (Zmod.field_theory p Pocklington.p_prime).

Lemma p_ge_2 : 2 <= p.
Proof. apply Z.prime_ge_2, Pocklington.p_prime. Qed.

Lemma one_nz : (1 <> 0)%F.
Proof. apply Zmod.one_neq_zero. pose proof p_ge_2. lia. Qed.

Lemma two_nz : (2 <> 0)%F.
Proof. intros H. apply (f_equal Zmod.to_Z) in H. vm_compute in H. discriminate. Qed.

Lemma i_square : (i * i = - (1))%F.
Proof. apply Zmod.unsigned_inj. vm_compute. reflexivity. Qed.

Lemma ec2d_spec : el ge25519_ec2d = (2 * d)%F.
Proof. apply Zmod.unsigned_inj. vm_compute. reflexivity. Qed.

(** d = -121665/121666, as the comment of ed25519-donna.h says. *)
Lemma d_value : (d * fe 121666 = - fe 121665)%F.
Proof. apply Zmod.unsigned_inj. vm_compute. reflexivity. Qed.

(** Euler's criterion: [d] has no square root. *)
Lemma d_nonsquare (v : F) : (v * v)%F <> d.
Proof.
  intros H.
  assert (E : Zmod.to_Z d ^ ((p - 1) / 2) mod p = p - 1).
  { replace ((p - 1) / 2) with (Z.pos (Z.to_pos ((p - 1) / 2))) by (vm_compute; reflexivity).
    rewrite <- Big.powmod_spec. vm_compute. reflexivity. }
  rewrite <- H, Zmod.to_Z_mul in E. pose proof p_ge_2.
  rewrite Z.mod_pow_l, <- Z.pow_2_r, <- Z.pow_mul_r in E by (vm_compute; discriminate).
  assert (Hv : Zmod.to_Z v mod p <> 0).
  { rewrite Zmod.mod_to_Z. intros Z. apply Zmod.unsigned_0_iff in Z. subst v.
    apply (f_equal Zmod.to_Z) in H. vm_compute in H. discriminate. }
  pose proof (Z.fermat_nz p (Zmod.to_Z v) Pocklington.p_prime Hv) as Hf.
  replace (2 * ((p - 1) / 2)) with (p - 1) in E by (vm_compute; reflexivity).
  rewrite Hf in E. vm_compute in E. discriminate.
Qed.

Notation point := (Edwards.point p d).
Notation px := (Edwards.px p d).
Notation py := (Edwards.py p d).

#[export] Instance curve_group : AbGroup point :=
  Edwards.edwards_group p Pocklington.p_prime d i i_square two_nz d_nonsquare.

(** ** Field operations as operations of the field *)

Section FieldOps.
Context (n m : Z) (a b : bignum25519) (Ha : limbs_lt n a) (Hb : limbs_lt m b).

Lemma el_add : n <= 2 ^ 58 -> m <= 2 ^ 58 ->
  limbs_lt (n + m) (curve25519_add a b) /\ el (curve25519_add a b) = (el a + el b)%F.
Proof.
  intros Hn Hm. unfold el, fe. rewrite <- Zmod.of_Z_add. unfold curve25519_add, add64.
  destruct a, b. unfold limbs_lt, val in *. cbn [l0 l1 l2 l3 l4] in *.
  rewrite !u64_small by lia. split; [lia | f_equal; lia].
Qed.

Lemma el_sub : n <= 2 ^ 58 -> m <= 2 ^ 51 + 2 ^ 18 ->
  limbs_lt (n + 2 ^ 52) (curve25519_sub a b) /\ el (curve25519_sub a b) = (el a - el b)%F.
Proof.
  intros Hn Hm. destruct (sub_spec n a b ltac:(lia) Ha (limbs_lt_le _ _ _ Hm Hb)) as [Hl Hv].
  split; [exact Hl |]. unfold el, fe. rewrite <- Zmod.of_Z_sub. now apply fe_feq.
Qed.

Lemma el_sub_after_basic : n <= 2 ^ 58 -> m <= 2 ^ 53 - 76 ->
  limbs_lt (n + 2 ^ 53) (curve25519_sub_after_basic a b) /\
  el (curve25519_sub_after_basic a b) = (el a - el b)%F.
Proof.
  intros Hn Hm.
  destruct (sub_after_basic_spec n a b ltac:(lia) Ha (limbs_lt_le _ _ _ Hm Hb)) as [Hl Hv].
  split; [exact Hl |]. unfold el, fe. rewrite <- Zmod.of_Z_sub. now apply fe_feq.
Qed.

Lemma el_add_reduce : n <= 2 ^ 60 -> m <= 2 ^ 60 ->
  limbs_lt (2 ^ 51 + 2 ^ 18) (curve25519_add_reduce a b) /\
  el (curve25519_add_reduce a b) = (el a + el b)%F.
Proof.
  intros Hn Hm.
  destruct (add_reduce_spec a b (limbs_lt_le _ _ _ Hn Ha) (limbs_lt_le _ _ _ Hm Hb)) as [Hl Hv].
  split; [exact Hl |]. unfold el, fe. rewrite <- Zmod.of_Z_add. now apply fe_feq.
Qed.

Lemma el_sub_reduce : n <= 2 ^ 60 -> m <= 2 ^ 53 - 76 ->
  limbs_lt (2 ^ 51 + 2 ^ 18) (curve25519_sub_reduce a b) /\
  el (curve25519_sub_reduce a b) = (el a - el b)%F.
Proof.
  intros Hn Hm.
  destruct (sub_reduce_spec a b (limbs_lt_le _ _ _ Hn Ha) (limbs_lt_le _ _ _ Hm Hb)) as [Hl Hv].
  split; [exact Hl |]. unfold el, fe. rewrite <- Zmod.of_Z_sub. now apply fe_feq.
Qed.

Lemma el_mul : n <= 2 ^ 54 -> m <= 2 ^ 54 ->
  limbs_lt (2 ^ 51 + 2 ^ 18) (curve25519_mul a b) /\ el (curve25519_mul a b) = (el a * el b)%F.
Proof.
  intros Hn Hm.
  destruct (mul_spec a b (limbs_lt_le _ _ _ Hn Ha) (limbs_lt_le _ _ _ Hm Hb)) as [Hl Hv].
  split; [exact Hl |]. unfold el, fe. rewrite <- Zmod.of_Z_mul. now apply fe_feq.
Qed.

Lemma el_square : n <= 2 ^ 54 ->
  limbs_lt (2 ^ 51 + 2 ^ 18) (curve25519_square a) /\ el (curve25519_square a) = (el a * el a)%F.
Proof.
  intros Hn. destruct (square_spec a (limbs_lt_le _ _ _ Hn Ha)) as [Hl Hv].
  split; [exact Hl |]. unfold el, fe. rewrite <- Zmod.of_Z_mul. now apply fe_feq.
Qed.

Lemma el_neg : n <= 2 ^ 51 + 2 ^ 18 ->
  limbs_lt (2 ^ 51 + 2 ^ 18) (curve25519_neg a) /\ el (curve25519_neg a) = (- el a)%F.
Proof.
  intros Hn. destruct (neg_spec a (limbs_lt_le _ _ _ Hn Ha)) as [Hl Hv].
  split; [exact Hl |]. unfold el, fe. rewrite <- Zmod.of_Z_opp. now apply fe_feq.
Qed.

End FieldOps.

Lemma copy_id (a : bignum25519) : curve25519_copy a = a.
Proof. now destruct a. Qed.

Lemma ec2d_tight : limbs_lt (2 ^ 51) ge25519_ec2d.
Proof. unfold limbs_lt, ge25519_ec2d. cbn [l0 l1 l2 l3 l4]. lia. Qed.

Lemma ecd_tight : limbs_lt (2 ^ 51) ge25519_ecd.
Proof. unfold limbs_lt, ge25519_ecd. cbn [l0 l1 l2 l3 l4]. lia. Qed.

(** One operation on operands whose bounds are known: its result becomes a
    variable with a bound and a value. *)
Ltac fe_le := clear; lia.

Ltac fe_name r :=
  let v := fresh "r" in set (v := r) in *; clearbody v.

Ltac bound_of a := match goal with H : limbs_lt _ a |- _ => constr:(H) end.

Ltac fe_binop lem op a b :=
  let Ha := bound_of a in let Hb := bound_of b in
  let B := fresh "B" in let E := fresh "E" in
  destruct (lem _ _ a b Ha Hb ltac:(fe_le) ltac:(fe_le)) as [B E];
  fe_name (op a b).

Ltac fe_unop lem op a :=
  let Ha := bound_of a in
  let B := fresh "B" in let E := fresh "E" in
  destruct (lem _ a Ha ltac:(fe_le)) as [B E];
  fe_name (op a).

Ltac fe_op :=
  match goal with
  | |- context [curve25519_add ?a ?b] => fe_binop el_add curve25519_add a b
  | |- context [curve25519_add_after_basic ?a ?b] =>
      change (curve25519_add_after_basic a b) with (curve25519_add a b)
  | |- context [curve25519_sub ?a ?b] => fe_binop el_sub curve25519_sub a b
  | |- context [curve25519_sub_after_basic ?a ?b] =>
      fe_binop el_sub_after_basic curve25519_sub_after_basic a b
  | |- context [curve25519_add_reduce ?a ?b] => fe_binop el_add_reduce curve25519_add_reduce a b
  | |- context [curve25519_sub_reduce ?a ?b] => fe_binop el_sub_reduce curve25519_sub_reduce a b
  | |- context [curve25519_mul ?a ?b] => fe_binop el_mul curve25519_mul a b
  | |- context [curve25519_square ?a] => fe_unop el_square curve25519_square a
  | |- context [curve25519_neg ?a] => fe_unop el_neg curve25519_neg a
  end.

Ltac fe_bound :=
  unfold tight, loose in *;
  match goal with
  | H : limbs_lt ?n ?a |- limbs_lt ?m ?a => apply (limbs_lt_le n m a); [fe_le | exact H]
  end.

(** ** What a representation stands for *)

Definition rep_partial (r : ge25519) (P : point) : Prop :=
  (tight (x r) /\ tight (y r) /\ tight (z r)) /\
  el (z r) <> 0%F /\ el (x r) = (px P * el (z r))%F /\ el (y r) = (py P * el (z r))%F.

Definition rep_full (r : ge25519) (P : point) : Prop :=
  rep_partial r P /\ tight (t r) /\ el (t r) = (px P * py P * el (z r))%F.

Definition rep_p1p1 (r : ge25519_p1p1) (P : point) : Prop :=
  (loose (p1_x r) /\ loose (p1_y r) /\ loose (p1_z r) /\ loose (p1_t r)) /\
  el (p1_z r) <> 0%F /\ el (p1_t r) <> 0%F /\
  el (p1_x r) = (px P * el (p1_z r))%F /\ el (p1_y r) = (py P * el (p1_t r))%F.

Definition rep_niels (q : ge25519_niels) (P : point) : Prop :=
  (tight (ysubx q) /\ tight (xaddy q) /\ tight (t2d q)) /\
  el (ysubx q) = (py P - px P)%F /\ el (xaddy q) = (py P + px P)%F /\
  el (t2d q) = (2 * d * px P * py P)%F.

Definition rep_pniels (q : ge25519_pniels) (P : point) : Prop :=
  (loose (p_ysubx q) /\ loose (p_xaddy q) /\ tight (p_z q) /\ tight (p_t2d q)) /\
  el (p_z q) <> 0%F /\
  el (p_ysubx q) = ((py P - px P) * el (p_z q))%F /\
  el (p_xaddy q) = ((py P + px P) * el (p_z q))%F /\
  el (p_t2d q) = (2 * d * px P * py P * el (p_z q))%F.

Lemma mul_nz (a b : F) : (a <> 0 -> b <> 0 -> a * b <> 0)%F.
Proof. apply Edwards.field_mul_nz, Pocklington.p_prime. Qed.

(** The completed sum: numerators and denominators, scaled by [c]. *)
Lemma completed_sum (P Q : point) (c X Y Z T : F) :
  let e := (d * px P * px Q * py P * py Q)%F in
  (c <> 0 -> X = c * (px P * py Q + px Q * py P) -> Y = c * (py P * py Q + px P * px Q) ->
   Z = c * (1 + e) -> T = c * (1 - e) ->
   Z <> 0 /\ T <> 0 /\ X = px (gadd P Q) * Z /\ Y = py (gadd P Q) * T)%F.
Proof.
  intros e Hc -> -> -> ->.
  destruct (Edwards.denominators p Pocklington.p_prime d i i_square two_nz d_nonsquare
    _ _ _ _ (Edwards.on_point p d P) (Edwards.on_point p d Q)) as [Dp Dm].
  fold e in Dp, Dm.
  change (px (gadd P Q)) with ((px P * py Q + px Q * py P) / (1 + e))%F.
  change (py (gadd P Q)) with ((py P * py Q + px P * px Q) / (1 - e))%F.
  repeat split; auto using mul_nz; field; assumption.
Qed.

(** ** The conversions *)

Ltac open_reps :=
  unfold rep_full, rep_partial, rep_p1p1, rep_niels, rep_pniels, tight, loose in *;
  destruct_ands.

(** Run the operations of the goal, then split a representation into bounds,
    which are closed, and values, which are written in terms of the operands. *)
Ltac fe_subst := repeat match goal with E : el ?v = _ |- context [el ?v] => rewrite E end.

Ltac fe_run :=
  rewrite ?copy_id; repeat fe_op;
  cbn [x y z t p1_x p1_y p1_z p1_t ysubx xaddy t2d p_ysubx p_xaddy p_z p_t2d] in *;
  unfold rep_full, rep_partial, rep_p1p1, rep_niels, rep_pniels, tight, loose;
  cbn [x y z t p1_x p1_y p1_z p1_t ysubx xaddy t2d p_ysubx p_xaddy p_z p_t2d];
  repeat match goal with
    | |- limbs_lt _ _ /\ _ => split; [fe_bound |]
    | |- limbs_lt _ _ => fe_bound
    | |- (_ /\ _) /\ _ => split
    end.

Ltac fe_field := fe_subst; ring.
Ltac fe_nz := fe_subst; auto using mul_nz.
Ltac fe_scale :=
  repeat match goal with |- (_ * _)%F <> 0%F => apply mul_nz end;
  match goal with
  | H : ?v <> 0%F |- ?v <> 0%F => exact H
  | |- 2%F <> 0%F => exact two_nz
  end.

Lemma p1p1_to_full_spec (q : ge25519_p1p1) (P : point) :
  rep_p1p1 q P -> rep_full (ge25519_p1p1_to_full q) P.
Proof.
  intros Hq. unfold ge25519_p1p1_to_full. open_reps. fe_run.
  - repeat split; [fe_nz | fe_field | fe_field].
  - fe_field.
Qed.

Lemma p1p1_to_partial_spec (r : ge25519) (q : ge25519_p1p1) (P : point) :
  rep_p1p1 q P -> rep_partial (ge25519_p1p1_to_partial r q) P.
Proof. apply p1p1_to_full_spec. Qed.

Lemma full_to_pniels_spec (r : ge25519) (P : point) :
  rep_full r P -> rep_pniels (ge25519_full_to_pniels r) P.
Proof.
  intros Hr. unfold ge25519_full_to_pniels. pose proof ec2d_tight. pose proof ec2d_spec.
  open_reps. fe_run. repeat split; [fe_nz | fe_field ..].
Qed.

(** ** Doubling and adding *)

Lemma double_p1p1_spec (r : ge25519) (P : point) :
  rep_partial r P -> rep_p1p1 (ge25519_double_p1p1 r) (gadd P P).
Proof.
  intros Hr. unfold ge25519_double_p1p1. cbv zeta. open_reps. fe_run.
  pose proof (Edwards.on_point p d P) as C. unfold Edwards.on_curve in C.
  apply (completed_sum P P (el (z r) * el (z r))%F); [now apply mul_nz | fe_field | fe_field | |].
  - fe_subst. ring [C].
  - fe_subst. ring [C].
Qed.

Lemma add_p1p1_spec (p q : ge25519) (P Q : point) :
  rep_full p P -> rep_full q Q -> rep_p1p1 (ge25519_add_p1p1 p q) (gadd P Q).
Proof.
  intros Hp Hq. unfold ge25519_add_p1p1. cbv zeta. pose proof ec2d_tight. pose proof ec2d_spec.
  open_reps. fe_run.
  apply (completed_sum P Q (2 * el (z p) * el (z q))%F);
    [fe_scale | fe_field ..].
Qed.

Lemma double_spec (r : ge25519) (P : point) :
  rep_partial r P -> rep_full (ge25519_double r) (gadd P P).
Proof. intros H. apply p1p1_to_full_spec, double_p1p1_spec, H. Qed.

Lemma double_partial_spec (r0 r : ge25519) (P : point) :
  rep_partial r P -> rep_partial (ge25519_double_partial r0 r) (gadd P P).
Proof. intros H. apply p1p1_to_partial_spec, double_p1p1_spec, H. Qed.

Lemma ge_add_spec (p q : ge25519) (P Q : point) :
  rep_full p P -> rep_full q Q -> rep_full (ge25519_add p q) (gadd P Q).
Proof. intros Hp Hq. now apply p1p1_to_full_spec, add_p1p1_spec. Qed.

(** Adding or subtracting a precomputed point. *)
Definition signed_point (s : Z) (Q : point) : point := if s =? 0 then Q else gopp Q.

Lemma px_opp (Q : point) : px (gopp Q) = (- px Q)%F.
Proof. reflexivity. Qed.

Lemma py_opp (Q : point) : py (gopp Q) = py Q.
Proof. reflexivity. Qed.

Lemma nielsadd2_p1p1_spec (p : ge25519) (q : ge25519_niels) (s : Z) (P Q : point) :
  s = 0 \/ s = 1 -> rep_full p P -> rep_niels q Q ->
  rep_p1p1 (ge25519_nielsadd2_p1p1 p q s) (gadd P (signed_point s Q)).
Proof.
  intros [-> | ->] Hp Hq; unfold ge25519_nielsadd2_p1p1, signed_point; cbv zeta;
    cbn [Z.add Z.lxor Pos.lxor qb_niels set_rb rb Z.eqb Pos.eqb Pos.add Pos.succ Z.of_N p1_x p1_y p1_z p1_t];
    open_reps; fe_run;
    [apply (completed_sum P Q (2 * el (z p))%F) | apply (completed_sum P (gopp Q) (2 * el (z p))%F)];
    rewrite ?px_opp, ?py_opp;
    match goal with |- _ <> _ => fe_scale | _ => fe_field end.
Qed.

Lemma pnielsadd_p1p1_spec (p : ge25519) (q : ge25519_pniels) (s : Z) (P Q : point) :
  s = 0 \/ s = 1 -> rep_full p P -> rep_pniels q Q ->
  rep_p1p1 (ge25519_pnielsadd_p1p1 p q s) (gadd P (signed_point s Q)).
Proof.
  intros [-> | ->] Hp Hq; unfold ge25519_pnielsadd_p1p1, signed_point; cbv zeta;
    cbn [Z.add Z.lxor Pos.lxor qb_pniels set_rb rb Z.eqb Pos.eqb Pos.add Pos.succ Z.of_N p1_x p1_y p1_z p1_t];
    open_reps; fe_run;
    [apply (completed_sum P Q (2 * el (z p) * el (p_z q))%F) | apply (completed_sum P (gopp Q) (2 * el (z p) * el (p_z q))%F)];
    rewrite ?px_opp, ?py_opp;
    match goal with |- _ <> _ => fe_scale | _ => fe_field end.
Qed.

(** The two additions that do not stop at the completed form. *)
Lemma nielsadd2_completes (r : ge25519) (q : ge25519_niels) :
  ge25519_nielsadd2 r q =
  let a := curve25519_mul (curve25519_sub (y r) (x r)) (ysubx q) in
  let e := curve25519_mul (curve25519_add (y r) (x r)) (xaddy q) in
  let c := curve25519_mul (t r) (t2d q) in
  let f := curve25519_add (z r) (z r) in
  ge25519_p1p1_to_full
    (mk_p1p1 (curve25519_sub e a) (curve25519_add e a)
       (curve25519_add_after_basic f c) (curve25519_sub_after_basic f c)).
Proof. reflexivity. Qed.

Lemma nielsadd2_spec (r : ge25519) (q : ge25519_niels) (P Q : point) :
  rep_full r P -> rep_niels q Q -> rep_full (ge25519_nielsadd2 r q) (gadd P Q).
Proof.
  intros Hr Hq. rewrite nielsadd2_completes. apply p1p1_to_full_spec. cbv zeta.
  open_reps. fe_run. apply (completed_sum P Q (2 * el (z r))%F); [fe_scale | fe_field ..].
Qed.

Lemma pnielsadd_completes (p : ge25519) (q : ge25519_pniels) :
  ge25519_pnielsadd p q =
  let a := curve25519_mul (curve25519_sub (y p) (x p)) (p_ysubx q) in
  let e := curve25519_mul (curve25519_add (y p) (x p)) (p_xaddy q) in
  let c := curve25519_mul (t p) (p_t2d q) in
  let f := curve25519_mul (z p) (p_z q) in
  let f := curve25519_add f f in
  let r := ge25519_p1p1_to_full
    (mk_p1p1 (curve25519_sub e a) (curve25519_add e a)
       (curve25519_add_after_basic f c) (curve25519_sub_after_basic f c)) in
  mk_pniels (curve25519_sub (y r) (x r)) (curve25519_add (x r) (y r)) (z r)
    (curve25519_mul (t r) ge25519_ec2d).
Proof. unfold ge25519_pnielsadd. cbv zeta. rewrite copy_id. reflexivity. Qed.

Lemma pnielsadd_spec (p : ge25519) (q : ge25519_pniels) (P Q : point) :
  rep_full p P -> rep_pniels q Q -> rep_pniels (ge25519_pnielsadd p q) (gadd P Q).
Proof.
  intros Hp Hq. rewrite pnielsadd_completes. cbv zeta.
  match goal with |- context [ge25519_p1p1_to_full ?u] =>
    assert (Hu : rep_full (ge25519_p1p1_to_full u) (gadd P Q)) end.
  - apply p1p1_to_full_spec. open_reps. fe_run.
    apply (completed_sum P Q (2 * el (z p) * el (p_z q))%F); [fe_scale | fe_field ..].
  - match goal with |- context [ge25519_p1p1_to_full ?u] =>
      set (r := ge25519_p1p1_to_full u) in *; clearbody r end.
    clear Hp Hq. pose proof ec2d_tight. pose proof ec2d_spec.
    open_reps. fe_run. repeat split; [fe_nz | fe_field ..].
Qed.

End Ge.
