(* ===== verification/GePack.v ===== *)
(** * Encoding and decoding of points: ge25519_pack, ge25519_unpack_negative_vartime

    [encode] is the 32-byte encoding of a point (y, and the parity of x in the
    top bit); [decodes] says which point a 32-byte string denotes.  Packing
    any representation of a point writes its encoding; unpacking succeeds
    exactly on the strings whose y belongs to a point, and returns the
    negation of the point they denote. *)

From Stdlib Require Import ZArith List Lia Bool Field Zmod.
Import ListNotations.
From S2P Require Import Prelude Portable Fe64 Prime Group Edwards Ge25519.
Open Scope Z_scope.
Open Scope word_scope.

Module Pack.

Import Donna64 Ge.

(** ** The code *)

(** The comparison of ed25519-donna.h: [differentbits] is a [size_t]. *)
Fixpoint different_bits (a b : list Z) (len : nat) (differentbits : Z) {struct len} : Z :=
  match len, a, b with
  | S len', u :: a', v :: b' => different_bits a' b' len' (differentbits |u (u ^u v))
  | _, _, _ => differentbits
  end.

Definition ed25519_verify (a b : list Z) (len : nat) : Z :=
  1 &u ((different_bits a b len 0 -u 1) >>u 8).

Definition set_byte (l : list Z) (k : nat) (v : Z) : list Z := firstn k l ++ v :: skipn (S k) l.

Definition ge25519_pack (p : ge25519) : list Z :=
  let zi := curve25519_recip (z p) in
  let tx := curve25519_mul (x p) zi in
  let ty := curve25519_mul (y p) zi in
  let r := curve25519_contract ty in
  let parity := curve25519_contract tx in
  set_byte r 31 (u8 (nth 31 r 0 ^u Z.shiftl (nth 0 parity 0 &u 1) 7)).

Definition zero32 : list Z := repeat 0 32.
Definition one : bignum25519 := bn 1 0 0 0 0.

Definition ge25519_unpack_negative_vartime (p : list Z) : option ge25519 :=
  let parity := nth 31 p 0 >>u 7 in
  let ry := curve25519_expand p in
  let rz := curve25519_copy one in
  let num := curve25519_square ry in
  let den := curve25519_mul num ge25519_ecd in
  let num := curve25519_sub_reduce num rz in
  let den := curve25519_add den rz in
  let t := curve25519_square den in
  let d3 := curve25519_mul t den in
  let rx := curve25519_square d3 in
  let rx := curve25519_mul rx den in
  let rx := curve25519_mul rx num in
  let rx := curve25519_pow_two252m3 rx in
  let rx := curve25519_mul rx d3 in
  let rx := curve25519_mul rx num in
  let t := curve25519_square rx in
  let t := curve25519_mul t den in
  let root := curve25519_sub_reduce t num in
  let check := curve25519_contract root in
  let rx' :=
    if ed25519_verify check zero32 32 =? 0 then
      let t := curve25519_add_reduce t num in
      let check := curve25519_contract t in
      if ed25519_verify check zero32 32 =? 0 then None
      else Some (curve25519_mul rx ge25519_sqrtneg1)
    else Some rx in
  match rx' with
  | None => None
  | Some rx =>
      let check := curve25519_contract rx in
      let rx := if (nth 0 check 0 &u 1) =? parity
                then curve25519_neg (curve25519_copy rx) else rx in
      Some (mk_ge rx ry rz (curve25519_mul rx ry))
  end.

(** ** Comparison *)

Lemma different_bits_range (len : nat) (a b : list Z) (acc : Z) :
  bytes_ok a -> bytes_ok b -> 0 <= acc < 2 ^ 8 -> 0 <= different_bits a b len acc < 2 ^ 8.
Proof.
  revert a b acc. induction len as [| len IH]; intros a b acc Ha Hb Hacc; [exact Hacc |].
  destruct a as [| u a]; [exact Hacc |]. destruct b as [| v b]; [exact Hacc |].
  inv Ha. inv Hb. cbn [different_bits]. apply IH; auto.
  apply lor_range; [lia | exact Hacc |]. apply lxor_range; auto; lia.
Qed.

Lemma different_bits_zero (len : nat) (a b : list Z) (acc : Z) :
  length a = len -> length b = len ->
  different_bits a b len acc = 0 <-> acc = 0 /\ a = b.
Proof.
  revert a b acc. induction len as [| len IH]; intros a b acc La Lb.
  - destruct a, b; try discriminate. cbn. tauto.
  - destruct a as [| u a], b as [| v b]; try discriminate. cbn [different_bits].
    rewrite IH by (cbn in *; lia). rewrite Z.lor_eq_0_iff, Z.lxor_eq_0_iff.
    split; [intros [[-> ->] ->]; auto | intros [-> E]; inv E; auto].
Qed.

Lemma verify_spec (a b : list Z) :
  bytes_ok a -> bytes_ok b -> length a = 32%nat -> length b = 32%nat ->
  ed25519_verify a b 32 = if list_eq_dec Z.eq_dec a b then 1 else 0.
Proof.
  intros Ha Hb La Lb. unfold ed25519_verify, sub64.
  pose proof (different_bits_range 32 a b 0 Ha Hb ltac:(lia)) as R.
  pose proof (different_bits_zero 32 a b 0 La Lb) as E.
  destruct (list_eq_dec Z.eq_dec a b) as [Hab | Hab].
  - replace (different_bits a b 32 0) with 0 by (symmetry; tauto). reflexivity.
  - assert (different_bits a b 32 0 <> 0) by tauto.
    rewrite u64_small by lia. rewrite shiftr_div, Z.div_small by lia. reflexivity.
Qed.

(** ** Powers in the field *)

Definition q8 : Z := (p - 5) / 8.

Lemma el_pow (a : bignum25519) (v n : Z) : 0 <= n -> feq (val a) (v ^ n) -> el a = Zmod.pow (fe v) n.
Proof.
  intros Hn H. unfold el. apply fe_feq in H. rewrite H. unfold fe. now rewrite Zmod.of_Z_pow.
Qed.

Lemma fermat_F (a : F) : a <> 0%F -> Zmod.pow a (p - 1) = 1%F.
Proof. intros Ha. apply (Zmod.fermat_nz a Ha Pocklington.p_prime). Qed.

(** The inverse, and 0 on 0. *)
Lemma el_recip (a : bignum25519) :
  loose a -> tight (curve25519_recip a) /\ el (curve25519_recip a) = Zmod.inv (el a).
Proof.
  intros Ha. destruct (recip_spec a Ha) as [Ht Hv]. split; [exact Ht |].
  rewrite (el_pow (curve25519_recip a) (val a) (p - 2)); [| vm_compute; discriminate | exact Hv].
  fold (el a). destruct (Zmod.eqb_spec (el a) 0%F) as [-> | Hz].
  - rewrite Zmod.pow_0_l by (vm_compute; discriminate). symmetry. apply Zmod.inv_0.
  - now apply Zmod.fermat_inv; [| apply Pocklington.p_prime].
Qed.

Lemma mul_inv (a : F) : a <> 0%F -> (a * Zmod.inv a = 1)%F.
Proof. intros Ha. apply Zmod.mul_inv_same_r_prime; [apply Pocklington.p_prime | exact Ha]. Qed.

Lemma el_pow_two252m3 (a : bignum25519) :
  tight a -> tight (curve25519_pow_two252m3 a) /\
  el (curve25519_pow_two252m3 a) = Zmod.pow (el a) q8.
Proof.
  intros Ha. destruct (pow_two252m3_spec a (tight_loose _ Ha)) as [Ht Hv]. split; [exact Ht |].
  apply el_pow; [vm_compute; discriminate | exact Hv].
Qed.

(** ** Square roots modulo p = 8 q + 5 *)

Lemma p_q8 : p = 8 * q8 + 5.
Proof. vm_compute. reflexivity. Qed.

Lemma q8_pos : 0 <= q8.
Proof. vm_compute. discriminate. Qed.

#[local] Opaque q8 p.

Lemma root_candidate (u v : F) :
  let w := (v * (v * v) * (v * (v * v)) * v * u)%F in
  let r := (Zmod.pow w q8 * (v * (v * v)) * u)%F in
  (v * (r * r) = u * Zmod.pow w (2 * q8 + 1))%F.
Proof.
  intros w r. pose proof q8_pos.
  rewrite Zmod.pow_add_r_nonneg, Zmod.pow_1_r by lia.
  replace (2 * q8) with (q8 + q8) by lia. rewrite Zmod.pow_add_r_nonneg by lia.
  unfold r. set (e := Zmod.pow w q8). unfold w. ring.
Qed.

(** If u/v is a square, the candidate squares to u/v or to its negation. *)
Lemma root_of_square (u v s : F) :
  (v * (s * s) = u)%F ->
  let w := (v * (v * v) * (v * (v * v)) * v * u)%F in
  (u * Zmod.pow w (2 * q8 + 1) = u \/ u * Zmod.pow w (2 * q8 + 1) = - u)%F.
Proof.
  intros Hu w. pose proof q8_pos.
  destruct (Zmod.eqb_spec u 0%F) as [-> | Hnz]; [left; ring |].
  set (h := (s * (v * v) * (v * v))%F).
  assert (Hw : w = Zmod.pow h 2) by (rewrite Zmod.pow_2_r; unfold w, h; rewrite <- Hu; ring).
  assert (Hh : h <> 0%F).
  { intros Z. apply Hnz. destruct (Zmod.eqb_spec v 0%F) as [-> | Hv]; [rewrite <- Hu; ring |].
    unfold h in Z.
    destruct (Zmod.eqb_spec s 0%F) as [-> | Hs]; [rewrite <- Hu; ring | exfalso].
    revert Z. repeat apply mul_nz; assumption. }
  rewrite Hw, <- Zmod.pow_mul_r_nonneg by lia.
  assert (E : (Zmod.pow h (2 * (2 * q8 + 1)) * Zmod.pow h (2 * (2 * q8 + 1)) = 1)%F).
  { rewrite <- Zmod.pow_add_r_nonneg by lia.
    replace (2 * (2 * q8 + 1) + 2 * (2 * q8 + 1)) with (p - 1) by (rewrite p_q8; lia).
    now apply fermat_F. }
  rewrite <- Zmod.pow_2_r in E. apply (Zmod.square_roots_1_prime Pocklington.p_prime) in E.
  destruct E as [-> | ->]; [left | right]; ring.
Qed.

(** ** Packing *)

Definition encode (P : point) : list Z :=
  le_bytes 32 (Zmod.to_Z (py P) + 2 ^ 255 * (Zmod.to_Z (px P) mod 2)).

Lemma to_Z_range (a : F) : 0 <= Zmod.to_Z a < p.
Proof. apply Zmod.unsigned_pos_bound. pose proof p_ge_2. lia. Qed.

Lemma to_Z_el (b : bignum25519) : Zmod.to_Z (el b) = val b mod p.
Proof. apply Zmod.unsigned_of_Z. Qed.

Lemma el_contract (b : bignum25519) :
  loose b -> curve25519_contract b = le_bytes 32 (Zmod.to_Z (el b)).
Proof. intros Hb. now rewrite to_Z_el, contract_spec. Qed.

Lemma p_small : p < 2 ^ 255.
Proof. vm_compute. reflexivity. Qed.

Lemma le_bytes_top (v : Z) :
  le_bytes 32 v = le_bytes 31 v ++ [(v / 2 ^ 248) mod 2 ^ 8].
Proof.
  change 32%nat with (31 + 1)%nat. rewrite le_bytes_app. reflexivity.
Qed.

Lemma set_top_bit (v b : Z) :
  0 <= v < 2 ^ 255 -> b = 0 \/ b = 1 ->
  set_byte (le_bytes 32 v) 31 (u8 (nth 31 (le_bytes 32 v) 0 ^u Z.shiftl b 7)) =
  le_bytes 32 (v + 2 ^ 255 * b).
Proof.
  intros Hv Hb. rewrite !le_bytes_top.
  pose proof (le_bytes_length 31 v) as L.
  rewrite app_nth2, L by lia. cbn [Nat.sub nth].
  unfold set_byte. rewrite firstn_app, L, Nat.sub_diag, firstn_all2 by lia.
  rewrite skipn_all2 by (rewrite length_app, L; cbn; lia). cbn [firstn]. rewrite app_nil_r. f_equal.
  - rewrite <- (le_bytes_mod 31 (v + 2 ^ 255 * b)), <- (le_bytes_mod 31 v). f_equal.
    change (2 ^ (8 * Z.of_nat 31)) with (2 ^ 248).
    replace (v + 2 ^ 255 * b) with (v + (2 ^ 7 * b) * 2 ^ 248) by lia.
    symmetry. apply Z.mod_add. lia.
  - f_equal. assert (H : 0 <= v / 2 ^ 248 < 2 ^ 7)
      by (split; [apply Z.div_pos | apply Z.div_lt_upper_bound]; lia).
    rewrite (Z.mod_small (v / 2 ^ 248)) by lia.
    replace (v + 2 ^ 255 * b) with (v + (2 ^ 7 * b) * 2 ^ 248) by lia.
    rewrite Z.div_add by lia. rewrite Z.mod_small by lia.
    rewrite Z.shiftl_mul_pow2 by lia.
    assert (E : Z.lxor (v / 2 ^ 248) (b * 2 ^ 7) = v / 2 ^ 248 + 2 ^ 7 * b).
    { rewrite <- Z.add_nocarry_lxor by (apply land_disjoint; lia). lia. }
    rewrite E. apply u8_small. lia.
Qed.

Lemma low_bit (w : Z) : nth 0 (le_bytes 32 w) 0 &u 1 = w mod 2.
Proof.
  cbn [le_bytes nth]. change 1 with (2 ^ 1 - 1) at 1. rewrite land_mask by lia.
  apply (mod_mod_pow2 w 1 8). lia.
Qed.

Lemma pack_spec (r : ge25519) (P : point) : rep_partial r P -> ge25519_pack r = encode P.
Proof.
  intros Hr. unfold ge25519_pack. cbv zeta. open_reps.
  destruct (el_recip (z r)) as [Bi Ei]; [fe_bound |].
  match goal with H : el (z r) <> _ |- _ => apply mul_inv in H; rewrite <- Ei in H; clear Ei; rename H into Ei end.
  unfold tight in Bi. set (zi := curve25519_recip (z r)) in *. clearbody zi.
  repeat fe_op.
  assert (Ex : el r1 = px P) by (fe_subst; ring [Ei]).
  assert (Ey : el r0 = py P) by (fe_subst; ring [Ei]).
  rewrite !el_contract by fe_bound. rewrite Ex, Ey, low_bit.
  pose proof (to_Z_range (py P)). pose proof p_small.
  apply set_top_bit; [lia |]. pose proof (Z.mod_pos_bound (Zmod.to_Z (px P)) 2). lia.
Qed.

(** ** Which point a string denotes *)

(** The y coordinate is read modulo p from 255 bits; the top bit is the
    parity of x, and is ignored when x is 0. *)
Definition decodes (b : list Z) (P : point) : Prop :=
  py P = fe (le_val b mod 2 ^ 255) /\
  (Zmod.to_Z (px P) mod 2 = le_val b / 2 ^ 255 \/ px P = 0%F).

Lemma encode_val (P : point) :
  le_val (encode P) = Zmod.to_Z (py P) + 2 ^ 255 * (Zmod.to_Z (px P) mod 2).
Proof.
  unfold encode. rewrite le_val_bytes. apply Z.mod_small.
  pose proof (to_Z_range (py P)). pose proof p_small.
  pose proof (Z.mod_pos_bound (Zmod.to_Z (px P)) 2). change (2 ^ (8 * Z.of_nat 32)) with (2 ^ 256). lia.
Qed.

Lemma encode_decodes (P : point) : decodes (encode P) P.
Proof.
  unfold decodes. rewrite encode_val. pose proof (to_Z_range (py P)). pose proof p_small.
  set (b := Zmod.to_Z (px P) mod 2). split; [| left].
  - rewrite Z.mul_comm, Z.mod_add, Z.mod_small by lia. symmetry. apply Zmod.of_Z_unsigned.
  - rewrite Z.mul_comm, Z.div_add, Z.div_small by lia. lia.
Qed.

(** The denominator of x^2 is never zero. *)
Lemma den_nz (Y : F) : (Y * Y * d + 1 <> 0)%F.
Proof.
  intros H. destruct (Zmod.eqb_spec Y 0%F) as [-> | HY].
  - apply one_nz. rewrite <- H. ring.
  - apply (d_nonsquare (i / Y)%F). transitivity (i * i / (Y * Y))%F; [field; exact HY |].
    rewrite i_square.
    assert (E : (- (1) = Y * Y * d)%F)
      by (symmetry; transitivity (Y * Y * d + 1 - 1)%F; [ring | rewrite H; ring]).
    rewrite E. field. exact HY.
Qed.

Lemma on_curve_root (X Y : F) :
  Edwards.on_curve p d X Y <-> ((Y * Y * d + 1) * (X * X) = Y * Y - 1)%F.
Proof.
  unfold Edwards.on_curve. split; intros H.
  - transitivity (d * (X * X) * (Y * Y) + X * X)%F; [ring |]. rewrite H. ring.
  - transitivity ((Y * Y * d + 1) * (X * X) - X * X)%F; [ring |]. rewrite H. ring.
Qed.

Lemma square_eq (X Z : F) : (X * X = Z * Z -> X = Z \/ X = - Z)%F.
Proof.
  intros H. apply (Zmod.square_roots_opp_prime Pocklington.p_prime).
  now rewrite !Zmod.pow_2_r.
Qed.

Lemma p_odd : p mod 2 = 1.
Proof. vm_compute. reflexivity. Qed.

Lemma opp_parity (X : F) : X <> 0%F ->
  Zmod.to_Z (- X)%F mod 2 = 1 - Zmod.to_Z X mod 2.
Proof.
  intros HX. pose proof (to_Z_range X) as R. pose proof p_odd as Ho.
  assert (Zmod.to_Z X <> 0) by (intros Z; apply HX, Zmod.unsigned_0_iff, Z).
  rewrite Zmod.to_Z_opp.
  replace (- Zmod.to_Z X) with (p - Zmod.to_Z X + (-1) * p) by lia.
  rewrite Z.mod_add, (Z.mod_small (p - _)) by lia. rewrite Zminus_mod, Ho.
  destruct (Z.mod_pos_bound (Zmod.to_Z X) 2) as [H0 H1]; [lia |].
  set (b := Zmod.to_Z X mod 2) in *. assert (Hb : b = 0 \/ b = 1) by lia.
  destruct Hb as [-> | ->]; reflexivity.
Qed.

Lemma decodes_unique (b : list Z) (P Q : point) : decodes b P -> decodes b Q -> P = Q.
Proof.
  intros [Py Pp] [Qy Qp]. assert (Ey : py P = py Q) by congruence.
  pose proof (proj1 (on_curve_root _ _) (Edwards.on_point p d P)) as CP.
  pose proof (proj1 (on_curve_root _ _) (Edwards.on_point p d Q)) as CQ.
  rewrite Ey in CP. rewrite <- CQ in CP.
  apply Zmod.mul_cancel_l_prime in CP; [| apply Pocklington.p_prime | apply den_nz].
  apply Edwards.point_ext; [| exact Ey].
  destruct (square_eq _ _ CP) as [E | E]; [exact E |].
  destruct (Zmod.eqb_spec (px Q) 0%F) as [Z | Z].
  - rewrite E, Z. ring.
  - assert (ZP : px P <> 0%F) 
      by (rewrite E; intros Z'; apply Z; transitivity (- - px Q)%F; [ring | rewrite Z'; ring]).
    exfalso. pose proof (opp_parity _ Z) as O. rewrite <- E in O.
    destruct Pp as [Pp |]; [| contradiction]. destruct Qp as [Qp |]; [| contradiction].
    pose proof (Z.mod_pos_bound (Zmod.to_Z (px Q)) 2). lia.
Qed.

Lemma encode_inj (P Q : point) : encode P = encode Q -> P = Q.
Proof.
  intros H. apply (decodes_unique (encode P)); [apply encode_decodes |].
  rewrite H. apply encode_decodes.
Qed.

(** ** Unpacking *)

Lemma le_bytes_zero (v : Z) : 0 <= v < 2 ^ 256 -> le_bytes 32 v = zero32 <-> v = 0.
Proof.
  intros Hv. split; [intros H | intros ->; reflexivity].
  apply (f_equal le_val) in H. rewrite le_val_bytes in H.
  change (2 ^ (8 * Z.of_nat 32)) with (2 ^ 256) in H. rewrite Z.mod_small in H by lia. exact H.
Qed.

Lemma zero_check (b : bignum25519) : loose b ->
  (ed25519_verify (curve25519_contract b) zero32 32 =? 0) = negb (Zmod.eqb (el b) 0%F).
Proof.
  intros Hb. rewrite el_contract by exact Hb. pose proof (to_Z_range (el b)). pose proof p_small.
  rewrite verify_spec; [| auto with bytes | apply bytes_ok_repeat0 | apply le_bytes_length | reflexivity].
  pose proof (le_bytes_zero (Zmod.to_Z (el b)) ltac:(lia)) as E.
  destruct (list_eq_dec Z.eq_dec (le_bytes 32 (Zmod.to_Z (el b))) zero32) as [H1 | H1],
    (Zmod.eqb_spec (el b) 0%F) as [H2 | H2]; try reflexivity; exfalso.
  - apply H2. apply Zmod.unsigned_0_iff. tauto.
  - apply H1, E. rewrite H2. reflexivity.
Qed.

Lemma top_bit (b : list Z) : bytes_ok b -> length b = 32%nat ->
  nth 31 b 0 >>u 7 = le_val b / 2 ^ 255 /\ (le_val b / 2 ^ 255 = 0 \/ le_val b / 2 ^ 255 = 1).
Proof.
  intros Hb Lb. rewrite shiftr_div by lia.
  rewrite <- (firstn_skipn 31 b) at 2 3 4. rewrite le_val_app.
  assert (L31 : length (firstn 31 b) = 31%nat) by (rewrite length_firstn; lia). rewrite L31.
  pose proof (le_val_range _ (bytes_ok_firstn 31 b Hb)) as R. rewrite L31 in R.
  assert (E : le_val (skipn 31 b) = nth 31 b 0).
  { rewrite <- (firstn_skipn 31 b) at 2. rewrite app_nth2, L31 by lia.
    assert (L1 : length (skipn 31 b) = 1%nat) by (rewrite length_skipn; lia).
    destruct (skipn 31 b) as [| u [| ? ?]]; try discriminate L1. cbn [le_val nth Nat.sub]. lia. }
  rewrite E. change (2 ^ (8 * Z.of_nat 31)) with (2 ^ 248) in *.
  assert (Hn : 0 <= nth 31 b 0 < 2 ^ 8).
  { unfold bytes_ok in Hb. rewrite Forall_forall in Hb. apply Hb, nth_In. lia. }
  set (w := nth 31 b 0) in *. clearbody w. set (lo := le_val (firstn 31 b)) in *. clearbody lo.
  assert (Ew : (lo + 2 ^ 248 * w) / 2 ^ 255 = w / 2 ^ 7).
  { change (2 ^ 255) with (2 ^ 248 * 2 ^ 7). rewrite <- Z.div_div by lia.
    rewrite Z.mul_comm, Z.div_add, (Z.div_small lo) by lia. reflexivity. }
  rewrite Ew. split; [reflexivity |].
  assert (0 <= w / 2 ^ 7 < 2) by (split; [apply Z.div_pos | apply Z.div_lt_upper_bound]; lia). lia.
Qed.

(** The choice of the sign: the root whose negation has the wanted parity. *)
Lemma choose_sign (X Y : F) (parity : Z) :
  parity = 0 \/ parity = 1 -> Edwards.on_curve p d X Y ->
  exists P : point, py P = Y /\
    px P = (if Zmod.to_Z X mod 2 =? parity then X else - X)%F /\
    (Zmod.to_Z (px P) mod 2 = parity \/ px P = 0%F).
Proof.
  intros Hp C. set (P0 := Edwards.Point p d X Y (proj2 (Edwards.on_curveb_spec p d X Y) C)).
  destruct (Z.eqb_spec (Zmod.to_Z X mod 2) parity) as [E | E].
  - exists P0. auto.
  - exists (gopp P0). split; [reflexivity | split; [reflexivity |]].
    change (px (gopp P0)) with (- X)%F.
    destruct (Zmod.eqb_spec X 0%F) as [-> | HX]; [right; ring | left].
    rewrite (opp_parity X HX). pose proof (Z.mod_pos_bound (Zmod.to_Z X) 2). lia.
Qed.

Lemma sqrtneg1_tight : limbs_lt (2 ^ 51) ge25519_sqrtneg1.
Proof. unfold limbs_lt, ge25519_sqrtneg1. cbn [l0 l1 l2 l3 l4]. lia. Qed.

(** The last part of the code: a root is in hand. *)
Lemma finish_unpack (b : list Z) (rx ry : bignum25519) :
  bytes_ok b -> length b = 32%nat -> tight rx -> tight ry ->
  el ry = fe (le_val b mod 2 ^ 255) -> Edwards.on_curve p d (el rx) (el ry) ->
  let parity := nth 31 b 0 >>u 7 in
  let rx' := if (nth 0 (curve25519_contract rx) 0 &u 1) =? parity
             then curve25519_neg (curve25519_copy rx) else rx in
  exists P, decodes b P /\ rep_full (mk_ge rx' ry (curve25519_copy one) (curve25519_mul rx' ry)) (gopp P).
Proof.
  intros Hb Lb Bx By Ey C parity rx'. destruct (top_bit b Hb Lb) as [Et Hp]. fold parity in Et.
  rewrite <- Et in Hp. destruct (choose_sign _ _ _ Hp C) as (P & HPy & HPx & Hpar).
  exists P. split; [split; [congruence | rewrite <- Et; exact Hpar] |].
  assert (H : tight rx' /\ el rx' = (- px P)%F).
  { unfold rx'. rewrite el_contract, low_bit by (apply tight_loose, Bx). rewrite HPx, copy_id.
    destruct (Zmod.to_Z (el rx) mod 2 =? parity).
    - destruct (neg_spec rx Bx) as [Bn _]. split; [exact Bn |].
      apply (el_neg _ rx Bx). lia.
    - split; [exact Bx | ring]. }
  destruct H as [Bx' Ex']. clearbody rx'. rewrite copy_id.
  assert (B1 : limbs_lt (2 ^ 51) one) by (unfold limbs_lt, one; cbn [l0 l1 l2 l3 l4]; lia).
  assert (E1 : el one = 1%F) by reflexivity.
  unfold tight in *. clear Ey. fe_run; rewrite ?px_opp, ?py_opp, HPy; fe_subst.
  - repeat split; [apply one_nz | ring ..].
  - ring.
Qed.

(** [ge25519_unpack_negative_vartime] on any 32 bytes: it returns the negation
    of the point they denote, or fails when no point has their y. *)
Lemma unpack_spec (b : list Z) :
  bytes_ok b -> length b = 32%nat ->
  match ge25519_unpack_negative_vartime b with
  | Some r => exists P, decodes b P /\ rep_full r (gopp P)
  | None => forall P : point, py P <> fe (le_val b mod 2 ^ 255)
  end.
Proof.
  intros Hb Lb. unfold ge25519_unpack_negative_vartime. cbv zeta.
  destruct (expand_spec b Hb Lb) as [By Ey]. pose proof (expand_tight b Hb Lb) as Ty.
  set (ry := curve25519_expand b) in *. clearbody ry.
  assert (Ery : el ry = fe (le_val b mod 2 ^ 255)) by (unfold el; now rewrite Ey).
  assert (B1 : limbs_lt (2 ^ 51) (curve25519_copy one))
    by (unfold limbs_lt, curve25519_copy, one; cbn [l0 l1 l2 l3 l4]; lia).
  assert (E1 : el (curve25519_copy one) = 1%F) by reflexivity.
  pose proof ecd_tight as Bd. pose proof sqrtneg1_tight as Bi.
  assert (Ed : el ge25519_ecd = d) by reflexivity. assert (Ei : el ge25519_sqrtneg1 = i) by reflexivity.
  repeat fe_op. set (Y := el ry) in *.
  assert (EU : el r0 = (Y * Y - 1)%F) by (fe_subst; ring).
  assert (EV : el r2 = (Y * Y * d + 1)%F) by (fe_subst; ring).
  assert (E4' : el r4 = (el r2 * (el r2 * el r2))%F) by (rewrite E5, E4; ring).
  assert (E7' : el r7 = (el r2 * (el r2 * el r2) * (el r2 * (el r2 * el r2)) * el r2 * el r0)%F)
    by (rewrite E8, E7, E6, E4'; ring).
  destruct (el_pow_two252m3 r7 B8) as [Bw Ew]. unfold tight in Bw.
  set (w := curve25519_pow_two252m3 r7) in *. clearbody w. clear E E0 E2 E3 E4 E5 E6 E7 E8 B B2 B4 B6 B7.
  fe_op. fe_op. pose proof (root_candidate (el r0) (el r2)) as Hc. cbv zeta in Hc.
  rewrite <- E7', <- E4', <- Ew, <- E, <- E0 in Hc. clear E E0 Ew E4' B Bw.
  repeat fe_op. rewrite !zero_check by fe_bound.
  assert (Ed' : el r14 = (el r2 * (el r9 * el r9) - el r0)%F) by (rewrite E4, E2, E0; ring).
  assert (Es' : el r13 = (el r2 * (el r9 * el r9) + el r0)%F) by (rewrite E3, E2, E0; ring).
  rewrite Ei in E.
  destruct (Zmod.eqb_spec (el r14) 0%F) as [Hr | Hr]; cbn [negb].
  { apply finish_unpack; auto. apply on_curve_root. fold Y. rewrite <- EV, <- EU.
    transitivity (el r14 + el r0)%F; [rewrite Ed'; ring | rewrite Hr; ring]. }
  destruct (Zmod.eqb_spec (el r13) 0%F) as [Hs | Hs]; cbn [negb].
  { apply finish_unpack; auto. apply on_curve_root. fold Y. rewrite <- EV, <- EU.
    transitivity (i * i * (el r13 - el r0))%F; [rewrite E, Es'; ring |].
    rewrite Hs, i_square. ring. }
  intros P HP. rewrite <- Ery in HP.
  pose proof (proj1 (on_curve_root _ _) (Edwards.on_point p d P)) as C.
  rewrite HP, <- EV, <- EU in C. apply root_of_square in C. cbv zeta in C. rewrite <- E7', <- Hc in C.
  destruct C as [C | C]; [apply Hr; rewrite Ed' | apply Hs; rewrite Es']; rewrite C; ring.
Qed.

End Pack.
