(* ===== verification/Tables.v ===== *)
(** * The precomputed multiples of the base point

    [ge25519_niels_sliding_multiples] (ed25519-donna-64bit-tables.h) holds the
    odd multiples B, 3B, ..., 63B; [ge25519_niels_base_multiples]
    (ed25519-donna-basepoint-table.h) holds (i+1) 256^pos B at row 8 pos + i,
    packed as bytes.  Every row is checked against the group law on
    machine-word integers: a row is its predecessor plus the first row of its
    group, and a group starts at 256 times the start of the one before.  The
    t2d column of the first eight rows is 2xy, without the factor d that
    [ge25519_scalarmult_base_niels] multiplies in when it uses them. *)

From Stdlib Require Import ZArith List Lia Bool Field Zmod.
From Bignums Require Import BigZ.
Import ListNotations.
From S2P Require Import Prelude Portable Fe64 Modm64 Prime Group Edwards Ge25519.
Open Scope Z_scope.

Module Tables.

Import Donna64 Ge.

Definition ge25519_niels_sliding_multiples : list ge25519_niels := [
  mk_niels (bn 0x00003905d740913e 0x0000ba2817d673a2 0x00023e2827f4e67c 0x000133d2e0c21a34 0x00044fd2f9298f81)
    (bn 0x000493c6f58c3b85 0x0000df7181c325f7 0x0000f50b0b3e4cb7 0x0005329385a44c32 0x00007cf9d3a33d4b)
    (bn 0x00011205877aaa68 0x000479955893d579 0x00050d66309b67a0 0x0002d42d0dbee5ee 0x0006f117b689f0c6);
  mk_niels (bn 0x00011fe8a4fcd265 0x0007bcb8374faacc 0x00052f5af4ef4d4f 0x0005314098f98d10 0x0002ab91587555bd)
    (bn 0x0005b0a84cee9730 0x00061d10c97155e4 0x0004059cc8096a10 0x00047a608da8014f 0x0007a164e1b9a80f)
    (bn 0x0006933f0dd0d889 0x00044386bb4c4295 0x0003cb6d3162508c 0x00026368b872a2c6 0x0005a2826af12b9b);
  mk_niels (bn 0x000182c3a447d6ba 0x00022964e536eff2 0x000192821f540053 0x0002f9f19e788e5c 0x000154a7e73eb1b5)
    (bn 0x0002bc4408a5bb33 0x000078ebdda05442 0x0002ffb112354123 0x000375ee8df5862d 0x0002945ccf146e20)
    (bn 0x0003dbf1812a8285 0x0000fa17ba3f9797 0x0006f69cb49c3820 0x00034d5a0db3858d 0x00043aabe696b3bb);
  mk_niels (bn 0x00072c9aaa3221b1 0x000267774474f74d 0x000064b0e9b28085 0x0003f04ef53b27c9 0x0001d6edd5d2e531)
    (bn 0x00025cd0944ea3bf 0x00075673b81a4d63 0x000150b925d1c0d4 0x00013f38d9294114 0x000461bea69283c9)
    (bn 0x00036dc801b8b3a2 0x0000e0a7d4935e30 0x0001deb7cecc0d7d 0x000053a94e20dd2c 0x0007a9fbb1c6a0f9);
  mk_niels (bn 0x0006217e039d8064 0x0006dea408337e6d 0x00057ac112628206 0x000647cb65e30473 0x00049c05a51fadc9)
    (bn 0x0006678aa6a8632f 0x0005ea3788d8b365 0x00021bd6d6994279 0x0007ace75919e4e3 0x00034b9ed338add7)
    (bn 0x0004e8bf9045af1b 0x000514e33a45e0d6 0x0007533c5b8bfe0f 0x000583557b7e14c9 0x00073c172021b008);
  mk_niels (bn 0x00075b0249864348 0x00052ee11070262b 0x000237ae54fb5acd 0x0003bfd1d03aaab5 0x00018ab598029d5c)
    (bn 0x000700848a802ade 0x0001e04605c4e5f7 0x0005c0d01b9767fb 0x0007d7889f42388b 0x0004275aae2546d8)
    (bn 0x00032cc5fd6089e9 0x000426505c949b05 0x00046a18880c7ad2 0x0004a4221888ccda 0x0003dc65522b53df);
  mk_niels (bn 0x0007013b327fbf93 0x0001336eeded6a0d 0x0002b565a2bbf3af 0x000253ce89591955 0x0000267882d17602)
    (bn 0x0000c222a2007f6d 0x000356b79bdb77ee 0x00041ee81efe12ce 0x000120a9bd07097d 0x000234fd7eec346f)
    (bn 0x0000a119732ea378 0x00063bf1ba8e2a6c 0x00069f94cc90df9a 0x000431d1779bfc48 0x000497ba6fdaa097);
  mk_niels (bn 0x0003cd86468ccf0b 0x00048553221ac081 0x0006c9464b4e0a6e 0x00075fba84180403 0x00043b5cd4218d05)
    (bn 0x0006cc0313cfeaa0 0x0001a313848da499 0x0007cb534219230a 0x00039596dedefd60 0x00061e22917f12de)
    (bn 0x0002762f9bd0b516 0x0001c6e7fbddcbb3 0x00075909c3ace2bd 0x00042101972d3ec9 0x000511d61210ae4d);
  mk_niels (bn 0x000386484420de87 0x0002d6b25db68102 0x000650b4962873c0 0x0004081cfd271394 0x00071a7fe6fe2482)
    (bn 0x000676ef950e9d81 0x0001b81ae089f258 0x00063c4922951883 0x0002f1d54d9b3237 0x0006d325924ddb85)
    (bn 0x000182b8a5c8c854 0x00073fcbe5406d8e 0x0005de3430cff451 0x000554b967ac8c41 0x0004746c4b6559ee);
  mk_niels (bn 0x000546c864741147 0x0003a1df99092690 0x0001ca8cc9f4d6bb 0x00036b7fc9cd3b03 0x000219663497db5e)
    (bn 0x00077b3c6dc69a2b 0x0004edf13ec2fa6e 0x0004e85ad77beac8 0x0007dba2b28e7bda 0x0005c9a51de34fe9)
    (bn 0x0000f1cf79f10e67 0x00043ccb0a2b7ea2 0x00005089dfff776a 0x0001dd84e1d38b88 0x0004804503c60822);
  mk_niels (bn 0x000021d23a36d175 0x0004fd3373c6476d 0x00020e291eeed02a 0x00062f2ecf2e7210 0x000771e098858de4)
    (bn 0x00049ed02ca37fc7 0x000474c2b5957884 0x0005b8388e816683 0x0004b6c454b76be4 0x000553398a516506)
    (bn 0x0002f5d278451edf 0x000730b133997342 0x0006965420eb6975 0x000308a3bfa516cf 0x0005a5ed1d68ff5a);
  mk_niels (bn 0x0005e0c558527359 0x0003395b73afd75c 0x000072afa4e4b970 0x00062214329e0f6d 0x000019b60135fefd)
    (bn 0x0005122afe150e83 0x0004afc966bb0232 0x0001c478833c8268 0x00017839c3fc148f 0x00044acb897d8bf9)
    (bn 0x000068145e134b83 0x0001e4860982c3cc 0x000068fb5f13d799 0x0007c9283744547e 0x000150c49fde6ad2);
  mk_niels (bn 0x0001863c9cdca868 0x0003770e295a1709 0x0000d85a3720fd13 0x0005e0ff1f71ab06 0x00078a6d7791e05f)
    (bn 0x0003f29509471138 0x000729eeb4ca31cf 0x00069c22b575bfbc 0x0004910857bce212 0x0006b2b5a075bb99)
    (bn 0x0007704b47a0b976 0x0002ae82e91aab17 0x00050bd6429806cd 0x00068055158fd8ea 0x000725c7ffc4ad55);
  mk_niels (bn 0x00002bf71cd098c0 0x00049dabcc6cd230 0x00040a6533f905b2 0x000573efac2eb8a4 0x0004cd54625f855f)
    (bn 0x00026715d1cf99b2 0x0002205441a69c88 0x000448427dcd4b54 0x0001d191e88abdc5 0x000794cc9277cb1f)
    (bn 0x0006c426c2ac5053 0x0005a65ece4b095e 0x0000c44086f26bb6 0x0007429568197885 0x0007008357b6fcc8);
  mk_niels (bn 0x00039fbb82584a34 0x00047a568f257a03 0x00014d88091ead91 0x0002145b18b1ce24 0x00013a92a3669d6d)
    (bn 0x0000672738773f01 0x000752bf799f6171 0x0006b4a6dae33323 0x0007b54696ead1dc 0x00006ef7e9851ad0)
    (bn 0x0003771cc0577de5 0x0003ca06bb8b9952 0x00000b81c5d50390 0x00043512340780ec 0x0003c296ddf8a2af);
  mk_niels (bn 0x00034d2ebb1f2541 0x0000e815b723ff9d 0x000286b416e25443 0x0000bdfe38d1bee8 0x0000a892c7007477)
    (bn 0x000515f9d914a713 0x00073191ff2255d5 0x00054f5cc2a4bdef 0x0003dd57fc118bcf 0x0007a99d393490c7)
    (bn 0x0002ed2436bda3e8 0x00002afd00f291ea 0x0000be7381dea321 0x0003e952d4b2b193 0x000286762d28302f);
  mk_niels (bn 0x00058e2bce2ef5bd 0x00068ce8f78c6f8a 0x0006ee26e39261b2 0x00033d0aa50bcf9d 0x0007686f2a3d6f17)
    (bn 0x000036093ce35b25 0x0003b64d7552e9cf 0x00071ee0fe0b8460 0x00069d0660c969e5 0x00032f1da046a9d9)
    (bn 0x000512a66d597c6a 0x0000609a70a57551 0x000026c08a3c464c 0x0004531fc8ee39e1 0x000561305f8a9ad2);
  mk_niels (bn 0x0002cc28e7b0c0d5 0x00077b60eb8a6ce4 0x0004042985c277a6 0x000636657b46d3eb 0x000030a1aef2c57c)
    (bn 0x0004978dec92aed1 0x000069adae7ca201 0x00011ee923290f55 0x00069641898d916c 0x00000aaec53e35d4)
    (bn 0x0001f773003ad2aa 0x000005642cc10f76 0x00003b48f82cfca6 0x0002403c10ee4329 0x00020be9c1c24065);
  mk_niels (bn 0x0000e44ae2025e60 0x0005f97b9727041c 0x0005683472c0ecec 0x000188882eb1ce7c 0x00069764c545067e)
    (bn 0x000387d8249673a6 0x0005bea8dc927c2a 0x0005bd8ed5650ef0 0x0000ef0e3fcd40e1 0x000750ab3361f0ac)
    (bn 0x00023283a2f81037 0x000477aff97e23d1 0x0000b8958dbcbb68 0x0000205b97e8add6 0x00054f96b3fb7075);
  mk_niels (bn 0x0005afc616b11ecd 0x00039f4aec8f22ef 0x0003b39e1625d92e 0x0005f85bd4508873 0x00078e6839fbe85d)
    (bn 0x0005f20429669279 0x00008fafae4941f5 0x00015d83c4eb7688 0x0001cf379eca4146 0x0003d7fe9c52bb75)
    (bn 0x00032df737b8856b 0x0000608342f14e06 0x0003967889d74175 0x0001211907fba550 0x00070f268f350088);
  mk_niels (bn 0x0004112070dcf355 0x0007dcff9c22e464 0x00054ada60e03325 0x00025cd98eef769a 0x000404e56c039b8c)
    (bn 0x00064583b1805f47 0x00022c1baf832cd0 0x000132c01bd4d717 0x0004ecf4c3a75b8f 0x0007c0d345cfad88)
    (bn 0x00071f4b8c78338a 0x00062cfc16bc2b23 0x00017cf51280d9aa 0x0003bbae5e20a95a 0x00020d754762aaec);
  mk_niels (bn 0x0004feb135b9f543 0x00063bd192ad93ae 0x00044e2ea612cdf7 0x000670f4991583ab 0x00038b8ada8790b4)
    (bn 0x0007c36fc73bb758 0x0004a6c797734bd1 0x0000ef248ab3950e 0x00063154c9a53ec8 0x0002b8f1e46f3cee)
    (bn 0x00004a9cdf51f95d 0x0005d963fbd596b8 0x00022d9b68ace54a 0x0004a98e8836c599 0x000049aeb32ceba1);
  mk_niels (bn 0x00067d3c63dcfe7e 0x000112f0adc81aee 0x00053df04c827165 0x0002fe5b33b430f0 0x00051c665e0c8d62)
    (bn 0x00007d0b75fc7931 0x00016f4ce4ba754a 0x0005ace4c03fbe49 0x00027e0ec12a159c 0x000795ee17530f67)
    (bn 0x00025b0a52ecbd81 0x0005dc0695fce4a9 0x0003b928c575047d 0x00023bf3512686e5 0x0006cd19bf49dc54);
  mk_niels (bn 0x0007619052179ca3 0x0000c16593f0afd0 0x000265c4795c7428 0x00031c40515d5442 0x0007520f3db40b2e)
    (bn 0x0006612165afc386 0x0001171aa36203ff 0x0002642ea820a8aa 0x0001f3bb7b313f10 0x0005e01b3a7429e4)
    (bn 0x00050be3d39357a1 0x0003ab33d294a7b6 0x0004c479ba59edb3 0x0004c30d184d326f 0x00071092c9ccef3c);
  mk_niels (bn 0x0000523f0364918c 0x000687f56d638a7b 0x00020796928ad013 0x0005d38405a54f33 0x0000ea15b03d0257)
    (bn 0x0003d8ac74051dcf 0x00010ab6f543d0ad 0x0005d0f3ac0fda90 0x0005ef1d2573e5e4 0x0004173a5bb7137a)
    (bn 0x00056e31f0f9218a 0x0005635f88e102f8 0x0002cbc5d969a5b8 0x000533fbc98b347a 0x0005fc565614a4e3);
  mk_niels (bn 0x0006570dc46d7ae5 0x00018a9f1b91e26d 0x000436b6183f42ab 0x000550acaa4f8198 0x00062711c414c454)
    (bn 0x0002e1e67790988e 0x0001e38b9ae44912 0x000648fbb4075654 0x00028df1d840cd72 0x0003214c7409d466)
    (bn 0x0001827406651770 0x0004d144f286c265 0x00017488f0ee9281 0x00019e6cdb5c760c 0x0005bea94073ecb8);
  mk_niels (bn 0x0005bf0912c89be4 0x00062fadcaf38c83 0x00025ec196b3ce2c 0x00077655ff4f017b 0x0003aacd5c148f61)
    (bn 0x0000ce63f343d2f8 0x0001e0a87d1e368e 0x000045edbc019eea 0x0006979aed28d0d1 0x0004ad0785944f1b)
    (bn 0x00063b34c3318301 0x0000e0e62d04d0b1 0x000676a233726701 0x00029e9a042d9769 0x0003aff0cb1d9028);
  mk_niels (bn 0x0005c7eb3a20405e 0x0005fdb5aad930f8 0x0004a757e63b8c47 0x00028e9492972456 0x000110e7e86f4cd2)
    (bn 0x0006430bf4c53505 0x000264c3e4507244 0x00074c9f19a39270 0x00073f84f799bc47 0x0002ccf9f732bd99)
    (bn 0x0000d89ed603f5e4 0x00051e1604018af8 0x0000b8eedc4a2218 0x00051ba98b9384d0 0x00005c557e0b9693);
  mk_niels (bn 0x0001ce311fc97e6f 0x0006023f3fb5db1f 0x0007b49775e8fc98 0x0003ad70adbf5045 0x0006e154c178fe98)
    (bn 0x0006bbb089c20eb0 0x0006df41fb0b9eee 0x00051087ed87e16f 0x000102db5c9fa731 0x000289fef0841861)
    (bn 0x00016336fed69abf 0x0004f066b929f9ec 0x0004e9ff9e6c5b93 0x00018c89bc4bb2ba 0x0006afbf642a95ca);
  mk_niels (bn 0x0000de0c62f5d2c1 0x00049601cf734fb5 0x0006b5c38263f0f6 0x0004623ef5b56d06 0x0000db4b851b9503)
    (bn 0x00055070f913a8cc 0x000765619eac2bbc 0x0003ab5225f47459 0x00076ced14ab5b48 0x00012c093cedb801)
    (bn 0x00047f9308b8190f 0x000414235c621f82 0x00031f5ff41a5a76 0x0006736773aab96d 0x00033aa8799c6635);
  mk_niels (bn 0x0007f51ebd085cf2 0x00012cfa67e3f5e1 0x0001800cf1e3d46a 0x00054337615ff0a8 0x000233c6f29e8e21)
    (bn 0x0000f588fc156cb1 0x000363414da4f069 0x0007296ad9b68aea 0x0004d3711316ae43 0x000212cd0c1c8d58)
    (bn 0x0004d5107f18c781 0x00064a4fd3a51a5e 0x0004f4cd0448bb37 0x000671d38543151e 0x0001db7778911914);
  mk_niels (bn 0x000352397c6bc26f 0x00018a7aa0227bbe 0x0005e68cc1ea5f8b 0x0006fe3e3a7a1d5f 0x00031ad97ad26e2a)
    (bn 0x00014769dd701ab6 0x00028339f1b4b667 0x0004ab214b8ae37b 0x00025f0aefa0b0fe 0x0007ae2ca8a017d2)
    (bn 0x000017ed0920b962 0x000187e33b53b6fd 0x00055829907a1463 0x000641f248e0a792 0x0001ed1fc53a6622)
].

Definition ge25519_niels_base_multiples : list (list Z) := [
  [0x3e;0x91;0x40;0xd7;0x05;0x39;0x10;0x9d;0xb3;0xbe;0x40;0xd1;0x05;0x9f;0x39;0xfd;0x09;0x8a;0x8f;0x68;0x34;0x84;0xc1;0xa5;
   0x67;0x12;0xf8;0x98;0x92;0x2f;0xfd;0x44;0x85;0x3b;0x8c;0xf5;0xc6;0x93;0xbc;0x2f;0x19;0x0e;0x8c;0xfb;0xc6;0x2d;0x93;0xcf;
   0xc2;0x42;0x3d;0x64;0x98;0x48;0x0b;0x27;0x65;0xba;0xd4;0x33;0x3a;0x9d;0xcf;0x07;0x59;0xbb;0x6f;0x4b;0x67;0x15;0xbd;0xdb;
   0xea;0xa5;0xa2;0xee;0x00;0x3f;0xe1;0x41;0xfa;0xc6;0x57;0xc9;0x1c;0x9d;0xd4;0xcd;0xca;0xec;0x16;0xaf;0x1f;0xbe;0x0e;0x4f];
  [0xa8;0xd5;0xb4;0x42;0x60;0xa5;0x99;0x8a;0xf6;0xac;0x60;0x4e;0x0c;0x81;0x2b;0x8f;0xaa;0x37;0x6e;0xb1;0x6b;0x23;0x9e;0xe0;
   0x55;0x25;0xc9;0x69;0xa6;0x95;0xb5;0x6b;0xd7;0x71;0x3c;0x93;0xfc;0xe7;0x24;0x92;0xb5;0xf5;0x0f;0x7a;0x96;0x9d;0x46;0x9f;
   0x02;0x07;0xd6;0xe1;0x65;0x9a;0xa6;0x5a;0x2e;0x2e;0x7d;0xa8;0x3f;0x06;0x0c;0x59;0x02;0x68;0xd3;0xda;0xaa;0x7e;0x34;0x6e;
   0x05;0x48;0xee;0x83;0x93;0x59;0xf3;0xba;0x26;0x68;0x07;0xe6;0x10;0xbe;0xca;0x3b;0xb8;0xd1;0x5e;0x16;0x0a;0x4f;0x31;0x49];
  [0x65;0xd2;0xfc;0xa4;0xe8;0x1f;0x61;0x56;0x7d;0xba;0xc1;0xe5;0xfd;0x53;0xd3;0x3b;0xbd;0xd6;0x4b;0x21;0x1a;0xf3;0x31;0x81;
   0x62;0xda;0x5b;0x55;0x87;0x15;0xb9;0x2a;0x30;0x97;0xee;0x4c;0xa8;0xb0;0x25;0xaf;0x8a;0x4b;0x86;0xe8;0x30;0x84;0x5a;0x02;
   0x32;0x67;0x01;0x9f;0x02;0x50;0x1b;0xc1;0xf4;0xf8;0x80;0x9a;0x1b;0x4e;0x16;0x7a;0x34;0x48;0x67;0xf1;0xf4;0x11;0xf2;0x9b;
   0x95;0xf8;0x2d;0xf6;0x17;0x6b;0x4e;0xb8;0x4e;0x2a;0x72;0x5b;0x07;0x6f;0xde;0xd7;0x21;0x2a;0xbb;0x63;0xb9;0x04;0x9a;0x54];
  [0xbf;0x18;0x68;0x05;0x0a;0x05;0xfe;0x95;0xa9;0xfa;0x60;0x56;0x71;0x89;0x7e;0x32;0x73;0x50;0xa0;0x06;0xcd;0xe3;0xe8;0xc3;
   0x9a;0xa4;0x45;0x74;0x4c;0x3f;0x93;0x27;0x9f;0x09;0xfc;0x8e;0xb9;0x51;0x73;0x28;0x38;0x25;0xfd;0x7d;0xf4;0xc6;0x65;0x67;
   0x65;0x92;0x0a;0xfb;0x3d;0x8d;0x34;0xca;0x27;0x87;0xe5;0x21;0x03;0x91;0x0e;0x68;0xb0;0x26;0x14;0xe5;0xec;0x45;0x1e;0xbf;
   0x94;0x0f;0xba;0x6d;0x3d;0xc6;0x2b;0xe3;0xc0;0x52;0xf8;0x8c;0xd5;0x74;0x29;0xe4;0x18;0x4c;0xe6;0xb0;0xb1;0x79;0xf0;0x44];
  [0xba;0xd6;0x47;0xa4;0xc3;0x82;0x91;0x7f;0xb7;0x29;0x27;0x4b;0xd1;0x14;0x00;0xd5;0x87;0xa0;0x64;0xb8;0x1c;0xf1;0x3c;0xe3;
   0xf3;0x55;0x1b;0xeb;0x73;0x7e;0x4a;0x15;0x33;0xbb;0xa5;0x08;0x44;0xbc;0x12;0xa2;0x02;0xed;0x5e;0xc7;0xc3;0x48;0x50;0x8d;
   0x44;0xec;0xbf;0x5a;0x0c;0xeb;0x1b;0xdd;0xeb;0x06;0xe2;0x46;0xf1;0xcc;0x45;0x29;0xb3;0x03;0xd0;0xe7;0x79;0xa1;0x32;0xc8;
   0x7e;0x4d;0x12;0x00;0x0a;0x9d;0x72;0x5f;0xf3;0x8f;0x6d;0x0e;0xa1;0xd4;0xc1;0x62;0x98;0x7a;0xb2;0x38;0x59;0xac;0xb8;0x68];
  [0xa4;0x8c;0x7d;0x7b;0xb6;0x06;0x98;0x49;0x39;0x27;0xd2;0x27;0x84;0xe2;0x5b;0x57;0xb9;0x53;0x45;0x20;0xe7;0x5c;0x08;0xbb;
   0x84;0x78;0x41;0xae;0x41;0x4c;0xb6;0x38;0x31;0x71;0x15;0x77;0xeb;0xee;0x0c;0x3a;0x88;0xaf;0xc8;0x00;0x89;0x15;0x27;0x9b;
   0x36;0xa7;0x59;0xda;0x68;0xb6;0x65;0x80;0xbd;0x38;0xcc;0xa2;0xb6;0x7b;0xe5;0x51;0xa4;0xe3;0x9d;0x68;0x91;0xad;0x9d;0x8f;
   0x37;0x91;0xfb;0xf8;0x28;0x24;0x5f;0x17;0x88;0xb9;0xcf;0x9f;0x32;0xb5;0x0a;0x05;0x9f;0xc0;0x54;0x13;0xa2;0xdf;0x65;0x78];
  [0xb1;0x21;0x32;0xaa;0x9a;0x2c;0x6f;0xba;0xa7;0x23;0xba;0x3b;0x53;0x21;0xa0;0x6c;0x3a;0x2c;0x19;0x92;0x4f;0x76;0xea;0x9d;
   0xe0;0x17;0x53;0x2e;0x5d;0xdd;0x6e;0x1d;0xbf;0xa3;0x4e;0x94;0xd0;0x5c;0x1a;0x6b;0xd2;0xc0;0x9d;0xb3;0x3a;0x35;0x70;0x74;
   0x49;0x2e;0x54;0x28;0x82;0x52;0xb2;0x71;0x7e;0x92;0x3c;0x28;0x69;0xea;0x1b;0x46;0x36;0xda;0x0f;0xab;0xac;0x8a;0x7a;0x21;
   0xc8;0x49;0x35;0x3d;0x54;0xc6;0x28;0xa5;0x68;0x75;0xab;0x13;0x8b;0x5b;0xd0;0x37;0x37;0xbc;0x2c;0x3a;0x62;0xef;0x3c;0x23];
  [0xd9;0x34;0x92;0xf3;0xed;0x5d;0xa7;0xe2;0xf9;0x58;0xb5;0xe1;0x80;0x76;0x3d;0x96;0xfb;0x23;0x3c;0x6e;0xac;0x41;0x27;0x2c;
   0xc3;0x01;0x0e;0x32;0xa1;0x24;0x90;0x3a;0x8f;0x3e;0xdd;0x04;0x66;0x59;0xb7;0x59;0x2c;0x70;0x88;0xe2;0x77;0x03;0xb3;0x6c;
   0x23;0xc3;0xd9;0x5e;0x66;0x9c;0x33;0xb1;0x2f;0xe5;0xbc;0x61;0x60;0xe7;0x15;0x09;0x7e;0xa3;0x34;0xa8;0x35;0xe8;0x7d;0xdf;
   0xea;0x57;0x98;0x68;0xda;0x9c;0xe1;0x8b;0x26;0xb3;0x67;0x71;0x36;0x85;0x11;0x2c;0xc2;0xd5;0xef;0xdb;0xd9;0xb3;0x9e;0x58];
  [0x5e;0x51;0xaa;0x49;0x54;0x63;0x5b;0xed;0x3a;0x82;0xc6;0x0b;0x9f;0xc4;0x65;0xa8;0xc4;0xd1;0x42;0x5b;0xe9;0x1f;0x0c;0x85;
   0xb9;0x15;0xd3;0x03;0x6f;0x6d;0xd7;0x30;0x1d;0x9c;0x2f;0x63;0x0e;0xdd;0xcc;0x2e;0x15;0x31;0x89;0x76;0x96;0xb6;0xd0;0x51;
   0x58;0x7a;0x63;0xa8;0x6b;0xb7;0xdf;0x52;0x39;0xef;0x0e;0xa0;0x49;0x7d;0xd3;0x6d;0xc7;0xe4;0x06;0x21;0x17;0x44;0x44;0x6c;
   0x69;0x7f;0x8d;0x92;0x80;0xd6;0x53;0xfb;0x26;0x3f;0x4d;0x69;0xa4;0x9e;0x73;0xb4;0xb0;0x4b;0x86;0x2e;0x11;0x97;0xc6;0x10];
  [0xde;0x5f;0xbe;0x7d;0x27;0xc4;0x93;0x64;0xa2;0x7e;0xad;0x19;0xad;0x4f;0x5d;0x26;0x90;0x45;0x30;0x46;0xc8;0xdf;0x00;0x0e;
   0x09;0xfe;0x66;0xed;0xab;0x1c;0xe6;0x25;0x05;0xc8;0x58;0x83;0xa0;0x2a;0xa6;0x0c;0x47;0x42;0x20;0x7a;0xe3;0x4a;0x3d;0x6a;
   0xdc;0xed;0x11;0x3b;0xa6;0xd3;0x64;0x74;0xef;0x06;0x08;0x55;0xaf;0x9b;0xbf;0x03;0x04;0x66;0x58;0xcc;0x28;0xe1;0x13;0x3f;
   0x7e;0x74;0x59;0xb4;0xec;0x73;0x58;0x6f;0xf5;0x68;0x12;0xcc;0xed;0x3d;0xb6;0xa0;0x2c;0xe2;0x86;0x45;0x63;0x78;0x6d;0x56];
  [0x34;0x08;0xc1;0x9c;0x9f;0xa4;0x37;0x16;0x51;0xc4;0x9b;0xa8;0xd5;0x56;0x8e;0xbc;0xdb;0xd2;0x7f;0x7f;0x0f;0xec;0xb5;0x1c;
   0xd9;0x35;0xcc;0x5e;0xca;0x5b;0x97;0x33;0xd0;0x2f;0x5a;0xc6;0x85;0x42;0x05;0xa1;0xc3;0x67;0x16;0xf3;0x2a;0x11;0x64;0x6c;
   0x58;0xee;0x1a;0x73;0x40;0xe2;0x0a;0x68;0x2a;0xb2;0x93;0x47;0xf3;0xa5;0xfb;0x14;0xd4;0xf7;0x85;0x69;0x16;0x46;0xd7;0x3c;
   0x57;0x00;0xc8;0xc9;0x84;0x5e;0x3e;0x59;0x1e;0x13;0x61;0x7b;0xb6;0xf2;0xc3;0x2f;0x6c;0x52;0xfc;0x83;0xea;0x9c;0x82;0x14];
  [0xc2;0x95;0xdd;0x97;0x84;0x7b;0x43;0xff;0xa7;0xb5;0x4e;0xaa;0x30;0x4e;0x74;0x6c;0x8b;0xe8;0x85;0x3c;0x61;0x5d;0x0c;0x9e;
   0x73;0x81;0x75;0x5f;0x1e;0xc7;0xd9;0x2f;0xb8;0xec;0x71;0x4e;0x2f;0x0b;0xe7;0x21;0xe3;0x77;0xa4;0x40;0xb9;0xdd;0x56;0xe6;
   0x80;0x4f;0x1d;0xce;0xce;0x56;0x65;0xbf;0x7e;0x7b;0x5d;0x53;0xc4;0x3b;0xfc;0x05;0xdd;0xde;0xaf;0x52;0xae;0xb3;0xb8;0x24;
   0xcf;0x30;0x3b;0xed;0x8c;0x63;0x95;0x34;0x95;0x81;0xbe;0xa9;0x83;0xbc;0xa4;0x33;0x04;0x1f;0x65;0x5c;0x47;0x67;0x37;0x37];
  [0xd9;0xad;0xd1;0x40;0xfd;0x99;0xba;0x2f;0x27;0xd0;0xf4;0x96;0x6f;0x16;0x07;0xb3;0xae;0x3b;0xf0;0x15;0x52;0xf0;0x63;0x43;
   0x99;0xf9;0x18;0x3b;0x6c;0xa5;0xbe;0x1f;0x90;0x65;0x24;0x14;0xcb;0x95;0x40;0x63;0x35;0x55;0xc1;0x16;0x40;0x14;0x12;0xef;
   0x60;0xbc;0x10;0x89;0x0c;0x14;0x38;0x9e;0x8c;0x7c;0x90;0x30;0x57;0x90;0xf5;0x6b;0x8a;0x5b;0x41;0xe1;0xf1;0x78;0xa7;0x0f;
   0x7e;0xa7;0xc3;0xba;0xf7;0x9f;0x40;0x06;0x50;0x9a;0xa2;0x9a;0xb8;0xd7;0x52;0x6f;0x56;0x5a;0x63;0x7a;0xf6;0x1c;0x52;0x02];
  [0x94;0x52;0x9d;0x0a;0x0b;0xee;0x3f;0x51;0x66;0x5a;0xdf;0x0f;0x5c;0xe7;0x98;0x8f;0xce;0x07;0xe1;0xbf;0x88;0x86;0x61;0xd4;
   0xed;0x2c;0x38;0x71;0x7e;0x0a;0xa0;0x3f;0xe4;0x5e;0x2f;0x77;0x20;0x67;0x14;0xb1;0xce;0x9a;0x07;0x96;0xb1;0x94;0xf8;0xe8;
   0x4a;0x82;0xac;0x00;0x4d;0x22;0xf8;0x4a;0xc4;0x6c;0xcd;0xf7;0xd9;0x53;0x17;0x00;0x34;0xdb;0x3d;0x96;0x2d;0x23;0x69;0x3c;
   0x58;0x38;0x97;0xb4;0xda;0x87;0xde;0x1d;0x85;0xf2;0x91;0xa0;0xf9;0xd1;0xd7;0xaa;0xb6;0xed;0x48;0xa0;0x2f;0xfe;0xb5;0x12];
  [0x4d;0xe3;0xfc;0x96;0xc4;0xfb;0xf0;0x71;0xed;0x5b;0xf3;0xad;0x6b;0x82;0xb9;0x73;0x61;0xc5;0x28;0xff;0x61;0x72;0x04;0xd2;
   0x6f;0x20;0xb1;0x6f;0xf9;0x76;0x9b;0x74;0x92;0x1e;0x6f;0xad;0x26;0x7c;0x2b;0xdf;0x13;0x89;0x4b;0x50;0x23;0xd3;0x66;0x4b;
   0xc3;0x8b;0x1c;0x75;0xc0;0x9d;0x40;0x8c;0xb8;0xc7;0x96;0x07;0xc2;0x93;0x7e;0x6f;0x05;0xae;0xa6;0xae;0x04;0xf6;0x5a;0x1f;
   0x99;0x9c;0xe4;0xbe;0xf1;0x51;0x23;0xc1;0x66;0x6b;0xff;0xee;0xb5;0x08;0xa8;0x61;0x51;0x21;0xe0;0x01;0x0f;0xc1;0xce;0x0f];
  [0x44;0x1e;0xfe;0x49;0xa6;0x58;0x4d;0x64;0x7e;0x77;0xad;0x31;0xa2;0xae;0xfc;0x21;0xd2;0xd0;0x7f;0x88;0x5a;0x1c;0x44;0x02;
   0xf3;0x11;0xc5;0x83;0x71;0xaa;0x01;0x49;0x45;0x4e;0x24;0xc4;0x9d;0xd2;0xf2;0x3d;0x0a;0xde;0xd8;0x93;0x74;0x0e;0x02;0x2b;
   0x4d;0x21;0x0c;0x82;0x7e;0x06;0xc8;0x6c;0x0a;0xb9;0xea;0x6f;0x16;0x79;0x37;0x41;0xf0;0xf8;0x1a;0x8c;0x54;0xb7;0xb1;0x08;
   0xb4;0x99;0x62;0x24;0x7c;0x7a;0x0f;0xce;0x39;0xd9;0x06;0x1e;0xf9;0xb0;0x60;0xf7;0x13;0x12;0x6d;0x72;0x7b;0x88;0xbb;0x41];
  [0xbe;0x46;0x43;0x74;0x44;0x7d;0xe8;0x40;0x25;0x2b;0xb5;0x15;0xd4;0xda;0x48;0x1d;0x3e;0x60;0x3b;0xa1;0x18;0x8a;0x3a;0x7c;
   0xf7;0xbd;0xcd;0x2f;0xc1;0x28;0xb7;0x4e;0xae;0x91;0x66;0x7c;0x59;0x4c;0x23;0x7e;0xc8;0xb4;0x85;0x0a;0x3d;0x9d;0x88;0x64;
   0xe7;0xfa;0x4a;0x35;0x0c;0xc9;0xe2;0xda;0x1d;0x9e;0x6a;0x0c;0x07;0x1e;0x87;0x0a;0x89;0x89;0xbc;0x4b;0x99;0xb5;0x01;0x33;
   0x60;0x42;0xdd;0x5b;0x3a;0xae;0x6b;0x73;0x3c;0x9e;0xd5;0x19;0xe2;0xad;0x61;0x0d;0x64;0xd4;0x85;0x26;0x0f;0x30;0xe7;0x3e];
  [0xb7;0xd6;0x7d;0x9e;0xe4;0x55;0xd2;0xf5;0xac;0x1e;0x0b;0x61;0x5c;0x11;0x16;0x80;0xca;0x87;0xe1;0x92;0x5d;0x97;0x99;0x3c;
   0xc2;0x25;0x91;0x97;0x62;0x57;0x81;0x13;0x18;0x75;0x1e;0x84;0x47;0x79;0xfa;0x43;0xd7;0x46;0x9c;0x63;0x59;0xfa;0xc6;0xe5;
   0x74;0x2b;0x05;0xe3;0x1d;0x5e;0x06;0xa1;0x30;0x90;0xb8;0xcf;0xa2;0xc6;0x47;0x7d;0xe0;0xd6;0xf0;0x8e;0x14;0xd0;0xda;0x3f;
   0x3c;0x6f;0x54;0x91;0x9a;0x74;0x3e;0x9d;0x57;0x81;0xbb;0x26;0x10;0x62;0xec;0x71;0x80;0xec;0xc9;0x34;0x8d;0xf5;0x8c;0x14];
  [0x27;0xf0;0x34;0x79;0xf6;0x92;0xa4;0x46;0xa9;0x0a;0x84;0xf6;0xbe;0x84;0x99;0x46;0x54;0x18;0x61;0x89;0x2a;0xbc;0xa1;0x5c;
   0xd4;0xbb;0x5d;0xbd;0x1e;0xfa;0xf2;0x3f;0x6d;0x75;0xe4;0x9a;0x7d;0x2f;0x57;0xe2;0x7f;0x48;0xf3;0x88;0xbb;0x45;0xc3;0x56;
   0x8d;0xa8;0x60;0x69;0x6d;0x0b;0xd1;0x9f;0xb9;0xa1;0xae;0x4e;0xad;0xeb;0x8f;0x27;0x66;0x39;0x93;0x8c;0x1f;0x68;0xaa;0xb1;
   0x98;0x0c;0x29;0x20;0x9c;0x94;0x21;0x8c;0x52;0x3c;0x9d;0x21;0x91;0x52;0x11;0x39;0x7b;0x67;0x9c;0xfe;0x02;0xdd;0x04;0x41];
  [0x2a;0x42;0x24;0x11;0x5e;0xbf;0xb2;0x72;0xb5;0x3a;0xa3;0x98;0x33;0x0c;0xfa;0xa1;0x66;0xb6;0x52;0xfa;0x01;0x61;0xcb;0x94;
   0xd5;0x53;0xaf;0xaf;0x00;0x3b;0x86;0x2c;0xb8;0x6a;0x09;0xdb;0x06;0x4e;0x21;0x81;0x35;0x4f;0xe4;0x0c;0xc9;0xb6;0xa8;0x21;
   0xf5;0x2a;0x9e;0x40;0x2a;0xc1;0x24;0x65;0x81;0xa4;0xfc;0x8e;0xa4;0xb5;0x65;0x01;0x76;0x6a;0x84;0xa0;0x74;0xa4;0x90;0xf1;
   0xc0;0x7c;0x2f;0xcd;0x84;0xf9;0xef;0x12;0x8f;0x2b;0xaa;0x58;0x06;0x29;0x5e;0x69;0xb8;0xc8;0xfe;0xbf;0xd9;0x67;0x1b;0x59];
  [0xfa;0x9b;0xb4;0x80;0x1c;0x0d;0x2f;0x31;0x8a;0xec;0xf3;0xab;0x5e;0x51;0x79;0x59;0x88;0x1c;0xf0;0x9e;0xc0;0x33;0x70;0x72;
   0xcb;0x7b;0x8f;0xca;0xc7;0x2e;0xe0;0x3d;0x5d;0xb5;0x18;0x9f;0x71;0xb3;0xb9;0x99;0x1e;0x64;0x8c;0xa1;0xfa;0xe5;0x65;0xe4;
   0xed;0x05;0x9f;0xc2;0x36;0x11;0x08;0x61;0x8b;0x12;0x30;0x70;0x86;0x4f;0x9b;0x48;0xef;0x92;0xeb;0x3a;0x2d;0x10;0x32;0xd2;
   0x61;0xa8;0x16;0x61;0xb4;0x53;0x62;0xe1;0x24;0xaa;0x0b;0x19;0xe7;0xab;0x7e;0x3d;0xbf;0xbe;0x6c;0x49;0xba;0xfb;0xf5;0x49];
  [0xd4;0xcf;0x5b;0x8a;0x10;0x9a;0x94;0x30;0xeb;0x73;0x64;0xbc;0x70;0xdd;0x40;0xdc;0x1c;0x0d;0x7c;0x30;0xc1;0x94;0xc2;0x92;
   0x74;0x6e;0xfa;0xcb;0x6d;0xa8;0x04;0x56;0x2e;0x57;0x9c;0x1e;0x8c;0x62;0x5d;0x15;0x41;0x47;0x88;0xc5;0xac;0x86;0x4d;0x8a;
   0xeb;0x63;0x57;0x51;0xf6;0x52;0xa3;0x91;0x5b;0x51;0x67;0x88;0xc2;0xa6;0xa1;0x06;0xb6;0x64;0x17;0x7c;0xd4;0xd1;0x88;0x72;
   0x51;0x8b;0x41;0xe0;0x40;0x11;0x54;0x72;0xd1;0xf6;0xac;0x18;0x60;0x1a;0x03;0x9f;0xc6;0x42;0x27;0xfe;0x89;0x9e;0x98;0x20];
  [0x7f;0xcc;0x2d;0x3a;0xfd;0x77;0x97;0x49;0x92;0xd8;0x4f;0xa5;0x2c;0x7c;0x85;0x32;0xa0;0xe3;0x07;0xd2;0x64;0xd8;0x79;0xa2;
   0x29;0x7e;0xa6;0x0c;0x1d;0xed;0x03;0x04;0x2e;0xec;0xea;0x85;0x8b;0x27;0x74;0x16;0xdf;0x2b;0xcb;0x7a;0x07;0xdc;0x21;0x56;
   0x5a;0xf4;0xcb;0x61;0x16;0x4c;0x0a;0x64;0xd3;0x95;0x05;0xf7;0x50;0x99;0x0b;0x73;0x52;0xc5;0x4e;0x87;0x35;0x2d;0x4b;0xc9;
   0x8d;0x6f;0x24;0x98;0xcf;0xc8;0xe6;0xc5;0xce;0x35;0xc0;0x16;0xfa;0x46;0xcb;0xf7;0xcc;0x3d;0x30;0x08;0x43;0x45;0xd7;0x5b];
  [0xc2;0x4c;0xb2;0x28;0x95;0xd1;0x9a;0x7f;0x81;0xc1;0x35;0x63;0x65;0x54;0x6b;0x7f;0x36;0x72;0xc0;0x4f;0x6e;0xb6;0xb8;0x66;
   0x83;0xad;0x80;0x73;0x00;0x78;0x3a;0x13;0x2a;0x79;0xe7;0x15;0x21;0x93;0xc4;0x85;0xc9;0xdd;0xcd;0xbd;0xa2;0x89;0x4c;0xc6;
   0x62;0xd7;0xa3;0xad;0xa8;0x3d;0x1e;0x9d;0x2c;0xf8;0x67;0x30;0x12;0xdb;0xb7;0x5b;0xbe;0x62;0xca;0xc6;0x67;0xf4;0x61;0x09;
   0xee;0x52;0x19;0x21;0xd6;0x21;0xec;0x04;0x70;0x47;0xd5;0x9b;0x77;0x60;0x23;0x18;0xd2;0xe0;0xf0;0x58;0x6d;0xca;0x0d;0x74];
  [0x4e;0xce;0xcf;0x52;0x07;0xee;0x48;0xdf;0xb7;0x08;0xec;0x06;0xf3;0xfa;0xff;0xc3;0xc4;0x59;0x54;0xb9;0x2a;0x0b;0x71;0x05;
   0x8d;0xa3;0x3e;0x96;0xfa;0x25;0x1d;0x16;0x3c;0x43;0x78;0x04;0x57;0x8c;0x1a;0x23;0x9d;0x43;0x81;0xc2;0x0e;0x27;0xb5;0xb7;
   0x9f;0x07;0xd9;0xe3;0xea;0x99;0xaa;0xdb;0xd9;0x03;0x2b;0x6c;0x25;0xf5;0x03;0x2c;0x7d;0xa4;0x53;0x7b;0x75;0x18;0x0f;0x79;
   0x79;0x58;0x0c;0xcf;0x30;0x01;0x7b;0x30;0xf9;0xf7;0x7e;0x25;0x77;0x3d;0x90;0x31;0xaf;0xbb;0x96;0xbd;0xbd;0x68;0x94;0x69];
  [0xcf;0xfe;0xda;0xf4;0x46;0x2f;0x1f;0xbd;0xf7;0xd6;0x7f;0xa4;0x14;0x01;0xef;0x7c;0x7f;0xb3;0x47;0x4a;0xda;0xfd;0x1f;0xd3;
   0x85;0x57;0x90;0x73;0xa4;0x19;0x52;0x52;0x48;0x19;0xa9;0x6a;0xe6;0x3d;0xdd;0xd8;0xcc;0xd2;0xc0;0x2f;0xc2;0x64;0x50;0x48;
   0x2f;0xea;0xfd;0x34;0x66;0x24;0x48;0x9b;0x3a;0x2e;0x4a;0x6c;0x4e;0x1c;0x3e;0x29;0xe1;0x12;0x51;0x92;0x4b;0x13;0x6e;0x37;
   0xa0;0x5d;0xa1;0xdc;0xb5;0x78;0x37;0x70;0x11;0x31;0x1c;0x46;0xaf;0x89;0x45;0xb0;0x23;0x28;0x03;0x7f;0x44;0x5c;0x60;0x5b];
  [0x89;0x7c;0xc4;0x20;0x59;0x80;0x65;0xb9;0xcc;0x8f;0x3b;0x92;0x0c;0x10;0xf0;0xe7;0x77;0xef;0xe2;0x02;0x65;0x25;0x01;0x00;
   0xee;0xb3;0xae;0xa8;0xce;0x6d;0xa7;0x24;0x4c;0xf0;0xe7;0xf0;0xc6;0xfe;0xe9;0x3b;0x62;0x49;0xe3;0x75;0x9e;0x57;0x6a;0x86;
   0x1a;0xe6;0x1d;0x1e;0x16;0xef;0x42;0x55;0xd5;0xbd;0x5a;0xcc;0xf4;0xfe;0x12;0x2f;0x40;0xc7;0xc0;0xdf;0xb2;0x22;0x45;0x0a;
   0x07;0xa4;0xc9;0x40;0x7f;0x6e;0xd0;0x10;0x68;0xf6;0xcf;0x78;0x41;0x14;0xcf;0xc6;0x90;0x37;0xa4;0x18;0x25;0x7b;0x60;0x5e];
  [0x18;0x18;0xdf;0x6c;0x8f;0x1d;0xb3;0x58;0xa2;0x58;0x62;0xc3;0x4f;0xa7;0xcf;0x35;0x6e;0x1d;0xe6;0x66;0x4f;0xff;0xb3;0xe1;
   0xf7;0xd5;0xcd;0x6c;0xab;0xac;0x67;0x50;0x14;0xcf;0x96;0xa5;0x1c;0x43;0x2c;0xa0;0x00;0xe4;0xd3;0xae;0x40;0x2d;0xc4;0xe3;
   0xdb;0x26;0x0f;0x2e;0x80;0x26;0x45;0xd2;0x68;0x70;0x45;0x9e;0x13;0x33;0x1f;0x20;0x51;0x9d;0x03;0x08;0x6b;0x7f;0x52;0xfd;
   0x06;0x00;0x7c;0x01;0x64;0x49;0xb1;0x18;0xa8;0xa4;0x25;0x2e;0xb0;0x0e;0x22;0xd5;0x75;0x03;0x46;0x62;0x88;0xba;0x7c;0x39];
  [0xb2;0x59;0x59;0xf0;0x93;0x30;0xc1;0x30;0x76;0x79;0xa9;0xe9;0x8d;0xa1;0x3a;0xe2;0x26;0x5e;0x1d;0x72;0x91;0xd4;0x2f;0x22;
   0x3a;0x6c;0x6e;0x76;0x20;0xd3;0x39;0x23;0xe7;0x79;0x13;0xc8;0xfb;0xc3;0x15;0x78;0xf1;0x2a;0xe1;0xdd;0x20;0x94;0x61;0xa6;
   0xd5;0xfd;0xa8;0x85;0xf8;0xc0;0xa9;0xff;0x52;0xc2;0xe1;0xc1;0x22;0x40;0x1b;0x77;0xa7;0x2f;0x3a;0x51;0x86;0xd9;0x7d;0xd8;
   0x08;0xcf;0xd4;0xf9;0x71;0x9b;0xac;0xf5;0xb3;0x83;0xa2;0x1e;0x1b;0xc3;0x6b;0xd0;0x76;0x1a;0x97;0x19;0x92;0x18;0x1a;0x33];
  [0xc6;0x80;0x4f;0xfb;0x45;0x6f;0x16;0xf5;0xcf;0x75;0xc7;0x61;0xde;0xc7;0x36;0x9c;0x1c;0xd9;0x41;0x90;0x1b;0xe8;0xd4;0xe3;
   0x21;0xfe;0xbd;0x83;0x6b;0x7c;0x16;0x31;0xaf;0x72;0x75;0x9d;0x3a;0x2f;0x51;0x26;0x9e;0x4a;0x07;0x68;0x88;0xe2;0xcb;0x5b;
   0xc4;0xf7;0x80;0x11;0xc1;0xc1;0xed;0x84;0x7b;0xa6;0x49;0xf6;0x9f;0x61;0xc9;0x1a;0x68;0x10;0x4b;0x52;0x42;0x38;0x2b;0xf2;
   0x87;0xe9;0x9c;0xee;0x3b;0x34;0x68;0x50;0xc8;0x50;0x62;0x4a;0x84;0x71;0x9d;0xfc;0x11;0xb1;0x08;0x1f;0x34;0x36;0x24;0x61];
  [0x8d;0x89;0x4e;0x87;0xdb;0x41;0x9d;0xd9;0x20;0xdc;0x07;0x6c;0xf1;0xa5;0xfe;0x09;0xbc;0x9b;0x0f;0xd0;0x67;0x2c;0x3d;0x79;
   0x40;0xff;0x5e;0x9e;0x30;0xe2;0xeb;0x46;0x38;0x26;0x2d;0x1a;0xe3;0x49;0x63;0x8b;0x35;0xfd;0xd3;0x9b;0x00;0xb7;0xdf;0x9d;
   0xa4;0x6b;0xa0;0xa3;0xb8;0xf1;0x8b;0x7f;0x45;0x04;0xd9;0x78;0x31;0xaa;0x22;0x15;0x38;0x49;0x61;0x69;0x53;0x2f;0x38;0x2c;
   0x10;0x6d;0x2d;0xb7;0x9a;0x40;0xfe;0xda;0x27;0xf2;0x46;0xb6;0x91;0x33;0xc8;0xe8;0x6c;0x30;0x24;0x05;0xf5;0x70;0xfe;0x45];
  [0x8c;0x0b;0x0c;0x96;0xa6;0x75;0x48;0xda;0x20;0x2f;0x0e;0xef;0x76;0xd0;0x68;0x5b;0xd4;0x8f;0x0b;0x3d;0xcf;0x51;0xfb;0x07;
   0xd4;0x92;0xe3;0xa0;0x23;0x16;0x8d;0x42;0x91;0x14;0x95;0xc8;0x20;0x49;0xf2;0x62;0xa2;0x0c;0x63;0x3f;0xc8;0x07;0xf0;0x05;
   0xb8;0xd4;0xc9;0xf5;0xd2;0x45;0xbb;0x6f;0x45;0x22;0x7a;0xb5;0x6d;0x9f;0x61;0x16;0xfd;0x08;0xa3;0x01;0x44;0x4a;0x4f;0x08;
   0xac;0xca;0xa5;0x76;0xc3;0x19;0x22;0xa8;0x7d;0xbc;0xd1;0x43;0x46;0xde;0xb8;0xde;0xc6;0x38;0xbd;0x60;0x2d;0x59;0x81;0x1d];
  [0x5f;0xac;0x0d;0xa6;0x56;0x87;0x36;0x61;0x57;0xdc;0xab;0xeb;0x6a;0x2f;0xe0;0x17;0x7d;0x0f;0xce;0x4c;0x2d;0x3f;0x19;0x7f;
   0xf0;0xdc;0xec;0x89;0x77;0x4a;0x23;0x20;0xe8;0xc5;0x85;0x7b;0x9f;0xb6;0x65;0x87;0xb2;0xba;0x68;0xd1;0x8b;0x67;0xf0;0x6f;
   0x9b;0x0f;0x33;0x1d;0x7c;0xe7;0x70;0x3a;0x7c;0x8e;0xaf;0xb0;0x51;0x6d;0x5f;0x3a;0x52;0xb2;0x78;0x71;0xb6;0x0d;0xd2;0x76;
   0x60;0xd1;0x1e;0xd5;0xf9;0x34;0x1c;0x07;0x70;0x11;0xe4;0xb3;0x20;0x4a;0x2a;0xf6;0x66;0xe3;0xff;0x3c;0x35;0x82;0xd6;0x7c];
  [0xb6;0xfa;0x87;0xd8;0x5b;0xa4;0xe1;0x0b;0x6e;0x3b;0x40;0xba;0x32;0x6a;0x84;0x2a;0x00;0x60;0x6e;0xe9;0x12;0x10;0x92;0xd9;
   0x43;0x09;0xdc;0x3b;0x86;0xc8;0x38;0x28;0xf3;0xf4;0xac;0x68;0x60;0xcd;0x65;0xa6;0xd3;0xe3;0xd7;0x3c;0x18;0x2d;0xd9;0x42;
   0xd9;0x25;0x60;0x33;0x9d;0x38;0x59;0x57;0xff;0xd8;0x2c;0x2b;0x3b;0x25;0xf0;0x3e;0x30;0x50;0x46;0x4a;0xcf;0xb0;0x6b;0xd1;
   0xab;0x77;0xc5;0x15;0x41;0x6b;0x49;0xfa;0x9d;0x41;0xab;0xf4;0x8a;0xae;0xcf;0x82;0x12;0x28;0xa8;0x06;0xa6;0xb8;0xdc;0x21];
  [0xc8;0x9f;0x9d;0x8c;0x46;0x04;0x60;0x5c;0xcb;0xa3;0x2a;0xd4;0x6e;0x09;0x40;0x25;0x9c;0x2f;0xee;0x12;0x4c;0x4d;0x5b;0x12;
   0xab;0x1d;0xa3;0x94;0x81;0xd0;0xc3;0x0b;0xba;0x31;0x77;0xbe;0xfa;0x00;0x8d;0x9a;0x89;0x18;0x9e;0x62;0x7e;0x60;0x03;0x82;
   0x7f;0xd9;0xf3;0x43;0x37;0x02;0xcc;0xb2;0x8b;0x67;0x6f;0x6c;0xbf;0x0d;0x84;0x5d;0x8b;0xe1;0x9f;0x30;0x0d;0x38;0x6e;0x70;
   0xc7;0x65;0xe1;0xb9;0xa6;0x2d;0xb0;0x6e;0xab;0x20;0xae;0x7d;0x99;0xba;0xbb;0x57;0xdd;0x96;0xc1;0x2a;0x23;0x76;0x42;0x3a];
  [0xfa;0x84;0x70;0x8a;0x2c;0x43;0x42;0x4b;0x45;0xe5;0xb9;0xdf;0xe3;0x19;0x8a;0x89;0x5d;0xe4;0x58;0x9c;0x21;0x00;0x9f;0xbe;
   0xd1;0xeb;0x6d;0xa1;0xce;0x77;0xf1;0x1f;0xcb;0x7e;0x44;0xdb;0x72;0xc1;0xf8;0x3b;0xbd;0x2d;0x28;0xc6;0x1f;0xc4;0xcf;0x5f;
   0xfe;0x15;0xaa;0x75;0xc0;0xff;0xac;0x80;0xf9;0xa9;0xe1;0x24;0xe8;0xc9;0x70;0x07;0xfd;0xb5;0xb5;0x45;0x9a;0xd9;0x61;0xcf;
   0x24;0x79;0x3a;0x1b;0xe9;0x84;0x09;0x86;0x89;0x3e;0x3e;0x30;0x19;0x09;0x30;0xe7;0x1e;0x0b;0x50;0x41;0xfd;0x64;0xf2;0x39];
  [0x9c;0xe2;0xe7;0xdb;0x17;0x34;0xad;0xa7;0x9c;0x13;0x9c;0x2b;0x6a;0x37;0x94;0xbd;0xa9;0x7b;0x59;0x93;0x8e;0x1b;0xe9;0xa0;
   0x40;0x98;0x88;0x68;0x34;0xd7;0x12;0x17;0xe1;0x7b;0x09;0xfe;0xab;0x4a;0x9b;0xd1;0x29;0x19;0xe0;0xdf;0xe1;0xfc;0x6d;0xa4;
   0xff;0xf1;0xa6;0x2c;0x94;0x08;0xc9;0xc3;0x4e;0xf1;0x35;0x2c;0x27;0x21;0xc6;0x65;0xdd;0x93;0x31;0xce;0xf8;0x89;0x2b;0xe7;
   0xbb;0xc0;0x25;0xa1;0x56;0x33;0x10;0x4d;0x83;0xfe;0x1c;0x2e;0x3d;0xa9;0x19;0x04;0x72;0xe2;0x9c;0xb1;0x0a;0x80;0xf9;0x22];
  [0xcb;0xf8;0x9e;0x3e;0x8a;0x36;0x5a;0x60;0x15;0x47;0x50;0xa5;0x22;0xc0;0xe9;0xe3;0x8f;0x24;0x24;0x5f;0xb0;0x48;0x3d;0x55;
   0xe5;0x26;0x76;0x64;0xcd;0x16;0xf4;0x13;0xac;0xfd;0x6e;0x9a;0xdd;0x9f;0x02;0x42;0x41;0x49;0xa5;0x34;0xbe;0xce;0x12;0xb9;
   0x7b;0xf3;0xbd;0x87;0xb9;0x64;0x0f;0x64;0xb4;0xca;0x98;0x85;0xd3;0xa4;0x71;0x41;0x8c;0x4c;0xc9;0x99;0xaa;0x58;0x27;0xfa;
   0x07;0xb8;0x00;0xb0;0x6f;0x6f;0x00;0x23;0x92;0x53;0xda;0xad;0xdd;0x91;0xd2;0xfb;0xab;0xd1;0x4b;0x57;0xfa;0x14;0x82;0x50];
  [0x4b;0xfe;0xd6;0x3e;0x15;0x69;0x02;0xc2;0xc4;0x77;0x1d;0x51;0x39;0x67;0x5a;0xa6;0x94;0xaf;0x14;0x2c;0x46;0x26;0xde;0xcb;
   0x4b;0xa7;0xab;0x6f;0xec;0x60;0xf9;0x22;0xd6;0x03;0xd0;0x53;0xbb;0x15;0x1a;0x46;0x65;0xc9;0xf3;0xbc;0x88;0x28;0x10;0xb2;
   0x5a;0x3a;0x68;0x6c;0x75;0x76;0xc5;0x27;0x47;0xb4;0x6c;0xc8;0xa4;0x58;0x77;0x3a;0x76;0x50;0xae;0x93;0xf6;0x11;0x81;0x54;
   0xa6;0x54;0xfd;0x1d;0xdf;0x21;0xae;0x1d;0x65;0x5e;0x11;0xf3;0x90;0x8c;0x24;0x12;0x94;0xf4;0xe7;0x8d;0x5f;0xd1;0x9f;0x5d];
  [0x7f;0x72;0x63;0x6d;0xd3;0x08;0x14;0x03;0x33;0xb5;0xc7;0xd7;0xef;0x9a;0x37;0x6a;0x4b;0xe2;0xae;0xcc;0xc5;0x8f;0xe1;0xa9;
   0xd3;0xbe;0x8f;0x4f;0x91;0x35;0x2f;0x33;0x1e;0x52;0xd7;0xee;0x2a;0x4d;0x24;0x3f;0x15;0x96;0x2e;0x43;0x28;0x90;0x3a;0x8e;
   0xd4;0x16;0x9c;0x2e;0x77;0xba;0x64;0xe1;0xd8;0x98;0xeb;0x47;0xfa;0x87;0xc1;0x3b;0x0c;0xc2;0x86;0xea;0x15;0x01;0x47;0x6d;
   0x25;0xd1;0x46;0x6c;0xcb;0xb7;0x8a;0x99;0x88;0x01;0x66;0x3a;0xb5;0x32;0x78;0xd7;0x03;0xba;0x6f;0x90;0xce;0x81;0x0d;0x45];
  [0x75;0x52;0x20;0xa6;0xa1;0xb6;0x7b;0x6e;0x83;0x8e;0x3c;0x41;0xd7;0x21;0x4f;0xaa;0xb2;0x5c;0x8f;0xe8;0x55;0xd1;0x56;0x6f;
   0xe1;0x5b;0x34;0xa6;0x4b;0x5d;0xe2;0x2d;0x3f;0x74;0xae;0x1c;0x96;0xd8;0x74;0xd0;0xed;0x63;0x1c;0xee;0xf5;0x18;0x6d;0xf8;
   0x29;0xed;0xf4;0xe7;0x5b;0xc5;0xbd;0x97;0x08;0xb1;0x3a;0x66;0x79;0xd2;0xba;0x4c;0xcd;0x1f;0xd7;0xa0;0x24;0x90;0xd1;0x80;
   0xf8;0x8a;0x28;0xfb;0x0a;0xc2;0x25;0xc5;0x19;0x64;0x3a;0x5f;0x4b;0x97;0xa3;0xb1;0x33;0x72;0x00;0xe2;0xef;0xbc;0x7f;0x7d];
  [0x01;0x28;0x6b;0x26;0x6a;0x1e;0xef;0xfa;0x16;0x9f;0x73;0xd5;0xc4;0x68;0x6c;0x86;0x2c;0x76;0x03;0x1b;0xbc;0x2f;0x8a;0xf6;
   0x8d;0x5a;0xb7;0x87;0x5e;0x43;0x75;0x59;0x94;0x90;0xc2;0xf3;0xc5;0x5d;0x7c;0xcd;0xab;0x05;0x91;0x2a;0x9a;0xa2;0x81;0xc7;
   0x58;0x30;0x1c;0x42;0x36;0x1d;0xc6;0x80;0xd7;0xd4;0xd8;0xdc;0x96;0xd1;0x9c;0x4f;0x68;0x37;0x7b;0x6a;0xd8;0x97;0x92;0x19;
   0x63;0x7a;0xd1;0x1a;0x24;0x58;0xd0;0xd0;0x17;0x0c;0x1c;0x5c;0xad;0x9c;0x02;0xba;0x07;0x03;0x7a;0x38;0x84;0xd0;0xcd;0x7c];
  [0x17;0x04;0x26;0x6d;0x2c;0x42;0xa6;0xdc;0xbd;0x40;0x82;0x94;0x50;0x3d;0x15;0xae;0x77;0xc6;0x68;0xfb;0xb4;0xc1;0xc0;0xa9;
   0x53;0xcf;0xd0;0x61;0xed;0xd0;0x8b;0x42;0x93;0xcc;0x60;0x67;0x18;0x84;0x0c;0x9b;0x99;0x2a;0xb3;0x1a;0x7a;0x00;0xae;0xcd;
   0x18;0xda;0x0b;0x62;0x86;0xec;0x8d;0xa8;0x44;0xca;0x90;0x81;0x84;0xca;0x93;0x35;0xa7;0x9a;0x84;0x5e;0x9a;0x18;0x13;0x92;
   0xcd;0xfa;0xd8;0x65;0x35;0xc3;0xd8;0xd4;0xd1;0xbb;0xfd;0x53;0x5b;0x54;0x52;0x8c;0xe6;0x63;0x2d;0xda;0x08;0x83;0x39;0x27];
  [0x13;0xd4;0x5e;0x43;0x28;0x8d;0xc3;0x42;0xc9;0xcc;0x78;0x32;0x60;0xf3;0x50;0xbd;0xef;0x03;0xda;0x79;0x1a;0xab;0x07;0xbb;
   0x55;0x33;0x8c;0xbe;0xae;0x97;0x95;0x26;0x53;0x24;0x70;0x0a;0x4c;0x0e;0xa1;0xb9;0xde;0x1b;0x7d;0xd5;0x66;0x58;0xa2;0x0f;
   0xf7;0xda;0x27;0xcd;0xb5;0xd9;0xb9;0xff;0xfd;0x33;0x2c;0x49;0x45;0x29;0x2c;0x57;0xbe;0x30;0xcd;0xd6;0x45;0xc7;0x7f;0xc7;
   0xfb;0xae;0xba;0xe3;0xd3;0xe8;0xdf;0xe4;0x0c;0xda;0x5d;0xaa;0x30;0x88;0x2c;0xa2;0x80;0xca;0x5b;0xc0;0x98;0x54;0x98;0x7f];
  [0x17;0xe1;0x0b;0x9f;0x88;0xce;0x49;0x38;0x88;0xa2;0x54;0x7b;0x1b;0xad;0x05;0x80;0x1c;0x92;0xfc;0x23;0x9f;0xc3;0xa3;0x3d;
   0x04;0xf3;0x31;0x0a;0x47;0xec;0xc2;0x76;0x63;0x63;0xbf;0x0f;0x52;0x15;0x56;0xd3;0xa6;0xfb;0x4d;0xcf;0x45;0x5a;0x04;0x08;
   0xc2;0xa0;0x3f;0x87;0xbc;0x4f;0xc2;0xee;0xe7;0x12;0x9b;0xd6;0x3c;0x65;0xf2;0x30;0x85;0x0c;0xc1;0xaa;0x38;0xc9;0x08;0x8a;
   0xcb;0x6b;0x27;0xdb;0x60;0x9b;0x17;0x46;0x70;0xac;0x6f;0x0e;0x1e;0xc0;0x20;0xa9;0xda;0x73;0x64;0x59;0xf1;0x73;0x12;0x2f];
  [0x11;0x1e;0xe0;0x8a;0x7c;0xfc;0x39;0x47;0x9f;0xab;0x6a;0x4a;0x90;0x74;0x52;0xfd;0x2e;0x8f;0x72;0x87;0x82;0x8a;0xd9;0x41;
   0xf2;0x69;0x5b;0xd8;0x2a;0x57;0x9e;0x5d;0xc0;0x0b;0xa7;0x55;0xd7;0x8b;0x48;0x30;0xe7;0x42;0xd4;0xf1;0xa4;0xb5;0xd6;0x06;
   0x62;0x61;0x59;0xbc;0x9e;0xa6;0xd1;0xea;0x84;0xf7;0xc5;0xed;0x97;0x19;0xac;0x38;0x3b;0xb1;0x51;0xa7;0x17;0xb5;0x66;0x06;
   0x8c;0x85;0x9b;0x7e;0x86;0x06;0x7d;0x74;0x49;0xde;0x4d;0x45;0x11;0xc0;0xac;0xac;0x9c;0xe6;0xe9;0xbf;0x9c;0xcd;0xdf;0x22];
  [0xd9;0x0c;0x0d;0xc3;0xe0;0xd2;0xdb;0x8d;0x33;0x43;0xbb;0xac;0x5f;0x66;0x8e;0xad;0x1f;0x96;0x2a;0x32;0x8c;0x25;0x6b;0x8f;
   0xc7;0xc1;0x48;0x54;0xc0;0x16;0x29;0x6b;0xa1;0xe0;0x3b;0x10;0xb4;0x59;0xec;0x56;0x69;0xf9;0x59;0xd2;0xec;0xba;0xe3;0x2e;
   0x32;0xcd;0xf5;0x13;0x94;0xb2;0x7c;0x79;0x72;0xe4;0xcd;0x24;0x78;0x87;0xe9;0x0f;0x3b;0x91;0xba;0x0a;0xd1;0x34;0xdb;0x7e;
   0x0e;0xac;0x6d;0x2e;0x82;0xcd;0xa3;0x4e;0x15;0xf8;0x78;0x65;0xff;0x3d;0x08;0x66;0x17;0x0a;0xf0;0x7f;0x30;0x3f;0x30;0x4c];
  [0x85;0x8c;0xb2;0x17;0xd6;0x3b;0x0a;0xd3;0xea;0x3b;0x77;0x39;0xb7;0x77;0xd3;0xc5;0xbf;0x5c;0x6a;0x1e;0x8c;0xe7;0xc6;0xc6;
   0xc4;0xb7;0x2a;0x8b;0xf7;0xb8;0x61;0x0d;0x00;0x45;0xd9;0x0d;0x58;0x03;0xfc;0x29;0x93;0xec;0xbb;0x6f;0xa4;0x7a;0xd2;0xec;
   0xf8;0xa7;0xe2;0xc2;0x5f;0x15;0x0a;0x13;0xd5;0xa1;0x06;0xb7;0x1a;0x15;0x6b;0x41;0xb0;0x36;0xc1;0xe9;0xef;0xd7;0xa8;0x56;
   0x20;0x4b;0xe4;0x58;0xcd;0xe5;0x07;0xbd;0xab;0xe0;0x57;0x1b;0xda;0x2f;0xe6;0xaf;0xd2;0xe8;0x77;0x42;0xf7;0x2a;0x1a;0x19];
  [0x31;0x14;0x3c;0xc5;0x4b;0xf7;0x16;0xce;0xde;0xed;0x72;0x20;0xce;0x25;0x97;0x2b;0xe7;0x3e;0xb2;0xb5;0x6f;0xc3;0xb9;0xb8;
   0x08;0xc9;0x5c;0x0b;0x45;0x0e;0x2e;0x7e;0xfb;0x0e;0x46;0x4f;0x43;0x2b;0xe6;0x9f;0xd6;0x07;0x36;0xa6;0xd4;0x03;0xd3;0xde;
   0x24;0xda;0xa0;0xb7;0x0e;0x21;0x52;0xf0;0x93;0x5b;0x54;0x00;0xbe;0x7d;0x7e;0x23;0x30;0xb4;0x01;0x67;0xed;0x75;0x35;0x01;
   0x10;0xfd;0x0b;0x9f;0xe6;0x94;0x10;0x23;0x22;0x7f;0xe4;0x83;0x15;0x0f;0x32;0x75;0xe3;0x55;0x11;0xb1;0x99;0xa6;0xaf;0x71];
  [0x1d;0xb6;0x53;0x39;0x9b;0x6f;0xce;0x65;0xe6;0x41;0xa1;0xaf;0xea;0x39;0x58;0xc6;0xfe;0x59;0xf7;0xa9;0xfd;0x5f;0x43;0x0f;
   0x8e;0xc2;0xb1;0xc2;0xe9;0x42;0x11;0x02;0xd6;0x50;0x3b;0x47;0x1c;0x3c;0x42;0xea;0x10;0xef;0x38;0x3b;0x1f;0x7a;0xe8;0x51;
   0x95;0xbe;0xc9;0xb2;0x5f;0xbf;0x84;0x9b;0x1c;0x9a;0xf8;0x78;0xbc;0x1f;0x73;0x00;0x80;0x18;0xf8;0x48;0x18;0xc7;0x30;0xe4;
   0x19;0xc1;0xce;0x5e;0x22;0x0c;0x96;0xbf;0xe3;0x15;0xba;0x6b;0x83;0xe0;0xda;0xb6;0x08;0x58;0xe1;0x47;0x33;0x6f;0x4d;0x4c];
  [0xc9;0x1f;0x7d;0xc1;0xcf;0xec;0xf7;0x18;0x14;0x3c;0x40;0x51;0xa6;0xf5;0x75;0x6c;0xdf;0x0c;0xee;0xf7;0x2b;0x71;0xde;0xdb;
   0x22;0x7a;0xe4;0xa7;0xaa;0xdd;0x3f;0x19;0x70;0x19;0x8f;0x98;0xfc;0xdd;0x0c;0x2f;0x1b;0xf5;0xb9;0xb0;0x27;0x62;0x91;0x6b;
   0xbe;0x76;0x91;0x77;0xc4;0xb6;0xc7;0x6e;0xa8;0x9f;0x8f;0xa8;0x00;0x95;0xbf;0x38;0x6f;0x87;0xe8;0x37;0x3c;0xc9;0xd2;0x1f;
   0x2c;0x46;0xd1;0x18;0x5a;0x1e;0xf6;0xa2;0x76;0x12;0x24;0x39;0x82;0xf5;0x80;0x50;0x69;0x49;0x0d;0xbf;0x9e;0xb9;0x6f;0x6a];
  [0xeb;0x55;0x08;0x56;0xbb;0xc1;0x46;0x6a;0x9d;0xf0;0x93;0xf8;0x38;0xbb;0x16;0x24;0xc1;0xac;0x71;0x8f;0x37;0x11;0x1d;0xd7;
   0xea;0x96;0x18;0xa3;0x14;0x69;0xf7;0x75;0xc6;0x23;0xe4;0xb6;0xb5;0x22;0xb1;0xee;0x8e;0xff;0x86;0xf2;0x10;0x70;0x9d;0x93;
   0x8c;0x5d;0xcf;0x1d;0x83;0x2a;0xa9;0x90;0x10;0xeb;0xc5;0x42;0x9f;0xda;0x6f;0x13;0xd1;0xbd;0x05;0xa3;0xb1;0xdf;0x4c;0xf9;
   0x08;0x2c;0xf8;0x9f;0x9d;0x4b;0x36;0x0f;0x8a;0x58;0xbb;0xc3;0xa5;0xd8;0x87;0x2a;0xba;0xdc;0xe8;0x0b;0x51;0x83;0x21;0x02];
  [0x14;0x2d;0xad;0x5e;0x38;0x66;0xf7;0x4a;0x30;0x58;0x7c;0xca;0x80;0xd8;0x8e;0xa0;0x3d;0x1e;0x21;0x10;0xe6;0xa6;0x13;0x0d;
   0x03;0x6c;0x80;0x7b;0xe1;0x1c;0x07;0x6a;0x7f;0x7a;0x30;0x43;0x01;0x71;0x5a;0x9d;0x5f;0xa4;0x7d;0xc4;0x9e;0xde;0x63;0xb0;
   0xd3;0x7a;0x92;0xbe;0x52;0xfe;0xbb;0x22;0x6c;0x42;0x40;0xfd;0x41;0xc4;0x87;0x13;0xf8;0x8a;0x97;0x87;0xd1;0xc3;0xd3;0xb5;
   0x13;0x44;0x0e;0x7f;0x3d;0x5a;0x2b;0x72;0xa0;0x7c;0x47;0xbb;0x48;0x48;0x7b;0x0d;0x92;0xdc;0x1e;0xaf;0x6a;0xb2;0x71;0x31];
  [0xa8;0x4c;0x56;0x97;0x90;0x31;0x2f;0xa9;0x19;0xe1;0x75;0x22;0x4c;0xb8;0x7b;0xff;0x50;0x51;0x87;0xa4;0x37;0xfe;0x55;0x4f;
   0x5a;0x83;0xf0;0x3c;0x87;0xd4;0x1f;0x22;0xd1;0x47;0x8a;0xb2;0xd8;0xb7;0x0d;0xa6;0xf1;0xa4;0x70;0x17;0xd6;0x14;0xbf;0xa6;
   0x58;0xbd;0xdd;0x53;0x93;0xf8;0xa1;0xd4;0xe9;0x43;0x42;0x34;0x63;0x4a;0x51;0x6c;0x41;0x63;0x15;0x3a;0x4f;0x20;0x22;0x23;
   0x2d;0x03;0x0a;0xba;0xe9;0xe0;0x73;0xfb;0x0e;0x03;0x0f;0x41;0x4c;0xdd;0xe0;0xfc;0xaa;0x4a;0x92;0xfb;0x96;0xa5;0xda;0x48];
  [0xc7;0x9c;0xa5;0x5c;0x66;0x8e;0xca;0x6e;0xa0;0xac;0x38;0x2e;0x4b;0x25;0x47;0xa8;0xce;0x17;0x1e;0xd2;0x08;0xc7;0xaf;0x31;
   0xf7;0x4a;0xd8;0xca;0xfc;0xd6;0x6d;0x67;0x93;0x97;0x4c;0xc8;0x5d;0x1d;0xf6;0x14;0x06;0x82;0x41;0xef;0xe3;0xf9;0x41;0x99;
   0xac;0x77;0x62;0x34;0x8f;0xb8;0xf5;0xcd;0xa9;0x79;0x8a;0x0e;0xfa;0x37;0xc8;0x58;0x58;0x90;0xfc;0x96;0x85;0x68;0xf9;0x0c;
   0x1b;0xa0;0x56;0x7b;0xf3;0xbb;0xdc;0x1d;0x6a;0xd6;0x35;0x49;0x7d;0xe7;0xc2;0xdc;0x0a;0x7f;0xa5;0xc6;0xf2;0x73;0x4f;0x1c];
  [0xbb;0xa0;0x5f;0x30;0xbd;0x4f;0x7a;0x0e;0xad;0x63;0xc6;0x54;0xe0;0x4c;0x9d;0x82;0x48;0x38;0xe3;0x2f;0x83;0xc3;0x21;0xf4;
   0x42;0x4c;0xf6;0x1b;0x0d;0xc8;0x5a;0x79;0x84;0x34;0x7c;0xfc;0x6e;0x70;0x6e;0xb3;0x61;0xcf;0xc1;0xc3;0xb4;0xc9;0xdf;0x73;
   0xe5;0xc7;0x1c;0x78;0xc9;0x79;0x1d;0xeb;0x5c;0x67;0xaf;0x7d;0xdb;0x9a;0x45;0x70;0xb3;0x2b;0xb4;0x91;0x49;0xdb;0x91;0x1b;
   0xca;0xdc;0x02;0x4b;0x23;0x96;0x26;0x57;0xdc;0x78;0x8c;0x1f;0xe5;0x9e;0xdf;0x9f;0xd3;0x1f;0xe2;0x8c;0x84;0x62;0xe1;0x5f];
  [0x1a;0x96;0x94;0xe1;0x4f;0x21;0x59;0x4e;0x4f;0xcd;0x71;0x0d;0xc7;0x7d;0xbe;0x49;0x2d;0xf2;0x50;0x3b;0xd2;0xcf;0x00;0x93;
   0x32;0x72;0x91;0xfc;0x46;0xd4;0x89;0x47;0x08;0xb2;0x7c;0x5d;0x2d;0x85;0x79;0x28;0xe7;0xf2;0x7d;0x68;0x70;0xdd;0xde;0xb8;
   0x91;0x78;0x68;0x21;0xab;0xff;0x0b;0xdc;0x35;0xaa;0x7d;0x67;0x43;0xc0;0x44;0x2b;0x8e;0xb7;0x4e;0x07;0xab;0x87;0x1c;0x1a;
   0x67;0xf4;0xda;0x99;0x8e;0xd1;0xc6;0xfa;0x67;0x90;0x4f;0x48;0xcd;0xbb;0xac;0x3e;0xe4;0xa4;0xb9;0x2b;0xef;0x2e;0xc5;0x60];
  [0xf1;0x8b;0xfd;0x3b;0xbc;0x89;0x5d;0x0b;0x1a;0x55;0xf3;0xc9;0x37;0x92;0x6b;0xb0;0xf5;0x28;0x30;0xd5;0xb0;0x16;0x4c;0x0e;
   0xab;0xca;0xcf;0x2c;0x31;0x9c;0xbc;0x10;0x11;0x6d;0xae;0x7c;0xc2;0xc5;0x2b;0x70;0xab;0x8c;0xa4;0x54;0x9b;0x69;0xc7;0x44;
   0xb2;0x2e;0x49;0xba;0x56;0x40;0xbc;0xef;0x6d;0x67;0xb6;0xd9;0x48;0x72;0xd7;0x70;0x5b;0xa0;0xc2;0x3e;0x4b;0xe8;0x8a;0xaa;
   0xe0;0x81;0x17;0xed;0xf4;0x9e;0x69;0x98;0xd1;0x85;0x8e;0x70;0xe4;0x13;0x45;0x79;0x13;0xf4;0x76;0xa9;0xd3;0x5b;0x75;0x63];
  [0x53;0x08;0xd1;0x2a;0x3e;0xa0;0x5f;0xb5;0x69;0x35;0xe6;0x9e;0x90;0x75;0x6f;0x35;0x90;0xb8;0x69;0xbe;0xfd;0xf1;0xf9;0x9f;
   0x84;0x6f;0xc1;0x8b;0xc4;0xc1;0x8c;0x0d;0xb7;0xac;0xf1;0x97;0x18;0x10;0xc7;0x3d;0xd8;0xbb;0x65;0xc1;0x5e;0x7d;0xda;0x5d;
   0x0f;0x02;0xa1;0x0f;0x9c;0x5b;0x8e;0x50;0x56;0x2a;0xc5;0x37;0x17;0x75;0x63;0x27;0xa9;0x19;0xb4;0x6e;0xd3;0x02;0x94;0x02;
   0xa5;0x60;0xb4;0x77;0x7e;0x4e;0xb4;0xf0;0x56;0x49;0x3c;0xd4;0x30;0x62;0xa8;0xcf;0xe7;0x66;0xd1;0x7a;0x8a;0xdd;0xc2;0x70];
  [0x0e;0xec;0x6f;0x9f;0x50;0x94;0x61;0x65;0x8d;0x51;0xc6;0x46;0xa9;0x7e;0x2e;0xee;0x5c;0x9b;0xe0;0x67;0xf3;0xc1;0x33;0x97;
   0x95;0x84;0x94;0x63;0x63;0xac;0x0f;0x2e;0x13;0x7e;0xed;0xb8;0x7d;0x96;0xd4;0x91;0x7a;0x81;0x76;0xd7;0x0a;0x2f;0x25;0x74;
   0x64;0x25;0x85;0x0d;0xe0;0x82;0x09;0xe4;0xe5;0x3c;0xa5;0x16;0x38;0x61;0xb8;0x32;0x64;0xcd;0x48;0xe4;0xbe;0xf7;0xe7;0x79;
   0xd0;0x86;0x78;0x08;0x67;0x3a;0xc8;0x6a;0x2e;0xdb;0xe4;0xa0;0xd9;0xd4;0x9f;0xf8;0x41;0x4f;0x5a;0x73;0x5c;0x21;0x79;0x41];
  [0x2a;0xed;0xdc;0xd7;0xe7;0x94;0x70;0x8c;0x70;0x9c;0xd3;0x47;0xc3;0x8a;0xfb;0x97;0x02;0xd9;0x06;0xa9;0x33;0xe0;0x3b;0xe1;
   0x76;0x9d;0xd9;0x0c;0xa3;0x44;0x03;0x70;0x34;0xcd;0x6b;0x28;0xb9;0x33;0xae;0xe4;0xdc;0xd6;0x9d;0x55;0xb6;0x7e;0xef;0xb7;
   0x1f;0x8e;0xd3;0xb3;0x1f;0x14;0x8b;0x27;0x86;0xc2;0x41;0x22;0x66;0x85;0xfa;0x31;0xf4;0x22;0x36;0x2e;0x42;0x6c;0x82;0xaf;
   0x2d;0x50;0x33;0x98;0x87;0x29;0x20;0xc1;0x23;0x91;0x38;0x2b;0xe1;0xb7;0xc1;0x9b;0x89;0x24;0x95;0xa9;0x12;0x23;0xbb;0x24];
  [0xc3;0x67;0xde;0x32;0x17;0xed;0xa8;0xb1;0x48;0x49;0x1b;0x46;0x18;0x94;0xb4;0x3c;0xd2;0xbc;0xcf;0x76;0x43;0x43;0xbd;0x8e;
   0x08;0x80;0x18;0x1e;0x87;0x3e;0xee;0x0f;0x6b;0x5c;0xf8;0xf5;0x2a;0x0c;0xf8;0x41;0x94;0x67;0xfa;0x04;0xc3;0x84;0x72;0x68;
   0xad;0x1b;0xba;0xa3;0x99;0xdf;0x45;0x89;0x16;0x5d;0xeb;0xff;0xf9;0x2a;0x1d;0x0d;0xdf;0x1e;0x62;0x32;0xa1;0x8a;0xda;0xa9;
   0x79;0x65;0x22;0x59;0xa1;0x22;0xb8;0x30;0x93;0xc1;0x9a;0xa7;0x7b;0x19;0x04;0x40;0x76;0x1d;0x53;0x18;0x97;0xd7;0xac;0x16];
  [0x3d;0x1d;0x9b;0x2d;0xaf;0x72;0xdf;0x72;0x5a;0x24;0x32;0xa4;0x36;0x2a;0x46;0x63;0x37;0x96;0xb3;0x16;0x79;0xa0;0xce;0x3e;
   0x09;0x23;0x30;0xb9;0xf6;0x0e;0x3e;0x12;0xad;0xb6;0x87;0x78;0xc5;0xc6;0x59;0xc9;0xba;0xfe;0x90;0x5f;0xad;0x9e;0xe1;0x94;
   0x04;0xf5;0x42;0xa3;0x62;0x4e;0xe2;0x16;0x00;0x17;0x16;0x18;0x4b;0xd3;0x4e;0x16;0x9a;0xe6;0x2f;0x19;0x4c;0xd9;0x7e;0x48;
   0x13;0x15;0x91;0x3a;0xea;0x2c;0xae;0x61;0x27;0xde;0xa4;0xb9;0xd3;0xf6;0x7b;0x87;0xeb;0xf3;0x73;0x10;0xc6;0x0f;0xda;0x78];
  [0x6a;0xc6;0x2b;0xe5;0x28;0x5d;0xf1;0x5b;0x8e;0x1a;0xf0;0x70;0x18;0xe3;0x47;0x2c;0xdd;0x8b;0xc2;0x06;0xbc;0xaf;0x19;0x24;
   0x3a;0x17;0x6b;0x25;0xeb;0xde;0x25;0x2d;0x94;0x3a;0x0c;0x68;0xf1;0x80;0x9f;0xa2;0xe6;0xe7;0xe9;0x1a;0x15;0x7e;0xf7;0x71;
   0x73;0x79;0x01;0x48;0x58;0xf1;0x00;0x11;0xdd;0x8d;0xb3;0x16;0xb3;0xa4;0x4a;0x05;0xb8;0x7c;0x26;0x19;0x8d;0x46;0xc8;0xdf;
   0xaf;0x4d;0xe5;0x66;0x9c;0x78;0x28;0x0b;0x17;0xec;0x6e;0x66;0x2a;0x1d;0xeb;0x2a;0x60;0xa7;0x7d;0xab;0xa6;0x10;0x46;0x13];
  [0xfe;0xb0;0xf6;0x8d;0xc7;0x8e;0x13;0x51;0x1b;0xf5;0x75;0xe5;0x89;0xda;0x97;0x53;0xb9;0xf1;0x7a;0x71;0x1d;0x7a;0x20;0x09;
   0x50;0xd6;0x20;0x2b;0xba;0xfd;0x02;0x21;0x15;0xf5;0xd1;0x77;0xe7;0x65;0x2a;0xcd;0xf1;0x60;0xaa;0x8f;0x87;0x91;0x89;0x54;
   0xe5;0x06;0xbc;0xda;0xbc;0x3b;0xb7;0xb1;0xfb;0xc9;0x7c;0xa9;0xcb;0x78;0x48;0x65;0xa1;0xe6;0x5c;0x05;0x05;0xe4;0x9e;0x96;
   0x29;0xad;0x51;0x12;0x68;0xa7;0xbc;0x36;0x15;0xa4;0x7d;0xaa;0x17;0xf5;0x1a;0x3a;0xba;0xb2;0xec;0x29;0xdb;0x25;0xd7;0x0a];
  [0x57;0x24;0x4e;0x83;0xb1;0x67;0x42;0xdc;0xc5;0x1b;0xce;0x70;0xb5;0x44;0x75;0xb6;0xd7;0x5e;0xd1;0xf7;0x0b;0x7a;0xf0;0x1a;
   0x50;0x36;0xa0;0x71;0xfb;0xcf;0xef;0x4a;0x85;0x6f;0x05;0x9b;0x0c;0xbc;0xc7;0xfe;0xd7;0xff;0xf5;0xe7;0x68;0x52;0x7d;0x53;
   0xfa;0xae;0x12;0x43;0x62;0xc6;0xaf;0x77;0xd9;0x9f;0x39;0x02;0x53;0x5f;0x67;0x4f;0x1e;0x17;0x15;0x04;0x36;0x36;0x2d;0xc3;
   0x3b;0x48;0x98;0x89;0x11;0xef;0x2b;0xcd;0x10;0x51;0x94;0xd0;0xad;0x6e;0x0a;0x87;0x61;0x65;0xa8;0xa2;0x72;0xbb;0xcc;0x0b];
  [0xc8;0xa9;0xb1;0xea;0x2f;0x96;0x5e;0x18;0xcd;0x7d;0x14;0x65;0x35;0xe6;0xe7;0x86;0xf2;0x6d;0x5b;0xbb;0x31;0xe0;0x92;0xb0;
   0x3e;0xb7;0xd6;0x59;0xab;0xf0;0x24;0x40;0x96;0x12;0xfe;0x50;0x4c;0x5e;0x6d;0x18;0x7e;0x9f;0xe8;0xfe;0x82;0x7b;0x39;0xe0;
   0xb0;0x31;0x70;0x50;0xc5;0xf6;0xc7;0x3b;0xc2;0x37;0x8f;0x10;0x69;0xfd;0x78;0x66;0xc2;0x63;0x68;0x63;0x31;0xfa;0x86;0x15;
   0xf2;0x33;0x2d;0x57;0x48;0x8c;0xf6;0x07;0xfc;0xae;0x9e;0x78;0x9f;0xcc;0x73;0x4f;0x01;0x47;0xad;0x8e;0x10;0xe2;0x42;0x2d];
  [0x9b;0xd2;0xdf;0x94;0x15;0x13;0xf5;0x97;0x6a;0x4c;0x3f;0x31;0x5d;0x98;0x55;0x61;0x10;0x50;0x45;0x08;0x07;0x3f;0xa1;0xeb;
   0x22;0xd3;0xd2;0xb8;0x08;0x26;0x6b;0x67;0x93;0x75;0x53;0x0f;0x0d;0x7b;0x71;0x21;0x4c;0x06;0x1e;0x13;0x0b;0x69;0x4e;0x91;
   0x9f;0xe0;0x2a;0x75;0xae;0x87;0xb6;0x1b;0x6e;0x3c;0x42;0x9b;0xa7;0xf3;0x0b;0x42;0x47;0x2b;0x5b;0x1c;0x65;0xba;0x38;0x81;
   0x80;0x1b;0x1b;0x31;0xec;0xb6;0x71;0x86;0xb0;0x35;0x31;0xbc;0xb1;0x0c;0xff;0x7b;0xe0;0xf1;0x0c;0x9c;0xfa;0x2f;0x5d;0x74];
  [0xbd;0xc8;0xc9;0x2b;0x1e;0x5a;0x52;0xbf;0x81;0x9d;0x47;0x26;0x08;0x26;0x5b;0xea;0xdb;0x55;0x01;0xdf;0x0e;0xc7;0x11;0xd5;
   0xd0;0xf5;0x0c;0x96;0xeb;0x3c;0xe2;0x1a;0x6a;0x4e;0xd3;0x21;0x57;0xdf;0x36;0x60;0xd0;0xb3;0x7b;0x99;0x27;0x88;0xdb;0xb1;
   0xfa;0x6a;0x75;0xc8;0xc3;0x09;0xc2;0xd3;0x39;0xc8;0x1d;0x4c;0xe5;0x5b;0xe1;0x06;0x4a;0x99;0x32;0x19;0x87;0x5d;0x72;0x5b;
   0xb0;0xda;0xb1;0xce;0xb5;0x1c;0x35;0x32;0x05;0xca;0xb7;0xda;0x49;0x15;0xc4;0x7d;0xf7;0xc1;0x8e;0x27;0x61;0xd8;0xde;0x58];
  [0x5c;0xc5;0x66;0xf2;0x93;0x37;0x17;0xd8;0x49;0x4e;0x45;0xcc;0xc5;0x76;0xc9;0xc8;0xa8;0xc3;0x26;0xbc;0xf8;0x82;0xe3;0x5c;
   0xf9;0xf6;0x85;0x54;0xe8;0x9d;0xf3;0x2f;0xa8;0xc9;0xc2;0xb6;0xa8;0x5b;0xfb;0x2d;0x8c;0x59;0x2c;0xf5;0x8e;0xef;0xee;0x48;
   0x73;0x15;0x2d;0xf1;0x07;0x91;0x80;0x33;0xd8;0x5b;0x1d;0x53;0x6b;0x69;0xba;0x08;0x7a;0xc5;0xef;0xc3;0xee;0x3e;0xed;0x77;
   0x11;0x48;0xff;0xd4;0x17;0x55;0xe0;0x04;0xcb;0x71;0xa6;0xf1;0x3f;0x7a;0x3d;0xea;0x54;0xfe;0x7c;0x94;0xb4;0x33;0x06;0x12];
  [0x42;0x00;0x61;0x91;0x78;0x98;0x94;0x0b;0xe8;0xfa;0xeb;0xec;0x3c;0xb1;0xe7;0x4e;0xc0;0xa4;0xf0;0x94;0x95;0x73;0xbe;0x70;
   0x85;0x91;0xd5;0xb4;0x99;0x0a;0xd3;0x35;0x0a;0x10;0x12;0x49;0x47;0x31;0xbd;0x82;0x06;0xbe;0x6f;0x7e;0x6d;0x7b;0x23;0xde;
   0xc6;0x79;0xea;0x11;0x19;0x76;0x1e;0xe1;0xde;0x3b;0x39;0xcb;0xe3;0x3b;0x43;0x07;0xf4;0x97;0xe9;0x5c;0xc0;0x44;0x79;0xff;
   0xa3;0x51;0x5c;0xb0;0xe4;0x3d;0x5d;0x57;0x7c;0x84;0x76;0x5a;0xfd;0x81;0x33;0x58;0x9f;0xda;0xf6;0x7a;0xde;0x3e;0x87;0x2d];
  [0x09;0x34;0x37;0x43;0x64;0x31;0x7a;0x15;0xd9;0x81;0xaa;0xf4;0xee;0xb7;0xb8;0xfa;0x06;0x48;0xa6;0xf5;0xe6;0xfe;0x93;0xb0;
   0xb6;0xa7;0x7f;0x70;0x54;0x36;0x77;0x2e;0x81;0xf9;0x5d;0x4e;0xe1;0x02;0x62;0xaa;0xf5;0xe1;0x15;0x50;0x17;0x59;0x0d;0xa2;
   0x6c;0x1d;0xe2;0xba;0xd3;0x75;0xa2;0x18;0x53;0x02;0x60;0x01;0x8a;0x61;0x43;0x05;0xc1;0x23;0x4c;0x97;0xf4;0xbd;0xea;0x0d;
   0x93;0x46;0xce;0x9d;0x25;0x0a;0x6f;0xaa;0x2c;0xba;0x9a;0xa2;0xb8;0x2c;0x20;0x04;0x0d;0x96;0x07;0x2d;0x36;0x43;0x14;0x4b];
  [0x7a;0x1f;0x6e;0xb6;0xc7;0xb7;0xc4;0xcc;0x7e;0x2f;0x0c;0xf5;0x25;0x7e;0x15;0x44;0x1c;0xaf;0x3e;0x71;0xfc;0x6d;0xf0;0x3e;
   0xf7;0x63;0xda;0x52;0x67;0x44;0x2f;0x58;0xcb;0x9c;0x52;0x1c;0xe9;0x54;0x7c;0x96;0xfb;0x35;0xc6;0x64;0x92;0x26;0xf6;0x30;
   0x65;0x19;0x12;0x78;0xf4;0xaf;0x47;0x27;0x5c;0x6f;0xf6;0xea;0x18;0x84;0x03;0x17;0xe4;0x4c;0x32;0x20;0xd3;0x7b;0x31;0xc6;
   0xc4;0x8b;0x48;0xa4;0xe8;0x42;0x10;0xa8;0x64;0x13;0x5a;0x4e;0x8b;0xf1;0x1e;0xb2;0xc9;0x8d;0xa2;0xcd;0x4b;0x1c;0x2a;0x0c];
  [0x47;0x04;0x1f;0x6f;0xd0;0xc7;0x4d;0xd2;0x59;0xc0;0x87;0xdb;0x3e;0x9e;0x26;0xb2;0x8f;0xd2;0xb2;0xfb;0x72;0x02;0x5b;0xd1;
   0x77;0x48;0xf6;0xc6;0xd1;0x8b;0x55;0x7c;0x45;0x69;0xbd;0x69;0x48;0x81;0xc4;0xed;0x22;0x8d;0x1c;0xbe;0x7d;0x90;0x6d;0x0d;
   0xab;0xc5;0x5c;0xd5;0x12;0xd2;0x3b;0xc6;0x83;0xdc;0x14;0xa3;0x30;0x9b;0x6a;0x5a;0x3d;0x46;0x96;0xd3;0x24;0x15;0xec;0xd0;
   0xf0;0x24;0x5a;0xc3;0x8a;0x62;0xbb;0x12;0xa4;0x5f;0xbc;0x1c;0x79;0x3a;0x0c;0xa5;0xc3;0xaf;0xfb;0x0a;0xca;0xa5;0x04;0x04];
  [0xd6;0x43;0xa7;0x0a;0x07;0x40;0x1f;0x8c;0xe8;0x5e;0x26;0x5b;0xcb;0xd0;0xba;0xcc;0xde;0xd2;0x8f;0x66;0x6b;0x04;0x4b;0x57;
   0x33;0x96;0xdd;0xca;0xfd;0x5b;0x39;0x46;0xd1;0x6f;0x41;0x2a;0x1b;0x9e;0xbc;0x62;0x8b;0x59;0x50;0xe3;0x28;0xf7;0xc6;0xb5;
   0x67;0x69;0x5d;0x3d;0xd8;0x3f;0x34;0x04;0x98;0xee;0xf8;0xe7;0x16;0x75;0x52;0x39;0x9c;0x9a;0x5d;0x1a;0x2d;0xdb;0x7f;0x11;
   0x2a;0x5c;0x00;0xd1;0xbc;0x45;0x77;0x9c;0xea;0x6f;0xd5;0x54;0xf1;0xbe;0xd4;0xef;0x16;0xd0;0x22;0xe8;0x29;0x9a;0x57;0x76];
  [0x17;0x2a;0xc0;0x49;0x7e;0x8e;0xb6;0x45;0x7f;0xa3;0xa9;0xbc;0xa2;0x51;0xcd;0x23;0x1b;0x4c;0x22;0xec;0x11;0x5f;0xd6;0x3e;
   0xb1;0xbd;0x05;0x9e;0xdc;0x84;0xa3;0x43;0xf2;0x34;0xb4;0x52;0x13;0xb5;0x3c;0x33;0xe1;0x80;0xde;0x93;0x49;0x28;0x32;0xd8;
   0xce;0x35;0x0d;0x75;0x87;0x28;0x51;0xb5;0xc1;0x77;0x27;0x2a;0xbb;0x14;0xc5;0x02;0x45;0xb6;0xf1;0x8b;0xda;0xd5;0x4b;0x68;
   0x53;0x4b;0xb5;0xf6;0x7e;0xd3;0x8b;0xfb;0x53;0xd2;0xb0;0xa9;0xd7;0x16;0x39;0x31;0x59;0x80;0x54;0x61;0x09;0x92;0x60;0x11];
  [0xaa;0xcf;0xda;0x29;0x69;0x16;0x4d;0xb4;0x8f;0x59;0x13;0x84;0x4c;0x9f;0x52;0xda;0x59;0x55;0x3d;0x45;0xca;0x63;0xef;0xe9;
   0x0b;0x8e;0x69;0xc5;0x5b;0x12;0x1e;0x35;0xcd;0x4d;0x9b;0x36;0x16;0x56;0x38;0x7a;0x63;0x35;0x5c;0x65;0xa7;0x2c;0xc0;0x75;
   0x21;0x80;0xf1;0xd4;0xf9;0x1b;0xc2;0x7d;0x42;0xe0;0xe6;0x91;0x74;0x7d;0x63;0x2f;0xbe;0x7b;0xf6;0x1a;0x46;0x9b;0xb4;0xd4;
   0x61;0x89;0xab;0xc8;0x7a;0x03;0x03;0xd6;0xfb;0x99;0xa6;0xf9;0x9f;0xe1;0xde;0x71;0x9a;0x2a;0xce;0xe7;0x06;0x2d;0x18;0x7f];
  [0xec;0x68;0x01;0xab;0x64;0x8e;0x7c;0x7a;0x43;0xc5;0xed;0x15;0x55;0x4a;0x5a;0xcb;0xda;0x0e;0xcd;0x47;0xd3;0x19;0x55;0x09;
   0xb0;0x93;0x3e;0x34;0x8c;0xac;0xd4;0x67;0x22;0x75;0x21;0x8e;0x72;0x4b;0x45;0x09;0xd8;0xb8;0x84;0xd4;0xf4;0xe8;0x58;0xaa;
   0x3c;0x90;0x46;0x7f;0x4d;0x25;0x58;0xd3;0x17;0x52;0x1c;0x24;0x43;0xc0;0xac;0x44;0x77;0x57;0x7a;0x4f;0xbb;0x6b;0x7d;0x1c;
   0xe1;0x13;0x83;0x91;0xd4;0xfe;0x35;0x8b;0x84;0x46;0x6b;0xc9;0xc6;0xa1;0xdc;0x4a;0xbd;0x71;0xad;0x12;0x83;0x1c;0x6d;0x55];
  [0x82;0x39;0x8d;0x0c;0xe3;0x40;0xef;0x17;0x34;0xfa;0xa3;0x15;0x3e;0x07;0xf7;0x31;0x6e;0x64;0x73;0x07;0xcb;0xf3;0x21;0x4f;
   0xff;0x4e;0x82;0x1d;0x6d;0x6c;0x6c;0x74;0x21;0xe8;0x1b;0xb1;0x56;0x67;0xf0;0x81;0xdd;0xf3;0xa3;0x10;0x23;0xf8;0xaf;0x0f;
   0x5d;0x46;0x99;0x6a;0x55;0xd0;0xb2;0xf8;0x05;0x7f;0x8c;0xcc;0x38;0xbe;0x7a;0x09;0xa4;0x2d;0xa5;0x7e;0x87;0xc9;0x49;0x0c;
   0x43;0x1d;0xdc;0x9b;0x55;0x69;0x43;0x4c;0xd2;0xeb;0xcc;0xf7;0x09;0x38;0x2c;0x02;0xbd;0x84;0xee;0x4b;0xa3;0x14;0x7e;0x57];
  [0x0a;0x3b;0xa7;0x61;0xac;0x68;0xe2;0xf0;0xf5;0xa5;0x91;0x37;0x10;0xfa;0xfa;0xf2;0xe9;0x00;0x6d;0x6b;0x82;0x3e;0xe1;0xc1;
   0x42;0x8f;0xd7;0x6f;0xe9;0x7e;0xfa;0x60;0x2b;0xd7;0x4d;0xbd;0xbe;0xce;0xfe;0x94;0x11;0x22;0x0f;0x06;0xda;0x4f;0x6a;0xf4;
   0xff;0xd1;0xc8;0xc0;0x77;0x59;0x4a;0x12;0x95;0x92;0x00;0xfb;0xb8;0x04;0x53;0x70;0xc6;0x6e;0x29;0x4d;0x35;0x1d;0x3d;0xb6;
   0xd8;0x31;0xad;0x5f;0x3e;0x05;0xc3;0xf3;0xec;0x42;0xbd;0xb4;0x8c;0x95;0x0b;0x67;0xfd;0x53;0x63;0xa1;0x0c;0x8e;0x39;0x21];
  [0xf3;0x33;0x2b;0x38;0x8a;0x05;0xf5;0x89;0xb4;0xc0;0x48;0xad;0x0b;0xba;0xe2;0x5a;0x6e;0xb3;0x3d;0xa5;0x03;0xb5;0x93;0x8f;
   0xe6;0x32;0xa2;0x95;0x9d;0xed;0xa3;0x5a;0x01;0x56;0xb7;0xb4;0xf9;0xaa;0x98;0x27;0x72;0xad;0x8d;0x5c;0x13;0x72;0xac;0x5e;
   0x23;0xa0;0xb7;0x61;0x61;0xaa;0xce;0xd2;0x4e;0x7d;0x8f;0xe9;0x84;0xb2;0xbf;0x1b;0x61;0x65;0xd9;0xc7;0xe9;0x77;0x67;0x65;
   0x36;0x80;0xc7;0x72;0x54;0x12;0x2b;0xcb;0xee;0x6e;0x50;0xd9;0x99;0x32;0x05;0x65;0xcc;0x57;0x89;0x5e;0x4e;0xe1;0x07;0x4a];
  [0x99;0xf9;0x0d;0x98;0xcb;0x12;0xe4;0x4e;0x71;0xc7;0x6e;0x3c;0x6f;0xd7;0x15;0xa3;0xfd;0x77;0x5c;0x92;0xde;0xed;0xa5;0xbb;
   0x02;0x34;0x31;0x1d;0x39;0xac;0x0b;0x3f;0x9b;0xa4;0x77;0xc4;0xcd;0x58;0x0b;0x24;0x17;0xf0;0x47;0x64;0xde;0xda;0x38;0xfd;
   0xad;0x6a;0xc8;0xa7;0x32;0x8d;0x92;0x19;0x81;0xa0;0xaf;0x84;0xed;0x7a;0xaf;0x50;0xe5;0x5b;0xf6;0x15;0x01;0xde;0x4f;0x6e;
   0xb2;0x09;0x61;0x21;0x21;0x26;0x98;0x29;0xd9;0xd6;0xad;0x0b;0x81;0x05;0x02;0x78;0x06;0xd0;0xeb;0xba;0x16;0xa3;0x21;0x19];
  [0xfc;0x70;0xb8;0xdf;0x7e;0x2f;0x42;0x89;0xbd;0xb3;0x76;0x4f;0xeb;0x6b;0x29;0x2c;0xf7;0x4d;0xc2;0x36;0xd4;0xf1;0x38;0x07;
   0xb0;0xae;0x73;0xe2;0x41;0xdf;0x58;0x64;0x8b;0xc1;0xf3;0xd9;0x9a;0xad;0x5a;0xd7;0x9c;0xc1;0xb1;0x60;0xef;0x0e;0x6a;0x56;
   0xd9;0x0e;0x5c;0x25;0xac;0x0b;0x9a;0x3e;0xf5;0xc7;0x62;0xa0;0xec;0x9d;0x04;0x7b;0x83;0x44;0x44;0x35;0x7a;0xe3;0xcb;0xdc;
   0x93;0xbe;0xed;0x0f;0x33;0x79;0x88;0x75;0x87;0xdd;0xc5;0x12;0xc3;0x04;0x60;0x78;0x64;0x0e;0x95;0xc2;0xcb;0xdc;0x93;0x60];
  [0x6d;0x70;0xe0;0x85;0x85;0x9a;0xf3;0x1f;0x33;0x39;0xe7;0xb3;0xd8;0xa5;0xd0;0x36;0x3b;0x45;0x8f;0x71;0xe1;0xf2;0xb9;0x43;
   0x7c;0xa9;0x27;0x48;0x08;0xea;0xd1;0x57;0x4b;0x03;0x84;0x60;0xbe;0xee;0xde;0x6b;0x54;0xb8;0x0f;0x78;0xb6;0xc2;0x99;0x31;
   0x95;0x06;0x2d;0xb6;0xab;0x76;0x33;0x97;0x90;0x7d;0x64;0x8b;0xc9;0x80;0x31;0x6e;0x71;0xb0;0x28;0xa1;0xe7;0xb6;0x7a;0xee;
   0xaa;0x8b;0xa8;0x93;0x6d;0x59;0xc1;0xa4;0x30;0x61;0x21;0xb2;0x82;0xde;0xb4;0xf7;0x18;0xbd;0x97;0xdd;0x9d;0x99;0x3e;0x36];
  [0xc4;0x1f;0xee;0x35;0xc1;0x43;0xa8;0x96;0xcf;0xc8;0xe4;0x08;0x55;0xb3;0x6e;0x97;0x30;0xd3;0x8c;0xb5;0x01;0x68;0x2f;0xb4;
   0x2b;0x05;0x3a;0x69;0x78;0x9b;0xee;0x48;0xc6;0xae;0x4b;0xe2;0xdc;0x48;0x18;0x2f;0x60;0xaf;0xbc;0xba;0x55;0x72;0x9b;0x76;
   0x31;0xe9;0xef;0x3c;0x6e;0x3c;0xcb;0x90;0x55;0xb3;0xf9;0xc6;0x9b;0x97;0x1f;0x23;0xc6;0xf3;0x2a;0xcc;0x4b;0xde;0x31;0x5c;
   0x1f;0x8d;0x20;0xfe;0x30;0xb0;0x4b;0xb0;0x66;0xb4;0x4f;0xc1;0x09;0x70;0x8d;0xb7;0x13;0x24;0x79;0x08;0x9b;0xfa;0x9b;0x07];
  [0xf4;0x0d;0x30;0xda;0x51;0x3a;0x90;0xe3;0xb0;0x5a;0xa9;0x3d;0x23;0x64;0x39;0x84;0x80;0x64;0x35;0x0b;0x2d;0xf1;0x3c;0xed;
   0x94;0x71;0x81;0x84;0xf6;0x77;0x8c;0x03;0x45;0x42;0xd5;0xa2;0x80;0xed;0xc9;0xf3;0x52;0x39;0xf6;0x77;0x78;0x8b;0xa0;0x0a;
   0x75;0x54;0x08;0xd1;0x63;0xac;0x6d;0xd7;0x6b;0x63;0x70;0x94;0x15;0xfb;0xf4;0x1e;0xec;0x7b;0x16;0x5b;0xe6;0x5e;0x4e;0x85;
   0xc2;0xcd;0xd0;0x96;0x42;0x0a;0x59;0x59;0x99;0x21;0x10;0x98;0x34;0xdf;0xb2;0x72;0x56;0xff;0x0b;0x4a;0x2a;0xe9;0x5e;0x57];
  [0xcf;0x2f;0x18;0x8a;0x90;0x80;0xc0;0xd4;0xbd;0x9d;0x48;0x99;0xc2;0x70;0xe1;0x30;0xde;0x33;0xf7;0x52;0x57;0xbd;0xba;0x05;
   0x00;0xfd;0xd3;0x2c;0x11;0xe7;0xd4;0x43;0x01;0xd8;0xa4;0x0a;0x45;0xbc;0x46;0x5d;0xd8;0xb9;0x33;0xa5;0x27;0x12;0xaf;0xc3;
   0xc2;0x06;0x89;0x2b;0x26;0x3b;0x9e;0x38;0x1b;0x58;0x2f;0x38;0x7e;0x1e;0x0a;0x20;0xc5;0x3a;0xf9;0xea;0x67;0xb9;0x8d;0x51;
   0xc0;0x52;0x66;0x05;0x9b;0x98;0xbc;0x71;0xf5;0x97;0x71;0x56;0xd9;0x85;0x2b;0xfe;0x38;0x4e;0x1e;0x65;0x52;0xca;0x0e;0x05];
  [0x9c;0x0c;0x3f;0x45;0xde;0x1a;0x43;0xc3;0x9b;0x3b;0x70;0xff;0x5e;0x04;0xf5;0xe9;0x3d;0x7b;0x84;0xed;0xc9;0x7a;0xd9;0xfc;
   0xc6;0xf4;0x58;0x1c;0xc2;0xe6;0x0e;0x4b;0xea;0x68;0xe6;0x60;0x76;0x39;0xac;0x97;0x97;0xb4;0x3a;0x15;0xfe;0xbb;0x19;0x9b;
   0x9f;0xa7;0xec;0x34;0xb5;0x79;0xb1;0x4c;0x57;0xae;0x31;0xa1;0x9f;0xc0;0x51;0x61;0x96;0x5d;0xf0;0xfd;0x0d;0x5c;0xf5;0x3a;
   0x7a;0xee;0xb4;0x2a;0xe0;0x2e;0x26;0xdd;0x09;0x17;0x17;0x12;0x87;0xbb;0xb2;0x11;0x0b;0x03;0x0f;0x80;0xfa;0x24;0xef;0x1f];
  [0x96;0x31;0xa7;0x1a;0xfb;0x53;0xd6;0x37;0x18;0x64;0xd7;0x3f;0x30;0x95;0x94;0x0f;0xb2;0x17;0x3a;0xfb;0x09;0x0b;0x20;0xad;
   0x3e;0x61;0xc8;0x2f;0x29;0x49;0x4d;0x54;0x86;0x6b;0x97;0x30;0xf5;0xaf;0xd2;0x22;0x04;0x46;0xd2;0xc2;0x06;0xb8;0x90;0x8d;
   0xe5;0xba;0xe5;0x4d;0x6c;0x89;0xa1;0xdc;0x17;0x0c;0x34;0xc8;0xe6;0x5f;0x00;0x28;0x88;0x86;0x52;0x34;0x9f;0xba;0xef;0x6a;
   0xa1;0x7d;0x10;0x25;0x94;0xff;0x1b;0x5c;0x36;0x4b;0xd9;0x66;0xcd;0xbb;0x5b;0xf7;0xfa;0x6d;0x31;0x0f;0x93;0x72;0xe4;0x72];
  [0x4f;0x08;0x81;0x97;0x8c;0x20;0x95;0x26;0xe1;0x0e;0x45;0x23;0x0b;0x2a;0x50;0xb1;0x02;0xde;0xef;0x03;0xa6;0xae;0x9d;0xfd;
   0x4c;0xa3;0x33;0x27;0x8c;0x2e;0x9d;0x5a;0x27;0x76;0x2a;0xd3;0x35;0xf6;0xf3;0x07;0xf0;0x66;0x65;0x5f;0x86;0x4d;0xaa;0x7a;
   0x50;0x44;0xd0;0x28;0x97;0xe7;0x85;0x3c;0x38;0x64;0xe0;0x0f;0x00;0x7f;0xee;0x1f;0xe5;0xf7;0xdb;0x03;0xda;0x05;0x53;0x76;
   0xbd;0xcd;0x34;0x14;0x49;0xf2;0xda;0xa4;0xec;0x88;0x4a;0xd2;0xcd;0xd5;0x4a;0x7b;0x43;0x05;0x04;0xee;0x51;0x40;0xf9;0x00];
  [0xb2;0x30;0xd3;0xc3;0x23;0x6b;0x35;0x8d;0x06;0x1b;0x47;0xb0;0x9b;0x8b;0x1c;0xf2;0x3c;0xb8;0x42;0x6e;0x6c;0x31;0x6c;0xb3;
   0x0d;0xb1;0xea;0x8b;0x7e;0x9c;0xd7;0x07;0x53;0x97;0xaf;0x07;0xbb;0x93;0xef;0xd7;0xa7;0x66;0xb7;0x3d;0xcf;0xd0;0x3e;0x58;
   0xc5;0x1e;0x0b;0x6e;0xbf;0x98;0x69;0xce;0x52;0x04;0xd4;0x5d;0xd2;0xff;0xb7;0x47;0x12;0xdd;0x08;0xbc;0x9c;0xfb;0xfb;0x87;
   0x9b;0xc2;0xee;0xe1;0x3a;0x6b;0x06;0x8a;0xbf;0xc1;0x1f;0xdb;0x2b;0x24;0x57;0x0d;0xb6;0x4b;0xa6;0x5e;0xa3;0x20;0x35;0x1c];
  [0x4a;0xa3;0xcb;0xbc;0xa6;0x53;0xd2;0x80;0x9b;0x21;0x38;0x38;0xa1;0xc3;0x61;0x3e;0x96;0xe3;0x82;0x98;0x01;0xb6;0xc3;0x90;
   0x6f;0xe6;0x0e;0x5d;0x77;0x05;0x3d;0x1c;0x59;0xc0;0x6b;0x21;0x40;0x6f;0xa8;0xcd;0x7e;0xd8;0xbc;0x12;0x1d;0x23;0xbb;0x1f;
   0x90;0x09;0xc7;0x17;0x9e;0x6a;0x95;0xb4;0x55;0x2e;0xd1;0x66;0x3b;0x0c;0x75;0x38;0x1a;0xe5;0x22;0x94;0x40;0xf1;0x2e;0x69;
   0x71;0xf6;0x5d;0x2b;0x3c;0xc7;0xc0;0xcb;0x29;0xe0;0x4c;0x74;0xe7;0x4f;0x01;0x21;0x7c;0x48;0x30;0xd3;0xc7;0xe2;0x21;0x06];
  [0x8d;0x83;0x59;0x82;0xcc;0x60;0x98;0xaf;0xdc;0x9a;0x9f;0xc6;0xc1;0x48;0xea;0x90;0x30;0x1e;0x58;0x65;0x37;0x48;0x26;0x65;
   0xbc;0xa5;0xd3;0x7b;0x09;0xd6;0x07;0x00;0xf3;0xf0;0xdb;0xb0;0x96;0x17;0xae;0xb7;0x96;0xe1;0x7c;0xe1;0xb9;0xaf;0xdf;0x54;
   0xb4;0xa3;0xaa;0xe9;0x71;0x30;0x92;0x25;0x9d;0x2e;0x00;0xa1;0x9c;0x58;0x8e;0x5d;0x4b;0xa9;0x42;0x08;0x95;0x1d;0xbf;0xc0;
   0x3e;0x2e;0x8f;0x58;0x63;0xc3;0xd3;0xb2;0xef;0xe2;0x51;0xbb;0x38;0x14;0x96;0x0a;0x86;0xbf;0x1c;0x3c;0x78;0xd7;0x83;0x15];
  [0xe1;0x7a;0xa2;0x5d;0xef;0xa2;0xee;0xec;0x74;0x01;0x67;0x55;0x14;0x3a;0x7c;0x59;0x7a;0x16;0x09;0x66;0x12;0x2a;0xa6;0xc9;
   0x70;0x8f;0xed;0x81;0x2e;0x5f;0x2a;0x25;0xc7;0x28;0x9d;0xcc;0x04;0x47;0x03;0x90;0x8f;0xc5;0x2c;0xf7;0x9e;0x67;0x1b;0x1d;
   0x26;0x87;0x5b;0xbe;0x5f;0x2b;0xe1;0x16;0x0a;0x58;0xc5;0x83;0x4e;0x06;0x58;0x49;0x0d;0xe8;0x66;0x50;0x26;0x94;0x28;0x0d;
   0x6b;0x8c;0x7c;0x30;0x85;0xf7;0xc3;0xfc;0xfd;0x12;0x11;0x0c;0x78;0xda;0x53;0x1b;0x88;0xb3;0x43;0xd8;0x0b;0x17;0x9c;0x07];
  [0xff;0x6f;0xfa;0x64;0xe4;0xec;0x06;0x05;0x23;0xe5;0x05;0x62;0x1e;0x43;0xe3;0xbe;0x42;0xea;0xb8;0x51;0x24;0x42;0x79;0x35;
   0x00;0xfb;0xc9;0x4a;0xe3;0x05;0xec;0x6d;0x56;0xd0;0xd5;0xc0;0x50;0xcd;0xd6;0xcd;0x3b;0x57;0x03;0xbb;0x6d;0x68;0xf7;0x9a;
   0x48;0xef;0xc3;0xf3;0x3f;0x72;0xa6;0x3c;0xcc;0x8a;0x7b;0x31;0xd7;0xc0;0x68;0x67;0xb3;0xc1;0x55;0xf1;0xe5;0x25;0xb6;0x94;
   0x91;0x7b;0x7b;0x99;0xa7;0xf3;0x7b;0x41;0x00;0x26;0x6b;0x6d;0xdc;0xbd;0x2c;0xc2;0xf4;0x52;0xcd;0xdd;0x14;0x5e;0x44;0x51];
  [0x51;0x49;0x14;0x3b;0x4b;0x2b;0x50;0x57;0xb3;0xbc;0x4b;0x44;0x6b;0xff;0x67;0x8e;0xdb;0x85;0x63;0x16;0x27;0x69;0xbd;0xb8;
   0xc8;0x95;0x92;0xe3;0x31;0x6f;0x18;0x13;0x55;0xa4;0xbe;0x2b;0xab;0x47;0x31;0x89;0x29;0x91;0x07;0x92;0x4f;0xa2;0x53;0x8c;
   0xa7;0xf7;0x30;0xbe;0x48;0xf9;0x49;0x4b;0x3d;0xd4;0x4f;0x6e;0x08;0x90;0xe9;0x12;0x2e;0xbb;0xdf;0x7f;0xb3;0x96;0x0c;0xf1;
   0xf9;0xea;0x1c;0x12;0x5e;0x93;0x9a;0x9f;0x3f;0x98;0x5b;0x3a;0xc4;0x36;0x11;0xdf;0xaf;0x99;0x3e;0x5d;0xf0;0xe3;0xb2;0x77];
  [0xde;0xc4;0x2e;0x9c;0xc5;0xa9;0x6f;0x29;0xcb;0xf3;0x84;0x4f;0xbf;0x61;0x8b;0xbc;0x08;0xf9;0xa8;0x17;0xd9;0x06;0x77;0x1c;
   0x5d;0x25;0xd3;0x7a;0xfc;0x95;0xb7;0x63;0xa4;0xb0;0xdd;0x12;0x9c;0x63;0x98;0xd5;0x6b;0x86;0x24;0xc0;0x30;0x9f;0xd1;0xa5;
   0x60;0xe4;0xfc;0x58;0x03;0x2f;0x7c;0xd1;0x8a;0x5e;0x09;0x2e;0x15;0x95;0xa1;0x07;0xc8;0x5f;0x9e;0x38;0x02;0x8f;0x36;0xa8;
   0x3b;0xe4;0x8d;0xcf;0x02;0x3b;0x43;0x90;0x43;0x26;0x41;0xc5;0x5d;0xfd;0xa1;0xaf;0x37;0x01;0x2f;0x03;0x3d;0xe8;0x8f;0x3e];
  [0x94;0xa2;0x70;0x05;0xb9;0x15;0x8b;0x2f;0x49;0x45;0x08;0x67;0x70;0x42;0xf2;0x94;0x84;0xfd;0xbb;0x61;0xe1;0x5a;0x1c;0xde;
   0x07;0x40;0xac;0x7f;0x79;0x3b;0xba;0x75;0x3c;0xd1;0xef;0xe8;0x8d;0x4c;0x70;0x08;0x31;0x37;0xe0;0x33;0x8e;0x1a;0xc5;0xdf;
   0xe3;0xcd;0x60;0x12;0xa5;0x5d;0x9d;0xa5;0x86;0x8c;0x25;0xa6;0x99;0x08;0xd6;0x22;0x96;0xd1;0xcd;0x70;0xc0;0xdb;0x39;0x62;
   0x9a;0x8a;0x7d;0x6c;0x8b;0x8a;0xfe;0x60;0x60;0x12;0x40;0xeb;0xbc;0x47;0x88;0xb3;0x5e;0x9e;0x77;0x87;0x7b;0xd0;0x04;0x09];
  [0x9c;0x91;0xba;0xdd;0xd4;0x1f;0xce;0xb4;0xaa;0x8d;0x4c;0xc7;0x3e;0xdb;0x31;0xcf;0x51;0xcc;0x86;0xad;0x63;0xcc;0x63;0x2c;
   0x07;0xde;0x1d;0xbc;0x3f;0x14;0xe2;0x43;0xb9;0x40;0xf9;0x48;0x66;0x2d;0x32;0xf4;0x39;0x0c;0x2d;0xbd;0x0c;0x2f;0x95;0x06;
   0x31;0xf9;0x81;0xa0;0xad;0x97;0x76;0x16;0x6c;0x2a;0xf7;0xba;0xce;0xaa;0x40;0x62;0xa0;0x95;0xa2;0x5b;0x9c;0x74;0x34;0xf8;
   0x5a;0xd2;0x37;0xca;0x5b;0x7c;0x94;0xd6;0x6a;0x31;0xc9;0xe7;0xa7;0x3b;0xf1;0x66;0xac;0x0c;0xb4;0x8d;0x23;0xaf;0xbd;0x56];
  [0xeb;0x33;0x35;0xf5;0xe3;0xb9;0x2a;0x36;0x40;0x3d;0xb9;0x6e;0xd5;0x68;0x85;0x33;0x72;0x55;0x5a;0x1d;0x52;0x14;0x0e;0x9e;
   0x18;0x13;0x74;0x83;0x6d;0xa8;0x24;0x1d;0xb2;0x3b;0x9d;0xc1;0x6c;0xd3;0x10;0x13;0xb9;0x86;0x23;0x62;0xb7;0x6b;0x2a;0x06;
   0x5c;0x4f;0xa1;0xd7;0x91;0x85;0x9b;0x7c;0x54;0x57;0x1e;0x7e;0x50;0x31;0xaa;0x03;0x1f;0xce;0xd4;0xff;0x48;0x76;0xec;0xf4;
   0x1c;0x8c;0xac;0x54;0xf0;0xea;0x45;0xe0;0x7c;0x35;0x09;0x1d;0x82;0x25;0xd2;0x88;0x59;0x48;0xeb;0x9a;0xdc;0x61;0xb2;0x43];
  [0xbb;0x79;0xbb;0x88;0x19;0x1e;0x5b;0xe5;0x9d;0x35;0x7a;0xc1;0x7d;0xd0;0x9e;0xa0;0x33;0xea;0x3d;0x60;0xe2;0x2e;0x2c;0xb0;
   0xc2;0x6b;0x27;0x5b;0xcf;0x55;0x60;0x32;0x64;0x13;0x95;0x6c;0x8b;0x3d;0x51;0x19;0x7b;0xf4;0x0b;0x00;0x26;0x71;0xfe;0x94;
   0x67;0x95;0x4f;0xd5;0xdd;0x10;0x8d;0x02;0x64;0x09;0x94;0x42;0xe2;0xd5;0xb4;0x02;0xf2;0x8d;0xd1;0x28;0xcb;0x55;0xa1;0xb4;
   0x08;0xe5;0x6c;0x18;0x46;0x46;0xcc;0xea;0x89;0x43;0x82;0x6c;0x93;0xf4;0x9c;0xc4;0x10;0x34;0x5d;0xae;0x09;0xc8;0xa6;0x27];
  [0x88;0xb1;0x0d;0x1f;0xcd;0xeb;0xa6;0x8b;0xe8;0x5b;0x5a;0x67;0x3a;0xd7;0xd3;0x37;0x5a;0x58;0xf5;0x15;0xa3;0xdf;0x2e;0xf2;
   0x7e;0xa1;0x60;0xff;0x74;0x71;0xb6;0x2c;0x54;0x69;0x3d;0xc4;0x0a;0x27;0x2c;0xcd;0xb2;0xca;0x66;0x6a;0x57;0x3e;0x4a;0xdd;
   0x6c;0x03;0xd7;0x69;0x24;0x59;0xfa;0x79;0x99;0x25;0x8c;0x3d;0x60;0x03;0x15;0x22;0xd0;0xe1;0x0b;0x39;0xf9;0xcd;0xee;0x59;
   0xf1;0xe3;0x8c;0x72;0x44;0x20;0x42;0xa9;0xf4;0xf0;0x94;0x7a;0x66;0x1c;0x89;0x82;0x36;0xf4;0x90;0x38;0xb7;0xf4;0x1d;0x7b];
  [0x24;0xa2;0xb2;0xb3;0xe0;0xf2;0x92;0xe4;0x60;0x11;0x55;0x2b;0x06;0x9e;0x6c;0x7c;0x0e;0x7b;0x7f;0x0d;0xe2;0x8f;0xeb;0x15;
   0x92;0x59;0xfc;0x58;0x26;0xef;0xfc;0x61;0x8c;0xf5;0xf8;0x07;0x18;0x22;0x2e;0x5f;0xd4;0x09;0x94;0xd4;0x9f;0x5c;0x55;0xe3;
   0x30;0xa6;0xb6;0x1f;0x8d;0xa8;0xaa;0xb2;0x3d;0xe0;0x52;0xd3;0x45;0x82;0x69;0x68;0x7a;0x18;0x18;0x2a;0x85;0x5d;0xb1;0xdb;
   0xd7;0xac;0xdd;0x86;0xd3;0xaa;0xe4;0xf3;0x82;0xc4;0xf6;0x0f;0x81;0xe2;0xba;0x44;0xcf;0x01;0xaf;0x3d;0x47;0x4c;0xcf;0x46];
  [0xf9;0xe5;0xc4;0x9e;0xed;0x25;0x65;0x42;0x03;0x33;0x90;0x16;0x01;0xda;0x5e;0x0e;0xdc;0xca;0xe5;0xcb;0xf2;0xa7;0xb1;0x72;
   0x40;0x5f;0xeb;0x14;0xcd;0x7b;0x38;0x29;0x40;0x81;0x49;0xf1;0xa7;0x6e;0x3c;0x21;0x54;0x48;0x2b;0x39;0xf8;0x7e;0x1e;0x7c;
   0xba;0xce;0x29;0x56;0x8c;0xc3;0x88;0x24;0xbb;0xc5;0x8c;0x0d;0xe5;0xaa;0x65;0x10;0x57;0x0d;0x20;0xdf;0x25;0x45;0x2c;0x1c;
   0x4a;0x67;0xca;0xbf;0xd6;0x2d;0x3b;0x5c;0x30;0x40;0x83;0xe1;0xb1;0xe7;0x07;0x0a;0x16;0xe7;0x1c;0x4f;0xe6;0x98;0xa1;0x69];
  [0xbc;0x78;0x1a;0xd9;0xe0;0xb2;0x62;0x90;0x67;0x96;0x50;0xc8;0x9c;0x88;0xc9;0x47;0xb8;0x70;0x50;0x40;0x66;0x4a;0xf5;0x9d;
   0xbf;0xa1;0x93;0x24;0xa9;0xe6;0x69;0x73;0xed;0xca;0xc5;0xdc;0x34;0x44;0x01;0xe1;0x33;0xfb;0x84;0x3c;0x96;0x5d;0xed;0x47;
   0xe7;0xa0;0x86;0xed;0x76;0x95;0x01;0x70;0xe4;0xf9;0x67;0xd2;0x7b;0x69;0xb2;0x25;0x64;0x68;0x98;0x13;0xfb;0x3f;0x67;0x9d;
   0xb8;0xc7;0x5d;0x41;0xd9;0xfb;0xa5;0x3c;0x5e;0x3b;0x27;0xdf;0x3b;0xcc;0x4e;0xe0;0xd2;0x4c;0x4e;0xb5;0x3d;0x68;0x20;0x14];
  [0x97;0xd1;0x9d;0x24;0x1e;0xbd;0x78;0xb4;0x02;0xc1;0x58;0x5e;0x00;0x35;0x0c;0x62;0x5c;0xac;0xba;0xcc;0x2f;0xd3;0x02;0xfb;
   0x2d;0xa7;0x08;0xf5;0xeb;0x3b;0xb6;0x60;0xd0;0x5a;0xcc;0xc1;0x6f;0xbb;0xee;0x34;0x8b;0xac;0x46;0x96;0xe9;0x0c;0x1b;0x6a;
   0x53;0xde;0x6b;0xa6;0x49;0xda;0xb0;0xd3;0xc1;0x81;0xd0;0x61;0x41;0x3b;0xe8;0x31;0x4f;0x2b;0x06;0x9e;0x12;0xc7;0xe8;0x97;
   0xd8;0x0a;0x32;0x29;0x4f;0x8f;0xe4;0x49;0x3f;0x68;0x18;0x6f;0x4b;0xe1;0xec;0x5b;0x17;0x03;0x55;0x2d;0xb6;0x1e;0xcf;0x55];
  [0x58;0x3d;0xc2;0x65;0x10;0x10;0x79;0x58;0x9c;0x81;0x94;0x50;0x6d;0x08;0x9d;0x8b;0xa7;0x5f;0xc5;0x12;0xa9;0x2f;0x40;0xe2;
   0xd4;0x91;0x08;0x57;0x64;0x65;0x9a;0x66;0x52;0x8c;0xf5;0x7d;0xe3;0xb5;0x76;0x30;0x36;0xcc;0x99;0xe7;0xdd;0xb9;0x3a;0xd7;
   0x20;0xee;0x13;0x49;0xe3;0x1c;0x83;0xbd;0x33;0x01;0xba;0x62;0xaa;0xfb;0x56;0x1a;0xec;0xc9;0x9d;0x5c;0x50;0x6b;0x3e;0x94;
   0x1a;0x37;0x7c;0xa7;0xbb;0x57;0x25;0x30;0x51;0x76;0x34;0x41;0x56;0xae;0x73;0x98;0x5c;0x8a;0xc5;0x99;0x67;0x83;0xc4;0x13];
  [0xb9;0xe1;0xb3;0x5a;0x46;0x5d;0x3a;0x42;0x61;0x3f;0xf1;0xc7;0x87;0xc1;0x13;0xfc;0xb6;0xb9;0xb5;0xec;0x64;0x36;0xf8;0x19;
   0x07;0xb6;0x37;0xa6;0x93;0x0c;0xf8;0x66;0x80;0xd0;0x8b;0x5d;0x6a;0xfb;0xdc;0xc4;0x42;0x48;0x1a;0x57;0xec;0xc4;0xeb;0xde;
   0x65;0x53;0xe5;0xb8;0x83;0xe8;0xb2;0xd4;0x27;0xb8;0xe5;0xc8;0x7d;0xc8;0xbd;0x50;0x11;0xe1;0xdf;0x6e;0x83;0x37;0x6d;0x60;
   0xd9;0xab;0x11;0xf0;0x15;0x3e;0x35;0x32;0x96;0x3b;0xb7;0x25;0xc3;0x3a;0xb0;0x64;0xae;0xd5;0x5f;0x72;0x44;0x64;0xd5;0x1d];
  [0x7d;0x12;0x62;0x33;0xf8;0x7f;0xa4;0x8f;0x15;0x7c;0xcd;0x71;0xc4;0x6a;0x9f;0xbc;0x8b;0x0c;0x22;0x49;0x43;0x45;0x71;0x6e;
   0x2e;0x73;0x9f;0x21;0x12;0x59;0x64;0x0e;0x9a;0xc8;0xba;0x08;0x00;0xe6;0x97;0xc2;0xe0;0xc3;0xe1;0xea;0x11;0xea;0x4c;0x7d;
   0x7c;0x97;0xe7;0x9f;0xe1;0x8b;0xe3;0xf3;0xcd;0x05;0xa3;0x63;0x0f;0x45;0x3a;0x3a;0x27;0x46;0x39;0xd8;0x31;0x2f;0x8f;0x07;
   0x10;0xa5;0x94;0xde;0x83;0x31;0x9d;0x38;0x80;0x6f;0x99;0x17;0x6d;0x6c;0xe3;0xd1;0x7b;0xa8;0xa9;0x93;0x93;0x8d;0x8c;0x31];
  [0x19;0xfe;0xff;0x2a;0x03;0x5d;0x74;0xf2;0x66;0xdb;0x24;0x7f;0x49;0x3c;0x9f;0x0c;0xef;0x98;0x85;0xba;0xe3;0xd3;0x98;0xbc;
   0x14;0x53;0x1d;0x9a;0x67;0x7c;0x4c;0x22;0x98;0xd3;0x1d;0xab;0x29;0x9e;0x66;0x5d;0x3b;0x9e;0x2d;0x34;0x58;0x16;0x92;0xfc;
   0xcd;0x73;0x59;0xf3;0xfd;0x1d;0x85;0x55;0xf6;0x0a;0x95;0x25;0xc3;0x41;0x9a;0x50;0xe9;0x25;0xf9;0xa6;0xdc;0x6e;0xc0;0xbd;
   0x33;0x1f;0x1b;0x64;0xf4;0xf3;0x3e;0x79;0x89;0x3e;0x83;0x9d;0x80;0x12;0xec;0x82;0x89;0x13;0xa1;0x28;0x23;0xf0;0xbf;0x05];
  [0x0b;0xe0;0xca;0x23;0x70;0x13;0x32;0x36;0x59;0xcf;0xac;0xd1;0x0a;0xcf;0x4a;0x54;0x88;0x1c;0x1a;0xd2;0x49;0x10;0x74;0x96;
   0xa7;0x44;0x2a;0xfa;0xc3;0x8c;0x0b;0x78;0xe4;0x12;0xc5;0x0d;0xdd;0xa0;0x81;0x68;0xfe;0xfa;0xa5;0x44;0xc8;0x0d;0xe7;0x4f;
   0x40;0x52;0x4a;0x8f;0x6b;0x8e;0x74;0x1f;0xea;0xa3;0x01;0xee;0xcd;0x77;0x62;0x57;0x5f;0x30;0x4f;0x23;0xbc;0x8a;0xf3;0x1e;
   0x08;0xde;0x05;0x14;0xbd;0x7f;0x57;0x9a;0x0d;0x2a;0xe6;0x34;0x14;0xa5;0x82;0x5e;0xa1;0xb7;0x71;0x62;0x72;0x18;0xf4;0x5f];
  [0x9d;0xdb;0x89;0x17;0x0c;0x08;0x8e;0x39;0xf5;0x78;0xe7;0xf3;0x25;0x20;0x60;0xa7;0x5d;0x03;0xbd;0x06;0x4c;0x89;0x98;0xfa;
   0xbe;0x66;0xa9;0x25;0xdc;0x03;0x6a;0x10;0x40;0x95;0xb6;0x13;0xe8;0x47;0xdb;0xe5;0xe1;0x10;0x26;0x43;0x3b;0x2a;0x5d;0xf3;
   0x76;0x12;0x78;0x38;0xe9;0x26;0x1f;0xac;0x69;0xcb;0xa0;0xa0;0x8c;0xdb;0xd4;0x29;0xd0;0x53;0x33;0x33;0xaf;0x0a;0xad;0xd9;
   0xe5;0x09;0xd3;0xac;0xa5;0x9d;0x66;0x38;0xf0;0xf7;0x88;0xc8;0x8a;0x65;0x57;0x3c;0xfa;0xbe;0x2c;0x05;0x51;0x8a;0xb3;0x4a];
  [0x93;0xd5;0x68;0x67;0x25;0x2b;0x7c;0xda;0x13;0xca;0x22;0x44;0x57;0xc0;0xc1;0x98;0x1d;0xce;0x0a;0xca;0xd5;0x0b;0xa8;0xf1;
   0x90;0xa6;0x88;0xc0;0xad;0xd1;0xcd;0x29;0x9c;0xc0;0xdd;0x5f;0xef;0xd1;0xcf;0xd6;0xce;0x5d;0x57;0xf7;0xfd;0x3e;0x2b;0xe8;
   0xc2;0x34;0x16;0x20;0x5d;0x6b;0xd5;0x25;0x9b;0x2b;0xed;0x04;0xbb;0xc6;0x41;0x30;0x48;0xe1;0x56;0xd9;0xf9;0xf2;0xf2;0x0f;
   0x2e;0x6b;0x35;0x9f;0x75;0x97;0xe7;0xad;0x5c;0x02;0x6c;0x5f;0xbb;0x98;0x46;0x1a;0x7b;0x9a;0x04;0x14;0x68;0xbd;0x4b;0x10];
  [0x67;0xed;0xf1;0x68;0x31;0xfd;0xf0;0x51;0xc2;0x3b;0x6f;0xd8;0xcd;0x1d;0x81;0x2c;0xde;0xf2;0xd2;0x04;0x43;0x5c;0xdc;0x44;
   0x49;0x71;0x2a;0x09;0x57;0xcc;0xe8;0x5b;0x63;0xf1;0x7f;0xd6;0x5f;0x9a;0x5d;0xa9;0x81;0x56;0xc7;0x4c;0x9d;0xe6;0x2b;0xe9;
   0x57;0xf2;0x20;0xde;0x4c;0x02;0xf8;0xb7;0xf5;0x2d;0x07;0xfb;0x20;0x2a;0x4f;0x20;0x79;0xb0;0xeb;0x30;0x3d;0x3b;0x14;0xc8;
   0x30;0x2e;0x65;0xbd;0x5a;0x15;0x89;0x75;0x31;0x5c;0x6d;0x8f;0x31;0x3c;0x3c;0x65;0x1f;0x16;0x79;0xc2;0x17;0xfb;0x70;0x25];
  [0x75;0x15;0xb6;0x2c;0x7f;0x36;0xfa;0x3e;0x6c;0x02;0xd6;0x1c;0x76;0x6f;0xf9;0xf5;0x62;0x25;0xb5;0x65;0x2a;0x14;0xc7;0xe8;
   0xcd;0x0a;0x03;0x53;0xea;0x65;0xcb;0x3d;0x5a;0x24;0xb8;0x0b;0x55;0xa9;0x2e;0x19;0xd1;0x50;0x90;0x8f;0xa8;0xfb;0xe6;0xc8;
   0x35;0xc9;0xa4;0x88;0x2d;0xea;0x86;0x79;0x68;0x86;0x01;0xde;0x91;0x5f;0x1c;0x24;0xaa;0x6c;0xde;0x40;0x29;0x17;0xd8;0x28;
   0x3a;0x73;0xd9;0x22;0xf0;0x2c;0xbf;0x8f;0xd1;0x01;0x5b;0x23;0xdd;0xfc;0xd7;0x16;0xe5;0xf0;0xcd;0x5f;0xdd;0x0e;0x42;0x08];
  [0x4a;0xfa;0x62;0x83;0xab;0x20;0xff;0xcd;0x6e;0x3e;0x1a;0xe2;0xd4;0x18;0xe1;0x57;0x2b;0xe6;0x39;0xfc;0x17;0x96;0x17;0xe3;
   0xfd;0x69;0x17;0xbc;0xef;0x53;0x9a;0x0d;0xce;0x10;0xf4;0x04;0x4e;0xc3;0x58;0x03;0x85;0x06;0x6e;0x27;0x5a;0x5b;0x13;0xb6;
   0x21;0x15;0xb9;0xeb;0xc7;0x70;0x96;0x5d;0x9c;0x88;0xdb;0x21;0xf3;0x54;0xd6;0x04;0xd5;0xb5;0xbd;0xdd;0x16;0xc1;0x7d;0x5e;
   0x2d;0xdd;0xa5;0x8d;0xb6;0xde;0x54;0x29;0x92;0xa2;0x34;0x33;0x17;0x08;0xb6;0x1c;0xd7;0x1a;0x99;0x18;0x26;0x4f;0x7a;0x4a];
  [0x95;0x5f;0xb1;0x5f;0x02;0x18;0xa7;0xf4;0x8f;0x1b;0x5c;0x6b;0x34;0x5f;0xf6;0x3d;0x12;0x11;0xe0;0x00;0x85;0xf0;0xfc;0xcd;
   0x48;0x18;0xd3;0xdd;0x4c;0x0c;0xb5;0x11;0x4b;0x2a;0x37;0xaf;0x91;0xb2;0xc3;0x24;0xf2;0x47;0x81;0x71;0x70;0x82;0xda;0x93;
   0xf2;0x9e;0x89;0x86;0x64;0x85;0x84;0xdd;0x33;0xee;0xe0;0x23;0x42;0x31;0x96;0x4a;0xd6;0xff;0xa4;0x08;0x44;0x27;0xe8;0xa6;
   0xd9;0x76;0x15;0x9c;0x7e;0x17;0x8e;0x73;0xf2;0xb3;0x02;0x3d;0xb6;0x48;0x33;0x77;0x51;0xcc;0x6b;0xce;0x4d;0xce;0x4b;0x4f];
  [0x84;0x25;0x24;0xe2;0x5a;0xce;0x1f;0xa7;0x9e;0x8a;0xf5;0x92;0x56;0x72;0xea;0x26;0xf4;0x3c;0xea;0x1c;0xd7;0x09;0x1a;0xd2;
   0xe6;0x01;0x1c;0xb7;0x14;0xdd;0xfc;0x73;0x6f;0x0b;0x9d;0xc4;0x6e;0x61;0xe2;0x30;0x17;0x23;0xec;0xca;0x8f;0x71;0x56;0xe4;
   0xa6;0x4f;0x6b;0xf2;0x9b;0x40;0xeb;0x48;0x37;0x5f;0x59;0x61;0xe5;0xce;0x42;0x30;0x41;0xac;0x9b;0x44;0x79;0x70;0x7e;0x42;
   0x0a;0x31;0xe2;0xbc;0x6d;0xe3;0x5a;0x85;0x7c;0x1a;0x84;0x5f;0x21;0x76;0xae;0x4c;0xd6;0xe1;0x9c;0x9a;0x0c;0x74;0x9e;0x38];
  [0xce;0xb9;0xdc;0x34;0xae;0xb3;0xfc;0x64;0xad;0xd0;0x48;0xe3;0x23;0x03;0x50;0x97;0x1b;0x38;0xc6;0x62;0x7d;0xf0;0xb3;0x45;
   0x88;0x67;0x5a;0x46;0x79;0x53;0x54;0x61;0x28;0xac;0x0e;0x57;0xf6;0x78;0xbd;0xc9;0xe1;0x9c;0x91;0x27;0x32;0x0b;0x5b;0xe5;
   0xed;0x91;0x9b;0xa1;0xab;0x3e;0xfc;0x65;0x90;0x36;0x26;0xd6;0xe5;0x25;0xc4;0x25;0x6e;0xde;0xd7;0xf1;0xa6;0x06;0x3e;0x3f;
   0x08;0x23;0x06;0x8e;0x27;0x76;0xf9;0x3e;0x77;0x6c;0x8a;0x4e;0x26;0xf6;0x14;0x8c;0x59;0x47;0x48;0x15;0x89;0xa0;0x39;0x65];
  [0x73;0xf7;0xd2;0xc3;0x74;0x1f;0xd2;0xe9;0x45;0x68;0xc4;0x25;0x41;0x54;0x50;0xc1;0x33;0x9e;0xb9;0xf9;0xe8;0x5c;0x4e;0x62;
   0x6c;0x18;0xcd;0xc5;0xaa;0xe4;0xc5;0x11;0x19;0x4a;0xbb;0x14;0xd4;0xdb;0xc4;0xdd;0x8e;0x4f;0x42;0x98;0x3c;0xbc;0xb2;0x19;
   0x69;0x71;0xca;0x36;0xd7;0x9f;0xa8;0x48;0x90;0xbd;0x19;0xf0;0x0e;0x32;0x65;0x0f;0xc6;0xe0;0xfd;0xca;0xb1;0xd1;0x86;0xd4;
   0x81;0x51;0x3b;0x16;0xe3;0xe6;0x3f;0x4f;0x9a;0x93;0xf2;0xfa;0x0d;0xaf;0xa8;0x59;0x2a;0x07;0x33;0xec;0xbd;0xc7;0xab;0x4c];
  [0x2e;0x0a;0x9c;0x08;0x24;0x96;0x9e;0x23;0x38;0x47;0xfe;0x3a;0xc0;0xc4;0x48;0xc7;0x2a;0xa1;0x4f;0x76;0x2a;0xed;0xdb;0x17;
   0x82;0x85;0x1c;0x32;0xf0;0x93;0x9b;0x63;0x89;0xd2;0x78;0x3f;0x8f;0x78;0x8f;0xc0;0x9f;0x4d;0x40;0xa1;0x2c;0xa7;0x30;0xfe;
   0x9d;0xcc;0x65;0xcf;0xfc;0x8b;0x77;0xf2;0x21;0x20;0xcb;0x5a;0x16;0x98;0xe4;0x7e;0xc3;0xa1;0x11;0x91;0xe3;0x08;0xd5;0x7b;
   0x89;0x74;0x90;0x80;0xd4;0x90;0x2b;0x2b;0x19;0xfd;0x72;0xae;0xc2;0xae;0xd2;0xe7;0xa6;0x02;0xb6;0x85;0x3c;0x49;0xdf;0x0e];
  [0x68;0x5a;0x9b;0x59;0x58;0x81;0xcc;0xae;0x0e;0xe2;0xad;0xeb;0x0f;0x4f;0x57;0xea;0x07;0x7f;0xb6;0x22;0x74;0x1d;0xe4;0x4f;
   0xb4;0x4f;0x9d;0x01;0xe3;0x92;0x3b;0x40;0x13;0x41;0x76;0x84;0xd2;0xc4;0x67;0x67;0x35;0xf8;0xf5;0xf7;0x3f;0x40;0x90;0xa0;
   0xde;0xbe;0xe6;0xca;0xfa;0xcf;0x8f;0x1c;0x69;0xa3;0xdf;0xd1;0x54;0x0c;0xc0;0x04;0xf8;0x5c;0x46;0x8b;0x81;0x2f;0xc2;0x4d;
   0xf8;0xef;0x80;0x14;0x5a;0xf3;0xa0;0x71;0x57;0xd6;0xc7;0x04;0xad;0xbf;0xe8;0xae;0xf4;0x76;0x61;0xb2;0x2a;0xb1;0x5b;0x35];
  [0xf4;0xbb;0x93;0x74;0xcc;0x64;0x1e;0xa7;0xc3;0xb0;0xa3;0xec;0xd9;0x84;0xbd;0xe5;0x85;0xe7;0x05;0xfa;0x0c;0xc5;0x6b;0x0a;
   0x12;0xc3;0x2e;0x18;0x32;0x81;0x9b;0x0f;0x18;0x73;0x8c;0x5a;0xc7;0xda;0x01;0xa3;0x11;0xaa;0xce;0xb3;0x9d;0x03;0x90;0xed;
   0x2d;0x3f;0xae;0x3b;0xbf;0x7c;0x07;0x6f;0x8e;0xad;0x52;0xe0;0xf8;0xea;0x18;0x75;0x32;0x6c;0x7f;0x1b;0xc4;0x59;0x88;0xa4;
   0x98;0x32;0x38;0xf4;0xbc;0x60;0x2d;0x0f;0xd9;0xd1;0xb1;0xc9;0x29;0xa9;0x15;0x18;0xc4;0x55;0x17;0xbb;0x1b;0x87;0xc3;0x47];
  [0x48;0x4f;0xec;0x71;0x97;0x53;0x44;0x51;0x6e;0x5d;0x8c;0xc9;0x7d;0xb1;0x05;0xf8;0x6b;0xc6;0xc3;0x47;0x1a;0xc1;0x62;0xf7;
   0xdc;0x99;0x46;0x76;0x85;0x9b;0xb8;0x00;0xb0;0x66;0x50;0xc8;0x50;0x5d;0xe6;0xfb;0xb0;0x99;0xa2;0xb3;0xb0;0xc4;0xec;0x62;
   0xe0;0xe8;0x1a;0x44;0xea;0x54;0x37;0xe5;0x5f;0x8d;0xd4;0xe8;0x2c;0xa0;0xfe;0x08;0xd0;0xea;0xde;0x68;0x76;0xdd;0x4d;0x82;
   0x23;0x5d;0x68;0x4b;0x20;0x45;0x64;0xc8;0x65;0xd6;0x89;0x5d;0xcd;0xcf;0x14;0xb5;0x37;0xd5;0x75;0x4f;0xa7;0x29;0x38;0x47];
  [0x18;0xc4;0x79;0x46;0x75;0xda;0xd2;0x82;0xf0;0x8d;0x61;0xb2;0xd8;0xd7;0x3b;0xe6;0x0a;0xeb;0x47;0xac;0x24;0xef;0x5e;0x35;
   0xb4;0xc6;0x33;0x48;0x4c;0x68;0x78;0x20;0xc9;0x02;0x39;0xad;0x3a;0x53;0xd9;0x23;0x8f;0x58;0x03;0xef;0xce;0xdd;0xc2;0x64;
   0xb4;0x2f;0xe1;0xcf;0x90;0x73;0x25;0x15;0x90;0xd3;0xe4;0x44;0x4d;0x8b;0x66;0x6c;0x0c;0x82;0x78;0x7a;0x21;0xcf;0x48;0x3b;
   0x97;0x3e;0x27;0x81;0xb2;0x0a;0x6a;0xf7;0x7b;0xed;0x8e;0x8c;0xa7;0x65;0x6c;0xa9;0x3f;0x43;0x8a;0x4f;0x05;0xa6;0x11;0x74];
  [0x6d;0xc8;0x9d;0xb9;0x32;0x9d;0x65;0x4d;0x15;0xf1;0x3a;0x60;0x75;0xdc;0x4c;0x04;0x88;0xe4;0xc2;0xdc;0x2c;0x71;0x4c;0xb3;
   0xff;0x34;0x81;0xfb;0x74;0x65;0x13;0x7c;0xb4;0x75;0xb1;0x18;0x3d;0xe5;0x9a;0x57;0x02;0xa1;0x92;0xf3;0x59;0x31;0x71;0x68;
   0xf5;0x35;0xef;0x1e;0xba;0xec;0x55;0x84;0x8f;0x39;0x8c;0x45;0x72;0xa8;0xc9;0x1e;0x9b;0x50;0xa2;0x00;0xd4;0xa4;0xe6;0xb8;
   0xb4;0x82;0xc8;0x0b;0x02;0xd7;0x81;0x9b;0x61;0x75;0x95;0xf1;0x9b;0xcc;0xe7;0x57;0x60;0x64;0xcd;0xc7;0xa5;0x88;0xdd;0x3a];
  [0xf2;0xdc;0x35;0xb6;0x70;0x57;0x89;0xab;0xbc;0x1f;0x6c;0xf6;0x6c;0xef;0xdf;0x02;0x87;0xd1;0xb6;0xbe;0x68;0x02;0x53;0x85;
   0x74;0x9e;0x87;0xcc;0xfc;0x29;0x99;0x24;0x46;0x30;0x39;0x59;0xd4;0x98;0xc2;0x85;0xec;0x59;0xf6;0x5f;0x98;0x35;0x7e;0x8f;
   0x3a;0x6e;0xf6;0xf2;0x2a;0xa2;0x2c;0x1d;0x20;0xa7;0x06;0xa4;0x31;0x11;0xba;0x61;0x29;0x90;0x95;0x16;0xf1;0xa0;0xd0;0xa3;
   0x89;0xbd;0x7e;0xba;0x6c;0x6b;0x3b;0x02;0x07;0x33;0x78;0x26;0x3e;0x5a;0xf1;0x7b;0xe7;0xec;0xd8;0xbb;0x0c;0x31;0x20;0x56];
  [0x43;0xd6;0x34;0x49;0x43;0x93;0x89;0x52;0xf5;0x22;0x12;0xa5;0x06;0xf8;0xdb;0xb9;0x22;0x1c;0xf4;0xc3;0x8f;0x87;0x6d;0x8f;
   0x30;0x97;0x9d;0x4d;0x2a;0x6a;0x67;0x37;0xd6;0x85;0xe2;0x77;0xf4;0xb5;0x46;0x66;0x93;0x61;0x8f;0x6c;0x67;0xff;0xe8;0x40;
   0xdd;0x94;0xb5;0xab;0x11;0x73;0xec;0xa6;0x4d;0xec;0x8c;0x65;0xf3;0x46;0xc8;0x7e;0xc7;0x2e;0xa2;0x1d;0x3f;0x8f;0x5e;0x9b;
   0x13;0xcd;0x01;0x6c;0x77;0x1d;0x0f;0x13;0xb8;0x9f;0x98;0xa2;0xcf;0x8f;0x4c;0x21;0xd5;0x9d;0x9b;0x39;0x23;0xf7;0xaa;0x6d];
  [0x47;0xbe;0x3d;0xeb;0x62;0x75;0x3a;0x5f;0xb8;0xa0;0xbd;0x8e;0x54;0x38;0xea;0xf7;0x99;0x72;0x74;0x45;0x31;0xe5;0xc3;0x00;
   0x51;0xd5;0x27;0x16;0xe7;0xe9;0x04;0x13;0xa2;0x8e;0xad;0xac;0xbf;0x04;0x3b;0x58;0x84;0xe8;0x8b;0x14;0xe8;0x43;0xb7;0x29;
   0xdb;0xc5;0x10;0x08;0x3b;0x58;0x1e;0x2b;0xaa;0xbb;0xb3;0x8e;0xe5;0x49;0x54;0x2b;0xfe;0x9c;0xdc;0x6a;0xd2;0x14;0x98;0x78;
   0x0b;0xdd;0x48;0x8b;0x3f;0xab;0x1b;0x3c;0x0a;0xc6;0x79;0xf9;0xff;0xe1;0x0f;0xda;0x93;0xd6;0x2d;0x7c;0x2d;0xde;0x68;0x44];
  [0x9e;0x46;0x19;0x94;0x5e;0x35;0xbb;0x51;0x54;0xc7;0xdd;0x23;0x4c;0xdc;0xe6;0x33;0x62;0x99;0x7f;0x44;0xd6;0xb6;0xa5;0x93;
   0x63;0xbd;0x44;0xfb;0x6f;0x7c;0xce;0x6c;0xce;0x07;0x63;0xf8;0xc6;0xd8;0x9a;0x4b;0x28;0x0c;0x5d;0x43;0x31;0x35;0x11;0x21;
   0x2c;0x77;0x7a;0x65;0xc5;0x66;0xa8;0xd4;0x52;0x73;0x24;0x63;0x7e;0x42;0xa6;0x5d;0xca;0x22;0xac;0xde;0x88;0xc6;0x94;0x1a;
   0xf8;0x1f;0xae;0xbb;0xf7;0x6e;0x06;0xb9;0x0f;0x58;0x59;0x8d;0x38;0x8c;0xad;0x88;0xa8;0x2c;0x9f;0xe7;0xbf;0x9a;0xf2;0x58];
  [0x68;0x3e;0xe7;0x8d;0xab;0xcf;0x0e;0xe9;0xa5;0x76;0x7e;0x37;0x9f;0x6f;0x03;0x54;0x82;0x59;0x01;0xbe;0x0b;0x5b;0x49;0xf0;
   0x36;0x1e;0xf4;0xa7;0xc4;0x29;0x76;0x57;0xf6;0xcd;0x0e;0x71;0xbf;0x64;0x5a;0x4b;0x3c;0x29;0x2c;0x46;0x38;0xe5;0x4c;0xb1;
   0xb9;0x3a;0x0b;0xd5;0x56;0xd0;0x43;0x36;0x70;0x48;0x5b;0x18;0x24;0x37;0xf9;0x6a;0x88;0xa8;0xc6;0x09;0x45;0x02;0x20;0x32;
   0x73;0x89;0x55;0x4b;0x13;0x36;0xe0;0xd2;0x9f;0x28;0x33;0x3c;0x23;0x36;0xe2;0x83;0x8f;0xc1;0xae;0x0c;0xbb;0x25;0x1f;0x70];
  [0xed;0x6c;0x61;0xe4;0xf8;0xb0;0xa8;0xc3;0x7d;0xa8;0x25;0x9e;0x0e;0x66;0x00;0xf7;0x9c;0xa5;0xbc;0xf4;0x1f;0x06;0xe3;0x61;
   0xe9;0x0b;0xc4;0xbd;0xbf;0x92;0x0c;0x2e;0x13;0xc1;0xbe;0x7c;0xd9;0xf6;0x18;0x9d;0xe4;0xdb;0xbf;0x74;0xe6;0x06;0x4a;0x84;
   0xd6;0x60;0x4e;0xac;0x22;0xb5;0xf5;0x20;0x51;0x5e;0x95;0x50;0xc0;0x5b;0x0a;0x72;0x35;0x5a;0x80;0x9b;0x43;0x09;0x3f;0x0c;
   0xfc;0xab;0x42;0x62;0x37;0x8b;0x4e;0xe8;0x46;0x93;0x22;0x5c;0xf3;0x17;0x14;0x69;0xec;0xf0;0x4e;0x14;0xbb;0x9c;0x9b;0x0e];
  [0xad;0x20;0x57;0xfb;0x8f;0xd4;0xba;0xfb;0x0e;0x0d;0xf9;0xdb;0x6b;0x91;0x81;0xee;0xbf;0x43;0x55;0x63;0x52;0x31;0x81;0xd4;
   0xd8;0x7b;0x33;0x3f;0xeb;0x04;0x11;0x22;0xee;0xbe;0xb1;0x5d;0xd5;0x9b;0xee;0x8d;0xb9;0x3f;0x72;0x0a;0x37;0xab;0xc3;0xc9;
   0x91;0xd7;0x68;0x1c;0xbf;0xf1;0xa8;0x44;0xde;0x3c;0xfd;0x1c;0x19;0x44;0x6d;0x36;0x14;0x8c;0xbc;0xf2;0x43;0x17;0x3c;0x9e;
   0x3b;0x6c;0x85;0xb5;0xfc;0x26;0xda;0x2e;0x97;0xfb;0xa7;0x68;0x0e;0x2f;0xb8;0xcc;0x44;0x32;0x59;0xbc;0xe6;0xa4;0x67;0x41];
  [0x00;0x27;0xf6;0x76;0x28;0x9d;0x3b;0x64;0xeb;0x68;0x76;0x0e;0x40;0x9d;0x1d;0x5d;0x84;0x06;0xfc;0x21;0x03;0x43;0x4b;0x1b;
   0x6a;0x24;0x55;0x22;0x7e;0xbb;0x38;0x79;0xee;0x8f;0xce;0xf8;0x65;0x26;0xbe;0xc2;0x2c;0xd6;0x80;0xe8;0x14;0xff;0x67;0xe9;
   0xee;0x4e;0x36;0x2f;0x7e;0x6e;0x2e;0xf1;0xf6;0xd2;0x7e;0xcb;0x70;0x33;0xb3;0x34;0xcc;0xd6;0x81;0x86;0xee;0x91;0xc5;0xcd;
   0x53;0xa7;0x85;0xed;0x9c;0x10;0x02;0xce;0x83;0x88;0x80;0x58;0xc1;0x85;0x74;0xed;0xe4;0x65;0xfe;0x2d;0x6e;0xfc;0x76;0x11];
  [0x9b;0x61;0x9c;0x5b;0xd0;0x6c;0xaf;0xb4;0x80;0x84;0xa5;0xb2;0xf4;0xc9;0xdf;0x2d;0xc4;0x4d;0xe9;0xeb;0x02;0xa5;0x4f;0x3d;
   0x34;0x5f;0x7d;0x67;0x4c;0x3a;0xfc;0x08;0xb8;0x0e;0x77;0x49;0x89;0xe2;0x90;0xdb;0xa3;0x40;0xf4;0xac;0x2a;0xcc;0xfb;0x98;
   0x9b;0x87;0xd7;0xde;0xfe;0x4f;0x35;0x21;0xb6;0x06;0x69;0xf2;0x54;0x3e;0x6a;0x1f;0xea;0x34;0x07;0xd3;0x99;0xc1;0xa4;0x60;
   0xd6;0x5c;0x16;0x31;0xb6;0x85;0xc0;0x40;0x95;0x82;0x59;0xf7;0x23;0x3e;0x33;0xe2;0xd1;0x00;0xb9;0x16;0x01;0xad;0x2f;0x4f];
  [0x54;0x4e;0xae;0x94;0x41;0xb2;0xbe;0x44;0x6c;0xef;0x57;0x18;0x51;0x1c;0x54;0x5f;0x98;0x04;0x8d;0x36;0x2d;0x6b;0x1e;0xa6;
   0xab;0xf7;0x2e;0x97;0xa4;0x84;0x54;0x44;0x38;0xb6;0x3b;0xb7;0x1d;0xd9;0x2c;0x96;0x08;0x9c;0x12;0xfc;0xaa;0x77;0x05;0xe6;
   0x89;0x16;0xb6;0xf3;0x39;0x9b;0x61;0x6f;0x81;0xee;0x44;0x29;0x5f;0x99;0x51;0x34;0x7c;0x7d;0xea;0x9f;0xd0;0xfc;0x52;0x91;
   0xf6;0x5c;0x93;0xb0;0x94;0x6c;0x81;0x4a;0x40;0x5c;0x28;0x47;0xaa;0x9a;0x8e;0x25;0xb7;0x93;0x28;0x04;0xa6;0x9c;0xb8;0x10];
  [0x9c;0x28;0x18;0x97;0x49;0x47;0x59;0x3d;0x26;0x3f;0x53;0x24;0xc5;0xf8;0xeb;0x12;0x15;0xef;0xc3;0x14;0xcb;0xbf;0x62;0x02;
   0x8e;0x51;0xb7;0x77;0xd5;0x78;0xb8;0x20;0x6e;0xf0;0x45;0x5a;0xbe;0x41;0x39;0x75;0x65;0x5f;0x9c;0x6d;0xed;0xae;0x7c;0xd0;
   0xb6;0x51;0xff;0x72;0x9c;0x6b;0x77;0x11;0xa9;0x4d;0x0d;0xef;0xd9;0xd1;0xd2;0x17;0x6a;0x3e;0x3f;0x07;0x18;0xaf;0xf2;0x27;
   0x69;0x10;0x52;0xd7;0x19;0xe5;0x3f;0xfd;0x22;0x00;0xa6;0x3c;0x2c;0xb7;0xe3;0x22;0xa7;0xc6;0x65;0xcc;0x63;0x4f;0x21;0x72];
  [0x93;0xa6;0x07;0x53;0x40;0x7f;0xe3;0xb4;0x95;0x67;0x33;0x2f;0xd7;0x14;0xa7;0xab;0x99;0x10;0x76;0x73;0xa7;0xd0;0xfb;0xd6;
   0xc9;0xcb;0x71;0x81;0xc5;0x48;0xdf;0x5f;0xc9;0x29;0x3b;0xf4;0xb9;0xb7;0x9d;0x1d;0x75;0x8f;0x51;0x4f;0x4a;0x82;0x05;0xd6;
   0xc4;0x9d;0x2f;0x31;0xbd;0x72;0xc0;0xf2;0xb0;0x45;0x15;0x5a;0x85;0xac;0x24;0x1f;0xaa;0x05;0x95;0x8e;0x32;0x08;0xd6;0x24;
   0xee;0x20;0x14;0x0c;0xd1;0xc1;0x48;0x47;0xa2;0x25;0xfb;0x06;0x5c;0xe4;0xff;0xc7;0xe6;0x95;0xe3;0x2a;0x9e;0x73;0xba;0x00];
  [0xd6;0x90;0x87;0x5c;0xde;0x98;0x2e;0x59;0xdf;0xa2;0xc2;0x45;0xd3;0xb7;0xbf;0xe5;0x22;0x99;0xb4;0xf9;0x60;0x3b;0x5a;0x11;
   0xf3;0x78;0xad;0x67;0x3e;0x3a;0x28;0x03;0x26;0xbb;0x88;0xea;0xf5;0x26;0x44;0xae;0xfb;0x3b;0x97;0x84;0xd9;0x79;0x06;0x36;
   0x50;0x4e;0x69;0x26;0x0c;0x03;0x9f;0x5c;0x26;0xd2;0x18;0xd5;0xe7;0x7d;0x29;0x72;0x39;0xb9;0x0c;0xbe;0xc7;0x1d;0x24;0x48;
   0x80;0x30;0x63;0x8b;0x4d;0x9b;0xf1;0x32;0x08;0x93;0x28;0x02;0x0d;0xc9;0xdf;0xd3;0x45;0x19;0x27;0x46;0x68;0x29;0xe1;0x05];
  [0x5a;0x49;0x9c;0x2d;0xb3;0xee;0x82;0xba;0x7c;0xb9;0x2b;0xf1;0xfc;0xc8;0xef;0xce;0xe0;0xd1;0xb5;0x93;0xae;0xab;0x2d;0xb0;
   0x9b;0x8d;0x69;0x13;0x9c;0x0c;0xc0;0x39;0x50;0x45;0x2c;0x24;0xc8;0xbb;0xbf;0xad;0xd9;0x81;0x30;0xd0;0xec;0x0c;0xc8;0xbc;
   0x92;0xdf;0xc8;0xf5;0xa6;0x66;0x35;0x84;0x4c;0xce;0x58;0x82;0xd3;0x25;0xcf;0x78;0x68;0x9d;0x48;0x31;0x8e;0x6b;0xae;0x15;
   0x87;0xf0;0x2b;0x9c;0xab;0x1c;0x85;0xaa;0x05;0xfa;0x4e;0xf0;0x97;0x5a;0xa7;0xc9;0x32;0xf8;0x3f;0x6b;0x07;0x52;0x6b;0x00];
  [0x1c;0x78;0x95;0x9d;0xe1;0xcf;0xe0;0x29;0xe2;0x10;0x63;0x96;0x18;0xdf;0x81;0xb6;0x39;0x6b;0x51;0x70;0xd3;0x39;0xdf;0x57;
   0x22;0x61;0xc7;0x3b;0x44;0xe3;0x57;0x4d;0x2d;0x08;0xce;0xb9;0x16;0x7e;0xcb;0xf5;0x29;0xbc;0x7a;0x41;0x4c;0xf1;0x07;0x34;
   0xab;0xa7;0xf4;0x2b;0xce;0x6b;0xb3;0xd4;0xce;0x75;0x9f;0x1a;0x56;0xe9;0xe2;0x7d;0xcb;0x5e;0xa5;0xb6;0xf4;0xd4;0x70;0xde;
   0x99;0xdb;0x85;0x5d;0x7f;0x52;0x01;0x48;0x81;0x9a;0xee;0xd3;0x40;0xc4;0xc9;0xdb;0xed;0x29;0x60;0x1a;0xaf;0x90;0x2a;0x6b];
  [0x97;0x1e;0xe6;0x9a;0xfc;0xf4;0x23;0x69;0xd1;0x5f;0x3f;0xe0;0x1d;0x28;0x35;0x57;0x2d;0xd1;0xed;0xe6;0x43;0xae;0x64;0xa7;
   0x4a;0x3e;0x2d;0xd1;0xe9;0xf4;0xd8;0x5f;0x0a;0xd8;0xb2;0x5b;0x24;0xf3;0xeb;0x77;0x9b;0x07;0xb9;0x2f;0x47;0x1b;0x30;0xd8;
   0x33;0x73;0xee;0x4c;0xf2;0xe6;0x47;0xc6;0x09;0x21;0x6c;0x27;0xc8;0x12;0x58;0x46;0xd9;0x62;0x10;0x2a;0xb2;0xbe;0x43;0x4d;
   0x16;0xdc;0x31;0x38;0x75;0xfb;0x65;0x70;0xd7;0x68;0x29;0xde;0x7b;0x4a;0x0d;0x18;0x90;0x67;0xb1;0x1c;0x2b;0x2c;0xb3;0x05];
  [0xfd;0xa8;0x4d;0xd2;0xcc;0x5e;0xc0;0xc8;0x83;0xef;0xdf;0x05;0xac;0x1a;0xcf;0xa1;0x61;0xcd;0xf9;0x7d;0xf2;0xef;0xbe;0xdb;
   0x99;0x1e;0x47;0x7b;0xa3;0x56;0x55;0x3b;0x95;0x81;0xd5;0x7a;0x2c;0xa4;0xfc;0xf7;0xcc;0xf3;0x33;0x43;0x6e;0x28;0x14;0x32;
   0x9d;0x97;0x0b;0x34;0x0d;0x9d;0xc2;0xb6;0xe1;0x07;0x73;0x56;0x48;0x1a;0x77;0x31;0x82;0xd4;0x4d;0xe1;0x24;0xc5;0xb0;0x32;
   0xb6;0xa4;0x2b;0x1a;0x54;0x51;0xb3;0xed;0xf3;0x5a;0x2b;0x28;0x48;0x60;0xd1;0xa3;0xeb;0x36;0x73;0x7a;0xd2;0x79;0xc0;0x4f];
  [0x7f;0x2f;0xbf;0x89;0xb0;0x38;0xc9;0x51;0xa7;0xe9;0xdf;0x02;0x65;0xbd;0x97;0x24;0x53;0xe4;0x80;0x78;0x9c;0xc0;0xff;0xff;
   0x92;0x8e;0xf9;0xca;0xce;0x67;0x45;0x12;0x0d;0xc5;0x86;0x0c;0x44;0x8b;0x34;0xdc;0x51;0xe6;0x94;0xcc;0xc9;0xcb;0x37;0x13;
   0xb9;0x3c;0x3e;0x64;0x4d;0xf7;0x22;0x64;0x08;0xcd;0xe3;0xba;0xc2;0x70;0x11;0x24;0xb4;0x73;0xc4;0x0a;0x86;0xab;0xf9;0x3f;
   0x35;0xe4;0x13;0x01;0xee;0x1d;0x91;0xf0;0xaf;0xc4;0xc6;0xeb;0x60;0x50;0xe7;0x4a;0x0d;0x00;0x87;0x6c;0x96;0x12;0x86;0x3f];
  [0xde;0x0d;0x2a;0x78;0xc9;0x0c;0x9a;0x55;0x85;0x83;0x71;0xea;0xb2;0xcd;0x1d;0x55;0x8c;0x23;0xef;0x31;0x5b;0x86;0x62;0x7f;
   0x3d;0x61;0x73;0x79;0x76;0xa7;0x4a;0x50;0x13;0x8d;0x04;0x36;0xfa;0xfc;0x18;0x9c;0xdd;0x9d;0x89;0x73;0xb3;0x9d;0x15;0x29;
   0xaa;0xd0;0x92;0x9f;0x0b;0x35;0x9f;0xdc;0xd4;0x19;0x8a;0x87;0xee;0x7e;0xf5;0x26;0xb1;0xef;0x87;0x56;0xd5;0x2c;0xab;0x0c;
   0x7b;0xf1;0x7a;0x24;0x62;0xd1;0x80;0x51;0x67;0x24;0x5a;0x4f;0x34;0x5a;0xc1;0x85;0x69;0x30;0xba;0x9d;0x3d;0x94;0x41;0x40];
  [0x96;0xcc;0xeb;0x43;0xba;0xee;0xc0;0xc3;0xaf;0x9c;0xea;0x26;0x9c;0x9c;0x74;0x8d;0xc6;0xcc;0x77;0x1c;0xee;0x95;0xfa;0xd9;
   0x0f;0x34;0x84;0x76;0xd9;0xa1;0x20;0x14;0xdd;0xaa;0x6c;0xa2;0x43;0x77;0x21;0x4b;0xce;0xb7;0x8a;0x64;0x24;0xb4;0xa6;0x47;
   0xe3;0xc9;0xfb;0x03;0x7a;0x4f;0x1d;0xcb;0x19;0xd0;0x00;0x98;0x42;0x31;0xd9;0x12;0x4f;0x59;0x37;0xd3;0x99;0x77;0xc6;0x00;
   0x7b;0xa4;0x3a;0xb2;0x40;0x51;0x3c;0x5e;0x95;0xf3;0x5f;0xe3;0x54;0x28;0x18;0x44;0x12;0xa0;0x59;0x43;0x31;0x92;0x4f;0x1b];
  [0x51;0x09;0x15;0x89;0x9d;0x10;0x5c;0x3e;0x6a;0x69;0xe9;0x2d;0x91;0xfa;0xce;0x39;0x20;0x30;0x5f;0x97;0x3f;0xe4;0xea;0x20;
   0xae;0x2d;0x13;0x7f;0x2a;0x57;0x9b;0x23;0xb1;0x66;0x98;0xa4;0x30;0x30;0xcf;0x33;0x59;0x48;0x5f;0x21;0xd2;0x73;0x1f;0x25;
   0xf6;0xf4;0xde;0x51;0x40;0xaa;0x82;0xab;0xf6;0x23;0x9a;0x6f;0xd5;0x91;0xf1;0x5f;0x68;0x90;0x2d;0xac;0x33;0xd4;0x9e;0x81;
   0x23;0x85;0xc9;0x5f;0x79;0xab;0x83;0x28;0x3d;0xeb;0x93;0x55;0x80;0x72;0x45;0xef;0xcb;0x36;0x8f;0x75;0x6a;0x52;0x0c;0x02];
  [0xbc;0xdb;0xd8;0x9e;0xf8;0x34;0x98;0x77;0x6c;0xa4;0x7c;0xdc;0xf9;0xaa;0xf2;0xc8;0x74;0xb0;0xe1;0xa3;0xdc;0x4c;0x52;0xa9;
   0x77;0x38;0x31;0x15;0x46;0xcc;0xaa;0x02;0x89;0xcc;0x42;0xf0;0x59;0xef;0x31;0xe9;0xb6;0x4b;0x12;0x8e;0x9d;0x9c;0x58;0x2c;
   0x97;0x59;0xc7;0xae;0x8a;0xe1;0xc8;0xad;0x0c;0xc5;0x02;0x56;0x0a;0xfe;0x2c;0x45;0xdf;0x77;0x78;0x64;0xa0;0xf7;0xa0;0x86;
   0x9f;0x7c;0x60;0x0e;0x27;0x64;0xc4;0xbb;0xc9;0x11;0xfb;0xf1;0x25;0xea;0x17;0xab;0x7b;0x87;0x4b;0x30;0x7b;0x7d;0xfb;0x4c];
  [0xfe;0x75;0x9b;0xb8;0x6c;0x3d;0xb4;0x72;0x80;0xdc;0x6a;0x9c;0xd9;0x94;0xc6;0x54;0x9f;0x4c;0xe3;0x3e;0x37;0xaa;0xc3;0xb8;
   0x64;0x53;0x07;0x39;0x2b;0x62;0xb4;0x14;0x12;0xef;0x89;0x97;0xc2;0x99;0x86;0xe2;0x0d;0x19;0x57;0xdf;0x71;0xcd;0x6e;0x2b;
   0xd0;0x70;0xc9;0xec;0x57;0xc8;0x43;0xc3;0xc5;0x3a;0x4d;0x43;0xbc;0x4c;0x1d;0x5b;0x26;0x9f;0x0a;0xcc;0x15;0x26;0xfb;0xb6;
   0xe5;0xcc;0x8d;0xb8;0x2b;0x0e;0x4f;0x3a;0x05;0xa7;0x69;0x33;0x8b;0x49;0x01;0x13;0xd1;0x2d;0x59;0x58;0x12;0xf7;0x98;0x2f];
  [0x56;0x9e;0x0f;0xb5;0x4c;0xa7;0x94;0x0c;0x20;0x13;0x8e;0x8e;0xa9;0xf4;0x1f;0x5b;0x67;0x0f;0x30;0x82;0x21;0xcc;0x2a;0x9a;
   0xf9;0xaa;0x06;0xd8;0x49;0xe2;0x6a;0x3a;0x01;0xa7;0x54;0x4f;0x44;0xae;0x12;0x2e;0xde;0xd7;0xcb;0xa9;0xf0;0x3e;0xfe;0xfc;
   0xe0;0x5d;0x83;0x75;0x0d;0x89;0xbf;0xce;0x54;0x45;0x61;0xe7;0xe9;0x62;0x80;0x1d;0x5a;0x7c;0x90;0xa9;0x85;0xda;0x7a;0x65;
   0x62;0x0f;0xb9;0x91;0xb5;0xa8;0x0e;0x1a;0xe9;0xb4;0x34;0xdf;0xfb;0x1d;0x0e;0x8d;0xf3;0x5f;0xf2;0xae;0xe8;0x8c;0x8b;0x29];
  [0xb2;0x0c;0xf7;0xef;0x53;0x79;0x92;0x2a;0x76;0x70;0x15;0x79;0x2a;0xc9;0x89;0x4b;0x6a;0xcf;0xa7;0x30;0x7a;0x45;0x18;0x94;
   0x85;0xe4;0x5c;0x4d;0x40;0xa8;0xb8;0x34;0xde;0x65;0x21;0x0a;0xea;0x72;0x7a;0x83;0xf6;0x79;0xcf;0x0b;0xb4;0x07;0xab;0x3f;
   0x70;0xae;0x38;0x77;0xc7;0x36;0x16;0x52;0xdc;0xd7;0xa7;0x03;0x18;0x27;0xa6;0x6b;0x35;0x33;0x69;0x83;0xb5;0xec;0x6e;0xc2;
   0xfd;0xfe;0xb5;0x63;0xdf;0x13;0xa8;0xd5;0x73;0x25;0xb2;0xa4;0x9a;0xaa;0x93;0xa2;0x6a;0x1c;0x5e;0x46;0xdd;0x2b;0xd6;0x71];
  [0x80;0xdf;0x78;0xd3;0x28;0xcc;0x33;0x65;0xb4;0xa4;0x0f;0x0a;0x79;0x43;0xdb;0xf6;0x5a;0xda;0x01;0xf7;0xf9;0x5f;0x64;0xe3;
   0xa4;0x2b;0x17;0xf3;0x17;0xf3;0xd5;0x74;0xf5;0x5e;0xf7;0xb1;0xda;0xb5;0x2d;0xcd;0xf5;0x65;0xb0;0x16;0xcf;0x95;0x7f;0xd7;
   0x85;0xf0;0x49;0x3f;0xea;0x1f;0x57;0x14;0x3d;0x2b;0x2b;0x26;0x21;0x36;0x33;0x1c;0x81;0xca;0xd9;0x67;0x54;0xe5;0x6f;0xa8;
   0x37;0x8c;0x29;0x2b;0x75;0x7c;0x8b;0x39;0x3b;0x62;0xac;0xe3;0x92;0x08;0x6d;0xda;0x8c;0xd9;0xe9;0x47;0x45;0xcc;0xeb;0x4a];
  [0xc9;0x01;0x6d;0x27;0x1b;0x07;0xf0;0x12;0x70;0x8c;0xc4;0x86;0xc5;0xba;0xb8;0xe7;0xa9;0xfb;0xd6;0x71;0x9b;0x12;0x08;0x53;
   0x92;0xb7;0x3d;0x5a;0xf9;0xfb;0x88;0x5d;0x10;0xb6;0x54;0x73;0x9e;0x8d;0x40;0x0b;0x6e;0x5b;0xa8;0x5b;0x53;0x32;0x6b;0x80;
   0x07;0xa2;0x58;0x4a;0x03;0x3a;0xe6;0xdb;0x2c;0xdf;0xa1;0xc9;0xdd;0xd9;0x3b;0x17;0xdf;0x72;0x58;0xfe;0x1e;0x0f;0x50;0x2b;
   0xc1;0x18;0x39;0xd4;0x2e;0x58;0xd6;0x58;0xe0;0x3a;0x67;0xc9;0x8e;0x27;0xed;0xe6;0x19;0xa3;0x9e;0xb1;0x13;0xcd;0xe1;0x06];
  [0x23;0x6f;0x16;0x6f;0x51;0xad;0xd0;0x40;0xbe;0x6a;0xab;0x1f;0x93;0x32;0x8e;0x11;0x8e;0x08;0x4d;0xa0;0x14;0x5e;0xe3;0x3f;
   0x66;0x62;0xe1;0x26;0x35;0x60;0x80;0x30;0x53;0x03;0x5b;0x9e;0x62;0xaf;0x2b;0x47;0x47;0x04;0x8d;0x27;0x90;0x0b;0xaa;0x3b;
   0x27;0xbf;0x43;0x96;0x46;0x5f;0x78;0x0c;0x13;0x7b;0x83;0x8d;0x1a;0x6a;0x3a;0x7f;0x0b;0x80;0x3d;0x5d;0x39;0x44;0xe6;0xf7;
   0xf6;0xed;0x01;0xc9;0x55;0xd5;0xa8;0x95;0x39;0x63;0x2c;0x59;0x30;0x78;0xcd;0x68;0x7e;0x30;0x51;0x2e;0xed;0xfd;0xd0;0x30];
  [0xb3;0x33;0x12;0xf2;0x1a;0x4d;0x59;0xe0;0x9c;0x4d;0xcc;0xf0;0x8e;0xe7;0xdb;0x1b;0x77;0x9a;0x49;0x8f;0x7f;0x18;0x65;0x69;
   0x68;0x98;0x09;0x2c;0x20;0x14;0x92;0x0a;0x50;0x47;0xb8;0x68;0x1e;0x97;0xb4;0x9c;0xcf;0xbb;0x64;0x66;0x29;0x72;0x95;0xa0;
   0x2b;0x41;0xfa;0x72;0x26;0xe7;0x8d;0x5c;0xd9;0x89;0xc5;0x51;0x43;0x08;0x15;0x46;0x2e;0xa0;0xb9;0xae;0xc0;0x19;0x90;0xbc;
   0xae;0x4c;0x03;0x16;0x0d;0x11;0xc7;0x55;0xec;0x32;0x99;0x65;0x01;0xf5;0x6d;0x0e;0xfe;0x5d;0xca;0x95;0x28;0x0d;0xca;0x3b];
  [0xa4;0x62;0x5d;0x3c;0xbc;0x31;0xf0;0x40;0x60;0x7a;0xf0;0xcf;0x3e;0x8b;0xfc;0x19;0x45;0xb5;0x0f;0x13;0xa2;0x3d;0x18;0x98;
   0xcd;0x13;0x8f;0xae;0xdd;0xde;0x31;0x56;0xbf;0x01;0xcc;0x9e;0xb6;0x8e;0x68;0x9c;0x6f;0x89;0x44;0xa6;0xad;0x83;0xbc;0xf0;
   0xe2;0x9f;0x7a;0x5f;0x5f;0x95;0x2d;0xca;0x41;0x82;0xf2;0x8d;0x03;0xb4;0xa8;0x4e;0x02;0xd2;0xca;0xf1;0x0a;0x46;0xed;0x2a;
   0x83;0xee;0x8c;0xa4;0x05;0x53;0x30;0x46;0x5f;0x1a;0xf1;0x49;0x45;0x77;0x21;0x91;0x63;0xa4;0x2c;0x54;0x30;0x09;0xce;0x24];
  [0x06;0xc1;0x06;0xfd;0xf5;0x90;0xe8;0x1f;0xf2;0x10;0x88;0x5d;0x35;0x68;0xc4;0xb5;0x3e;0xaf;0x8c;0x6e;0xfe;0x08;0x78;0x82;
   0x4b;0xd7;0x06;0x8a;0xc2;0xe3;0xd4;0x41;0x85;0x0b;0xf3;0xfd;0x55;0xa1;0xcf;0x3f;0xa4;0x2e;0x37;0x36;0x8e;0x16;0xf7;0xd2;
   0x44;0xf8;0x92;0x64;0xde;0x64;0xe0;0xb2;0x80;0x42;0x4f;0x32;0xa7;0x28;0x99;0x54;0x2e;0x1a;0xee;0x63;0xa7;0x32;0x6e;0xf2;
   0xea;0xfd;0x5f;0xd2;0xb7;0xe4;0x91;0xae;0x69;0x4d;0x7f;0xd1;0x3b;0xd3;0x3b;0xbc;0x6a;0xff;0xdc;0xc0;0xde;0x66;0x1b;0x49];
  [0xa7;0x32;0xea;0xc7;0x3d;0xb1;0xf5;0x98;0x98;0xdb;0x16;0x7e;0xcc;0xf8;0xd5;0xe3;0x47;0xd9;0xf8;0xcb;0x52;0xbf;0x0a;0xac;
   0xac;0xe4;0x5e;0xc8;0xd0;0x38;0xf3;0x08;0xa1;0x64;0xda;0xd0;0x8e;0x4a;0xf0;0x75;0x4b;0x28;0xe2;0x67;0xaf;0x2c;0x22;0xed;
   0xa4;0x7b;0x7b;0x1f;0x79;0xa3;0x34;0x82;0x67;0x8b;0x01;0xb7;0xb0;0xb8;0xf6;0x4c;0xbd;0x73;0x1a;0x99;0x21;0xa8;0x83;0xc3;
   0x7a;0x0c;0x32;0xdf;0x01;0xbc;0x27;0xab;0x63;0x70;0x77;0x84;0x1b;0x33;0x3d;0xc1;0x99;0x8a;0x07;0xeb;0x82;0x4a;0x0d;0x53];
  [0x25;0x48;0xf9;0xe1;0x30;0x36;0x4c;0x00;0x5a;0x53;0xab;0x8c;0x26;0x78;0x2d;0x7e;0x8b;0xff;0x84;0xcc;0x23;0x23;0x48;0xc7;
   0xb9;0x70;0x17;0x10;0x3f;0x75;0xea;0x65;0x9e;0xbf;0x9a;0x6c;0x45;0x73;0x69;0x6d;0x80;0xa8;0x00;0x49;0xfc;0xb2;0x7f;0x25;
   0x50;0xb8;0xcf;0xc8;0x12;0xf4;0xac;0x2b;0x5b;0xbd;0xbf;0x0c;0xe0;0xe7;0xb3;0x0d;0x63;0x63;0x09;0xe2;0x3e;0xfc;0x66;0x3d;
   0x6b;0xcb;0xb5;0x61;0x7f;0x2c;0xd6;0x81;0x1a;0x3b;0x44;0x13;0x42;0x04;0xbe;0x0f;0xdb;0xa1;0xe1;0x21;0x19;0xec;0xa4;0x02];
  [0xa2;0xb8;0x24;0x3b;0x9a;0x25;0xe6;0x5c;0xb8;0xa0;0xaf;0x45;0xcc;0x7a;0x57;0xb8;0x37;0x70;0xa0;0x8b;0xe8;0xe6;0xcb;0xcc;
   0xbf;0x09;0x78;0x12;0x51;0x3c;0x14;0x3d;0x5f;0x79;0xcf;0xf1;0x62;0x61;0xc8;0xf5;0xf2;0x57;0xee;0x26;0x19;0x86;0x8c;0x11;
   0x78;0x35;0x06;0x1c;0x85;0x24;0x21;0x17;0xcf;0x7f;0x06;0xec;0x5d;0x2b;0xd1;0x36;0x57;0x45;0x15;0x79;0x91;0x27;0x6d;0x12;
   0x0a;0x3a;0x78;0xfc;0x5c;0x8f;0xe4;0xd5;0xac;0x9b;0x17;0xdf;0xe8;0xb6;0xbd;0x36;0x59;0x28;0xa8;0x5b;0x88;0x17;0xf5;0x2e];
  [0xdc;0xae;0x58;0x8c;0x4e;0x97;0x37;0x46;0xa4;0x41;0xf0;0xab;0xfb;0x22;0xef;0xb9;0x8a;0x71;0x80;0xe9;0x56;0xd9;0x85;0xe1;
   0xa6;0xa8;0x43;0xb1;0xfa;0x78;0x1b;0x2f;0x51;0x2f;0x5b;0x30;0xfb;0xbf;0xee;0x96;0xb8;0x96;0x95;0x88;0xad;0x38;0xf9;0xd3;
   0x25;0xdd;0xd5;0x46;0xc7;0x2d;0xf5;0xf0;0x95;0x00;0x3a;0xbb;0x90;0x82;0x96;0x57;0x01;0xe1;0x20;0x0a;0x43;0xb8;0x1a;0xf7;
   0x47;0xec;0xf0;0x24;0x8d;0x65;0x93;0xf3;0xd1;0xee;0xe2;0x6e;0xa8;0x09;0x75;0xcf;0xe1;0xa3;0x2a;0xdc;0x35;0x3e;0xc4;0x7d];
  [0xc3;0xd9;0x7d;0x88;0x65;0x66;0x96;0x85;0x55;0x53;0xb0;0x4b;0x31;0x9b;0x0f;0xc9;0xb1;0x79;0x20;0xef;0xf8;0x8d;0xe0;0xc6;
   0x2f;0xc1;0x8c;0x75;0x16;0x20;0xf7;0x7e;0x18;0x97;0x3e;0x27;0x5c;0x2a;0x78;0x5a;0x94;0xfd;0x4e;0x5e;0x99;0xc6;0x76;0x35;
   0x3e;0x7d;0x23;0x1f;0x05;0xd8;0x2e;0x0f;0x99;0x0a;0xd5;0x82;0x1d;0xb8;0x4f;0x04;0xd9;0xe3;0x07;0xa9;0xc5;0x18;0xdf;0xc1;
   0x59;0x63;0x4c;0xce;0x1d;0x37;0xb3;0x57;0x49;0xbb;0x01;0xb2;0x34;0x45;0x70;0xca;0x2e;0xdd;0x30;0x9c;0x3f;0x82;0x79;0x7f];
  [0xe8;0x13;0xb5;0xa3;0x39;0xd2;0x34;0x83;0xd8;0xa8;0x1f;0xb9;0xd4;0x70;0x36;0xc1;0x33;0xbd;0x90;0xf5;0x36;0x41;0xb5;0x12;
   0xb4;0xd9;0x84;0xd7;0x73;0x03;0x4e;0x0a;0xba;0x87;0xf5;0x68;0xf0;0x1f;0x9c;0x6a;0xde;0xc8;0x50;0x00;0x4e;0x89;0x27;0x08;
   0xe7;0x5b;0xed;0x7d;0x55;0x99;0xbf;0x3c;0xf0;0xd6;0x06;0x1c;0x43;0xb0;0xa9;0x64;0x19;0x29;0x7d;0x5b;0xa1;0xd6;0xb3;0x2e;
   0x35;0x82;0x3a;0xd5;0xa0;0xf6;0xb4;0xb0;0x47;0x5d;0xa4;0x89;0x43;0xce;0x56;0x71;0x6c;0x34;0x18;0xce;0x0a;0x7d;0x1a;0x07];
  [0x0b;0xba;0x87;0xc8;0xaa;0x2d;0x07;0xd3;0xee;0x62;0xa5;0xbf;0x05;0x29;0x26;0x01;0x8b;0x76;0xef;0xc0;0x02;0x30;0x54;0xcf;
   0x9c;0x7e;0xea;0x46;0x71;0xcc;0x3b;0x2c;0x31;0x44;0xe1;0x20;0x52;0x35;0x0c;0xcc;0x41;0x51;0xb1;0x09;0x07;0x95;0x65;0x0d;
   0x36;0x5f;0x9d;0x20;0x1b;0x62;0xf5;0x9a;0xd3;0x55;0x77;0x61;0xf7;0xbc;0x69;0x7c;0x5f;0x29;0xe8;0x04;0xeb;0xd7;0xf0;0x07;
   0x7d;0xf3;0x50;0x2f;0x25;0x18;0xdb;0x10;0xd7;0x98;0x17;0x17;0xa3;0xa9;0x51;0xe9;0x1d;0xa5;0xac;0x22;0x73;0x9a;0x5a;0x6f];
  [0xc5;0xc6;0x41;0x2f;0x0c;0x00;0xa1;0x8b;0x9b;0xfb;0xfe;0x0c;0xc1;0x79;0x9f;0xc4;0x9f;0x1c;0xc5;0x3c;0x70;0x47;0xfa;0x4e;
   0xca;0xaf;0x47;0xe1;0xa2;0x21;0x4e;0x49;0xbe;0x44;0xd9;0xa3;0xeb;0xd4;0x29;0xe7;0x9e;0xaf;0x78;0x80;0x40;0x09;0x9e;0x8d;
   0x03;0x9c;0x86;0x47;0x7a;0x56;0x25;0x45;0x24;0x3b;0x8d;0xee;0x80;0x96;0xab;0x02;0x9a;0x0d;0xe5;0xdd;0x85;0x8a;0xa4;0xef;
   0x49;0xa2;0xb9;0x0f;0x4e;0x22;0x9a;0x21;0xd9;0xf6;0x1e;0xd9;0x1d;0x1f;0x09;0xfa;0x34;0xbb;0x46;0xea;0xcb;0x76;0x5d;0x6b];
  [0x94;0xd9;0x0c;0xec;0x6c;0x55;0x57;0x88;0xba;0x1d;0xd0;0x5c;0x6f;0xdc;0x72;0x64;0x77;0xb4;0x42;0x8f;0x14;0x69;0x01;0xaf;
   0x54;0x73;0x27;0x85;0xf6;0x33;0xe3;0x0a;0x22;0x25;0x78;0x1e;0x17;0x41;0xf9;0xe0;0xd3;0x36;0x69;0x03;0x74;0xae;0xe6;0xf1;
   0x46;0xc7;0xfc;0xd0;0xa2;0x3e;0x8b;0x40;0x3e;0x31;0xdd;0x03;0x9c;0x86;0xfb;0x16;0x62;0x09;0xb6;0x33;0x97;0x19;0x8e;0x28;
   0x33;0xe1;0xab;0xd8;0xb4;0x72;0xfc;0x24;0x3e;0xd0;0x91;0x09;0xed;0xf7;0x11;0x48;0x75;0xd0;0x70;0x8f;0x8b;0xe3;0x81;0x3f];
  [0xfe;0xaf;0xd9;0x7e;0xcc;0x0f;0x91;0x7f;0x4b;0x87;0x65;0x24;0xa1;0xb8;0x5c;0x54;0x04;0x47;0x0c;0x4b;0xd2;0x7e;0x39;0xa8;
   0x93;0x09;0xf5;0x04;0xc1;0x0f;0x51;0x50;0x24;0xc8;0x17;0x5f;0x35;0x7f;0xdb;0x0a;0xa4;0x99;0x42;0xd7;0xc3;0x23;0xb9;0x74;
   0xf7;0xea;0xf8;0xcb;0x8b;0x3e;0x7c;0xd5;0x3d;0xdc;0xde;0x4c;0xd3;0xe2;0xd3;0x0a;0x9d;0x24;0x6e;0x33;0xc5;0x0f;0x0c;0x6f;
   0xd9;0xcf;0x31;0xc3;0x19;0xde;0x5e;0x74;0x1c;0xfe;0xee;0x09;0x00;0xfd;0xd6;0xf2;0xbe;0x1e;0xfa;0xf0;0x8b;0x15;0x7c;0x12];
  [0xa2;0x79;0x98;0x2e;0x42;0x7c;0x19;0xf6;0x47;0x36;0xca;0x52;0xd4;0xdd;0x4a;0xa4;0xcb;0xac;0x4e;0x4b;0xc1;0x3f;0x41;0x9b;
   0x68;0x4f;0xef;0x07;0x7d;0xf8;0x4e;0x35;0x74;0xb9;0x51;0xae;0xc4;0x8f;0xa2;0xde;0x96;0xfe;0x4d;0x74;0xd3;0x73;0x99;0x1d;
   0xa8;0x48;0x38;0x87;0x0b;0x68;0x40;0x62;0x95;0xdf;0x67;0xd1;0x79;0x24;0xd8;0x4e;0x75;0xd9;0xc5;0x60;0x22;0xb5;0xe3;0xfe;
   0xb8;0xb0;0x41;0xeb;0xfc;0x2e;0x35;0x50;0x3c;0x65;0xf6;0xa9;0x30;0xac;0x08;0x88;0x6d;0x23;0x39;0x05;0xd2;0x92;0x2d;0x30];
  [0x3d;0x28;0xa4;0xbc;0xa2;0xc1;0x13;0x78;0xd9;0x3d;0x86;0xa1;0x91;0xf0;0x62;0xed;0x86;0xfa;0x68;0xc2;0xb8;0xbc;0xc7;0xae;
   0x4c;0xae;0x1c;0x6f;0xb7;0xd3;0xe5;0x10;0x77;0xf1;0xe0;0xe4;0xb6;0x6f;0xbc;0x2d;0x93;0x6a;0xbd;0xa4;0x29;0xbf;0xe1;0x04;
   0xe8;0xf6;0x7a;0x78;0xd4;0x66;0x19;0x5e;0x60;0xd0;0x26;0xb4;0x5e;0x5f;0xdc;0x0e;0x67;0x8e;0xda;0x53;0xd6;0xbf;0x53;0x54;
   0x41;0xf6;0xa9;0x24;0xec;0x1e;0xdc;0xe9;0x23;0x8a;0x57;0x03;0x3b;0x26;0x87;0xbf;0x72;0xba;0x1c;0x36;0x51;0x6c;0xb4;0x45];
  [0xa1;0x7f;0x4f;0x31;0xbf;0x2a;0x40;0xa9;0x50;0xf4;0x8c;0x8e;0xdc;0xf1;0x57;0xe2;0x84;0xbe;0xa8;0x23;0x4b;0xd5;0xbb;0x1d;
   0x3b;0x71;0xcb;0x6d;0xa3;0xbf;0x77;0x21;0xe4;0xe3;0x7f;0x8a;0xdd;0x4d;0x9d;0xce;0x30;0x0e;0x62;0x76;0x56;0x64;0x13;0xab;
   0x58;0x99;0x0e;0xb3;0x7b;0x4f;0x59;0x4b;0xdf;0x29;0x12;0x32;0xef;0x0a;0x1c;0x5c;0x8f;0xdb;0x79;0xfa;0xbc;0x1b;0x08;0x37;
   0xb3;0x59;0x5f;0xc2;0x1e;0x81;0x48;0x60;0x87;0x24;0x83;0x9c;0x65;0x76;0x7a;0x08;0xbb;0xb5;0x8a;0x7d;0x38;0x19;0xe6;0x4a];
  [0x2e;0xa3;0x44;0x53;0xaa;0xf6;0xdb;0x8d;0x78;0x40;0x1b;0xb4;0xb4;0xea;0x88;0x7d;0x60;0x0d;0x13;0x4a;0x97;0xeb;0xb0;0x5e;
   0x03;0x3e;0xbf;0x17;0x1b;0xd9;0x00;0x1a;0x83;0xfb;0x5b;0x98;0x44;0x7e;0x11;0x61;0x36;0x31;0x96;0x71;0x2a;0x46;0xe0;0xfc;
   0x4b;0x90;0x25;0xd4;0x48;0x34;0xac;0x83;0x64;0x3d;0xa4;0x5b;0xbe;0x5a;0x68;0x75;0xb2;0xf2;0x61;0xeb;0x33;0x09;0x96;0x6e;
   0x52;0x49;0xff;0xc9;0xa8;0x0f;0x3d;0x54;0x69;0x65;0xf6;0x7a;0x10;0x75;0x72;0xdf;0xaa;0xe6;0xb0;0x23;0xb6;0x29;0x55;0x13];
  [0x18;0xd5;0xd1;0xad;0xd7;0xdb;0xf0;0x18;0x11;0x1f;0xc1;0xcf;0x88;0x78;0x9f;0x97;0x9b;0x75;0x14;0x71;0xf0;0xe1;0x32;0x87;
   0x01;0x3a;0xca;0x65;0x1a;0xb8;0xb5;0x79;0xfe;0x83;0x2e;0xe2;0xbc;0x16;0xc7;0xf5;0xc1;0x85;0x09;0xe8;0x19;0xeb;0x2b;0xb4;
   0xae;0x4a;0x25;0x14;0x37;0xa6;0x9d;0xec;0x13;0xa6;0x90;0x15;0x05;0xea;0x72;0x59;0x11;0x78;0x8f;0xdc;0x20;0xac;0xd4;0x0f;
   0xa8;0x4f;0x4d;0xac;0x94;0xd2;0x9a;0x9a;0x34;0x04;0x36;0xb3;0x64;0x2d;0x1b;0xc0;0xdb;0x3b;0x5f;0x90;0x95;0x9c;0x7e;0x4f];
  [0x2e;0x30;0x81;0x57;0xbc;0x4b;0x67;0x62;0x0f;0xdc;0xad;0x89;0x39;0x0f;0x52;0xd8;0xc6;0xd9;0xfb;0x53;0xae;0x99;0x29;0x8c;
   0x4c;0x8e;0x63;0x2e;0xd9;0x3a;0x99;0x31;0xfe;0x99;0x52;0x35;0x3d;0x44;0xc8;0x71;0xd7;0xea;0xeb;0xdb;0x1c;0x3b;0xcd;0x8b;
   0x66;0x94;0xa4;0xf1;0x9e;0x49;0x92;0x80;0xc8;0xad;0x44;0xa1;0xc4;0xee;0x42;0x19;0x92;0x49;0x23;0xae;0x19;0x53;0xac;0x7d;
   0x92;0x3e;0xea;0x0c;0x91;0x3d;0x1b;0x2c;0x22;0x11;0x3c;0x25;0x94;0xe4;0x3c;0x55;0x75;0xca;0xf9;0x4e;0x31;0x65;0x0a;0x2a];
  [0xc2;0x27;0xf9;0xf7;0x7f;0x93;0xb7;0x2d;0x35;0xa6;0xd0;0x17;0x06;0x1f;0x74;0xdb;0x76;0xaf;0x55;0x11;0xa2;0xf3;0x82;0x59;
   0xed;0x2d;0x7c;0x64;0x18;0xe2;0xf6;0x4c;0x3a;0x79;0x1c;0x3c;0xcd;0x1a;0x36;0xcf;0x3b;0xbc;0x35;0x5a;0xac;0xbc;0x9e;0x2f;
   0xab;0xa6;0xcd;0xa8;0xe9;0x60;0xe8;0x60;0x13;0x1a;0xea;0x6d;0x9b;0xc3;0x5d;0x05;0xb6;0x5b;0x8d;0xc2;0x7c;0x22;0x19;0xb1;
   0xab;0xff;0x4d;0x77;0xbc;0x4e;0xe2;0x07;0x89;0x2c;0xa3;0xe4;0xce;0x78;0x3c;0xa8;0xb6;0x24;0xaa;0x10;0x77;0x30;0x1a;0x12];
  [0x97;0x4a;0x03;0x9f;0x5e;0x5d;0xdb;0xe4;0x2d;0xbc;0x34;0x30;0x09;0xfc;0x53;0xe1;0xb1;0xd3;0x51;0x95;0x91;0x46;0x05;0x46;
   0x2d;0xe5;0x40;0x7a;0x6c;0xc7;0x3f;0x33;0xc9;0x83;0x74;0xc7;0x3e;0x71;0x59;0xd6;0xaf;0x96;0x2b;0xb8;0x77;0xe0;0xbf;0x88;
   0xd3;0xbc;0x97;0x10;0x23;0x28;0x9e;0x28;0x9b;0x3a;0xed;0x6c;0x4a;0xb9;0x7b;0x52;0x2e;0x48;0x5b;0x99;0x2a;0x99;0x3d;0x56;
   0x01;0x38;0x38;0x6e;0x7c;0xd0;0x05;0x34;0xe5;0xd8;0x64;0x2f;0xde;0x35;0x50;0x48;0xf7;0xa9;0xa7;0x20;0x9b;0x06;0x89;0x6b];
  [0x0d;0x22;0x70;0x62;0x41;0xa0;0x2a;0x81;0x4e;0x5b;0x24;0xf9;0xfa;0x89;0x5a;0x99;0x05;0xef;0x72;0x50;0xce;0xc4;0xad;0xff;
   0x73;0xeb;0x73;0xaa;0x03;0x21;0xbc;0x23;0x77;0xdb;0xc7;0xb5;0x8c;0xfa;0x82;0x40;0x55;0xc1;0x34;0xc7;0xf8;0x86;0x86;0x06;
   0x7e;0xa5;0xe7;0xf6;0xd9;0xc8;0xe6;0x29;0xcf;0x9b;0x63;0xa7;0x08;0xd3;0x73;0x04;0x05;0x9e;0x58;0x03;0x26;0x79;0xee;0xca;
   0x92;0xc4;0xdc;0x46;0x12;0x42;0x4b;0x2b;0x4f;0xa9;0x01;0xe6;0x74;0xef;0xa1;0x02;0x1a;0x34;0x04;0xde;0xbf;0x73;0x2f;0x10];
  [0xc6;0x45;0x57;0x7f;0xab;0xb9;0x18;0xeb;0x90;0xc6;0x87;0x57;0xee;0x8a;0x3a;0x02;0xa9;0xaf;0xf7;0x2d;0xda;0x12;0x27;0xb7;
   0x3d;0x01;0x5c;0xea;0x25;0x7d;0x59;0x36;0x9a;0x1c;0x51;0xb5;0xe0;0xda;0xb4;0xa2;0x06;0xff;0xff;0x2b;0x29;0x60;0xc8;0x7a;
   0x34;0x42;0x50;0xf5;0x5d;0x37;0x1f;0x98;0x2d;0xa1;0x4e;0xda;0x25;0xd7;0x6b;0x3f;0xac;0x58;0x60;0x10;0x7b;0x8d;0x4d;0x73;
   0x5f;0x90;0xc6;0x6f;0x9e;0x57;0x40;0xd9;0x2d;0x93;0x02;0x92;0xf9;0xf8;0x66;0x64;0xd0;0xd6;0x60;0xda;0x19;0xcc;0x7e;0x7b];
  [0x0d;0x69;0x5c;0x69;0x3c;0x37;0xc2;0x78;0x6e;0x90;0x42;0x06;0x66;0x2e;0x25;0xdd;0xd2;0x2b;0xe1;0x4a;0x44;0x44;0x1d;0x95;
   0x56;0x39;0x74;0x01;0x76;0xad;0x35;0x42;0x9b;0xfa;0x7c;0xa7;0x51;0x4a;0xae;0x6d;0x50;0x86;0xa3;0xe7;0x54;0x36;0x26;0x82;
   0xdb;0x82;0x2d;0x8f;0xcd;0xff;0xbb;0x09;0xba;0xca;0xf5;0x1b;0x66;0xdc;0xbe;0x03;0xf5;0x75;0x89;0x07;0x0d;0xcb;0x58;0x62;
   0x98;0xf2;0x89;0x91;0x54;0x42;0x29;0x49;0xe4;0x6e;0xe3;0xe2;0x23;0xb4;0xca;0xa0;0xa1;0x66;0xf0;0xcd;0xb0;0xe2;0x7c;0x0e];
  [0xa3;0x85;0x8c;0xc4;0x3a;0x64;0x94;0xc4;0xad;0x39;0x61;0x3c;0xf4;0x1d;0x36;0xfd;0x48;0x4d;0xe9;0x3a;0xdd;0x17;0xdb;0x09;
   0x4a;0x67;0xb4;0x8f;0x5d;0x0a;0x6e;0x66;0xf9;0x70;0x4b;0xd9;0xdf;0xfe;0xa6;0xfe;0x2d;0xba;0xfc;0xc1;0x51;0xc0;0x30;0xf1;
   0x89;0xab;0x2f;0x7f;0x7e;0xd4;0x82;0x48;0xb5;0xee;0xec;0x8a;0x13;0x56;0x52;0x61;0x0d;0xcb;0x70;0x48;0x4e;0xf6;0xbb;0x2a;
   0x6b;0x8b;0x45;0xaa;0xf0;0xbc;0x65;0xcd;0x5d;0x98;0xe8;0x75;0xba;0x4e;0xbe;0x9a;0xe4;0xde;0x14;0xd5;0x10;0xc8;0x0b;0x7f];
  [0x6f;0x13;0xf4;0x26;0xa4;0x6b;0x00;0xb9;0x35;0x30;0xe0;0x57;0x9e;0x36;0x67;0x8d;0x28;0x3c;0x46;0x4f;0xd9;0xdf;0xc8;0xcb;
   0xf5;0xdb;0xee;0xf8;0xbc;0x8d;0x1f;0x0d;0xa0;0x13;0x72;0x73;0xad;0x9d;0xac;0x83;0x98;0x2e;0xf7;0x2e;0xba;0xf8;0xf6;0x9f;
   0x57;0x69;0xec;0x43;0xdd;0x2e;0x1e;0x31;0x75;0xab;0xc5;0xde;0x7d;0x90;0x3a;0x1d;0xdc;0x81;0xd0;0x3e;0x31;0x93;0x16;0xba;
   0x80;0x34;0x1b;0x85;0xad;0x9f;0x32;0x29;0xcb;0x21;0x03;0x03;0x3c;0x01;0x28;0x01;0xe3;0xfd;0x1b;0xa3;0x44;0x1b;0x01;0x00];
  [0x0c;0x6c;0xc6;0x3f;0x6c;0xa0;0xdf;0x3f;0xd2;0x0d;0xd6;0x4d;0x8e;0xe3;0x40;0x5d;0x71;0x4d;0x8e;0x26;0x38;0x8b;0xe3;0x7a;
   0xe1;0x57;0x83;0x6e;0x91;0x8d;0xc4;0x3a;0x5c;0xa7;0x0a;0x6a;0x69;0x1f;0x56;0x16;0x6a;0xbd;0x52;0x58;0x5c;0x72;0xbf;0xc1;
   0xad;0x66;0x79;0x9a;0x7f;0xdd;0xa8;0x11;0x26;0x10;0x85;0xd2;0xa2;0x88;0xd9;0x63;0x2e;0x23;0xbd;0xaf;0x53;0x07;0x12;0x00;
   0x83;0xf6;0xd8;0xfd;0xb8;0xce;0x2b;0xe9;0x91;0x2b;0xe7;0x84;0xb3;0x69;0x16;0xf8;0x66;0xa0;0x68;0x23;0x2b;0xd5;0xfa;0x33];
  [0x16;0x1e;0xe4;0xc5;0xc6;0x49;0x06;0x54;0x35;0x77;0x3f;0x33;0x30;0x64;0xf8;0x0a;0x46;0xe7;0x05;0xf3;0xd2;0xfc;0xac;0xb2;
   0xa7;0xdc;0x56;0xa2;0x29;0xf4;0xc0;0x16;0xe8;0xcf;0x22;0xc4;0xd0;0xc8;0x2c;0x8d;0xcb;0x3a;0xa1;0x05;0x7b;0x4f;0x2b;0x07;
   0x6f;0xa5;0xf6;0xec;0xe6;0xb6;0xfe;0xa3;0xe2;0x71;0x0a;0xb9;0xcc;0x55;0xc3;0x3c;0x31;0x91;0x3e;0x90;0x43;0x94;0xb6;0xe9;
   0xce;0x37;0x56;0x7a;0xcb;0x94;0xa4;0xb8;0x44;0x92;0xba;0xba;0xa4;0xd1;0x7c;0xc8;0x68;0x75;0xae;0x6b;0x42;0xaf;0x1e;0x63];
  [0x9f;0xfe;0x66;0xda;0x10;0x04;0xe9;0xb3;0xa6;0xe5;0x16;0x6c;0x52;0x4b;0xdd;0x85;0x83;0xbf;0xf9;0x1e;0x61;0x97;0x3d;0xbc;
   0xb5;0x19;0xa9;0x1e;0x8b;0x64;0x99;0x55;0xe8;0x0d;0x70;0xa3;0xb9;0x75;0xd9;0x47;0x52;0x05;0xf8;0xe2;0xfb;0xc5;0x80;0x72;
   0xe1;0x5d;0xe4;0x32;0x27;0x8f;0x65;0x53;0xb5;0x80;0x5f;0x66;0x7f;0x2c;0x1f;0x43;0x19;0x7b;0x8f;0x85;0x44;0x63;0x02;0xd6;
   0x4a;0x51;0xea;0xa1;0x2f;0x35;0xab;0x14;0xd7;0xa9;0x90;0x20;0x1a;0x44;0x00;0x89;0x26;0x3b;0x25;0x91;0x5f;0x71;0x04;0x7b];
  [0x43;0xae;0xf6;0xac;0x28;0xbd;0xed;0x83;0xb4;0x7a;0x5c;0x7d;0x8b;0x7c;0x35;0x86;0x44;0x2c;0xeb;0xb7;0x69;0x47;0x40;0xc0;
   0x3f;0x58;0xf6;0xc2;0xf5;0x7b;0xb3;0x59;0xc6;0xba;0xe6;0xc4;0x80;0xc2;0x76;0xb3;0x0b;0x9b;0x1d;0x6d;0xdd;0xd3;0x0e;0x97;
   0x44;0xf9;0x0b;0x45;0x58;0x95;0x9a;0xb0;0x23;0xe2;0xcd;0x57;0xfa;0xac;0xd0;0x48;0x71;0xe6;0xab;0x7d;0xe4;0x26;0x0f;0xb6;
   0x37;0x3a;0x2f;0x62;0x97;0xa1;0xd1;0xf1;0x94;0x03;0x96;0xe9;0x7e;0xce;0x08;0x42;0xdb;0x3b;0x6d;0x33;0x91;0x41;0x23;0x16];
  [0xf6;0x7f;0x26;0xf6;0xde;0x99;0xe4;0xb9;0x43;0x08;0x2c;0x74;0x7b;0xca;0x72;0x77;0xb1;0xf2;0xa4;0xe9;0x3f;0x15;0xa0;0x23;
   0x06;0x50;0xd0;0xd5;0xec;0xdf;0xdf;0x2c;0x40;0x86;0xf3;0x1f;0xd6;0x9c;0x49;0xdd;0xa0;0x25;0x36;0x06;0xc3;0x9b;0xcd;0x29;
   0xc3;0x3d;0xd7;0x3d;0x02;0xd8;0xe2;0x51;0x31;0x92;0x3b;0x20;0x7a;0x70;0x25;0x4a;0x6a;0xed;0xf6;0x53;0x8a;0x66;0xb7;0x2a;
   0xa1;0x70;0xd1;0x1d;0x58;0x42;0x42;0x30;0x61;0x01;0xe2;0x3a;0x4c;0x14;0x00;0x40;0xfc;0x49;0x8e;0x24;0x6d;0x89;0x21;0x57];
  [0xae;0x1b;0x18;0xfd;0x17;0x55;0x6e;0x0b;0xb4;0x63;0xb9;0x2b;0x9f;0x62;0x22;0x90;0x25;0x46;0x06;0x32;0xe9;0xbc;0x09;0x55;
   0xda;0x13;0x3c;0xf6;0x74;0xdd;0x8e;0x57;0x4e;0xda;0xd0;0xa1;0x91;0x50;0x5d;0x28;0x08;0x3e;0xfe;0xb5;0xa7;0x6f;0xaa;0x4b;
   0xb3;0x93;0x93;0xe1;0x7c;0x17;0xe5;0x63;0xfd;0x30;0xb0;0xc4;0xaf;0x35;0xc9;0x03;0x3d;0x0c;0x2b;0x49;0xc6;0x76;0x72;0x99;
   0xfc;0x05;0xe2;0xdf;0xc4;0xc2;0xcc;0x47;0x3c;0x3a;0x62;0xdd;0x84;0x9b;0xd2;0xdc;0xa2;0xc7;0x88;0x02;0x59;0xab;0xc2;0x3e];
  [0xb9;0x7b;0xd8;0xe4;0x7b;0xd2;0xa0;0xa1;0xed;0x1a;0x39;0x61;0xeb;0x4d;0x8b;0xa9;0x83;0x9b;0xcb;0x73;0xd0;0xdd;0xa0;0x99;
   0xce;0xca;0x0f;0x20;0x5a;0xc2;0xd5;0x2d;0xcb;0xd1;0x32;0xae;0x09;0x3a;0x21;0xa7;0xd5;0xc2;0xf5;0x40;0xdf;0x87;0x2b;0x0f;
   0x29;0xab;0x1e;0xe8;0xc6;0xa4;0xae;0x0b;0x5e;0xac;0xdb;0x6a;0x6c;0xf6;0x1b;0x0e;0x7e;0x88;0x2c;0x79;0xe9;0xd5;0xab;0xe2;
   0x5d;0x6d;0x92;0xcb;0x18;0x00;0x02;0x1a;0x1e;0x5f;0xae;0xba;0xcd;0x69;0xba;0xbf;0x5f;0x8f;0xe8;0x5a;0xb3;0x48;0x05;0x73];
  [0xee;0xb8;0xa8;0xcb;0xa3;0x51;0x35;0xc4;0x16;0x5f;0x11;0xb2;0x1d;0x6f;0xa2;0x65;0x50;0x38;0x8c;0xab;0x52;0x4f;0x0f;0x76;
   0xca;0xb8;0x1d;0x41;0x3b;0x44;0x43;0x30;0x34;0xe3;0xd6;0xa1;0x4b;0x09;0x5b;0x80;0x19;0x3f;0x35;0x09;0x77;0xf1;0x3e;0xbf;
   0x2b;0x70;0x22;0x06;0xcb;0x06;0x3f;0x42;0xdd;0x45;0x78;0xd8;0x77;0x22;0x5a;0x58;0x62;0x89;0xd4;0x33;0x82;0x5f;0x8a;0xa1;
   0x7f;0x25;0x78;0xec;0xb5;0xc4;0x98;0x66;0xff;0x41;0x3e;0x37;0xa5;0x6f;0x8e;0xa7;0x1f;0x98;0xef;0x50;0x89;0x27;0x56;0x76];
  [0xc0;0xc8;0x1f;0xd5;0x59;0xcf;0xc3;0x38;0xf2;0xb6;0x06;0x05;0xfd;0xd2;0xed;0x9b;0x8f;0x0e;0x57;0xab;0x9f;0x10;0xbf;0x26;
   0xa6;0x46;0xb8;0xc1;0xa8;0x60;0x41;0x3f;0x9d;0xcf;0x86;0xea;0xa3;0x73;0x70;0xe1;0xdc;0x5f;0x15;0x07;0xb7;0xfb;0x8c;0x3a;
   0x8e;0x8a;0x83;0x31;0xfc;0xe7;0x53;0x48;0x16;0xf6;0x13;0xb6;0x84;0xf4;0xbb;0x28;0x7c;0x6c;0x13;0x6f;0x5c;0x2f;0x61;0xf2;
   0xbe;0x11;0xdd;0xf6;0x07;0xd1;0xea;0xaf;0x33;0x6f;0xde;0x13;0xd2;0x9a;0x7e;0x52;0x5d;0xf7;0x88;0x81;0x35;0xcb;0x79;0x1e];
  [0xf1;0xe3;0xf7;0xee;0xc3;0x36;0x34;0x01;0xf8;0x10;0x9e;0xfe;0x7f;0x6a;0x8b;0x82;0xfc;0xde;0xf9;0xbc;0xe5;0x08;0xf9;0x7f;
   0x31;0x38;0x3b;0x3a;0x1b;0x95;0xd7;0x65;0x81;0x81;0xe0;0xf5;0xd8;0x53;0xe9;0x77;0xd9;0xde;0x9d;0x29;0x44;0x0c;0xa5;0x84;
   0xe5;0x25;0x45;0x86;0x0c;0x2d;0x6c;0xdc;0xf4;0xf2;0xd1;0x39;0x2d;0xb5;0x8a;0x47;0x59;0xd1;0x52;0x92;0xd3;0xa4;0xa6;0x66;
   0x07;0xc8;0x1a;0x87;0xbc;0xe1;0xdd;0xe5;0x6f;0xc9;0xc1;0xa6;0x40;0x6b;0x2c;0xb8;0x14;0x22;0x21;0x1a;0x41;0x7a;0xd8;0x16];
  [0x15;0x62;0x06;0x42;0x5a;0x7e;0xbd;0xb3;0xc1;0x24;0x5a;0x0c;0xcd;0xe3;0x9b;0x87;0xb7;0x94;0xf9;0xd6;0xb1;0x5d;0xc0;0x57;
   0xa6;0x8c;0xf3;0x65;0x81;0x7c;0xf8;0x28;0x83;0x05;0x4e;0xd5;0xe2;0xd5;0xa4;0xfb;0xfa;0x99;0xbd;0x2e;0xd7;0xaf;0x1f;0xe2;
   0x8f;0x77;0xe9;0x6e;0x73;0xc2;0x7a;0x49;0xde;0x6d;0x5a;0x7a;0x57;0x0b;0x99;0x1f;0xd6;0xf7;0xe8;0x1b;0xad;0x4e;0x34;0xa3;
   0x8f;0x79;0xea;0xac;0xeb;0x50;0x1e;0x7d;0x52;0xe0;0x0d;0x52;0x9e;0x56;0xc6;0x77;0x3e;0x6d;0x4d;0x53;0xe1;0x2f;0x88;0x45];
  [0xd6;0x83;0x79;0x75;0x5d;0x34;0x69;0x66;0xa6;0x11;0xaa;0x17;0x11;0xed;0xb6;0x62;0x8f;0x12;0x5e;0x98;0x57;0x18;0xdd;0x7d;
   0xdd;0xf6;0x26;0xf6;0xb8;0xe5;0x8f;0x68;0xe4;0x6f;0x3c;0x94;0x29;0x99;0xac;0xd8;0xa2;0x92;0x83;0xa3;0x61;0xf1;0xf9;0xb5;
   0xf3;0x9a;0xc8;0xbe;0x13;0xdb;0x99;0x26;0x74;0xf0;0x05;0xe4;0x3c;0x84;0xcf;0x7d;0xc0;0x32;0x47;0x4a;0x48;0xd6;0x90;0x6c;
   0x99;0x32;0x56;0xca;0xfd;0x43;0x21;0xd5;0xe1;0xc6;0x5d;0x91;0xc3;0x28;0xbe;0xb3;0x1b;0x19;0x27;0x73;0x7e;0x68;0x39;0x67];
  [0xa6;0x75;0x56;0x38;0x14;0x20;0x78;0xef;0xe8;0xa9;0xfd;0xaa;0x30;0x9f;0x64;0xa2;0xcb;0xa8;0xdf;0x5c;0x50;0xeb;0xd1;0x4c;
   0xb3;0xc0;0x4d;0x1d;0xba;0x5a;0x11;0x46;0xc0;0x1a;0x0c;0xc8;0x9d;0xcc;0x6d;0xa6;0x36;0xa4;0x38;0x1b;0xf4;0x5c;0xa0;0x97;
   0xc6;0xd7;0xdb;0x95;0xbe;0xf3;0xeb;0xa7;0xab;0x7d;0x7e;0x8d;0xf6;0xb8;0xa0;0x7d;0x76;0xda;0xb5;0xc3;0x53;0x19;0x0f;0xd4;
   0x9b;0x9e;0x11;0x21;0x73;0x6f;0xac;0x1d;0x60;0x59;0xb2;0xfe;0x21;0x60;0xcc;0x03;0x4b;0x4b;0x67;0x83;0x7e;0x88;0x5f;0x5a];
  [0x11;0x3d;0xa1;0x70;0xcf;0x01;0x63;0x8f;0xc4;0xd0;0x0d;0x35;0x15;0xb8;0xce;0xcf;0x7e;0xa4;0xbc;0xa4;0xd4;0x97;0x02;0xf7;
   0x34;0x14;0x4d;0xe4;0x56;0xb6;0x69;0x36;0xb9;0x43;0xa6;0xa0;0xd3;0x28;0x96;0x9e;0x64;0x20;0xc3;0xe6;0x00;0xcb;0xc3;0xb5;
   0x32;0xec;0x2d;0x7c;0x89;0x02;0x53;0x9b;0x0c;0xc7;0xd1;0xd5;0xe2;0x7a;0xe3;0x43;0x33;0xe1;0xa6;0xed;0x06;0x3f;0x7e;0x38;
   0xc0;0x3a;0xa1;0x99;0x51;0x1d;0x30;0x67;0x11;0x38;0x26;0x36;0xf8;0xd8;0x5a;0xbd;0xbe;0xe9;0xd5;0x4f;0xcd;0xe6;0x21;0x6a];
  [0x5f;0xe6;0x46;0x30;0x0a;0x17;0xc6;0xf1;0x24;0x35;0xd2;0x00;0x2a;0x2a;0x71;0x58;0x55;0xb7;0x82;0x8c;0x3c;0xbd;0xdb;0x69;
   0x57;0xff;0x95;0xa1;0xf1;0xf9;0x6b;0x58;0xe3;0xb2;0x99;0x66;0x12;0x29;0x41;0xef;0x01;0x13;0x8d;0x70;0x47;0x08;0xd3;0x71;
   0xbd;0xb0;0x82;0x11;0xd0;0x32;0x54;0x32;0x36;0x8b;0x1e;0x00;0x07;0x1b;0x37;0x45;0x0b;0x79;0xf8;0x5e;0x8d;0x08;0xdb;0xa6;
   0xe5;0x37;0x09;0x61;0xdc;0xf0;0x78;0x52;0xb8;0x6e;0xa1;0x61;0xd2;0x49;0x03;0xac;0x79;0x21;0xe5;0x90;0x37;0xb0;0xaf;0x0e];
  [0x2f;0x04;0x48;0x37;0xc1;0x55;0x05;0x96;0x11;0xaa;0x0b;0x82;0xe6;0x41;0x9a;0x21;0x0c;0x6d;0x48;0x73;0x38;0xf7;0x81;0x1c;
   0x61;0xc6;0x02;0x5a;0x67;0xcc;0x9a;0x30;0x1d;0xae;0x75;0x0f;0x5e;0x80;0x40;0x51;0x30;0xcc;0x62;0x26;0xe3;0xfb;0x02;0xec;
   0x6d;0x39;0x92;0xea;0x1e;0xdf;0xeb;0x2c;0xb3;0x5b;0x43;0xc5;0x44;0x33;0xae;0x44;0xee;0x43;0xa5;0xbb;0xb9;0x89;0xf2;0x9c;
   0x42;0x71;0xc9;0x5a;0x9d;0x0e;0x76;0xf3;0xaa;0x60;0x93;0x4f;0xc6;0xe5;0x82;0x1d;0x8f;0x67;0x94;0x7f;0x1b;0x22;0xd5;0x62];
  [0x6d;0x93;0xd0;0x18;0x9c;0x29;0x4c;0x52;0x0c;0x1a;0x0c;0x8a;0x6c;0xb5;0x6b;0xc8;0x31;0x86;0x4a;0xdb;0x2e;0x05;0x75;0xa3;
   0x62;0x45;0x75;0xbc;0xe4;0xfd;0x0e;0x5c;0x3c;0x7a;0xf7;0x3a;0x26;0xd4;0x85;0x75;0x4d;0x14;0xe9;0xfe;0x11;0x7b;0xae;0xdf;
   0x3d;0x19;0xf7;0x59;0x80;0x70;0x06;0xa5;0x37;0x20;0x92;0x83;0x53;0x9a;0xf2;0x14;0xf5;0xd7;0xb2;0x25;0xdc;0x7e;0x71;0xdf;
   0x40;0x30;0xb5;0x99;0xdb;0x70;0xf9;0x21;0x62;0x4c;0xed;0xc3;0xb7;0x34;0x92;0xda;0x3e;0x09;0xee;0x7b;0x5c;0x36;0x72;0x5e];
  [0x7f;0x21;0x71;0x45;0x07;0xfc;0x5b;0x57;0x5b;0xd9;0x94;0x06;0x5d;0x67;0x79;0x37;0x33;0x1e;0x19;0xf4;0xbb;0x37;0x0a;0x9a;
   0xbc;0xea;0xb4;0x47;0x4c;0x10;0xf1;0x77;0x3e;0xb3;0x08;0x2f;0x06;0x39;0x93;0x7d;0xbe;0x32;0x9f;0xdf;0xe5;0x59;0x96;0x5b;
   0xfd;0xbd;0x9e;0x1f;0xad;0x3d;0xff;0xac;0xb7;0x49;0x73;0xcb;0x55;0x05;0xb2;0x70;0x4c;0x2c;0x11;0x55;0xc5;0x13;0x51;0xbe;
   0xcd;0x1f;0x88;0x9a;0x3a;0x42;0x88;0x66;0x47;0x3b;0x50;0x5e;0x85;0x77;0x66;0x44;0x4a;0x40;0x06;0x4a;0x8f;0x39;0x34;0x0e];
  [0xe8;0xbd;0xce;0x3e;0xd9;0x22;0x7d;0xb6;0x07;0x2f;0x82;0x27;0x41;0xe8;0xb3;0x09;0x8d;0x6d;0x5b;0xb0;0x1f;0xa6;0x3f;0x74;
   0x72;0x23;0x36;0x8a;0x36;0x05;0x54;0x5e;0x28;0x19;0x4b;0x3e;0x09;0x0b;0x93;0x18;0x40;0xf6;0xf3;0x73;0x0e;0xe1;0xe3;0x7d;
   0x6f;0x5d;0x39;0x73;0xda;0x17;0x32;0xf4;0x3e;0x9c;0x37;0xca;0xd6;0xde;0x8a;0x6f;0x9a;0xb2;0xb7;0xfd;0x3d;0x12;0x40;0xe3;
   0x91;0xb2;0x1a;0xa2;0xe1;0x97;0x7b;0x48;0x9e;0x94;0xe6;0xfd;0x02;0x7d;0x96;0xf9;0x97;0xde;0xd3;0xc8;0x2e;0xe7;0x0d;0x78];
  [0xbc;0xe7;0x9a;0x08;0x45;0x85;0xe2;0x0a;0x06;0x4d;0x7f;0x1c;0xcf;0xde;0x8d;0x38;0xb8;0x11;0x48;0x0a;0x51;0x15;0xac;0x38;
   0xe4;0x8c;0x92;0x71;0xf6;0x8b;0xb2;0x0e;0x72;0x27;0xf4;0x00;0xf3;0xea;0x1f;0x67;0xaa;0x41;0x8c;0x2a;0x2a;0xeb;0x72;0x8f;
   0x92;0x32;0x37;0x97;0xd7;0x7f;0xa1;0x29;0xa6;0x87;0xb5;0x32;0xad;0xc6;0xef;0x1d;0xa7;0x95;0x51;0xef;0x1a;0xbe;0x5b;0xaf;
   0xed;0x15;0x7b;0x91;0x77;0x12;0x8c;0x14;0x2e;0xda;0xe5;0x7a;0xfb;0xf7;0x91;0x29;0x67;0x28;0xdd;0xf8;0x1b;0x20;0x7d;0x46];
  [0xad;0x4f;0xef;0x74;0x9a;0x91;0xfe;0x95;0xa2;0x08;0xa3;0xf6;0xec;0x7b;0x82;0x3a;0x01;0x7b;0xa4;0x09;0xd3;0x01;0x4e;0x96;
   0x97;0xc7;0xa3;0x5b;0x4f;0x3c;0xc4;0x71;0xa9;0xe7;0x7a;0x56;0xbd;0xf4;0x1e;0xbc;0xbd;0x98;0x44;0xd6;0xb2;0x4c;0x62;0x3f;
   0xc8;0x4e;0x1f;0x2c;0xd2;0x64;0x10;0xe4;0x01;0x40;0x38;0xba;0xa5;0xc5;0xf9;0x2e;0xcd;0x74;0x9e;0xfa;0xf6;0x6d;0xfd;0xb6;
   0x7a;0x26;0xaf;0xe4;0xbc;0x78;0x82;0xf1;0x0e;0x99;0xef;0xf1;0xd0;0xb3;0x55;0x82;0x93;0xf2;0xc5;0x90;0xa3;0x8c;0x75;0x5a];
  [0x95;0x24;0x46;0xd9;0x10;0x27;0xb7;0xa2;0x03;0x50;0x7d;0xd5;0xd2;0xc6;0xa8;0x3a;0xca;0x87;0xb4;0xa0;0xbf;0x00;0xd4;0xe3;
   0xec;0x72;0xeb;0xb3;0x44;0xe2;0xba;0x2d;0x94;0xdc;0x61;0x1d;0x8b;0x91;0xe0;0x8c;0x66;0x30;0x81;0x9a;0x46;0x36;0xed;0x8d;
   0xd3;0xaa;0xe8;0xaf;0x29;0xa8;0xe6;0xd4;0x3f;0xd4;0x39;0xf6;0x27;0x80;0x73;0x0a;0xcc;0xe1;0xff;0x57;0x2f;0x4a;0x0f;0x98;
   0x43;0x98;0x83;0xe1;0x0d;0x0d;0x67;0x00;0xfd;0x15;0xfb;0x49;0x4a;0x3f;0x5c;0x10;0x9c;0xa6;0x26;0x51;0x63;0xca;0x98;0x26];
  [0x78;0xba;0xb0;0x32;0x88;0x31;0x65;0xe7;0x8b;0xff;0x5c;0x92;0xf7;0x31;0x18;0x38;0xcc;0x1f;0x29;0xa0;0x91;0x1b;0xa8;0x08;
   0x07;0xeb;0xca;0x49;0xcc;0x3d;0xb4;0x1f;0x0e;0xd9;0x3d;0x5e;0x2f;0x70;0x3d;0x2e;0x86;0x53;0xd2;0xe4;0x18;0x09;0x3f;0x9e;
   0x6a;0xa9;0x4d;0x02;0xf6;0x3e;0x77;0x5e;0x32;0x33;0xfa;0x4a;0x0c;0x4b;0x00;0x3c;0x2b;0xb8;0xf4;0x06;0xac;0x46;0xa9;0x9a;
   0xf3;0xc4;0x06;0xa8;0xa5;0x84;0xa2;0x1c;0x87;0x47;0xcd;0xc6;0x5f;0x26;0xd3;0x3e;0x17;0xd2;0x1f;0xcd;0x01;0xfd;0x43;0x6b];
  [0x44;0xc5;0x97;0x46;0x4b;0x5d;0xa7;0xc7;0xbf;0xff;0x0f;0xdf;0x48;0xf8;0xfd;0x15;0x5a;0x78;0x46;0xaa;0xeb;0xb9;0x68;0x28;
   0x14;0xf7;0x52;0x5b;0x10;0xd7;0x68;0x5a;0xf3;0x0e;0x76;0x3e;0x58;0x42;0xc7;0xb5;0x90;0xb9;0x0a;0xee;0xb9;0x52;0xdc;0x75;
   0x3f;0x92;0x2b;0x07;0xc2;0x27;0x14;0xbf;0xf0;0xd9;0xf0;0x6f;0x2d;0x0b;0x42;0x73;0x06;0x1e;0x85;0x9e;0xcb;0xf6;0x2c;0xaf;
   0xc4;0x38;0x22;0xc6;0x13;0x39;0x59;0x8f;0x73;0xf3;0xfb;0x99;0x96;0xb8;0x8a;0xda;0x9e;0xbc;0x34;0xea;0x2f;0x63;0xb5;0x3d];
  [0xd8;0xd9;0x5d;0xf7;0x2b;0xee;0x6e;0xf4;0xa5;0x59;0x67;0x39;0xf6;0xb1;0x17;0x0d;0x73;0x72;0x9e;0x49;0x31;0xd1;0xf2;0x1b;
   0x13;0x5f;0xd7;0x49;0xdf;0x1a;0x32;0x04;0xd5;0x25;0x98;0x82;0xb1;0x90;0x49;0x2e;0x91;0x89;0x9a;0x3e;0x87;0xeb;0xea;0xed;
   0xf8;0x4a;0x70;0x4c;0x39;0x3d;0xf0;0xee;0x0e;0x2b;0xdf;0x95;0xa4;0x7e;0x19;0x59;0xae;0x5a;0xe5;0xe4;0x19;0x60;0xe1;0x04;
   0xe9;0x92;0x2f;0x7e;0x7a;0x43;0x7b;0xe7;0xa4;0x9a;0x15;0x6f;0xc1;0x2d;0xce;0xc7;0xc0;0x0c;0xd7;0xf4;0xc1;0xfd;0xea;0x45];
  [0x2b;0xd7;0x45;0x80;0x85;0x01;0x84;0x69;0x51;0x06;0x2f;0xcf;0xa2;0xfa;0x22;0x4c;0xc6;0x2d;0x22;0x6b;0x65;0x36;0x1a;0x94;
   0xde;0xda;0x62;0x03;0xc8;0xeb;0x5e;0x5a;0xed;0xb1;0xcc;0xcf;0x24;0x46;0x0e;0xb6;0x95;0x03;0x5c;0xbd;0x92;0xc2;0xdb;0x59;
   0xc9;0x81;0x04;0xdc;0x1d;0x9d;0xa0;0x31;0x40;0xd9;0x56;0x5d;0xea;0xce;0x73;0x3f;0xc6;0x8d;0x4e;0x0a;0xd1;0xbf;0xa7;0xb7;
   0x39;0xb3;0xc9;0x44;0x7e;0x00;0x57;0xbe;0xfa;0xae;0x57;0x15;0x7f;0x20;0xc1;0x60;0xdb;0x18;0x62;0x26;0x91;0x88;0x05;0x26];
  [0x04;0xff;0x60;0x83;0xa6;0x04;0xf7;0x59;0xf4;0xe6;0x61;0x76;0xde;0x3f;0xd9;0xc3;0x51;0x35;0x87;0x12;0x73;0x2a;0x1b;0x83;
   0x57;0x5d;0x61;0x4e;0x2e;0x0c;0xad;0x54;0x42;0xe5;0x76;0xc6;0x3c;0x8e;0x81;0x4c;0xad;0xcc;0xce;0x03;0x93;0x2c;0x42;0x5e;
   0x08;0x9f;0x12;0xb4;0xca;0xcc;0x07;0xec;0xb8;0x43;0x44;0xb2;0x10;0xfa;0xed;0x0d;0x2a;0x52;0x2b;0xb8;0xd5;0x67;0x3b;0xee;
   0xeb;0xc1;0xa5;0x9f;0x46;0x63;0xf1;0x36;0xd3;0x9f;0xc1;0x6e;0xf2;0xd2;0xb4;0xa5;0x08;0x94;0x7a;0xa7;0xba;0xb2;0xec;0x62];
  [0x3d;0x2b;0x15;0x61;0x52;0x79;0xed;0xe5;0xd1;0xd7;0xdd;0x0e;0x7d;0x35;0x62;0x49;0x71;0x4c;0x6b;0xb9;0xd0;0xc8;0x82;0x74;
   0xbe;0xd8;0x66;0xa9;0x19;0xf9;0x59;0x2e;0x74;0x28;0xb6;0xaf;0x36;0x28;0x07;0x92;0xa5;0x04;0xe1;0x79;0x85;0x5e;0xcd;0x5f;
   0x4a;0xa1;0x30;0xc6;0xad;0x01;0xad;0x5a;0x98;0x3f;0x66;0x75;0x50;0x3d;0x91;0x61;0xda;0x31;0x32;0x1a;0x36;0x2d;0xc6;0x0d;
   0x70;0x02;0x20;0x94;0x32;0x58;0x47;0xfa;0xce;0x94;0x95;0x3f;0x51;0x01;0xd8;0x02;0x5c;0x5d;0xc0;0x31;0xa1;0xc2;0xdb;0x3d];
  [0x4b;0xc5;0x5e;0xce;0xf9;0x0f;0xdc;0x9a;0x0d;0x13;0x2f;0x8c;0x6b;0x2a;0x9c;0x03;0x15;0x95;0xf8;0xf0;0xc7;0x07;0x80;0x02;
   0x6b;0xb3;0x04;0xac;0x14;0x83;0x96;0x78;0x14;0xbb;0x96;0x27;0xa2;0x57;0xaa;0xf3;0x21;0xda;0x07;0x9b;0xb7;0xba;0x3a;0x88;
   0x1c;0x39;0xa0;0x31;0x18;0xe2;0x4b;0xe5;0xf9;0x05;0x32;0xd8;0x38;0xfb;0xe7;0x5e;0x8e;0x6a;0x44;0x41;0xcb;0xfd;0x8d;0x53;
   0xf9;0x37;0x49;0x43;0xa9;0xfd;0xac;0xa5;0x78;0x8c;0x3c;0x26;0x8d;0x90;0xaf;0x46;0x09;0x0d;0xca;0x9b;0x3c;0x63;0xd0;0x61];
  [0x66;0x25;0xdb;0xff;0x35;0x49;0x74;0x63;0xbb;0x68;0x0b;0x78;0x89;0x6b;0xbd;0xc5;0x03;0xec;0x3e;0x55;0x80;0x32;0x1b;0x6f;
   0xf5;0xd7;0xae;0x47;0xd8;0x5f;0x96;0x6e;0xdf;0x73;0xfc;0xf8;0xbc;0x28;0xa3;0xad;0xfc;0x37;0xf0;0xa6;0x5d;0x69;0x84;0xee;
   0x09;0xa9;0xc2;0x38;0xdb;0xb4;0x7f;0x63;0xdc;0x7b;0x06;0xf8;0x2d;0xac;0x23;0x5b;0x7b;0x52;0x80;0xee;0x53;0xb9;0xd2;0x9a;
   0x8d;0x6d;0xde;0xfa;0xaa;0x19;0x8f;0xe8;0xcf;0x82;0x0e;0x15;0x04;0x17;0x71;0x0e;0xdc;0xde;0x95;0xdd;0xb9;0xbb;0xb9;0x79];
  [0xc2;0x26;0x31;0x6a;0x40;0x55;0xb3;0xeb;0x93;0xc3;0xc8;0x68;0xa8;0x83;0x63;0xd2;0x82;0x7a;0xb9;0xe5;0x29;0x64;0x0c;0x6c;
   0x47;0x21;0xfd;0xc9;0x58;0xf1;0x65;0x50;0x74;0x73;0x9f;0x8e;0xae;0x7d;0x99;0xd1;0x16;0x08;0xbb;0xcf;0xf8;0xa2;0x32;0xa0;
   0x0a;0x5f;0x44;0x6d;0x12;0xba;0x6c;0xcd;0x34;0xb8;0xcc;0x0a;0x46;0x11;0xa8;0x1b;0x54;0x99;0x42;0x0c;0xfb;0x69;0x81;0x70;
   0x67;0xcf;0x6e;0xd7;0xac;0x00;0x46;0xe1;0xba;0x45;0xe6;0x70;0x8a;0xb9;0xaa;0x2e;0xf2;0xfa;0xa4;0x58;0x9e;0xf3;0x81;0x39];
  [0x93;0x0a;0x23;0x59;0x75;0x8a;0xfb;0x18;0x5d;0xf4;0xe6;0x60;0x69;0x8f;0x16;0x1d;0xb5;0x3c;0xa9;0x14;0x45;0xa9;0x85;0x3a;
   0xfd;0xd0;0xac;0x05;0x37;0x08;0xdc;0x38;0xde;0x6f;0xe6;0x6d;0xa5;0xdf;0x45;0xc8;0x3a;0x48;0x40;0x2c;0x00;0xa5;0x52;0xe1;
   0x32;0xf6;0xb4;0xc7;0x63;0xe1;0xd2;0xe9;0x65;0x1b;0xbc;0xdc;0x2e;0x45;0xf4;0x30;0x40;0x97;0x75;0xc5;0x82;0x27;0x6d;0x85;
   0xcc;0xbe;0x9c;0xf9;0x69;0x45;0x13;0xfa;0x71;0x4e;0xea;0xc0;0x73;0xfc;0x44;0x88;0x69;0x24;0x3f;0x59;0x1a;0x9a;0x2d;0x63];
  [0xa6;0xcb;0x07;0xb8;0x15;0x6b;0xbb;0xf6;0xd7;0xf0;0x54;0xbc;0xdf;0xc7;0x23;0x18;0x0b;0x67;0x29;0x6e;0x03;0x97;0x1d;0xbb;
   0x57;0x4a;0xed;0x47;0x88;0xf4;0x24;0x0b;0xa7;0x84;0x0c;0xed;0x11;0xfd;0x09;0xbf;0x3a;0x69;0x9f;0x0d;0x81;0x71;0xf0;0x63;
   0x79;0x87;0xcf;0x57;0x2d;0x8c;0x90;0x21;0xa2;0x4b;0xf6;0x8a;0xf2;0x7d;0x5a;0x3a;0xc7;0xea;0x1b;0x51;0xbe;0xd4;0xda;0xdc;
   0xf2;0xcc;0x26;0xed;0x75;0x80;0x53;0xa4;0x65;0x9a;0x5f;0x00;0x9f;0xff;0x9c;0xe1;0x63;0x1f;0x48;0x75;0x44;0xf7;0xfc;0x34];
  [0xca;0x67;0x97;0x78;0x4c;0xe0;0x97;0xc1;0x7d;0x46;0xd9;0x38;0xcb;0x4d;0x71;0xb8;0xa8;0x5f;0xf9;0x83;0x82;0x88;0xde;0x55;
   0xf7;0x63;0xfa;0x4d;0x16;0xdc;0x3b;0x3d;0x98;0xaa;0xcf;0x78;0xab;0x1d;0xbb;0xa5;0xf2;0x72;0x0b;0x19;0x67;0xa2;0xed;0x5c;
   0x8e;0x60;0x92;0x0a;0x11;0xc9;0x09;0x93;0xb0;0x74;0xb3;0x2f;0x04;0xa3;0x19;0x01;0x7d;0x17;0xc2;0xe8;0x9c;0xd8;0xa2;0x67;
   0xc1;0xd0;0x95;0x68;0xf6;0xa5;0x9d;0x66;0xb0;0xa2;0x82;0xb2;0xe5;0x98;0x65;0xf5;0x73;0x0a;0xe2;0xed;0xf1;0x88;0xc0;0x56];
  [0x17;0x6e;0xa8;0x10;0x11;0x3d;0x6d;0x33;0xfa;0xb2;0x75;0x0b;0x32;0x88;0xf3;0xd7;0x88;0x29;0x07;0x25;0x76;0x33;0x15;0xf9;
   0x87;0x8b;0x10;0x99;0x6b;0x4c;0x67;0x09;0x02;0x8f;0xf3;0x24;0xac;0x5f;0x1b;0x58;0xbd;0x0c;0xe3;0xba;0xfe;0xe9;0x0b;0xa9;
   0xf0;0x92;0xcf;0x8a;0x02;0x69;0x21;0x9a;0x8f;0x03;0x59;0x83;0xa4;0x7e;0x8b;0x03;0xf8;0x6f;0x31;0x99;0x21;0xf8;0x4e;0x9f;
   0x4f;0x8d;0xa7;0xea;0x82;0xd2;0x49;0x2f;0x74;0x31;0xef;0x5a;0xab;0xa5;0x71;0x09;0x65;0xeb;0x69;0x59;0x02;0x31;0x5e;0x6e];
  [0xfb;0x93;0xe5;0x87;0xf5;0x62;0x6c;0xb1;0x71;0x3e;0x5d;0xca;0xde;0xed;0x99;0x49;0x6d;0x3e;0xcc;0x14;0xe0;0xc1;0x91;0xb4;
   0xa8;0xdb;0xa8;0x89;0x47;0x11;0xf5;0x08;0x22;0x62;0x06;0x63;0x0e;0xfb;0x04;0x33;0x3f;0xba;0xac;0x87;0x89;0x06;0x35;0xfb;
   0xa3;0x61;0x10;0x8c;0x77;0x24;0x19;0xbd;0x20;0x86;0x83;0xd1;0x43;0xad;0x58;0x30;0xd0;0x63;0x76;0xe5;0xfd;0x0f;0x3c;0x32;
   0x10;0xa6;0x2e;0xa2;0x38;0xdf;0xc3;0x05;0x9a;0x4f;0x99;0xac;0xbd;0x8a;0xc7;0xbd;0x99;0xdc;0xe3;0xef;0xa4;0x9f;0x54;0x26];
  [0xd6;0xf9;0x6b;0x1e;0x46;0x5a;0x1d;0x74;0x81;0xa5;0x77;0x77;0xfc;0xb3;0x05;0x23;0xd9;0xd3;0x74;0x64;0xa2;0x74;0x55;0xd4;
   0xff;0xe0;0x01;0x64;0xdc;0xe1;0x26;0x19;0x6e;0x66;0x3f;0xaf;0x49;0x85;0x46;0xdb;0xa5;0x0e;0x4a;0xf1;0x04;0xcf;0x7f;0xd7;
   0x47;0x0c;0xba;0xa4;0xf7;0x3f;0xf2;0x3d;0x85;0x3c;0xce;0x32;0xe1;0xdf;0x10;0x3a;0xa0;0xce;0x17;0xea;0x8a;0x4e;0x7f;0xe0;
   0xfd;0xc1;0x1f;0x3a;0x46;0x15;0xd5;0x2f;0xf1;0xc0;0xf2;0x31;0xfd;0x22;0x53;0x17;0x15;0x5d;0x1e;0x86;0x1d;0xd0;0xa1;0x1f];
  [0x32;0x98;0x59;0x7d;0x94;0x55;0x80;0xcc;0x20;0x55;0xf1;0x37;0xda;0x56;0x46;0x1e;0x20;0x93;0x05;0x4e;0x74;0xf7;0xf6;0x99;
   0x33;0xcf;0x75;0x6a;0xbc;0x63;0x35;0x77;0xab;0x94;0xdf;0xd1;0x00;0xac;0xdc;0x38;0xe9;0x0d;0x08;0xd1;0xdd;0x2b;0x71;0x2e;
   0x62;0xe2;0xd5;0xfd;0x3e;0xe9;0x13;0x7f;0xe5;0x01;0x9a;0xee;0x18;0xed;0xfc;0x73;0xb3;0x9c;0x13;0x63;0x08;0xe9;0xb1;0x06;
   0xcd;0x3e;0xa0;0xc5;0x67;0xda;0x93;0xa4;0x32;0x89;0x63;0xad;0xc8;0xce;0x77;0x8d;0x44;0x4f;0x86;0x1b;0x70;0x6b;0x42;0x1f];
  [0x01;0x1c;0x91;0x41;0x4c;0x26;0xc9;0xef;0x25;0x2c;0xa2;0x17;0xb8;0xb7;0xa3;0xf1;0x47;0x14;0x0f;0xf3;0x6b;0xda;0x75;0x58;
   0x90;0xb0;0x31;0x1d;0x27;0xf5;0x1a;0x4e;0x52;0x25;0xa1;0x91;0xc8;0x35;0x7e;0xf1;0x76;0x9c;0x5e;0x57;0x53;0x81;0x6b;0xb7;
   0x3e;0x72;0x9b;0x0d;0x6f;0x40;0x83;0xfa;0x38;0xe4;0xa7;0x3f;0x1b;0xbb;0x76;0x0b;0x9b;0x93;0x92;0x7f;0xf9;0xc1;0xb8;0x08;
   0x6e;0xab;0x44;0xd4;0xcb;0x71;0x67;0xbe;0x17;0x80;0xbb;0x99;0x63;0x64;0xe5;0x22;0x55;0xa9;0x72;0xb7;0x1e;0xd6;0x6d;0x7b];
  [0x92;0x3d;0xf3;0x50;0xe8;0xc1;0xad;0xb7;0xcf;0xd5;0x8c;0x60;0x4f;0xfa;0x98;0x79;0xdb;0x5b;0xfc;0x8d;0xbd;0x2d;0x96;0xad;
   0x4f;0x2f;0x1d;0xaf;0xce;0x9b;0x3e;0x70;0xc7;0xd2;0x01;0xab;0xf9;0xab;0x30;0x57;0x18;0x3b;0x14;0x40;0xdc;0x76;0xfb;0x16;
   0x81;0xb2;0xcb;0xa0;0x65;0xbe;0x6c;0x86;0xfe;0x6a;0xff;0x9b;0x65;0x9b;0xfa;0x53;0x55;0x54;0x88;0x94;0xe9;0xc8;0x14;0x6c;
   0xe5;0xd4;0xae;0x65;0x66;0x5d;0x3a;0x84;0xf1;0x5a;0xd6;0xbc;0x3e;0xb7;0x1b;0x18;0x50;0x1f;0xc6;0xc4;0xe5;0x93;0x8d;0x39];
  [0xf3;0x48;0xe2;0x33;0x67;0xd1;0x4b;0x1c;0x5f;0x0a;0xbf;0x15;0x87;0x12;0x9e;0xbd;0x76;0x03;0x0b;0xa1;0xf0;0x8c;0x3f;0xd4;
   0x13;0x1b;0x19;0xdf;0x5d;0x9b;0xb0;0x53;0xf2;0xe3;0xe7;0xd2;0x60;0x7c;0x87;0xc3;0xb1;0x8b;0x82;0x30;0xa0;0xaa;0x34;0x3b;
   0x38;0xf1;0x9e;0x73;0xe7;0x26;0x3e;0x28;0x77;0x05;0xc3;0x02;0x90;0x9c;0x9c;0x69;0xcc;0xf1;0x46;0x59;0x23;0xa7;0x06;0xf3;
   0x7d;0xd9;0xe5;0xcc;0xb5;0x18;0x17;0x92;0x75;0xe9;0xb4;0x81;0x47;0xd2;0xcd;0x28;0x07;0xd9;0xcd;0x6f;0x0c;0xf3;0xca;0x51];
  [0x0a;0xe0;0x74;0x76;0x42;0xa7;0x0b;0xa6;0xf3;0x7b;0x7a;0xa1;0x70;0x85;0x0e;0x63;0xcc;0x24;0x33;0xcf;0x3d;0x56;0x58;0x37;
   0xaa;0xfd;0x83;0x23;0x29;0xaa;0x04;0x55;0xc7;0x54;0xac;0x18;0x9a;0xf9;0x7a;0x73;0x0f;0xb3;0x1c;0xc5;0xdc;0x78;0x33;0x90;
   0xc7;0x0c;0xe1;0x4c;0x33;0xbc;0x89;0x2b;0x9a;0xe9;0xf8;0x89;0xc1;0x29;0xae;0x12;0xcf;0x01;0x0d;0x1f;0xcb;0xc0;0x9e;0xa9;
   0xae;0xf7;0x34;0x3a;0xcc;0xef;0xd1;0x0d;0x22;0x4e;0x9c;0xd0;0x21;0x75;0xca;0x55;0xea;0xa5;0xeb;0x58;0xe9;0x4f;0xd1;0x5f];
  [0x2c;0xab;0x45;0x28;0xdf;0x2d;0xdc;0xb5;0x93;0xe9;0x7f;0x0a;0xb1;0x91;0x94;0x06;0x46;0xe3;0x02;0x40;0xd6;0xf3;0xaa;0x4d;
   0xd1;0x74;0x64;0x58;0x6e;0xf2;0x3f;0x09;0x8e;0xcb;0x93;0xbf;0x5e;0xfe;0x42;0x3c;0x5f;0x56;0xd4;0x36;0x51;0xa8;0xdf;0xbe;
   0xe8;0x20;0x42;0x88;0x9e;0x85;0xf0;0xe0;0x28;0xd1;0x25;0x07;0x96;0x3f;0xd7;0x7d;0x29;0x98;0x05;0x68;0xfe;0x24;0x0d;0xb1;
   0xe5;0x23;0xaf;0xdb;0x72;0x06;0x73;0x75;0x29;0xac;0x57;0xb4;0x3a;0x25;0x67;0x13;0xa4;0x70;0xb4;0x86;0xbc;0xbc;0x59;0x2f];
  [0x5f;0x13;0x17;0x99;0x42;0x7d;0x84;0x83;0xd7;0x03;0x7d;0x56;0x1f;0x91;0x1b;0xad;0xd1;0xaa;0x77;0xbe;0xd9;0x48;0x77;0x7e;
   0x4a;0xaf;0x51;0x2e;0x2e;0xb4;0x58;0x54;0x01;0xc3;0x91;0xb6;0x60;0xd5;0x41;0x70;0x1e;0xe7;0xd7;0xad;0x3f;0x1b;0x20;0x85;
   0x85;0x55;0x33;0x11;0x63;0xe1;0xc2;0x16;0xb1;0x28;0x08;0x01;0x3d;0x5e;0xa5;0x2a;0x4f;0x44;0x07;0x0c;0xe6;0x92;0x51;0xed;
   0x10;0x1d;0x42;0x74;0x2d;0x4e;0xc5;0x42;0x64;0xc8;0xb5;0xfd;0x82;0x4c;0x2b;0x35;0x64;0x86;0x76;0x8a;0x4a;0x00;0xe9;0x13];
  [0xdb;0xce;0x2f;0x83;0x45;0x88;0x9d;0x73;0x63;0xf8;0x6b;0xae;0xc9;0xd6;0x38;0xfa;0xf7;0xfe;0x4f;0xb7;0xca;0x0d;0xbc;0x32;
   0x5e;0xe4;0xbc;0x14;0x88;0x7e;0x93;0x73;0x7f;0x87;0x3b;0x19;0xc9;0x00;0x2e;0xbb;0x6b;0x50;0xdc;0xe0;0x90;0xa8;0xe3;0xec;
   0x9f;0x64;0xde;0x36;0xc0;0xb7;0xf3;0xec;0x1a;0x9e;0xde;0x98;0x08;0x04;0x46;0x5f;0x8d;0xf4;0x7b;0x29;0x16;0x71;0x03;0xb9;
   0x34;0x68;0xf0;0xd4;0x22;0x3b;0xd1;0xa9;0xc6;0xbd;0x96;0x46;0x57;0x15;0x97;0xe1;0x35;0xe8;0xd5;0x91;0xe8;0xa4;0xf8;0x2c];
  [0x67;0x0f;0x11;0x07;0x87;0xfd;0x93;0x6d;0x49;0xb5;0x38;0x7c;0xd3;0x09;0x4c;0xdd;0x86;0x6a;0x73;0xc2;0x4c;0x6a;0xb1;0x7c;
   0x09;0x2a;0x25;0x58;0x6e;0xbd;0x49;0x20;0xa2;0x6b;0xd0;0x17;0x7e;0x48;0xb5;0x2c;0x6b;0x19;0x50;0x39;0x1c;0x38;0xd2;0x24;
   0x30;0x8a;0x97;0x85;0x81;0x9c;0x65;0xd7;0xf6;0xa4;0xd6;0x91;0x28;0x7f;0x6f;0x7a;0x49;0xef;0x9a;0x6a;0x8d;0xfd;0x09;0x7d;
   0x0b;0xb9;0x3d;0x5b;0xbe;0x60;0xee;0xf0;0xd4;0xbf;0x9e;0x51;0x2c;0xb5;0x21;0x4c;0x1d;0x94;0x45;0xc5;0xdf;0xaa;0x11;0x60];
  [0x3c;0xf8;0x95;0xcf;0x6d;0x92;0x67;0x5f;0x71;0x90;0x28;0x71;0x61;0x85;0x7e;0x7c;0x5b;0x7a;0x8f;0x99;0xf3;0xe7;0xa1;0xd6;
   0xe0;0xf9;0x62;0x0b;0x1b;0xcc;0xc5;0x6f;0x90;0xf8;0xcb;0x02;0xc8;0xd0;0xde;0x63;0xaa;0x6a;0xff;0x0d;0xca;0x98;0xd0;0xfb;
   0x99;0xed;0xb6;0xb9;0xfd;0x0a;0x4d;0x62;0x1e;0x0b;0x34;0x79;0xb7;0x18;0xce;0x69;0xcb;0x79;0x98;0xb2;0x28;0x55;0xef;0xd1;
   0x92;0x90;0x7e;0xd4;0x3c;0xae;0x1a;0xdd;0x52;0x23;0x9f;0x18;0x42;0x04;0x7e;0x12;0xf1;0x01;0x71;0xe5;0x3a;0x6b;0x59;0x15];
  [0xa2;0x79;0x91;0x3f;0xd2;0x39;0x27;0x46;0xcf;0xdd;0xd6;0x97;0x31;0x12;0x83;0xff;0x8a;0x14;0xf2;0x53;0xb5;0xde;0x07;0x13;
   0xda;0x4d;0x5f;0x7b;0x68;0x37;0x22;0x0d;0xca;0x24;0x51;0x7e;0x16;0x31;0xff;0x09;0xdf;0x45;0xc7;0xd9;0x8b;0x15;0xe4;0x0b;
   0xe5;0x56;0xf5;0x7e;0x22;0x7d;0x2b;0x29;0x38;0xd1;0xb6;0xaf;0x41;0xe2;0xa4;0x3a;0xf5;0x05;0x33;0x2a;0xbf;0x38;0xc1;0x2c;
   0xc3;0x26;0xe9;0xa2;0x8f;0x3f;0x58;0x48;0xeb;0xd2;0x49;0x55;0xa2;0xb1;0x3a;0x08;0x6c;0xa3;0x87;0x46;0x6e;0xaa;0xfc;0x32];
  [0xf5;0x9a;0x7d;0xc5;0x8d;0x6e;0xc5;0x7b;0xf2;0xbd;0xf0;0x9d;0xed;0xd2;0x0b;0x3e;0xa3;0xe4;0xef;0x22;0xde;0x14;0xc0;0xaa;
   0x5c;0x6a;0xbd;0xfe;0xce;0xe9;0x27;0x46;0xdf;0xcc;0x87;0x27;0x73;0xa4;0x07;0x32;0xf8;0xe3;0x13;0xf2;0x08;0x19;0xe3;0x17;
   0x4e;0x96;0x0d;0xf6;0xd7;0xec;0xb2;0xd5;0xe9;0x0b;0x60;0xc2;0x36;0x63;0x6f;0x74;0x1c;0x97;0x6c;0xab;0x45;0xf3;0x4a;0x3f;
   0x1f;0x73;0x43;0x99;0x72;0xeb;0x88;0xe2;0x6d;0x18;0x44;0x03;0x8a;0x6a;0x59;0x33;0x93;0x62;0xd6;0x7e;0x00;0x17;0x49;0x7b];
  [0x64;0xb0;0x84;0xab;0x5c;0xfb;0x85;0x2d;0x14;0xbc;0xf3;0x89;0xd2;0x10;0x78;0x49;0x0c;0xce;0x15;0x7b;0x44;0xdc;0x6a;0x47;
   0x7b;0xfd;0x44;0xf8;0x76;0xa3;0x2b;0x12;0xdd;0xa2;0x53;0xdd;0x28;0x1b;0x34;0x54;0x3f;0xfc;0x42;0xdf;0x5b;0x90;0x17;0xaa;
   0xf4;0xf8;0xd2;0x4d;0xd9;0x92;0xf5;0x0f;0x7d;0xd3;0x8c;0xe0;0x0f;0x62;0x03;0x1d;0x54;0xe5;0xb4;0xa2;0xcd;0x32;0x02;0xc2;
   0x7f;0x18;0x5d;0x11;0x42;0xfd;0xd0;0x9e;0xd9;0x79;0xd4;0x7d;0xbe;0xb4;0xab;0x2e;0x4c;0xec;0x68;0x2b;0xf5;0x0b;0xc7;0x02];
  [0xbb;0x2f;0x0b;0x5d;0x4b;0xec;0x87;0xa2;0xca;0x82;0x48;0x07;0x90;0x57;0x5c;0x41;0x5c;0x81;0xd0;0xc1;0x1e;0xa6;0x44;0xe0;
   0xe0;0xf5;0x9e;0x40;0x0a;0x4f;0x33;0x26;0xe1;0x72;0x8d;0x45;0xbf;0x32;0xe5;0xac;0xb5;0x3c;0xb7;0x7c;0xe0;0x68;0xe7;0x5b;
   0xe7;0xbd;0x8b;0xee;0x94;0x7d;0xcf;0x56;0x03;0x3a;0xb4;0xfe;0xe3;0x97;0x06;0x6b;0xc0;0xa3;0x62;0xdf;0x4a;0xf0;0xc8;0xb6;
   0x5d;0xa4;0x6d;0x07;0xef;0x00;0xf0;0x3e;0xa9;0xd2;0xf0;0x49;0x58;0xb9;0x9c;0x9c;0xae;0x2f;0x1b;0x44;0x43;0x7f;0xc3;0x1c];
  [0x4f;0x32;0xc7;0x5c;0x5a;0x56;0x8f;0x50;0x22;0xa9;0x06;0xe5;0xc0;0xc4;0x61;0xd0;0x19;0xac;0x45;0x5c;0xdb;0xab;0x18;0xfb;
   0x4a;0x31;0x80;0x03;0xc1;0x09;0x68;0x6c;0xb9;0xae;0xce;0xc9;0xf1;0x56;0x66;0xd7;0x6a;0x65;0xe5;0x18;0xf8;0x15;0x5b;0x1c;
   0x34;0x23;0x4c;0x84;0x32;0x28;0xe7;0x26;0x38;0x68;0x19;0x2f;0x77;0x6f;0x34;0x3a;0xc8;0x6a;0xda;0xe2;0x12;0x51;0xd5;0xd2;
   0xed;0x51;0xe8;0xb1;0x31;0x03;0xbd;0xe9;0x62;0x72;0xc6;0x8e;0xdd;0x46;0x07;0x96;0xd0;0xc5;0xf7;0x6e;0x9f;0x1b;0x91;0x05];
  [0xbb;0x0e;0xdf;0xf5;0x83;0x99;0x33;0xc1;0xac;0x4c;0x2c;0x51;0x8f;0x75;0xf3;0xc0;0xe1;0x98;0xb3;0x0b;0x0a;0x13;0xf1;0x2c;
   0x62;0x0c;0x27;0xaa;0xf9;0xec;0x3c;0x6b;0xef;0xea;0x2e;0x51;0xf3;0xac;0x49;0x53;0x49;0xcb;0xc1;0x1c;0xd3;0x41;0xc1;0x20;
   0x8d;0x68;0x9a;0xa9;0x07;0x0c;0x18;0x24;0x17;0x2d;0x4b;0xc6;0xd1;0xf9;0x5e;0x55;0x08;0xbd;0x73;0x3b;0xba;0x70;0xa7;0x36;
   0x0c;0xbf;0xaf;0xa3;0x08;0xef;0x4a;0x62;0xf2;0x46;0x09;0xb4;0x98;0xff;0x37;0x57;0x9d;0x74;0x81;0x33;0xe1;0x4d;0x5f;0x67];
  [0xfc;0x82;0x17;0x6b;0x03;0x52;0x2c;0x0e;0xb4;0x83;0xad;0x6c;0x81;0x6c;0x81;0x64;0x3e;0x07;0x64;0x69;0xd9;0xbd;0xdc;0xd0;
   0x20;0xc5;0x64;0x01;0xf7;0x9d;0xd9;0x13;0x1d;0xb3;0xda;0x3b;0xd9;0xf6;0x2f;0xa1;0xfe;0x2d;0x65;0x9d;0x0f;0xd8;0x25;0x07;
   0x87;0x94;0xbe;0x9a;0xf3;0x4f;0x9c;0x01;0x43;0x3c;0xcd;0x82;0xb8;0x50;0xf4;0x60;0xca;0xc0;0xe5;0x21;0xc3;0x5e;0x4b;0x01;
   0xa2;0xbf;0x19;0xd7;0xc9;0x69;0xcb;0x4f;0xa0;0x23;0x00;0x75;0x18;0x1c;0x5f;0x4e;0x80;0xac;0xed;0x55;0x9e;0xde;0x06;0x1c];
  [0xe2;0xc4;0x3e;0xa3;0xd6;0x7a;0x0f;0x99;0x8e;0xe0;0x2e;0xbe;0x38;0xf9;0x08;0x66;0x15;0x45;0x28;0x63;0xc5;0x43;0xa1;0x9c;
   0x0d;0xb6;0x2d;0xec;0x1f;0x8a;0xf3;0x4c;0xaa;0x69;0x6d;0xff;0x40;0x2b;0xd5;0xff;0xbb;0x49;0x40;0xdc;0x18;0x0b;0x53;0x34;
   0x97;0x98;0x4d;0xa3;0x2f;0x5c;0x4a;0x5e;0x2d;0xba;0x32;0x7d;0x8e;0x6f;0x09;0x78;0xe7;0x5c;0xfa;0x0d;0x65;0xaa;0xaa;0xa0;
   0x8c;0x47;0xb5;0x48;0x2a;0x9e;0xc4;0xf9;0x5b;0x72;0x03;0x70;0x7d;0xcc;0x09;0x4f;0xbe;0x1a;0x09;0x26;0x3a;0xad;0x3c;0x37];
  [0x7c;0xf5;0xc9;0x82;0x4d;0x63;0x94;0xb2;0x36;0x45;0x93;0x24;0xe1;0xfd;0xcb;0x1f;0x5a;0xdb;0x8c;0x41;0xb3;0x4d;0x9c;0x9e;
   0xfc;0x19;0x44;0x45;0xd9;0xf3;0x40;0x00;0xad;0xbb;0xdd;0x89;0xfb;0xa8;0xbe;0xf1;0xcb;0xae;0xae;0x61;0xbc;0x2c;0xcb;0x3b;
   0x9d;0x8d;0x9b;0x1f;0xbb;0xa7;0x58;0x8f;0x86;0xa6;0x12;0x51;0xda;0x7e;0x54;0x21;0xd3;0x86;0x59;0xfd;0x39;0xe9;0xfd;0xde;
   0x0c;0x38;0x0a;0x51;0x89;0x2c;0x27;0xf4;0xb9;0x19;0x31;0xbb;0x07;0xa4;0x2b;0xb7;0xf4;0x4d;0x25;0x4a;0x33;0x0a;0x55;0x63];
  [0x37;0xcf;0x69;0xb5;0xed;0xd6;0x07;0x65;0xe1;0x2e;0xa5;0x0c;0xb0;0x29;0x84;0x17;0x5d;0xd6;0x6b;0xeb;0x90;0x00;0x7c;0xea;
   0x51;0x8f;0xf7;0xda;0xc7;0x62;0xea;0x3e;0x49;0x7b;0x54;0x72;0x45;0x58;0xba;0x9b;0xe0;0x08;0xc4;0xe2;0xfa;0xc6;0x05;0xf3;
   0x8d;0xf1;0x34;0xc7;0x69;0xfa;0xe8;0x60;0x7a;0x76;0x7d;0xaa;0xaf;0x2b;0xa9;0x39;0x4e;0x27;0x93;0xe6;0x13;0xc7;0x24;0x9d;
   0x75;0xd3;0xdb;0x68;0x77;0x85;0x63;0x5f;0x9a;0xb3;0x8a;0xeb;0x60;0x55;0x52;0x70;0xcd;0xc4;0xc9;0x65;0x06;0x6a;0x43;0x68];
  [0x27;0x3f;0x2f;0x20;0xe8;0x35;0x02;0xbc;0xb0;0x75;0xf9;0x64;0xe2;0x00;0x5c;0xc7;0x16;0x24;0x8c;0xa3;0xd5;0xe9;0xa4;0x91;
   0xf9;0x89;0xb7;0x8a;0xf6;0xe7;0xb6;0x17;0x7c;0x10;0x20;0xe8;0x17;0xd3;0x56;0x1e;0x65;0xe9;0x0a;0x84;0x44;0x68;0x26;0xc5;
   0x7a;0xfc;0x0f;0x32;0xc6;0xa1;0xe0;0xc1;0x72;0x14;0x61;0x91;0x9c;0x66;0x73;0x53;0x57;0x52;0x0e;0x9a;0xab;0x14;0x28;0x5d;
   0xfc;0xb3;0xca;0xc9;0x84;0x20;0x8f;0x90;0xca;0x1e;0x2d;0x5b;0x88;0xf5;0xca;0xaf;0x11;0x7d;0xf8;0x78;0xa6;0xb5;0xb4;0x1c];
  [0x6c;0xfc;0x4a;0x39;0x6b;0xc0;0x64;0xb6;0xb1;0x5f;0xda;0x98;0x24;0xde;0x88;0x0c;0x34;0xd8;0xca;0x4b;0x16;0x03;0x8d;0x4f;
   0xa2;0x34;0x74;0xde;0x78;0xca;0x0b;0x33;0xe7;0x07;0xa0;0xa2;0x62;0xaa;0x74;0x6b;0xb1;0xc7;0x71;0xf0;0xb0;0xe0;0x11;0xf3;
   0x23;0xe2;0x0b;0x00;0x38;0xe4;0x07;0x57;0xac;0x6e;0xef;0x82;0x2d;0xfd;0xc0;0x2d;0x4e;0x74;0x19;0x11;0x84;0xff;0x2e;0x98;
   0x24;0x47;0x07;0x2b;0x96;0x5e;0x69;0xf9;0xfb;0x53;0xc9;0xbf;0x4f;0xc1;0x8a;0xc5;0xf5;0x1c;0x9f;0x36;0x1b;0xbe;0x31;0x3c];
  [0xee;0x8a;0x94;0x08;0x4d;0x86;0xf4;0xb0;0x6f;0x1c;0xba;0x91;0xee;0x19;0xdc;0x07;0x58;0xa1;0xac;0xa6;0xae;0xcd;0x75;0x79;
   0xbb;0xd4;0x62;0x42;0x13;0x61;0x0b;0x33;0x72;0x42;0xcb;0xf9;0x93;0xbc;0x68;0xc1;0x98;0xdb;0xce;0xc7;0x1f;0x71;0xb8;0xae;
   0x7a;0x8d;0xac;0x34;0xaa;0x52;0x0e;0x7f;0xbb;0x55;0x7d;0x7e;0x09;0xc1;0xce;0x41;0x8a;0x80;0x6d;0xa2;0xd7;0x19;0x96;0xf7;
   0x6d;0x15;0x9e;0x1d;0x9e;0xd4;0x1f;0xbb;0x27;0xdf;0xa1;0xdb;0x6c;0xc3;0xd7;0x73;0x7d;0x77;0x28;0x1f;0xd9;0x4c;0xb4;0x26];
  [0x75;0x74;0x38;0x8f;0x47;0x48;0xf0;0x51;0x3c;0xcb;0xbe;0x9c;0xf4;0xbc;0x5d;0xb2;0x55;0x20;0x9f;0xd9;0x44;0x12;0xab;0x9a;
   0xd6;0xa5;0x10;0x1c;0x6c;0x9e;0x70;0x2c;0x83;0x03;0x73;0x62;0x93;0xf2;0xb7;0xe1;0x2c;0x8a;0xca;0xeb;0xff;0x79;0x52;0x4b;
   0x14;0x13;0xd4;0xbf;0x8a;0x77;0xfc;0xda;0x0f;0x61;0x72;0x9c;0x14;0x10;0xeb;0x7d;0x7a;0xee;0x66;0x87;0x6a;0xaf;0x62;0xcb;
   0x0e;0xcd;0x53;0x55;0x04;0xec;0xcb;0x66;0xb5;0xe4;0x0b;0x0f;0x38;0x01;0x80;0x58;0xea;0xe2;0x2c;0xf6;0x9f;0x8e;0xe6;0x08];
  [0xad;0x30;0xc1;0x4b;0x0a;0x50;0xad;0x34;0x9c;0xd4;0x0b;0x3d;0x49;0xdb;0x38;0x8d;0xbe;0x89;0x0a;0x50;0x98;0x3d;0x5c;0xa2;
   0x09;0x3b;0xba;0xee;0x87;0x3f;0x1f;0x2f;0xf9;0xf2;0xb8;0x0a;0xd5;0x09;0x2d;0x2f;0xdf;0x23;0x59;0xc5;0x8d;0x21;0xb9;0xac;
   0xb9;0x6c;0x76;0x73;0x26;0x34;0x8f;0x4a;0xf5;0x19;0xf7;0x38;0xd7;0x3b;0xb1;0x4c;0x4a;0xb6;0x15;0xe5;0x75;0x8c;0x84;0xf7;
   0x38;0x90;0x4a;0xdb;0xba;0x01;0x95;0xa5;0x50;0x1b;0x75;0x3f;0x3f;0x31;0x0d;0xc2;0xe8;0x2e;0xae;0xc0;0x53;0xe3;0xa1;0x19];
  [0xc3;0x05;0xfa;0xba;0x60;0x75;0x1c;0x7d;0x61;0x5e;0xe5;0xc6;0xa0;0xa0;0xe1;0xb3;0x73;0x64;0xd6;0xc0;0x18;0x97;0x52;0xe3;
   0x86;0x34;0x0c;0xc2;0x11;0x6b;0x54;0x41;0xbd;0xbd;0x96;0xd5;0xcd;0x72;0x21;0xb4;0x40;0xfc;0xee;0x98;0x43;0x45;0xe0;0x93;
   0xb5;0x09;0x41;0xb4;0x47;0x53;0xb1;0x9f;0x34;0xae;0x66;0x02;0x99;0xd3;0x6b;0x73;0xb4;0xb3;0x34;0x93;0x50;0x2d;0x53;0x85;
   0x73;0x65;0x81;0x60;0x4b;0x11;0xfd;0x46;0x75;0x83;0x5c;0x42;0x30;0x5f;0x5f;0xcc;0x5c;0xab;0x7f;0xb8;0xa2;0x95;0x22;0x41];
  [0xe9;0xd6;0x7e;0xf5;0x88;0x9b;0xc9;0x19;0x25;0xc8;0xf8;0x6d;0x26;0xcb;0x93;0x53;0x73;0xd2;0x0a;0xb3;0x13;0x32;0xee;0x5c;
   0x34;0x2e;0x2d;0xb5;0xeb;0x53;0xe1;0x14;0xc6;0xea;0x93;0xe2;0x61;0x52;0x65;0x2e;0xdb;0xac;0x33;0x21;0x03;0x92;0x5a;0x84;
   0x6b;0x99;0x00;0x79;0xcb;0x75;0x09;0x46;0x80;0xdd;0x5a;0x19;0x8d;0xbb;0x60;0x07;0x8a;0x81;0xe6;0xcd;0x17;0x1a;0x3e;0x41;
   0x84;0xa0;0x69;0xed;0xa9;0x6d;0x15;0x57;0xb1;0xcc;0xca;0x46;0x8f;0x26;0xbf;0x2c;0xf2;0xc5;0x3a;0xc3;0x9b;0xbe;0x34;0x6b];
  [0xb2;0xc0;0x78;0x3a;0x64;0x2f;0xdf;0xf3;0x7c;0x02;0x2e;0xf2;0x1e;0x97;0x3e;0x4c;0xa3;0xb5;0xc1;0x49;0x5e;0x1c;0x7d;0xec;
   0x2d;0xdd;0x22;0x09;0x8f;0xc1;0x12;0x20;0xd3;0xf2;0x71;0x65;0x65;0x69;0xfc;0x11;0x7a;0x73;0x0e;0x53;0x45;0xe8;0xc9;0xc6;
   0x35;0x50;0xfe;0xd4;0xa2;0xe7;0x3a;0xe3;0x0b;0xd3;0x6d;0x2e;0xb6;0xc7;0xb9;0x01;0x29;0x9d;0xc8;0x5a;0xe5;0x55;0x0b;0x88;
   0x63;0xa7;0xa0;0x45;0x1f;0x24;0x83;0x14;0x1f;0x6c;0xe7;0xc2;0xdf;0xef;0x36;0x3d;0xe8;0xad;0x4b;0x4e;0x78;0x5b;0xaf;0x08];
  [0x33;0x25;0x1f;0x88;0xdc;0x99;0x34;0x28;0xb6;0x23;0x93;0x77;0xda;0x25;0x05;0x9d;0xf4;0x41;0x34;0x67;0xfb;0xdd;0x7a;0x89;
   0x8d;0x16;0x3a;0x16;0x71;0x9d;0xb7;0x32;0x4b;0x2c;0xcc;0x89;0xd2;0x14;0x73;0xe2;0x8d;0x17;0x87;0xa2;0x11;0xbd;0xe4;0x4b;
   0xce;0x64;0x33;0xfa;0xd6;0x28;0xd5;0x18;0x6e;0x82;0xd9;0xaf;0xd5;0xc1;0x23;0x64;0x6a;0xb3;0xfc;0xed;0xd9;0xf8;0x85;0xcc;
   0xf9;0xe5;0x46;0x37;0x8f;0xc2;0xbc;0x22;0xcd;0xd3;0xe5;0xf9;0x38;0xe3;0x9d;0xe4;0xcc;0x2d;0x3e;0xc1;0xfb;0x5e;0x0a;0x48];
  [0x71;0x20;0x62;0x01;0x0b;0xe7;0x51;0x0b;0xc5;0xaf;0x1d;0x8b;0xcf;0x05;0xb5;0x06;0xcd;0xab;0x5a;0xef;0x61;0xb0;0x6b;0x2c;
   0x31;0xbf;0xb7;0x0c;0x60;0x27;0xaa;0x47;0x1f;0x22;0xce;0x42;0xe4;0x4c;0x61;0xb6;0x28;0x39;0x05;0x4c;0xcc;0x9d;0x19;0x6e;
   0x03;0xbe;0x1c;0xdc;0xa4;0xb4;0x3f;0x66;0x06;0x8e;0x1c;0x69;0x47;0x1d;0xb3;0x24;0xc3;0xf8;0x15;0xc0;0xed;0x1e;0x54;0x2a;
   0x7c;0x3f;0x69;0x7c;0x7e;0xfe;0xa4;0x11;0xd6;0x78;0xa2;0x4e;0x13;0x66;0xaf;0xf0;0x94;0xa0;0xdd;0x14;0x5d;0x58;0x5b;0x54];
  [0x0f;0x3a;0xd4;0xa0;0x5e;0x27;0xbf;0x67;0xbe;0xee;0x9b;0x08;0x34;0x8e;0xe6;0xad;0x2e;0xe7;0x79;0xd4;0x4c;0x13;0x89;0x42;
   0x54;0x54;0xba;0x32;0xc3;0xf9;0x62;0x0f;0xe1;0x21;0xb3;0xe3;0xd0;0xe4;0x04;0x62;0x95;0x1e;0xff;0x28;0x7a;0x63;0xaa;0x3b;
   0x9e;0xbd;0x99;0x5b;0xfd;0xcf;0x0c;0x0b;0x71;0xd0;0xc8;0x64;0x3e;0xdc;0x22;0x4d;0x39;0x5f;0x3b;0xd6;0x89;0x65;0xb4;0xfc;
   0x61;0xcf;0xcb;0x57;0x3f;0x6a;0xae;0x5c;0x05;0xfa;0x3a;0x95;0xd2;0xc2;0xba;0xfe;0x36;0x14;0x37;0x36;0x1a;0xa0;0x0f;0x1c];
  [0xff;0x3d;0x94;0x22;0xb6;0x04;0xc6;0xd2;0xa0;0xb3;0xcf;0x44;0xce;0xbe;0x8c;0xbc;0x78;0x86;0x80;0x97;0xf3;0x4f;0x25;0x5d;
   0xbf;0xa6;0x1c;0x3b;0x4f;0x61;0xa3;0x0f;0x50;0x6a;0x93;0x8c;0x0e;0x2b;0x08;0x69;0xb6;0xc5;0xda;0xc1;0x35;0xa0;0xc9;0xf9;
   0x34;0xb6;0xdf;0xc4;0x54;0x3e;0xb7;0x6f;0x40;0xc1;0x2b;0x1d;0x9b;0x41;0x05;0x40;0xf0;0x82;0xbe;0xb9;0xbd;0xfe;0x03;0xa0;
   0x90;0xac;0x44;0x3a;0xaf;0xc1;0x89;0x20;0x8e;0xfa;0x54;0x19;0x91;0x9f;0x49;0xf8;0x42;0xab;0x40;0xef;0x8a;0x21;0xba;0x1f];
  [0x3e;0xf5;0xc8;0xfa;0x48;0x94;0x54;0xab;0x41;0x37;0xa6;0x7b;0x9a;0xe8;0xf6;0x81;0x01;0x5e;0x2b;0x6c;0x7d;0x6c;0xfd;0x74;
   0x42;0x6e;0xc8;0xa8;0xca;0x3a;0x2e;0x39;0x94;0x01;0x7b;0x3e;0x04;0x57;0x3e;0x4f;0x7f;0xaf;0xda;0x08;0xee;0x3e;0x1d;0xa8;
   0xf1;0xde;0xdc;0x99;0xab;0xc6;0x39;0xc8;0xd5;0x61;0x77;0xff;0x13;0x5d;0x53;0x6c;0xaf;0x35;0x8a;0x3e;0xe9;0x34;0xbd;0x4c;
   0x16;0xe8;0x87;0x58;0x44;0x81;0x07;0x2e;0xab;0xb0;0x9a;0xf2;0x76;0x9c;0x31;0x19;0x3b;0xc1;0x0a;0xd5;0xe4;0x7f;0xe1;0x25];
  [0x76;0xf6;0x04;0x1e;0xd7;0x9b;0x28;0x0a;0x95;0x0f;0x42;0xd6;0x52;0x1c;0x8e;0x20;0xab;0x1f;0x69;0x34;0xb0;0xd8;0x86;0x51;
   0x51;0xb3;0x9f;0x2a;0x44;0x51;0x57;0x25;0xa7;0x21;0xf1;0x76;0xf5;0x7f;0x5f;0x91;0xe3;0x87;0xcd;0x2f;0x27;0x32;0x4a;0xc3;
   0x26;0xe5;0x1b;0x4d;0xde;0x2f;0xba;0xcc;0x9b;0x89;0x69;0x89;0x8f;0x82;0xba;0x6b;0x01;0x39;0xfe;0x90;0x66;0xbc;0xd1;0xe2;
   0xd5;0x7a;0x99;0xa0;0x18;0x4a;0xb5;0x4c;0xd4;0x60;0x84;0xaf;0x14;0x69;0x1d;0x97;0xe4;0x7b;0x6b;0x7f;0x4f;0x50;0x9d;0x55];
  [0xd5;0x54;0xeb;0xb3;0x78;0x83;0x73;0xa7;0x7c;0x3c;0x55;0xa5;0x66;0xd3;0x69;0x1d;0xba;0x00;0x28;0xf9;0x62;0xcf;0x26;0x0a;
   0x17;0x32;0x7e;0x80;0xd5;0x12;0xab;0x01;0xfd;0x66;0xd2;0xf6;0xe7;0x91;0x48;0x9c;0x1b;0x78;0x07;0x03;0x9b;0xa1;0x44;0x07;
   0x3b;0xe2;0x61;0x60;0x1d;0x8f;0x38;0x88;0x0e;0xd5;0x4b;0x35;0xa3;0xa6;0x3e;0x12;0x96;0x2d;0xe3;0x41;0x90;0x18;0x8d;0x11;
   0x48;0x58;0x31;0xd8;0xc2;0xe3;0xed;0xb9;0xd9;0x45;0x32;0xd8;0x71;0x42;0xab;0x1e;0x54;0xa1;0x18;0xc9;0xe2;0x61;0x39;0x4a];
  [0xa0;0xbb;0xe6;0xf8;0xe0;0x3b;0xdc;0x71;0x0a;0xe3;0xff;0x7e;0x34;0xf8;0xce;0xd6;0x6a;0x47;0x3a;0xe1;0x5f;0x42;0x92;0xa9;
   0x63;0xb7;0x1d;0xfb;0xe3;0xbc;0xd6;0x2c;0x1e;0x3f;0x23;0xf3;0x44;0xd6;0x27;0x03;0x16;0xf0;0xfc;0x34;0x0e;0x26;0x9a;0x49;
   0x79;0xb9;0xda;0xf2;0x16;0xa7;0xb5;0x83;0x1f;0x11;0xd4;0x9b;0xad;0xee;0xac;0x68;0x10;0xc2;0xd7;0xf3;0x0e;0xc9;0xb4;0x38;
   0x0c;0x04;0xad;0xb7;0x24;0x6e;0x8e;0x30;0x23;0x3e;0xe7;0xb7;0xf1;0xd9;0x60;0x38;0x97;0xf5;0x08;0xb5;0xd5;0x60;0x57;0x59];
  [0x97;0x63;0xaa;0x04;0xe1;0xbf;0x29;0x61;0xcb;0xfc;0xa7;0xa4;0x08;0x00;0x96;0x8f;0x58;0x94;0x90;0x7d;0x89;0xc0;0x8b;0x3f;
   0xa9;0x91;0xb2;0xdc;0x3e;0xa4;0x9f;0x70;0x90;0x27;0x02;0xfd;0xeb;0xcb;0x2a;0x88;0x60;0x57;0x11;0xc4;0x05;0x33;0xaf;0x89;
   0xf4;0x73;0x34;0x7d;0xe3;0x92;0xf4;0x65;0x2b;0x5a;0x51;0x54;0xdf;0xc5;0xb2;0x2c;0xca;0x2a;0xfd;0x63;0x8c;0x5d;0x0a;0xeb;
   0xff;0x4e;0x69;0x2e;0x66;0xc1;0x2b;0xd2;0x3a;0xb0;0xcb;0xf8;0x6e;0xf3;0x23;0x27;0x1f;0x13;0xc8;0xf0;0xec;0x29;0xf0;0x70];
  [0x33;0x3e;0xed;0x2e;0xb3;0x07;0x13;0x46;0xe7;0x81;0x55;0xa4;0x33;0x2f;0x04;0xae;0x66;0x03;0x5f;0x19;0xd3;0x49;0x44;0xc9;
   0x58;0x48;0x31;0x6c;0x8a;0x5d;0x7d;0x0b;0xb9;0xb0;0x10;0x5e;0xaa;0xaf;0x6a;0x2a;0xa9;0x1a;0x04;0xef;0x70;0xa3;0xf0;0x78;
   0x1f;0xd6;0x3a;0xaa;0x77;0xfb;0x3e;0x77;0xe1;0xd9;0x4b;0xa7;0xa2;0xa5;0xec;0x44;0x43;0xd5;0x95;0x7b;0x32;0x48;0xd4;0x25;
   0x1d;0x0f;0x34;0xa3;0x00;0x83;0xd3;0x70;0x2b;0xc5;0xe1;0x60;0x1c;0x53;0x1c;0xde;0xe4;0xe9;0x7d;0x2c;0x51;0x24;0x22;0x27];
  [0x2e;0x34;0xc5;0x49;0xaf;0x92;0xbc;0x1a;0xd0;0xfa;0xe6;0xb2;0x11;0xd8;0xee;0xff;0x29;0x4e;0xc8;0xfc;0x8d;0x8c;0xa2;0xef;
   0x43;0xc5;0x4c;0xa4;0x18;0xdf;0xb5;0x11;0xfc;0x75;0xa9;0x42;0x8a;0xbb;0x7b;0xbf;0x58;0xa3;0xad;0x96;0x77;0x39;0x5c;0x8c;
   0x48;0xaa;0xed;0xcd;0x6f;0xc7;0x7f;0xe2;0xa6;0x20;0xbc;0xf6;0xd7;0x5f;0x73;0x19;0x66;0x42;0xc8;0x42;0xd0;0x90;0xab;0xe3;
   0x7e;0x54;0x19;0x7f;0x0f;0x8e;0x84;0xeb;0xb9;0x97;0xa4;0x65;0xd0;0xa1;0x03;0x25;0x5f;0x89;0xdf;0x91;0x11;0x91;0xef;0x0f]].

(** ** Affine arithmetic that evaluates *)

Definition bP : bigZ := Eval vm_compute in BigZ.of_Z p.

Lemma bP_spec : BigZ.to_Z bP = p.
Proof. vm_compute. reflexivity. Qed.

Definition bf (v : bigZ) : F := fe (BigZ.to_Z v).

Definition addm (a b : bigZ) : bigZ := BigZ.modulo (BigZ.add a b) bP.
Definition subm (a b : bigZ) : bigZ := BigZ.modulo (BigZ.sub a b) bP.
Definition mulm (a b : bigZ) : bigZ := BigZ.modulo (BigZ.mul a b) bP.
Definition eqm (a b : bigZ) : bool := BigZ.eqb (subm a b) (BigZ.of_Z 0).

Lemma bf_addm (a b : bigZ) : bf (addm a b) = (bf a + bf b)%F.
Proof.
  unfold bf, addm, fe. rewrite BigZ.spec_modulo, BigZ.spec_add, bP_spec.
  rewrite Zmod.of_Z_mod. apply Zmod.of_Z_add.
Qed.

Lemma bf_subm (a b : bigZ) : bf (subm a b) = (bf a - bf b)%F.
Proof.
  unfold bf, subm, fe. rewrite BigZ.spec_modulo, BigZ.spec_sub, bP_spec.
  rewrite Zmod.of_Z_mod. apply Zmod.of_Z_sub.
Qed.

Lemma bf_mulm (a b : bigZ) : bf (mulm a b) = (bf a * bf b)%F.
Proof.
  unfold bf, mulm, fe. rewrite BigZ.spec_modulo, BigZ.spec_mul, bP_spec.
  rewrite Zmod.of_Z_mod. apply Zmod.of_Z_mul.
Qed.

Lemma bf_of_Z (v : Z) : bf (BigZ.of_Z v) = fe v.
Proof. unfold bf. now rewrite BigZ.spec_of_Z. Qed.

Lemma eqm_sound (a b : bigZ) : eqm a b = true -> bf a = bf b.
Proof.
  unfold eqm. intros H%BigZ.eqb_eq.
  assert (E : bf (subm a b) = 0%F).
  { unfold bf. red in H. rewrite H. now rewrite BigZ.spec_of_Z. }
  rewrite bf_subm in E. transitivity ((bf a - bf b) + bf b)%F; [ring | rewrite E; ring].
Qed.

#[export] Hint Rewrite bf_addm bf_subm bf_mulm bf_of_Z : bf.

Definition bone : bigZ := BigZ.of_Z 1.
Definition bd : bigZ := Eval vm_compute in BigZ.of_Z (val ge25519_ecd).

Lemma bf_one : bf bone = 1%F.
Proof. apply bf_of_Z. Qed.

Lemma bf_d : bf bd = d.
Proof. unfold bf, d, el. apply f_equal. vm_compute. reflexivity. Qed.

#[export] Hint Rewrite bf_one bf_d : bf.

(** Affine and projective pairs, and the points they stand for. *)
Definition aff : Type := bigZ * bigZ.
Definition proj : Type := bigZ * bigZ * bigZ.

Definition rep_aff (a : aff) (P : point) : Prop := bf (fst a) = px P /\ bf (snd a) = py P.

Definition rep_proj (a : proj) (P : point) : Prop :=
  let '(X, Y, Z) := a in
  bf Z <> 0%F /\ bf X = (px P * bf Z)%F /\ bf Y = (py P * bf Z)%F.

Definition of_aff (a : aff) : proj := (fst a, snd a, bone).

(** [R] is the sum of [P] and [Q]. *)
Definition add_check (P Q R : aff) : bool :=
  let '(x1, y1) := P in let '(x2, y2) := Q in let '(x3, y3) := R in
  let s := mulm x1 y2 in let r := mulm x2 y1 in let e := mulm bd (mulm s r) in
  eqm (mulm x3 (addm bone e)) (addm s r) &&
  eqm (mulm y3 (subm bone e)) (addm (mulm y1 y2) (mulm x1 x2)).

Definition dbl (a : proj) : proj :=
  let '(X, Y, Z) := a in
  let xx := mulm X X in let yy := mulm Y Y in let zz := mulm Z Z in let xy := mulm X Y in
  let g := subm yy xx in let f := subm (addm zz zz) g in
  (mulm (addm xy xy) f, mulm (addm yy xx) g, mulm g f).

Definition madd (a : proj) (b : aff) : proj :=
  let '(X, Y, Z) := a in let '(x2, y2) := b in
  let c := mulm X x2 in let e := mulm Y y2 in let zz := mulm Z Z in
  let w := mulm bd (mulm c e) in let f := subm zz w in let g := addm zz w in
  (mulm (mulm Z f) (addm (mulm X y2) (mulm Y x2)), mulm (mulm Z g) (addm e c), mulm f g).

Definition is_aff (a : proj) (b : aff) : bool :=
  let '(X, Y, Z) := a in eqm X (mulm (fst b) Z) && eqm Y (mulm (snd b) Z).

Fixpoint mul_loop (n : positive) (b : aff) : proj :=
  match n with
  | xH => of_aff b
  | xO n' => dbl (mul_loop n' b)
  | xI n' => madd (dbl (mul_loop n' b)) b
  end.

Lemma add_check_sound (P Q R : aff) (A B : point) :
  rep_aff P A -> rep_aff Q B -> add_check P Q R = true -> rep_aff R (gadd A B).
Proof.
  destruct P as [x1 y1], Q as [x2 y2], R as [x3 y3]. intros [Px Py] [Qx Qy]. cbn [fst snd] in Px, Py, Qx, Qy.
  unfold add_check. cbv zeta. intros [Hx Hy]%andb_true_iff.
  apply eqm_sound in Hx, Hy. autorewrite with bf in Hx, Hy. rewrite Px, Py, Qx, Qy in Hx, Hy.
  destruct (Edwards.add_unique p Pocklington.p_prime d i i_square two_nz d_nonsquare
    A B (bf x3) (bf y3)) as [Ex Ey].
  - rewrite <- Hx. ring.
  - rewrite <- Hy. ring.
  - split; cbn [fst snd]; symmetry; [exact Ex | exact Ey].
Qed.

Lemma dbl_spec (a : proj) (P : point) : rep_proj a P -> rep_proj (dbl a) (gadd P P).
Proof.
  destruct a as [[X Y] Z]. intros (Hz & Hx & Hy). unfold dbl. cbv zeta.
  pose proof (Edwards.on_point p d P) as C. unfold Edwards.on_curve in C.
  destruct (completed_sum P P (bf Z * bf Z)%F ((bf X * bf Y) + (bf X * bf Y))%F
    (bf Y * bf Y + bf X * bf X)%F (bf Y * bf Y - bf X * bf X)%F
    (bf Z * bf Z + bf Z * bf Z - (bf Y * bf Y - bf X * bf X))%F) as (H1 & H2 & H3 & H4);
    try (rewrite Hx, Hy; ring [C]); [now apply mul_nz |].
  unfold rep_proj. autorewrite with bf. repeat split.
  - now apply mul_nz.
  - rewrite H3. ring.
  - rewrite H4. ring.
Qed.

Lemma madd_spec (a : proj) (b : aff) (P Q : point) :
  rep_proj a P -> rep_aff b Q -> rep_proj (madd a b) (gadd P Q).
Proof.
  destruct a as [[X Y] Z], b as [x2 y2]. intros (Hz & Hx & Hy) [Qx Qy]. cbn [fst snd] in Qx, Qy.
  unfold madd. cbv zeta.
  destruct (completed_sum P Q (bf Z * bf Z)%F (bf Z * (bf X * bf y2 + bf Y * bf x2))%F
    (bf Z * (bf Y * bf y2 + bf X * bf x2))%F
    (bf Z * bf Z + d * (bf X * bf x2 * (bf Y * bf y2)))%F
    (bf Z * bf Z - d * (bf X * bf x2 * (bf Y * bf y2)))%F) as (H1 & H2 & H3 & H4);
    try (rewrite Hx, Hy, Qx, Qy; ring); [now apply mul_nz |].
  unfold rep_proj. autorewrite with bf. repeat split.
  - now apply mul_nz.
  - match type of H3 with _ = (?u * ?v)%F => transitivity (u * v * (bf Z * bf Z - d * (bf X * bf x2 * (bf Y * bf y2))))%F end;
      [rewrite <- H3; ring | ring].
  - match type of H4 with _ = (?u * ?v)%F => transitivity (u * v * (bf Z * bf Z + d * (bf X * bf x2 * (bf Y * bf y2))))%F end;
      [rewrite <- H4; ring | ring].
Qed.

Lemma of_aff_spec (a : aff) (P : point) : rep_aff a P -> rep_proj (of_aff a) P.
Proof.
  destruct a as [X Y]. intros [Hx Hy]. cbn [fst snd] in Hx, Hy. unfold of_aff. cbn [fst snd].
  unfold rep_proj. rewrite bf_one, Hx, Hy. repeat split; [apply one_nz | ring | ring].
Qed.

Lemma is_aff_sound (a : proj) (b : aff) (P : point) :
  rep_proj a P -> is_aff a b = true -> rep_aff b P.
Proof.
  destruct a as [[X Y] Z], b as [x2 y2]. intros (Hz & Hx & Hy). unfold is_aff. cbn [fst snd].
  intros [Ex Ey]%andb_true_iff. apply eqm_sound in Ex, Ey. autorewrite with bf in Ex, Ey.
  split; cbn [fst snd].
  - rewrite Hx in Ex. symmetry. now apply Zmod.mul_cancel_r_prime in Ex; [| apply Pocklington.p_prime |].
  - rewrite Hy in Ey. symmetry. now apply Zmod.mul_cancel_r_prime in Ey; [| apply Pocklington.p_prime |].
Qed.

Lemma mul_loop_spec (n : positive) (b : aff) (P : point) :
  rep_aff b P -> rep_proj (mul_loop n b) (smul (Zpos n) P).
Proof.
  intros Hb. induction n as [n IH | n IH |]; cbn [mul_loop].
  - replace (Zpos n~1) with (2 * Zpos n + 1) by lia.
    rewrite smul_add, smul_mul, smul_2, smul_1. now apply madd_spec; [apply dbl_spec |].
  - replace (Zpos n~0) with (2 * Zpos n) by lia. rewrite smul_mul, smul_2. now apply dbl_spec.
  - rewrite smul_1. now apply of_aff_spec.
Qed.

(** ** The base point and its order *)

Lemma B_on_curve :
  Edwards.on_curveb p d (el (x ge25519_basepoint)) (el (y ge25519_basepoint)) = true.
Proof. vm_compute. reflexivity. Qed.

Definition B : point :=
  Edwards.Point p d (el (x ge25519_basepoint)) (el (y ge25519_basepoint)) B_on_curve.

Definition aB : aff := Eval vm_compute in
  (BigZ.of_Z (val (x ge25519_basepoint)), BigZ.of_Z (val (y ge25519_basepoint))).

Lemma aB_spec : rep_aff aB B.
Proof.
  split; cbn [fst snd px py B Edwards.px Edwards.py]; unfold bf, el; apply f_equal; vm_compute; reflexivity.
Qed.

Definition azero : aff := (BigZ.of_Z 0, BigZ.of_Z 1).

(** The order of the group of scalars annihilates the base point. *)
Lemma B_order : smul Scalar64.ell B = gzero.
Proof.
  assert (H : is_aff (mul_loop (Z.to_pos Scalar64.ell) aB) azero = true) by (vm_compute; reflexivity).
  apply (is_aff_sound _ _ _ (mul_loop_spec (Z.to_pos Scalar64.ell) aB B aB_spec)) in H.
  rewrite Z2Pos.id in H by (vm_compute; reflexivity). destruct H as [Hx Hy].
  unfold azero in Hx, Hy. cbn [fst snd] in Hx, Hy. rewrite bf_of_Z in Hx, Hy.
  apply Edwards.point_ext; symmetry; [exact Hx | exact Hy].
Qed.

(** ** Chains of multiples *)

Fixpoint check_chain (step prev : aff) (l : list aff) : bool :=
  match l with
  | [] => true
  | r :: l' => add_check prev step r && check_chain step r l'
  end.

Lemma check_chain_spec (step : aff) (m : Z) (l : list aff) (P : point) :
  rep_aff step (smul m P) ->
  forall (prev : aff) (n : Z), rep_aff prev (smul n P) -> check_chain step prev l = true ->
  forall (k : nat) (r : aff), (k < length l)%nat ->
  rep_aff (nth k l r) (smul (n + m * (Z.of_nat k + 1)) P).
Proof.
  intros Hs. induction l as [| r0 l IH]; cbn [check_chain length]; intros prev n Hp H k r Hk; [lia |].
  apply andb_true_iff in H. destruct H as [Ha H].
  pose proof (add_check_sound _ _ _ _ _ Hp Hs Ha) as Hr. rewrite <- smul_add in Hr.
  destruct k as [| k]; cbn [nth].
  - now replace (n + m * (Z.of_nat 0 + 1)) with (n + m) by lia.
  - replace (n + m * (Z.of_nat (S k) + 1)) with (n + m + m * (Z.of_nat k + 1)) by lia.
    apply (IH r0); [exact Hr | exact H | lia].
Qed.

Definition dbl5 (a : proj) : proj := dbl (dbl (dbl (dbl (dbl a)))).

Lemma dbl5_spec (a : proj) (n : Z) (P : point) :
  rep_proj a (smul n P) -> rep_proj (dbl5 a) (smul (32 * n) P).
Proof.
  intros H. unfold dbl5. apply dbl_spec in H. rewrite <- smul_add in H.
  do 4 (apply dbl_spec in H; rewrite <- smul_add in H).
  match type of H with rep_proj _ (smul ?v P) => replace (32 * n) with v by lia end. exact H.
Qed.

(** [n] groups of eight rows; the first row of the first group is [start]. *)
Fixpoint check_groups (n : nat) (start : proj) (rows : list aff) : bool :=
  match n with
  | O => true
  | S n' =>
      match rows with
      | [] => false
      | r0 :: rest =>
          is_aff start r0 && (7 <=? length rest)%nat && check_chain r0 r0 (firstn 7 rest) &&
          check_groups n' (dbl5 (of_aff (nth 6 rest r0))) (skipn 7 rest)
      end
  end.

Lemma check_groups_spec (P : point) (n : nat) :
  forall (start : proj) (rows : list aff) (m : Z),
  rep_proj start (smul m P) -> check_groups n start rows = true ->
  forall (pos k : nat) (r : aff), (pos < n)%nat -> (k < 8)%nat ->
  rep_aff (nth (8 * pos + k) rows r) (smul ((Z.of_nat k + 1) * 256 ^ Z.of_nat pos * m) P).
Proof.
  induction n as [| n IH]; intros start rows m Hs H pos k r Hpos Hk; [lia |].
  cbn [check_groups] in H. destruct rows as [| r0 rest]; [discriminate |].
  apply andb_true_iff in H; destruct H as [H Hnext]. apply andb_true_iff in H; destruct H as [H Hch].
  apply andb_true_iff in H; destruct H as [Ha Hlen]. apply Nat.leb_le in Hlen.
  pose proof (is_aff_sound _ _ _ Hs Ha) as H0.
  assert (Hrow : forall (j : nat) (r' : aff), (j < 8)%nat ->
    rep_aff (nth j (r0 :: rest) r') (smul ((Z.of_nat j + 1) * m) P)).
  { intros [| j] r' Hj; cbn [nth].
    - now replace ((Z.of_nat 0 + 1) * m) with m by lia.
    - pose proof (check_chain_spec _ _ _ _ H0 _ _ H0 Hch j r') as Hc.
      rewrite firstn_length_le in Hc by lia. specialize (Hc ltac:(lia)).
      rewrite nth_firstn in Hc. replace (j <? 7)%nat with true in Hc by (symmetry; apply Nat.ltb_lt; lia).
      now replace ((Z.of_nat (S j) + 1) * m) with (m + m * (Z.of_nat j + 1)) by lia. }
  destruct pos as [| pos].
  - rewrite Nat.mul_0_r, Nat.add_0_l. replace (256 ^ Z.of_nat 0) with 1 by reflexivity.
    rewrite Z.mul_1_r. now apply Hrow.
  - pose proof (Hrow 7%nat r0 ltac:(lia)) as H7. cbn [nth] in H7.
    apply of_aff_spec, dbl5_spec in H7.
    pose proof (IH _ _ _ H7 Hnext pos k r ltac:(lia) Hk) as Hi.
    rewrite nth_skipn in Hi. replace (8 * S pos + k)%nat with (S (7 + (8 * pos + k))) by lia.
    cbn [nth]. match type of Hi with rep_aff _ (smul ?v P) =>
      replace ((Z.of_nat k + 1) * 256 ^ Z.of_nat (S pos) * m) with v; [exact Hi |] end.
    rewrite (Nat2Z.inj_succ pos), Z.pow_succ_r by lia. change (Z.of_nat 7) with 7. ring.
Qed.

(** ** The two tables *)

Definition half : bigZ := Eval vm_compute in BigZ.of_Z ((p + 1) / 2).

Lemma bf_half : (bf half * 2 = 1)%F.
Proof. apply Zmod.unsigned_inj. vm_compute. reflexivity. Qed.

(** The point of a precomputed form, from y - x and y + x. *)
Definition niels_aff (a b : Z) : aff :=
  let a := BigZ.of_Z a in let b := BigZ.of_Z b in
  (mulm (subm b a) half, mulm (addm b a) half).

(** The last column is [k] x y. *)
Definition product_check (k : bigZ) (a b c : Z) : bool :=
  let '(x, y) := niels_aff a b in eqm (BigZ.of_Z c) (mulm k (mulm x y)).

Lemma niels_values (k : bigZ) (a b c : Z) (P : point) :
  rep_aff (niels_aff a b) P -> product_check k a b c = true ->
  fe a = (py P - px P)%F /\ fe b = (py P + px P)%F /\ fe c = (bf k * (px P * py P))%F.
Proof.
  unfold niels_aff, product_check. cbv zeta. intros [Hx Hy] Hc. cbn [fst snd] in Hx, Hy.
  apply eqm_sound in Hc. rewrite bf_of_Z, !bf_mulm in Hc. rewrite !bf_mulm in Hx, Hy.
  rewrite Hx, Hy in Hc. rewrite bf_addm, !bf_of_Z in Hy. rewrite bf_subm, !bf_of_Z in Hx.
  pose proof bf_half as Hh. rewrite <- Hx, <- Hy. repeat split.
  - transitivity (fe a * (bf half * 2))%F; [rewrite Hh; ring | ring].
  - transitivity (fe b * (bf half * 2))%F; [rewrite Hh; ring | ring].
  - rewrite Hc, Hx, Hy. reflexivity.
Qed.

Definition b2 : bigZ := BigZ.of_Z 2.
Definition b2d : bigZ := Eval vm_compute in BigZ.of_Z (val ge25519_ec2d).

Lemma bf_2 : bf b2 = 2%F.
Proof. unfold b2. rewrite bf_of_Z. apply Zmod.unsigned_inj. vm_compute. reflexivity. Qed.

Lemma bf_2d : bf b2d = (2 * d)%F.
Proof. rewrite <- ec2d_spec. unfold bf, el. apply f_equal. vm_compute. reflexivity. Qed.

(** Sliding multiples. *)
Definition sliding_aff : list aff :=
  map (fun q => niels_aff (val (ysubx q)) (val (xaddy q))) ge25519_niels_sliding_multiples.

Definition limbs51 (b : bignum25519) : bool :=
  forallb (fun l => (0 <=? l) && (l <? 2 ^ 51)) [l0 b; l1 b; l2 b; l3 b; l4 b].

Definition sliding_entry (q : ge25519_niels) : bool :=
  product_check b2d (val (ysubx q)) (val (xaddy q)) (val (t2d q)) &&
  limbs51 (ysubx q) && limbs51 (xaddy q) && limbs51 (t2d q).

(** 2B in affine form, by an inversion. *)
Definition a2B : aff := Eval vm_compute in
  let '(X, Y, Z) := dbl (of_aff aB) in
  let zi := Big.pow_loop Z (Z.to_pos (p - 2)) (BigZ.of_Z p) in (mulm X zi, mulm Y zi).

Lemma limbs51_tight (b : bignum25519) : limbs51 b = true -> tight b.
Proof.
  unfold limbs51. cbn [forallb]. rewrite !andb_true_iff, !Z.leb_le, !Z.ltb_lt.
  intros (? & ? & ? & ? & ? & _). unfold tight, limbs_lt. lia.
Qed.

Lemma sliding_checks :
  is_aff (of_aff aB) (nth 0 sliding_aff azero) && add_check aB aB a2B &&
  check_chain a2B aB (skipn 1 sliding_aff) && forallb sliding_entry ge25519_niels_sliding_multiples = true.
Proof. vm_compute. reflexivity. Qed.

Definition base_cols (e : list Z) : Z * Z * Z :=
  (le_val (firstn 32 e), le_val (firstn 32 (skipn 32 e)), le_val (firstn 32 (skipn 64 e))).

Definition base_aff : list aff :=
  map (fun e => let '(a, b, _) := base_cols e in niels_aff a b) ge25519_niels_base_multiples.

Definition base_entry (k : bigZ) (e : list Z) : bool :=
  let '(a, b, c) := base_cols e in
  product_check k a b c && (length e =? 96)%nat &&
  forallb (fun v => (0 <=? v) && (v <? 2 ^ 8)) e &&
  (a <? 2 ^ 255) && (b <? 2 ^ 255) && (c <? 2 ^ 255).

Lemma base_checks :
  check_groups 32 (of_aff aB) base_aff &&
  forallb (base_entry b2) (firstn 8 ge25519_niels_base_multiples) &&
  forallb (base_entry b2d) (skipn 8 ge25519_niels_base_multiples) = true.
Proof. vm_compute. reflexivity. Qed.

Lemma B_aff_1 : rep_aff aB (smul 1 B).
Proof. rewrite smul_1. apply aB_spec. Qed.

Lemma sliding_length : length ge25519_niels_sliding_multiples = 32%nat.
Proof. reflexivity. Qed.

Lemma base_length : length ge25519_niels_base_multiples = 256%nat.
Proof. vm_compute. reflexivity. Qed.

Lemma sliding_aff_spec (k : nat) :
  (k < 32)%nat -> rep_aff (nth k sliding_aff azero) (smul (2 * Z.of_nat k + 1) B).
Proof.
  intros Hk. pose proof sliding_checks as H.
  apply andb_true_iff in H; destruct H as [H _]. apply andb_true_iff in H; destruct H as [H Hc].
  apply andb_true_iff in H; destruct H as [H0 H2].
  pose proof (add_check_sound _ _ _ _ _ B_aff_1 B_aff_1 H2) as H2B.
  rewrite <- smul_add in H2B. change (1 + 1) with 2 in H2B.
  destruct k as [| k].
  - apply (is_aff_sound _ _ _ (of_aff_spec _ _ B_aff_1) H0).
  - pose proof (check_chain_spec _ _ _ _ H2B _ _ B_aff_1 Hc k azero) as Hn.
    assert (L : length sliding_aff = 32%nat) by (unfold sliding_aff; rewrite length_map; reflexivity).
    rewrite length_skipn, L in Hn. specialize (Hn ltac:(lia)). rewrite nth_skipn in Hn.
    replace (2 * Z.of_nat (S k) + 1) with (1 + 2 * (Z.of_nat k + 1)) by lia. exact Hn.
Qed.

(** Entry [k] of the sliding table is (2k+1)B. *)
Lemma sliding_spec (k : nat) (q : ge25519_niels) :
  (k < 32)%nat -> rep_niels (nth k ge25519_niels_sliding_multiples q) (smul (2 * Z.of_nat k + 1) B).
Proof.
  intros Hk. pose proof (sliding_aff_spec k Hk) as Ha. unfold sliding_aff in Ha.
  rewrite nth_indep with (d' := niels_aff (val (ysubx q)) (val (xaddy q))) in Ha
    by (rewrite length_map, sliding_length; exact Hk).
  rewrite map_nth with (d := q) (f := fun q => niels_aff (val (ysubx q)) (val (xaddy q))) in Ha.
  pose proof sliding_checks as H. apply andb_true_iff in H; destruct H as [_ H].
  rewrite forallb_forall in H.
  specialize (H (nth k ge25519_niels_sliding_multiples q)). set (e := nth k _ q) in *.
  assert (Hin : In e ge25519_niels_sliding_multiples) by (apply nth_In; rewrite sliding_length; exact Hk).
  specialize (H Hin). clearbody e. unfold sliding_entry in H. rewrite !andb_true_iff in H.
  destruct H as [[[Hp Hl1] Hl2] Hl3].
  destruct (niels_values _ _ _ _ _ Ha Hp) as (E1 & E2 & E3). rewrite bf_2d in E3.
  split; [auto using limbs51_tight |]. unfold el. rewrite E1, E2, E3.
  repeat split; ring.
Qed.

(** Row [8 pos + k] of the packed table is (k+1) 256^pos B. *)
Lemma base_spec (pos k : nat) :
  (pos < 32)%nat -> (k < 8)%nat ->
  let e := nth (8 * pos + k) ge25519_niels_base_multiples [] in
  let P := smul ((Z.of_nat k + 1) * 256 ^ Z.of_nat pos) B in
  (bytes_ok e /\ length e = 96%nat) /\
  let '(a, b, c) := base_cols e in
  (a < 2 ^ 255 /\ b < 2 ^ 255 /\ c < 2 ^ 255) /\
  fe a = (py P - px P)%F /\ fe b = (py P + px P)%F /\
  fe c = ((if (pos =? 0)%nat then 2 else 2 * d) * (px P * py P))%F.
Proof.
  intros Hpos Hk. pose proof base_checks as H.
  apply andb_true_iff in H; destruct H as [H Hlate]. apply andb_true_iff in H; destruct H as [Hg Hfirst].
  pose proof (check_groups_spec _ _ _ _ _ (of_aff_spec _ _ B_aff_1) Hg pos k azero Hpos Hk) as Ha.
  rewrite Z.mul_1_r in Ha. cbv zeta. set (P := smul _ B) in *. clearbody P. unfold base_aff in Ha.
  set (f := fun e => let '(a, b, _) := base_cols e in niels_aff a b) in Ha.
  rewrite nth_indep with (d' := f []) in Ha by (rewrite length_map, base_length; lia).
  rewrite map_nth in Ha. set (n := (8 * pos + k)%nat) in *.
  assert (He : base_entry (if (pos =? 0)%nat then b2 else b2d)
                 (nth n ge25519_niels_base_multiples []) = true).
  { pose proof base_length as L. rewrite forallb_forall in Hfirst, Hlate.
    destruct (Nat.eqb_spec pos 0) as [-> | Hp0]; [apply Hfirst | apply Hlate].
    - replace (nth n ge25519_niels_base_multiples []) with (nth n (firstn 8 ge25519_niels_base_multiples) []).
      + apply nth_In. rewrite firstn_length_le by lia. lia.
      + rewrite nth_firstn. replace (n <? 8)%nat with true by (symmetry; apply Nat.ltb_lt; lia). reflexivity.
    - replace n with (8 + (n - 8))%nat by lia. rewrite <- nth_skipn.
      apply nth_In. rewrite length_skipn. lia. }
  clear Hfirst Hlate Hg. set (e := nth n _ []) in *. clearbody e. unfold f in Ha. unfold base_entry in He.
  destruct (base_cols e) as [[a b] c]. rewrite !andb_true_iff in He.
  destruct He as [[[[[Hp Hl] Hb] H1] H2] H3].
  split; [split |].
  - unfold bytes_ok. rewrite forallb_forall in Hb. apply Forall_forall. intros v Hv.
    specialize (Hb v Hv). rewrite andb_true_iff, Z.leb_le, Z.ltb_lt in Hb. exact Hb.
  - now apply Nat.eqb_eq.
  - apply Z.ltb_lt in H1, H2, H3. split; [auto |].
    destruct (niels_values _ _ _ _ _ Ha Hp) as (E1 & E2 & E3). split; [exact E1 | split; [exact E2 |]].
    rewrite E3. destruct (pos =? 0)%nat; [now rewrite bf_2 | now rewrite bf_2d].
Qed.

End Tables.
