(* ===== verification/GeMult.v ===== *)
(** * Scalar multiplication: the scalarmults of ed25519-donna-impl-base.h

    [ge25519_double_scalarmult_vartime] walks two sliding-window recodings
    from the top and returns [s1]P + [s2]B; [ge25519_scalarmult_base_niels]
    adds one row of the packed table per radix-16 digit, the odd digits first,
    and returns [s]B.  Both are proved against the integer multiples of
    [Group] in the group of [Edwards], through the recodings of [Modm64] and
    the table of [Tables]. *)

From Stdlib Require Import ZArith List Lia Bool Field Zmod.
Import ListNotations.
From S2P Require Import Prelude Portable Fe64 Modm64 Prime Group Edwards Ge25519 Tables.
Open Scope Z_scope.
Open Scope word_scope.

Module Mult.

Import Donna64 Ge Tables.

(** ** [s1]P + [s2]B *)

Definition S1_SWINDOWSIZE : Z := 5.
Definition S1_TABLE_SIZE : nat := 8.   (* 1 << (S1_SWINDOWSIZE - 2) *)
Definition S2_SWINDOWSIZE : Z := 7.

(** [pre1[1 .. n]], from the last entry computed. *)
Fixpoint pre1_loop (n : nat) (d1 : ge25519) (last : ge25519_pniels) : list ge25519_pniels :=
  match n with
  | O => []
  | S n' => let q := ge25519_pnielsadd d1 last in q :: pre1_loop n' d1 q
  end.

Definition bzero : bignum25519 := bn 0 0 0 0 0.
Definition bone : bignum25519 := bn 1 0 0 0 0.
Definition ge_neutral : ge25519 := mk_ge bzero bone bone bzero.

Definition digit (l : list Z) (k : nat) : Z := nth k l 0.

(** [while ((i >= 0) && !(slide1[i] | slide2[i])) i--]; the argument is [i + 1]. *)
Fixpoint skip_zeros (slide1 slide2 : list Z) (n : nat) : nat :=
  match n with
  | O => O
  | S k => if Z.lor (digit slide1 k) (digit slide2 k) =? 0 then skip_zeros slide1 slide2 k else n
  end.

Definition pniels0 : ge25519_pniels := mk_pniels bzero bzero bzero bzero.
Definition niels0 : ge25519_niels := mk_niels bzero bzero bzero.

(** The body of the main loop at index [k]. *)
Definition ds_step (pre1 : list ge25519_pniels) (slide1 slide2 : list Z) (k : nat) (r : ge25519)
  : ge25519 :=
  let t := ge25519_double_p1p1 r in
  let v := digit slide1 k in
  let '(r, t) :=
    if v =? 0 then (r, t)
    else let r := ge25519_p1p1_to_full t in
         (r, ge25519_pnielsadd_p1p1 r (nth (Z.to_nat (Z.abs v / 2)) pre1 pniels0) (u8 v >>u 7)) in
  let v := digit slide2 k in
  let '(r, t) :=
    if v =? 0 then (r, t)
    else let r := ge25519_p1p1_to_full t in
         (r, ge25519_nielsadd2_p1p1 r
               (nth (Z.to_nat (Z.abs v / 2)) ge25519_niels_sliding_multiples niels0) (u8 v >>u 7)) in
  ge25519_p1p1_to_partial r t.

Fixpoint ds_loop (pre1 : list ge25519_pniels) (slide1 slide2 : list Z) (n : nat) (r : ge25519)
  : ge25519 :=
  match n with
  | O => r
  | S k => ds_loop pre1 slide1 slide2 k (ds_step pre1 slide1 slide2 k r)
  end.

Definition ge25519_double_scalarmult_vartime (p1 : ge25519) (s1 s2 : Scalar64.bignum256modm)
  : ge25519 :=
  let slide1 := Scalar64.contract256_slidingwindow_modm s1 S1_SWINDOWSIZE in
  let slide2 := Scalar64.contract256_slidingwindow_modm s2 S2_SWINDOWSIZE in
  let d1 := ge25519_double p1 in
  let q0 := ge25519_full_to_pniels p1 in
  let pre1 := q0 :: pre1_loop (S1_TABLE_SIZE - 1) d1 q0 in
  ds_loop pre1 slide1 slide2 (skip_zeros slide1 slide2 256) ge_neutral.

(** ** [s]B *)

Definition ge25519_windowb_equal (b c : Z) : Z := u32 (Z.lxor b c - 1) >>u 31.

Definition packed_neutral : list Z := 1 :: repeat 0 31 ++ 1 :: repeat 0 63.

Definition ge25519_scalarmult_base_choose_niels (table : list (list Z)) (pos : nat) (b : Z)
  : ge25519_niels :=
  let sign := u8 b >>u 7 in
  let mask := 2 ^ 32 - 1 - u32 (sign - 1) in
  let u := Z.lxor (u32 (b + mask)) mask in
  let packed := fold_left (fun packed k =>
    curve25519_move_conditional_bytes packed (nth (pos * 8 + k) table [])
      (ge25519_windowb_equal u (Z.of_nat k + 1))) (seq 0 8) packed_neutral in
  let ysubx := curve25519_expand (firstn 32 packed) in
  let xaddy := curve25519_expand (firstn 32 (skipn 32 packed)) in
  let t2d := curve25519_expand (firstn 32 (skipn 64 packed)) in
  let '(ysubx, xaddy) := curve25519_swap_conditional ysubx xaddy sign in
  let neg := curve25519_neg t2d in
  let '(t2d, neg) := curve25519_swap_conditional t2d neg sign in
  mk_niels ysubx xaddy t2d.

(** The indices 3, 5, ..., 63 and 2, 4, ..., 62 of the two loops. *)
Definition odd_indices : list nat := map (fun k => (2 * k + 3)%nat) (seq 0 31).
Definition even_indices : list nat := map (fun k => (2 * k + 2)%nat) (seq 0 31).

Definition add_digits (table : list (list Z)) (b : list Z) (idx : list nat) (r : ge25519) : ge25519 :=
  fold_left (fun r k => ge25519_nielsadd2 r
    (ge25519_scalarmult_base_choose_niels table (k / 2) (digit b k))) idx r.

Definition ge25519_scalarmult_base_niels (basepoint_table : list (list Z))
  (s : Scalar64.bignum256modm) : ge25519 :=
  let b := Scalar64.contract256_window4_modm s in
  let t0 := ge25519_scalarmult_base_choose_niels basepoint_table 0 (digit b 1) in
  let r := mk_ge (curve25519_sub_reduce (xaddy t0) (ysubx t0))
                 (curve25519_add_reduce (xaddy t0) (ysubx t0))
                 (bn 2 0 0 0 0) (curve25519_copy (t2d t0)) in
  let r := add_digits basepoint_table b odd_indices r in
  let r := ge25519_double_partial r r in
  let r := ge25519_double_partial r r in
  let r := ge25519_double_partial r r in
  let r := ge25519_double r in
  let t0 := ge25519_scalarmult_base_choose_niels basepoint_table 0 (digit b 0) in
  let t0 := mk_niels (ysubx t0) (xaddy t0) (curve25519_mul (t2d t0) ge25519_ecd) in
  let r := ge25519_nielsadd2 r t0 in
  add_digits basepoint_table b even_indices r.

(** ** The table of odd multiples of P *)

Lemma pre1_loop_spec (n : nat) (d1 : ge25519) (P : point) :
  rep_full d1 (smul 2 P) ->
  forall (last : ge25519_pniels) (m : Z), rep_pniels last (smul m P) ->
  forall (k : nat) (q : ge25519_pniels), (k < n)%nat ->
  rep_pniels (nth k (pre1_loop n d1 last) q) (smul (m + 2 * (Z.of_nat k + 1)) P).
Proof.
  intros Hd. induction n as [| n IH]; intros last m Hl k q Hk; [lia |]. cbn [pre1_loop].
  pose proof (pnielsadd_spec _ _ _ _ Hd Hl) as H. rewrite <- smul_add in H.
  destruct k as [| k]; cbn [nth].
  - now replace (m + 2 * (Z.of_nat 0 + 1)) with (2 + m) by lia.
  - replace (m + 2 * (Z.of_nat (S k) + 1)) with (2 + m + 2 * (Z.of_nat k + 1)) by lia.
    apply IH; [exact H | lia].
Qed.

(** Entry |v|/2 of a table of odd multiples, taken with the sign of v. *)
Lemma odd_index (m v : Z) : 0 <= m <= 63 -> v <> 0 -> Scalar64.slide_digit m v ->
  let k := Z.to_nat (Z.abs v / 2) in
  2 * Z.of_nat k + 1 = Z.abs v /\ Z.abs v <= m /\
  (u8 v >>u 7 = 0 /\ 0 < v \/ u8 v >>u 7 = 1 /\ v < 0).
Proof.
  intros Hm Hv [-> | [Ho Hr]]; [lia |]. cbv zeta.
  assert (Hk : exists k, 0 <= k /\ Z.abs v = k * 2 + 1).
  { apply Z.odd_spec in Ho. destruct Ho as [j Hj].
    destruct (Z.le_gt_cases 0 j); [exists j | exists (- j - 1)]; lia. }
  destruct Hk as (k & Hk & Ek). rewrite Ek at 1. rewrite Z.div_add_l, Z.add_0_r by lia.
  rewrite Z2Nat.id by lia. split; [lia | split; [lia |]]. rewrite shiftr_div by lia.
  destruct (Z.le_gt_cases 0 v); [left | right]; split; try lia.
  - rewrite u8_small, Z.div_small by lia. reflexivity.
  - unfold u8. replace v with (v + 256 + (-1) * 2 ^ 8) by lia.
    rewrite Z.mod_add, Z.mod_small by lia. symmetry. apply Z.div_unique with (v + 128); lia.
Qed.

Lemma signed_odd (s v : Z) (P : point) :
  s = 0 /\ 0 < v \/ s = 1 /\ v < 0 -> signed_point s (smul (Z.abs v) P) = smul v P.
Proof.
  intros [[-> H] | [-> H]]; unfold signed_point; cbn [Z.eqb].
  - now rewrite Z.abs_eq by lia.
  - rewrite Z.abs_neq, smul_opp by lia. apply gopp_opp.
Qed.

(** ** The main loop *)

Section DoubleScalar.
Context (P : point) (pre1 : list ge25519_pniels) (slide1 slide2 : list Z).
Context (Hpre : forall k, (k < 8)%nat -> rep_pniels (nth k pre1 pniels0) (smul (2 * Z.of_nat k + 1) P)).
Context (H1 : Forall (Scalar64.slide_digit 15) slide1) (H2 : Forall (Scalar64.slide_digit 63) slide2).

Lemma digit_ok (m : Z) (l : list Z) (k : nat) :
  Forall (Scalar64.slide_digit m) l -> Scalar64.slide_digit m (digit l k).
Proof.
  intros H. unfold digit. destruct (Nat.lt_ge_cases k (length l)) as [Hk | Hk].
  - rewrite Forall_forall in H. now apply H, nth_In.
  - rewrite nth_overflow by exact Hk. now left.
Qed.

Lemma sign_bit (s v : Z) : s = 0 /\ 0 < v \/ s = 1 /\ v < 0 -> s = 0 \/ s = 1.
Proof. lia. Qed.

(** One iteration doubles and adds the two digits. *)
Lemma ds_step_spec (k : nat) (r : ge25519) (R : point) :
  rep_partial r R ->
  rep_partial (ds_step pre1 slide1 slide2 k r)
    (gadd (gadd (gadd R R) (smul (digit slide1 k) P)) (smul (digit slide2 k) B)).
Proof.
  intros Hr. unfold ds_step. apply double_p1p1_spec in Hr.
  set (t := ge25519_double_p1p1 r) in *. clearbody t.
  pose proof (digit_ok 15 slide1 k H1) as D1. pose proof (digit_ok 63 slide2 k H2) as D2.
  set (v1 := digit slide1 k) in *. set (v2 := digit slide2 k) in *. clearbody v1 v2.
  match goal with |- rep_partial (let '(_, _) := ?e in _) _ =>
    assert (Ht : rep_p1p1 (snd e) (gadd (gadd R R) (smul v1 P))) end.
  { destruct (Z.eqb_spec v1 0) as [-> | Hv]; cbn [snd].
    - now rewrite smul_0, gadd_0_r.
    - destruct (odd_index 15 v1 ltac:(lia) Hv D1) as (Ek & Hm & Hs).
      set (j := Z.to_nat (Z.abs v1 / 2)) in *. clearbody j.
      rewrite <- (signed_odd _ _ P Hs). apply pnielsadd_p1p1_spec.
      + now apply sign_bit in Hs.
      + apply p1p1_to_full_spec, Hr.
      + rewrite <- Ek. apply Hpre. lia. }
  destruct (if v1 =? 0 then _ else _) as [r1 t1]. cbn [snd] in Ht. clear Hr t.
  match goal with |- rep_partial (let '(_, _) := ?e in _) _ =>
    assert (Ht2 : rep_p1p1 (snd e) (gadd (gadd (gadd R R) (smul v1 P)) (smul v2 B))) end.
  { destruct (Z.eqb_spec v2 0) as [-> | Hv]; cbn [snd].
    - now rewrite smul_0, gadd_0_r.
    - destruct (odd_index 63 v2 ltac:(lia) Hv D2) as (Ek & Hm & Hs).
      set (j := Z.to_nat (Z.abs v2 / 2)) in *. clearbody j.
      rewrite <- (signed_odd _ _ B Hs). apply nielsadd2_p1p1_spec.
      + now apply sign_bit in Hs.
      + apply p1p1_to_full_spec, Ht.
      + rewrite <- Ek. apply sliding_spec. lia. }
  destruct (if v2 =? 0 then _ else _) as [r2 t2]. cbn [snd] in Ht2.
  now apply p1p1_to_partial_spec.
Qed.

(** What the digits from index [n] up stand for. *)
Definition top (l : list Z) (n : nat) : Z := digits_val 2 (skipn n l).

Lemma top_step (l : list Z) (k : nat) : top l k = digit l k + 2 * top l (S k).
Proof.
  unfold top, digit. revert l. induction k as [| k IH]; intros [| v l];
    cbn [skipn nth digits_val]; auto.
Qed.

Lemma ds_loop_spec (n : nat) (r : ge25519) :
  rep_partial r (gadd (smul (top slide1 n) P) (smul (top slide2 n) B)) ->
  rep_partial (ds_loop pre1 slide1 slide2 n r) (gadd (smul (top slide1 0) P) (smul (top slide2 0) B)).
Proof.
  revert r. induction n as [| k IH]; intros r Hr; cbn [ds_loop]; [exact Hr |].
  apply IH. apply (ds_step_spec k) in Hr.
  rewrite (top_step slide1 k), (top_step slide2 k), !smul_horner, !smul_2.
  set (A := smul (top slide1 (S k)) P) in *. set (C := smul (top slide2 (S k)) B) in *.
  set (a := smul (digit slide1 k) P) in *. set (c := smul (digit slide2 k) B) in *.
  rewrite (gadd_shuffle (gadd A A) a (gadd C C) c), gadd_assoc.
  now rewrite (gadd_shuffle A C A C) in Hr.
Qed.

Lemma skip_zeros_spec (n : nat) (Hn : top slide1 n = 0 /\ top slide2 n = 0) :
  let k := skip_zeros slide1 slide2 n in top slide1 k = 0 /\ top slide2 k = 0.
Proof.
  induction n as [| n IH]; cbn [skip_zeros]; [exact Hn |].
  destruct (Z.eqb_spec (Z.lor (digit slide1 n) (digit slide2 n)) 0) as [E | E]; [| exact Hn].
  apply Z.lor_eq_0_iff in E. destruct E as [E1 E2]. apply IH.
  rewrite (top_step slide1 n), (top_step slide2 n), E1, E2. destruct Hn as [-> ->]. auto.
Qed.

End DoubleScalar.

Lemma neutral_spec : rep_partial ge_neutral gzero.
Proof.
  assert (E0 : el bzero = 0%F) by reflexivity. assert (E1 : el bone = 1%F) by reflexivity.
  assert (B0 : tight bzero) by (unfold tight, limbs_lt, bzero; cbn [l0 l1 l2 l3 l4]; lia).
  assert (B1 : tight bone) by (unfold tight, limbs_lt, bone; cbn [l0 l1 l2 l3 l4]; lia).
  unfold rep_partial, ge_neutral. cbn [x y z t]. rewrite E0, E1.
  change (px gzero) with 0%F. change (py gzero) with 1%F.
  refine (conj (conj B0 (conj B1 B1)) (conj one_nz (conj _ _))); ring.
Qed.

(** The loops over any two recodings with digits in range. *)
Lemma ds_recoded (p1 : ge25519) (P : point) (slide1 slide2 : list Z) (n : nat) :
  rep_full p1 P ->
  Forall (Scalar64.slide_digit 15) slide1 -> Forall (Scalar64.slide_digit 63) slide2 ->
  (length slide1 <= n)%nat -> (length slide2 <= n)%nat ->
  let q0 := ge25519_full_to_pniels p1 in
  rep_partial (ds_loop (q0 :: pre1_loop (S1_TABLE_SIZE - 1) (ge25519_double p1) q0) slide1 slide2
                 (skip_zeros slide1 slide2 n) ge_neutral)
    (gadd (smul (top slide1 0) P) (smul (top slide2 0) B)).
Proof.
  intros Hp F1 F2 N1 N2 q0. apply (ds_loop_spec P); [| exact F1 | exact F2 |].
  - intros [| k] Hk; cbn [nth].
    + rewrite smul_1. now apply full_to_pniels_spec.
    + replace (2 * Z.of_nat (S k) + 1) with (1 + 2 * (Z.of_nat k + 1)) by lia.
      apply pre1_loop_spec; [| | unfold S1_TABLE_SIZE; lia].
      * rewrite smul_2. apply double_spec, Hp.
      * rewrite smul_1. now apply full_to_pniels_spec.
  - destruct (skip_zeros_spec slide1 slide2 n) as [E1 E2].
    + unfold top. rewrite !skipn_all2 by lia. auto.
    + rewrite E1, E2, !smul_0, gadd_0_l. apply neutral_spec.
Qed.

Lemma recoding (s : Scalar64.bignum256modm) (w : nat) : (2 <= w <= 7)%nat -> Scalar64.reduced s ->
  let l := Scalar64.contract256_slidingwindow_modm s (Z.of_nat w) in
  top l 0 = Scalar64.val s /\ (length l <= 256)%nat /\
  Forall (Scalar64.slide_digit (2 ^ (Z.of_nat w - 1) - 1)) l.
Proof.
  intros Hw [L V] l. assert (Hell : Scalar64.ell < 2 ^ 253) by (vm_compute; reflexivity).
  destruct (Scalar64.slidingwindow_spec s w Hw L) as (E & N & F0); [lia |].
  fold l in E, N, F0. clearbody l. unfold top. cbn [skipn]. repeat split; [exact E | lia | exact F0].
Qed.

Lemma double_scalarmult_spec (p1 : ge25519) (P : point) (s1 s2 : Scalar64.bignum256modm) :
  rep_full p1 P -> Scalar64.reduced s1 -> Scalar64.reduced s2 ->
  rep_partial (ge25519_double_scalarmult_vartime p1 s1 s2)
    (gadd (smul (Scalar64.val s1) P) (smul (Scalar64.val s2) B)).
Proof.
  intros Hp R1 R2. unfold ge25519_double_scalarmult_vartime, S1_SWINDOWSIZE, S2_SWINDOWSIZE. cbv zeta.
  destruct (recoding s1 5 ltac:(lia) R1) as (E1 & N1 & F1).
  destruct (recoding s2 7 ltac:(lia) R2) as (E2 & N2 & F2).
  change (Z.of_nat 5) with 5 in *. change (Z.of_nat 7) with 7 in *.
  change (2 ^ (5 - 1) - 1) with 15 in F1. change (2 ^ (7 - 1) - 1) with 63 in F2.
  rewrite <- E1, <- E2. now apply ds_recoded.
Qed.

(** ** Choosing a row of the packed table *)

(** A precomputed form whose last column is [k] x y. *)
Definition rep_cols (k : F) (q : ge25519_niels) (P : point) : Prop :=
  (tight (ysubx q) /\ tight (xaddy q) /\ tight (t2d q)) /\
  el (ysubx q) = (py P - px P)%F /\ el (xaddy q) = (py P + px P)%F /\
  el (t2d q) = (k * (px P * py P))%F.

Definition column_factor (pos : nat) : F := (if (pos =? 0)%nat then 2 else 2 * d)%F.

Definition rep_packed (k : F) (e : list Z) (P : point) : Prop :=
  (bytes_ok e /\ length e = 96%nat) /\
  let '(a, b, c) := base_cols e in
  (a < 2 ^ 255 /\ b < 2 ^ 255 /\ c < 2 ^ 255) /\
  fe a = (py P - px P)%F /\ fe b = (py P + px P)%F /\ fe c = (k * (px P * py P))%F.

Lemma neutral_packed (k : F) : rep_packed k packed_neutral gzero.
Proof.
  split; [split; [repeat constructor; lia | reflexivity] |].
  change (base_cols packed_neutral) with (1, 1, 0). cbv beta iota.
  change (px gzero) with 0%F. change (py gzero) with 1%F.
  change (fe 1) with 1%F. change (fe 0) with 0%F. repeat split; ring.
Qed.

Lemma column_spec (e : list Z) (n : nat) :
  bytes_ok e -> length e = 96%nat -> (n = 0 \/ n = 32 \/ n = 64)%nat ->
  let c := le_val (firstn 32 (skipn n e)) in c < 2 ^ 255 ->
  tight (curve25519_expand (firstn 32 (skipn n e))) /\
  el (curve25519_expand (firstn 32 (skipn n e))) = fe c.
Proof.
  intros He Le Hn c Hc.
  assert (Hb : bytes_ok (firstn 32 (skipn n e))) by auto with bytes.
  assert (Hl : length (firstn 32 (skipn n e)) = 32%nat)
    by (rewrite length_firstn, length_skipn; lia).
  split; [now apply expand_tight |]. unfold el. rewrite (proj2 (expand_spec _ Hb Hl)).
  rewrite Z.mod_small; [reflexivity |]. pose proof (le_val_range _ Hb). fold c in H |- *. lia.
Qed.

(** The conditional moves keep the row whose flag is set, or what was there. *)
Lemma moves_spec (g : nat -> Z) (f : nat -> bool) (row : nat -> list Z) (ks : list nat) :
  (forall k, In k ks -> g k = Z.b2z (f k) /\ bytes_ok (row k) /\ length (row k) = 96%nat) ->
  forall acc, bytes_ok acc -> length acc = 96%nat ->
  fold_left (fun acc k => curve25519_move_conditional_bytes acc (row k) (g k)) ks acc =
  fold_left (fun acc k => if f k then row k else acc) ks acc.
Proof.
  induction ks as [| k ks IH]; intros Hr acc Ha La; cbn [fold_left]; [reflexivity |].
  destruct (Hr k (or_introl eq_refl)) as (Hg & Hb & Hl).
  rewrite Hg, move_conditional_bytes_spec by assumption.
  apply IH; [intros j Hj; apply Hr; now right | now destruct (f k) | now destruct (f k)].
Qed.

Definition small_digits : list Z := [-8; -7; -6; -5; -4; -3; -2; -1; 0; 1; 2; 3; 4; 5; 6; 7; 8].

Lemma small_digit (b : Z) : - 8 <= b <= 8 -> In b small_digits.
Proof. unfold small_digits. cbn [In]. lia. Qed.

(** The masked arithmetic computes the sign and the absolute value. *)
Lemma digit_split (b : Z) : - 8 <= b <= 8 ->
  let sign := u8 b >>u 7 in
  let mask := 2 ^ 32 - 1 - u32 (sign - 1) in
  sign = Z.b2z (b <? 0) /\ Z.lxor (u32 (b + mask)) mask = Z.abs b.
Proof.
  intros Hb. apply small_digit in Hb.
  assert (H : forallb (fun b => ((u8 b >>u 7) =? Z.b2z (b <? 0)) &&
    (Z.lxor (u32 (b + (2 ^ 32 - 1 - u32 ((u8 b >>u 7) - 1)))) (2 ^ 32 - 1 - u32 ((u8 b >>u 7) - 1))
     =? Z.abs b)) small_digits = true) by (vm_compute; reflexivity).
  rewrite forallb_forall in H. specialize (H b Hb). rewrite andb_true_iff, !Z.eqb_eq in H. exact H.
Qed.

Lemma windowb_equal_spec (u : Z) (k : nat) : 0 <= u <= 8 -> (k < 8)%nat ->
  ge25519_windowb_equal u (Z.of_nat k + 1) = Z.b2z (u =? Z.of_nat k + 1).
Proof.
  intros Hu Hk.
  assert (H : forallb (fun u => forallb (fun k =>
    ge25519_windowb_equal u (Z.of_nat k + 1) =? Z.b2z (u =? Z.of_nat k + 1)) (seq 0 8))
    [0; 1; 2; 3; 4; 5; 6; 7; 8] = true) by (vm_compute; reflexivity).
  rewrite forallb_forall in H. specialize (H u ltac:(cbn [In]; lia)).
  rewrite forallb_forall in H. specialize (H k ltac:(apply in_seq; lia)). now apply Z.eqb_eq in H.
Qed.

(** The row the loop ends with: the [u]-th of the group, or the neutral row. *)
Lemma chosen_row (pos : nat) (u : Z) : (pos < 32)%nat -> 0 <= u <= 8 ->
  rep_packed (column_factor pos)
    (fold_left (fun packed k =>
       curve25519_move_conditional_bytes packed (nth (pos * 8 + k) ge25519_niels_base_multiples [])
         (ge25519_windowb_equal u (Z.of_nat k + 1))) (seq 0 8) packed_neutral)
    (smul (u * 256 ^ Z.of_nat pos) B).
Proof.
  intros Hpos Hu.
  assert (Hrows : forall k, (k < 8)%nat ->
    rep_packed (column_factor pos) (nth (pos * 8 + k) ge25519_niels_base_multiples [])
      (smul ((Z.of_nat k + 1) * 256 ^ Z.of_nat pos) B)).
  { intros k Hk. rewrite Nat.mul_comm. apply (base_spec pos k Hpos Hk). }
  rewrite (moves_spec (fun k => ge25519_windowb_equal u (Z.of_nat k + 1))
    (fun k => u =? Z.of_nat k + 1) (fun k => nth (pos * 8 + k) ge25519_niels_base_multiples [])).
  - assert (Hin : In u [0; 1; 2; 3; 4; 5; 6; 7; 8]) by (cbn [In]; lia). cbn [In] in Hin.
    repeat (destruct Hin as [<- | Hin];
      [cbn [seq fold_left Z.eqb Pos.eqb Z.of_nat Pos.of_succ_nat Pos.succ Z.add Pos.add];
       first [rewrite Z.mul_0_l, smul_0; apply neutral_packed | apply Hrows; lia] |]).
    contradiction.
  - intros k Hk%in_seq. split; [apply windowb_equal_spec; lia |]. apply Hrows. lia.
  - apply (neutral_packed 1%F).
  - apply (neutral_packed 1%F).
Qed.

Lemma choose_spec (pos : nat) (b : Z) : (pos < 32)%nat -> - 8 <= b <= 8 ->
  rep_cols (column_factor pos)
    (ge25519_scalarmult_base_choose_niels ge25519_niels_base_multiples pos b)
    (smul (b * 256 ^ Z.of_nat pos) B).
Proof.
  intros Hpos Hb. unfold ge25519_scalarmult_base_choose_niels. cbv zeta.
  destruct (digit_split b Hb) as [Hs Hu]. cbv zeta in Hu. rewrite Hu, Hs.
  destruct (chosen_row pos (Z.abs b) Hpos ltac:(lia)) as [[He Le] Hc].
  set (e := fold_left _ _ packed_neutral) in *. clearbody e. unfold base_cols in Hc.
  destruct Hc as ((Ha & Hx & Ht) & Ea & Ex & Et).
  destruct (column_spec e 0 He Le ltac:(lia) Ha) as [Ba Fa].
  destruct (column_spec e 32 He Le ltac:(lia) Hx) as [Bx Fx].
  destruct (column_spec e 64 He Le ltac:(lia) Ht) as [Bt Ft]. change (skipn 0 e) with e in *.
  rewrite Ea in Fa. rewrite Ex in Fx. rewrite Et in Ft. clear Ea Ex Et Ha Hx Ht He Le.
  set (a := curve25519_expand (firstn 32 e)) in *. set (c := curve25519_expand (firstn 32 (skipn 32 e))) in *.
  set (t' := curve25519_expand (firstn 32 (skipn 64 e))) in *. clearbody a c t'.
  destruct (el_neg _ t' Bt ltac:(lia)) as [Bn Fn]. set (n := curve25519_neg t') in *. clearbody n.
  assert (W : forall v, tight v -> limbs_lt (2 ^ 64) v) by (intros v; apply limbs_lt_le; lia).
  rewrite !swap_conditional_spec by (apply W; assumption).
  destruct (Z.ltb_spec b 0) as [Hneg | Hpos'].
  - replace (b * 256 ^ Z.of_nat pos) with (- (Z.abs b * 256 ^ Z.of_nat pos)) by (rewrite Z.abs_neq by lia; ring).
    rewrite smul_opp. set (Q := smul (Z.abs b * _) B) in *. clearbody Q.
    split; [exact (conj Bx (conj Ba Bn)) |]. cbn [ysubx xaddy t2d]. rewrite px_opp, py_opp, Fa, Fx, Fn, Ft.
    repeat split; ring.
  - replace (Z.abs b) with b in * by lia. split; [exact (conj Ba (conj Bx Bt)) |].
    cbn [ysubx xaddy t2d]. auto.
Qed.

Lemma rep_cols_niels (q : ge25519_niels) (P : point) : rep_cols (2 * d)%F q P -> rep_niels q P.
Proof.
  intros (Hb & E1 & E2 & E3). split; [exact Hb |]. rewrite E1, E2, E3. repeat split; ring.
Qed.

(** ** Sums over the digits *)

(** The value the digits at the listed indices contribute. *)
Definition weight (b : list Z) (idx : list nat) : Z :=
  fold_right (fun k acc => digit b k * 256 ^ Z.of_nat (k / 2) + acc) 0 idx.

Lemma add_digits_spec (b : list Z) (idx : list nat) :
  (forall k, - 8 <= digit b k <= 8) -> Forall (fun k => (2 <= k < 64)%nat) idx ->
  forall (r : ge25519) (n : Z), rep_full r (smul n B) ->
  rep_full (add_digits ge25519_niels_base_multiples b idx r) (smul (n + weight b idx) B).
Proof.
  intros Hb Hi. unfold add_digits.
  induction Hi as [| k idx Hk Hi IH]; intros r n Hr; cbn [fold_left weight fold_right].
  - now rewrite Z.add_0_r.
  - replace (n + (digit b k * 256 ^ Z.of_nat (k / 2) + fold_right _ 0 idx))
      with (n + digit b k * 256 ^ Z.of_nat (k / 2) + weight b idx) by (unfold weight; lia).
    apply IH. rewrite smul_add. apply nielsadd2_spec; [exact Hr |].
    assert (Hlt : (k / 2 < 32)%nat) by (apply Nat.Div0.div_lt_upper_bound; lia).
    assert (Hge : (1 <= k / 2)%nat) by (apply Nat.div_le_lower_bound; lia).
    apply rep_cols_niels. pose proof (choose_spec (k / 2) (digit b k) Hlt (Hb k)) as H.
    unfold column_factor in H. destruct (Nat.eqb_spec (k / 2) 0); [lia | exact H].
Qed.

Definition sum256 (f : nat -> Z) (ks : list nat) : Z :=
  fold_right (fun k acc => f k * 256 ^ Z.of_nat k + acc) 0 ks.

Lemma sum256_ext (f g : nat -> Z) (ks : list nat) :
  (forall k, f k = g k) -> sum256 f ks = sum256 g ks.
Proof.
  intros E. unfold sum256. induction ks as [| k ks IH]; cbn [fold_right]; [reflexivity |].
  now rewrite IH, E.
Qed.

Lemma sum256_shift (f : nat -> Z) (n : nat) :
  sum256 f (seq 0 (S n)) = f 0%nat + 256 * sum256 (fun k => f (S k)) (seq 0 n).
Proof.
  cbn [seq sum256 fold_right]. rewrite <- seq_shift. change (256 ^ Z.of_nat 0) with 1.
  assert (H : forall ks, fold_right (fun k acc => f k * 256 ^ Z.of_nat k + acc) 0 (map S ks) =
    256 * sum256 (fun k => f (S k)) ks).
  { induction ks as [| k ks IH]; cbn [map fold_right sum256]; [reflexivity |].
    rewrite IH, Nat2Z.inj_succ, Z.pow_succ_r by lia. unfold sum256. ring. }
  rewrite H. ring.
Qed.

(** Radix-16 digits in pairs. *)
Lemma paired_digits (n : nat) : forall b, length b = (2 * n)%nat ->
  digits_val 16 b =
  sum256 (fun k => digit b (2 * k)) (seq 0 n) + 16 * sum256 (fun k => digit b (2 * k + 1)) (seq 0 n).
Proof.
  induction n as [| n IH]; intros b Hb.
  - destruct b; [reflexivity | discriminate].
  - destruct b as [| u [| v b]]; try (cbn in Hb; lia). cbn [digits_val].
    rewrite (IH b) by (cbn in Hb; lia). rewrite !sum256_shift.
    rewrite (sum256_ext (fun k => digit (u :: v :: b) (2 * S k)) (fun k => digit b (2 * k))),
      (sum256_ext (fun k => digit (u :: v :: b) (2 * S k + 1)) (fun k => digit b (2 * k + 1))).
    + change (digit (u :: v :: b) (2 * 0)) with u. change (digit (u :: v :: b) (2 * 0 + 1)) with v. ring.
    + intros k. replace (2 * S k + 1)%nat with (S (S (2 * k + 1))) by lia. reflexivity.
    + intros k. replace (2 * S k)%nat with (S (S (2 * k))) by lia. reflexivity.
Qed.

Lemma weight_shift (b : list Z) (c : nat) (ks : list nat) : (c < 2)%nat ->
  weight b (map (fun k => 2 * k + (2 + c))%nat ks) = 256 * sum256 (fun k => digit b (2 * S k + c)) ks.
Proof.
  intros Hc. induction ks as [| k ks IH]; cbn [map weight fold_right sum256]; [reflexivity |].
  unfold weight, sum256 in IH. rewrite IH.
  replace ((2 * k + (2 + c)) / 2)%nat with (S k)
    by (apply Nat.div_unique with c; lia).
  rewrite Nat2Z.inj_succ, Z.pow_succ_r by lia.
  replace (2 * S k + c)%nat with (2 * k + (2 + c))%nat by lia. ring.
Qed.

(** Sixty-four radix-16 digits, the odd ones apart. *)
Lemma split_digits (b : list Z) : length b = 64%nat ->
  digits_val 16 b =
  16 * (digit b 1 + weight b odd_indices) + (digit b 0 + weight b even_indices).
Proof.
  intros H. rewrite (paired_digits 32 b H). unfold odd_indices, even_indices.
  rewrite (sum256_shift (fun k => digit b (2 * k)) 31), (sum256_shift (fun k => digit b (2 * k + 1)) 31).
  pose proof (weight_shift b 1 (seq 0 31) ltac:(lia)) as E1.
  pose proof (weight_shift b 0 (seq 0 31) ltac:(lia)) as E0.
  cbn [Nat.add] in E0, E1. rewrite E1, E0.
  rewrite (sum256_ext (fun k => digit b (2 * S k + 0)) (fun k => digit b (2 * S k)))
    by (intros k; now rewrite Nat.add_0_r).
  change (2 * 0)%nat with 0%nat. change (0 + 1)%nat with 1%nat. ring.
Qed.

(** ** [s]B, by the packed table *)

(** The starting point of the loop: twice the chosen row, over 2. *)
Lemma start_spec (q : ge25519_niels) (P : point) :
  rep_cols 2%F q P ->
  rep_full (mk_ge (curve25519_sub_reduce (xaddy q) (ysubx q))
                  (curve25519_add_reduce (xaddy q) (ysubx q))
                  (bn 2 0 0 0 0) (curve25519_copy (t2d q))) P.
Proof.
  intros ((Ba & Bx & Bt) & Ea & Ex & Et). unfold tight in Ba, Bx, Bt. rewrite copy_id.
  assert (B2 : limbs_lt (2 ^ 51) (bn 2 0 0 0 0)) by (unfold limbs_lt; cbn [l0 l1 l2 l3 l4]; lia).
  assert (E2 : el (bn 2 0 0 0 0) = 2%F) by (apply Zmod.unsigned_inj; vm_compute; reflexivity).
  fe_run; fe_subst.
  - repeat split; [exact two_nz | ring | ring].
  - ring.
Qed.

Lemma times_ecd_spec (q : ge25519_niels) (P : point) :
  rep_cols 2%F q P ->
  rep_niels (mk_niels (ysubx q) (xaddy q) (curve25519_mul (t2d q) ge25519_ecd)) P.
Proof.
  intros ((Ba & Bx & Bt) & Ea & Ex & Et). unfold tight in Ba, Bx, Bt. pose proof ecd_tight as Bd.
  assert (Ed : el ge25519_ecd = d) by reflexivity.
  fe_run. fe_subst. repeat split; ring.
Qed.

Lemma odd_range : Forall (fun k => (2 <= k < 64)%nat) odd_indices.
Proof. unfold odd_indices. cbn [seq map]. repeat constructor; lia. Qed.

Lemma even_range : Forall (fun k => (2 <= k < 64)%nat) even_indices.
Proof. unfold even_indices. cbn [seq map]. repeat constructor; lia. Qed.

Lemma double_twice_spec (r0 r : ge25519) (n : Z) :
  rep_partial r (smul n B) -> rep_partial (ge25519_double_partial r0 r) (smul (2 * n) B).
Proof. intros H. rewrite smul_mul, smul_2. now apply double_partial_spec. Qed.

Lemma scalarmult_base_spec (s : Scalar64.bignum256modm) :
  Scalar64.limbs (2 ^ 32) s -> Scalar64.val s < 2 ^ 255 ->
  rep_full (ge25519_scalarmult_base_niels ge25519_niels_base_multiples s)
    (smul (Scalar64.val s) B).
Proof.
  intros Hl Hv. destruct (Scalar64.window4_spec s Hl Hv) as (<- & Hn & Hr).
  unfold ge25519_scalarmult_base_niels. cbv zeta.
  set (b := Scalar64.contract256_window4_modm s) in *. clearbody b.
  assert (Hd : forall k, - 8 <= digit b k <= 8).
  { intros k. unfold digit. destruct (Nat.lt_ge_cases k (length b)) as [Hk | Hk].
    - rewrite Forall_forall in Hr. now apply Hr, nth_In.
    - rewrite nth_overflow by exact Hk. lia. }
  assert (H0 : forall k, rep_cols 2%F
    (ge25519_scalarmult_base_choose_niels ge25519_niels_base_multiples 0 (digit b k)) (smul (digit b k) B)).
  { intros k. pose proof (choose_spec 0 (digit b k) ltac:(lia) (Hd k)) as H.
    change (256 ^ Z.of_nat 0) with 1 in H. rewrite Z.mul_1_r in H. exact H. }
  rewrite (split_digits b Hn), Z.add_assoc.
  apply add_digits_spec; [exact Hd | apply even_range |].
  rewrite smul_add. apply nielsadd2_spec; [| apply times_ecd_spec, H0].
  change 16 with (2 * (2 * (2 * 2))). rewrite <- !Z.mul_assoc, (smul_mul 2), smul_2.
  apply double_spec. do 3 apply double_twice_spec.
  apply (add_digits_spec b odd_indices Hd odd_range), start_spec, H0.
Qed.

End Mult.
