(* ===== verification/Ed25519.v ===== *)
(** * Signatures: ed25519.c over BLAKE2b

    Keys, signing and verification as ed25519.c composes them from the hash
    (the custom BLAKE2b hash of nano/lib/interface.cpp), the scalars of
    [Modm64] and the points of [GeMult] and [GePack].  Verification is proved
    to decide the verification equation of the scheme in the group of the
    curve, and every signature the code makes, whatever its random bytes, is
    accepted by it. *)

From Stdlib Require Import ZArith List Lia Bool Field Zmod.
Import ListNotations.
From S2P Require Import Prelude Portable Blake2b Fe64 Modm64 Prime Group Edwards Ge25519 GePack Tables GeMult.
Open Scope Z_scope.
Open Scope word_scope.

Module Ed25519.

Import Donna64 Ge Pack Mult.

(** ** The hash (nano/lib/interface.cpp) *)

(** The results of [blake2b_init] and [blake2b_final] are ignored by the code;
    both succeed at this digest length ([hash_spec]). *)
Definition ed25519_hash_init : Blake2bRef.blake2b_state :=
  match Blake2bRef.blake2b_init 64 with
  | Some s => s
  | None => Blake2bRef.blake2b_init0
  end.

Definition ed25519_hash_update (ctx : Blake2bRef.blake2b_state) (inp : list Z)
  : Blake2bRef.blake2b_state := Blake2bRef.blake2b_update ctx inp.

Definition ed25519_hash_final (ctx : Blake2bRef.blake2b_state) : list Z :=
  match Blake2bRef.blake2b_final ctx 64 with
  | Some (_, out) => out
  | None => []
  end.

Definition ed25519_hash (inp : list Z) : list Z :=
  ed25519_hash_final (ed25519_hash_update ed25519_hash_init inp).

(** ** ed25519.c *)

Definition ed25519_extsk (sk : list Z) : list Z :=
  let extsk := ed25519_hash sk in
  let extsk := set_byte extsk 0 (nth 0 extsk 0 &u 248) in
  let extsk := set_byte extsk 31 (nth 31 extsk 0 &u 127) in
  set_byte extsk 31 (nth 31 extsk 0 |u 64).

Definition ed25519_hram (RS pk m : list Z) : list Z :=
  let ctx := ed25519_hash_init in
  let ctx := ed25519_hash_update ctx (firstn 32 RS) in
  let ctx := ed25519_hash_update ctx (firstn 32 pk) in
  let ctx := ed25519_hash_update ctx m in
  ed25519_hash_final ctx.

Definition ed25519_publickey (sk : list Z) : list Z :=
  let extsk := ed25519_extsk sk in
  let a := Scalar64.expand256_modm (firstn 32 extsk) in
  let A := ge25519_scalarmult_base_niels Tables.ge25519_niels_base_multiples a in
  ge25519_pack A.

(** [randr] is what [ed25519_randombytes_unsafe] writes. *)
Definition ed25519_sign (m sk pk randr : list Z) : list Z :=
  let extsk := ed25519_extsk sk in
  let ctx := ed25519_hash_init in
  let ctx := ed25519_hash_update ctx (firstn 32 (skipn 32 extsk)) in
  let ctx := ed25519_hash_update ctx randr in
  let ctx := ed25519_hash_update ctx (repeat 0 64) in
  let ctx := ed25519_hash_update ctx m in
  let hashr := ed25519_hash_final ctx in
  let r := Scalar64.expand256_modm hashr in
  let R := ge25519_scalarmult_base_niels Tables.ge25519_niels_base_multiples r in
  let RS := ge25519_pack R in
  let hram := ed25519_hram RS pk m in
  let S := Scalar64.expand256_modm hram in
  let a := Scalar64.expand256_modm (firstn 32 extsk) in
  let S := Scalar64.mul256_modm S a in
  let S := Scalar64.add256_modm S r in
  RS ++ Scalar64.contract256_modm S.

Definition ed25519_sign_open (m pk RS : list Z) : Z :=
  if negb (nth 63 RS 0 &u 224 =? 0) then -1 else
  match ge25519_unpack_negative_vartime pk with
  | None => -1
  | Some A =>
      let hash := ed25519_hram RS pk m in
      let hram := Scalar64.expand256_modm hash in
      let S := Scalar64.expand256_modm (firstn 32 (skipn 32 RS)) in
      let R := ge25519_double_scalarmult_vartime A hram S in
      let checkR := ge25519_pack R in
      if ed25519_verify RS checkR 32 =? 0 then -1 else 0
  end.

Definition curved25519_scalarmult_basepoint (e : list Z) : list Z :=
  let ec := firstn 32 e in
  let ec := set_byte ec 0 (nth 0 ec 0 &u 248) in
  let ec := set_byte ec 31 (nth 31 ec 0 &u 127) in
  let ec := set_byte ec 31 (nth 31 ec 0 |u 64) in
  let s := Scalar64.expand_raw256_modm ec in
  let q := ge25519_scalarmult_base_niels Tables.ge25519_niels_base_multiples s in
  let yplusz := curve25519_add (y q) (z q) in
  let zminusy := curve25519_sub (z q) (y q) in
  let zminusy := curve25519_recip zminusy in
  let yplusz := curve25519_mul yplusz zminusy in
  curve25519_contract yplusz.

(** ** What the hash returns *)

Definition H (chunks : list (list Z)) : list Z := Blake2bRef.spec_blake2b 64 (concat chunks) [].

Lemma hash_spec (chunks : list (list Z)) :
  ed25519_hash_final (fold_left ed25519_hash_update chunks ed25519_hash_init) = H chunks.
Proof.
  destruct (Blake2bRef.init_chunks_spec 64 chunks ltac:(lia)) as (S0 & E0 & Ed).
  unfold ed25519_hash_init, ed25519_hash_final. rewrite E0.
  change ed25519_hash_update with Blake2bRef.blake2b_update. unfold Blake2bRef.digest in Ed.
  destruct (Blake2bRef.blake2b_final _ 64) as [[S1 out] |]; [| discriminate Ed].
  cbn [option_map snd] in Ed. unfold H. congruence.
Qed.

#[local] Transparent Blake2bRef.blake2b_compress.

Lemma spec_blocks_length (n : nat) : forall hh c d,
  length (Blake2bRef.spec_blocks n hh c d) = 8%nat.
Proof.
  assert (F : forall hh c l b, length (Blake2bRef.spec_F hh c l b) = 8%nat).
  { intros. unfold Blake2bRef.spec_F, Blake2bRef.blake2b_compress. cbv zeta. cbn [Blake2bRef.h Blake2bRef.set_h].
    now rewrite length_map, length_seq. }
  induction n as [| n IH]; intros hh c d0; cbn [Blake2bRef.spec_blocks]; [apply F |].
  destruct (Nat.ltb _ _); [apply IH | apply F].
Qed.

#[local] Opaque Blake2bRef.blake2b_compress.

Lemma H_bytes (chunks : list (list Z)) : bytes_ok (H chunks) /\ length (H chunks) = 64%nat.
Proof.
  unfold H, Blake2bRef.spec_blake2b. cbv zeta.
  match goal with |- context [Blake2bRef.spec_blocks ?n ?a ?b ?c] =>
    pose proof (spec_blocks_length n a b c) as L; set (l := Blake2bRef.spec_blocks n a b c) in * end.
  clearbody l.
  assert (E : forall k, bytes_ok (concat (map (le_bytes 8) k)) /\
    length (concat (map (le_bytes 8) k)) = (8 * length k)%nat).
  { induction k as [| v k [IH1 IH2]]; cbn [map concat]; [split; [constructor | reflexivity] |].
    rewrite bytes_ok_app, length_app, IH2, le_bytes_length. cbn [length].
    repeat split; [apply le_bytes_ok | exact IH1 | lia]. }
  destruct (E l) as [E1 E2]. rewrite L in E2. split; [now apply bytes_ok_firstn |].
  rewrite length_firstn, E2. reflexivity.
Qed.

(** ** Keys *)

Lemma set_byte_ok (l : list Z) (k : nat) (v : Z) :
  bytes_ok l -> 0 <= v < 2 ^ 8 -> (k < length l)%nat ->
  bytes_ok (set_byte l k v) /\ length (set_byte l k v) = length l.
Proof.
  intros Hl Hv Hk. unfold set_byte. split.
  - apply bytes_ok_app. split; [now apply bytes_ok_firstn |].
    constructor; [exact Hv | now apply bytes_ok_skipn].
  - rewrite length_app, length_firstn. cbn [length]. rewrite length_skipn. lia.
Qed.

Lemma nth_byte (l : list Z) (k : nat) : bytes_ok l -> 0 <= nth k l 0 < 2 ^ 8.
Proof.
  intros Hl. destruct (Nat.lt_ge_cases k (length l)) as [Hk | Hk].
  - unfold bytes_ok in Hl. rewrite Forall_forall in Hl. now apply Hl, nth_In.
  - rewrite nth_overflow by exact Hk. lia.
Qed.

Lemma extsk_ok (sk : list Z) : bytes_ok (ed25519_extsk sk) /\ length (ed25519_extsk sk) = 64%nat.
Proof.
  unfold ed25519_extsk. cbv zeta.
  assert (E : ed25519_hash sk = H [sk]) by apply (hash_spec [sk]). rewrite E.
  destruct (H_bytes [sk]) as [B0 L0]. set (e := H [sk]) in *. clearbody e. clear E.
  destruct (set_byte_ok e 0 (nth 0 e 0 &u 248)) as [B1 L1];
    [exact B0 | apply land_range; [lia | now apply nth_byte] | lia |].
  set (e1 := set_byte e 0 _) in *. clearbody e1.
  destruct (set_byte_ok e1 31 (nth 31 e1 0 &u 127)) as [B2 L2];
    [exact B1 | apply land_range; [lia | now apply nth_byte] | lia |].
  set (e2 := set_byte e1 31 _) in *. clearbody e2.
  destruct (set_byte_ok e2 31 (nth 31 e2 0 |u 64)) as [B3 L3];
    [exact B2 | apply lor_range; [lia | now apply nth_byte | lia] | lia |].
  split; [exact B3 | lia].
Qed.

(** The secret scalar, reduced modulo the order of the base point. *)
Definition secret (sk : list Z) : Z := le_val (firstn 32 (ed25519_extsk sk)) mod Scalar64.ell.

Lemma expand_reduced (l : list Z) : bytes_ok l -> (32 <= length l <= 64)%nat ->
  Scalar64.reduced (Scalar64.expand256_modm l) /\
  Scalar64.val (Scalar64.expand256_modm l) = le_val l mod Scalar64.ell.
Proof.
  intros Hl Ln. pose proof (Scalar64.expand256_spec l Hl ltac:(lia)) as E.
  now rewrite (proj2 (Nat.ltb_ge (length l) 32)) in E by lia.
Qed.

Lemma secret_scalar (sk : list Z) :
  Scalar64.reduced (Scalar64.expand256_modm (firstn 32 (ed25519_extsk sk))) /\
  Scalar64.val (Scalar64.expand256_modm (firstn 32 (ed25519_extsk sk))) = secret sk.
Proof.
  destruct (extsk_ok sk) as [Hb Hl].
  apply expand_reduced; [now apply bytes_ok_firstn | rewrite length_firstn; lia].
Qed.

Lemma reduced_mult (s : Scalar64.bignum256modm) : Scalar64.reduced s ->
  rep_full (ge25519_scalarmult_base_niels Tables.ge25519_niels_base_multiples s)
    (smul (Scalar64.val s) Tables.B).
Proof.
  intros [Hl Hv]. apply scalarmult_base_spec; [exact Hl |].
  assert (Scalar64.ell < 2 ^ 255) by (vm_compute; reflexivity). lia.
Qed.

Lemma publickey_spec (sk : list Z) : ed25519_publickey sk = encode (smul (secret sk) Tables.B).
Proof.
  destruct (secret_scalar sk) as [R V]. unfold ed25519_publickey. cbv zeta. apply pack_spec.
  rewrite <- V. now apply reduced_mult.
Qed.

Lemma encode_ok (P : point) : bytes_ok (encode P) /\ length (encode P) = 32%nat.
Proof. split; [apply le_bytes_ok | apply le_bytes_length]. Qed.

(** ** Verification *)

Definition challenge (R pk m : list Z) : Z := le_val (H [R; pk; m]) mod Scalar64.ell.

Lemma hram_spec (RS pk m : list Z) : length pk = 32%nat ->
  ed25519_hram RS pk m = H [firstn 32 RS; pk; m].
Proof.
  intros Hp. rewrite <- hash_spec. unfold ed25519_hram. cbv zeta.
  rewrite (firstn_all2 pk) by lia. reflexivity.
Qed.

(** The scheme's equation: the first half of the signature encodes
    [S]B - [h]A, S being its second half. *)
Definition verifies (m pk RS : list Z) : Prop :=
  le_val (skipn 32 RS) < 2 ^ 253 /\
  exists A, decodes pk A /\
    firstn 32 RS = encode (gadd (smul (challenge (firstn 32 RS) pk m) (gopp A))
                               (smul (le_val (skipn 32 RS)) Tables.B)).

Lemma verify_prefix (a b : list Z) : length b = 32%nat -> (32 <= length a)%nat ->
  ed25519_verify a b 32 = ed25519_verify (firstn 32 a) b 32.
Proof.
  intros Hb Ha. unfold ed25519_verify. do 3 f_equal.
  assert (E : forall n a b acc, different_bits a b n acc = different_bits (firstn n a) b n acc).
  { induction n as [| n IH]; intros [| u a'] b' acc; cbn [different_bits firstn]; auto.
    destruct b' as [| v b']; auto. }
  apply E.
Qed.

Lemma top_bits (l : list Z) : bytes_ok l -> length l = 32%nat ->
  (nth 31 l 0 &u 224 =? 0) = (le_val l <? 2 ^ 253).
Proof.
  intros Hl Ln. pose proof (le_val_app (firstn 31 l) (skipn 31 l)) as E.
  rewrite firstn_skipn in E.
  assert (L31 : length (firstn 31 l) = 31%nat) by (rewrite length_firstn; lia). rewrite L31 in E.
  pose proof (le_val_range _ (bytes_ok_firstn 31 l Hl)) as R. rewrite L31 in R.
  assert (Ev : le_val (skipn 31 l) = nth 31 l 0).
  { rewrite <- (firstn_skipn 31 l) at 2. rewrite app_nth2, L31 by lia.
    assert (L1 : length (skipn 31 l) = 1%nat) by (rewrite length_skipn; lia).
    destruct (skipn 31 l) as [| u [| ? ?]]; try discriminate L1. cbn [le_val nth Nat.sub]. lia. }
  rewrite Ev in E. pose proof (nth_byte l 31 Hl) as Hn. rewrite E.
  change (2 ^ (8 * Z.of_nat 31)) with (2 ^ 248) in *.
  set (w := nth 31 l 0) in *. clearbody w. set (lo := le_val (firstn 31 l)) in *. clearbody lo.
  assert (Hw : w &u 224 = 32 * (w / 32)).
  { assert (Hall : forallb (fun w => Z.land w 224 =? 32 * (w / 32)) (map Z.of_nat (seq 0 256)) = true)
      by (vm_compute; reflexivity).
    rewrite forallb_forall in Hall. specialize (Hall w). rewrite Z.eqb_eq in Hall. apply Hall.
    replace w with (Z.of_nat (Z.to_nat w)) by lia. apply in_map, in_seq. lia. }
  rewrite Hw. pose proof (Z.div_mod w 32 ltac:(lia)). pose proof (Z.mod_pos_bound w 32 ltac:(lia)).
  destruct (Z.eqb_spec (32 * (w / 32)) 0), (Z.ltb_spec (lo + 2 ^ 248 * w) (2 ^ 253)); lia.
Qed.

Lemma sign_open_spec (m pk RS : list Z) :
  bytes_ok pk -> length pk = 32%nat -> bytes_ok RS -> length RS = 64%nat ->
  ed25519_sign_open m pk RS = 0 <-> verifies m pk RS.
Proof.
  intros Hpk Lpk HRS LRS. unfold ed25519_sign_open, verifies.
  assert (L2 : length (skipn 32 RS) = 32%nat) by (rewrite length_skipn; lia).
  assert (E63 : nth 63 RS 0 = nth 31 (skipn 32 RS) 0) by (now rewrite nth_skipn).
  rewrite E63, top_bits by auto with bytes.
  destruct (Z.ltb_spec (le_val (skipn 32 RS)) (2 ^ 253)) as [Htop | Htop]; cbn [negb].
  2: { split; [discriminate | lia]. }
  pose proof (unpack_spec pk Hpk Lpk) as HU.
  destruct (ge25519_unpack_negative_vartime pk) as [r |].
  2: { split; [discriminate |]. intros (_ & A & [HA _] & _). now apply HU in HA. }
  destruct HU as (A & HA & Hr). cbv zeta. rewrite (hram_spec RS pk m Lpk).
  destruct (H_bytes [firstn 32 RS; pk; m]) as [Hh Lh].
  destruct (expand_reduced _ Hh ltac:(lia)) as [Rh Vh].
  rewrite (firstn_all2 (skipn 32 RS)) by lia.
  destruct (expand_reduced (skipn 32 RS) ltac:(auto with bytes) ltac:(lia)) as [RSs VS].
  rewrite (pack_spec _ _ (double_scalarmult_spec r (gopp A) _ _ Hr Rh RSs)), Vh, VS.
  fold (challenge (firstn 32 RS) pk m). set (h := challenge (firstn 32 RS) pk m).
  rewrite (smul_mod Scalar64.ell _ Tables.B Tables.B_order) by (vm_compute; discriminate).
  set (Q := gadd _ _). destruct (encode_ok Q) as [Hq Lq].
  rewrite verify_prefix, verify_spec by (try lia; auto with bytes; rewrite length_firstn; lia).
  destruct (list_eq_dec Z.eq_dec (firstn 32 RS) (encode Q)) as [E | E]; cbn [Z.eqb].
  - split; [intros _ | reflexivity]. split; [exact Htop | exists A; auto].
  - split; [discriminate |]. intros (_ & A' & HA' & E'). exfalso. apply E.
    rewrite (decodes_unique pk A' A HA' HA) in E'. exact E'.
Qed.

(** ** Signing *)

Definition nonce (sk randr m : list Z) : Z :=
  le_val (H [firstn 32 (skipn 32 (ed25519_extsk sk)); randr; repeat 0 64; m]) mod Scalar64.ell.

(** What a signature holds: the encoding of [r]B, and r + h a modulo the order. *)
Lemma sign_spec (m sk pk randr : list Z) : length pk = 32%nat ->
  let R := encode (smul (nonce sk randr m) Tables.B) in
  ed25519_sign m sk pk randr =
  R ++ le_bytes 32 ((challenge R pk m * secret sk + nonce sk randr m) mod Scalar64.ell).
Proof.
  intros Lpk R. unfold ed25519_sign. cbv zeta.
  assert (Eh : forall c1 c2 c3 c4, ed25519_hash_final (ed25519_hash_update (ed25519_hash_update
    (ed25519_hash_update (ed25519_hash_update ed25519_hash_init c1) c2) c3) c4) = H [c1; c2; c3; c4])
    by (intros; rewrite <- hash_spec; reflexivity).
  rewrite Eh. clear Eh.
  destruct (H_bytes [firstn 32 (skipn 32 (ed25519_extsk sk)); randr; repeat 0 64; m]) as [Hr Lr].
  destruct (expand_reduced _ Hr ltac:(lia)) as [Rr Vr]. fold (nonce sk randr m) in Vr.
  set (r := Scalar64.expand256_modm (H [_; _; _; _])) in *. clearbody r.
  rewrite (pack_spec _ (smul (nonce sk randr m) Tables.B)) by (rewrite <- Vr; now apply reduced_mult).
  fold R. rewrite hram_spec by exact Lpk.
  rewrite (firstn_all2 R) by (unfold R; rewrite (proj2 (encode_ok _)); lia).
  destruct (H_bytes [R; pk; m]) as [Hh Lh]. destruct (expand_reduced _ Hh ltac:(lia)) as [Rh Vh].
  fold (challenge R pk m) in Vh. destruct (secret_scalar sk) as [Ra Va].
  destruct (Scalar64.mul256_spec _ _ (proj1 Rh) (proj1 Ra)) as [Rm Vm].
  destruct (Scalar64.add256_spec _ _ Rm Rr) as [Rs Vs].
  rewrite Scalar64.contract256_spec by apply Rs. rewrite Vs, Vm, Vh, Va, Vr.
  rewrite Z.add_mod_idemp_l by (vm_compute; discriminate). reflexivity.
Qed.

Lemma halves (a b : list Z) (n : nat) : length a = n -> firstn n (a ++ b) = a /\ skipn n (a ++ b) = b.
Proof.
  intros <-. split.
  - rewrite firstn_app, Nat.sub_diag, firstn_all, firstn_O. apply app_nil_r.
  - rewrite skipn_app, Nat.sub_diag, skipn_all. reflexivity.
Qed.

(** Every signature made with a key is accepted under its public key. *)
Lemma sign_verifies (m sk randr : list Z) :
  verifies m (ed25519_publickey sk) (ed25519_sign m sk (ed25519_publickey sk) randr).
Proof.
  rewrite publickey_spec. set (A := smul (secret sk) Tables.B).
  destruct (encode_ok A) as [Bpk Lpk]. rewrite (sign_spec m sk _ randr Lpk).
  set (r := nonce sk randr m). set (R := encode (smul r Tables.B)).
  destruct (encode_ok (smul r Tables.B)) as [_ LR]. fold R in LR.
  set (h := challenge R (encode A) m).
  assert (Hell : 0 < Scalar64.ell < 2 ^ 253) by (split; vm_compute; reflexivity).
  set (S := (h * secret sk + r) mod Scalar64.ell).
  assert (HS : 0 <= S < Scalar64.ell) by (apply Z.mod_pos_bound; lia).
  destruct (halves R (le_bytes 32 S) 32 LR) as [Ef Es].
  assert (EV : le_val (le_bytes 32 S) = S).
  { rewrite le_val_bytes. apply Z.mod_small. change (8 * Z.of_nat 32) with 256. lia. }
  unfold verifies. rewrite Ef, Es, EV. split; [lia |].
  exists A. split; [apply encode_decodes |]. fold h. unfold R. f_equal.
  unfold S. rewrite (smul_mod Scalar64.ell _ Tables.B Tables.B_order) by lia.
  rewrite smul_gopp. unfold A. rewrite <- smul_mul, <- smul_add. f_equal. ring.
Qed.

Lemma sign_ok (m sk randr : list Z) :
  let RS := ed25519_sign m sk (ed25519_publickey sk) randr in bytes_ok RS /\ length RS = 64%nat.
Proof.
  cbv zeta. rewrite publickey_spec. destruct (encode_ok (smul (secret sk) Tables.B)) as [_ Lpk].
  rewrite (sign_spec m sk _ randr Lpk), bytes_ok_app, length_app, le_bytes_length.
  destruct (encode_ok (smul (nonce sk randr m) Tables.B)) as [Hb ->].
  repeat split; [exact Hb | apply le_bytes_ok].
Qed.

(** ** Curve25519 keys *)

(** The 32 bytes of a Curve25519 scalar, clamped. *)
Definition clamp (e : list Z) : list Z :=
  let ec := firstn 32 e in
  let ec := set_byte ec 0 (nth 0 ec 0 &u 248) in
  let ec := set_byte ec 31 (nth 31 ec 0 &u 127) in
  set_byte ec 31 (nth 31 ec 0 |u 64).

Lemma low7 (w : Z) : 0 <= w < 2 ^ 8 -> 0 <= (w &u 127) |u 64 < 2 ^ 7.
Proof.
  intros Hw. apply lor_range; [lia | | lia].
  change 127 with (2 ^ 7 - 1). rewrite land_mask by lia. apply Z.mod_pos_bound. lia.
Qed.

Lemma clamp_ok (e : list Z) : bytes_ok e -> length e = 32%nat ->
  bytes_ok (clamp e) /\ length (clamp e) = 32%nat /\ le_val (clamp e) < 2 ^ 255.
Proof.
  intros He Le. unfold clamp. cbv zeta. rewrite firstn_all2 by lia.
  destruct (set_byte_ok e 0 (nth 0 e 0 &u 248)) as [B1 L1];
    [exact He | apply land_range; [lia | now apply nth_byte] | lia |].
  set (e1 := set_byte e 0 _) in *. clearbody e1.
  destruct (set_byte_ok e1 31 (nth 31 e1 0 &u 127)) as [B2 L2];
    [exact B1 | apply land_range; [lia | now apply nth_byte] | lia |].
  pose proof (low7 (nth 31 e1 0) (nth_byte e1 31 B1)) as H7.
  assert (E31 : nth 31 (set_byte e1 31 (nth 31 e1 0 &u 127)) 0 = nth 31 e1 0 &u 127).
  { unfold set_byte. rewrite app_nth2 by (rewrite length_firstn; lia).
    rewrite length_firstn. replace (31 - Nat.min 31 (length e1))%nat with 0%nat by lia. reflexivity. }
  rewrite E31. set (e2 := set_byte e1 31 _) in *. set (top := (nth 31 e1 0 &u 127) |u 64) in *.
  destruct (set_byte_ok e2 31 top) as [B3 L3]; [exact B2 | lia | lia |].
  split; [exact B3 | split; [lia |]]. unfold set_byte.
  rewrite le_val_app, (skipn_all2 e2) by lia. cbn [le_val].
  pose proof (le_val_range _ (bytes_ok_firstn 31 e2 B2)) as R.
  rewrite length_firstn in *. replace (Nat.min 31 (length e2)) with 31%nat in * by lia.
  change (2 ^ (8 * Z.of_nat 31)) with (2 ^ 248) in *. lia.
Qed.

(** The Montgomery coordinate u = (1 + y) / (1 - y) of [n]B, n being the clamped
    scalar; 0 when [n]B is the neutral point. *)
Lemma curved25519_spec (e : list Z) : bytes_ok e -> length e = 32%nat ->
  curved25519_scalarmult_basepoint e =
  let P := smul (le_val (clamp e)) Tables.B in
  le_bytes 32 (Zmod.to_Z ((1 + py P) * Zmod.inv (1 - py P))%F).
Proof.
  intros He Le. destruct (clamp_ok e He Le) as (Bc & Lc & Vc).
  unfold curved25519_scalarmult_basepoint. fold (clamp e). cbv zeta. fold (clamp e).
  destruct (Scalar64.expand_raw256_spec (clamp e) Bc Lc) as [Hs Ev].
  pose proof (scalarmult_base_spec _ Hs ltac:(rewrite Ev; exact Vc)) as Hq. rewrite Ev in Hq.
  set (q := ge25519_scalarmult_base_niels _ _) in *. clearbody q.
  set (P := smul _ Tables.B) in *. clearbody P. clear Hs Ev. open_reps. repeat fe_op.
  destruct (el_recip r0) as [Bi Ei]; [fe_bound |]. unfold tight in Bi.
  set (zi := curve25519_recip r0) in *. clearbody zi. repeat fe_op.
  rewrite el_contract by fe_bound. do 2 f_equal. fe_subst.
  destruct (Zmod.eqb_spec (1 - py P)%F 0%F) as [Z0 | Z0].
  - replace (el (z q) - py P * el (z q))%F with (el (z q) * (1 - py P))%F by ring.
    rewrite Z0. replace (el (z q) * 0)%F with 0%F by ring. rewrite Zmod.inv_0. ring.
  - field. split; [exact Z0 |].
    replace (el (z q) - py P * el (z q))%F with (el (z q) * (1 - py P))%F by ring. now apply mul_nz.
Qed.

End Ed25519.
