(* ===== verification/Signing.v ===== *)
(** * Keys and signatures of the node: nano/lib/numbers.cpp over ed25519.c

    [pub_key], [sign_message] and [validate_message] on the node's 256- and
    512-bit unions, and what the curve code of [Ge25519], [GePack], [Tables],
    [GeMult] and [Ed25519] amounts to for its callers. *)

From Stdlib Require Import ZArith List Lia Bool Field Zmod.
Import ListNotations.
From S2P Require Import Prelude Portable Blake2b Fe64 Modm64 Prime Group Edwards Ge25519 GePack Tables GeMult Ed25519.
Open Scope Z_scope.
Open Scope word_scope.

Module Signing.

Import Donna64 Ge Pack Tables Mult Ed25519.

(** ** The functions of numbers.cpp *)

Definition pub_key (privatekey : Z) : Z := be_val (ed25519_publickey (be_bytes 32 privatekey)).

Definition sign_message (private_key public_key message : Z) (randr : list Z) : Z :=
  be_val (ed25519_sign (be_bytes 32 message) (be_bytes 32 private_key) (be_bytes 32 public_key) randr).

(** [true] on an invalid signature. *)
Definition validate_message (public_key message signature : Z) : bool :=
  negb (ed25519_sign_open (be_bytes 32 message) (be_bytes 32 public_key) (be_bytes 64 signature) =? 0).

(** ** The curve *)

Lemma basepoint_spec : rep_full ge25519_basepoint B.
Proof.
  assert (Ez : el (z ge25519_basepoint) = 1%F) by reflexivity.
  assert (T : forall b, limbs51 b = true -> tight b) by exact limbs51_tight.
  split; [split; [split; [| split]; apply T; vm_compute; reflexivity |] |].
  - rewrite Ez. change (px B) with (el (x ge25519_basepoint)). change (py B) with (el (y ge25519_basepoint)).
    refine (conj one_nz (conj _ _)); ring.
  - split; [apply T; vm_compute; reflexivity |]. rewrite Ez.
    change (px B) with (el (x ge25519_basepoint)). change (py B) with (el (y ge25519_basepoint)).
    apply Zmod.unsigned_inj. vm_compute. reflexivity.
Qed.

(** C23: every addition and doubling of the code computes the group operation
    of the curve on representatives of points, for every pair of points (there
    is no exceptional case), and leaves limbs in the range its callers accept:
    no intermediate value overflows. *)
Theorem point_arithmetic (p q : ge25519) (n : ge25519_niels) (c : ge25519_pniels) (s : Z) (P Q R S : point)
  (Hp : rep_full p P) (Hq : rep_full q Q) (Hn : rep_niels n R) (Hc : rep_pniels c S) (Hs : s = 0 \/ s = 1) :
  rep_full (ge25519_add p q) (gadd P Q) /\
  rep_full (ge25519_double p) (gadd P P) /\
  rep_partial (ge25519_double_partial q p) (gadd P P) /\
  rep_full (ge25519_nielsadd2 p n) (gadd P R) /\
  rep_pniels (ge25519_pnielsadd p c) (gadd P S) /\
  rep_full (ge25519_p1p1_to_full (ge25519_nielsadd2_p1p1 p n s)) (gadd P (if s =? 0 then R else gopp R)) /\
  rep_full (ge25519_p1p1_to_full (ge25519_pnielsadd_p1p1 p c s)) (gadd P (if s =? 0 then S else gopp S)).
Proof.
  repeat match goal with |- _ /\ _ => split end.
  - now apply ge_add_spec.
  - apply double_spec, Hp.
  - apply double_partial_spec, Hp.
  - now apply nielsadd2_spec.
  - now apply pnielsadd_spec.
  - apply p1p1_to_full_spec. now apply (nielsadd2_p1p1_spec p n s P R).
  - apply p1p1_to_full_spec. now apply (pnielsadd_p1p1_spec p c s P S).
Qed.

Lemma point_arithmetic_witness :
  rep_full (ge25519_add ge25519_basepoint ge25519_basepoint) (gadd B B).
Proof.
  exact (proj1 (point_arithmetic ge25519_basepoint ge25519_basepoint
    (nth 0 ge25519_niels_sliding_multiples niels0) (ge25519_full_to_pniels ge25519_basepoint) 1
    B B (smul (2 * Z.of_nat 0 + 1) B) B basepoint_spec basepoint_spec
    (sliding_spec 0 niels0 (Nat.lt_0_succ 31)) (full_to_pniels_spec _ _ basepoint_spec)
    (or_intror eq_refl))).
Defined.

(** C24: multiplying the base point by a scalar below 2^255, with the packed
    table, gives the multiple in the group; so does the two-scalar loop on a
    point and the base point, for reduced scalars. *)
Theorem scalar_multiplication (q : ge25519) (Q : point) (s s1 s2 : Scalar64.bignum256modm)
  (Hs : Scalar64.limbs (2 ^ 32) s) (Hv : Scalar64.val s < 2 ^ 255)
  (Hq : rep_full q Q) (H1 : Scalar64.reduced s1) (H2 : Scalar64.reduced s2) :
  rep_full (ge25519_scalarmult_base_niels ge25519_niels_base_multiples s) (smul (Scalar64.val s) B) /\
  rep_partial (ge25519_double_scalarmult_vartime q s1 s2)
    (gadd (smul (Scalar64.val s1) Q) (smul (Scalar64.val s2) B)).
Proof. split; [now apply scalarmult_base_spec | now apply double_scalarmult_spec]. Qed.

Lemma scalar_multiplication_witness :
  let s := Scalar64.bm 9 0 0 0 0 in
  rep_full (ge25519_scalarmult_base_niels ge25519_niels_base_multiples s) (smul 9 B).
Proof.
  assert (L : Scalar64.limbs (2 ^ 32) (Scalar64.bm 9 0 0 0 0)) by (unfold Scalar64.limbs; cbn; lia).
  assert (V : Scalar64.val (Scalar64.bm 9 0 0 0 0) < 2 ^ 255) by (vm_compute; reflexivity).
  assert (R : Scalar64.reduced (Scalar64.bm 9 0 0 0 0)) by (split; [exact L | vm_compute; reflexivity]).
  exact (proj1 (scalar_multiplication ge25519_basepoint B _ _ _ L V basepoint_spec R R)).
Defined.

(** Unpacking returns the negation of the point a 32-byte string denotes and
    fails exactly when no point of the curve has its y coordinate. *)
Theorem unpack_exact (b : list Z) (Hb : bytes_ok b) (Lb : length b = 32%nat) :
  match ge25519_unpack_negative_vartime b with
  | Some r => exists P, decodes b P /\ rep_full r (gopp P)
  | None => forall P : point, py P <> fe (le_val b mod 2 ^ 255)
  end.
Proof. now apply unpack_spec. Qed.

Lemma unpack_exact_witness :
  exists P, decodes (encode B) P /\ P = B.
Proof.
  pose proof (unpack_exact (encode B) (proj1 (encode_ok B)) (proj2 (encode_ok B))) as H.
  destruct (ge25519_unpack_negative_vartime (encode B)) as [r |].
  - destruct H as (P & HP & _). exists P. split; [exact HP |].
    exact (decodes_unique _ _ _ HP (encode_decodes B)).
  - exists B. split; [apply encode_decodes | reflexivity].
Defined.

(** Packing a point and unpacking the result gives back the point, negated,
    whatever projective representative was packed; distinct points have
    distinct encodings. *)
Theorem pack_roundtrip (r : ge25519) (P : point) (Hr : rep_partial r P) :
  (exists r', ge25519_unpack_negative_vartime (ge25519_pack r) = Some r' /\ rep_full r' (gopp P)) /\
  forall r2 P2, rep_partial r2 P2 -> ge25519_pack r2 = ge25519_pack r -> P2 = P.
Proof.
  rewrite (pack_spec r P Hr). destruct (encode_ok P) as [Hb Lb]. split.
  - pose proof (unpack_spec (encode P) Hb Lb) as HU.
    destruct (ge25519_unpack_negative_vartime (encode P)) as [r' |].
    + destruct HU as (Q & HQ & Hr'). exists r'. split; [reflexivity |].
      now rewrite <- (decodes_unique _ _ _ HQ (encode_decodes P)).
    + exfalso. apply (HU P). apply (encode_decodes P).
  - intros r2 P2 H2 E. rewrite (pack_spec r2 P2 H2) in E. now apply encode_inj.
Qed.

Lemma pack_roundtrip_witness :
  exists r', ge25519_unpack_negative_vartime (ge25519_pack ge25519_basepoint) = Some r' /\
    rep_full r' (gopp B).
Proof. exact (proj1 (pack_roundtrip ge25519_basepoint B (proj1 basepoint_spec))). Defined.

(** A public key is the encoding of the secret scalar times the base point;
    a Curve25519 key is the Montgomery coordinate of the clamped scalar times
    the base point, or 0 when that is the neutral point. *)
Theorem keys_exact (sk e : list Z) (He : bytes_ok e) (Le : length e = 32%nat) :
  ed25519_publickey sk = encode (smul (secret sk) B) /\
  curved25519_scalarmult_basepoint e =
    let P := smul (le_val (clamp e)) B in
    le_bytes 32 (Zmod.to_Z ((1 + py P) * Zmod.inv (1 - py P))%F).
Proof. split; [apply publickey_spec | now apply curved25519_spec]. Qed.

Lemma keys_exact_witness :
  ed25519_publickey [] = encode (smul (secret []) B).
Proof. exact (proj1 (keys_exact [] (repeat 0 32) (bytes_ok_repeat0 32) eq_refl)). Defined.

(** ** Signatures *)

(** C22: verification accepts exactly the signatures that satisfy the scheme's
    equation: the second half is below 2^253, the key denotes a point A, and
    the first half is the encoding of [S]B - [h]A with h the hash of the first
    half, the key and the message. *)
Theorem verification_exact (m pk RS : list Z) (Hpk : bytes_ok pk) (Lpk : length pk = 32%nat)
  (HRS : bytes_ok RS) (LRS : length RS = 64%nat) :
  (ed25519_sign_open m pk RS = 0 <-> verifies m pk RS) /\
  (ed25519_sign_open m pk RS = 0 \/ ed25519_sign_open m pk RS = -1).
Proof.
  split; [now apply sign_open_spec |]. unfold ed25519_sign_open.
  destruct (negb _); [now right |]. destruct (ge25519_unpack_negative_vartime pk); [| now right].
  cbv zeta. destruct (_ =? 0); [now right | now left].
Qed.

Lemma verification_exact_witness :
  ed25519_sign_open [] (encode B) (repeat 0 64) = 0 <-> verifies [] (encode B) (repeat 0 64).
Proof.
  exact (proj1 (verification_exact [] (encode B) (repeat 0 64) (proj1 (encode_ok B)) (proj2 (encode_ok B))
    (bytes_ok_repeat0 64) eq_refl)).
Defined.

(** C21: a signature made with a private key, with any random bytes, is accepted
    under the public key derived from it, for every message. *)
Theorem signatures_accepted (m sk randr : list Z) :
  ed25519_sign_open m (ed25519_publickey sk) (ed25519_sign m sk (ed25519_publickey sk) randr) = 0.
Proof.
  destruct (sign_ok m sk randr) as [Hs Ls]. pose proof (sign_verifies m sk randr) as V.
  rewrite publickey_spec in *. destruct (encode_ok (smul (secret sk) B)) as [Hb Lb].
  now apply sign_open_spec.
Qed.

Lemma pub_key_word (prv : Z) : word 256 (pub_key prv).
Proof.
  unfold pub_key. rewrite publickey_spec. destruct (encode_ok (smul (secret (be_bytes 32 prv)) B)) as [Hb Lb].
  pose proof (be_val_range _ Hb) as R. now rewrite Lb in R.
Qed.

Lemma sign_bytes_ok (m sk pk randr : list Z) : length pk = 32%nat ->
  bytes_ok (ed25519_sign m sk pk randr) /\ length (ed25519_sign m sk pk randr) = 64%nat.
Proof.
  intros Lpk. rewrite (sign_spec m sk pk randr Lpk), bytes_ok_app, length_app, le_bytes_length.
  destruct (encode_ok (smul (nonce sk randr m) B)) as [Hb ->].
  repeat split; [exact Hb | apply le_bytes_ok].
Qed.

Lemma sign_message_word (prv pub message : Z) (randr : list Z) : word 512 (sign_message prv pub message randr).
Proof.
  unfold sign_message. destruct (sign_bytes_ok (be_bytes 32 message) (be_bytes 32 prv) (be_bytes 32 pub) randr (be_bytes_length 32 pub)) as [Hb Lb].
  pose proof (be_val_range _ Hb) as R. now rewrite Lb in R.
Qed.

Lemma sign_message_valid (prv message : Z) (randr : list Z) :
  validate_message (pub_key prv) message (sign_message prv (pub_key prv) message randr) = false.
Proof.
  unfold validate_message, sign_message, pub_key.
  set (sk := be_bytes 32 prv). set (m := be_bytes 32 message).
  assert (Epk : be_bytes 32 (be_val (ed25519_publickey sk)) = ed25519_publickey sk).
  { rewrite publickey_spec. destruct (encode_ok (smul (secret sk) B)) as [Hb Lb].
    rewrite <- Lb at 1. now apply be_bytes_val. }
  destruct (sign_ok m sk randr) as [Hs Ls]. pose proof (sign_verifies m sk randr) as V.
  rewrite Epk. rewrite <- Ls at 1. rewrite (be_bytes_val _ Hs).
  assert (E : ed25519_sign_open m (ed25519_publickey sk) (ed25519_sign m sk (ed25519_publickey sk) randr) = 0).
  { rewrite publickey_spec in *. destruct (encode_ok (smul (secret sk) B)) as [Hb Lb].
    now apply sign_open_spec. }
  rewrite E. reflexivity.
Qed.

(** The node's [validate_message] reports no error on what its [sign_message]
    makes with the key pair of [pub_key]. *)
Theorem messages_validate (prv message : Z) (randr : list Z) :
  validate_message (pub_key prv) message (sign_message prv (pub_key prv) message randr) = false /\
  word 256 (pub_key prv) /\ word 512 (sign_message prv (pub_key prv) message randr).
Proof. exact (conj (sign_message_valid _ _ _) (conj (pub_key_word _) (sign_message_word _ _ _ _))). Qed.

End Signing.
