(* ===== verification/Blocks.v ===== *)
(** * Blocks

    Model of the block classes of [nano/lib/blocks.hpp] and
    [nano/lib/blocks.cpp]: the five block types with their fields, the
    virtual accessors, the byte format, the hash (BLAKE2b-256 of the
    hashables, [Blake2b.v]) and the predecessor rule.  Hashes, accounts and
    links are 256-bit unsigned integers, amounts 128-bit, signatures 512-bit,
    work 64-bit; their memory image is big endian except for the work of the
    legacy blocks, which is the host's little-endian image. *)

From Stdlib Require Import ZArith Lia List Bool.
From S2P Require Import Prelude Blake2b.
Import ListNotations.
Local Open Scope Z_scope.

(** ** Streams

    A stream is the list of bytes left.  [read] takes the size of a type or
    fails ([None] stands for the exception). *)

Module Stream.

Definition reader (A : Type) : Type := list Z -> option (A * list Z).

Definition ret {A : Type} (x : A) : reader A := fun s => Some (x, s).

Definition bind {A B : Type} (r : reader A) (k : A -> reader B) : reader B :=
  fun s => match r s with
           | Some (x, s') => k x s'
           | None => None
           end.

Definition read (n : nat) : reader (list Z) :=
  fun s => if (length s <? n)%nat then None else Some (firstn n s, skipn n s).

Declare Scope reader_scope.
Delimit Scope reader_scope with reader.
Notation "x <- r ;; k" := (bind r (fun x => k))
  (at level 61, r at next level, right associativity) : reader_scope.
Local Open Scope reader_scope.

(** Big-endian unions and host (little-endian) integers of [n] bytes. *)
Definition read_be (n : nat) : reader Z := l <- read n ;; ret (be_val l).
Definition read_le (n : nat) : reader Z := l <- read n ;; ret (le_val l).

(** [r] reads exactly what [bytes] writes for the value [x]. *)
Definition reads {A : Type} (r : reader A) (x : A) (bytes : list Z) : Prop :=
  forall rest, r (bytes ++ rest) = Some (x, rest).

Lemma reads_ret {A : Type} (x : A) : reads (ret x) x [].
Proof. intros rest. reflexivity. Qed.

Lemma reads_bind {A B : Type} (r : reader A) (k : A -> reader B) (x : A) (y : B)
    (bx bytes : list Z) :
  reads r x bx -> reads (k x) y bytes -> reads (bind r k) y (bx ++ bytes).
Proof. intros Hr Hk rest. unfold bind. rewrite <- app_assoc, Hr. apply Hk. Qed.

Lemma reads_read (n : nat) (l : list Z) : length l = n -> reads (read n) l l.
Proof.
  intros <- rest. unfold read. rewrite length_app.
  rewrite (proj2 (Nat.ltb_ge _ _)) by lia.
  rewrite firstn_app, Nat.sub_diag, firstn_all, app_nil_r.
  rewrite skipn_app, Nat.sub_diag, skipn_all. reflexivity.
Qed.

Lemma reads_be (n : nat) (x : Z) : word (8 * Z.of_nat n) x -> reads (read_be n) x (be_bytes n x).
Proof.
  intros Hx. unfold read_be. rewrite <- (app_nil_r (be_bytes n x)).
  eapply reads_bind; [apply reads_read, be_bytes_length |].
  rewrite be_val_bytes, Z.mod_small by exact Hx. apply reads_ret.
Qed.

Lemma reads_le (n : nat) (x : Z) : word (8 * Z.of_nat n) x -> reads (read_le n) x (le_bytes n x).
Proof.
  intros Hx. unfold read_le. rewrite <- (app_nil_r (le_bytes n x)).
  eapply reads_bind; [apply reads_read, le_bytes_length |].
  rewrite le_val_bytes, Z.mod_small by exact Hx. apply reads_ret.
Qed.

(** [r] accepts only images of values satisfying [P]. *)
Definition writes_back {A : Type} (P : A -> Prop) (bytes : A -> list Z) (r : reader A) : Prop :=
  forall s x s', bytes_ok s -> r s = Some (x, s') -> s = bytes x ++ s' /\ bytes_ok s' /\ P x.

Lemma writes_back_read (n : nat) :
  writes_back (fun l => length l = n /\ bytes_ok l) (fun l => l) (read n).
Proof.
  intros s x s' Hs H. unfold read in H. destruct (length s <? n)%nat eqn:E; [discriminate |].
  apply Nat.ltb_ge in E. injection H as <- <-. rewrite firstn_skipn, length_firstn.
  repeat split; auto with bytes. lia.
Qed.

Lemma writes_back_be (n : nat) :
  writes_back (word (8 * Z.of_nat n)) (be_bytes n) (read_be n).
Proof.
  intros s x s' Hs H. unfold read_be, bind in H.
  destruct (read n s) as [[l r] |] eqn:E; [| discriminate]. injection H as <- <-.
  destruct (writes_back_read n s l r Hs E) as (-> & Hr & <- & Hl).
  rewrite be_bytes_val by assumption. repeat split; try assumption; now apply be_val_range.
Qed.

Lemma writes_back_le (n : nat) :
  writes_back (word (8 * Z.of_nat n)) (le_bytes n) (read_le n).
Proof.
  intros s x s' Hs H. unfold read_le, bind in H.
  destruct (read n s) as [[l r] |] eqn:E; [| discriminate]. injection H as <- <-.
  destruct (writes_back_read n s l r Hs E) as (-> & Hr & <- & Hl).
  rewrite le_bytes_val by assumption. repeat split; try assumption; now apply le_val_range.
Qed.

(** Invert one [bind] of a successful read. *)
Lemma bind_inv {A B : Type} (r : reader A) (k : A -> reader B) (s : list Z) (y : B) (s' : list Z) :
  bind r k s = Some (y, s') -> exists x t, r s = Some (x, t) /\ k x t = Some (y, s').
Proof.
  unfold bind. destruct (r s) as [[x t] |]; [| discriminate]. intros H. now exists x, t.
Qed.

Create HintDb stream.
#[export] Hint Resolve reads_ret reads_bind reads_be reads_le : stream.

End Stream.

Module Block.
Import Stream Blake2bRef.
Local Open Scope reader_scope.

(** ** Types *)

Inductive block_type :=
  bt_invalid | bt_not_a_block | bt_send | bt_receive | bt_open | bt_change | bt_state.

Definition type_code (t : block_type) : Z :=
  match t with
  | bt_invalid => 0 | bt_not_a_block => 1 | bt_send => 2 | bt_receive => 3
  | bt_open => 4 | bt_change => 5 | bt_state => 6
  end.

Definition type_eqb (a b : block_type) : bool := type_code a =? type_code b.

Record send_hashables := mk_send {
  send_previous : Z; send_destination : Z; send_balance : Z }.
Record receive_hashables := mk_receive { receive_previous : Z; receive_source : Z }.
Record open_hashables := mk_open {
  open_source : Z; open_representative : Z; open_account : Z }.
Record change_hashables := mk_change { change_previous : Z; change_representative : Z }.
Record state_hashables := mk_state {
  state_account : Z; state_previous : Z; state_representative : Z; state_balance : Z;
  state_link : Z }.

Inductive block :=
| send_block (hashables : send_hashables) (signature work : Z)
| receive_block (hashables : receive_hashables) (signature work : Z)
| open_block (hashables : open_hashables) (signature work : Z)
| change_block (hashables : change_hashables) (signature work : Z)
| state_block (hashables : state_hashables) (signature work : Z).

(** ** Accessors *)

Definition type (b : block) : block_type :=
  match b with
  | send_block _ _ _ => bt_send
  | receive_block _ _ _ => bt_receive
  | open_block _ _ _ => bt_open
  | change_block _ _ _ => bt_change
  | state_block _ _ _ => bt_state
  end.

Definition previous (b : block) : Z :=
  match b with
  | send_block h _ _ => send_previous h
  | receive_block h _ _ => receive_previous h
  | open_block _ _ _ => 0
  | change_block h _ _ => change_previous h
  | state_block h _ _ => state_previous h
  end.

Definition source (b : block) : Z :=
  match b with
  | receive_block h _ _ => receive_source h
  | open_block h _ _ => open_source h
  | _ => 0
  end.

Definition link (b : block) : Z :=
  match b with state_block h _ _ => state_link h | _ => 0 end.

Definition account (b : block) : Z :=
  match b with
  | open_block h _ _ => open_account h
  | state_block h _ _ => state_account h
  | _ => 0
  end.

Definition representative (b : block) : Z :=
  match b with
  | open_block h _ _ => open_representative h
  | change_block h _ _ => change_representative h
  | state_block h _ _ => state_representative h
  | _ => 0
  end.

Definition root (b : block) : Z :=
  match b with
  | send_block h _ _ => send_previous h
  | receive_block h _ _ => receive_previous h
  | open_block h _ _ => open_account h
  | change_block h _ _ => change_previous h
  | state_block h _ _ => if negb (state_previous h =? 0) then state_previous h else state_account h
  end.

Definition block_signature (b : block) : Z :=
  match b with
  | send_block _ s _ | receive_block _ s _ | open_block _ s _ | change_block _ s _
  | state_block _ s _ => s
  end.

Definition block_work (b : block) : Z :=
  match b with
  | send_block _ _ w | receive_block _ _ w | open_block _ _ w | change_block _ _ w
  | state_block _ _ w => w
  end.

(** Which blocks may precede: legacy blocks follow legacy blocks only, open
    blocks follow nothing, state blocks follow anything. *)
Definition legacy_type (t : block_type) : bool :=
  match t with bt_send | bt_receive | bt_open | bt_change => true | _ => false end.

Definition valid_predecessor (b p : block) : bool :=
  match b with
  | send_block _ _ _ | receive_block _ _ _ | change_block _ _ _ => legacy_type (type p)
  | open_block _ _ _ => false
  | state_block _ _ _ => true
  end.

(** ** Hashing *)

(** The byte strings passed to [blake2b_update], in order. *)
Definition send_hashables_hash (h : send_hashables) : list (list Z) :=
  [be_bytes 32 (send_previous h); be_bytes 32 (send_destination h); be_bytes 16 (send_balance h)].
Definition receive_hashables_hash (h : receive_hashables) : list (list Z) :=
  [be_bytes 32 (receive_previous h); be_bytes 32 (receive_source h)].
Definition open_hashables_hash (h : open_hashables) : list (list Z) :=
  [be_bytes 32 (open_source h); be_bytes 32 (open_representative h); be_bytes 32 (open_account h)].
Definition change_hashables_hash (h : change_hashables) : list (list Z) :=
  [be_bytes 32 (change_previous h); be_bytes 32 (change_representative h)].
Definition state_hashables_hash (h : state_hashables) : list (list Z) :=
  [be_bytes 32 (state_account h); be_bytes 32 (state_previous h);
   be_bytes 32 (state_representative h); be_bytes 16 (state_balance h);
   be_bytes 32 (state_link h)].

Definition hash_chunks (b : block) : list (list Z) :=
  match b with
  | send_block h _ _ => send_hashables_hash h
  | receive_block h _ _ => receive_hashables_hash h
  | open_block h _ _ => open_hashables_hash h
  | change_block h _ _ => change_hashables_hash h
  | state_block h _ _ => be_bytes 32 (type_code bt_state) :: state_hashables_hash h
  end.

(** [init], one [update] per field, [final]; [None] is a failed assertion. *)
Definition digest_of (outlen : nat) (chunks : list (list Z)) : option Z :=
  match blake2b_init outlen with
  | Some st => option_map (fun r => be_val (snd r))
                (blake2b_final (fold_left blake2b_update chunks st) outlen)
  | None => None
  end.

Definition block_hash (b : block) : option Z := digest_of 32 (hash_chunks b).

(** What the ledger takes from blocks: a hash.  The node's is the digest above
    ([block_hash_spec]: it is always there). *)
Class BlockHash := hash : block -> Z.

Definition node_hash : BlockHash := fun b => match block_hash b with Some h => h | None => 0 end.

Definition full_hash (b : block) : option Z :=
  match block_hash b with
  | Some h => digest_of 32 [be_bytes 32 h; be_bytes 64 (block_signature b);
                            le_bytes 8 (block_work b)]
  | None => None
  end.

(** ** Byte format *)

Definition send_block_serialize (h : send_hashables) (signature work : Z) : list Z :=
  be_bytes 32 (send_previous h) ++ be_bytes 32 (send_destination h) ++
  be_bytes 16 (send_balance h) ++ be_bytes 64 signature ++ le_bytes 8 work.

Definition receive_block_serialize (h : receive_hashables) (signature work : Z) : list Z :=
  be_bytes 32 (receive_previous h) ++ be_bytes 32 (receive_source h) ++
  be_bytes 64 signature ++ le_bytes 8 work.

Definition open_block_serialize (h : open_hashables) (signature work : Z) : list Z :=
  be_bytes 32 (open_source h) ++ be_bytes 32 (open_representative h) ++
  be_bytes 32 (open_account h) ++ be_bytes 64 signature ++ le_bytes 8 work.

Definition change_block_serialize (h : change_hashables) (signature work : Z) : list Z :=
  be_bytes 32 (change_previous h) ++ be_bytes 32 (change_representative h) ++
  be_bytes 64 signature ++ le_bytes 8 work.

Definition state_block_serialize (h : state_hashables) (signature work : Z) : list Z :=
  be_bytes 32 (state_account h) ++ be_bytes 32 (state_previous h) ++
  be_bytes 32 (state_representative h) ++ be_bytes 16 (state_balance h) ++
  be_bytes 32 (state_link h) ++ be_bytes 64 signature ++ be_bytes 8 work.

Definition serialize (b : block) : list Z :=
  match b with
  | send_block h s w => send_block_serialize h s w
  | receive_block h s w => receive_block_serialize h s w
  | open_block h s w => open_block_serialize h s w
  | change_block h s w => change_block_serialize h s w
  | state_block h s w => state_block_serialize h s w
  end.

Definition send_hashables_read : reader send_hashables :=
  p <- read_be 32 ;; d <- read_be 32 ;; a <- read_be 16 ;; ret (mk_send p d a).
Definition receive_hashables_read : reader receive_hashables :=
  p <- read_be 32 ;; s <- read_be 32 ;; ret (mk_receive p s).
Definition open_hashables_read : reader open_hashables :=
  s <- read_be 32 ;; r <- read_be 32 ;; a <- read_be 32 ;; ret (mk_open s r a).
Definition change_hashables_read : reader change_hashables :=
  p <- read_be 32 ;; r <- read_be 32 ;; ret (mk_change p r).
Definition state_hashables_read : reader state_hashables :=
  a <- read_be 32 ;; p <- read_be 32 ;; r <- read_be 32 ;; b <- read_be 16 ;;
  l <- read_be 32 ;; ret (mk_state a p r b l).

Definition send_block_read : reader block :=
  h <- send_hashables_read ;; s <- read_be 64 ;; w <- read_le 8 ;; ret (send_block h s w).
Definition receive_block_read : reader block :=
  h <- receive_hashables_read ;; s <- read_be 64 ;; w <- read_le 8 ;; ret (receive_block h s w).
Definition open_block_read : reader block :=
  h <- open_hashables_read ;; s <- read_be 64 ;; w <- read_le 8 ;; ret (open_block h s w).
Definition change_block_read : reader block :=
  h <- change_hashables_read ;; s <- read_be 64 ;; w <- read_le 8 ;; ret (change_block h s w).
Definition state_block_read : reader block :=
  h <- state_hashables_read ;; s <- read_be 64 ;; w <- read_be 8 ;; ret (state_block h s w).

(** [deserialize_block (stream, type)]; the [default] case asserts in debug
    builds and yields no block otherwise. *)
Definition deserialize_block_type (t : block_type) : reader block :=
  match t with
  | bt_receive => receive_block_read
  | bt_send => send_block_read
  | bt_open => open_block_read
  | bt_change => change_block_read
  | bt_state => state_block_read
  | bt_invalid | bt_not_a_block => fun _ => None
  end.

(** The type byte; codes above 6 reach the [default] case too. *)
Definition type_of_code (c : Z) : block_type :=
  if c =? 2 then bt_send else if c =? 3 then bt_receive else if c =? 4 then bt_open
  else if c =? 5 then bt_change else if c =? 6 then bt_state
  else if c =? 1 then bt_not_a_block else bt_invalid.

Definition deserialize_block : reader block :=
  c <- read_le 1 ;; deserialize_block_type (type_of_code c).

(** The member functions [deserialize], which fill an existing block. *)
Definition send_block_deserialize : reader block :=
  p <- read_be 32 ;; d <- read_be 32 ;; a <- read_be 16 ;; s <- read_be 64 ;; w <- read_le 8 ;;
  ret (send_block (mk_send p d a) s w).
Definition receive_block_deserialize : reader block :=
  p <- read_be 32 ;; c <- read_be 32 ;; s <- read_be 64 ;; w <- read_le 8 ;;
  ret (receive_block (mk_receive p c) s w).
Definition open_block_deserialize : reader block :=
  c <- read_be 32 ;; r <- read_be 32 ;; a <- read_be 32 ;; s <- read_be 64 ;; w <- read_le 8 ;;
  ret (open_block (mk_open c r a) s w).
Definition change_block_deserialize : reader block :=
  p <- read_be 32 ;; r <- read_be 32 ;; s <- read_be 64 ;; w <- read_le 8 ;;
  ret (change_block (mk_change p r) s w).
Definition state_block_deserialize : reader block :=
  a <- read_be 32 ;; p <- read_be 32 ;; r <- read_be 32 ;; b <- read_be 16 ;; l <- read_be 32 ;;
  s <- read_be 64 ;; w <- read_be 8 ;; ret (state_block (mk_state a p r b l) s w).

(** [operator==] of the block types, and [blocks_equal], which compares types first. *)
Definition send_block_eqb (h : send_hashables) (s w : Z) (h' : send_hashables) (s' w' : Z) : bool :=
  (send_destination h =? send_destination h') && (send_previous h =? send_previous h') &&
  (send_balance h =? send_balance h') && (w =? w') && (s =? s').
Definition receive_block_eqb (h : receive_hashables) (s w : Z) (h' : receive_hashables) (s' w' : Z) : bool :=
  (receive_previous h =? receive_previous h') && (receive_source h =? receive_source h') &&
  (w =? w') && (s =? s').
Definition open_block_eqb (h : open_hashables) (s w : Z) (h' : open_hashables) (s' w' : Z) : bool :=
  (open_source h =? open_source h') && (open_representative h =? open_representative h') &&
  (open_account h =? open_account h') && (w =? w') && (s =? s').
Definition change_block_eqb (h : change_hashables) (s w : Z) (h' : change_hashables) (s' w' : Z) : bool :=
  (change_previous h =? change_previous h') &&
  (change_representative h =? change_representative h') && (w =? w') && (s =? s').
Definition state_block_eqb (h : state_hashables) (s w : Z) (h' : state_hashables) (s' w' : Z) : bool :=
  (state_account h =? state_account h') && (state_previous h =? state_previous h') &&
  (state_representative h =? state_representative h') && (state_balance h =? state_balance h') &&
  (state_link h =? state_link h') && (s =? s') && (w =? w').

Definition blocks_equal (b b' : block) : bool :=
  type_eqb (type b) (type b') &&
  match b, b' with
  | send_block h s w, send_block h' s' w' => send_block_eqb h' s' w' h s w
  | receive_block h s w, receive_block h' s' w' => receive_block_eqb h' s' w' h s w
  | open_block h s w, open_block h' s' w' => open_block_eqb h' s' w' h s w
  | change_block h s w, change_block h' s' w' => change_block_eqb h' s' w' h s w
  | state_block h s w, state_block h' s' w' => state_block_eqb h' s' w' h s w
  | _, _ => false
  end.

(** [nano::serialize_block] of [nano/secure/common.cpp]. *)
Definition serialize_block (b : block) : list Z := le_bytes 1 (type_code (type b)) ++ serialize b.

Definition size (t : block_type) : nat :=
  match t with
  | bt_invalid | bt_not_a_block => 0
  | bt_send => 32 + 32 + 16 + 64 + 8
  | bt_receive => 32 + 32 + 64 + 8
  | bt_change => 32 + 32 + 64 + 8
  | bt_open => 32 + 32 + 32 + 64 + 8
  | bt_state => 32 + 32 + 32 + 16 + 32 + 64 + 8
  end.

(** ** Well-formed blocks *)

Definition u256 : Z -> Prop := word 256.

Definition hashables_ok (b : block) : Prop :=
  match b with
  | send_block h _ _ => u256 (send_previous h) /\ u256 (send_destination h) /\ word 128 (send_balance h)
  | receive_block h _ _ => u256 (receive_previous h) /\ u256 (receive_source h)
  | open_block h _ _ => u256 (open_source h) /\ u256 (open_representative h) /\ u256 (open_account h)
  | change_block h _ _ => u256 (change_previous h) /\ u256 (change_representative h)
  | state_block h _ _ => u256 (state_account h) /\ u256 (state_previous h) /\
      u256 (state_representative h) /\ word 128 (state_balance h) /\ u256 (state_link h)
  end.

Definition block_ok (b : block) : Prop :=
  hashables_ok b /\ word 512 (block_signature b) /\ word 64 (block_work b).

(** Well-formedness of a concrete block, by computation. *)
Ltac concrete_block_ok := split; [| split]; vm_compute; repeat split; first [reflexivity | discriminate].

(** The preimage determines the block up to signature and work, except that a
    receive and a change block share their format. *)
Definition same_hashables (b b' : block) : Prop :=
  match b, b' with
  | send_block h _ _, send_block h' _ _ => h = h'
  | receive_block h _ _, receive_block h' _ _ => h = h'
  | open_block h _ _, open_block h' _ _ => h = h'
  | change_block h _ _, change_block h' _ _ => h = h'
  | state_block h _ _, state_block h' _ _ => h = h'
  | receive_block h _ _, change_block h' _ _ =>
      receive_previous h = change_previous h' /\ receive_source h = change_representative h'
  | change_block h _ _, receive_block h' _ _ =>
      change_previous h = receive_previous h' /\ change_representative h = receive_source h'
  | _, _ => False
  end.

(** ** Round trips *)

(** Reduce the projections of hashables. *)
Ltac fields := cbn [send_previous send_destination send_balance receive_previous receive_source
  open_source open_representative open_account change_previous change_representative state_account
  state_previous state_representative state_balance state_link type block_signature block_work
  hashables_ok same_hashables] in *.

(** Constructors read the hashables first, then signature and work. *)
Lemma reads_assoc {A B C : Type} (r : reader A) (k : A -> reader B) (l : B -> reader C)
    (x : C) (bytes : list Z) :
  reads (bind r (fun a => bind (k a) l)) x bytes -> reads (bind (bind r k) l) x bytes.
Proof.
  intros H rest. rewrite <- (H rest). unfold bind. destruct (r (bytes ++ rest)) as [[a s] |];
    reflexivity.
Qed.

Lemma reads_ret_bind {A B : Type} (a : A) (k : A -> reader B) (x : B) (bytes : list Z) :
  reads (k a) x bytes -> reads (bind (ret a) k) x bytes.
Proof. intros H. exact H. Qed.

(** Read the fields of an image one by one. *)
Ltac read_fields :=
  repeat lazymatch goal with
  | |- reads (bind (bind _ _) _) _ _ => apply reads_assoc
  | |- reads (bind (ret _) _) _ _ => apply reads_ret_bind
  | |- reads (bind _ _) _ (_ ++ _) => eapply reads_bind; [solve [eauto with stream] |]
  | |- reads (bind (read_le ?n) _) _ (le_bytes ?n ?x) => rewrite <- (app_nil_r (le_bytes n x))
  | |- reads (bind (read_be ?n) _) _ (be_bytes ?n ?x) => rewrite <- (app_nil_r (be_bytes n x))
  | |- reads (ret _) _ [] => apply reads_ret
  end.

Local Opaque read_be read_le.

Lemma deserialize_type_reads (b : block) :
  block_ok b -> reads (deserialize_block_type (type b)) b (serialize b).
Proof.
  intros (Hh & Hs & Hw). destruct b as [h s w | h s w | h s w | h s w | h s w]; destruct h;
    cbn [hashables_ok block_signature block_work] in *; destruct_ands;
    cbn [type deserialize_block_type serialize];
    [ unfold send_block_read, send_hashables_read, send_block_serialize
    | unfold receive_block_read, receive_hashables_read, receive_block_serialize
    | unfold open_block_read, open_hashables_read, open_block_serialize
    | unfold change_block_read, change_hashables_read, change_block_serialize
    | unfold state_block_read, state_hashables_read, state_block_serialize ];
    fields; read_fields.
Qed.

Local Transparent read_be read_le.

Lemma type_of_code_type (b : block) : type_of_code (type_code (type b)) = type b.
Proof. now destruct b. Qed.

Lemma serialize_length (b : block) : length (serialize b) = size (type b).
Proof.
  destruct b; cbn [serialize type]; unfold send_block_serialize, receive_block_serialize,
    open_block_serialize, change_block_serialize, state_block_serialize;
    rewrite !length_app, ?be_bytes_length, ?le_bytes_length; reflexivity.
Qed.

Lemma deserialize_block_reads (b : block) : block_ok b -> reads deserialize_block b (serialize_block b).
Proof.
  intros Hb. unfold deserialize_block, serialize_block. eapply reads_bind.
  - apply reads_le. unfold word. change (8 * Z.of_nat 1) with 8.
    destruct b; cbn [type type_code]; lia.
  - rewrite type_of_code_type. now apply deserialize_type_reads.
Qed.

(** C36: every well-formed block is read back from its serialization, leaving the
    rest of the stream untouched. *)
Theorem block_roundtrip (b : block) (rest : list Z) (Hb : block_ok b) :
  deserialize_block (serialize_block b ++ rest) = Some (b, rest).
Proof. exact (deserialize_block_reads b Hb rest). Qed.

Lemma block_roundtrip_witness :
  deserialize_block (serialize_block (change_block (mk_change 3 4) 5 6) ++ [9]) =
  Some (change_block (mk_change 3 4) 5 6, [9]).
Proof.
  apply (block_roundtrip (change_block (mk_change 3 4) 5 6) [9]).
  concrete_block_ok.
Defined.

Lemma bind_assoc {A B C : Type} (r : reader A) (k : A -> reader B) (l : B -> reader C) (s : list Z) :
  bind (bind r k) l s = bind r (fun a => bind (k a) l) s.
Proof. unfold bind. now destruct (r s) as [[a t] |]. Qed.

Lemma bind_ext {A B : Type} (r : reader A) (k l : A -> reader B) (s : list Z) :
  (forall a t, k a t = l a t) -> bind r k s = bind r l s.
Proof. intros H. unfold bind. now destruct (r s) as [[a t] |]. Qed.

(** The member function [deserialize] and the constructor from a stream of each
    block type read the same bytes into the same block. *)
Theorem deserialize_agrees (s : list Z) :
  send_block_deserialize s = send_block_read s /\
  receive_block_deserialize s = receive_block_read s /\
  open_block_deserialize s = open_block_read s /\
  change_block_deserialize s = change_block_read s /\
  state_block_deserialize s = state_block_read s.
Proof.
  unfold send_block_deserialize, send_block_read, receive_block_deserialize, receive_block_read,
    open_block_deserialize, open_block_read, change_block_deserialize, change_block_read,
    state_block_deserialize, state_block_read, send_hashables_read, receive_hashables_read,
    open_hashables_read, change_hashables_read, state_hashables_read.
  repeat split; repeat (rewrite bind_assoc; apply bind_ext; intros); reflexivity.
Qed.

(** [operator==] holds exactly between equal blocks. *)
Theorem blocks_equal_spec (b b' : block) : blocks_equal b b' = true <-> b = b'.
Proof.
  unfold blocks_equal, type_eqb, send_block_eqb, receive_block_eqb, open_block_eqb, change_block_eqb,
    state_block_eqb.
  destruct b as [h s w | h s w | h s w | h s w | h s w],
    b' as [h' s' w' | h' s' w' | h' s' w' | h' s' w' | h' s' w']; cbn [type type_code];
    try (split; discriminate); destruct h, h'; fields; rewrite !Bool.andb_true_iff, !Z.eqb_eq;
    (split; [intros; destruct_ands; now subst | now intros [= ]; subst]).
Qed.

(** Invert every field read of a successful read. *)
Ltac invert_reads :=
  repeat match goal with
  | H : bind _ _ _ = Some _ |- _ =>
      let x := fresh "x" in let t := fresh "t" in let E := fresh "E" in
      apply bind_inv in H as (x & t & E & H)
  | H : ret _ _ = Some _ |- _ => injection H as <- <-
  | Hs : bytes_ok ?s, H : read_be ?n ?s = Some _ |- _ =>
      let W := fresh "W" in destruct (writes_back_be n _ _ _ Hs H) as (-> & ? & W); clear H Hs
  | Hs : bytes_ok ?s, H : read_le ?n ?s = Some _ |- _ =>
      let W := fresh "W" in destruct (writes_back_le n _ _ _ Hs H) as (-> & ? & W); clear H Hs
  end.

Lemma deserialize_type_writes (t : block_type) :
  writes_back (fun b => block_ok b /\ type b = t) serialize (deserialize_block_type t).
Proof.
  intros s b s' Hs H. destruct t; try discriminate H; cbn [deserialize_block_type] in H;
    [ unfold send_block_read, send_hashables_read in H
    | unfold receive_block_read, receive_hashables_read in H
    | unfold open_block_read, open_hashables_read in H
    | unfold change_block_read, change_hashables_read in H
    | unfold state_block_read, state_hashables_read in H ]; invert_reads;
    cbn [serialize]; unfold send_block_serialize, receive_block_serialize, open_block_serialize,
      change_block_serialize, state_block_serialize, block_ok;
    fields; rewrite <- !app_assoc;
    repeat first [assumption | reflexivity | split].
Qed.

Lemma deserialize_block_writes : writes_back block_ok serialize_block deserialize_block.
Proof.
  intros s b s' Hs Hr. unfold deserialize_block in Hr. apply bind_inv in Hr as (c & t & E & H).
  destruct (writes_back_le 1 _ _ _ Hs E) as (-> & Ht & Hc).
  destruct (deserialize_type_writes _ _ _ _ Ht H) as (-> & Hs' & Hb & Hty).
  split; [| split; [exact Hs' | exact Hb]]. unfold serialize_block. rewrite <- app_assoc. f_equal.
  rewrite Hty. unfold type_of_code in *. f_equal.
  repeat match type of Hty with context [if ?x =? ?y then _ else _] =>
    destruct (Z.eqb_spec x y); [subst; reflexivity |] end. now destruct b.
Qed.

(** A byte string is read as a block only if it is the serialization of that
    block: the format has one encoding per block. *)
Theorem block_canonical (s s' : list Z) (b : block) (Hs : bytes_ok s)
  (Hr : deserialize_block s = Some (b, s')) :
  s = serialize_block b ++ s' /\ block_ok b.
Proof. now destruct (deserialize_block_writes s b s' Hs Hr) as (E & _ & Hb). Qed.

Lemma block_canonical_witness :
  serialize_block (change_block (mk_change 3 4) 5 6) =
    serialize_block (change_block (mk_change 3 4) 5 6) ++ [] /\ block_ok (change_block (mk_change 3 4) 5 6).
Proof.
  apply (block_canonical (serialize_block (change_block (mk_change 3 4) 5 6)) []
    (change_block (mk_change 3 4) 5 6)).
  - unfold bytes_ok. repeat constructor; vm_compute; first [discriminate | reflexivity].
  - vm_compute. reflexivity.
Defined.

(** ** The hash *)

Definition preimage (b : block) : list Z := concat (hash_chunks b).

Lemma digest_of_spec (o : nat) (chunks : list (list Z)) :
  (1 <= o <= 64)%nat -> digest_of o chunks = Some (be_val (spec_blake2b o (concat chunks) [])).
Proof.
  intros Ho. destruct (init_chunks_spec o chunks Ho) as (S0 & E & D). unfold digest_of. rewrite E.
  unfold digest in D. destruct (blake2b_final _ o) as [r |]; [| discriminate].
  cbn [option_map] in *. now injection D as ->.
Qed.

(** Hashing a block never fails and is BLAKE2b-256 of the concatenated
    hashables (with the type preamble for state blocks), read big endian. *)
Theorem block_hash_spec (b : block) :
  block_hash b = Some (be_val (spec_blake2b 32 (preimage b) [])).
Proof. apply digest_of_spec. lia. Qed.

Lemma be_bytes_app_inj (n : nat) (x y : Z) (l l' : list Z) :
  word (8 * Z.of_nat n) x -> word (8 * Z.of_nat n) y ->
  be_bytes n x ++ l = be_bytes n y ++ l' -> x = y /\ l = l'.
Proof.
  intros Hx Hy H. apply app_inj_length in H; [| now rewrite !be_bytes_length].
  destruct H as [E ->]. split; [| reflexivity].
  apply (f_equal be_val) in E. rewrite !be_val_bytes, !Z.mod_small in E by assumption. exact E.
Qed.

(** The preimage determines the block up to signature and work, receive and
    change blocks apart. *)
Lemma preimage_inj (b b' : block) :
  block_ok b -> block_ok b' -> preimage b = preimage b' -> same_hashables b b'.
Proof.
  intros [Hb _] [Hb' _] E. pose proof (f_equal (@length Z) E) as L.
  unfold preimage in *.
  destruct b as [h s w | h s w | h s w | h s w | h s w],
    b' as [h' s' w' | h' s' w' | h' s' w' | h' s' w' | h' s' w'];
    cbn [hash_chunks] in *; unfold send_hashables_hash, receive_hashables_hash, open_hashables_hash,
      change_hashables_hash, state_hashables_hash in *; cbn [concat] in *;
    rewrite !length_app, !be_bytes_length in L; try discriminate L;
    destruct h, h'; fields; destruct_ands;
    repeat match type of E with be_bytes ?n ?x ++ _ = be_bytes ?n ?y ++ _ =>
      let Ex := fresh "Ex" in
      apply (be_bytes_app_inj n x y) in E;
        [| first [assumption | split; [discriminate | reflexivity]] ..];
      destruct E as [Ex E] end; subst; auto.
Qed.

(** Two well-formed blocks have the same preimage exactly if they have the same
    hashables, or are a receive and a change block with the same two fields. *)
Theorem preimage_injective (b b' : block) (Hb : block_ok b) (Hb' : block_ok b') :
  preimage b = preimage b' <-> same_hashables b b'.
Proof.
  split; [now apply preimage_inj |]. unfold preimage. clear Hb Hb'.
  destruct b as [h s w | h s w | h s w | h s w | h s w],
    b' as [h' s' w' | h' s' w' | h' s' w' | h' s' w' | h' s' w']; cbn [same_hashables];
    try easy; try (now intros ->); intros [E1 E2]; destruct h, h'; fields; now subst.
Qed.

Lemma preimage_injective_witness :
  preimage (receive_block (mk_receive 1 2) 0 0) = preimage (change_block (mk_change 1 2) 3 4) <->
  same_hashables (receive_block (mk_receive 1 2) 0 0) (change_block (mk_change 1 2) 3 4).
Proof.
  apply (preimage_injective (receive_block (mk_receive 1 2) 0 0) (change_block (mk_change 1 2) 3 4));
    concrete_block_ok.
Defined.

End Block.
