(* ===== verification/Store.v ===== *)
(** * The block store

    Model of the tables of [nano/node/lmdb.cpp] the ledger works on, with a
    database that has the full sideband (version 13, what every start-up
    upgrade ends in), of [block_sideband] and [representative_visitor] of
    [nano/secure/blockstore.cpp], and of the table records of
    [nano/secure/common.cpp].

    A table is a finite map.  The six block tables are one map keyed by the
    table and the hash; the tables kept per account version ([accounts_v0/1],
    [pending_v0/1]) are one map keyed by the epoch and the key.  A block entry
    is the block and its sideband; the bytes they are stored as are in
    [Blocks.v] and [Records.v].  A read that the code dereferences without a
    check and a write that asserts return an [option]: [None] is the failed
    assertion. *)

From stdpp Require Import base gmap list.
From Stdlib Require Import ZArith Lia.
From S2P Require Import Prelude Blocks.
Local Open Scope Z_scope.

Export Blocks.Block.

Module Store.

(** ** Records *)

Inductive epoch := epoch_invalid | epoch_unspecified | epoch_0 | epoch_1.

#[export] Instance epoch_eq_dec : EqDecision epoch.
Proof. solve_decision. Defined.

Definition epoch_code (e : epoch) : Z :=
  match e with epoch_invalid => 0 | epoch_unspecified => 1 | epoch_0 => 2 | epoch_1 => 3 end.

#[export] Instance epoch_countable : Countable epoch.
Proof.
  refine (inj_countable' (fun e => match e with
      epoch_invalid => 0 | epoch_unspecified => 1 | epoch_0 => 2 | epoch_1 => 3 end)%nat
    (fun n => match n with
      0 => epoch_invalid | 1 => epoch_unspecified | 2 => epoch_0 | _ => epoch_1 end)%nat _).
  now intros [].
Defined.

(** [std::max] on epochs. *)
Definition epoch_max (a b : epoch) : epoch := if epoch_code a <? epoch_code b then b else a.

Record account_info := mk_account_info {
  head : Z; rep_block : Z; open_block_hash : Z; balance : Z; modified : Z; block_count : Z;
  ai_epoch : epoch }.

(** The default constructor. *)
Definition account_info_default : account_info := mk_account_info 0 0 0 0 0 0 epoch_0.

Record pending_info := mk_pending_info { pi_source : Z; pi_amount : Z; pi_epoch : epoch }.

Record sideband := mk_sideband {
  sb_successor : Z; sb_account : Z; sb_balance : Z; sb_height : Z; sb_timestamp : Z }.

Inductive block_db :=
  send_blocks | receive_blocks | open_blocks | change_blocks | state_blocks_v0 | state_blocks_v1.

#[export] Instance block_db_eq_dec : EqDecision block_db.
Proof. solve_decision. Defined.

#[export] Instance block_db_countable : Countable block_db.
Proof.
  refine (inj_countable' (fun d => match d with
      send_blocks => 0 | receive_blocks => 1 | open_blocks => 2 | change_blocks => 3
      | state_blocks_v0 => 4 | state_blocks_v1 => 5 end)%nat
    (fun n => match n with
      0 => send_blocks | 1 => receive_blocks | 2 => open_blocks | 3 => change_blocks
      | 4 => state_blocks_v0 | _ => state_blocks_v1 end)%nat _).
  now intros [].
Defined.

Definition entry : Type := block * sideband.

Record store := mk_store {
  blocks : gmap (block_db * Z) entry;
  accounts : gmap (epoch * Z) account_info;
  pending : gmap (epoch * (Z * Z)) pending_info;
  representation : gmap Z Z;
  frontiers : gmap Z Z }.

Definition empty_store : store := mk_store ∅ ∅ ∅ ∅ ∅.

Definition set_blocks (s : store) (b : gmap (block_db * Z) entry) : store :=
  mk_store b (accounts s) (pending s) (representation s) (frontiers s).
Definition set_accounts (s : store) (a : gmap (epoch * Z) account_info) : store :=
  mk_store (blocks s) a (pending s) (representation s) (frontiers s).
Definition set_pending (s : store) (p : gmap (epoch * (Z * Z)) pending_info) : store :=
  mk_store (blocks s) (accounts s) p (representation s) (frontiers s).
Definition set_representation (s : store) (r : gmap Z Z) : store :=
  mk_store (blocks s) (accounts s) (pending s) r (frontiers s).
Definition set_frontiers (s : store) (f : gmap Z Z) : store :=
  mk_store (blocks s) (accounts s) (pending s) (representation s) f.

Definition present {A : Type} (o : option A) : bool :=
  match o with Some _ => true | None => false end.

(** ** Blocks *)

Definition block_version (s : store) (h : Z) : epoch :=
  if present (blocks s !! (state_blocks_v1, h)) then epoch_1 else epoch_0.

Definition block_database (t : block_type) (e : epoch) : option block_db :=
  match t, e with
  | bt_send, epoch_0 => Some send_blocks
  | bt_receive, epoch_0 => Some receive_blocks
  | bt_open, epoch_0 => Some open_blocks
  | bt_change, epoch_0 => Some change_blocks
  | bt_state, epoch_0 => Some state_blocks_v0
  | bt_state, epoch_1 => Some state_blocks_v1
  | _, _ => None
  end.

Definition block_raw_put (s : store) (d : block_db) (h : Z) (e : entry) : store :=
  set_blocks s (<[(d, h) := e]> (blocks s)).

Definition block_raw_get_by_type (s : store) (h : Z) (t : block_type) : option entry :=
  match t with
  | bt_send => blocks s !! (send_blocks, h)
  | bt_receive => blocks s !! (receive_blocks, h)
  | bt_open => blocks s !! (open_blocks, h)
  | bt_change => blocks s !! (change_blocks, h)
  | bt_state => match blocks s !! (state_blocks_v1, h) with
                | Some e => Some e
                | None => blocks s !! (state_blocks_v0, h)
                end
  | bt_invalid | bt_not_a_block => None
  end.

Fixpoint raw_get_in (s : store) (h : Z) (types : list block_type) : option (block_type * entry) :=
  match types with
  | [] => None
  | t :: rest => match block_raw_get_by_type s h t with
                 | Some e => Some (t, e)
                 | None => raw_get_in s h rest
                 end
  end.

Definition block_raw_get (s : store) (h : Z) : option (block_type * entry) :=
  raw_get_in s h [bt_state; bt_send; bt_receive; bt_open; bt_change].

Definition block_get_full (s : store) (h : Z) : option entry := option_map snd (block_raw_get s h).
Definition block_get (s : store) (h : Z) : option block := option_map fst (block_get_full s h).

Definition block_exists_type (s : store) (t : block_type) (h : Z) : bool :=
  match t with
  | bt_send => present (blocks s !! (send_blocks, h))
  | bt_receive => present (blocks s !! (receive_blocks, h))
  | bt_open => present (blocks s !! (open_blocks, h))
  | bt_change => present (blocks s !! (change_blocks, h))
  | bt_state => present (blocks s !! (state_blocks_v0, h)) || present (blocks s !! (state_blocks_v1, h))
  | bt_invalid | bt_not_a_block => false
  end.

Definition block_exists (s : store) (h : Z) : bool :=
  block_exists_type s bt_send h || block_exists_type s bt_receive h ||
  block_exists_type s bt_open h || block_exists_type s bt_change h ||
  block_exists_type s bt_state h.

Definition source_exists (s : store) (h : Z) : bool :=
  block_exists_type s bt_state h || block_exists_type s bt_send h.

Definition set_successor (e : entry) (h : Z) : entry :=
  (e.1, mk_sideband h (sb_account e.2) (sb_balance e.2) (sb_height e.2) (sb_timestamp e.2)).

Definition block_successor (s : store) (h : Z) : Z :=
  match block_raw_get s h with Some (_, e) => sb_successor e.2 | None => 0 end.

(** [block_predecessor_set::fill_value] and [block_successor_clear]: rewrite
    the successor field of the entry of [h]. *)
Definition successor_put (s : store) (h next : Z) : option store :=
  match block_raw_get s h with
  | Some (t, e) =>
      match block_database t (block_version s h) with
      | Some d => Some (block_raw_put s d h (set_successor e next))
      | None => None
      end
  | None => None
  end.

Definition fill_value (s : store) (b : block) (hash : Z) : option store :=
  successor_put s (previous b) hash.

Definition block_successor_clear (s : store) (h : Z) : option store := successor_put s h 0.

(** The visitor: open blocks have no predecessor, state blocks may have none. *)
Definition block_predecessor_set (s : store) (b : block) (hash : Z) : option store :=
  match b with
  | open_block _ _ _ => Some s
  | state_block _ _ _ => if negb (previous b =? 0) then fill_value s b hash else Some s
  | _ => fill_value s b hash
  end.

Definition block_put (s : store) (h : Z) (b : block) (sb : sideband) (e : epoch) : option store :=
  if negb ((sb_successor sb =? 0) || block_exists s (sb_successor sb)) then None else
  match block_database (type b) e with
  | Some d =>
      match block_predecessor_set (block_raw_put s d h (b, sb)) b h with
      | Some s' => if (previous b =? 0) || (block_successor s' (previous b) =? h)
                   then Some s' else None
      | None => None
      end
  | None => None
  end.

(** Delete from the first table, in this order, that has the hash. *)
Definition block_del (s : store) (h : Z) : option store :=
  let del := fun d => Some (set_blocks s (delete (d, h) (blocks s))) in
  if present (blocks s !! (state_blocks_v1, h)) then del state_blocks_v1
  else if present (blocks s !! (state_blocks_v0, h)) then del state_blocks_v0
  else if present (blocks s !! (send_blocks, h)) then del send_blocks
  else if present (blocks s !! (receive_blocks, h)) then del receive_blocks
  else if present (blocks s !! (open_blocks, h)) then del open_blocks
  else if present (blocks s !! (change_blocks, h)) then del change_blocks
  else None.

Definition block_balance (s : store) (h : Z) : option Z :=
  match block_get_full s h with
  | Some (b, sb) =>
      Some (match b with
            | open_block _ _ _ | receive_block _ _ _ | change_block _ _ _ => sb_balance sb
            | send_block f _ _ => send_balance f
            | state_block f _ _ => state_balance f
            end)
  | None => None
  end.

Definition block_account (s : store) (h : Z) : option Z :=
  match block_get_full s h with
  | Some (b, sb) =>
      let result := if account b =? 0 then sb_account sb else account b in
      if result =? 0 then None else Some result
  | None => None
  end.

(** ** Accounts *)

Definition with_epoch (i : account_info) (e : epoch) : account_info :=
  mk_account_info (head i) (rep_block i) (open_block_hash i) (balance i) (modified i)
    (block_count i) e.

Definition account_get (s : store) (a : Z) : option account_info :=
  match accounts s !! (epoch_1, a) with
  | Some i => Some (with_epoch i epoch_1)
  | None => match accounts s !! (epoch_0, a) with
            | Some i => Some (with_epoch i epoch_0)
            | None => None
            end
  end.

Definition account_exists (s : store) (a : Z) : bool :=
  present (accounts s !! (epoch_0, a)) || present (accounts s !! (epoch_1, a)).

Definition account_put (s : store) (a : Z) (i : account_info) : option store :=
  match ai_epoch i with
  | epoch_0 | epoch_1 => Some (set_accounts s (<[(ai_epoch i, a) := i]> (accounts s)))
  | _ => None
  end.

Definition account_del (s : store) (a : Z) : option store :=
  if present (accounts s !! (epoch_1, a))
  then Some (set_accounts s (delete (epoch_1, a) (accounts s)))
  else if present (accounts s !! (epoch_0, a))
  then Some (set_accounts s (delete (epoch_0, a) (accounts s)))
  else None.

(** ** Frontiers *)

Definition frontier_put (s : store) (h a : Z) : store :=
  set_frontiers s (<[h := a]> (frontiers s)).

Definition frontier_get (s : store) (h : Z) : Z :=
  match frontiers s !! h with Some a => a | None => 0 end.

Definition frontier_del (s : store) (h : Z) : option store :=
  if present (frontiers s !! h) then Some (set_frontiers s (delete h (frontiers s))) else None.

(** ** Pending entries *)

Definition pending_put (s : store) (k : Z * Z) (i : pending_info) : option store :=
  match pi_epoch i with
  | epoch_0 | epoch_1 => Some (set_pending s (<[(pi_epoch i, k) := i]> (pending s)))
  | _ => None
  end.

Definition pending_del (s : store) (k : Z * Z) : option store :=
  if present (pending s !! (epoch_1, k))
  then Some (set_pending s (delete (epoch_1, k) (pending s)))
  else if present (pending s !! (epoch_0, k))
  then Some (set_pending s (delete (epoch_0, k) (pending s)))
  else None.

Definition pending_exists (s : store) (k : Z * Z) : bool :=
  present (pending s !! (epoch_0, k)) || present (pending s !! (epoch_1, k)).

Definition pending_get (s : store) (k : Z * Z) : option pending_info :=
  match pending s !! (epoch_1, k) with
  | Some i => Some (mk_pending_info (pi_source i) (pi_amount i) epoch_1)
  | None => match pending s !! (epoch_0, k) with
            | Some i => Some (mk_pending_info (pi_source i) (pi_amount i) epoch_0)
            | None => None
            end
  end.

(** ** Representation *)

Definition representation_get (s : store) (a : Z) : Z :=
  match representation s !! a with Some w => w | None => 0 end.

Definition representation_put (s : store) (a w : Z) : store :=
  set_representation s (<[a := w]> (representation s)).

(** [amount] is an [uint128_t]; the sum wraps. *)
Definition representation_add (s : store) (source amount : Z) : option store :=
  match block_get s source with
  | Some b => let rep := representative b in
              Some (representation_put s rep (u128 (representation_get s rep + amount)))
  | None => None
  end.

(** ** [representative_visitor]: the last block of the chain that names a
    representative, walking back from [h]; one unit of fuel per block. *)
Fixpoint representative_compute `{BlockHash} (fuel : nat) (s : store) (h : Z) : option Z :=
  match fuel with
  | O => None
  | S fuel' =>
      match block_get s h with
      | None => None
      | Some b =>
          match b with
          | send_block _ _ _ | receive_block _ _ _ =>
              representative_compute fuel' s (previous b)
          | open_block _ _ _ | change_block _ _ _ | state_block _ _ _ => Some (hash b)
          end
      end
  end.

(** ** [mdb_store::initialize] *)
Definition initialize (genesis_hash genesis_account now : Z) (genesis_open : block) : option store :=
  let sb := mk_sideband 0 genesis_account (2 ^ 128 - 1) 1 now in
  match block_put empty_store genesis_hash genesis_open sb epoch_0 with
  | Some s =>
      match account_put s genesis_account (mk_account_info genesis_hash genesis_hash genesis_hash
        (2 ^ 128 - 1) now 1 epoch_0) with
      | Some s => Some (frontier_put (representation_put s genesis_account (2 ^ 128 - 1))
                          genesis_hash genesis_account)
      | None => None
      end
  | None => None
  end.

End Store.
