(* ===== verification/Ledger.v ===== *)
(** * The ledger: definitions

    Model of [nano/secure/ledger.cpp]: processing a block of each type
    ([ledger_processor]), rolling blocks back ([rollback_visitor]) and the
    queries, on the tables of [Store.v].  The code threads the store, the
    counters and the result record through every call; here this is a state
    monad whose computations end in a value, in a failed assertion (or the
    dereference of a null block), or out of fuel (rollback only). *)

From stdpp Require Import base gmap list.
From Stdlib Require Import ZArith Lia.
From S2P Require Import Prelude Blocks Store.
Local Open Scope Z_scope.

Module Ledger.
Export Store.Store.

(** ** Results *)

Inductive process_result :=
| progress | bad_signature | old | negative_spend | fork | unreceivable | gap_previous
| gap_source | opened_burn_account | balance_mismatch | representative_mismatch
| block_position.

#[export] Instance process_result_eq_dec : EqDecision process_result.
Proof. solve_decision. Defined.

Inductive signature_verification := sv_unknown | sv_invalid | sv_valid | sv_valid_epoch.

#[export] Instance signature_verification_eq_dec : EqDecision signature_verification.
Proof. solve_decision. Defined.

Record process_return := mk_return {
  code : process_result; r_account : Z; r_amount : Z; pending_account : Z;
  state_is_send : option bool; verified : signature_verification }.

(** The counters [ledger.stats.inc] is called with. *)
Inductive stat_type := st_ledger | st_rollback.
Inductive stat_detail :=
  sd_send | sd_receive | sd_open | sd_change | sd_state_block | sd_epoch_block.

(** ** The monad *)

Record lstate := mk_lstate {
  db : store; stats : list (stat_type * stat_detail); result : process_return;
  rolled : list Z }.

Inductive outcome (A : Type) :=
| Done (x : A)
| Failed
| OutOfFuel.
Arguments Done {A} x.
Arguments Failed {A}.
Arguments OutOfFuel {A}.

Definition M (A : Type) : Type := lstate -> outcome (A * lstate).

#[export] Instance M_ret : MRet M := fun A x s => Done (x, s).
#[export] Instance M_bind : MBind M := fun A B k m s =>
  match m s with
  | Done (x, s') => k x s'
  | Failed => Failed
  | OutOfFuel => OutOfFuel
  end.

Definition fail {A : Type} : M A := fun _ => Failed.
Definition out_of_fuel {A : Type} : M A := fun _ => OutOfFuel.
Definition assert (c : bool) : M unit := if c then mret () else fail.

(** Read from the store; the null result is dereferenced or asserted against. *)
Definition reads {A : Type} (f : store -> A) : M A := fun s => Done (f (db s), s).
Definition must {A : Type} (o : option A) : M A :=
  match o with Some x => mret x | None => fail end.
Definition needs {A : Type} (f : store -> option A) : M A := o ← reads f; must o.

(** Write to the store. *)
Definition writes (f : store -> option store) : M unit := fun s =>
  match f (db s) with
  | Some d => Done ((), mk_lstate d (stats s) (result s) (rolled s))
  | None => Failed
  end.
Definition puts (f : store -> store) : M unit := writes (fun d => Some (f d)).

Definition stat_inc (t : stat_type) (d : stat_detail) : M unit := fun s =>
  Done ((), mk_lstate (db s) (stats s ++ [(t, d)]) (result s) (rolled s)).

(** [list_a.push_back (h)] of a rollback. *)
Definition push_rolled (h : Z) : M unit := fun s =>
  Done ((), mk_lstate (db s) (stats s) (result s) (rolled s ++ [h])).

Definition get_result : M process_return := fun s => Done (result s, s).
Definition modify (f : process_return -> process_return) : M unit := fun s =>
  Done ((), mk_lstate (db s) (stats s) (f (result s)) (rolled s)).

Definition set_code (c : process_result) : M unit := modify (fun r =>
  mk_return c (r_account r) (r_amount r) (pending_account r) (state_is_send r) (verified r)).
Definition set_verified (v : signature_verification) : M unit := modify (fun r =>
  mk_return (code r) (r_account r) (r_amount r) (pending_account r) (state_is_send r) v).
Definition set_account (a : Z) : M unit := modify (fun r =>
  mk_return (code r) a (r_amount r) (pending_account r) (state_is_send r) (verified r)).
Definition set_amount (a : Z) : M unit := modify (fun r =>
  mk_return (code r) (r_account r) a (pending_account r) (state_is_send r) (verified r)).
Definition set_pending_account (a : Z) : M unit := modify (fun r =>
  mk_return (code r) (r_account r) (r_amount r) a (state_is_send r) (verified r)).
Definition set_is_send (b : bool) : M unit := modify (fun r =>
  mk_return (code r) (r_account r) (r_amount r) (pending_account r) (Some b) (verified r)).

(** [result.code = c ? progress : other; if (result.code == progress) { k }]. *)
Definition check (c : bool) (other : process_result) (k : M unit) : M unit :=
  set_code (if c then progress else other);; if c then k else mret ().

(** ** What the ledger takes from its environment *)

(** The block hash, the signature check ([validate_message] is [true] on an invalid signature),
    the members of [nano::ledger] and the clock. *)
Class Env := {
  env_hash :: BlockHash;
  validate_message : Z -> Z -> Z -> bool;
  epoch_link : Z;
  epoch_signer : Z;
  genesis_account : Z;
  now : Z }.

Definition genesis_amount : Z := 2 ^ 128 - 1.
Definition burn_account : Z := 0.

Section Operations.

Context `{Env}.

Definition is_epoch_link (link : Z) : bool := link =? epoch_link.

(** ** Queries *)

Definition ledger_balance (h : Z) : M Z :=
  if h =? 0 then mret 0 else needs (fun s => block_balance s h).

Definition account_balance (s : store) (a : Z) : Z :=
  match account_get s a with Some i => balance i | None => 0 end.

Definition latest (s : store) (a : Z) : Z :=
  match account_get s a with Some i => head i | None => 0 end.

Definition latest_root (s : store) (a : Z) : Z :=
  match account_get s a with Some i => head i | None => a end.

Definition ledger_account (h : Z) : M Z := needs (fun s => block_account s h).

(** The walk of [representative_visitor] visits a block at most once. *)
Definition representative_calculated (h : Z) : M Z :=
  needs (fun s => representative_compute (S (base.size (Store.blocks s))) s h).

Definition ledger_representative (h : Z) : M Z :=
  r ← representative_calculated h;
  e ← reads (fun s => block_exists s r);
  assert ((r =? 0) || e);;
  mret r.

Definition amount (h : Z) : M Z :=
  if negb (h =? genesis_account) then
    b ← needs (fun s => block_get s h);
    block_balance ← ledger_balance h;
    previous_balance ← ledger_balance (previous b);
    mret (if previous_balance <? block_balance then block_balance - previous_balance
          else previous_balance - block_balance)
  else mret genesis_amount.

Definition is_send (b : state_hashables) : M bool :=
  if negb (state_previous b =? 0) then
    p ← ledger_balance (state_previous b);
    mret (state_balance b <? p)
  else mret false.

Definition block_destination (b : block) : M Z :=
  match b with
  | send_block h _ _ => mret (send_destination h)
  | state_block h _ _ => s ← is_send h; mret (if s : bool then state_link h else 0)
  | _ => mret 0
  end.

Definition block_source (b : block) : M Z :=
  e ← reads (fun s => block_exists s (previous b));
  assert ((previous b =? 0) || e);;
  match b with
  | state_block h _ _ => s ← is_send h; mret (if s : bool then source b else state_link h)
  | _ => mret (source b)
  end.

(** [block_fit_visitor]. *)
Definition could_fit (b : block) : M bool :=
  match b with
  | send_block _ _ _ | change_block _ _ _ => reads (fun s => block_exists s (previous b))
  | receive_block _ _ _ =>
      reads (fun s => block_exists s (previous b) && block_exists s (source b))
  | open_block _ _ _ => reads (fun s => block_exists s (source b))
  | state_block h _ _ =>
      fits ← reads (fun s => (previous b =? 0) || block_exists s (previous b));
      if fits : bool then
        snd ← is_send h;
        if snd : bool then mret true
        else reads (fun s => block_exists s (state_link h) || (state_link h =? 0)
                             || is_epoch_link (state_link h))
      else mret false
  end.

(** [root_a] as its two halves. *)
Definition successor (root_previous root_account : Z) : M (option block) :=
  e ← reads (fun s => account_exists s root_account);
  next ← (if (root_previous =? 0) && e then
            i ← needs (fun s => account_get s root_account); mret (open_block_hash i)
          else reads (fun s => block_successor s root_previous));
  r ← (if negb (next =? 0) then reads (fun s => block_get s next) else mret None);
  assert ((next =? 0) || present r);;
  mret r.

Definition forked_block (b : block) : M block :=
  e ← reads (fun s => block_exists_type s (type b) (hash b));
  assert (negb e);;
  known ← reads (fun s => block_exists s (root b) || account_exists s (root b));
  assert known;;
  r ← reads (fun s => block_get s (block_successor s (root b)));
  match r with
  | Some x => mret x
  | None =>
      i ← needs (fun s => account_get s (root b));
      needs (fun s => block_get s (open_block_hash i))
  end.

(** ** [change_latest] *)

Definition change_latest (a h rep_block_a balance_a block_count_a : Z) (epoch_a : epoch) : M unit :=
  existing ← reads (fun s => account_get s a);
  info ← match existing with
         | Some i => mret i
         | None =>
             b ← needs (fun s => block_get s h);
             assert (previous b =? 0);;
             mret (mk_account_info 0 0 h 0 0 0 epoch_0)
         end;
  if negb (h =? 0) then
    (if present existing && negb (bool_decide (ai_epoch info = epoch_a))
     then writes (fun s => account_del s a) else mret ());;
    writes (fun s => account_put s a (mk_account_info h rep_block_a (open_block_hash info)
      balance_a now block_count_a epoch_a))
  else writes (fun s => account_del s a).

(** ** [ledger_processor] *)

(** [if (result.verified != v) result.code = validate ? bad_signature : progress;
    if (result.code == progress) { assert; result.verified = v; k }]. *)
Definition check_signature (v : signature_verification) (signer h signature : Z) (k : M unit) : M unit :=
  r ← get_result;
  let invalid := negb (bool_decide (verified r = v)) && validate_message signer h signature in
  set_code (if invalid then bad_signature else progress);;
  if invalid then mret () else
    assert (negb (validate_message signer h signature));;
    set_verified v;;
    k.

Definition process_change (f : change_hashables) (signature work : Z) : M unit :=
  let b := change_block f signature work in
  let h := hash b in
  existing ← reads (fun s => block_exists_type s (type b) h);
  check (negb existing) old (
  prev ← reads (fun s => block_get s (change_previous f));
  check (present prev) gap_previous (
  p ← must prev;
  check (valid_predecessor b p) block_position (
  a ← reads (fun s => frontier_get s (change_previous f));
  check (negb (a =? 0)) fork (
  info ← needs (fun s => account_get s a);
  assert (head info =? change_previous f);;
  check_signature sv_valid a h signature (
  writes (fun s => block_put s h b
    (mk_sideband 0 a (balance info) (u64 (block_count info + 1)) now) epoch_0);;
  bal ← ledger_balance (change_previous f);
  writes (fun s => representation_add s h bal);;
  writes (fun s => representation_add s (rep_block info) (u128 (0 - bal)));;
  change_latest a h h (balance info) (u64 (block_count info + 1)) epoch_0;;
  writes (fun s => frontier_del s (change_previous f));;
  puts (fun s => frontier_put s h a);;
  set_account a;;
  set_amount 0;;
  stat_inc st_ledger sd_change))))).

Definition process_send (f : send_hashables) (signature work : Z) : M unit :=
  let b := send_block f signature work in
  let h := hash b in
  existing ← reads (fun s => block_exists_type s (type b) h);
  check (negb existing) old (
  prev ← reads (fun s => block_get s (send_previous f));
  check (present prev) gap_previous (
  p ← must prev;
  check (valid_predecessor b p) block_position (
  a ← reads (fun s => frontier_get s (send_previous f));
  check (negb (a =? 0)) fork (
  check_signature sv_valid a h signature (
  info ← needs (fun s => account_get s a);
  assert (head info =? send_previous f);;
  check (send_balance f <=? balance info) negative_spend (
  let amt := balance info - send_balance f in
  writes (fun s => representation_add s (rep_block info) (u128 (0 - amt)));;
  writes (fun s => block_put s h b
    (mk_sideband 0 a (send_balance f) (u64 (block_count info + 1)) now) epoch_0);;
  change_latest a h (rep_block info) (send_balance f) (u64 (block_count info + 1)) epoch_0;;
  writes (fun s => pending_put s (send_destination f, h) (mk_pending_info a amt epoch_0));;
  writes (fun s => frontier_del s (send_previous f));;
  puts (fun s => frontier_put s h a);;
  set_account a;;
  set_amount amt;;
  set_pending_account (send_destination f);;
  stat_inc st_ledger sd_send)))))).

Definition process_receive (f : receive_hashables) (signature work : Z) : M unit :=
  let b := receive_block f signature work in
  let h := hash b in
  existing ← reads (fun s => block_exists_type s (type b) h);
  check (negb existing) old (
  prev ← reads (fun s => block_get s (receive_previous f));
  check (present prev) gap_previous (
  p ← must prev;
  check (valid_predecessor b p) block_position (
  a ← reads (fun s => frontier_get s (receive_previous f));
  set_code (if a =? 0 then gap_previous else progress);;
  if negb (a =? 0) then
    check_signature sv_valid a h signature (
    source ← reads (fun s => source_exists s (receive_source f));
    check source gap_source (
    i ← reads (fun s => account_get s a);
    let info := match i with Some i => i | None => account_info_default end in
    check (head info =? receive_previous f) gap_previous (
    pend ← reads (fun s => pending_get s (a, receive_source f));
    check (present pend) unreceivable (
    pd ← must pend;
    check (bool_decide (pi_epoch pd = epoch_0)) unreceivable (
    let new_balance := u128 (balance info + pi_amount pd) in
    needs (fun s => account_get s (pi_source pd));;
    writes (fun s => pending_del s (a, receive_source f));;
    writes (fun s => block_put s h b
      (mk_sideband 0 a new_balance (u64 (block_count info + 1)) now) epoch_0);;
    change_latest a h (rep_block info) new_balance (u64 (block_count info + 1)) epoch_0;;
    writes (fun s => representation_add s (rep_block info) (pi_amount pd));;
    writes (fun s => frontier_del s (receive_previous f));;
    puts (fun s => frontier_put s h a);;
    set_account a;;
    set_amount (pi_amount pd);;
    stat_inc st_ledger sd_receive)))))
  else
    e ← reads (fun s => block_exists s (receive_previous f));
    set_code (if e : bool then fork else gap_previous)))).

Definition process_open (f : open_hashables) (signature work : Z) : M unit :=
  let b := open_block f signature work in
  let h := hash b in
  let a := open_account f in
  existing ← reads (fun s => block_exists_type s (type b) h);
  check (negb existing) old (
  check_signature sv_valid a h signature (
  source ← reads (fun s => source_exists s (open_source f));
  check source gap_source (
  info ← reads (fun s => account_get s a);
  check (negb (present info)) fork (
  pend ← reads (fun s => pending_get s (a, open_source f));
  check (present pend) unreceivable (
  pd ← must pend;
  check (negb (a =? burn_account)) opened_burn_account (
  check (bool_decide (pi_epoch pd = epoch_0)) unreceivable (
  needs (fun s => account_get s (pi_source pd));;
  writes (fun s => pending_del s (a, open_source f));;
  writes (fun s => block_put s h b (mk_sideband 0 a (pi_amount pd) 1 now) epoch_0);;
  change_latest a h h (pi_amount pd) 1 epoch_0;;
  writes (fun s => representation_add s h (pi_amount pd));;
  puts (fun s => frontier_put s h a);;
  set_account a;;
  set_amount (pi_amount pd);;
  stat_inc st_ledger sd_open))))))).

Definition frontier_drop (h : Z) : M unit :=
  a ← reads (fun s => frontier_get s h);
  if negb (a =? 0) then writes (fun s => frontier_del s h) else mret ().

(** The part of [state_block_impl] that settles the amounts, given the account
    ([None] if it is not open yet): what follows depends on whether the block
    sends, on the amount and on the epoch. *)
Definition state_check_source (f : state_hashables) (is_send : bool) (amt : Z) (e : epoch)
    (k : epoch -> M unit) : M unit :=
  if negb is_send then
    if negb (state_link f =? 0) then
      source ← reads (fun s => source_exists s (state_link f));
      check source gap_source (
      pend ← reads (fun s => pending_get s (state_account f, state_link f));
      check (present pend) unreceivable (
      pd ← must pend;
      check (amt =? pi_amount pd) balance_mismatch (k (epoch_max e (pi_epoch pd)))))
    else check (amt =? 0) balance_mismatch (k e)
  else k e.

Definition state_commit (f : state_hashables) (signature work : Z) (info : account_info)
    (is_send : bool) (amt : Z) (e : epoch) : M unit :=
  let b := state_block f signature work in
  let h := hash b in
  stat_inc st_ledger sd_state_block;;
  set_is_send is_send;;
  writes (fun s => block_put s h b
    (mk_sideband 0 (state_account f) 0 (u64 (block_count info + 1)) now) e);;
  (if negb (rep_block info =? 0)
   then writes (fun s => representation_add s (rep_block info) (u128 (0 - balance info)))
   else mret ());;
  writes (fun s => representation_add s h (state_balance f));;
  (if is_send then
     writes (fun s => pending_put s (state_link f, h) (mk_pending_info (state_account f) amt e))
   else if negb (state_link f =? 0) then
     writes (fun s => pending_del s (state_account f, state_link f))
   else mret ());;
  change_latest (state_account f) h h (state_balance f) (u64 (block_count info + 1)) e;;
  frontier_drop (head info);;
  set_account (state_account f).

Definition state_block_impl (f : state_hashables) (signature work : Z) : M unit :=
  let b := state_block f signature work in
  let h := hash b in
  existing ← reads (fun s => block_exists_type s (type b) h);
  check (negb existing) old (
  check_signature sv_valid (state_account f) h signature (
  check (negb (state_account f =? 0)) opened_burn_account (
  set_amount (state_balance f);;
  i ← reads (fun s => account_get s (state_account f));
  match i with
  | Some info =>
      check (negb (state_previous f =? 0)) fork (
      pe ← reads (fun s => block_exists s (state_previous f));
      check pe gap_previous (
      let is_send := state_balance f <? balance info in
      let amt := if is_send then balance info - state_balance f
                 else state_balance f - balance info in
      set_amount amt;;
      check (state_previous f =? head info) fork (
      state_check_source f is_send amt (ai_epoch info) (
      state_commit f signature work info is_send amt))))
  | None =>
      check (state_previous f =? 0) gap_previous (
      check (negb (state_link f =? 0)) gap_source (
      state_check_source f false (state_balance f) epoch_0 (
      state_commit f signature work account_info_default false (state_balance f))))
  end))).

Definition epoch_commit (f : state_hashables) (signature work : Z) (info : account_info) : M unit :=
  let b := state_block f signature work in
  let h := hash b in
  check (bool_decide (ai_epoch info = epoch_0)) block_position (
  check (state_balance f =? balance info) balance_mismatch (
  stat_inc st_ledger sd_epoch_block;;
  set_account (state_account f);;
  set_amount 0;;
  writes (fun s => block_put s h b
    (mk_sideband 0 (state_account f) 0 (u64 (block_count info + 1)) now) epoch_1);;
  change_latest (state_account f) h h (balance info) (u64 (block_count info + 1)) epoch_1;;
  frontier_drop (head info))).

Definition epoch_block_impl (f : state_hashables) (signature work : Z) : M unit :=
  let b := state_block f signature work in
  let h := hash b in
  existing ← reads (fun s => block_exists_type s (type b) h);
  check (negb existing) old (
  check_signature sv_valid_epoch epoch_signer h signature (
  check (negb (state_account f =? 0)) opened_burn_account (
  i ← reads (fun s => account_get s (state_account f));
  match i with
  | Some info =>
      check (negb (state_previous f =? 0)) fork (
      check (state_previous f =? head info) fork (
      last_rep_block ← needs (fun s => block_get s (rep_block info));
      check (state_representative f =? representative last_rep_block) representative_mismatch (
      epoch_commit f signature work info)))
  | None =>
      check (state_representative f =? 0) representative_mismatch (
      epoch_commit f signature work account_info_default)
  end))).

(** [if (validate_message (account)) ... ]: the check made for an epoch link
    whose previous block is missing. *)
Definition check_gap_signature (f : state_hashables) (h signature : Z) : M unit :=
  r ← get_result;
  if bool_decide (verified r = sv_unknown) then
    if validate_message (state_account f) h signature then
      if validate_message epoch_signer h signature then
        set_verified sv_invalid;; set_code bad_signature
      else set_verified sv_valid_epoch
    else set_verified sv_valid
  else mret ().

Definition process_state (f : state_hashables) (signature work : Z) : M unit :=
  let b := state_block f signature work in
  set_code progress;;
  is_epoch_block ←
    (if negb (epoch_link =? 0) && is_epoch_link (state_link f) then
       prev_balance ←
         (if negb (state_previous f =? 0) then
            pe ← reads (fun s => block_exists s (state_previous f));
            set_code (if pe : bool then progress else gap_previous);;
            if pe : bool then ledger_balance (state_previous f)
            else check_gap_signature f (hash b) signature;; mret 0
          else mret 0);
       mret (state_balance f =? prev_balance)
     else mret false);
  r ← get_result;
  if bool_decide (code r = progress) then
    if is_epoch_block : bool then epoch_block_impl f signature work
    else state_block_impl f signature work
  else mret ().

(** [ledger::process]: the visitor's dispatch. *)
Definition process_block (b : block) : M unit :=
  match b with
  | send_block f s w => process_send f s w
  | receive_block f s w => process_receive f s w
  | open_block f s w => process_open f s w
  | change_block f s w => process_change f s w
  | state_block f s w => process_state f s w
  end.

Definition initial_result (v : signature_verification) : process_return :=
  mk_return progress 0 0 0 None v.

Definition process (d : store) (b : block) (v : signature_verification)
    : outcome (process_return * store) :=
  match process_block b (mk_lstate d [] (initial_result v) []) with
  | Done (_, s) => Done (result s, db s)
  | Failed => Failed
  | OutOfFuel => OutOfFuel
  end.

(** ** [rollback_visitor] and [ledger::rollback] *)

(** A loop of at most [n] iterations. *)
Fixpoint while_ (n : nat) (c : M bool) (body : M unit) : M unit :=
  match n with
  | O => out_of_fuel
  | S n' => go ← c; if go : bool then body;; while_ n' c body else mret ()
  end.

Section Visitor.

(** The loops' fuel, and [ledger.rollback], which the visitor calls back. *)
Context (n : nat) (rollback : Z -> M unit).

Definition rollback_send (f : send_hashables) (h : Z) : M unit :=
  let key := (send_destination f, h) in
  while_ n (reads (fun s => negb (present (pending_get s key))))
    (l ← reads (fun s => latest s (send_destination f)); rollback l);;
  pd ← needs (fun s => pending_get s key);
  info ← needs (fun s => account_get s (pi_source pd));
  writes (fun s => pending_del s key);;
  rep ← ledger_representative h;
  writes (fun s => representation_add s rep (pi_amount pd));;
  bal ← ledger_balance (send_previous f);
  change_latest (pi_source pd) (send_previous f) (rep_block info) bal
    (u64 (block_count info - 1)) epoch_0;;
  writes (fun s => block_del s h);;
  writes (fun s => frontier_del s h);;
  puts (fun s => frontier_put s (send_previous f) (pi_source pd));;
  writes (fun s => block_successor_clear s (send_previous f));;
  stat_inc st_rollback sd_send.

Definition rollback_receive (f : receive_hashables) (h : Z) : M unit :=
  rep ← ledger_representative (receive_previous f);
  amt ← amount (receive_source f);
  destination ← ledger_account h;
  source_account ← ledger_account (receive_source f);
  info ← needs (fun s => account_get s destination);
  r ← ledger_representative h;
  writes (fun s => representation_add s r (u128 (0 - amt)));;
  bal ← ledger_balance (receive_previous f);
  change_latest destination (receive_previous f) rep bal (u64 (block_count info - 1)) epoch_0;;
  writes (fun s => block_del s h);;
  writes (fun s => pending_put s (destination, receive_source f)
    (mk_pending_info source_account amt epoch_0));;
  writes (fun s => frontier_del s h);;
  puts (fun s => frontier_put s (receive_previous f) destination);;
  writes (fun s => block_successor_clear s (receive_previous f));;
  stat_inc st_rollback sd_receive.

Definition rollback_open (f : open_hashables) (h : Z) : M unit :=
  amt ← amount (open_source f);
  destination ← ledger_account h;
  source_account ← ledger_account (open_source f);
  r ← ledger_representative h;
  writes (fun s => representation_add s r (u128 (0 - amt)));;
  change_latest destination 0 0 0 0 epoch_0;;
  writes (fun s => block_del s h);;
  writes (fun s => pending_put s (destination, open_source f)
    (mk_pending_info source_account amt epoch_0));;
  writes (fun s => frontier_del s h);;
  stat_inc st_rollback sd_open.

Definition rollback_change (f : change_hashables) (h : Z) : M unit :=
  rep ← ledger_representative (change_previous f);
  a ← ledger_account (change_previous f);
  info ← needs (fun s => account_get s a);
  bal ← ledger_balance (change_previous f);
  writes (fun s => representation_add s rep bal);;
  writes (fun s => representation_add s h (u128 (0 - bal)));;
  writes (fun s => block_del s h);;
  change_latest a (change_previous f) rep (balance info) (u64 (block_count info - 1)) epoch_0;;
  writes (fun s => frontier_del s h);;
  puts (fun s => frontier_put s (change_previous f) a);;
  writes (fun s => block_successor_clear s (change_previous f));;
  stat_inc st_rollback sd_change.

Definition rollback_state (f : state_hashables) (h : Z) : M unit :=
  rep ← (if negb (state_previous f =? 0) then ledger_representative (state_previous f)
         else mret 0);
  bal ← ledger_balance (state_previous f);
  let is_send := state_balance f <? bal in
  writes (fun s => representation_add s h (u128 (0 - state_balance f)));;
  (if negb (rep =? 0) then writes (fun s => representation_add s rep bal) else mret ());;
  i ← reads (fun s => account_get s (state_account f));
  (if is_send then
     let key := (state_link f, h) in
     while_ n (reads (fun s => negb (pending_exists s key)))
       (l ← reads (fun s => latest s (state_link f)); rollback l);;
     writes (fun s => pending_del s key);;
     stat_inc st_rollback sd_send
   else if negb (state_link f =? 0) && negb (is_epoch_link (state_link f)) then
     source_version ← reads (fun s => block_version s (state_link f));
     source_account ← ledger_account (state_link f);
     writes (fun s => pending_put s (state_account f, state_link f)
       (mk_pending_info source_account (u128 (state_balance f - bal)) source_version));;
     stat_inc st_rollback sd_receive
   else mret ());;
  info ← must i;
  previous_version ← reads (fun s => block_version s (state_previous f));
  change_latest (state_account f) (state_previous f) rep bal (u64 (block_count info - 1))
    previous_version;;
  prev ← reads (fun s => block_get s (state_previous f));
  match prev with
  | Some p =>
      writes (fun s => block_successor_clear s (state_previous f));;
      if type_code (type p) <? type_code bt_state
      then puts (fun s => frontier_put s (state_previous f) (state_account f)) else mret ()
  | None => stat_inc st_rollback sd_open
  end;;
  writes (fun s => block_del s h).

Definition rollback_block (b : block) : M unit :=
  match b with
  | send_block f _ _ => rollback_send f (hash b)
  | receive_block f _ _ => rollback_receive f (hash b)
  | open_block f _ _ => rollback_open f (hash b)
  | change_block f _ _ => rollback_change f (hash b)
  | state_block f _ _ => rollback_state f (hash b)
  end.

(** One iteration of [rollback]'s loop: undo the head of account [a]. *)
Definition rollback_head (a : Z) : M unit :=
  info ← needs (fun s => account_get s a);
  b ← reads (fun s => block_get s (head info));
  push_rolled (head info);;
  b ← must b;
  rollback_block b.

End Visitor.

(** The fuel bounds the depth of the mutual recursion and, at each depth, the
    iterations of each loop. *)
Fixpoint rollback (fuel : nat) (h : Z) : M unit :=
  match fuel with
  | O => out_of_fuel
  | S n =>
      e ← reads (fun s => block_exists s h);
      assert e;;
      a ← ledger_account h;
      while_ n (reads (fun s => block_exists s h)) (rollback_head n (rollback n) a)
  end.

End Operations.

End Ledger.
