(* ===== verification/LedgerInv.v ===== *)
(** * The ledger: the invariant and its proof

    [inv] is what the tables of [Store.v] satisfy between two blocks: hashes
    and tables agree, every account's head is the end of its chain, the
    frontier table is the legacy heads, the representation table is the
    balances summed by representative, and balances and pending amounts add up
    to the genesis amount.  [process] keeps it, never fails an assertion, and
    either leaves the store alone or appends exactly one block. *)

From stdpp Require Import base gmap list.
From Stdlib Require Import ZArith Lia.
From S2P Require Import Prelude Blocks Store Ledger.
Local Open Scope Z_scope.

Module LedgerInv.
Import Ledger.Ledger.

(** ** Total correctness of computations *)

Definition wp {A : Type} (m : M A) (s : lstate) (Q : A -> lstate -> Prop) : Prop :=
  match m s with Done (x, s') => Q x s' | Failed | OutOfFuel => False end.

Definition set_db (s : lstate) (d : store) : lstate :=
  mk_lstate d (stats s) (result s) (rolled s).
Definition set_result (s : lstate) (r : process_return) : lstate :=
  mk_lstate (db s) (stats s) r (rolled s).

Implicit Types (s : lstate).

Lemma wp_ret {A : Type} (x : A) s (Q : A -> lstate -> Prop) : Q x s -> wp (mret x) s Q.
Proof. intros HQ. exact HQ. Qed.

Lemma wp_bind {A B : Type} (m : M A) (k : A -> M B) s (Q : B -> lstate -> Prop) :
  wp m s (fun x s' => wp (k x) s' Q) -> wp (m ≫= k) s Q.
Proof. unfold wp, mbind, M_bind. destruct (m s) as [[x s'] | |]; auto. Qed.

Lemma wp_mono {A : Type} (m : M A) s (Q Q' : A -> lstate -> Prop) :
  wp m s Q -> (forall x s', Q x s' -> Q' x s') -> wp m s Q'.
Proof. unfold wp. destruct (m s) as [[x s'] | |]; auto. Qed.

Lemma wp_reads {A : Type} (f : store -> A) s (Q : A -> lstate -> Prop) :
  Q (f (db s)) s -> wp (reads f) s Q.
Proof. intros HQ. exact HQ. Qed.

Lemma wp_must {A : Type} (o : option A) (x : A) s (Q : A -> lstate -> Prop) :
  o = Some x -> Q x s -> wp (must o) s Q.
Proof. intros -> HQ. exact HQ. Qed.

Lemma wp_needs {A : Type} (f : store -> option A) (x : A) s (Q : A -> lstate -> Prop) :
  f (db s) = Some x -> Q x s -> wp (needs f) s Q.
Proof. intros E HQ. unfold needs. apply wp_bind, wp_reads. now rewrite E. Qed.

Lemma wp_writes (f : store -> option store) (d : store) s (Q : unit -> lstate -> Prop) :
  f (db s) = Some d -> Q () (set_db s d) -> wp (writes f) s Q.
Proof. intros E HQ. unfold wp, writes. now rewrite E. Qed.

Lemma wp_puts (f : store -> store) s (Q : unit -> lstate -> Prop) :
  Q () (set_db s (f (db s))) -> wp (puts f) s Q.
Proof. intros HQ. exact HQ. Qed.

Lemma wp_assert (c : bool) s (Q : unit -> lstate -> Prop) :
  c = true -> Q () s -> wp (assert c) s Q.
Proof. intros -> HQ. exact HQ. Qed.

Lemma wp_modify (f : process_return -> process_return) s (Q : unit -> lstate -> Prop) :
  Q () (set_result s (f (result s))) -> wp (modify f) s Q.
Proof. intros HQ. exact HQ. Qed.

Lemma wp_stat_inc (t : stat_type) (d : stat_detail) s (Q : unit -> lstate -> Prop) :
  (forall s', db s' = db s -> result s' = result s -> Q () s') -> wp (stat_inc t d) s Q.
Proof. intros HQ. now apply HQ. Qed.

(** ** Sums over tables *)

Definition map_sum {K V : Type} `{Countable K} (f : V -> Z) (m : gmap K V) : Z :=
  map_fold (fun _ v acc => f v + acc) 0 m.

Section MapSum.

Context {K V : Type} `{Countable K}.
Implicit Types (m : gmap K V) (f g : V -> Z).

Lemma map_sum_insert f m k v : m !! k = None -> map_sum f (<[k := v]> m) = f v + map_sum f m.
Proof. intros Hk. unfold map_sum. rewrite map_fold_insert_L; [reflexivity | intros; lia | done]. Qed.

Lemma map_sum_delete f m k v : m !! k = Some v -> map_sum f (delete k m) = map_sum f m - f v.
Proof.
  intros Hk. rewrite <- (insert_delete_id m k v Hk) at 2.
  rewrite map_sum_insert by apply lookup_delete_eq. lia.
Qed.

Lemma map_sum_ext f g m : (forall k v, m !! k = Some v -> f v = g v) -> map_sum f m = map_sum g m.
Proof.
  induction m as [| k v m Hk IH] using map_ind; intros E; [reflexivity |].
  rewrite !map_sum_insert by done. rewrite (E k v) by apply lookup_insert_eq.
  rewrite IH; [done |]. intros k' v' Hm. apply (E k'). rewrite lookup_insert_ne by congruence. done.
Qed.

Lemma map_sum_nonneg f m : (forall k v, m !! k = Some v -> 0 <= f v) -> 0 <= map_sum f m.
Proof.
  induction m as [| k v m Hk IH] using map_ind; intros E; [done |].
  rewrite map_sum_insert by done. specialize (E k v (lookup_insert_eq _ _ _)) as Hv.
  enough (0 <= map_sum f m) by lia. apply IH. intros k' v' Hm. apply (E k').
  rewrite lookup_insert_ne by congruence. done.
Qed.

Lemma map_sum_le f g m :
  (forall k v, m !! k = Some v -> f v <= g v) -> map_sum f m <= map_sum g m.
Proof.
  induction m as [| k v m Hk IH] using map_ind; intros E; [done |].
  rewrite !map_sum_insert by done. specialize (E k v (lookup_insert_eq _ _ _)) as Hv.
  enough (map_sum f m <= map_sum g m) by lia. apply IH. intros k' v' Hm. apply (E k').
  rewrite lookup_insert_ne by congruence. done.
Qed.

Lemma map_sum_member f m k v :
  (forall k' v', m !! k' = Some v' -> 0 <= f v') -> m !! k = Some v -> f v <= map_sum f m.
Proof.
  intros Hf Hk. rewrite <- (insert_delete_id _ _ _ Hk), map_sum_insert by apply lookup_delete_eq.
  enough (0 <= map_sum f (delete k m)) by lia. apply map_sum_nonneg.
  intros k' v' [_ Hk']%lookup_delete_Some. eauto.
Qed.

End MapSum.

Section WithHash.

Context `{BlockHash}.

(** ** The block tables *)

Definition table_type (d : block_db) : block_type :=
  match d with
  | send_blocks => bt_send
  | receive_blocks => bt_receive
  | open_blocks => bt_open
  | change_blocks => bt_change
  | state_blocks_v0 | state_blocks_v1 => bt_state
  end.

Definition table_epoch (d : block_db) : epoch :=
  match d with state_blocks_v1 => epoch_1 | _ => epoch_0 end.

(** Every hash is in one table, the one for the block's type, under the hash of
    the block. *)
Record blocks_ok (m : gmap (block_db * Z) entry) : Prop := {
  bo_entry (d : block_db) (h : Z) (e : entry) : m !! (d, h) = Some e ->
    h = hash e.1 /\ h <> 0 /\ type e.1 = table_type d /\ block_ok e.1;
  bo_unique (d d' : block_db) (h : Z) (e e' : entry) :
    m !! (d, h) = Some e -> m !! (d', h) = Some e' -> d = d' }.

Definition found (s : store) (h : Z) (d : block_db) (e : entry) : Prop :=
  blocks s !! (d, h) = Some e.

Section Tables.

Context (s : store) (Hs : blocks_ok (blocks s)).

Lemma found_unique (h : Z) (d d' : block_db) (e e' : entry) :
  found s h d e -> found s h d' e' -> d = d' /\ e = e'.
Proof.
  unfold found. intros H1 H2. pose proof (bo_unique _ Hs _ _ _ _ _ H1 H2). subst.
  split; congruence.
Qed.

Lemma not_found (h : Z) (d : block_db) (e : entry) (d' : block_db) :
  found s h d e -> d <> d' -> blocks s !! (d', h) = None.
Proof.
  intros H1 Hd. destruct (blocks s !! (d', h)) as [e' |] eqn:H2; [| done].
  destruct (found_unique _ _ _ _ _ H1 H2). done.
Qed.

Lemma raw_get_found (h : Z) (d : block_db) (e : entry) :
  found s h d e -> block_raw_get s h = Some (table_type d, e).
Proof.
  intros H1. pose proof (fun d' => not_found h d e d' H1) as Hn. unfold found in H1.
  unfold block_raw_get. cbn [raw_get_in block_raw_get_by_type].
  destruct d; repeat first [rewrite H1 | rewrite Hn by discriminate]; reflexivity.
Qed.

Lemma get_found (h : Z) (d : block_db) (e : entry) :
  found s h d e -> block_get_full s h = Some e.
Proof. intros H1. unfold block_get_full. now rewrite (raw_get_found _ _ _ H1). Qed.

Lemma get_inv (h : Z) (e : entry) : block_get_full s h = Some e -> exists d, found s h d e.
Proof.
  unfold block_get_full, block_raw_get, found. cbn [raw_get_in block_raw_get_by_type].
  repeat match goal with |- context [blocks s !! ?k] =>
    destruct (blocks s !! k) eqn:? end; cbn; intros [= <-]; eauto.
Qed.

Lemma version_found (h : Z) (d : block_db) (e : entry) :
  found s h d e -> block_version s h = table_epoch d.
Proof.
  intros H1. unfold block_version. destruct (decide (d = state_blocks_v1)) as [-> | Hd].
  - unfold found in H1. now rewrite H1.
  - rewrite (not_found _ _ _ state_blocks_v1 H1) by done. now destruct d.
Qed.

Lemma database_found (h : Z) (d : block_db) (e : entry) :
  found s h d e -> block_database (table_type d) (block_version s h) = Some d.
Proof. intros H1. rewrite (version_found _ _ _ H1). now destruct d. Qed.

Lemma exists_type_get (t : block_type) (h : Z) :
  block_exists_type s t h = true <-> exists e, block_get_full s h = Some e /\ type e.1 = t.
Proof.
  split.
  - intros Ht. assert (exists d e, found s h d e /\ table_type d = t) as (d & e & H1 & <-).
    { unfold found. destruct t; try discriminate Ht; cbn [block_exists_type] in Ht;
        repeat match type of Ht with context [blocks s !! ?k] =>
          destruct (blocks s !! k) eqn:? end; try discriminate Ht; eauto. }
    exists e. rewrite (get_found _ _ _ H1). split; [done |]. now apply (bo_entry _ Hs) in H1.
  - intros (e & He & <-). apply get_inv in He as (d & H1).
    pose proof (bo_entry _ Hs _ _ _ H1) as (_ & _ & -> & _). unfold found in H1.
    destruct d; cbn [table_type block_exists_type]; rewrite H1; cbn; auto using orb_true_r.
Qed.

Lemma exists_get (h : Z) : block_exists s h = true <-> exists e, block_get_full s h = Some e.
Proof.
  unfold block_exists. rewrite !orb_true_iff, !exists_type_get. split.
  - intros H1. destruct_or! H1; destruct H1 as (e & He & _); eauto.
  - intros (e & He). destruct (type e.1) eqn:Ht; eauto 8; now destruct e.1.
Qed.

Lemma get_hash (h : Z) (e : entry) :
  block_get_full s h = Some e -> h = hash e.1 /\ h <> 0 /\ block_ok e.1.
Proof. intros (d & H1)%get_inv. apply (bo_entry _ Hs) in H1. tauto. Qed.

Lemma get_none (h : Z) (d : block_db) : block_get_full s h = None -> blocks s !! (d, h) = None.
Proof.
  intros Hn. destruct (blocks s !! (d, h)) as [e |] eqn:H1; [| done].
  now rewrite (get_found _ _ _ H1) in Hn.
Qed.

Lemma blocks_ok_insert (d : block_db) (h : Z) (e : entry) :
  h = hash e.1 -> h <> 0 -> type e.1 = table_type d -> block_ok e.1 ->
  (forall d' e', found s h d' e' -> d' = d) -> blocks_ok (<[(d, h) := e]> (blocks s)).
Proof.
  intros H1 H2 H3 H4 Hd. split.
  - intros d' h' e' [[[= -> ->] ->] | [_ Hm]]%lookup_insert_Some; [done | now apply (bo_entry _ Hs)].
  - intros d1 d2 h' e1 e2 Hm1 Hm2. apply lookup_insert_Some in Hm1, Hm2.
    destruct Hm1 as [[E1 _] | [_ Hm1]], Hm2 as [[E2 _] | [_ Hm2]]; simplify_eq.
    + done.
    + symmetry. now apply (Hd _ _ Hm2).
    + now apply (Hd _ _ Hm1).
    + now apply (bo_unique _ Hs _ _ _ _ _ Hm1 Hm2).
Qed.

End Tables.

Section Updates.

Context (s : store) (Hs : blocks_ok (blocks s)).

Lemma get_insert (d : block_db) (h h' : Z) (e : entry) :
  blocks_ok (<[(d, h) := e]> (blocks s)) ->
  block_get_full (set_blocks s (<[(d, h) := e]> (blocks s))) h' =
    if h' =? h then Some e else block_get_full s h'.
Proof.
  intros Hok. destruct (Z.eqb_spec h' h) as [-> | Hne].
  - eapply (get_found (set_blocks s _) Hok). apply lookup_insert_eq.
  - unfold block_get_full, block_raw_get. cbn [raw_get_in block_raw_get_by_type set_blocks blocks].
    rewrite !lookup_insert_ne by congruence. done.
Qed.

Lemma version_insert (d : block_db) (h h' : Z) (e : entry) :
  blocks_ok (<[(d, h) := e]> (blocks s)) ->
  block_version (set_blocks s (<[(d, h) := e]> (blocks s))) h' =
    if h' =? h then table_epoch d else block_version s h'.
Proof.
  intros Hok. destruct (Z.eqb_spec h' h) as [-> | Hne].
  - eapply (version_found (set_blocks s _) Hok). apply lookup_insert_eq.
  - unfold block_version. cbn [set_blocks blocks]. rewrite lookup_insert_ne by congruence. done.
Qed.

Lemma successor_put_spec (h next : Z) (e : entry) :
  block_get_full s h = Some e -> exists m,
    successor_put s h next = Some (set_blocks s m) /\ blocks_ok m /\
    (forall h', block_get_full (set_blocks s m) h' =
      if h' =? h then Some (set_successor e next) else block_get_full s h') /\
    (forall h', block_version (set_blocks s m) h' = block_version s h').
Proof.
  intros (d & H1)%get_inv. pose proof (bo_entry _ Hs _ _ _ H1) as (E1 & E2 & E3 & E4).
  assert (Hok : blocks_ok (<[(d, h) := set_successor e next]> (blocks s))).
  { apply (blocks_ok_insert s Hs); try done. intros d' e' H2.
    now destruct (found_unique s Hs _ _ _ _ _ H2 H1). }
  exists (<[(d, h) := set_successor e next]> (blocks s)). split_and!; [| done | |].
  - unfold successor_put. rewrite (raw_get_found s Hs _ _ _ H1), (database_found s Hs _ _ _ H1). done.
  - intros h'. now apply get_insert.
  - intros h'. rewrite version_insert by done. destruct (Z.eqb_spec h' h) as [-> |]; [| done].
    symmetry. apply (version_found s Hs _ _ _ H1).
Qed.

End Updates.

(** What storing block [b] under [h] does to lookups: the new entry, and the
    successor of its predecessor. *)
Definition extends (s : store) (h : Z) (b : block) (sb : sideband) (e : epoch)
    (m : gmap (block_db * Z) entry) : Prop :=
  blocks_ok m /\
  (forall h', block_get_full (set_blocks s m) h' =
    if h' =? h then Some (b, sb)
    else if h' =? previous b then (fun x => set_successor x h) <$> block_get_full s h'
    else block_get_full s h') /\
  (forall h', block_version (set_blocks s m) h' = if h' =? h then e else block_version s h').

Lemma block_successor_get (s : store) (h : Z) :
  block_successor s h = match block_get_full s h with Some e => sb_successor e.2 | None => 0 end.
Proof. unfold block_successor, block_get_full. now destruct (block_raw_get s h) as [[t e] |]. Qed.

(** Where a block goes: its table, and a predecessor if it must have one. *)
Definition placed (s : store) (b : block) (e : epoch) : Prop :=
  (e = epoch_0 \/ e = epoch_1 /\ type b = bt_state) /\
  (previous b = 0 /\ (type b = bt_open \/ type b = bt_state) \/
   exists ep, block_get_full s (previous b) = Some ep).

Lemma placed_database (s : store) (b : block) (e : epoch) :
  placed s b e -> exists d, block_database (type b) e = Some d /\ type b = table_type d /\
    table_epoch d = e.
Proof.
  intros [[-> | [-> Ht]] _]; [| rewrite Ht; by exists state_blocks_v1].
  destruct b; [exists send_blocks | exists receive_blocks | exists open_blocks
    | exists change_blocks | exists state_blocks_v0]; done.
Qed.

Lemma predecessor_set_zero (s : store) (b : block) (h : Z) :
  previous b = 0 -> type b = bt_open \/ type b = bt_state -> block_predecessor_set s b h = Some s.
Proof.
  destruct b; intros E [Ht | Ht]; try discriminate Ht; [done |].
  unfold block_predecessor_set. now rewrite E.
Qed.

Lemma predecessor_set_nonzero (s : store) (b : block) (h : Z) :
  previous b <> 0 -> block_predecessor_set s b h = successor_put s (previous b) h.
Proof.
  intros E. destruct b; try done. unfold block_predecessor_set.
  now apply Z.eqb_neq in E as ->.
Qed.

Lemma block_put_spec (s : store) (b : block) (sb : sideband) (e : epoch) :
  blocks_ok (blocks s) -> hash b <> 0 -> block_ok b -> block_get_full s (hash b) = None ->
  sb_successor sb = 0 -> placed s b e ->
  exists m, block_put s (hash b) b sb e = Some (set_blocks s m) /\ extends s (hash b) b sb e m.
Proof.
  intros Hs Hz Hb Hn Hsb Hp. destruct (placed_database _ _ _ Hp) as (d & Ed & Et & Ee).
  set (m := <[(d, hash b) := (b, sb)]> (blocks s)).
  assert (Hok : blocks_ok m).
  { apply (blocks_ok_insert s Hs); try done. intros d' e' H1. exfalso. unfold found in H1.
    now rewrite (get_none s Hs) in H1. }
  assert (Hg := fun h' => get_insert s d (hash b) h' (b, sb) Hok).
  assert (Hv := fun h' => version_insert s d (hash b) h' (b, sb) Hok). rewrite Ee in Hv.
  unfold block_put. rewrite Hsb, Ed. cbn [Z.eqb orb negb]. fold m in Hg, Hv |- *.
  change (block_raw_put s d (hash b) (b, sb)) with (set_blocks s m).
  destruct Hp as [_ [[E Hty] | (ep & Hep)]].
  - rewrite predecessor_set_zero by done. rewrite E. cbn [Z.eqb orb]. exists m. split; [done |].
    split_and!; [done | | done]. intros h'. rewrite Hg. destruct (h' =? hash b); [done |].
    rewrite E. destruct (Z.eqb_spec h' 0) as [-> |]; [| done].
    destruct (block_get_full s 0) as [x |] eqn:E0; [| done].
    apply (get_hash s Hs) in E0. lia.
  - pose proof (get_hash s Hs _ _ Hep) as (_ & Hpz & _).
    assert (Hne : previous b <> hash b) by congruence.
    assert (Hep' : block_get_full (set_blocks s m) (previous b) = Some ep).
    { rewrite Hg. now apply Z.eqb_neq in Hne as ->. }
    rewrite predecessor_set_nonzero by done.
    destruct (successor_put_spec (set_blocks s m) Hok _ (hash b) _ Hep') as (m' & -> & Hok' & Hg' & Hv').
    change (set_blocks (set_blocks s m) m') with (set_blocks s m') in *.
    rewrite block_successor_get, Hg', Z.eqb_refl. cbn [set_successor snd sb_successor].
    rewrite Z.eqb_refl, orb_true_r. exists m'. split; [done |]. split_and!; [done | |].
    + intros h'. rewrite Hg', Hg. destruct (Z.eqb_spec h' (previous b)) as [-> |]; [| done].
      apply Z.eqb_neq in Hne as ->. now rewrite Hep.
    + intros h'. now rewrite Hv', Hv.
Qed.

(** ** The invariant *)

Definition entry_balance (x : entry) : Z :=
  match x.1 with
  | open_block _ _ _ | receive_block _ _ _ | change_block _ _ _ => sb_balance x.2
  | send_block f _ _ => send_balance f
  | state_block f _ _ => state_balance f
  end.

Definition entry_account (x : entry) : Z :=
  if account x.1 =? 0 then sb_account x.2 else account x.1.

(** The account a block sends to. *)
Definition sends_to (b : block) (a : Z) : Prop :=
  match b with
  | send_block f _ _ => send_destination f = a
  | state_block f _ _ => state_link f = a
  | _ => False
  end.

Definition is_version (e : epoch) : Prop := e = epoch_0 \/ e = epoch_1.

(** Sends and receives keep the representative; the other blocks name one. *)
Definition keeps_rep (b : block) : bool :=
  match b with send_block _ _ _ | receive_block _ _ _ => true | _ => false end.

(** Walking back from [h], [r] is the first block that names a representative. *)
Inductive rep_walk (s : store) : Z -> Z -> Prop :=
| walk_here (h : Z) (x : entry) :
    block_get_full s h = Some x -> keeps_rep x.1 = false -> rep_walk s h h
| walk_back (h r : Z) (x : entry) :
    block_get_full s h = Some x -> keeps_rep x.1 = true -> rep_walk s (previous x.1) r ->
    rep_walk s h r.

(** An account: its head ends its chain, and is in the frontier table if it is
    a legacy block. *)
Record account_ok (s : store) (e : epoch) (a : Z) (i : account_info) : Prop := {
  ao_epoch : is_version e /\ ai_epoch i = e;
  ao_nonzero : a <> 0;
  ao_balance : 0 <= balance i;
  ao_count : 0 <= block_count i < 2 ^ 64;
  ao_head : exists x, block_get_full s (head i) = Some x /\ entry_balance x = balance i /\
    entry_account x = a /\ sb_successor x.2 = 0 /\ sb_height x.2 = block_count i /\
    frontiers s !! head i = (if legacy_type (type x.1) then Some a else None);
  ao_version : block_version s (head i) = e;
  ao_rep : rep_walk s (head i) (rep_block i);
  ao_open : exists x, block_get_full s (open_block_hash i) = Some x /\ previous x.1 = 0 }.

(** A block: its account, and its two neighbours in the account's chain. *)
Record chained (s : store) (h : Z) (x : entry) : Prop := {
  ch_account : exists e i, accounts s !! (e, entry_account x) = Some i /\
    (sb_successor x.2 = 0 -> head i = h) /\ (previous x.1 = 0 -> open_block_hash i = h);
  ch_prev : previous x.1 <> 0 -> exists y, block_get_full s (previous x.1) = Some y /\
    sb_successor y.2 = h /\ entry_account y = entry_account x /\
    sb_height x.2 = u64 (sb_height y.2 + 1);
  ch_next : sb_successor x.2 <> 0 -> exists y, block_get_full s (sb_successor x.2) = Some y /\
    previous y.1 = h }.

(** A pending entry: the send block it comes from, and what that block sent. *)
Record pending_ok (s : store) (e : epoch) (a h : Z) (p : pending_info) : Prop := {
  po_epoch : is_version e /\ pi_epoch p = e;
  po_amount : 0 <= pi_amount p;
  po_send : exists x y, block_get_full s h = Some x /\ entry_account x = pi_source p /\
    sends_to x.1 a /\ block_get_full s (previous x.1) = Some y /\
    entry_balance y - entry_balance x = pi_amount p;
  po_version : block_version s h = e }.

Definition rep_of (s : store) (i : account_info) : Z :=
  match block_get s (rep_block i) with Some b => representative b | None => 0 end.

Definition contribution (s : store) (r : Z) (i : account_info) : Z :=
  if rep_of s i =? r then balance i else 0.

(** The vote weight a representative should have. *)
Definition weight_of (s : store) (r : Z) : Z := map_sum (contribution s r) (accounts s).

Definition supply (s : store) : Z := map_sum balance (accounts s) + map_sum pi_amount (pending s).

Record inv (s : store) : Prop := {
  inv_blocks : blocks_ok (blocks s);
  inv_chain (h : Z) (x : entry) : block_get_full s h = Some x -> chained s h x;
  inv_account (e : epoch) (a : Z) (i : account_info) :
    accounts s !! (e, a) = Some i -> account_ok s e a i;
  inv_account_unique (e e' : epoch) (a : Z) (i i' : account_info) :
    accounts s !! (e, a) = Some i -> accounts s !! (e', a) = Some i' -> e = e';
  inv_frontier (h a : Z) : frontiers s !! h = Some a ->
    exists i, accounts s !! (epoch_0, a) = Some i /\ head i = h;
  inv_pending (e : epoch) (a h : Z) (p : pending_info) :
    pending s !! (e, (a, h)) = Some p -> pending_ok s e a h p;
  inv_pending_unique (e e' : epoch) (k : Z * Z) (p p' : pending_info) :
    pending s !! (e, k) = Some p -> pending s !! (e', k) = Some p' -> e = e';
  inv_weight (r : Z) : representation_get s r = weight_of s r;
  inv_supply : supply s = genesis_amount }.

(** ** Consequences *)

Lemma block_balance_get (s : store) (h : Z) :
  block_balance s h = entry_balance <$> block_get_full s h.
Proof. unfold block_balance, entry_balance. now destruct (block_get_full s h) as [[[] sb] |]. Qed.

Lemma block_account_get (s : store) (h : Z) (x : entry) :
  block_get_full s h = Some x -> entry_account x <> 0 -> block_account s h = Some (entry_account x).
Proof.
  intros E Hx. unfold block_account. rewrite E. destruct x as [b sb].
  unfold entry_account in *. cbn [fst snd] in *. now apply Z.eqb_neq in Hx as ->.
Qed.

Lemma block_get_get (s : store) (h : Z) : block_get s h = fst <$> block_get_full s h.
Proof. reflexivity. Qed.

(** No weight wraps while the supply is the genesis amount. *)
Lemma weight_range (s : store) (r : Z) :
  (forall k i, accounts s !! k = Some i -> 0 <= balance i) ->
  (forall k p, pending s !! k = Some p -> 0 <= pi_amount p) ->
  supply s = genesis_amount -> 0 <= weight_of s r < 2 ^ 128.
Proof.
  intros Hb Hp E. unfold weight_of. split.
  - apply map_sum_nonneg. intros k i Hi. unfold contribution. destruct (_ =? _); [| done]. eauto.
  - apply Z.le_lt_trans with (map_sum balance (accounts s)).
    + apply map_sum_le. intros k i Hi. unfold contribution.
      specialize (Hb _ _ Hi). destruct (_ =? _); lia.
    + unfold supply, genesis_amount in E. pose proof (map_sum_nonneg _ _ Hp). lia.
Qed.

Lemma rep_walk_end (s : store) (h r : Z) : rep_walk s h r ->
  exists x, block_get_full s r = Some x /\ keeps_rep x.1 = false.
Proof. induction 1; eauto. Qed.

Section Consequences.

Context (s : store) (Hs : inv s).

Lemma account_get_some (a : Z) (i : account_info) :
  account_get s a = Some i <-> accounts s !! (ai_epoch i, a) = Some i.
Proof.
  unfold account_get. split.
  - destruct (accounts s !! (epoch_1, a)) as [j |] eqn:E1.
    + pose proof (ao_epoch _ _ _ _ (inv_account _ Hs _ _ _ E1)) as [_ Ej].
      intros [= <-]. destruct j. cbn in *. now subst.
    + destruct (accounts s !! (epoch_0, a)) as [j |] eqn:E0; [| done].
      pose proof (ao_epoch _ _ _ _ (inv_account _ Hs _ _ _ E0)) as [_ Ej].
      intros [= <-]. destruct j. cbn in *. now subst.
  - intros E. pose proof (ao_epoch _ _ _ _ (inv_account _ Hs _ _ _ E)) as [[Ei | Ei] _].
    + rewrite Ei in E. destruct (accounts s !! (epoch_1, a)) eqn:E1.
      * now pose proof (inv_account_unique _ Hs _ _ _ _ _ E E1).
      * rewrite E. destruct i. cbn in *. now subst.
    + rewrite Ei in E. rewrite E. destruct i. cbn in *. now subst.
Qed.

Lemma account_get_entry (e : epoch) (a : Z) (i : account_info) :
  accounts s !! (e, a) = Some i -> account_get s a = Some i.
Proof.
  intros E. apply account_get_some. now destruct (ao_epoch _ _ _ _ (inv_account _ Hs _ _ _ E)) as [_ ->].
Qed.

Lemma account_get_none (e : epoch) (a : Z) : account_get s a = None -> accounts s !! (e, a) = None.
Proof.
  intros E. destruct (accounts s !! (e, a)) as [i |] eqn:Ei; [| done].
  now rewrite (account_get_entry _ _ _ Ei) in E.
Qed.

Lemma rep_stored (e : epoch) (a : Z) (i : account_info) : accounts s !! (e, a) = Some i ->
  exists x, block_get_full s (rep_block i) = Some x.
Proof.
  intros Hi. destruct (rep_walk_end _ _ _ (ao_rep _ _ _ _ (inv_account _ Hs _ _ _ Hi))) as (x & Hx & _).
  eauto.
Qed.

Lemma get_nonzero (h : Z) (x : entry) : block_get_full s h = Some x -> h <> 0.
Proof. intros E. now destruct (get_hash s (inv_blocks _ Hs) _ _ E) as (_ & H0 & _). Qed.

Lemma balance_nonneg k (i : account_info) : accounts s !! k = Some i -> 0 <= balance i.
Proof. destruct k. intros Hi. apply (ao_balance _ _ _ _ (inv_account _ Hs _ _ _ Hi)). Qed.

Lemma pending_nonneg k (p : pending_info) : pending s !! k = Some p -> 0 <= pi_amount p.
Proof. destruct k as [e [a h]]. intros Hp. apply (po_amount _ _ _ _ _ (inv_pending _ Hs _ _ _ _ Hp)). Qed.

Lemma supply_bounds k (i : account_info) : accounts s !! k = Some i -> balance i <= genesis_amount.
Proof.
  intros E. rewrite <- (inv_supply _ Hs). unfold supply.
  pose proof (map_sum_member _ _ _ _ balance_nonneg E).
  pose proof (map_sum_nonneg _ _ pending_nonneg). lia.
Qed.

End Consequences.

(** ** Appending one block *)

Inductive pending_change :=
| pend_same
| pend_put (k : Z * Z) (p : pending_info)
| pend_del (e : epoch) (k : Z * Z) (p : pending_info).

Definition apply_pending (c : pending_change) (m : gmap (epoch * (Z * Z)) pending_info)
    : gmap (epoch * (Z * Z)) pending_info :=
  match c with
  | pend_same => m
  | pend_put k p => <[(pi_epoch p, k) := p]> m
  | pend_del e k _ => delete (e, k) m
  end.

Definition pending_delta (c : pending_change) : Z :=
  match c with pend_same => 0 | pend_put _ p => pi_amount p | pend_del _ _ p => - pi_amount p end.

Definition old_balance (old : option account_info) : Z :=
  match old with Some i => balance i | None => 0 end.

(** The account's record after block [h] of version [e]. *)
Record follows (old : option account_info) (h : Z) (new : account_info) : Prop := {
  fo_head : head new = h;
  fo_open : open_block_hash new = match old with Some i => open_block_hash i | None => h end;
  fo_count : block_count new = u64 (match old with Some i => block_count i | None => 0 end + 1);
  fo_version : is_version (ai_epoch new);
  fo_balance : 0 <= balance new }.

(** What the change of the pending table has to do with the block. *)
Definition pending_change_ok (s : store) (b : block) (a : Z) (old : option account_info)
    (new : account_info) (c : pending_change) : Prop :=
  match c with
  | pend_same => True
  | pend_put (dest, h) p => h = hash b /\ pi_source p = a /\ pi_epoch p = ai_epoch new /\
      0 <= pi_amount p /\ sends_to b dest /\ exists i, old = Some i
  | pend_del e k p => pending s !! (e, k) = Some p
  end.

Definition old_contribution (s : store) (r : Z) (old : option account_info) : Z :=
  match old with Some i => contribution s r i | None => 0 end.

(** [s'] is [s] with block [b] appended to the chain of account [a]. *)
Record appended (s : store) (b : block) (sb : sideband) (a : Z) (old : option account_info)
    (new : account_info) (c : pending_change) (s' : store) : Prop := {
  ap_block : hash b <> 0 /\ block_ok b /\ block_get_full s (hash b) = None;
  ap_account : a <> 0 /\ account_get s a = old;
  ap_prev : previous b = match old with Some i => head i | None => 0 end;
  ap_sideband : sb_successor sb = 0 /\ entry_account (b, sb) = a /\
    entry_balance (b, sb) = balance new /\ sb_height sb = block_count new;
  ap_new : follows old (hash b) new;
  ap_rep : if keeps_rep b then exists i, old = Some i /\ rep_block new = rep_block i
           else rep_block new = hash b;
  ap_legacy : legacy_type (type b) = true -> ai_epoch new = epoch_0;
  ap_change : pending_change_ok s b a old new c;
  ap_money : balance new + pending_delta c = old_balance old;
  ap_blocks : extends s (hash b) b sb (ai_epoch new) (blocks s');
  ap_accounts : accounts s' = <[(ai_epoch new, a) := new]>
    (match old with Some i => delete (ai_epoch i, a) (accounts s) | None => accounts s end);
  ap_pending : pending s' = apply_pending c (pending s);
  ap_weight (r : Z) : representation_get s' r =
    u128 (representation_get s r - old_contribution s r old + contribution s' r new);
  ap_frontiers : frontiers s' =
    let f := delete (previous b) (frontiers s) in
    if legacy_type (type b) then <[hash b := a]> f else f }.

Section Append.

Context (s s' : store) (b : block) (sb : sideband) (a : Z) (old : option account_info)
  (new : account_info) (c : pending_change).
Context (Hs : inv s) (Ha : appended s b sb a old new c s').

Lemma ap_get (h : Z) : block_get_full s' h =
  if h =? hash b then Some (b, sb)
  else if h =? previous b then (fun x => set_successor x (hash b)) <$> block_get_full s h
  else block_get_full s h.
Proof. destruct (ap_blocks _ _ _ _ _ _ _ _ Ha) as (_ & G & _). exact (G h). Qed.

Lemma ap_version (h : Z) :
  block_version s' h = if h =? hash b then ai_epoch new else block_version s h.
Proof. destruct (ap_blocks _ _ _ _ _ _ _ _ Ha) as (_ & _ & V). exact (V h). Qed.

Lemma ap_get_new : block_get_full s' (hash b) = Some (b, sb).
Proof. now rewrite ap_get, Z.eqb_refl. Qed.

Lemma ap_fresh (h : Z) (x : entry) : block_get_full s h = Some x -> h <> hash b.
Proof. intros E ->. destruct (ap_block _ _ _ _ _ _ _ _ Ha) as (_ & _ & F). congruence. Qed.

(** The block before: the account's old head, with no successor yet. *)
Lemma ap_old (Hp : previous b <> 0) : exists i x, old = Some i /\ previous b = head i /\
  accounts s !! (ai_epoch i, a) = Some i /\ block_get_full s (previous b) = Some x /\
  entry_balance x = balance i /\ entry_account x = a /\ sb_successor x.2 = 0 /\
  sb_height x.2 = block_count i.
Proof.
  pose proof (ap_prev _ _ _ _ _ _ _ _ Ha) as E. destruct old as [i |]; [| done].
  destruct (ap_account _ _ _ _ _ _ _ _ Ha) as [_ Hi]. apply (account_get_some s Hs) in Hi.
  destruct (ao_head _ _ _ _ (inv_account _ Hs _ _ _ Hi)) as (x & H1 & H2 & H3 & H4 & H5 & _).
  exists i, x. rewrite E. auto 10.
Qed.

(** Stored blocks stay, up to the successor of the previous block. *)
Lemma ap_keep (h : Z) (x : entry) : block_get_full s h = Some x ->
  exists n, block_get_full s' h =
    Some (x.1, mk_sideband n (sb_account x.2) (sb_balance x.2) (sb_height x.2) (sb_timestamp x.2)).
Proof.
  intros E. rewrite ap_get, (proj2 (Z.eqb_neq _ _) (ap_fresh _ _ E)), E.
  destruct (h =? previous b); cbn; eauto. exists (sb_successor x.2). now destruct x as [? []].
Qed.

Lemma ap_same (h : Z) (x : entry) : block_get_full s h = Some x -> sb_successor x.2 <> 0 ->
  block_get_full s' h = Some x.
Proof.
  intros E Hx. rewrite ap_get, (proj2 (Z.eqb_neq _ _) (ap_fresh _ _ E)).
  destruct (Z.eqb_spec h (previous b)) as [-> |]; [| done].
  destruct (ap_old) as (i & y & _ & _ & _ & Ey & _ & _ & Hy & _); [| congruence].
  apply (get_nonzero s Hs _ _ E).
Qed.

Lemma ap_entry (h : Z) (x' : entry) : block_get_full s' h = Some x' ->
  h = hash b /\ x' = (b, sb) \/
  h = previous b /\ (exists x, block_get_full s h = Some x /\ x' = set_successor x (hash b)) \/
  h <> hash b /\ h <> previous b /\ block_get_full s h = Some x'.
Proof.
  rewrite ap_get. destruct (Z.eqb_spec h (hash b)) as [-> |]; [intros [= <-]; auto |].
  destruct (Z.eqb_spec h (previous b)) as [-> |]; [| auto].
  destruct (block_get_full s (previous b)) as [x |]; cbn; [| done]. intros [= <-]. eauto 6.
Qed.

Lemma ap_account_entry (e : epoch) (a' : Z) (i : account_info) : accounts s' !! (e, a') = Some i ->
  a' = a /\ e = ai_epoch new /\ i = new \/ a' <> a /\ accounts s !! (e, a') = Some i.
Proof.
  rewrite (ap_accounts _ _ _ _ _ _ _ _ Ha). destruct (ap_account _ _ _ _ _ _ _ _ Ha) as [_ Ho].
  intros [[[= <- <-] <-] | [Hk Hi]]%lookup_insert_Some; [auto |]. right.
  destruct (decide (a' = a)) as [-> | Hne]; [exfalso | split; [done |]].
  - destruct old as [j |].
    + apply lookup_delete_Some in Hi as [Hne Hi]. apply (account_get_some s Hs) in Ho.
      now rewrite (inv_account_unique _ Hs _ _ _ _ _ Hi Ho) in Hne.
    + now rewrite (account_get_none s Hs) in Hi.
  - destruct old as [j |]; [now apply lookup_delete_Some in Hi as [_ Hi] | done].
Qed.

Lemma ap_account_keep (e : epoch) (a' : Z) (i : account_info) :
  a' <> a -> accounts s !! (e, a') = Some i -> accounts s' !! (e, a') = Some i.
Proof.
  intros Hne Hi. rewrite (ap_accounts _ _ _ _ _ _ _ _ Ha), lookup_insert_ne by congruence.
  destruct old as [j |]; [rewrite lookup_delete_ne by congruence |]; done.
Qed.

Lemma ap_account_new : accounts s' !! (ai_epoch new, a) = Some new.
Proof. rewrite (ap_accounts _ _ _ _ _ _ _ _ Ha). apply lookup_insert_eq. Qed.

End Append.

End WithHash.

End LedgerInv.
