(* ===== verification/LedgerAppend.v ===== *)
(** * The ledger: appending a block preserves the invariant

    One lemma per part of [inv], for a store that grew by one block in the
    sense of [appended]. *)

From stdpp Require Import base gmap list.
From Stdlib Require Import ZArith Lia.
From S2P Require Import Prelude Blocks Store Ledger LedgerInv.
Local Open Scope Z_scope.

Module LedgerAppend.
Import Ledger.Ledger LedgerInv.LedgerInv.

Section Append.

Context `{BlockHash}.
Context (s s' : store) (b : block) (sb : sideband) (a : Z) (old : option account_info)
  (new : account_info) (c : pending_change).
Context (Hs : inv s) (Ha : appended s b sb a old new c s').

Local Abbreviation get' := (ap_get s s' b sb a old new c Ha).
Local Abbreviation version' := (ap_version s s' b sb a old new c Ha).
Local Abbreviation get_new := (ap_get_new s s' b sb a old new c Ha).
Local Abbreviation fresh := (ap_fresh s s' b sb a old new c Ha).
Local Abbreviation old_head := (ap_old s s' b sb a old new c Hs Ha).
Local Abbreviation keep := (ap_keep s s' b sb a old new c Ha).
Local Abbreviation same := (ap_same s s' b sb a old new c Hs Ha).
Local Abbreviation entry' := (ap_entry s s' b sb a old new c Ha).
Local Abbreviation account_entry := (ap_account_entry s s' b sb a old new c Hs Ha).
Local Abbreviation account_keep := (ap_account_keep s s' b sb a old new c Ha).
Local Abbreviation account_new := (ap_account_new s s' b sb a old new c Ha).

Lemma walk_keep (h r : Z) : rep_walk s h r -> rep_walk s' h r.
Proof.
  induction 1 as [h x Hx Kx | h r x Hx Kx _ IH]; destruct (keep _ _ Hx) as (n & Hx').
  - now apply (walk_here _ _ _ Hx').
  - now apply (walk_back _ _ _ _ Hx').
Qed.

Lemma walk_new : rep_walk s' (hash b) (rep_block new).
Proof.
  pose proof (ap_rep _ _ _ _ _ _ _ _ Ha) as Hr. destruct (keeps_rep b) eqn:Kb.
  - destruct Hr as (i & Ei & ->). apply (walk_back _ _ _ _ get_new Kb). apply walk_keep. cbn [fst].
    pose proof (ap_prev _ _ _ _ _ _ _ _ Ha) as ->. destruct (ap_account _ _ _ _ _ _ _ _ Ha) as [_ Ho].
    rewrite Ei in *. apply (account_get_some s Hs) in Ho.
    exact (ao_rep _ _ _ _ (inv_account _ Hs _ _ _ Ho)).
  - rewrite Hr. exact (walk_here _ _ _ get_new Kb).
Qed.

(** Another account's head is not the previous block. *)
Lemma other_head (e : epoch) (a' : Z) (i : account_info) :
  a' <> a -> accounts s !! (e, a') = Some i -> head i <> previous b.
Proof.
  intros Hne Hi E. destruct (ao_head _ _ _ _ (inv_account _ Hs _ _ _ Hi)) as (x & Hx & _ & Ex & _).
  rewrite E in Hx. destruct (old_head (get_nonzero s Hs _ _ Hx)) as
    (j & y & _ & _ & _ & Hy & _ & Ey & _). congruence.
Qed.

Lemma append_blocks : blocks_ok (blocks s').
Proof. now destruct (ap_blocks _ _ _ _ _ _ _ _ Ha) as [Hb _]. Qed.

Lemma frontier_other (h : Z) :
  h <> hash b -> h <> previous b -> frontiers s' !! h = frontiers s !! h.
Proof.
  intros H1 H2. rewrite (ap_frontiers _ _ _ _ _ _ _ _ Ha). cbn zeta.
  destruct (legacy_type (type b)); rewrite ?lookup_insert_ne, lookup_delete_ne by congruence; done.
Qed.

Lemma frontier_new :
  frontiers s' !! hash b = if legacy_type (type b) then Some a else None.
Proof.
  rewrite (ap_frontiers _ _ _ _ _ _ _ _ Ha). cbn zeta.
  destruct (legacy_type (type b)); [apply lookup_insert_eq |].
  destruct (frontiers s !! hash b) as [a' |] eqn:E; [| now rewrite lookup_delete_None; auto].
  destruct (inv_frontier _ Hs _ _ E) as (i & Hi & Eh).
  destruct (ao_head _ _ _ _ (inv_account _ Hs _ _ _ Hi)) as (x & Hx & _).
  rewrite Eh in Hx. now apply fresh in Hx.
Qed.

Lemma append_account (e : epoch) (a' : Z) (i : account_info) :
  accounts s' !! (e, a') = Some i -> account_ok s' e a' i.
Proof.
  intros [(-> & -> & ->) | [Hne Hi]]%account_entry.
  - destruct (ap_sideband _ _ _ _ _ _ _ _ Ha) as (S1 & S2 & S3 & S4).
    destruct (ap_new _ _ _ _ _ _ _ _ Ha) as [N1 N2 N3 N4 N5].
    destruct (ap_account _ _ _ _ _ _ _ _ Ha) as [A1 A2].
    split; try done; rewrite ?N1.
    + rewrite N3. apply u64_range.
    + exists (b, sb). rewrite get_new, frontier_new. auto 8.
    + now rewrite version', Z.eqb_refl.
    + apply walk_new.
    + rewrite N2. case_eq old; [intros j Ej | intros Eo; exists (b, sb); split; [apply get_new |]].
      * rewrite Ej in A2. apply (account_get_some s Hs) in A2.
        destruct (ao_open _ _ _ _ (inv_account _ Hs _ _ _ A2)) as (x & Hx & Px).
        destruct (keep _ _ Hx) as (n & Hx'). eauto.
      * pose proof (ap_prev _ _ _ _ _ _ _ _ Ha) as Ep. now rewrite Eo in Ep.
  - pose proof (other_head _ _ _ Hne Hi) as Hp. pose proof (inv_account _ Hs _ _ _ Hi) as
      [O1 O2 O3 O4 (x & X & X1 & X2 & X3 & X4 & X5) O5 Y (z & Z & Z0)].
    pose proof (fresh _ _ X) as Hf. split; try done.
    + exists x. rewrite frontier_other by done. split_and!; try done.
      rewrite get', (proj2 (Z.eqb_neq _ _) Hf), (proj2 (Z.eqb_neq _ _) Hp). done.
    + now rewrite version', (proj2 (Z.eqb_neq _ _) Hf).
    + now apply walk_keep.
    + destruct (keep _ _ Z) as (n & Z'). eauto.
Qed.

Lemma append_account_unique (e e' : epoch) (a' : Z) (i i' : account_info) :
  accounts s' !! (e, a') = Some i -> accounts s' !! (e', a') = Some i' -> e = e'.
Proof.
  intros [(-> & -> & ->) | [Hne Hi]]%account_entry [(E & -> & ->) | [Hne' Hi']]%account_entry;
    try done. eapply (inv_account_unique _ Hs); eauto.
Qed.

Lemma append_frontier (h a' : Z) : frontiers s' !! h = Some a' ->
  exists i, accounts s' !! (epoch_0, a') = Some i /\ head i = h.
Proof.
  intros E. destruct (decide (h = hash b)) as [-> | Hh].
  - rewrite frontier_new in E. destruct (legacy_type (type b)) eqn:El; [| done].
    injection E as <-. exists new. rewrite <- (ap_legacy _ _ _ _ _ _ _ _ Ha El).
    split; [apply account_new | apply (ap_new _ _ _ _ _ _ _ _ Ha)].
  - assert (Hp : h <> previous b).
    { intros ->. rewrite (ap_frontiers _ _ _ _ _ _ _ _ Ha) in E. cbn zeta in E.
      destruct (legacy_type (type b)); rewrite ?lookup_insert_ne, lookup_delete_eq in E by congruence;
        done. }
    rewrite frontier_other in E by done. destruct (inv_frontier _ Hs _ _ E) as (i & Hi & Ei).
    exists i. split; [| done]. apply account_keep; [| done]. intros ->.
    pose proof (ap_prev _ _ _ _ _ _ _ _ Ha) as Ep.
    destruct (ap_account _ _ _ _ _ _ _ _ Ha) as [_ Ho].
    rewrite (account_get_entry s Hs _ _ _ Hi) in Ho.
    rewrite <- Ho in Ep. congruence.
Qed.

(** The neighbours and the account of the blocks of the grown chain. *)
Lemma chained_new : chained s' (hash b) (b, sb).
Proof.
  destruct (ap_sideband _ _ _ _ _ _ _ _ Ha) as (S1 & S2 & S3 & S4).
  destruct (ap_new _ _ _ _ _ _ _ _ Ha) as [N1 N2 N3 N4 N5]. split; cbn [fst snd].
  - exists (ai_epoch new), new. rewrite S2. split; [apply account_new |]. split; [done |].
    intros Hp. pose proof (ap_prev _ _ _ _ _ _ _ _ Ha) as Ep. rewrite Hp in Ep. rewrite N2.
    case_eq old; [intros i Ei; exfalso | done]. rewrite Ei in Ep.
    destruct (ap_account _ _ _ _ _ _ _ _ Ha) as [_ Ho]. rewrite Ei in Ho.
    apply (account_get_some s Hs) in Ho.
    destruct (ao_head _ _ _ _ (inv_account _ Hs _ _ _ Ho)) as (x & Hx & _).
    apply (get_nonzero s Hs) in Hx. congruence.
  - intros Hp. destruct (old_head Hp) as (i & x & Ei & _ & _ & Hx & _ & X1 & X2 & X3).
    exists (set_successor x (hash b)). rewrite get', (proj2 (Z.eqb_neq _ _) (fresh _ _ Hx)).
    rewrite Z.eqb_refl, Hx. split; [done |]. split; [done |]. rewrite S4, N3, S2, Ei, <- X3.
    split; [exact X1 | done].
  - now rewrite S1.
Qed.

Lemma chained_prev (x : entry) : block_get_full s (previous b) = Some x ->
  chained s' (previous b) (set_successor x (hash b)).
Proof.
  intros Hx. pose proof (get_nonzero s Hs _ _ Hx) as Hp.
  destruct (old_head Hp) as (i & x0 & Ei & Eh & Hi & Hx0 & _ & X1 & X2 & X3).
  assert (x0 = x) as -> by congruence.
  destruct (inv_chain _ Hs _ _ Hx) as [(e & j & Hj & C1 & C2) C3 C4].
  rewrite X1 in Hj. pose proof (account_get_entry s Hs _ _ _ Hj) as Gj.
  rewrite (account_get_entry s Hs _ _ _ Hi) in Gj. injection Gj as <-.
  destruct (ap_new _ _ _ _ _ _ _ _ Ha) as [N1 N2 N3 N4 N5]. rewrite Ei in N2.
  destruct (ap_block _ _ _ _ _ _ _ _ Ha) as (Hz & _). split; cbn [set_successor fst snd sb_successor].
  - exists (ai_epoch new), new. change (entry_account (set_successor x (hash b))) with (entry_account x).
    rewrite X1. split; [apply account_new |]. split; [done |]. intros E. rewrite N2. auto.
  - intros E. destruct (C3 E) as (y & Hy & Y1 & Y2 & Y3). exists y. split; [| done].
    apply same; congruence.
  - intros _. exists (b, sb). split; [apply get_new | done].
Qed.

Lemma chained_other (h : Z) (x : entry) : h <> hash b -> h <> previous b ->
  block_get_full s h = Some x -> chained s' h x.
Proof.
  intros Hh Hp Hx. pose proof (get_nonzero s Hs _ _ Hx) as Hz.
  destruct (inv_chain _ Hs _ _ Hx) as [(e & j & Hj & C1 & C2) C3 C4]. split.
  - destruct (decide (entry_account x = a)) as [Ea | Ea].
    + exists (ai_epoch new), new. rewrite Ea in *. split; [apply account_new |].
      pose proof (account_get_entry s Hs _ _ _ Hj) as Gj.
      destruct (ap_account _ _ _ _ _ _ _ _ Ha) as [_ Ho]. rewrite Gj in Ho.
      pose proof (ap_prev _ _ _ _ _ _ _ _ Ha) as Ep.
      destruct (ap_new _ _ _ _ _ _ _ _ Ha) as [N1 N2 N3 N4 N5].
      rewrite <- Ho in Ep, N2. split; [| intros E; rewrite N2; auto].
      intros E. specialize (C1 E). congruence.
    + exists e, j. split; [now apply account_keep | done].
  - intros E. destruct (C3 E) as (y & Hy & Y1 & Y2 & Y3). exists y. split; [| done].
    apply same; congruence.
  - intros E. destruct (C4 E) as (y & Hy & Y1). destruct (keep _ _ Hy) as (n & Hy').
    eexists. split; [exact Hy' | done].
Qed.

Lemma append_chain (h : Z) (x : entry) : block_get_full s' h = Some x -> chained s' h x.
Proof.
  intros [(-> & ->) | [(-> & x0 & Hx & ->) | (H1 & H2 & Hx)]]%entry'.
  - apply chained_new.
  - now apply chained_prev.
  - now apply chained_other.
Qed.

(** ** Pending entries *)

Lemma pending_entry (e : epoch) (k : Z * Z) (p : pending_info) : pending s' !! (e, k) = Some p ->
  c = pend_put k p /\ e = pi_epoch p \/ pending s !! (e, k) = Some p.
Proof.
  rewrite (ap_pending _ _ _ _ _ _ _ _ Ha). destruct c as [| k' p' | e' k' p']; cbn [apply_pending].
  - auto.
  - intros [[[= <- <-] <-] | [_ Hp]]%lookup_insert_Some; auto.
  - intros [_ Hp]%lookup_delete_Some. auto.
Qed.

Lemma pending_keep (e : epoch) (a' h : Z) (p : pending_info) :
  pending_ok s e a' h p -> pending_ok s' e a' h p.
Proof.
  intros [P1 P2 (x & y & X & X1 & X2 & Y & Y1) P4]. split; try done.
  - destruct (keep _ _ X) as (n & X'), (keep _ _ Y) as (n' & Y'). eexists _, _.
    split; [exact X' |]. split; [exact X1 |]. split; [exact X2 |]. split; [exact Y' | exact Y1].
  - now rewrite version', (proj2 (Z.eqb_neq _ _) (fresh _ _ X)).
Qed.

Lemma append_pending (e : epoch) (a' h : Z) (p : pending_info) :
  pending s' !! (e, (a', h)) = Some p -> pending_ok s' e a' h p.
Proof.
  intros [[Ec ->] | Hp]%pending_entry; [| now apply pending_keep, (inv_pending _ Hs)].
  pose proof (ap_change _ _ _ _ _ _ _ _ Ha) as Hc. rewrite Ec in Hc.
  destruct Hc as (-> & C1 & C2 & C3 & C4 & i & Ei).
  pose proof (ap_money _ _ _ _ _ _ _ _ Ha) as Hm. rewrite Ec, Ei in Hm.
  cbn [pending_delta old_balance] in Hm.
  destruct (ap_sideband _ _ _ _ _ _ _ _ Ha) as (S1 & S2 & S3 & S4).
  assert (Hp : previous b <> 0).
  { pose proof (ap_prev _ _ _ _ _ _ _ _ Ha) as Ep. rewrite Ei in Ep.
    destruct (ap_account _ _ _ _ _ _ _ _ Ha) as [_ Ho]. rewrite Ei in Ho.
    apply (account_get_some s Hs) in Ho.
    destruct (ao_head _ _ _ _ (inv_account _ Hs _ _ _ Ho)) as (x & Hx & _).
    apply (get_nonzero s Hs) in Hx. congruence. }
  destruct (old_head Hp) as (i' & x & Ei' & _ & _ & Hx & X1 & _).
  assert (i' = i) as -> by congruence. destruct (keep _ _ Hx) as (n & Hx'). split.
  - split; [rewrite C2; apply (ap_new _ _ _ _ _ _ _ _ Ha) | done].
  - done.
  - eexists (b, sb), _. split; [apply get_new |]. split; [congruence |]. split; [done |].
    split; [exact Hx' |]. change (entry_balance x - entry_balance (b, sb) = pi_amount p). lia.
  - rewrite version', Z.eqb_refl. congruence.
Qed.

Lemma append_pending_unique (e e' : epoch) (k : Z * Z) (p p' : pending_info) :
  pending s' !! (e, k) = Some p -> pending s' !! (e', k) = Some p' -> e = e'.
Proof.
  assert (Hnew : forall q e q', c = pend_put k q -> pending s !! (e, k) = Some q' -> False).
  { intros q e0 q' Ec Hq. pose proof (ap_change _ _ _ _ _ _ _ _ Ha) as Hc. rewrite Ec in Hc.
    destruct k as [d h]. destruct Hc as (-> & _). apply (inv_pending _ Hs) in Hq.
    destruct (po_send _ _ _ _ _ Hq) as (x & y & Hx & _). now apply fresh in Hx. }
  intros [[E1 ->] | H1]%pending_entry [[E2 ->] | H2]%pending_entry.
  - congruence.
  - exfalso. eauto.
  - exfalso. eauto.
  - eapply (inv_pending_unique _ Hs); eauto.
Qed.

(** ** Sums *)

Lemma pending_sum : map_sum pi_amount (pending s') = map_sum pi_amount (pending s) + pending_delta c.
Proof.
  rewrite (ap_pending _ _ _ _ _ _ _ _ Ha). pose proof (ap_change _ _ _ _ _ _ _ _ Ha) as Hc.
  destruct c as [| [d h] p | e k p]; cbn [apply_pending pending_delta pending_change_ok] in *.
  - lia.
  - destruct Hc as (-> & _). rewrite map_sum_insert; [lia |].
    destruct (pending s !! (pi_epoch p, (d, hash b))) as [q |] eqn:Hq; [| done].
    apply (inv_pending _ Hs) in Hq. destruct (po_send _ _ _ _ _ Hq) as (x & y & Hx & _).
    destruct (ap_block _ _ _ _ _ _ _ _ Ha) as (_ & _ & Hf). congruence.
  - rewrite (map_sum_delete _ _ _ _ Hc). lia.
Qed.

Lemma account_sum (f : account_info -> Z) : map_sum f (accounts s') =
  map_sum f (accounts s) - match old with Some i => f i | None => 0 end + f new.
Proof.
  rewrite (ap_accounts _ _ _ _ _ _ _ _ Ha). destruct (ap_account _ _ _ _ _ _ _ _ Ha) as [_ Ho].
  destruct old as [i |].
  - apply (account_get_some s Hs) in Ho. rewrite map_sum_insert, (map_sum_delete _ _ _ _ Ho); [lia |].
    destruct (delete (ai_epoch i, a) (accounts s) !! (ai_epoch new, a)) eqn:E; [| done].
    apply lookup_delete_Some in E as [Hne E].
    now rewrite (inv_account_unique _ Hs _ _ _ _ _ E Ho) in Hne.
  - rewrite map_sum_insert by now apply (account_get_none s Hs). lia.
Qed.

Lemma append_supply : supply s' = genesis_amount.
Proof.
  unfold supply. rewrite pending_sum, account_sum. rewrite <- (inv_supply _ Hs). unfold supply.
  pose proof (ap_money _ _ _ _ _ _ _ _ Ha) as Hm. unfold old_balance in Hm.
  destruct old; lia.
Qed.

Lemma rep_of_keep (e : epoch) (a' : Z) (i : account_info) :
  accounts s !! (e, a') = Some i -> rep_of s' i = rep_of s i.
Proof.
  intros Hi. destruct (rep_stored s Hs _ _ _ Hi) as (x & Hx).
  destruct (keep _ _ Hx) as (n & Hx'). unfold rep_of. rewrite !block_get_get, Hx, Hx'. done.
Qed.

Lemma weight_sum (r : Z) :
  weight_of s' r = weight_of s r - old_contribution s r old + contribution s' r new.
Proof.
  unfold weight_of. rewrite account_sum. f_equal. f_equal.
  - apply map_sum_ext. intros [e a'] i Hi. unfold contribution. now rewrite (rep_of_keep _ _ _ Hi).
  - unfold old_contribution. case_eq old; [intros i Ei | done].
    destruct (ap_account _ _ _ _ _ _ _ _ Ha) as [_ Ho]. rewrite Ei in Ho.
    apply (account_get_some s Hs) in Ho. unfold contribution. now rewrite (rep_of_keep _ _ _ Ho).
Qed.

Lemma append_weight (r : Z) : representation_get s' r = weight_of s' r.
Proof.
  rewrite (ap_weight _ _ _ _ _ _ _ _ Ha), (inv_weight _ Hs), <- weight_sum.
  apply u128_small, weight_range; [| | exact append_supply].
  - intros [e a'] i Hi. apply (ao_balance _ _ _ _ (append_account _ _ _ Hi)).
  - intros [e [a' h]] p Hp. apply (po_amount _ _ _ _ _ (append_pending _ _ _ _ Hp)).
Qed.

Lemma append_inv : inv s'.
Proof.
  split.
  - exact append_blocks.
  - exact append_chain.
  - exact append_account.
  - exact append_account_unique.
  - exact append_frontier.
  - exact append_pending.
  - exact append_pending_unique.
  - exact append_weight.
  - exact append_supply.
Qed.

End Append.

End LedgerAppend.
