(* ===== verification/LedgerProcess.v ===== *)
(** * The ledger: processing a block

    Each handler of [ledger_processor] either rejects the block and leaves the
    tables alone, or appends it in the sense of [appended]; no assertion of the
    code fails.  With [LedgerAppend.append_inv] this gives the invariant. *)

From stdpp Require Import base gmap list.
From Stdlib Require Import ZArith Lia.
From S2P Require Import Prelude Blocks Store Ledger LedgerInv LedgerAppend.
Local Open Scope Z_scope.

Module LedgerProcess.
Import Ledger.Ledger LedgerInv.LedgerInv LedgerAppend.LedgerAppend.

(** ** Normal forms of states: [set_db (set_result s r) d] *)

Section Normal.

Context (s : lstate) (d d' : store) (r r' : process_return).

Lemma db_set_db : db (set_db s d) = d. Proof. done. Qed.
Lemma db_set_result : db (set_result s r) = db s. Proof. done. Qed.
Lemma result_set_db : result (set_db s d) = result s. Proof. done. Qed.
Lemma result_set_result : result (set_result s r) = r. Proof. done. Qed.
Lemma set_db_set_db : set_db (set_db s d) d' = set_db s d'. Proof. done. Qed.
Lemma set_result_set_result : set_result (set_result s r) r' = set_result s r'. Proof. done. Qed.
Lemma set_result_set_db : set_result (set_db s d) r = set_db (set_result s r) d. Proof. done. Qed.

End Normal.

Create Rewrite HintDb lstate.
#[export] Hint Rewrite db_set_db db_set_result result_set_db result_set_result set_db_set_db
  set_result_set_result set_result_set_db : lstate.

(** One step of a computation, its state brought to normal form. *)
Ltac tidy := autorewrite with lstate in *; cbn [code r_account r_amount verified] in *;
  cbv beta zeta.
Ltac step := first [apply wp_bind; first [apply wp_reads | apply wp_puts | apply wp_modify]
  | apply wp_puts | apply wp_modify]; tidy.
Ltac write E := apply wp_bind; eapply wp_writes; [exact E |]; tidy.
Ltac need E := apply wp_bind; first [eapply wp_needs; [exact E |] | eapply wp_must; [exact E |]]; tidy.

(** The code and the amount of a result. *)
Definition coded (c : process_result) (amt : Z) (r : process_return) : Prop :=
  code r = c /\ r_amount r = amt.

Lemma wp_check (c : bool) (o : process_result) (k : M unit) (s : lstate) (Q : unit -> lstate -> Prop) :
  (c = false -> forall r, coded o (r_amount (result s)) r -> Q () (set_result s r)) ->
  (c = true -> forall r, coded progress (r_amount (result s)) r ->
     verified r = verified (result s) -> wp k (set_result s r) Q) ->
  wp (check c o k) s Q.
Proof.
  intros H1 H2. unfold check. apply wp_bind, wp_modify.
  destruct c; [now apply H2 | now apply wp_ret, H1].
Qed.

(** ** Weights *)

Definition weights (m : gmap Z Z) (w : Z -> Z) : Prop := forall r, default 0 (m !! r) = u128 (w r).

Lemma u128_add_l (x y : Z) : u128 (u128 x + y) = u128 (x + y).
Proof. apply Zplus_mod_idemp_l. Qed.

Lemma u128_add_r (x y : Z) : u128 (x + u128 y) = u128 (x + y).
Proof. apply Zplus_mod_idemp_r. Qed.

Lemma representation_get_default (s : store) (r : Z) :
  representation_get s r = default 0 (representation s !! r).
Proof. unfold representation_get. now destruct (representation s !! r). Qed.

(** The amount passed may be a wrapped negative: what counts is [y] modulo [2^128]. *)
Lemma rep_add_spec (s : store) (src : Z) (b : block) (x y : Z) (w : Z -> Z) :
  block_get s src = Some b -> weights (representation s) w -> u128 x = u128 y ->
  exists m, representation_add s src x = Some (set_representation s m) /\
    weights m (fun r => w r + if representative b =? r then y else 0).
Proof.
  intros Hb Hw E. unfold representation_add. rewrite Hb. eexists. split; [done |]. intros r.
  rewrite representation_get_default, Hw.
  destruct (Z.eqb_spec (representative b) r) as [<- | Hne].
  - rewrite lookup_insert_eq. cbn [default]. now rewrite u128_add_l, <- u128_add_r, E, u128_add_r.
  - rewrite lookup_insert_ne by done. rewrite Z.add_0_r. apply Hw.
Qed.

Lemma u128_neg (x : Z) : u128 (u128 (0 - x)) = u128 (- x).
Proof. rewrite u128_small by apply u128_range. f_equal. Qed.

(** The new weights, from the sum of what was added. *)
Lemma weights_final (s s' : store) (w : Z -> Z) (old : option account_info) (new : account_info)
    (b : block) :
  weights (representation s') w -> block_get s' (rep_block new) = Some b ->
  (forall r, w r = representation_get s r - old_contribution s r old +
    if representative b =? r then balance new else 0) ->
  forall r, representation_get s' r =
    u128 (representation_get s r - old_contribution s r old + contribution s' r new).
Proof.
  intros Hw Hb Hr r. rewrite representation_get_default, Hw, Hr. unfold contribution, rep_of.
  now rewrite Hb.
Qed.

Lemma contribution_of (s : store) (i : account_info) (b : block) (r : Z) :
  block_get s (rep_block i) = Some b ->
  old_contribution s r (Some i) = if representative b =? r then balance i else 0.
Proof. intros E. unfold old_contribution, contribution, rep_of. now rewrite E. Qed.

Lemma inv_weights `{BlockHash} (s : store) : inv s -> weights (representation s) (representation_get s).
Proof.
  intros Hs r. rewrite <- representation_get_default, u128_small; [done |].
  rewrite (inv_weight _ Hs). apply weight_range; [| | apply (inv_supply _ Hs)].
  - apply (balance_nonneg s Hs).
  - apply (pending_nonneg s Hs).
Qed.

Section WithHash.

Context `{BlockHash}.

(** ** The shared steps *)

Lemma extends_keep (s : store) (b : block) (sb : sideband) (e : epoch) m (h : Z) (b' : block) :
  extends s (hash b) b sb e m -> block_get_full s (hash b) = None ->
  block_get s h = Some b' -> block_get (set_blocks s m) h = Some b'.
Proof.
  intros (_ & G & _) Hn. rewrite !block_get_get, G. intros Hh.
  destruct (Z.eqb_spec h (hash b)) as [-> | _]; [now rewrite Hn in Hh |].
  destruct (h =? previous b); [| done]. now destruct (block_get_full s h).
Qed.

Lemma extends_balance (s : store) (b : block) (sb : sideband) (e : epoch) m (h : Z) (x : entry) :
  extends s (hash b) b sb e m -> block_get_full s (hash b) = None ->
  block_get_full s h = Some x -> block_balance (set_blocks s m) h = Some (entry_balance x).
Proof.
  intros (_ & G & _) Hn Hx. rewrite block_balance_get, G.
  destruct (Z.eqb_spec h (hash b)) as [-> | _]; [congruence |].
  destruct (h =? previous b); now rewrite Hx.
Qed.

Lemma extends_new (s : store) (b : block) (sb : sideband) (e : epoch) m :
  extends s (hash b) b sb e m -> block_get (set_blocks s m) (hash b) = Some b.
Proof. intros (_ & G & _). now rewrite block_get_get, G, Z.eqb_refl. Qed.

Lemma account_del_get (s : store) (a : Z) (i : account_info) : account_get s a = Some i ->
  account_del s a = Some (set_accounts s (delete (ai_epoch i, a) (accounts s))).
Proof.
  unfold account_get, account_del. destruct (accounts s !! (epoch_1, a)) as [j |].
  - now intros [= <-].
  - destruct (accounts s !! (epoch_0, a)) as [j |]; [| done]. now intros [= <-].
Qed.

Lemma account_put_version (s : store) (a : Z) (i : account_info) : is_version (ai_epoch i) ->
  account_put s a i = Some (set_accounts s (<[(ai_epoch i, a) := i]> (accounts s))).
Proof. unfold account_put. now intros [-> | ->]. Qed.

Lemma frontier_del_some (s : store) (h a : Z) : frontiers s !! h = Some a ->
  frontier_del s h = Some (set_frontiers s (delete h (frontiers s))).
Proof. unfold frontier_del. now intros ->. Qed.

(** A pending entry as [pending_get] finds it. *)
Lemma pending_facts (s : store) (k : Z * Z) (p : pending_info) : inv s -> pending_get s k = Some p ->
  pending s !! (pi_epoch p, k) = Some p /\ is_version (pi_epoch p) /\
  (exists i, account_get s (pi_source p) = Some i) /\
  pending_del s k = Some (set_pending s (delete (pi_epoch p, k) (pending s))).
Proof.
  intros Hs Hp. assert (Hl : pending s !! (pi_epoch p, k) = Some p /\
    pending_del s k = Some (set_pending s (delete (pi_epoch p, k) (pending s)))).
  { unfold pending_get, pending_del in *. destruct k as [d h].
    destruct (pending s !! (epoch_1, (d, h))) as [q |] eqn:E1;
      [| destruct (pending s !! (epoch_0, (d, h))) as [q |] eqn:E0; [| done]];
      injection Hp as <-; cbn [pi_epoch]; split; try done.
    - destruct (po_epoch _ _ _ _ _ (inv_pending _ Hs _ _ _ _ E1)) as [_ E]. rewrite E1. destruct q; cbn in *. congruence.
    - destruct (po_epoch _ _ _ _ _ (inv_pending _ Hs _ _ _ _ E0)) as [_ E]. rewrite E0. destruct q; cbn in *. congruence. }
  destruct Hl as [Hl Hd], k as [d h]. split_and!; [done | | | done].
  - now destruct (po_epoch _ _ _ _ _ (inv_pending _ Hs _ _ _ _ Hl)) as [V _].
  - destruct (po_send _ _ _ _ _ (inv_pending _ Hs _ _ _ _ Hl)) as (x & y & Hx & <- & _).
    destruct (ch_account _ _ _ (inv_chain _ Hs _ _ Hx)) as (e & i & Hi & _).
    exists i. eapply account_get_entry; eauto.
Qed.

(** A balance and a pending amount together do not exceed the supply. *)
Lemma receive_fits (s : store) (a : Z) (i : account_info) (k : epoch * (Z * Z)) (p : pending_info) :
  inv s -> account_get s a = Some i -> pending s !! k = Some p ->
  0 <= pi_amount p /\ balance i + pi_amount p < 2 ^ 128.
Proof.
  intros Hs Hi%(account_get_some s Hs) Hp. pose proof (inv_supply _ Hs) as E.
  unfold supply, genesis_amount in E.
  pose proof (map_sum_member balance _ _ _ (balance_nonneg s Hs) Hi).
  pose proof (map_sum_member pi_amount _ _ _ (pending_nonneg s Hs) Hp).
  pose proof (pending_nonneg s Hs _ _ Hp). lia.
Qed.

Lemma frontier_zero (s : store) : inv s -> delete 0 (frontiers s) = frontiers s.
Proof.
  intros Hs. apply delete_id. destruct (frontiers s !! 0) as [a |] eqn:E; [| done].
  destruct (inv_frontier _ Hs _ _ E) as (i & Hi & Eh).
  destruct (ao_head _ _ _ _ (inv_account _ Hs _ _ _ Hi)) as (x & Hx & _).
  apply (get_nonzero s Hs) in Hx. congruence.
Qed.

End WithHash.

Section Handlers.

Context `{Env}.

Definition latest_info (old : option account_info) (h rb bal count : Z) (e : epoch) : account_info :=
  mk_account_info h rb (match old with Some i => open_block_hash i | None => h end) bal now count e.

Lemma wp_change_latest (a h rb bal count : Z) (e : epoch) (old : option account_info) (s : lstate)
    (Q : unit -> lstate -> Prop) :
  account_get (db s) a = old -> h <> 0 -> is_version e ->
  (old = None -> exists b, block_get (db s) h = Some b /\ previous b = 0) ->
  Q () (set_db s (set_accounts (db s) (<[(e, a) := latest_info old h rb bal count e]>
    (match old with Some i => delete (ai_epoch i, a) (accounts (db s)) | None => accounts (db s) end)))) ->
  wp (change_latest a h rb bal count e) s Q.
Proof.
  intros Ho Hh He Hb HQ. unfold change_latest. apply wp_bind, wp_reads. rewrite Ho.
  apply Z.eqb_neq in Hh. destruct old as [i |].
  - apply wp_bind, wp_ret. rewrite Hh. cbn [present andb negb].
    destruct (bool_decide_reflect (ai_epoch i = e)) as [Ei | Ei]; cbn [negb].
    + apply wp_bind, wp_ret. eapply wp_writes; [apply account_put_version; exact He |].
      cbn [ai_epoch]. rewrite Ei, insert_delete_eq in HQ. exact HQ.
    + apply wp_bind. eapply wp_writes; [apply account_del_get; exact Ho |].
      eapply wp_writes; [apply account_put_version; exact He |]. exact HQ.
  - destruct (Hb eq_refl) as (b & Eb & Ep). apply wp_bind, wp_bind. eapply wp_needs; [exact Eb |].
    apply wp_bind, wp_assert; [now apply Z.eqb_eq |]. apply wp_ret. rewrite Hh.
    cbn [present andb negb]. apply wp_bind, wp_ret.
    eapply wp_writes; [apply account_put_version; exact He |]. exact HQ.
Qed.

(** ** What is asked of a block and its environment *)

(** The account whose signature the block's handler checks. *)
Definition signer (s : store) (b : block) : Z :=
  match b with
  | open_block _ _ _ | state_block _ _ _ => account b
  | _ => frontier_get s (previous b)
  end.

(** The handlers of the older types look for the head they follow before they
    check the signature. *)
Definition reaches_signature (s : store) (b : block) : bool :=
  match b with
  | open_block _ _ _ | state_block _ _ _ => true
  | _ => negb (frontier_get s (previous b) =? 0)
  end.

(** A well-formed block whose hash is not zero and collides with no stored
    block's, a verification status that is true, and no epoch block that claims
    to extend a stored block for an account that is not open. *)
Record admissible (s : store) (b : block) (v : signature_verification) : Prop := {
  ad_ok : block_ok b;
  ad_hash : hash b <> 0;
  ad_collision (x : entry) : block_get_full s (hash b) = Some x -> preimage x.1 = preimage b;
  ad_valid : v = sv_valid -> reaches_signature s b = true ->
    validate_message (signer s b) (hash b) (block_signature b) = false;
  ad_epoch : v = sv_valid_epoch -> validate_message epoch_signer (hash b) (block_signature b) = false;
  ad_opens : type b = bt_state -> link b = epoch_link -> account_get s (account b) = None ->
    previous b = 0 \/ block_get_full s (previous b) = None }.

(** What the block's type says about the change of the pending table, and about
    the frontier it takes over. *)
Definition explains (s : store) (b : block) (a : Z) (old : option account_info)
    (c : pending_change) : Prop :=
  match b with
  | send_block f _ _ => (exists i, old = Some i) /\ frontiers s !! send_previous f = Some a /\
      exists p, c = pend_put (send_destination f, hash b) p
  | receive_block f _ _ => (exists i, old = Some i) /\ frontiers s !! receive_previous f = Some a /\
      exists p, c = pend_del epoch_0 (a, receive_source f) p
  | open_block f _ _ => a = open_account f /\ old = None /\ exists p, c = pend_del epoch_0 (a, open_source f) p
  | change_block f _ _ => (exists i, old = Some i) /\ frontiers s !! change_previous f = Some a /\
      c = pend_same
  | state_block f _ _ => a = state_account f /\
      if state_balance f <? old_balance old then exists p, c = pend_put (state_link f, hash b) p
      else c = pend_same /\ (state_link f = 0 \/ state_link f = epoch_link) \/
        state_link f <> 0 /\ exists p, c = pend_del (pi_epoch p) (a, state_link f) p
  end.

(** The outcome of a handler: rejected, or appended. *)
Definition settled (s : store) (b : block) : unit -> lstate -> Prop := fun _ s' =>
  code (result s') <> progress /\ db s' = s \/
  code (result s') = progress /\ exists sb a old new c, appended s b sb a old new c (db s') /\
    explains s b a old c /\ r_account (result s') = a /\ r_amount (result s') = Z.abs (balance new - old_balance old).

(** The store a handler ends with, table by table. *)
Lemma settled_append (s : store) (b : block) (v : signature_verification) (s' : lstate)
    (a rb bal sbal count : Z) (e : epoch) (old : option account_info) (c : pending_change)
    (m : gmap (block_db * Z) entry) (w : gmap Z Z) (W : Z -> Z) (rep : block) :
  let sb := mk_sideband 0 a sbal count now in
  let new := latest_info old (hash b) rb bal count e in
  admissible s b v -> block_get_full s (hash b) = None -> extends s (hash b) b sb e m ->
  db s' = mk_store m
    (<[(e, a) := new]>
      (match old with Some i => delete (ai_epoch i, a) (accounts s) | None => accounts s end))
    (apply_pending c (pending s)) w
    (let f := delete (previous b) (frontiers s) in
     if legacy_type (type b) then <[hash b := a]> f else f) ->
  coded progress (Z.abs (bal - old_balance old)) (result s') -> r_account (result s') = a ->
  a <> 0 -> account_get s a = old ->
  previous b = match old with Some i => head i | None => 0 end ->
  entry_account (b, sb) = a -> entry_balance (b, sb) = bal ->
  count = u64 (match old with Some i => block_count i | None => 0 end + 1) ->
  is_version e -> (legacy_type (type b) = true -> e = epoch_0) -> 0 <= bal ->
  (if keeps_rep b then exists i, old = Some i /\ rb = rep_block i else rb = hash b) ->
  pending_change_ok s b a old new c -> explains s b a old c -> bal + pending_delta c = old_balance old ->
  weights w W -> block_get (set_blocks s m) rb = Some rep ->
  (forall r, W r = representation_get s r - old_contribution s r old +
    if representative rep =? r then bal else 0) ->
  settled s b () s'.
Proof.
  intros sb new Ha Hn Hm E [Hc Hamt] Hacc Ha0 Ho Hp S1 S2 Hcount He Hl Hbal Hrb Hch Hex Hmoney Hw Hrep HW.
  right. split; [exact Hc |]. exists sb, a, old, new, c. split; [| split; [exact Hex | now rewrite Hamt]].
  rewrite E. split.
  - split_and!; [apply Ha | apply Ha | exact Hn].
  - exact (conj Ha0 Ho).
  - exact Hp.
  - split_and!; [reflexivity | exact S1 | exact S2 | reflexivity].
  - split; [reflexivity | reflexivity | exact Hcount | exact He | exact Hbal].
  - exact Hrb.
  - exact Hl.
  - exact Hch.
  - exact Hmoney.
  - exact Hm.
  - reflexivity.
  - reflexivity.
  - eapply weights_final; [exact Hw | exact Hrep | exact HW].
  - reflexivity.
Qed.

Lemma wp_check_signature (v : signature_verification) (a h signature : Z) (k : M unit) (s : lstate)
    (Q : unit -> lstate -> Prop) :
  (verified (result s) = v -> validate_message a h signature = false) ->
  (validate_message a h signature = true -> forall r, coded bad_signature (r_amount (result s)) r ->
     Q () (set_result s r)) ->
  (validate_message a h signature = false -> forall r,
     coded progress (r_amount (result s)) r -> wp k (set_result s r) Q) ->
  wp (check_signature v a h signature k) s Q.
Proof.
  intros Hv Hbad Hgood. unfold check_signature. apply wp_bind. change (wp get_result s) with
    (fun Q : process_return -> lstate -> Prop => Q (result s) s). cbv beta.
  apply wp_bind, wp_modify. destruct (bool_decide_reflect (verified (result s) = v)) as [E | E];
    cbn [negb andb].
  - specialize (Hgood (Hv E)). rewrite (Hv E). apply wp_bind, wp_assert; [done |].
    apply wp_bind, wp_modify. now apply (Hgood (mk_return progress _ _ _ _ v)).
  - destruct (validate_message a h signature); [now apply wp_ret, Hbad |].
    apply wp_bind, wp_assert; [done |]. apply wp_bind, wp_modify.
    now apply (Hgood eq_refl (mk_return progress _ _ _ _ v)).
Qed.

Lemma block_fresh (s : store) (b : block) (v : signature_verification) :
  inv s -> admissible s b v -> block_exists_type s (type b) (hash b) = false ->
  (type b = bt_receive \/ type b = bt_change ->
   exists y, block_get_full s (previous b) = Some y /\ sb_successor y.2 = 0) ->
  block_get_full s (hash b) = None.
Proof.
  intros Hs Ha He Hp. destruct (block_get_full s (hash b)) as [x |] eqn:Hx; [exfalso | done].
  pose proof (get_hash s (inv_blocks _ Hs) _ _ Hx) as (_ & _ & Hok).
  pose proof (preimage_inj _ _ Hok (ad_ok _ _ _ Ha) (ad_collision _ _ _ Ha _ Hx)) as Hsame.
  assert (Ht : type x.1 <> type b).
  { intros Et. enough (block_exists_type s (type b) (hash b) = true) by congruence.
    apply (exists_type_get s (inv_blocks _ Hs)). eauto. }
  assert (Hpx : previous x.1 = previous b /\ (type b = bt_receive \/ type b = bt_change)).
  { destruct x.1, b; cbn in *; try done; tauto. }
  destruct Hpx as [Epx Etb]. destruct (Hp Etb) as (y & Hy & Sy).
  destruct (ch_prev _ _ _ (inv_chain _ Hs _ _ Hx)) as (y' & Hy' & Sy' & _).
  { rewrite Epx. eapply get_nonzero; eauto. }
  rewrite Epx in Hy'. pose proof (ad_hash _ _ _ Ha). congruence.
Qed.

Lemma frontier_head (s : store) (h : Z) : inv s -> frontier_get s h <> 0 ->
  exists i x, frontiers s !! h = Some (frontier_get s h) /\
    account_get s (frontier_get s h) = Some i /\ head i = h /\ ai_epoch i = epoch_0 /\
    block_get_full s h = Some x /\ entry_balance x = balance i /\ sb_successor x.2 = 0.
Proof.
  intros Hs. unfold frontier_get. destruct (frontiers s !! h) as [a |] eqn:E; [intros Ha | done].
  destruct (inv_frontier _ Hs _ _ E) as (i & Hi & Eh).
  pose proof (inv_account _ Hs _ _ _ Hi) as Hok. destruct (ao_head _ _ _ _ Hok) as (x & X).
  exists i, x. rewrite (account_get_entry s Hs _ _ _ Hi). destruct (ao_epoch _ _ _ _ Hok).
  rewrite Eh in X. tauto.
Qed.

Lemma wp_ledger_balance (h x : Z) (s : lstate) (Q : Z -> lstate -> Prop) :
  h <> 0 -> block_balance (db s) h = Some x -> Q x s -> wp (ledger_balance h) s Q.
Proof.
  intros Hh E HQ. unfold ledger_balance. apply Z.eqb_neq in Hh as ->. eapply wp_needs; [exact E | exact HQ].
Qed.

Lemma account_facts (s : store) (a : Z) (i : account_info) : inv s -> account_get s a = Some i ->
  0 <= balance i < 2 ^ 128 /\ exists b, block_get s (rep_block i) = Some b.
Proof.
  intros Hs Hi%(account_get_some s Hs). pose proof (inv_account _ Hs _ _ _ Hi) as Hok.
  pose proof (supply_bounds s Hs _ _ Hi) as Hb. unfold genesis_amount in Hb.
  pose proof (ao_balance _ _ _ _ Hok). destruct (rep_stored _ Hs _ _ _ Hi) as (x & Hx).
  split; [lia |]. exists x.1. now rewrite block_get_get, Hx.
Qed.

Lemma wp_rep_add (src : Z) (b : block) (x y : Z) (w : Z -> Z) (s : lstate)
    (Q : unit -> lstate -> Prop) :
  block_get (db s) src = Some b -> weights (representation (db s)) w -> u128 x = u128 y ->
  (forall m, weights m (fun r => w r + if representative b =? r then y else 0) ->
    Q () (set_db s (set_representation (db s) m))) ->
  wp (writes (fun s => representation_add s src x)) s Q.
Proof.
  intros Hb Hw E HQ. destruct (rep_add_spec _ _ _ _ _ _ Hb Hw E) as (m & Em & Wm).
  eapply wp_writes; [exact Em | now apply HQ].
Qed.

(** The block tables of [d] are not written before the block is put. *)
Lemma wp_block_put (d : store) (b : block) (v : signature_verification) (sb : sideband) (e : epoch)
    (s : lstate) (Q : unit -> lstate -> Prop) :
  inv d -> admissible d b v -> block_get_full d (hash b) = None -> sb_successor sb = 0 ->
  placed d b e -> blocks (db s) = blocks d ->
  (forall m, extends d (hash b) b sb e m -> Q () (set_db s (set_blocks (db s) m))) ->
  wp (writes (fun s => block_put s (hash b) b sb e)) s Q.
Proof.
  intros Hs Ha Hn Hsb Hp E HQ. destruct (db s) as [bl ac pe re fr] eqn:Ed. cbn [blocks] in E. subst bl.
  destruct (block_put_spec (db s) b sb e) as (m & Em & Hm); rewrite ?Ed; try done; try apply Ha;
    [apply Hs |]. rewrite Ed in Em, Hm. eapply wp_writes; [rewrite Ed; exact Em | now apply HQ].
Qed.

(** ** Legacy blocks *)

(** Forget the results before the last one. *)
Ltac flatten := repeat match goal with
  | H0 : coded _ _ ?r0, H : coded _ (r_amount ?r0) ?r |- _ => rewrite (proj2 H0) in H; clear H0
  | H0 : verified ?r0 = _, H : verified ?r = verified ?r0 |- _ => rewrite H0 in H; clear H0
  end.

Ltac reject := intros _ ? (Hc & _); left; autorewrite with lstate; rewrite Hc; done.
Tactic Notation "checks" simple_intropattern(p) :=
  apply wp_check; [reject |]; intros p; let r := fresh "r" in let Hr := fresh "Hr" in
  let Hv := fresh "Hv" in intros r Hr Hv; tidy; flatten.
Ltac signed Ha := apply wp_check_signature;
  [tidy; intros Ev; apply Ha; first [congruence |
     cbn [reaches_signature previous]; reflexivity || now apply negb_true_iff, Z.eqb_neq] | reject |]; intros _;
  let r := fresh "r" in let Hr := fresh "Hr" in intros r Hr; tidy; flatten.
Ltac asserted := apply wp_bind, wp_assert; [now apply Z.eqb_eq |].

Ltac puts_block Hs Ha Hn m Hm :=
  apply wp_bind; eapply (wp_block_put _ _ _ _ _ _ _ Hs Ha Hn); [done | | done |];
  [| intros m Hm; tidy].
Ltac adds_weight Hb Hw E w W :=
  apply wp_bind; eapply wp_rep_add; [exact Hb | exact Hw | exact E |]; intros w W; tidy.
Ltac progressed := match goal with Hr : coded progress _ _ |- _ => apply Hr end.

Lemma present_some {A : Type} (o : option A) : present o = true -> exists x, o = Some x.
Proof. destruct o; [eauto | done]. Qed.

Lemma process_change_ok (f : change_hashables) (sg w : Z) (s : lstate) :
  inv (db s) -> admissible (db s) (change_block f sg w) (verified (result s)) ->
  wp (process_change f sg w) s (settled (db s) (change_block f sg w)).
Proof.
  intros Hs Ha. set (b := change_block f sg w) in *. unfold process_change. fold b.
  step. checks He%negb_true_iff. step. checks (p & Ep)%present_some.
  need Ep.
  checks _. step. checks Hf%negb_true_iff%Z.eqb_neq.
  destruct (frontier_head _ _ Hs Hf) as (i & x & F1 & F2 & F3 & F4 & F5 & F6 & F7).
  set (a := frontier_get (db s) (change_previous f)) in *.
  need F2. asserted.
  signed (ad_valid _ _ _ Ha).
  assert (Hn : block_get_full (db s) (hash b) = None) by (eapply block_fresh; eauto).
  destruct (account_facts _ _ _ Hs F2) as (Hi & y & Gy).
  puts_block Hs Ha Hn m Hm; [split; [now left |]; right; eauto |].
  apply wp_bind. eapply wp_ledger_balance;
    [eapply (get_nonzero _ Hs), F5 | exact (extends_balance _ _ _ _ _ _ _ Hm Hn F5) |].
  adds_weight (extends_new _ _ _ _ _ Hm) (inv_weights _ Hs) (eq_refl (u128 (entry_balance x))) w1 W1.
  adds_weight (extends_keep _ _ _ _ _ _ _ Hm Hn Gy) W1 (u128_neg (entry_balance x)) w2 W2.
  apply wp_bind. eapply wp_change_latest; [exact F2 | apply Ha | now left | done |].
  apply wp_bind. eapply wp_writes.
  { eapply frontier_del_some. exact F1. }
  step. step. step. apply wp_stat_inc. intros s' Es Er.
  eapply (settled_append _ _ _ _ a _ _ _ _ _ (Some i) pend_same); [exact Ha | exact Hn | exact Hm
    | exact Es | rewrite Er; split; [progressed | cbn [old_balance r_amount]; tidy; lia] | now rewrite Er | exact Hf | exact F2
    | now symmetry | reflexivity | reflexivity | reflexivity | now left | done | apply Hi
    | reflexivity | exact I | cbn [explains b]; eauto | cbn [pending_delta old_balance pi_amount]; lia | exact W2 | exact (extends_new _ _ _ _ _ Hm) |].
  intros r'. rewrite (contribution_of _ _ _ _ Gy), F6. repeat destruct (_ =? _); lia.
Qed.

Lemma process_send_ok (f : send_hashables) (sg w : Z) (s : lstate) :
  inv (db s) -> admissible (db s) (send_block f sg w) (verified (result s)) ->
  wp (process_send f sg w) s (settled (db s) (send_block f sg w)).
Proof.
  intros Hs Ha. set (b := send_block f sg w) in *. unfold process_send. fold b.
  step. checks He%negb_true_iff. step. checks (p & Ep)%present_some.
  need Ep.
  checks _. step. checks Hf%negb_true_iff%Z.eqb_neq.
  destruct (frontier_head _ _ Hs Hf) as (i & x & F1 & F2 & F3 & F4 & F5 & F6 & F7).
  set (a := frontier_get (db s) (send_previous f)) in *.
  signed (ad_valid _ _ _ Ha).
  need F2. asserted.
  checks Hle%Z.leb_le.
  assert (Hn : block_get_full (db s) (hash b) = None) by (eapply block_fresh; eauto).
  destruct (account_facts _ _ _ Hs F2) as (Hi & y & Gy).
  adds_weight Gy (inv_weights _ Hs) (u128_neg (balance i - send_balance f)) w1 W1.
  puts_block Hs Ha Hn m Hm; [split; [now left |]; right; eauto |].
  apply wp_bind. eapply wp_change_latest; [exact F2 | apply Ha | now left | done |].
  apply wp_bind. eapply wp_writes; [reflexivity |]. apply wp_bind. eapply wp_writes.
  { eapply frontier_del_some. exact F1. }
  step. step. step. step. apply wp_stat_inc. intros s' Es Er.
  destruct (ad_ok _ _ _ Ha) as ((_ & _ & Hb) & _). unfold word in Hb.
  eapply (settled_append _ _ _ _ a _ _ _ _ _ (Some i) (pend_put _ _)); [exact Ha | exact Hn | exact Hm
    | exact Es | rewrite Er; split; [progressed | cbn [old_balance r_amount]; tidy; lia] | now rewrite Er | exact Hf | exact F2
    | now symmetry | reflexivity | reflexivity | reflexivity | now left | done | apply Hb
    | cbn [keeps_rep b]; eauto | cbn; split_and!; [done .. | lia | done | eauto] | cbn [explains b]; eauto | cbn [pending_delta old_balance pi_amount]; lia | exact W1
    | exact (extends_keep _ _ _ _ _ _ _ Hm Hn Gy) |].
  intros r'. rewrite (contribution_of _ _ _ _ Gy). repeat destruct (_ =? _); lia.
Qed.

Lemma process_receive_ok (f : receive_hashables) (sg w : Z) (s : lstate) :
  inv (db s) -> admissible (db s) (receive_block f sg w) (verified (result s)) ->
  wp (process_receive f sg w) s (settled (db s) (receive_block f sg w)).
Proof.
  intros Hs Ha. set (b := receive_block f sg w) in *. unfold process_receive. fold b.
  step. checks He%negb_true_iff. step. checks (p & Ep)%present_some.
  need Ep.
  checks _. step. step.
  destruct (Z.eqb_spec (frontier_get (db s) (receive_previous f)) 0) as [Hf | Hf]; cbn [negb].
  { step. step. left. cbn [db set_result result code]. split; [| done].
    now destruct (block_exists _ _). }
  destruct (frontier_head _ _ Hs Hf) as (i & x & F1 & F2 & F3 & F4 & F5 & F6 & F7).
  set (a := frontier_get (db s) (receive_previous f)) in *.
  signed (ad_valid _ _ _ Ha).
  step. checks _. step. rewrite F2. checks _.
  step. checks (pd & Hp)%present_some. need Hp. checks Hpe%bool_decide_eq_true.
  assert (Hn : block_get_full (db s) (hash b) = None) by (eapply block_fresh; eauto).
  destruct (account_facts _ _ _ Hs F2) as (Hi & y & Gy).
  destruct (pending_facts _ _ _ Hs Hp) as (P1 & P2 & (j & Hj) & P3).
  need Hj.
  pose proof (receive_fits _ _ _ _ _ Hs F2 P1) as Hfit. write P3.
  rewrite (u128_small (balance i + pi_amount pd)) by lia.
  puts_block Hs Ha Hn m Hm; [split; [now left |]; right; eauto |].
  apply wp_bind. eapply wp_change_latest; [exact F2 | apply Ha | now left | done |]. tidy.
  adds_weight (extends_keep _ _ _ _ _ _ _ Hm Hn Gy) (inv_weights _ Hs) (eq_refl (u128 (pi_amount pd))) w1 W1.
  apply wp_bind. eapply wp_writes; [eapply frontier_del_some; exact F1 |].
  step. step. step. apply wp_stat_inc. intros s' Es Er.
  eapply (settled_append _ _ _ _ a _ _ _ _ _ (Some i) (pend_del _ _ pd)); [exact Ha | exact Hn | exact Hm
    | exact Es | rewrite Er; split; [progressed | cbn [old_balance r_amount]; tidy; lia] | now rewrite Er | exact Hf | exact F2
    | now symmetry | reflexivity | reflexivity | reflexivity | now left | done | lia
    | cbn [keeps_rep b]; eauto | exact P1 | cbn [explains b]; rewrite Hpe; eauto | cbn [pending_delta old_balance pi_amount]; lia | exact W1
    | exact (extends_keep _ _ _ _ _ _ _ Hm Hn Gy) |].
  intros r'. rewrite (contribution_of _ _ _ _ Gy). repeat destruct (_ =? _); lia.
Qed.

Lemma process_open_ok (f : open_hashables) (sg w : Z) (s : lstate) :
  inv (db s) -> admissible (db s) (open_block f sg w) (verified (result s)) ->
  wp (process_open f sg w) s (settled (db s) (open_block f sg w)).
Proof.
  intros Hs Ha. set (b := open_block f sg w) in *. unfold process_open. fold b.
  step. checks He%negb_true_iff. signed (ad_valid _ _ _ Ha). step. checks _. step. checks Ho.
  assert (Hnone : account_get (db s) (open_account f) = None) by (now destruct (account_get _ _)).
  step. checks (pd & Hp)%present_some. need Hp. checks Hz%negb_true_iff%Z.eqb_neq.
  checks Hpe%bool_decide_eq_true.
  assert (Hn : block_get_full (db s) (hash b) = None) by (eapply block_fresh; eauto; intros [|]; done).
  destruct (pending_facts _ _ _ Hs Hp) as (P1 & P2 & (j & Hj) & P3).
  need Hj. write P3. puts_block Hs Ha Hn m Hm; [split; [now left |]; left; auto |].
  apply wp_bind. eapply wp_change_latest; [exact Hnone | apply Ha | now left | |].
  { exists b. split; [exact (extends_new _ _ _ _ _ Hm) | done]. }
  tidy. adds_weight (extends_new _ _ _ _ _ Hm) (inv_weights _ Hs) (eq_refl (u128 (pi_amount pd))) w1 W1.
  step. step. step. apply wp_stat_inc. intros s' Es Er.
  pose proof (pending_nonneg _ Hs _ _ P1) as Hpos.
  eapply (settled_append _ _ _ _ (open_account f) (hash b) (pi_amount pd) (pi_amount pd) 1 epoch_0
    None (pend_del _ _ pd)); [exact Ha
    | exact Hn | exact Hm | | rewrite Er; split; [progressed | cbn [old_balance r_amount]; tidy; lia] | now rewrite Er | exact Hz
    | exact Hnone | reflexivity | | reflexivity | reflexivity | now left | done | exact Hpos | reflexivity
    | exact P1 | cbn [explains b]; rewrite Hpe; eauto | cbn [pending_delta old_balance pi_amount]; lia | exact W1 | exact (extends_new _ _ _ _ _ Hm)
    | intros r'; cbn [old_contribution]; lia].
  - rewrite Es. cbn [previous b]. now rewrite (frontier_zero _ Hs).
  - unfold entry_account. cbn. now destruct (_ =? _).
Qed.

(** ** State blocks *)

(** The pending change of a state block, and the amount it settles. *)
Definition state_change (d : store) (f : state_hashables) (h : Z) (old : option account_info)
    (is_send : bool) (amt : Z) (e : epoch) (c : pending_change) : Prop :=
  match is_send with
  | true => c = pend_put (state_link f, h) (mk_pending_info (state_account f) amt e) /\
      (exists i, old = Some i) /\ 0 < amt /\ amt = old_balance old - state_balance f
  | false =>
      amt = state_balance f - old_balance old /\
      ((state_link f = 0 /\ c = pend_same /\ amt = 0) \/
       (state_link f <> 0 /\ exists p, c = pend_del (pi_epoch p) (state_account f, state_link f) p /\
          pending_get d (state_account f, state_link f) = Some p /\ amt = pi_amount p))
  end.

Lemma wp_state_pending (d : store) (f : state_hashables) (h : Z) old (is_send : bool) (amt : Z)
    (e : epoch) c (s : lstate) (Q : unit -> lstate -> Prop) :
  inv d -> is_version e -> state_change d f h old is_send amt e c -> pending (db s) = pending d ->
  Q () (set_db s (set_pending (db s) (apply_pending c (pending d)))) ->
  wp (if is_send then writes (fun s => pending_put s (state_link f, h)
        (mk_pending_info (state_account f) amt e))
      else if negb (state_link f =? 0) then
        writes (fun s => pending_del s (state_account f, state_link f))
      else mret ()) s Q.
Proof.
  intros Hd He Hc Ep HQ. destruct is_send; cbn [state_change] in Hc.
  - destruct Hc as (-> & _). eapply wp_writes; [| exact HQ]. unfold pending_put. cbn [pi_epoch].
    rewrite Ep. now destruct He as [-> | ->].
  - destruct Hc as (_ & [(El & -> & _) | (El & p & -> & Hp & _)]).
    + rewrite El. apply wp_ret. cbn [apply_pending] in HQ. rewrite <- Ep in HQ.
      destruct s as [[] ? ? ?]. exact HQ.
    + apply Z.eqb_neq in El as ->. cbn [negb]. eapply wp_writes; [| exact HQ].
      destruct (pending_facts _ _ _ Hd Hp) as (_ & _ & _ & E). unfold pending_del in *.
      rewrite Ep. cbn [apply_pending]. destruct (present _); [| destruct (present _)]; try done;
        injection E as E; now rewrite <- E.
Qed.

Lemma wp_frontier_drop (d : store) (h : Z) (s : lstate) (Q : unit -> lstate -> Prop) :
  inv d -> frontiers (db s) = frontiers d ->
  Q () (set_db s (set_frontiers (db s) (delete h (frontiers d)))) -> wp (frontier_drop h) s Q.
Proof.
  intros Hd Ef HQ. unfold frontier_drop. apply wp_bind, wp_reads. unfold frontier_get. rewrite Ef.
  destruct (frontiers d !! h) as [a |] eqn:E.
  - destruct (inv_frontier _ Hd _ _ E) as (i & Hi & _).
    pose proof (ao_nonzero _ _ _ _ (inv_account _ Hd _ _ _ Hi)) as Ha. apply Z.eqb_neq in Ha as ->.
    eapply wp_writes; [| exact HQ]. rewrite (frontier_del_some _ _ a) by congruence. now rewrite Ef.
  - apply wp_ret. rewrite (delete_id _ _ E), <- Ef in HQ. destruct s as [[] ? ? ?]. exact HQ.
Qed.

(** The account record a handler works with. *)
Definition info_of (old : option account_info) : account_info :=
  match old with Some i => i | None => account_info_default end.

Lemma state_change_ok (s : store) (f : state_hashables) (sg w : Z) old (is_send : bool) (amt : Z)
    (e : epoch) c new :
  let b := state_block f sg w in
  inv s -> state_change s f (hash b) old is_send amt e c -> ai_epoch new = e ->
  pending_change_ok s b (state_account f) old new c /\
  state_balance f + pending_delta c = old_balance old /\
  amt = Z.abs (state_balance f - old_balance old) /\ explains s b (state_account f) old c.
Proof.
  intros b Hs Hc He. destruct is_send; cbn [state_change] in Hc.
  - destruct Hc as (-> & Ho & H0 & ->). cbn [pending_change_ok pending_delta pi_amount pi_epoch
      pi_source sends_to b explains]. rewrite (proj2 (Z.ltb_lt _ _)) by lia.
    split_and!; try done; [lia .. |]. eauto.
  - destruct Hc as (Ea & [(El & -> & E0) | (El & p & -> & Hp & E0)]);
      cbn [pending_change_ok pending_delta explains b].
    + rewrite (proj2 (Z.ltb_ge _ _)) by lia. split_and!; [done | lia | lia | done |]. auto.
    + destruct (pending_facts _ _ _ Hs Hp) as (P1 & _).
      pose proof (pending_nonneg _ Hs _ _ P1). rewrite (proj2 (Z.ltb_ge _ _)) by lia.
      split_and!; [done | lia | lia | done |]. eauto.
Qed.

(** Take the old representation away, if the account is open. *)
Lemma wp_state_unweigh (d : store) (a : Z) old (s : lstate) (Q : unit -> lstate -> Prop) m
    (b : block) (sb : sideband) (e : epoch) :
  inv d -> account_get d a = old -> extends d (hash b) b sb e m -> block_get_full d (hash b) = None ->
  blocks (db s) = m -> representation (db s) = representation d ->
  (forall w, weights w (fun r => representation_get d r - old_contribution d r old) ->
    Q () (set_db s (set_representation (db s) w))) ->
  wp (if negb (rep_block (info_of old) =? 0)
      then writes (fun s => representation_add s (rep_block (info_of old)) (u128 (0 - balance (info_of old))))
      else mret ()) s Q.
Proof.
  intros Hd Ho Hm Hn Hb Hr HQ. destruct old as [i |]; cbn [info_of].
  - destruct (account_facts _ _ _ Hd Ho) as (Hi & y & Gy).
    assert (Hz : rep_block i <> 0).
    { rewrite block_get_get in Gy. destruct (block_get_full d (rep_block i)) as [x |] eqn:Ex; [| done].
      eapply (get_nonzero d Hd), Ex. }
    apply Z.eqb_neq in Hz as ->. cbn [negb]. eapply wp_rep_add;
      [| rewrite Hr; exact (inv_weights _ Hd) | exact (u128_neg (balance i)) |].
    + pose proof (extends_keep _ _ _ _ _ _ _ Hm Hn Gy) as G. destruct (db s). cbn in Hb. subst.
      exact G.
    + intros w W. apply HQ. intros r. rewrite (contribution_of _ _ _ _ Gy), W.
      f_equal. destruct (_ =? _); lia.
  - apply wp_ret. specialize (HQ (representation (db s))). rewrite Hr in HQ at 1.
    destruct s as [[] ? ? ?]. apply HQ. intros r. cbn [old_contribution].
    rewrite (inv_weights _ Hd r). f_equal. lia.
Qed.

Lemma state_placed (d : store) (f : state_hashables) (sg w : Z) (e : epoch) old :
  inv d -> account_get d (state_account f) = old -> is_version e ->
  state_previous f = match old with Some i => head i | None => 0 end ->
  placed d (state_block f sg w) e.
Proof.
  intros Hd Ho He Hp. split; [destruct He as [-> | ->]; auto |]. cbn [previous type]. destruct old as [i |].
  - right. apply (account_get_some d Hd) in Ho.
    destruct (ao_head _ _ _ _ (inv_account _ Hd _ _ _ Ho)) as (x & Hx & _). rewrite Hp. eauto.
  - left. auto.
Qed.

Lemma state_commit_ok (d : store) (f : state_hashables) (sg w : Z) v old (is_send : bool) (amt : Z)
    (e : epoch) c (s : lstate) :
  let b := state_block f sg w in
  inv d -> admissible d b v -> db s = d -> block_get_full d (hash b) = None ->
  state_account f <> 0 -> account_get d (state_account f) = old ->
  state_previous f = match old with Some i => head i | None => 0 end -> is_version e ->
  state_change d f (hash b) old is_send amt e c -> coded progress amt (result s) ->
  wp (state_commit f sg w (info_of old) is_send amt e) s (settled d b).
Proof.
  intros b Hd Ha Es Hn Ha0 Ho Hp He Hc Hr. unfold state_commit. fold b.
  apply wp_bind, wp_stat_inc. intros s1 E1 R1. rewrite <- R1 in Hr. rewrite Es in E1. clear s Es R1.
  subst d. step. puts_block Hd Ha Hn m Hm; [exact (state_placed _ f sg w _ _ Hd Ho He Hp) |].
  apply wp_bind. eapply wp_state_unweigh; [exact Hd | exact Ho | exact Hm | exact Hn | done | done |].
  intros w1 W1. tidy.
  adds_weight (extends_new _ _ _ _ _ Hm) W1 (eq_refl (u128 (state_balance f))) w2 W2.
  apply wp_bind. eapply wp_state_pending; [exact Hd | exact He | exact Hc | done |]. tidy.
  apply wp_bind. eapply wp_change_latest; [exact Ho | apply Ha | exact He | |].
  { intros ->. exists b. split; [exact (extends_new _ _ _ _ _ Hm) | exact Hp]. }
  tidy. apply wp_bind. eapply wp_frontier_drop; [exact Hd | done |]. step.
  destruct (ad_ok _ _ _ Ha) as ((_ & _ & _ & Hb & _) & _). unfold word in Hb.
  destruct (state_change_ok _ f sg w _ _ _ _ _ (latest_info old (hash b) (hash b) (state_balance f)
    (u64 (block_count (info_of old) + 1)) e) Hd Hc eq_refl) as (C1 & C2 & C3 & C4).
  eapply (settled_append _ _ _ _ (state_account f) (hash b) (state_balance f) 0 _ e old c);
    [exact Ha | exact Hn | exact Hm | | | reflexivity | exact Ha0 | exact Ho | exact Hp | | reflexivity
    | now destruct old | exact He | done | apply Hb | reflexivity | exact C1 | exact C4 | exact C2 | exact W2
    | exact (extends_new _ _ _ _ _ Hm) | done].
  - tidy. cbn [type b legacy_type previous]. rewrite Hp. now destruct old.
  - tidy. rewrite <- C3. split; apply Hr.
  - unfold entry_account. cbn. now destruct (_ =? _).
Qed.

Lemma epoch_max_version (e e' : epoch) : is_version e -> is_version e' -> is_version (epoch_max e e').
Proof. unfold epoch_max. destruct (_ <? _); done. Qed.

(** The amount of a state block over the account's balance. *)
Definition state_amount (f : state_hashables) (old : option account_info) (is_send : bool) (amt : Z) : Prop :=
  if is_send then (exists i, old = Some i) /\ 0 < amt /\ amt = old_balance old - state_balance f
  else amt = state_balance f - old_balance old.

Lemma state_check_source_ok (d : store) (f : state_hashables) (sg w : Z) old (is_send : bool)
    (amt : Z) (e : epoch) (k : epoch -> M unit) (s : lstate) :
  let b := state_block f sg w in
  inv d -> db s = d -> is_version e -> state_amount f old is_send amt -> coded progress amt (result s) ->
  (forall r e' c, is_version e' -> coded progress amt r ->
    state_change d f (hash b) old is_send amt e' c ->
    wp (k e') (set_result s r) (settled d b)) ->
  wp (state_check_source f is_send amt e k) s (settled d b).
Proof.
  intros b Hs <- He Hamt Hr Hk. unfold state_check_source. destruct is_send; cbn [negb state_amount] in *.
  - specialize (Hk (result s) e (pend_put (state_link f, hash b) (mk_pending_info (state_account f) amt e))
      He Hr). destruct s. apply Hk. now split.
  - destruct (Z.eqb_spec (state_link f) 0) as [El | El]; cbn [negb].
    + checks E0%Z.eqb_eq. eapply Hk; [exact He | congruence |]. split; [done |]. left. eauto.
    + step. checks _. step. checks (p & Hp)%present_some. need Hp. checks Ea%Z.eqb_eq.
      destruct (pending_facts _ _ _ Hs Hp) as (_ & P2 & _).
      eapply Hk; [now apply epoch_max_version | congruence |]. split; [done |]. right. eauto.
Qed.

Lemma state_block_impl_ok (f : state_hashables) (sg w : Z) (s : lstate) :
  inv (db s) -> admissible (db s) (state_block f sg w) (verified (result s)) ->
  wp (state_block_impl f sg w) s (settled (db s) (state_block f sg w)).
Proof.
  intros Hs Ha. set (b := state_block f sg w) in *. unfold state_block_impl. fold b.
  step. checks He%negb_true_iff. signed (ad_valid _ _ _ Ha). checks Hz%negb_true_iff%Z.eqb_neq.
  assert (Hn : block_get_full (db s) (hash b) = None) by (eapply block_fresh; eauto; intros [|]; done).
  step. step. destruct (account_get (db s) (state_account f)) as [i |] eqn:Ho.
  - checks _. step. checks _. step. checks Hp%Z.eqb_eq.
    set (amt := if state_balance f <? balance i then _ else _) in *.
    eapply (state_check_source_ok (db s) f sg w (Some i)); [exact Hs | done | | | eassumption |].
    + destruct (ao_epoch _ _ _ _ (inv_account _ Hs _ _ _ (proj1 (account_get_some _ Hs _ _) Ho))).
      congruence.
    + unfold state_amount, amt. destruct (Z.ltb_spec (state_balance f) (balance i)); cbn [old_balance];
        [eauto with lia | lia].
    + intros r' e' c V Hr' Hc. tidy. apply (state_commit_ok (db s) f sg w _ (Some i) _ _ _ c (set_result s r')
        Hs Ha); done.
  - checks Hp%Z.eqb_eq. checks _.
    eapply (state_check_source_ok (db s) f sg w None); [exact Hs | done | now left | | eassumption |].
    + cbn. lia.
    + intros r' e' c V Hr' Hc. tidy. apply (state_commit_ok (db s) f sg w _ None _ _ _ c (set_result s r')
        Hs Ha); done.
Qed.

(** ** Epoch blocks *)

Lemma epoch_commit_ok (d : store) (f : state_hashables) (sg w : Z) v old (s : lstate) :
  let b := state_block f sg w in
  inv d -> admissible d b v -> db s = d -> block_get_full d (hash b) = None ->
  state_account f <> 0 -> account_get d (state_account f) = old ->
  state_previous f = match old with Some i => head i | None => 0 end ->
  state_representative f = match old with Some i => rep_of d i | None => 0 end ->
  state_link f = epoch_link ->
  wp (epoch_commit f sg w (info_of old)) s (settled d b).
Proof.
  intros b Hd Ha <- Hn Ha0 Ho Hp Hrep Hl. unfold epoch_commit. fold b. checks _. checks Hb%Z.eqb_eq.
  apply wp_bind, wp_stat_inc. intros s1 E1 R1. tidy. rewrite <- R1 in *. rewrite <- E1 in *.
  destruct Hr0 as [Hc _]. clear R1 r r0 Hv0 E1 s. step. step.
  puts_block Hd Ha Hn m Hm; [exact (state_placed _ f sg w _ _ Hd Ho (or_intror eq_refl) Hp) |].
  apply wp_bind. eapply wp_change_latest; [exact Ho | apply Ha | now right | |].
  { intros ->. exists b. split; [exact (extends_new _ _ _ _ _ Hm) | exact Hp]. }
  tidy. eapply wp_frontier_drop; [exact Hd | done |]. tidy.
  destruct (ad_ok _ _ _ Ha) as ((_ & _ & _ & Hbal & _) & _). unfold word in Hbal.
  assert (Hob : old_balance old = state_balance f) by (now destruct old).
  eapply (settled_append _ _ _ _ (state_account f) (hash b) (state_balance f) 0 _ epoch_1 old pend_same);
    [exact Ha | exact Hn | exact Hm | | | reflexivity | exact Ha0 | exact Ho | exact Hp | | reflexivity
    | now destruct old | now right | done | apply Hbal | reflexivity | exact I | | cbn [pending_delta]; lia
    | exact (inv_weights _ Hd) | exact (extends_new _ _ _ _ _ Hm) |].
  - tidy. cbn [type b legacy_type previous]. rewrite Hp, Hb. now destruct old.
  - tidy. rewrite Hob. split; [exact Hc | cbn [r_amount]; lia].
  - unfold entry_account. cbn. now destruct (_ =? _).
  - cbn [explains b]. rewrite (proj2 (Z.ltb_ge _ _)) by lia. auto.
  - intros r. cbn [representative b]. rewrite Hrep, Hb. unfold old_contribution, contribution.
    destruct old; cbn [info_of balance account_info_default]; [lia | destruct (_ =? _); lia].
Qed.

Lemma epoch_block_impl_ok (f : state_hashables) (sg w : Z) (s : lstate) :
  inv (db s) -> admissible (db s) (state_block f sg w) (verified (result s)) ->
  state_link f = epoch_link ->
  (state_previous f = 0 \/ exists x, block_get_full (db s) (state_previous f) = Some x) ->
  wp (epoch_block_impl f sg w) s (settled (db s) (state_block f sg w)).
Proof.
  intros Hs Ha Hl Hpre. set (b := state_block f sg w) in *. unfold epoch_block_impl. fold b.
  step. checks He%negb_true_iff. signed (ad_epoch _ _ _ Ha). checks Hz%negb_true_iff%Z.eqb_neq.
  assert (Hn : block_get_full (db s) (hash b) = None) by (eapply block_fresh; eauto; intros [|]; done).
  step. destruct (account_get (db s) (state_account f)) as [i |] eqn:Ho.
  - checks _. checks Hp%Z.eqb_eq. destruct (account_facts _ _ _ Hs Ho) as (Hi & y & Gy). need Gy.
    checks Hrep%Z.eqb_eq.
    apply (epoch_commit_ok (db s) f sg w _ (Some i) (set_result s _) Hs Ha); try done.
    unfold rep_of. now rewrite Gy.
  - checks Hrep%Z.eqb_eq.
    apply (epoch_commit_ok (db s) f sg w _ None (set_result s _) Hs Ha); try done.
    destruct (ad_opens _ _ _ Ha eq_refl Hl Ho) as [E | E], Hpre as [E' | [x E']]; cbn in *; congruence.
Qed.

(** ** Every block *)

(** The classification of a state block: nothing is stored; if the code is
    [progress], the verification is as it was, and an epoch block has the epoch link
    and no previous block or a stored one. *)
Definition classified (f : state_hashables) (s : lstate) : bool -> lstate -> Prop := fun ie s' =>
  db s' = db s /\ (code (result s') = progress ->
    verified (result s') = verified (result s) /\ (ie = true -> state_link f = epoch_link /\
      (state_previous f = 0 \/ exists x, block_get_full (db s) (state_previous f) = Some x))).

Lemma wp_get_result (s : lstate) (Q : process_return -> lstate -> Prop) :
  Q (result s) s -> wp get_result s Q.
Proof. done. Qed.

Lemma check_gap_signature_ok (f : state_hashables) (h sg : Z) (s : lstate) :
  code (result s) <> progress ->
  wp (check_gap_signature f h sg) s (fun _ s' => db s' = db s /\ code (result s') <> progress).
Proof.
  intros Hc. unfold check_gap_signature. apply wp_bind, wp_get_result.
  destruct (bool_decide _); [| now apply wp_ret].
  destruct (validate_message _ _ _); [destruct (validate_message _ _ _); [step |] |]; step; done.
Qed.

Lemma process_state_ok (f : state_hashables) (sg w : Z) (s : lstate) :
  inv (db s) -> admissible (db s) (state_block f sg w) (verified (result s)) ->
  wp (process_state f sg w) s (settled (db s) (state_block f sg w)).
Proof.
  intros Hs Ha. set (b := state_block f sg w) in *. unfold process_state. fold b. step.
  apply wp_bind. apply wp_mono with (Q := classified f s).
  - destruct (negb (epoch_link =? 0) && is_epoch_link (state_link f)) eqn:El; [| now apply wp_ret].
    apply andb_true_iff in El as [_ El%Z.eqb_eq]. apply wp_bind.
    destruct (Z.eqb_spec (state_previous f) 0) as [E0 | E0]; cbn [negb].
    { apply wp_ret, wp_ret. split; [done |]. intros _. split; [done |]. auto. }
    step. step. destruct (block_exists (db s) (state_previous f)) eqn:Ex.
    + apply (exists_get _ (inv_blocks _ Hs)) in Ex as (x & Hx). eapply wp_ledger_balance; [done | |].
      { tidy. now rewrite block_balance_get, Hx. }
      apply wp_ret. split; [done |]. intros _. split; [done |]. eauto.
    + apply wp_bind. eapply wp_mono; [now apply check_gap_signature_ok |].
      intros _ s' [E1 E2]. apply wp_ret, wp_ret. now split.
  - intros ie s' [E1 E2]. apply wp_bind, wp_get_result.
    destruct (bool_decide_reflect (code (result s') = progress)) as [Hc | Hc].
    + destruct (E2 Hc) as [Ev El]. rewrite <- Ev, <- E1 in *. destruct ie.
      * destruct (El eq_refl). now apply epoch_block_impl_ok.
      * now apply state_block_impl_ok.
    + apply wp_ret. now left.
Qed.

Lemma process_block_ok (b : block) (s : lstate) :
  inv (db s) -> admissible (db s) b (verified (result s)) ->
  wp (process_block b) s (settled (db s) b).
Proof.
  destruct b; [apply process_send_ok | apply process_receive_ok | apply process_open_ok
    | apply process_change_ok | apply process_state_ok].
Qed.

(** [process] on a store that satisfies the invariant: it returns, and the block
    is rejected or appended. *)
Lemma process_settled (s : store) (b : block) (v : signature_verification) :
  inv s -> admissible s b v -> exists r s', process s b v = Done (r, s') /\
    (code r <> progress /\ s' = s \/
     code r = progress /\ exists sb a old new c, appended s b sb a old new c s' /\
       explains s b a old c /\ r_account r = a /\ r_amount r = Z.abs (balance new - old_balance old)).
Proof.
  intros Hs Ha. pose proof (process_block_ok b (mk_lstate s [] (initial_result v) []) Hs Ha) as Hw.
  unfold wp, process in *. destruct (process_block _ _) as [[[] s'] | |]; [| done | done].
  exists (result s'), (db s'). split; [done |]. exact Hw.
Qed.

End Handlers.

End LedgerProcess.
