(* ===== verification/LedgerRollback.v ===== *)
(** * The ledger: rolling back

    Rolling back the block that was just processed restores the ledger: the
    walk of [representative_visitor] needs no more fuel than there are blocks,
    and each handler of [rollback_visitor] undoes what the handler of
    [ledger_processor] did. *)

From stdpp Require Import base gmap list.
From Stdlib Require Import ZArith Lia.
From S2P Require Import Prelude Blocks Store Ledger LedgerInv LedgerAppend LedgerProcess.
Local Open Scope Z_scope.

Module LedgerRollback.
Import Ledger.Ledger LedgerInv.LedgerInv LedgerAppend.LedgerAppend LedgerProcess.LedgerProcess.

Section WithHash.

Context `{BlockHash}.

(** ** Deleting a block *)

Lemma block_del_found (s : store) (h : Z) (d : block_db) (e : entry) :
  blocks_ok (blocks s) -> found s h d e ->
  block_del s h = Some (set_blocks s (delete (d, h) (blocks s))).
Proof.
  intros Hs H1. pose proof (fun d' => not_found s Hs h d e d' H1) as Hn. unfold found in H1.
  unfold block_del. destruct d; repeat first [rewrite H1 | rewrite Hn by discriminate]; reflexivity.
Qed.

Lemma block_del_spec (s : store) (h : Z) (x : entry) :
  blocks_ok (blocks s) -> block_get_full s h = Some x -> exists m,
    block_del s h = Some (set_blocks s m) /\ blocks_ok m /\
    (forall h', block_get_full (set_blocks s m) h' = if h' =? h then None else block_get_full s h') /\
    (forall h', h' <> h -> block_version (set_blocks s m) h' = block_version s h').
Proof.
  intros Hs (d & H1)%get_inv. exists (delete (d, h) (blocks s)).
  split; [now apply (block_del_found _ _ _ x) |]. split_and!.
  - split.
    + intros d' h' e [_ He]%lookup_delete_Some. now apply (bo_entry _ Hs).
    + intros d1 d2 h' e1 e2 [_ He1]%lookup_delete_Some [_ He2]%lookup_delete_Some.
      now apply (bo_unique _ Hs _ _ _ _ _ He1 He2).
  - intros h'. unfold block_get_full, block_raw_get.
    cbn [raw_get_in block_raw_get_by_type set_blocks blocks].
    destruct (Z.eqb_spec h' h) as [-> | Hne]; [| now rewrite !lookup_delete_ne by congruence].
    assert (Hall : forall d', delete (d, h) (blocks s) !! (d', h) = None).
    { intros d'. destruct (decide (d = d')) as [-> | Hd]; [apply lookup_delete_eq |].
      rewrite lookup_delete_ne by congruence. now apply (not_found s Hs h d x). }
    now rewrite !Hall.
  - intros h' Hne. unfold block_version. cbn [set_blocks blocks].
    now rewrite lookup_delete_ne by congruence.
Qed.

(** ** Chains are short *)

(** Each hash is the previous one's [previous]. *)
Fixpoint linked (s : store) (l : list Z) : Prop :=
  match l with
  | [] => True
  | h :: t => exists x, block_get_full s h = Some x /\
      match t with
      | [] => True
      | h' :: _ => previous x.1 = h' /\ h' <> 0
      end /\ linked s t
  end.

Section Linked.

Context (s : store) (Hs : inv s).

Lemma linked_iter (l : list Z) (h : Z) : linked s (h :: l) ->
  forall i y, (h :: l) !! i = Some y -> Nat.iter i (block_successor s) y = h.
Proof.
  revert h. induction l as [| h' l IH]; intros h Hl i y Hi.
  - destruct i as [| i]; [now injection Hi | now destruct i].
  - destruct Hl as (x & Hx & [Hp Hz] & Hl). destruct i as [| i]; [now injection Hi |].
    rewrite Nat.iter_succ. cbn [lookup list_lookup] in Hi. rewrite (IH h' Hl i y Hi).
    destruct (ch_prev _ _ _ (inv_chain _ Hs _ _ Hx)) as (z & Hz' & Sz & _); [congruence |].
    rewrite block_successor_get. rewrite <- Hp, Hz'. exact Sz.
Qed.

Lemma successor_zero : block_successor s 0 = 0.
Proof.
  rewrite block_successor_get. destruct (block_get_full s 0) as [x |] eqn:E; [| done].
  now apply (get_nonzero s Hs) in E.
Qed.

Lemma linked_nodup (l : list Z) (h : Z) :
  linked s (h :: l) -> block_successor s h = 0 -> NoDup (h :: l).
Proof.
  intros Hl Hh. apply NoDup_alt. intros i j y Hi Hj.
  assert (Hz : h <> 0) by (destruct Hl as (x & Hx & _); exact (get_nonzero s Hs _ _ Hx)).
  assert (Hk : forall k, (0 < k)%nat -> Nat.iter k (block_successor s) h = 0).
  { induction k as [| k IH]; [lia |]. intros _. rewrite Nat.iter_succ. destruct k as [| k]; [exact Hh |].
    rewrite IH by lia. apply successor_zero. }
  assert (Hlt : forall i j, (i < j)%nat -> (h :: l) !! i = Some y -> (h :: l) !! j = Some y -> False).
  { intros i' j' Hij Hi' Hj'. pose proof (linked_iter l h Hl _ _ Hi') as Ei.
    pose proof (linked_iter l h Hl _ _ Hj') as Ej.
    replace j' with ((j' - i') + i')%nat in Ej by lia. rewrite Nat.iter_add, Ei, Hk in Ej by lia.
    congruence. }
  destruct (Nat.lt_trichotomy i j) as [? | [? | ?]]; [| done |]; exfalso; eauto.
Qed.

(** The keys of the hashes of a chain. *)
Lemma linked_keys (l : list Z) : linked s l ->
  exists ks, ks.*2 = l /\ forall k, k ∈ ks -> k ∈ dom (blocks s).
Proof.
  induction l as [| h l IH]; intros Hl; [exists []; split; [done | set_solver] |].
  destruct Hl as (x & Hx & _ & Hl). destruct (IH Hl) as (ks & <- & Hk).
  destruct (get_inv _ _ _ Hx) as (d & Hd). exists ((d, h) :: ks). split; [done |].
  intros k [-> | Hin]%elem_of_cons; [| auto]. apply elem_of_dom. eauto.
Qed.

Lemma linked_length (l : list Z) : linked s l -> NoDup l -> (length l <= base.size (blocks s))%nat.
Proof.
  intros Hl Hn. destruct (linked_keys l Hl) as (ks & <- & Hk). apply NoDup_fmap_1 in Hn.
  rewrite length_fmap, <- size_dom, <- (size_list_to_set (C := gset (block_db * Z)) ks Hn).
  apply subseteq_size. intros k Hin%elem_of_list_to_set. auto.
Qed.

(** ** The representative walk has the fuel it needs *)

Inductive rep_path : Z -> list Z -> Z -> Prop :=
| path_here (h : Z) (x : entry) :
    block_get_full s h = Some x -> keeps_rep x.1 = false -> rep_path h [h] h
| path_back (h r : Z) (l : list Z) (x : entry) :
    block_get_full s h = Some x -> keeps_rep x.1 = true -> rep_path (previous x.1) l r ->
    rep_path h (h :: l) r.

Lemma rep_walk_path (h r : Z) : rep_walk s h r -> exists l, rep_path h l r.
Proof.
  induction 1 as [h x Hx Kx | h r x Hx Kx _ [l IH]]; eexists;
    [exact (path_here _ _ Hx Kx) | exact (path_back _ _ _ _ Hx Kx IH)].
Qed.

Lemma rep_path_linked (h r : Z) (l : list Z) : rep_path h l r -> linked s l /\ hd_error l = Some h.
Proof.
  induction 1 as [h x Hx Kx | h r l x Hx Kx Hp [IH Hh]].
  - split; [| done]. exists x. done.
  - split; [| done]. exists x. split; [done |]. split; [| exact IH].
    destruct l as [| h' l]; [done |]. injection Hh as ->. split; [done |].
    destruct IH as (y & Hy & _). exact (get_nonzero s Hs _ _ Hy).
Qed.

Lemma rep_path_compute (h r : Z) (l : list Z) (n : nat) :
  rep_path h l r -> (length l <= n)%nat -> representative_compute n s h = Some r.
Proof.
  intros Hp. revert n. induction Hp as [h x Hx Kx | h r l x Hx Kx Hp IH]; intros [| n] Hn;
    cbn [length] in Hn; try lia; cbn [representative_compute]; rewrite block_get_get, Hx;
    cbn [fmap option_fmap option_map]; destruct (get_hash s (inv_blocks _ Hs) _ _ Hx) as (Eh & _).
  - destruct x.1; try discriminate Kx; now rewrite Eh.
  - destruct x.1 eqn:Ex; try discriminate Kx; cbn [previous] in *; apply IH; lia.
Qed.

(** From a head, and from the block before it. *)
Lemma walk_compute (h r : Z) (x : entry) : block_get_full s h = Some x -> sb_successor x.2 = 0 ->
  rep_walk s h r -> representative_compute (S (base.size (blocks s))) s h = Some r.
Proof.
  intros Hx Sx (l & Hl)%rep_walk_path. destruct (rep_path_linked _ _ _ Hl) as [Hk Hh].
  destruct l as [| h' l]; [done |]. injection Hh as ->. apply (rep_path_compute _ _ _ _ Hl).
  apply Nat.le_le_succ_r, linked_length; [done |]. apply linked_nodup; [done |].
  now rewrite block_successor_get, Hx.
Qed.

Lemma walk_compute_previous (h r : Z) (x : entry) : block_get_full s h = Some x ->
  sb_successor x.2 = 0 -> previous x.1 <> 0 -> rep_walk s (previous x.1) r ->
  representative_compute (S (base.size (blocks s))) s (previous x.1) = Some r.
Proof.
  intros Hx Sx Hz (l & Hl)%rep_walk_path. destruct (rep_path_linked _ _ _ Hl) as [Hk Hh].
  assert (Hc : linked s (h :: l)).
  { exists x. split; [done |]. split; [| done]. destruct l as [| h' l]; [done |].
    now injection Hh as ->. }
  apply (rep_path_compute _ _ _ _ Hl). apply Nat.le_le_succ_r.
  enough (S (length l) <= base.size (blocks s))%nat by lia. change (S (length l)) with (length (h :: l)).
  apply linked_length; [done |]. apply linked_nodup; [done |]. now rewrite block_successor_get, Hx.
Qed.

End Linked.

(** ** Restored stores *)

(** Equal up to the time of the last change. *)
Definition same_info (i j : account_info) : Prop :=
  head i = head j /\ rep_block i = rep_block j /\ open_block_hash i = open_block_hash j /\
  balance i = balance j /\ block_count i = block_count j /\ ai_epoch i = ai_epoch j.

#[export] Instance same_info_equiv : Equivalence same_info.
Proof.
  split; red; unfold same_info; [tauto | intros; intuition congruence | intros; intuition congruence].
Qed.

(** The same blocks, accounts, pending entries, weights and frontiers. *)
Record restored (s t : store) : Prop := {
  rs_blocks : blocks_ok (blocks t);
  rs_get (h : Z) : block_get_full t h = block_get_full s h;
  rs_version (h : Z) : block_version t h = block_version s h;
  rs_account (k : epoch * Z) : option_Forall2 same_info (accounts t !! k) (accounts s !! k);
  rs_pending : pending t = pending s;
  rs_weight (r : Z) : representation_get t r = representation_get s r;
  rs_frontiers : frontiers t = frontiers s }.

Lemma version_none (s : store) (h : Z) :
  blocks_ok (blocks s) -> block_get_full s h = None -> block_version s h = epoch_0.
Proof. intros Hs E. unfold block_version. now rewrite (get_none s Hs). Qed.

Lemma compute_blocks (n : nat) (s t : store) (h : Z) : blocks s = blocks t ->
  representative_compute n s h = representative_compute n t h.
Proof.
  intros E. revert h. induction n as [| n IH]; intros h; [done |]. cbn [representative_compute].
  assert (G : block_get s h = block_get t h) by (destruct s, t; cbn in E; now subst). rewrite G.
  destruct (block_get t h) as [[] |]; auto.
Qed.

(** ** A restored store satisfies the invariant *)

Lemma map_sum_fmap {K V : Type} `{Countable K} (f : V -> Z) (m : gmap K V) :
  map_sum f m = map_sum id (f <$> m).
Proof. unfold map_sum. now rewrite map_fold_fmap. Qed.

Section Restored.

Context (s t : store) (Hs : inv s) (Hr : restored s t).

Lemma restored_account (k : epoch * Z) (i : account_info) : accounts t !! k = Some i ->
  exists j, accounts s !! k = Some j /\ same_info i j.
Proof.
  intros Hi. pose proof (rs_account _ _ Hr k) as Hk. rewrite Hi in Hk.
  inversion Hk as [? j Hij |]; subst. eauto.
Qed.

Lemma restored_account_back (k : epoch * Z) (j : account_info) : accounts s !! k = Some j ->
  exists i, accounts t !! k = Some i /\ same_info i j.
Proof.
  intros Hi. pose proof (rs_account _ _ Hr k) as Hk. rewrite Hi in Hk.
  inversion Hk as [i ? Hij |]; subst. eauto.
Qed.

Lemma restored_sum (f g : account_info -> Z) : (forall i j, same_info i j -> f i = g j) ->
  map_sum f (accounts t) = map_sum g (accounts s).
Proof.
  intros E. rewrite (map_sum_fmap f), (map_sum_fmap g). f_equal. apply map_eq. intros k.
  rewrite !lookup_fmap. destruct (rs_account _ _ Hr k) as [i j Hij |]; cbn; [| done].
  now rewrite (E i j).
Qed.

Lemma restored_walk (h r : Z) : rep_walk s h r -> rep_walk t h r.
Proof.
  induction 1 as [h x Hx Kx | h r x Hx Kx _ IH]; rewrite <- (rs_get _ _ Hr) in Hx.
  - exact (walk_here _ _ _ Hx Kx).
  - exact (walk_back _ _ _ _ Hx Kx IH).
Qed.

Lemma restored_account_ok (e : epoch) (a : Z) (i j : account_info) :
  same_info i j -> account_ok s e a j -> account_ok t e a i.
Proof.
  intros (E1 & E2 & E3 & E4 & E5 & E6) [A1 A2 A3 A4 A5 A6 A7 A8].
  split; rewrite ?E1, ?E2, ?E3, ?E4, ?E5, ?E6, ?(rs_version _ _ Hr); try done.
  - destruct A5 as (x & A5). exists x. now rewrite (rs_get _ _ Hr), (rs_frontiers _ _ Hr).
  - now apply restored_walk.
  - destruct A8 as (x & A8). exists x. now rewrite (rs_get _ _ Hr).
Qed.

Lemma restored_chained (h : Z) (x : entry) : chained s h x -> chained t h x.
Proof.
  intros [(e & j & Hj & C1 & C2) C3 C4]. split.
  - destruct (restored_account_back _ _ Hj) as (i & Hi & E1 & _ & E3 & _).
    exists e, i. rewrite E1, E3. done.
  - intros Hp. destruct (C3 Hp) as (y & C). exists y. now rewrite (rs_get _ _ Hr).
  - intros Hn. destruct (C4 Hn) as (y & C). exists y. now rewrite (rs_get _ _ Hr).
Qed.

Lemma restored_pending_ok (e : epoch) (a h : Z) (p : pending_info) :
  pending_ok s e a h p -> pending_ok t e a h p.
Proof.
  intros [P1 P2 (x & y & P3) P4]. split; [done | done | | now rewrite (rs_version _ _ Hr)].
  exists x, y. now rewrite !(rs_get _ _ Hr).
Qed.

Lemma restored_inv : inv t.
Proof.
  split.
  - exact (rs_blocks _ _ Hr).
  - intros h x. rewrite (rs_get _ _ Hr). intros Hx. now apply restored_chained, (inv_chain _ Hs).
  - intros e a i (j & Hj & E)%restored_account.
    exact (restored_account_ok _ _ _ _ E (inv_account _ Hs _ _ _ Hj)).
  - intros e e' a i i' (j & Hj & _)%restored_account (j' & Hj' & _)%restored_account.
    exact (inv_account_unique _ Hs _ _ _ _ _ Hj Hj').
  - intros h a. rewrite (rs_frontiers _ _ Hr). intros (j & Hj & E)%(inv_frontier _ Hs).
    destruct (restored_account_back _ _ Hj) as (i & Hi & E1 & _). exists i. now rewrite E1.
  - intros e a h p. rewrite (rs_pending _ _ Hr). intros Hp.
    now apply restored_pending_ok, (inv_pending _ Hs).
  - rewrite (rs_pending _ _ Hr). apply (inv_pending_unique _ Hs).
  - intros r. rewrite (rs_weight _ _ Hr), (inv_weight _ Hs). symmetry. apply restored_sum.
    intros i j (_ & E2 & _ & E4 & _). unfold contribution, rep_of.
    now rewrite E2, E4, !block_get_get, (rs_get _ _ Hr).
  - rewrite <- (inv_supply _ Hs). unfold supply. rewrite (rs_pending _ _ Hr). f_equal.
    apply restored_sum. now intros i j (_ & _ & _ & E4 & _).
Qed.

End Restored.

Section Undo.

Context (s s' : store) (b : block) (sb : sideband) (a : Z) (old : option account_info)
  (new : account_info) (c : pending_change).
Context (Hs : inv s) (Ha : appended s b sb a old new c s').

Let Hs' : inv s' := append_inv s s' b sb a old new c Hs Ha.

(** The chain before the block: the tables with the block taken out. *)
Definition undone (m : gmap (block_db * Z) entry) : Prop :=
  blocks_ok m /\
  (forall h, block_get_full (set_blocks s' m) h =
    if h =? hash b then None
    else if h =? previous b then (fun x => set_successor x 0) <$> block_get_full s' h
    else block_get_full s' h) /\
  (forall h, h <> hash b -> block_version (set_blocks s' m) h = block_version s' h).

Lemma undone_get (m : gmap (block_db * Z) entry) (h : Z) : undone m ->
  block_get_full (set_blocks s' m) h = block_get_full s h.
Proof.
  intros (_ & G & _). rewrite G, (ap_get _ _ _ _ _ _ _ _ Ha).
  destruct (ap_block _ _ _ _ _ _ _ _ Ha) as (Hz & _ & Hn).
  destruct (Z.eqb_spec h (hash b)) as [-> | Hh]; [done |].
  destruct (Z.eqb_spec h (previous b)) as [-> | Hp]; [| done].
  destruct (block_get_full s (previous b)) as [x |] eqn:Ex; [| done].
  destruct (ap_old _ _ _ _ _ _ _ _ Hs Ha (get_nonzero s Hs _ _ Ex)) as
    (i & y & _ & _ & _ & Hy & _ & _ & Sy & _).
  assert (y = x) as -> by congruence. destruct x as [bx [? ? ? ? ?]]. cbn in *. now subst.
Qed.

Lemma undone_version (m : gmap (block_db * Z) entry) (h : Z) : undone m ->
  block_version (set_blocks s' m) h = block_version s h.
Proof.
  intros Hm. destruct (Z.eq_dec h (hash b)) as [-> | Hh].
  - destruct (ap_block _ _ _ _ _ _ _ _ Ha) as (_ & _ & Hn).
    rewrite (version_none s _ (inv_blocks _ Hs) Hn). apply version_none; [apply Hm |].
    now rewrite (undone_get m _ Hm).
  - destruct Hm as (_ & _ & V). rewrite (V h Hh), (ap_version _ _ _ _ _ _ _ _ Ha).
    now apply Z.eqb_neq in Hh as ->.
Qed.

(** The account table with the old record back. *)
Definition accounts_undone (t : Z) : gmap (epoch * Z) account_info :=
  match old with
  | Some i => <[(ai_epoch i, a) := mk_account_info (head i) (rep_block i) (open_block_hash i)
      (balance i) t (block_count i) (ai_epoch i)]> (delete (ai_epoch new, a) (accounts s'))
  | None => delete (ai_epoch new, a) (accounts s')
  end.

Lemma accounts_undone_same (t : Z) (k : epoch * Z) :
  option_Forall2 same_info (accounts_undone t !! k) (accounts s !! k).
Proof.
  unfold accounts_undone. rewrite (ap_accounts _ _ _ _ _ _ _ _ Ha).
  destruct (ap_account _ _ _ _ _ _ _ _ Ha) as [_ Ho]. destruct old as [i |].
  - apply (account_get_some s Hs) in Ho. rewrite delete_insert_eq.
    destruct (decide (k = (ai_epoch i, a))) as [-> | Hk].
    + rewrite lookup_insert_eq, Ho. constructor. unfold same_info. cbn. tauto.
    + rewrite lookup_insert_ne by congruence. destruct (decide (k = (ai_epoch new, a))) as [-> | Hk'].
      * rewrite lookup_delete_eq. destruct (accounts s !! (ai_epoch new, a)) as [j |] eqn:Ej; [| constructor].
        now rewrite (inv_account_unique _ Hs _ _ _ _ _ Ej Ho) in Hk.
      * rewrite !lookup_delete_ne by congruence. destruct (accounts s !! k); now constructor.
  - rewrite delete_insert_id by now apply (account_get_none s Hs).
    destruct (accounts s !! k); now constructor.
Qed.

Lemma restored_intro (t : store) (w : gmap Z Z) (W : Z -> Z) (m : gmap (block_db * Z) entry) (clock : Z) :
  t = mk_store m (accounts_undone clock) (pending s) w (frontiers s) -> undone m ->
  weights w W -> (forall r, W r = representation_get s r) -> restored s t.
Proof.
  intros -> Hm Hw HW. split; cbn [accounts pending frontiers].
  - apply Hm.
  - intros h. exact (undone_get m h Hm).
  - intros h. exact (undone_version m h Hm).
  - apply accounts_undone_same.
  - done.
  - intros r. rewrite representation_get_default. cbn [representation]. rewrite Hw, HW.
    now rewrite <- (inv_weights _ Hs r), <- representation_get_default.
  - done.
Qed.

(** The weights before, from those after. *)
Lemma weight_before (r : Z) :
  representation_get s' r = representation_get s r - old_contribution s r old + contribution s' r new.
Proof.
  rewrite (inv_weight _ Hs'), (inv_weight _ Hs). exact (weight_sum _ _ _ _ _ _ _ _ Hs Ha r).
Qed.

End Undo.

End WithHash.

End LedgerRollback.
