(* ===== verification/LedgerUndo.v ===== *)
(** * The ledger: each rollback handler undoes its process handler

    The handlers of [rollback_visitor] on the store a block was just appended
    to: none of their assertions fails, and the store they leave is [restored]
    in the sense of [LedgerRollback.v]. *)

From stdpp Require Import base gmap list.
From Stdlib Require Import ZArith Lia.
From S2P Require Import Prelude Blocks Store Ledger LedgerInv LedgerAppend LedgerProcess LedgerRollback.
Local Open Scope Z_scope.

Module LedgerUndo.
Import Ledger.Ledger LedgerInv.LedgerInv LedgerAppend.LedgerAppend LedgerProcess.LedgerProcess
  LedgerRollback.LedgerRollback.

(** ** Reads depend on the table they read *)

Lemma get_blocks (s t : store) (h : Z) : blocks s = blocks t -> block_get_full s h = block_get_full t h.
Proof. destruct s, t. cbn [blocks]. now intros ->. Qed.

Lemma version_blocks (s t : store) (h : Z) : blocks s = blocks t -> block_version s h = block_version t h.
Proof. destruct s, t. cbn [blocks]. now intros ->. Qed.

Lemma account_get_accounts (s t : store) (a : Z) :
  accounts s = accounts t -> account_get s a = account_get t a.
Proof. destruct s, t. cbn [accounts]. now intros ->. Qed.

Lemma wp_stat (t : stat_type) (d : stat_detail) (s : lstate) (Q : unit -> lstate -> Prop) :
  Q () (mk_lstate (db s) (stats s ++ [(t, d)]) (result s) (rolled s)) -> wp (stat_inc t d) s Q.
Proof. intros HQ. exact HQ. Qed.

Lemma wp_while_false (n : nat) (f : store -> bool) (body : M unit) (s : lstate)
    (Q : unit -> lstate -> Prop) :
  f (db s) = false -> Q () s -> wp (while_ (S n) (reads f) body) s Q.
Proof. intros E HQ. cbn [while_]. apply wp_bind, wp_reads. rewrite E. now apply wp_ret. Qed.

Lemma pending_get_entry `{BlockHash} (s : store) (e : epoch) (k : Z * Z) (p : pending_info) :
  inv s -> pending s !! (e, k) = Some p -> pending_get s k = Some p.
Proof.
  intros Hs Hp. destruct k as [d h].
  destruct (po_epoch _ _ _ _ _ (inv_pending _ Hs _ _ _ _ Hp)) as [V E].
  unfold pending_get. destruct V as [-> | ->].
  - destruct (pending s !! (epoch_1, (d, h))) as [q |] eqn:E1;
      [now pose proof (inv_pending_unique _ Hs _ _ _ _ _ Hp E1) |].
    rewrite Hp. destruct p; cbn in *. congruence.
  - rewrite Hp. destruct p; cbn in *. congruence.
Qed.

Lemma u64_pred (x : Z) : 0 <= x < 2 ^ 64 -> u64 (u64 (x + 1) - 1) = x.
Proof.
  intros Hx. unfold u64. rewrite Zminus_mod_idemp_l. replace (x + 1 - 1) with x by lia.
  now apply Z.mod_small.
Qed.

Lemma legacy_epoch `{BlockHash} (s : store) (h a : Z) (e : epoch) (i : account_info) :
  inv s -> frontiers s !! h = Some a -> accounts s !! (e, a) = Some i -> e = epoch_0.
Proof.
  intros Hs Hf Hi. destruct (inv_frontier _ Hs _ _ Hf) as (j & Hj & _).
  exact (inv_account_unique _ Hs _ _ _ _ _ Hi Hj).
Qed.

Section Undo.

Context `{Env}.
Context (s s' : store) (b : block) (sb : sideband) (a : Z) (old : option account_info)
  (new : account_info) (c : pending_change).
Context (Hs : inv s) (Ha : appended s b sb a old new c s').

Let Hs' : inv s' := append_inv s s' b sb a old new c Hs Ha.

Local Abbreviation get_new := (ap_get_new s s' b sb a old new c Ha).
Local Abbreviation keep := (ap_keep s s' b sb a old new c Ha).

Lemma old_some (i : account_info) : old = Some i ->
  accounts s !! (ai_epoch i, a) = Some i /\ previous b = head i /\ previous b <> 0.
Proof.
  intros E. destruct (ap_account _ _ _ _ _ _ _ _ Ha) as [_ Ho]. rewrite E in Ho.
  apply (account_get_some s Hs) in Ho. pose proof (ap_prev _ _ _ _ _ _ _ _ Ha) as Hp. rewrite E in Hp.
  split_and!; [done | done |]. rewrite Hp.
  destruct (ao_head _ _ _ _ (inv_account _ Hs _ _ _ Ho)) as (x & Hx & _).
  exact (get_nonzero s Hs _ _ Hx).
Qed.

(** ** Representatives *)

Lemma wp_representative (h r : Z) (t : lstate) (Q : Z -> lstate -> Prop) :
  blocks (db t) = blocks s' ->
  representative_compute (S (base.size (blocks s'))) s' h = Some r ->
  (exists x, block_get_full s' r = Some x) -> Q r t -> wp (ledger_representative h) t Q.
Proof.
  intros E Hr (x & Hx) HQ. unfold ledger_representative, representative_calculated.
  apply wp_bind. eapply wp_needs; [rewrite (compute_blocks _ _ s') by exact E; rewrite E; exact Hr |].
  apply wp_bind, wp_reads. apply wp_bind, wp_assert; [| now apply wp_ret].
  apply orb_true_iff. right. apply exists_get; [rewrite E; apply (append_blocks _ _ _ _ _ _ _ _ Ha) |].
  exists x. now rewrite (get_blocks _ s').
Qed.

Lemma wp_representative_new (t : lstate) (Q : Z -> lstate -> Prop) :
  blocks (db t) = blocks s' -> Q (rep_block new) t -> wp (ledger_representative (hash b)) t Q.
Proof.
  intros E. apply wp_representative; [exact E | |].
  - apply (walk_compute s' Hs' _ _ (b, sb)); [apply get_new | apply Ha
      | exact (walk_new _ _ _ _ _ _ _ _ Hs Ha)].
  - destruct (rep_walk_end _ _ _ (walk_new _ _ _ _ _ _ _ _ Hs Ha)) as (x & Hx & _). eauto.
Qed.

Lemma wp_representative_old (i : account_info) (t : lstate) (Q : Z -> lstate -> Prop) :
  old = Some i -> blocks (db t) = blocks s' -> Q (rep_block i) t ->
  wp (ledger_representative (previous b)) t Q.
Proof.
  intros Ei E. destruct (old_some _ Ei) as (Hi & Ep & Hz).
  assert (Hw : rep_walk s' (previous b) (rep_block i)).
  { apply (walk_keep _ _ _ _ _ _ _ _ Ha). rewrite Ep.
    exact (ao_rep _ _ _ _ (inv_account _ Hs _ _ _ Hi)). }
  apply wp_representative; [exact E | |].
  - apply (walk_compute_previous s' Hs' (hash b) _ (b, sb)); [apply get_new | apply Ha | exact Hz | exact Hw].
  - destruct (rep_walk_end _ _ _ Hw) as (x & Hx & _). eauto.
Qed.

(** ** Balances, accounts and amounts *)

Lemma wp_balance (h : Z) (x : entry) (t : lstate) (Q : Z -> lstate -> Prop) :
  blocks (db t) = blocks s' -> block_get_full s' h = Some x -> Q (entry_balance x) t ->
  wp (ledger_balance h) t Q.
Proof.
  intros E Hx. apply wp_ledger_balance; [exact (get_nonzero s' Hs' _ _ Hx) |].
  now rewrite block_balance_get, (get_blocks _ s'), Hx.
Qed.

Lemma wp_balance_old (t : lstate) (Q : Z -> lstate -> Prop) :
  blocks (db t) = blocks s' -> Q (old_balance old) t -> wp (ledger_balance (previous b)) t Q.
Proof.
  intros E HQ. destruct (Z.eq_dec (previous b) 0) as [Hz | Hz].
  - unfold ledger_balance. rewrite Hz. cbn [Z.eqb]. apply wp_ret.
    case_eq old; [intros i Ei; now destruct (old_some i Ei) as (_ & _ & []) |].
    intros Eo. now rewrite Eo in HQ.
  - destruct (ap_old _ _ _ _ _ _ _ _ Hs Ha Hz) as (i & x & Ei & _ & _ & Hx & Bx & _).
    destruct (keep _ _ Hx) as (k & Hk). eapply wp_balance; [exact E | exact Hk |].
    rewrite Ei in HQ. cbn [old_balance] in HQ. rewrite <- Bx in HQ.
    destruct x as [bx sbx]. exact HQ.
Qed.

Lemma wp_account (h : Z) (x : entry) (t : lstate) (Q : Z -> lstate -> Prop) :
  blocks (db t) = blocks s' -> block_get_full s' h = Some x -> Q (entry_account x) t ->
  wp (ledger_account h) t Q.
Proof.
  intros E Hx HQ. unfold ledger_account. eapply wp_needs; [| exact HQ].
  apply block_account_get; [now rewrite (get_blocks _ s') |].
  destruct (ch_account _ _ _ (inv_chain _ Hs' _ _ Hx)) as (e & j & Hj & _).
  exact (ao_nonzero _ _ _ _ (inv_account _ Hs' _ _ _ Hj)).
Qed.

(** The amount a pending entry came from. *)
Lemma wp_amount (e : epoch) (d h : Z) (p : pending_info) (t : lstate) (Q : Z -> lstate -> Prop) :
  pending_ok s' e d h p -> h <> genesis_account -> blocks (db t) = blocks s' ->
  Q (pi_amount p) t -> wp (amount h) t Q.
Proof.
  intros Hp Hg E HQ. destruct (po_send _ _ _ _ _ Hp) as (x & y & Hx & _ & _ & Hy & Hb).
  pose proof (po_amount _ _ _ _ _ Hp) as Hpos. unfold amount. apply Z.eqb_neq in Hg as ->. cbn [negb].
  apply wp_bind. eapply (wp_needs _ x.1); [now rewrite block_get_get, (get_blocks _ s'), Hx |].
  apply wp_bind. eapply wp_balance; [exact E | exact Hx |].
  apply wp_bind. eapply wp_balance; [exact E | exact Hy |]. apply wp_ret.
  destruct (Z.ltb_spec (entry_balance y) (entry_balance x)) as [? | ?]; [lia |].
  now replace (entry_balance y - entry_balance x) with (pi_amount p).
Qed.

(** ** The account's record *)

Lemma account_now (t : store) : accounts t = accounts s' -> account_get t a = Some new.
Proof.
  intros E. rewrite (account_get_accounts _ s' _ E).
  apply (account_get_entry s' Hs' (ai_epoch new)). apply (ap_account_new _ _ _ _ _ _ _ _ Ha).
Qed.

Lemma wp_change_back (rb bal count : Z) (e : epoch) (t : lstate) (Q : unit -> lstate -> Prop) :
  match old with
  | Some i => rb = rep_block i /\ bal = balance i /\ count = u64 (block_count new - 1) /\ e = ai_epoch i
  | None => True
  end -> accounts (db t) = accounts s' ->
  Q () (set_db t (set_accounts (db t) (accounts_undone s' a old new now))) ->
  wp (change_latest a (previous b) rb bal count e) t Q.
Proof.
  intros Ho E HQ. pose proof (account_now _ E) as Hn. unfold accounts_undone in HQ.
  case_eq old; [intros i Ei | intros Ei]; rewrite Ei in Ho, HQ.
  - destruct (old_some _ Ei) as (Hi & Ep & Hz), Ho as (-> & -> & -> & ->).
    pose proof (inv_account _ Hs _ _ _ Hi) as Hok.
    apply (wp_change_latest _ _ _ _ _ _ _ _ _ Hn Hz); [apply (ao_epoch _ _ _ _ Hok) | done |].
    destruct (ap_new _ _ _ _ _ _ _ _ Ha) as [_ No Nc _ _]. rewrite Ei in No, Nc.
    unfold latest_info. rewrite No, Nc, u64_pred by apply (ao_count _ _ _ _ Hok). rewrite E, Ep. exact HQ.
  - pose proof (ap_prev _ _ _ _ _ _ _ _ Ha) as Ep. rewrite Ei in Ep.
    unfold change_latest. apply wp_bind, wp_reads. rewrite Hn. apply wp_bind, wp_ret. rewrite Ep.
    cbn [Z.eqb negb]. eapply wp_writes; [apply account_del_get; exact Hn |]. rewrite E. exact HQ.
Qed.

(** ** The block tables *)

Definition deleted (m : gmap (block_db * Z) entry) : Prop :=
  blocks_ok m /\
  (forall h, block_get_full (set_blocks s' m) h = if h =? hash b then None else block_get_full s' h) /\
  (forall h, h <> hash b -> block_version (set_blocks s' m) h = block_version s' h).

Definition cleared (m : gmap (block_db * Z) entry) : Prop :=
  blocks_ok m /\
  (forall h, block_get_full (set_blocks s' m) h =
    if h =? previous b then (fun x => set_successor x 0) <$> block_get_full s' h
    else block_get_full s' h) /\
  (forall h, block_version (set_blocks s' m) h = block_version s' h).

Lemma previous_not_new : previous b <> hash b.
Proof.
  intros E. destruct (ap_block _ _ _ _ _ _ _ _ Ha) as (Hz & _ & Hn).
  destruct (ap_old _ _ _ _ _ _ _ _ Hs Ha) as (i & x & _ & _ & _ & Hx & _); congruence.
Qed.

Lemma previous_now : previous b <> 0 -> exists y, block_get_full s' (previous b) = Some y.
Proof.
  intros Hz. destruct (ap_old _ _ _ _ _ _ _ _ Hs Ha Hz) as (i & x & _ & _ & _ & Hx & _).
  destruct (keep _ _ Hx) as (k & Hk). eauto.
Qed.

Lemma wp_delete (t : lstate) (Q : unit -> lstate -> Prop) : blocks (db t) = blocks s' ->
  (forall m, deleted m -> Q () (set_db t (set_blocks (db t) m))) ->
  wp (writes (fun s => block_del s (hash b))) t Q.
Proof.
  intros E HQ. destruct (block_del_spec (db t) (hash b) (b, sb)) as (m & Em & Hm & G & V).
  - rewrite E. apply (append_blocks _ _ _ _ _ _ _ _ Ha).
  - rewrite (get_blocks _ s') by exact E. apply get_new.
  - eapply wp_writes; [exact Em | apply HQ]. split_and!; [exact Hm | |].
    + intros h. rewrite <- (get_blocks (db t) s' h E). apply G.
    + intros h Hh. rewrite <- (version_blocks (db t) s' h E). now apply V.
Qed.

Lemma wp_clear_deleted (t : lstate) (Q : unit -> lstate -> Prop) :
  deleted (blocks (db t)) -> previous b <> 0 ->
  (forall m, undone s' b m -> Q () (set_db t (set_blocks (db t) m))) ->
  wp (writes (fun s => block_successor_clear s (previous b))) t Q.
Proof.
  intros (Hok & G & V) Hz HQ. destruct (previous_now Hz) as (y & Hy). pose proof previous_not_new as Hne.
  destruct (successor_put_spec (db t) Hok (previous b) 0 y) as (m & Em & Hm & G' & V').
  { change (block_get_full (db t) (previous b)) with (block_get_full (set_blocks s' (blocks (db t))) (previous b)).
    rewrite G, (proj2 (Z.eqb_neq _ _) Hne). exact Hy. }
  eapply wp_writes; [exact Em | apply HQ]. split_and!; [exact Hm | |].
  - intros h. change (block_get_full (set_blocks s' m) h) with (block_get_full (set_blocks (db t) m) h).
    rewrite G'. change (block_get_full (db t) h) with (block_get_full (set_blocks s' (blocks (db t))) h).
    rewrite G. destruct (Z.eqb_spec h (previous b)) as [-> | _]; [| done].
    now rewrite (proj2 (Z.eqb_neq _ _) Hne), Hy.
  - intros h Hh. change (block_version (set_blocks s' m) h) with (block_version (set_blocks (db t) m) h).
    rewrite V'. now apply V.
Qed.

Lemma wp_clear (t : lstate) (Q : unit -> lstate -> Prop) : blocks (db t) = blocks s' -> previous b <> 0 ->
  (forall m, cleared m -> Q () (set_db t (set_blocks (db t) m))) ->
  wp (writes (fun s => block_successor_clear s (previous b))) t Q.
Proof.
  intros E Hz HQ. destruct (previous_now Hz) as (y & Hy).
  destruct (successor_put_spec (db t)) with (h := previous b) (next := 0) (e := y) as (m & Em & Hm & G & V).
  - rewrite E. apply (append_blocks _ _ _ _ _ _ _ _ Ha).
  - now rewrite (get_blocks _ s').
  - eapply wp_writes; [exact Em | apply HQ]. split_and!; [exact Hm | |].
    + intros h. change (block_get_full (set_blocks s' m) h) with (block_get_full (set_blocks (db t) m) h).
      rewrite G, (get_blocks _ s' _ E). destruct (Z.eqb_spec h (previous b)) as [-> | _]; [| done].
      now rewrite Hy.
    + intros h. rewrite <- (version_blocks (db t) s' h E). apply V.
Qed.

Lemma wp_delete_cleared (t : lstate) (Q : unit -> lstate -> Prop) : cleared (blocks (db t)) ->
  (forall m, undone s' b m -> Q () (set_db t (set_blocks (db t) m))) ->
  wp (writes (fun s => block_del s (hash b))) t Q.
Proof.
  intros (Hok & G & V) HQ. pose proof previous_not_new as Hne.
  destruct (block_del_spec (db t) (hash b) (b, sb) Hok) as (m & Em & Hm & G' & V').
  { change (block_get_full (db t) (hash b)) with (block_get_full (set_blocks s' (blocks (db t))) (hash b)).
    rewrite G, (proj2 (Z.eqb_neq _ _) (not_eq_sym Hne)). apply get_new. }
  eapply wp_writes; [exact Em | apply HQ]. split_and!; [exact Hm | |].
  - intros h. change (block_get_full (set_blocks s' m) h) with (block_get_full (set_blocks (db t) m) h).
    rewrite G'. destruct (h =? hash b); [done |]. apply G.
  - intros h Hh. change (block_version (set_blocks s' m) h) with (block_version (set_blocks (db t) m) h).
    rewrite (V' h Hh). apply V.
Qed.

(** With no predecessor there is no successor to clear. *)
Lemma deleted_undone (m : gmap (block_db * Z) entry) : previous b = 0 -> deleted m -> undone s' b m.
Proof.
  intros Hz (Hok & G & V). split_and!; [exact Hok | | exact V]. intros h. rewrite G, Hz.
  destruct (Z.eqb_spec h 0) as [-> | _]; [| done].
  destruct (block_get_full s' 0) as [x |] eqn:E; [now apply (get_nonzero s' Hs') in E | done].
Qed.

Lemma same_cleared : previous b = 0 -> cleared (blocks s').
Proof.
  intros Hz. split_and!; [apply (append_blocks _ _ _ _ _ _ _ _ Ha) | | done]. intros h. rewrite Hz.
  destruct (Z.eqb_spec h 0) as [-> | _]; [| now destruct s'].
  destruct (block_get_full s' 0) as [x |] eqn:E; [now apply (get_nonzero s' Hs') in E |].
  rewrite (get_blocks _ s') by done. exact E.
Qed.

(** ** Weights *)

Lemma weight_new : exists rep, block_get s' (rep_block new) = Some rep /\ forall r,
  representation_get s' r = representation_get s r - old_contribution s r old +
    if representative rep =? r then balance new else 0.
Proof.
  destruct (rep_walk_end _ _ _ (walk_new _ _ _ _ _ _ _ _ Hs Ha)) as (x & Hx & _).
  exists x.1. split; [now rewrite block_get_get, Hx |]. intros r.
  rewrite (weight_before _ _ _ _ _ _ _ _ Hs Ha). unfold contribution, rep_of.
  now rewrite block_get_get, Hx.
Qed.

Lemma weight_old (i : account_info) : old = Some i -> exists rep, block_get s' (rep_block i) = Some rep /\
  forall r, old_contribution s r old = if representative rep =? r then balance i else 0.
Proof.
  intros Ei. destruct (old_some _ Ei) as (Hi & _). destruct (rep_stored s Hs _ _ _ Hi) as (x & Hx).
  destruct (keep _ _ Hx) as (k & Hk). exists x.1. split; [now rewrite block_get_get, Hk |].
  intros r. rewrite Ei. apply contribution_of. now rewrite block_get_get, Hx.
Qed.

Lemma balances_range : 0 <= balance new < 2 ^ 128 /\ 0 <= old_balance old < 2 ^ 128.
Proof.
  split; [exact (proj1 (account_facts _ _ _ Hs' (account_now s' eq_refl))) |].
  case_eq old; [intros i Ei | cbn; lia]. destruct (old_some _ Ei) as (Hi & _).
  apply (account_get_entry s Hs) in Hi. exact (proj1 (account_facts _ _ _ Hs Hi)).
Qed.

(** ** Frontiers *)

Lemma frontier_unused : frontiers s !! hash b = None.
Proof.
  destruct (frontiers s !! hash b) as [a' |] eqn:E; [exfalso | done].
  destruct (inv_frontier _ Hs _ _ E) as (i & Hi & Eh).
  destruct (ao_head _ _ _ _ (inv_account _ Hs _ _ _ Hi)) as (x & Hx & _). rewrite Eh in Hx.
  now apply (ap_fresh _ _ _ _ _ _ _ _ Ha) in Hx.
Qed.

Lemma frontier_now : legacy_type (type b) = true -> frontiers s' !! hash b = Some a.
Proof. intros El. now rewrite (frontier_new _ _ _ _ _ _ _ _ Hs Ha), El. Qed.

Lemma frontier_gone : legacy_type (type b) = true ->
  delete (hash b) (frontiers s') = delete (previous b) (frontiers s).
Proof.
  intros El. rewrite (ap_frontiers _ _ _ _ _ _ _ _ Ha), El. cbn zeta. apply delete_insert_id.
  rewrite lookup_delete_ne by apply previous_not_new. apply frontier_unused.
Qed.

Lemma frontier_back : legacy_type (type b) = true -> frontiers s !! previous b = Some a ->
  <[previous b := a]> (delete (hash b) (frontiers s')) = frontiers s.
Proof. intros El E. rewrite (frontier_gone El). now apply insert_delete_id. Qed.

(** ** Pending entries *)

Lemma pending_unput (k : Z * Z) (p : pending_info) : c = pend_put k p ->
  pending_get s' k = Some p /\ pi_source p = a /\ pi_amount p = old_balance old - balance new /\
  pending_del s' k = Some (set_pending s' (pending s)).
Proof.
  intros Ec. pose proof (ap_change _ _ _ _ _ _ _ _ Ha) as Hc. rewrite Ec in Hc. destruct k as [d h].
  destruct Hc as (-> & C1 & C2 & _). pose proof (ap_money _ _ _ _ _ _ _ _ Ha) as Hm. rewrite Ec in Hm.
  cbn [pending_delta] in Hm. pose proof (ap_pending _ _ _ _ _ _ _ _ Ha) as Ep. rewrite Ec in Ep.
  cbn [apply_pending] in Ep. assert (Hp : pending_get s' (d, hash b) = Some p).
  { apply (pending_get_entry s' (pi_epoch p)); [exact Hs' |]. rewrite Ep. apply lookup_insert_eq. }
  split_and!; [exact Hp | exact C1 | lia |]. destruct (pending_facts _ _ _ Hs' Hp) as (_ & _ & _ & ->).
  f_equal. f_equal. rewrite Ep. apply delete_insert_id.
  destruct (pending s !! (pi_epoch p, (d, hash b))) as [q |] eqn:Hq; [exfalso | done].
  apply (inv_pending _ Hs) in Hq. destruct (po_send _ _ _ _ _ Hq) as (x & y & Hx & _).
  now apply (ap_fresh _ _ _ _ _ _ _ _ Ha) in Hx.
Qed.

Lemma pending_undel (e : epoch) (d h : Z) (p : pending_info) : c = pend_del e (d, h) p ->
  pending_ok s' e d h p /\ pi_amount p = balance new - old_balance old /\
  <[(e, (d, h)) := p]> (pending s') = pending s /\ block_get_full s h <> None.
Proof.
  intros Ec. pose proof (ap_change _ _ _ _ _ _ _ _ Ha) as Hc. rewrite Ec in Hc. cbn in Hc.
  pose proof (inv_pending _ Hs _ _ _ _ Hc) as Hok.
  pose proof (ap_money _ _ _ _ _ _ _ _ Ha) as Hm. rewrite Ec in Hm. cbn [pending_delta] in Hm.
  split_and!; [exact (pending_keep _ _ _ _ _ _ _ _ Ha _ _ _ _ Hok) | lia | |].
  - rewrite (ap_pending _ _ _ _ _ _ _ _ Ha), Ec. now apply insert_delete_id.
  - destruct (po_send _ _ _ _ _ Hok) as (x & y & Hx & _). congruence.
Qed.

(** Putting the entry back. *)
Lemma wp_pending_back (e : epoch) (d h : Z) (p q : pending_info) (t : lstate) (Q : unit -> lstate -> Prop) :
  c = pend_del e (d, h) p -> pending (db t) = pending s' ->
  pi_source q = pi_source p -> pi_amount q = pi_amount p -> pi_epoch q = e ->
  Q () (set_db t (set_pending (db t) (pending s))) ->
  wp (writes (fun s => pending_put s (d, h) q)) t Q.
Proof.
  intros Ec E Q1 Q2 Q3 HQ. destruct (pending_undel _ _ _ _ Ec) as (Hok & _ & Ep & _).
  destruct (po_epoch _ _ _ _ _ Hok) as [V Pe].
  assert (q = p) as -> by (destruct q, p; cbn in *; congruence).
  eapply wp_writes; [| exact HQ]. unfold pending_put. rewrite E, Q3, Ep. now destruct V as [-> | ->].
Qed.

End Undo.

(** ** The handlers *)

Section Handlers.

Context `{Env} (n : nat) (back : Z -> M unit).

(** The tables are restored, and nothing else was rolled back. *)
Definition undid (s : store) (t : lstate) : unit -> lstate -> Prop := fun _ t' =>
  restored s (db t') /\ rolled t' = rolled t.

Ltac adds Hb Hw E w W :=
  apply wp_bind; eapply wp_rep_add; [exact Hb | exact Hw | exact E |]; intros w W; tidy.

Section Handler.

Context (s : store) (t : lstate) (sb : sideband) (a : Z) (old : option account_info)
  (new : account_info) (c : pending_change).
Context (Hs : inv s).

(** What the handlers of the legacy blocks that have a predecessor end with. *)
Lemma finish_legacy (b : block) (t1 : lstate) (W : Z -> Z) (d : stat_detail) :
  appended s b sb a old new c (db t) -> legacy_type (type b) = true -> previous b <> 0 ->
  frontiers s !! previous b = Some a ->
  deleted (db t) b (blocks (db t1)) -> accounts (db t1) = accounts_undone (db t) a old new now ->
  pending (db t1) = pending s -> frontiers (db t1) = frontiers (db t) ->
  weights (representation (db t1)) W -> (forall r, W r = representation_get s r) ->
  rolled t1 = rolled t ->
  wp (writes (fun s => frontier_del s (hash b));;
      puts (fun s => frontier_put s (previous b) a);;
      writes (fun s => block_successor_clear s (previous b));;
      stat_inc st_rollback d) t1 (undid s t).
Proof.
  intros Ha El Hz Ef Hm Eacc Ep Efr Hw HW Er. apply wp_bind. eapply wp_writes.
  { eapply frontier_del_some. rewrite Efr. exact (frontier_now _ _ _ _ _ _ _ _ Hs Ha El). }
  tidy. step. apply wp_bind.
  eapply (wp_clear_deleted _ _ _ _ _ _ _ _ Hs Ha); [exact Hm | exact Hz |].
  intros m' Hm'. tidy. apply wp_stat. split; [| exact Er].
  eapply (restored_intro _ _ _ _ _ _ _ _ Hs Ha _ _ _ _ _); [| exact Hm' | exact Hw | exact HW].
  rewrite <- (frontier_back _ _ _ _ _ _ _ _ Hs Ha El Ef), <- Eacc, <- Ep, <- Efr. reflexivity.
Qed.

Lemma rollback_send_ok (f : send_hashables) (sg w : Z) (b := send_block f sg w) :
  appended s b sb a old new c (db t) -> explains s b a old c ->
  wp (rollback_send (S n) back f (hash b)) t (undid s t).
Proof.
  intros Ha ((i & Ei) & Ef & p & Ec).
  pose proof (append_inv _ _ _ _ _ _ _ _ Hs Ha) as Hs'.
  destruct (pending_unput _ _ _ _ _ _ _ _ Hs Ha _ _ Ec) as (P1 & P2 & P3 & P4).
  destruct (old_some _ _ _ _ _ _ _ _ Hs Ha _ Ei) as (Hi & Ep & Hz).
  destruct (weight_new _ _ _ _ _ _ _ _ Hs Ha) as (rep & R1 & R2).
  destruct (weight_old _ _ _ _ _ _ _ _ Hs Ha _ Ei) as (rep' & R1' & R2').
  destruct (ap_rep _ _ _ _ _ _ _ _ Ha) as (j & Ej & Er).
  assert (j = i) as -> by congruence. rewrite Er in R1. assert (rep' = rep) as -> by congruence.
  unfold rollback_send. apply wp_bind, wp_while_false; [now rewrite P1 |].
  need P1. rewrite P2. need (account_now _ _ _ _ _ _ _ _ Hs Ha (db t) eq_refl). write P4.
  apply wp_bind. eapply (wp_representative_new _ _ _ _ _ _ _ _ Hs Ha); [done |]. rewrite Er.
  adds R1 (inv_weights _ Hs') (eq_refl (u128 (pi_amount p))) w1 W1.
  apply wp_bind. change (send_previous f) with (previous b).
  eapply (wp_balance_old _ _ _ _ _ _ _ _ Hs Ha); [done |].
  apply wp_bind. eapply (wp_change_back _ _ _ _ _ _ _ _ Hs Ha); [| done |].
  { rewrite Ei. split_and!; [done .. |]. symmetry. exact (legacy_epoch _ _ _ _ _ Hs Ef Hi). }
  tidy. apply wp_bind. eapply (wp_delete _ _ _ _ _ _ _ _ Ha); [done |]. intros m Hm. tidy.
  eapply finish_legacy; [exact Ha | done | exact Hz | exact Ef | exact Hm | done .. | exact W1 | | done].
  intros r. cbv beta. rewrite R2, R2', P3, Ei. cbn [old_balance]. destruct (_ =? _); lia.
Qed.

Lemma rollback_change_ok (f : change_hashables) (sg w : Z) (b := change_block f sg w) :
  appended s b sb a old new c (db t) -> explains s b a old c ->
  wp (rollback_change f (hash b)) t (undid s t).
Proof.
  intros Ha ((i & Ei) & Ef & Ec).
  pose proof (append_inv _ _ _ _ _ _ _ _ Hs Ha) as Hs'.
  destruct (old_some _ _ _ _ _ _ _ _ Hs Ha _ Ei) as (Hi & Ep & Hz).
  destruct (previous_now _ _ _ _ _ _ _ _ Hs Ha Hz) as (y & Hy).
  destruct (weight_new _ _ _ _ _ _ _ _ Hs Ha) as (rep & R1 & R2).
  destruct (weight_old _ _ _ _ _ _ _ _ Hs Ha _ Ei) as (rep' & R1' & R2').
  pose proof (ap_rep _ _ _ _ _ _ _ _ Ha) as Er. cbn [keeps_rep b] in Er. fold b in Er. rewrite Er in R1.
  pose proof (ap_money _ _ _ _ _ _ _ _ Ha) as Hmoney. rewrite Ec, Ei in Hmoney.
  cbn [pending_delta old_balance] in Hmoney.
  unfold rollback_change. change (change_previous f) with (previous b) in *.
  apply wp_bind. eapply (wp_representative_old _ _ _ _ _ _ _ _ Hs Ha); [exact Ei | done |].
  apply wp_bind. eapply (wp_account _ _ _ _ _ _ _ _ Hs Ha); [done | exact Hy |].
  destruct (ch_prev _ _ _ (inv_chain _ Hs' _ _ (ap_get_new _ _ _ _ _ _ _ _ Ha)) Hz)
    as (y' & Hy' & _ & Ey & _). cbn [fst] in Hy'. assert (y' = y) as -> by congruence.
  rewrite Ey, (proj1 (proj2 (ap_sideband _ _ _ _ _ _ _ _ Ha))).
  need (account_now _ _ _ _ _ _ _ _ Hs Ha (db t) eq_refl).
  apply wp_bind. eapply (wp_balance_old _ _ _ _ _ _ _ _ Hs Ha); [done |].
  adds R1' (inv_weights _ Hs') (eq_refl (u128 (old_balance old))) w1 W1.
  adds R1 W1 (u128_neg (old_balance old)) w2 W2.
  apply wp_bind. eapply (wp_delete _ _ _ _ _ _ _ _ Ha); [done |]. intros m Hm. tidy.
  apply wp_bind. eapply (wp_change_back _ _ _ _ _ _ _ _ Hs Ha); [| done |].
  { rewrite Ei. split_and!; [done | lia | done |]. symmetry. exact (legacy_epoch _ _ _ _ _ Hs Ef Hi). }
  tidy.
  eapply finish_legacy; [exact Ha | done | exact Hz | exact Ef | exact Hm | done | | done | exact W2 | | done].
  - cbn. now rewrite (ap_pending _ _ _ _ _ _ _ _ Ha), Ec.
  - intros r. cbv beta. rewrite R2, R2', Ei. cbn [old_balance]. repeat destruct (_ =? _); lia.
Qed.

(** The block whose pending entry was taken is not the genesis account's number:
    [amount] compares the hash with that account. *)
Context (Hg : block_get_full s genesis_account = None).

Lemma not_genesis (h : Z) : block_get_full s h <> None -> h <> genesis_account.
Proof. intros Hh ->. done. Qed.

Lemma rollback_receive_ok (f : receive_hashables) (sg w : Z) (b := receive_block f sg w) :
  appended s b sb a old new c (db t) -> explains s b a old c ->
  wp (rollback_receive f (hash b)) t (undid s t).
Proof.
  intros Ha ((i & Ei) & Ef & p & Ec).
  pose proof (append_inv _ _ _ _ _ _ _ _ Hs Ha) as Hs'.
  destruct (pending_undel _ _ _ _ _ _ _ _ Hs Ha _ _ _ _ Ec) as (P1 & P2 & P3 & P4).
  destruct (po_send _ _ _ _ _ P1) as (x & _ & Hx & Ex & _).
  destruct (old_some _ _ _ _ _ _ _ _ Hs Ha _ Ei) as (Hi & Ep & Hz).
  destruct (weight_new _ _ _ _ _ _ _ _ Hs Ha) as (rep & R1 & R2).
  destruct (weight_old _ _ _ _ _ _ _ _ Hs Ha _ Ei) as (rep' & R1' & R2').
  destruct (ap_rep _ _ _ _ _ _ _ _ Ha) as (j & Ej & Er).
  assert (j = i) as -> by congruence. rewrite Er in R1. assert (rep' = rep) as -> by congruence.
  unfold rollback_receive. change (receive_previous f) with (previous b) in *.
  apply wp_bind. eapply (wp_representative_old _ _ _ _ _ _ _ _ Hs Ha); [exact Ei | done |].
  apply wp_bind. eapply (wp_amount _ _ _ _ _ _ _ _ Hs Ha); [exact P1 | exact (not_genesis _ P4) | done |].
  apply wp_bind. eapply (wp_account _ _ _ _ _ _ _ _ Hs Ha);
    [done | exact (ap_get_new _ _ _ _ _ _ _ _ Ha) |].
  rewrite (proj1 (proj2 (ap_sideband _ _ _ _ _ _ _ _ Ha))).
  apply wp_bind. eapply (wp_account _ _ _ _ _ _ _ _ Hs Ha); [done | exact Hx |]. rewrite Ex.
  need (account_now _ _ _ _ _ _ _ _ Hs Ha (db t) eq_refl).
  apply wp_bind. eapply (wp_representative_new _ _ _ _ _ _ _ _ Hs Ha); [done |]. rewrite Er.
  adds R1 (inv_weights _ Hs') (u128_neg (pi_amount p)) w1 W1.
  apply wp_bind. eapply (wp_balance_old _ _ _ _ _ _ _ _ Hs Ha); [done |].
  apply wp_bind. eapply (wp_change_back _ _ _ _ _ _ _ _ Hs Ha); [| done |].
  { rewrite Ei. split_and!; [done .. |]. symmetry. exact (legacy_epoch _ _ _ _ _ Hs Ef Hi). }
  tidy. apply wp_bind. eapply (wp_delete _ _ _ _ _ _ _ _ Ha); [done |]. intros m Hm. tidy.
  apply wp_bind. eapply (wp_pending_back _ _ _ _ _ _ _ _ Hs Ha); [exact Ec | done .. |]. tidy.
  eapply finish_legacy; [exact Ha | done | exact Hz | exact Ef | exact Hm | done .. | exact W1 | | done].
  intros r. cbv beta. rewrite R2, R2', P2, Ei. cbn [old_balance]. destruct (_ =? _); lia.
Qed.

Lemma rollback_open_ok (f : open_hashables) (sg w : Z) (b := open_block f sg w) :
  appended s b sb a old new c (db t) -> explains s b a old c ->
  wp (rollback_open f (hash b)) t (undid s t).
Proof.
  intros Ha (_ & Eo & p & Ec).
  pose proof (append_inv _ _ _ _ _ _ _ _ Hs Ha) as Hs'.
  destruct (pending_undel _ _ _ _ _ _ _ _ Hs Ha _ _ _ _ Ec) as (P1 & P2 & P3 & P4).
  destruct (po_send _ _ _ _ _ P1) as (x & _ & Hx & Ex & _).
  destruct (weight_new _ _ _ _ _ _ _ _ Hs Ha) as (rep & R1 & R2).
  unfold rollback_open.
  apply wp_bind. eapply (wp_amount _ _ _ _ _ _ _ _ Hs Ha); [exact P1 | exact (not_genesis _ P4) | done |].
  apply wp_bind. eapply (wp_account _ _ _ _ _ _ _ _ Hs Ha);
    [done | exact (ap_get_new _ _ _ _ _ _ _ _ Ha) |].
  rewrite (proj1 (proj2 (ap_sideband _ _ _ _ _ _ _ _ Ha))).
  apply wp_bind. eapply (wp_account _ _ _ _ _ _ _ _ Hs Ha); [done | exact Hx |]. rewrite Ex.
  apply wp_bind. eapply (wp_representative_new _ _ _ _ _ _ _ _ Hs Ha); [done |].
  adds R1 (inv_weights _ Hs') (u128_neg (pi_amount p)) w1 W1.
  apply wp_bind. change 0 with (previous b) at 1.
  eapply (wp_change_back _ _ _ _ _ _ _ _ Hs Ha); [now rewrite Eo | done |].
  tidy. apply wp_bind. eapply (wp_delete _ _ _ _ _ _ _ _ Ha); [done |]. intros m Hm. tidy.
  apply wp_bind. eapply (wp_pending_back _ _ _ _ _ _ _ _ Hs Ha); [exact Ec | done .. |]. tidy.
  apply wp_bind. eapply wp_writes;
    [eapply frontier_del_some; exact (frontier_now _ _ _ _ _ _ _ _ Hs Ha eq_refl) |]. tidy.
  apply wp_stat. split; [| done].
  eapply (restored_intro _ _ _ _ _ _ _ _ Hs Ha _ _ _ _ _);
    [| exact (deleted_undone _ _ _ _ _ _ _ _ Hs Ha _ eq_refl Hm) | exact W1 |].
  - assert (Efr : delete (hash b) (frontiers (db t)) = frontiers s).
    { rewrite (frontier_gone _ _ _ _ _ _ _ _ Hs Ha eq_refl). now apply frontier_zero. }
    rewrite <- Efr. reflexivity.
  - intros r. cbv beta. rewrite R2, P2, Eo. cbn [old_balance old_contribution]. destruct (_ =? _); lia.
Qed.

(** *** State blocks *)

(** The step of [rollback_state] that settles the pending table. *)
Definition state_pending_back (f : state_hashables) (h bal : Z) : M unit :=
  if state_balance f <? bal then
    while_ (S n) (reads (fun s => negb (pending_exists s (state_link f, h))))
      (l ← reads (fun s => latest s (state_link f)); back l);;
    writes (fun s => pending_del s (state_link f, h));;
    stat_inc st_rollback sd_send
  else if negb (state_link f =? 0) && negb (is_epoch_link (state_link f)) then
    source_version ← reads (fun s => block_version s (state_link f));
    source_account ← ledger_account (state_link f);
    writes (fun s => pending_put s (state_account f, state_link f)
      (mk_pending_info source_account (u128 (state_balance f - bal)) source_version));;
    stat_inc st_rollback sd_receive
  else mret ().

Context (He : block_get_full s epoch_link = None).

Lemma pending_del_pending (d d' : store) (k : Z * Z) (m : gmap (epoch * (Z * Z)) pending_info) :
  pending d' = pending d -> pending_del d k = Some (set_pending d m) ->
  pending_del d' k = Some (set_pending d' m).
Proof.
  intros E. unfold pending_del. rewrite E.
  repeat destruct (present _); try done; now intros [= <-].
Qed.

Lemma pending_get_exists (d : store) (k : Z * Z) (p : pending_info) :
  pending_get d k = Some p -> pending_exists d k = true.
Proof.
  unfold pending_get, pending_exists. destruct (pending d !! (epoch_1, k)); [now rewrite orb_true_r |].
  now destruct (pending d !! (epoch_0, k)).
Qed.

Lemma pending_exists_pending (d d' : store) (k : Z * Z) :
  pending d' = pending d -> pending_exists d' k = pending_exists d k.
Proof. intros E. unfold pending_exists. now rewrite E. Qed.

Lemma wp_state_unpend (f : state_hashables) (sg w : Z) (t1 : lstate) (b := state_block f sg w) :
  appended s b sb a old new c (db t) -> explains s b a old c -> rolled t1 = rolled t ->
  pending (db t1) = pending (db t) -> blocks (db t1) = blocks (db t) ->
  wp (state_pending_back f (hash b) (old_balance old)) t1 (fun _ t2 =>
    rolled t2 = rolled t /\ db t2 = set_pending (db t1) (pending s)).
Proof.
  intros Ha (Ea & Hex) Er Ep Eb. pose proof (append_inv _ _ _ _ _ _ _ _ Hs Ha) as Hs'.
  pose proof (proj1 (proj2 (proj2 (ap_sideband _ _ _ _ _ _ _ _ Ha)))) as Sb. cbn in Sb.
  unfold state_pending_back. destruct (state_balance f <? old_balance old).
  - destruct Hex as (p & Ec). destruct (pending_unput _ _ _ _ _ _ _ _ Hs Ha _ _ Ec) as (P1 & _ & _ & P4).
    apply wp_bind, wp_while_false.
    { rewrite (pending_exists_pending (db t)) by exact Ep.
      now rewrite (pending_get_exists _ _ _ P1). }
    apply wp_bind. eapply wp_writes; [exact (pending_del_pending _ _ _ _ Ep P4) |].
    apply wp_stat. split; [exact Er | done].
  - destruct Hex as [[Ec Hl] | (Hl & p & Ec)].
    + replace (negb (state_link f =? 0) && negb (is_epoch_link (state_link f))) with false.
      * apply wp_ret. split; [exact Er |]. pose proof (ap_pending _ _ _ _ _ _ _ _ Ha) as E.
        rewrite Ec in E. cbn [apply_pending] in E. rewrite E in Ep. rewrite <- Ep. now destruct (db t1).
      * unfold is_epoch_link. destruct Hl as [-> | ->]; [done |]. rewrite Z.eqb_refl. now rewrite andb_comm.
    + destruct (pending_undel _ _ _ _ _ _ _ _ Hs Ha _ _ _ _ Ec) as (P1 & P2 & P3 & P4).
      destruct (po_send _ _ _ _ _ P1) as (x & _ & Hx & Ex & _).
      assert (Hn : is_epoch_link (state_link f) = false).
      { apply Z.eqb_neq. intros E. rewrite E in P4. done. }
      rewrite (proj2 (Z.eqb_neq _ _) Hl), Hn. cbn [negb andb]. step. apply wp_bind.
      eapply (wp_account _ _ _ _ _ _ _ _ Hs Ha); [exact Eb | exact Hx |]. rewrite Ex. apply wp_bind.
      rewrite <- Ea. eapply (wp_pending_back _ _ _ _ _ _ _ _ Hs Ha); [exact Ec | exact Ep | done | | |].
      * cbn [pi_amount]. rewrite Sb, <- P2. apply u128_small.
        pose proof (balances_range _ _ _ _ _ _ _ _ Hs Ha). pose proof (po_amount _ _ _ _ _ P1). lia.
      * cbn [pi_epoch]. rewrite (version_blocks _ (db t)) by exact Eb. exact (po_version _ _ _ _ _ P1).
      * apply wp_stat. split; [exact Er | done].
Qed.

Lemma previous_version (b : block) (i : account_info) (t1 : store) :
  appended s b sb a old new c (db t) -> old = Some i -> blocks t1 = blocks (db t) ->
  block_version t1 (previous b) = ai_epoch i.
Proof.
  intros Ha Ei E. destruct (old_some _ _ _ _ _ _ _ _ Hs Ha _ Ei) as (Hi & Ep & Hz).
  rewrite (version_blocks _ (db t)) by exact E. rewrite (ap_version _ _ _ _ _ _ _ _ Ha).
  rewrite (proj2 (Z.eqb_neq _ _) (previous_not_new _ _ _ _ _ _ _ _ Hs Ha)), Ep.
  exact (ao_version _ _ _ _ (inv_account _ Hs _ _ _ Hi)).
Qed.

Section Finish.

Context (b : block) (t1 : lstate) (W : Z -> Z).
Context (Ha : appended s b sb a old new c (db t)) (Ht : type b = bt_state).

Definition finish_state : M unit :=
  prev ← reads (fun s => block_get s (previous b));
  match prev with
  | Some p =>
      writes (fun s => block_successor_clear s (previous b));;
      if type_code (type p) <? type_code bt_state
      then puts (fun s => frontier_put s (previous b) a) else mret ()
  | None => stat_inc st_rollback sd_open
  end;;
  writes (fun s => block_del s (hash b)).

Lemma type_legacy (x : block) : (type_code (type x) <? type_code bt_state) = legacy_type (type x).
Proof. now destruct x. Qed.

Lemma finish_state_some (i : account_info) : old = Some i ->
  blocks (db t1) = blocks (db t) -> accounts (db t1) = accounts_undone (db t) a old new now ->
  pending (db t1) = pending s -> frontiers (db t1) = frontiers (db t) ->
  weights (representation (db t1)) W -> (forall r, W r = representation_get s r) ->
  rolled t1 = rolled t -> wp finish_state t1 (undid s t).
Proof.
  intros Ei Eb Eacc Ep Efr Hw HW Er. destruct (old_some _ _ _ _ _ _ _ _ Hs Ha _ Ei) as (Hi & Eh & Hz).
  destruct (ao_head _ _ _ _ (inv_account _ Hs _ _ _ Hi)) as (y & Hy & _ & _ & _ & _ & Fy).
  rewrite <- Eh in Hy, Fy. destruct (ap_keep _ _ _ _ _ _ _ _ Ha _ _ Hy) as (k & Hk).
  pose proof (ap_frontiers _ _ _ _ _ _ _ _ Ha) as Ef. rewrite Ht in Ef. cbn in Ef.
  unfold finish_state. apply wp_bind, wp_reads. rewrite block_get_get, (get_blocks _ (db t)), Hk by exact Eb.
  cbn [fmap option_fmap option_map fst]. rewrite type_legacy. apply wp_bind, wp_bind.
  eapply (wp_clear _ _ _ _ _ _ _ _ Hs Ha); [exact Eb | exact Hz |]. intros m Hm. tidy.
  destruct (legacy_type (type y.1)).
  - step. eapply (wp_delete_cleared _ _ _ _ _ _ _ _ Hs Ha); [exact Hm |]. intros m' Hm'. split; [| exact Er].
    eapply (restored_intro _ _ _ _ _ _ _ _ Hs Ha _ _ _ _ _); [| exact Hm' | exact Hw | exact HW].
    rewrite <- Eacc, <- Ep. rewrite <- (insert_delete_id _ _ _ Fy), <- Ef, <- Efr. reflexivity.
  - apply wp_ret. eapply (wp_delete_cleared _ _ _ _ _ _ _ _ Hs Ha); [exact Hm |]. intros m' Hm'.
    split; [| exact Er].
    eapply (restored_intro _ _ _ _ _ _ _ _ Hs Ha _ _ _ _ _); [| exact Hm' | exact Hw | exact HW].
    rewrite <- Eacc, <- Ep. rewrite <- (delete_id _ _ Fy), <- Ef, <- Efr. reflexivity.
Qed.

Lemma finish_state_none : old = None ->
  blocks (db t1) = blocks (db t) -> accounts (db t1) = accounts_undone (db t) a old new now ->
  pending (db t1) = pending s -> frontiers (db t1) = frontiers (db t) ->
  weights (representation (db t1)) W -> (forall r, W r = representation_get s r) ->
  rolled t1 = rolled t -> wp finish_state t1 (undid s t).
Proof.
  intros Ei Eb Eacc Ep Efr Hw HW Er. pose proof (append_inv _ _ _ _ _ _ _ _ Hs Ha) as Hs'.
  pose proof (ap_prev _ _ _ _ _ _ _ _ Ha) as Eh. rewrite Ei in Eh.
  pose proof (ap_frontiers _ _ _ _ _ _ _ _ Ha) as Ef. rewrite Ht, Eh, (frontier_zero _ Hs) in Ef. cbn in Ef.
  assert (H0 : block_get_full (db t) 0 = None).
  { destruct (block_get_full (db t) 0) as [x |] eqn:E; [now apply (get_nonzero _ Hs') in E | done]. }
  unfold finish_state. apply wp_bind, wp_reads. rewrite Eh, block_get_get, (get_blocks _ (db t)), H0 by exact Eb.
  cbn [fmap option_fmap option_map]. apply wp_bind, wp_stat.
  eapply (wp_delete_cleared _ _ _ _ _ _ _ _ Hs Ha).
  { cbn [db]. rewrite Eb. exact (same_cleared _ _ _ _ _ _ _ _ Hs Ha Eh). }
  intros m' Hm'. split; [| exact Er].
  eapply (restored_intro _ _ _ _ _ _ _ _ Hs Ha _ _ _ _ _); [| exact Hm' | exact Hw | exact HW].
  rewrite <- Eacc, <- Ep, <- Ef, <- Efr. reflexivity.
Qed.

End Finish.

(** An account with blocks before: the previous block's representative gets the
    balance back, and its frontier if it is a legacy block. *)
Lemma rollback_state_some_ok (f : state_hashables) (sg w : Z) (b := state_block f sg w) (i : account_info) :
  appended s b sb a old new c (db t) -> explains s b a old c -> old = Some i ->
  wp (rollback_state (S n) back f (hash b)) t (undid s t).
Proof.
  intros Ha Hex Ei. pose proof (append_inv _ _ _ _ _ _ _ _ Hs Ha) as Hs'. pose proof (proj1 Hex) as Ea.
  destruct (old_some _ _ _ _ _ _ _ _ Hs Ha _ Ei) as (Hi & Ep & Hz).
  destruct (weight_new _ _ _ _ _ _ _ _ Hs Ha) as (rep & R1 & R2).
  destruct (weight_old _ _ _ _ _ _ _ _ Hs Ha _ Ei) as (rep' & R1' & R2').
  pose proof (ap_rep _ _ _ _ _ _ _ _ Ha) as Er. cbn [keeps_rep b] in Er. fold b in Er. rewrite Er in R1.
  pose proof (proj1 (proj2 (proj2 (ap_sideband _ _ _ _ _ _ _ _ Ha)))) as Sb. cbn in Sb.
  destruct (rep_stored s Hs _ _ _ Hi) as (xr & Hxr). pose proof (get_nonzero s Hs _ _ Hxr) as Hrz.
  unfold rollback_state. change (state_previous f) with (previous b) in *.
  rewrite (proj2 (Z.eqb_neq _ _) Hz). cbn [negb].
  apply wp_bind. eapply (wp_representative_old _ _ _ _ _ _ _ _ Hs Ha); [exact Ei | done |].
  apply wp_bind. eapply (wp_balance_old _ _ _ _ _ _ _ _ Hs Ha); [done |].
  adds R1 (inv_weights _ Hs') (u128_neg (state_balance f)) w1 W1.
  rewrite (proj2 (Z.eqb_neq _ _) Hrz). cbn [negb].
  adds R1' W1 (eq_refl (u128 (old_balance old))) w2 W2.
  step. apply wp_bind. eapply wp_mono;
    [eapply (wp_state_unpend f sg w); [exact Ha | exact Hex | reflexivity ..] |].
  intros _ t2 (Hr2 & Hd2). rewrite <- Ea.
  apply wp_bind. eapply wp_must; [apply (account_now _ _ _ _ _ _ _ _ Hs Ha); reflexivity |].
  step. rewrite Hd2. apply wp_bind.
  eapply (wp_change_back _ _ _ _ _ _ _ _ Hs Ha); [| now rewrite Hd2 |].
  { rewrite Ei. split_and!; [done .. |]. now apply (previous_version b). }
  eapply finish_state_some; [exact Ha | done | exact Ei | cbn; rewrite ?Hd2; reflexivity .. | | | exact Hr2].
  - cbn. rewrite Hd2. exact W2.
  - intros r. cbv beta. rewrite R2, R2', Ei, Sb. cbn [old_balance]. repeat destruct (_ =? _); lia.
Qed.

(** An account the block opened. *)
Lemma rollback_state_none_ok (f : state_hashables) (sg w : Z) (b := state_block f sg w) :
  appended s b sb a old new c (db t) -> explains s b a old c -> old = None ->
  wp (rollback_state (S n) back f (hash b)) t (undid s t).
Proof.
  intros Ha Hex Eo. pose proof (append_inv _ _ _ _ _ _ _ _ Hs Ha) as Hs'. pose proof (proj1 Hex) as Ea.
  pose proof (ap_prev _ _ _ _ _ _ _ _ Ha) as Ep. rewrite Eo in Ep.
  destruct (weight_new _ _ _ _ _ _ _ _ Hs Ha) as (rep & R1 & R2).
  pose proof (ap_rep _ _ _ _ _ _ _ _ Ha) as Er. cbn [keeps_rep b] in Er. fold b in Er. rewrite Er in R1.
  pose proof (proj1 (proj2 (proj2 (ap_sideband _ _ _ _ _ _ _ _ Ha)))) as Sb. cbn in Sb.
  unfold rollback_state. change (state_previous f) with (previous b) in *.
  apply wp_bind. rewrite Ep at 1. cbn [Z.eqb negb]. apply wp_ret.
  apply wp_bind. eapply (wp_balance_old _ _ _ _ _ _ _ _ Hs Ha); [done |].
  adds R1 (inv_weights _ Hs') (u128_neg (state_balance f)) w1 W1.
  cbn [Z.eqb negb]. apply wp_bind, wp_ret.
  step. apply wp_bind. eapply wp_mono;
    [eapply (wp_state_unpend f sg w); [exact Ha | exact Hex | reflexivity ..] |].
  intros _ t2 (Hr2 & Hd2). rewrite <- Ea.
  apply wp_bind. eapply wp_must; [apply (account_now _ _ _ _ _ _ _ _ Hs Ha); reflexivity |].
  step. apply wp_bind. eapply (wp_change_back _ _ _ _ _ _ _ _ Hs Ha); [now rewrite Eo | now rewrite Hd2 |].
  eapply finish_state_none; [exact Ha | done | exact Eo | cbn; rewrite ?Hd2; reflexivity .. | | | exact Hr2].
  - cbn. rewrite Hd2. exact W1.
  - intros r. cbv beta. rewrite R2, Eo, Sb. cbn [old_contribution]. destruct (_ =? _); lia.
Qed.


End Handler.

End Handlers.

(** ** The visitor and the loop *)

Section Loop.

Context `{Env} (s : store) (t : lstate) (b : block) (sb : sideband) (a : Z)
  (old : option account_info) (new : account_info) (c : pending_change).
Context (Hs : inv s) (Ha : appended s b sb a old new c (db t)) (Hex : explains s b a old c).
Context (Hg : block_get_full s genesis_account = None) (He : block_get_full s epoch_link = None).

Lemma rollback_block_ok (n : nat) (back : Z -> M unit) :
  wp (rollback_block (S n) back b) t (undid s t).
Proof.
  clear - Hs Ha Hex Hg He. destruct b; cbn [rollback_block].
  - exact (rollback_send_ok _ _ _ _ _ _ _ _ _ Hs _ _ _ Ha Hex).
  - exact (rollback_receive_ok _ _ _ _ _ _ _ Hs Hg _ _ _ Ha Hex).
  - exact (rollback_open_ok _ _ _ _ _ _ _ Hs Hg _ _ _ Ha Hex).
  - exact (rollback_change_ok _ _ _ _ _ _ _ Hs _ _ _ Ha Hex).
  - case_eq old; [intros i Ei | intros Ei].
    + exact (rollback_state_some_ok _ _ _ _ _ _ _ _ _ Hs He _ _ _ _ Ha Hex Ei).
    + exact (rollback_state_none_ok _ _ _ _ _ _ _ _ _ Hs He _ _ _ Ha Hex Ei).
Qed.

End Loop.

Section Rollback.

Context `{Env}.

(** The block was the last one: one iteration, with two more tests of the fuel. *)
Lemma rollback_last (n : nat) (s : store) (t : lstate) (b : block) (sb : sideband) (a : Z)
    (old : option account_info) (new : account_info) (c : pending_change) :
  inv s -> appended s b sb a old new c (db t) -> explains s b a old c ->
  block_get_full s genesis_account = None -> block_get_full s epoch_link = None ->
  wp (rollback (3 + n) (hash b)) t (fun _ t' => restored s (db t') /\ rolled t' = rolled t ++ [hash b]).
Proof.
  intros Hs Ha Hex Hg He. pose proof (append_inv _ _ _ _ _ _ _ _ Hs Ha) as Hs'.
  pose proof (ap_get_new _ _ _ _ _ _ _ _ Ha) as Hb.
  assert (Hx : block_exists (db t) (hash b) = true).
  { apply (exists_get _ (inv_blocks _ Hs')). eauto. }
  cbn [rollback Nat.add]. step. rewrite Hx. apply wp_bind, wp_assert; [done |]. apply wp_bind.
  eapply (wp_account _ _ _ _ _ _ _ _ Hs Ha); [done | exact Hb |].
  rewrite (proj1 (proj2 (ap_sideband _ _ _ _ _ _ _ _ Ha))).
  cbn [while_]. step. rewrite Hx. apply wp_bind. unfold rollback_head.
  need (account_now _ _ _ _ _ _ _ _ Hs Ha (db t) eq_refl).
  rewrite (fo_head _ _ _ (ap_new _ _ _ _ _ _ _ _ Ha)). step.
  set (t1 := mk_lstate (db t) (stats t) (result t) (rolled t ++ [hash b])).
  apply wp_bind. change (wp (push_rolled (hash b)) t) with (fun Q : unit -> lstate -> Prop => Q () t1).
  cbv beta. apply wp_bind. eapply wp_must; [rewrite block_get_get, Hb; reflexivity |].
  eapply wp_mono; [apply (rollback_block_ok s t1 b sb a old new c Hs Ha Hex Hg He) |].
  intros _ t' [Hr Hl]. apply wp_while_false; [| split; [exact Hr | exact Hl]].
  destruct (block_exists (db t') (hash b)) eqn:E; [exfalso | done].
  apply (exists_get _ (rs_blocks _ _ Hr)) in E as (x & E). rewrite (rs_get _ _ Hr) in E.
  now apply (ap_fresh _ _ _ _ _ _ _ _ Ha) in E.
Qed.

End Rollback.

End LedgerUndo.
