(* ===== verification/LedgerTheorems.v ===== *)
(** * The ledger: theorems

    The start-up store satisfies the invariant, [process] preserves it without a
    failed assertion, and what follows for every store reachable from start-up. *)

From stdpp Require Import base gmap list.
From Stdlib Require Import ZArith Lia.
From S2P Require Import Prelude Blocks Store Ledger LedgerInv LedgerAppend LedgerProcess LedgerRollback LedgerUndo.
Local Open Scope Z_scope.

Module LedgerTheorems.
Import Ledger.Ledger LedgerInv.LedgerInv LedgerAppend.LedgerAppend LedgerProcess.LedgerProcess
  LedgerRollback.LedgerRollback LedgerUndo.LedgerUndo.

Section StartUp.

Context `{BlockHash}.

(** ** Start-up *)

(** A genesis block: an open block of the genesis account that represents itself. *)
Definition genesis_ok (a : Z) (b : block) : Prop :=
  block_ok b /\ hash b <> 0 /\ a <> 0 /\ type b = bt_open /\ account b = a /\ representative b = a.

Lemma map_sum_singleton {K V : Type} `{Countable K} (f : V -> Z) (k : K) (v : V) :
  map_sum f {[k := v]} = f v.
Proof.
  unfold singletonM, map_singleton.
  rewrite map_sum_insert by apply lookup_empty. unfold map_sum. rewrite map_fold_empty. lia.
Qed.

Lemma initialize_tables (a t : Z) (b : block) : genesis_ok a b ->
  exists m, initialize (hash b) a t b = Some (mk_store m
      {[(epoch_0, a) := mk_account_info (hash b) (hash b) (hash b) (2 ^ 128 - 1) t 1 epoch_0]}
      ∅ {[a := 2 ^ 128 - 1]} {[hash b := a]}) /\
    extends empty_store (hash b) b (mk_sideband 0 a (2 ^ 128 - 1) 1 t) epoch_0 m.
Proof.
  intros (Hb & Hh & Ha & Ht & Hacc & Hrep). unfold initialize.
  destruct (block_put_spec empty_store b (mk_sideband 0 a (2 ^ 128 - 1) 1 t) epoch_0) as (m & -> & Hm);
    try done; [| exists m; split; [reflexivity | exact Hm]].
  split; [now left |]. left. destruct b; try discriminate Ht; auto.
Qed.

Lemma initialize_ok (a t : Z) (b : block) (s : store) :
  genesis_ok a b -> initialize (hash b) a t b = Some s -> inv s.
Proof.
  intros Hg E. destruct (initialize_tables a t b Hg) as (m & E' & Hm). rewrite E in E'.
  injection E' as ->. destruct Hg as (Hb & Hh & Ha & Ht & Hacc & Hrep), Hm as (Hok & G & V).
  set (x := (b, mk_sideband 0 a (2 ^ 128 - 1) 1 t) : entry) in *.
  set (i := mk_account_info (hash b) (hash b) (hash b) (2 ^ 128 - 1) t 1 epoch_0).
  assert (Hx : entry_account x = a /\ entry_balance x = 2 ^ 128 - 1 /\ previous b = 0).
  { unfold entry_account, entry_balance. cbn [fst snd x]. rewrite Hacc.
    destruct b; try discriminate Ht. split_and!; [now destruct (_ =? _) | reflexivity | reflexivity]. }
  destruct Hx as (Xa & Xb & Xp).
  set (s := mk_store m _ _ _ _).
  assert (G' : forall h, block_get_full s h = if h =? hash b then Some x else None).
  { intros h. change (block_get_full s h) with (block_get_full (set_blocks empty_store m) h). rewrite G.
    destruct (h =? hash b); [done |]. now destruct (h =? previous b). }
  assert (Hs : forall h y, block_get_full s h = Some y -> h = hash b /\ y = x).
  { intros h y. rewrite G'. destruct (Z.eqb_spec h (hash b)); [| done]. now intros [= <-]. }
  split; cbn [s accounts pending frontiers].
  - exact Hok.
  - intros h y [-> ->]%Hs. split; cbn [fst snd x sb_successor]; [| done | done].
    exists epoch_0, i. rewrite Xa. split; [apply lookup_insert_eq | done].
  - intros e a' j [[= <- <-] <-]%lookup_singleton_Some.
    split; cbn [i head rep_block open_block_hash balance ai_epoch].
    + split; [now left | reflexivity].
    + exact Ha.
    + lia.
    + cbn [i block_count]. lia.
    + exists x. rewrite G', Z.eqb_refl. cbn [fst snd x sb_successor sb_height]. rewrite Ht.
      split_and!; [done | exact Xb | exact Xa | done | done |]. apply lookup_insert_eq.
    + change (block_version s (hash b)) with (block_version (set_blocks empty_store m) (hash b)).
      now rewrite V, Z.eqb_refl.
    + apply (walk_here _ _ x); [now rewrite G', Z.eqb_refl |]. cbn [fst x].
      destruct b; try discriminate Ht; reflexivity.
    + exists x. rewrite G', Z.eqb_refl. split; [reflexivity | exact Xp].
  - intros e e' a' j j' [[= <- <-] _]%lookup_singleton_Some [E2 _]%lookup_singleton_Some. congruence.
  - intros h a' [<- <-]%lookup_singleton_Some. exists i. split; [apply lookup_insert_eq | done].
  - intros e a' h p Hp. now rewrite lookup_empty in Hp.
  - intros e e' k p p' Hp. now rewrite lookup_empty in Hp.
  - intros r. unfold weight_of. cbn [s accounts]. rewrite map_sum_singleton. unfold contribution, rep_of.
    cbn [rep_block i]. rewrite block_get_get, G', Z.eqb_refl. cbn [fmap option_fmap option_map fst x].
    rewrite Hrep, representation_get_default. cbn [representation s i balance].
    destruct (Z.eqb_spec a r) as [-> | Hne]; [now rewrite lookup_singleton_eq |].
    now rewrite lookup_singleton_ne.
  - unfold supply. cbn [s accounts pending]. rewrite map_sum_singleton. unfold map_sum.
    now rewrite map_fold_empty.
Qed.

End StartUp.

Section Theorems.

Context `{Env}.

(** ** One block *)

(** What a processed block did, given that it was processed. *)
Lemma process_cases (s : store) (b : block) (v : signature_verification) (r : process_return)
    (s' : store) : inv s -> admissible s b v -> process s b v = Done (r, s') ->
  code r <> progress /\ s' = s \/
  code r = progress /\ exists sb old new c, appended s b sb (r_account r) old new c s' /\
    explains s b (r_account r) old c /\ r_amount r = Z.abs (balance new - old_balance old).
Proof.
  intros Hs Ha E. destruct (process_settled s b v Hs Ha) as (r' & s1 & E' & Hc).
  rewrite E in E'. injection E' as <- <-.
  destruct Hc as [Hc | (Hc & sb & a & old & new & c & Hap & Hex & <- & Hamt)]; [now left | right].
  split; [done |]. eauto 8.
Qed.

(** C1: processing a well-formed block on a store that satisfies the invariant
    fails no assertion of the code, returns a result, and the store it leaves
    satisfies the invariant again. *)
Theorem process_preserves (s : store) (b : block) (v : signature_verification)
  (Hs : inv s) (Ha : admissible s b v) :
  exists r s', process s b v = Done (r, s') /\ inv s'.
Proof.
  destruct (process_settled s b v Hs Ha) as (r & s' & E & Hc). exists r, s'. split; [done |].
  destruct Hc as [[_ ->] | (_ & sb & a & old & new & c & Hap & _)]; [done |].
  exact (append_inv _ _ _ _ _ _ _ _ Hs Hap).
Qed.

(** A block that is not accepted changes no table. *)
Theorem process_rejected (s : store) (b : block) (v : signature_verification) (r : process_return)
  (s' : store) (Hs : inv s) (Ha : admissible s b v) (E : process s b v = Done (r, s'))
  (Hc : code r <> progress) : s' = s.
Proof. now destruct (process_cases _ _ _ _ _ Hs Ha E) as [[_ E'] | [Hc' _]]. Qed.

(** C6: an accepted block is stored under its hash and becomes the head of the
    account the result names, whose head it follows; every stored block stays;
    the account's balance moves by exactly the amount the result names. *)
Theorem process_accepted (s : store) (b : block) (v : signature_verification) (r : process_return)
  (s' : store) (Hs : inv s) (Ha : admissible s b v) (E : process s b v = Done (r, s'))
  (Hc : code r = progress) :
  block_get s' (hash b) = Some b /\ latest s' (r_account r) = hash b /\
  latest s (r_account r) = previous b /\
  (forall h b', block_get s h = Some b' -> block_get s' h = Some b') /\
  Z.abs (account_balance s' (r_account r) - account_balance s (r_account r)) = r_amount r.
Proof.
  destruct (process_cases _ _ _ _ _ Hs Ha E) as [[Hc' _] | (_ & sb & old & new & c & Hap & _ & Hamt)]; [done |].
  pose proof (append_inv _ _ _ _ _ _ _ _ Hs Hap) as Hs'.
  pose proof (account_get_entry s' Hs' _ _ _ (ap_account_new _ _ _ _ _ _ _ _ Hap)) as Hnew.
  destruct (ap_account _ _ _ _ _ _ _ _ Hap) as [_ Ho].
  pose proof (ap_prev _ _ _ _ _ _ _ _ Hap) as Hp.
  split_and!.
  - now rewrite block_get_get, (ap_get_new _ _ _ _ _ _ _ _ Hap).
  - unfold latest. rewrite Hnew. apply (ap_new _ _ _ _ _ _ _ _ Hap).
  - unfold latest. rewrite Ho, Hp. now destruct old.
  - intros h b'. rewrite !block_get_get. destruct (block_get_full s h) as [x |] eqn:Ex; [| done].
    destruct (ap_keep _ _ _ _ _ _ _ _ Hap _ _ Ex) as (n & ->). done.
  - unfold account_balance. rewrite Hnew, Ho, Hamt. now destruct old.
Qed.

(** C3: one successor per block: after a block is accepted, no other block with
    the same previous block is, so the balance it spent cannot be spent again. *)
Theorem no_double_spend (s s' s'' : store) (b b' : block) (v v' : signature_verification)
  (r r' : process_return) (Hs : inv s) (Ha : admissible s b v)
  (E : process s b v = Done (r, s')) (Hc : code r = progress) (Ha' : admissible s' b' v')
  (Hp : previous b' = previous b) (Hz : previous b <> 0)
  (E' : process s' b' v' = Done (r', s'')) : code r' <> progress.
Proof.
  intros Hc'. destruct (process_cases _ _ _ _ _ Hs Ha E) as [[Hn _] | (_ & sb & old & new & c & Hap & _)];
    [done |].
  pose proof (append_inv _ _ _ _ _ _ _ _ Hs Hap) as Hs'.
  destruct (process_cases _ _ _ _ _ Hs' Ha' E') as [[Hn _] | (_ & sb' & old' & new' & c' & Hap' & _)];
    [done |].
  destruct (ap_old _ _ _ _ _ _ _ _ Hs' Hap') as (i & x & _ & _ & _ & Hx & _ & _ & Sx & _); [congruence |].
  destruct (ap_old _ _ _ _ _ _ _ _ Hs Hap Hz) as (j & y & _ & _ & _ & Hy & _).
  rewrite Hp, (ap_get _ _ _ _ _ _ _ _ Hap), Z.eqb_refl, Hy in Hx.
  rewrite (proj2 (Z.eqb_neq _ _) (ap_fresh _ _ _ _ _ _ _ _ Hap _ _ Hy)) in Hx. injection Hx as <-.
  cbn in Sx. now destruct (ap_block _ _ _ _ _ _ _ _ Hap) as [Hh _].
Qed.

(** ** Known blocks *)

(** The stored block with the hash of a state block has its predecessor. *)
Lemma known_previous (s : store) (f : state_hashables) (sg w : Z) (v : signature_verification) :
  let b := state_block f sg w in
  inv s -> admissible s b v -> block_exists_type s bt_state (hash b) = true ->
  state_previous f = 0 \/ exists y, block_get_full s (state_previous f) = Some y.
Proof.
  intros b Hs Ha (x & Hx & Ht)%(exists_type_get s (inv_blocks _ Hs)).
  pose proof (get_hash s (inv_blocks _ Hs) _ _ Hx) as (_ & _ & Hok).
  pose proof (preimage_inj _ _ Hok (ad_ok _ _ _ Ha) (ad_collision _ _ _ Ha _ Hx)) as Hsame.
  destruct (Z.eq_dec (state_previous f) 0) as [| Hp]; [now left | right].
  destruct (ch_prev _ _ _ (inv_chain _ Hs _ _ Hx)) as (y & Hy & _).
  - destruct x.1; try discriminate Ht. cbn in Hsame. now subst.
  - exists y. destruct x.1; try discriminate Ht. cbn in Hsame. now subst.
Qed.

(** Ends with code [c] and the tables as they were. *)
Definition leaves (s : store) (c : process_result) : unit -> lstate -> Prop := fun _ s' =>
  code (result s') = c /\ db s' = s.

Lemma wp_check_false (c : bool) (o : process_result) (k : M unit) (s : lstate) :
  c = false -> wp (check c o k) s (leaves (db s) o).
Proof. intros ->. done. Qed.

Lemma known_state (f : state_hashables) (sg w : Z) (s : lstate) (v : signature_verification) :
  let b := state_block f sg w in
  inv (db s) -> admissible (db s) b v -> block_exists_type (db s) bt_state (hash b) = true ->
  wp (process_state f sg w) s (leaves (db s) old).
Proof.
  intros b Hs Ha He. pose proof (known_previous _ _ _ _ _ Hs Ha He) as Hp.
  assert (Hn : negb (block_exists_type (db s) (type b) (hash b)) = false) by (cbn [type b]; now rewrite He).
  unfold process_state. apply wp_bind, wp_modify. apply wp_bind.
  apply wp_mono with (Q := fun _ s' => code (result s') = progress /\ db s' = db s).
  - destruct (negb (epoch_link =? 0) && _); [| now apply wp_ret]. apply wp_bind.
    destruct (Z.eqb_spec (state_previous f) 0) as [E0 | E0]; cbn [negb]; [now apply wp_ret, wp_ret |].
    destruct Hp as [Hp | (y & Hy)]; [done |]. apply wp_bind, wp_reads.
    rewrite (proj2 (exists_get _ (inv_blocks _ Hs) _)) by eauto. apply wp_bind, wp_modify.
    eapply wp_ledger_balance; [done | |]; [cbn; rewrite block_balance_get, Hy; done |]. now apply wp_ret.
  - intros ie s' [Hc E]. apply wp_bind, wp_get_result. rewrite bool_decide_eq_true_2 by done.
    destruct ie; [unfold epoch_block_impl | unfold state_block_impl]; apply wp_bind, wp_reads;
      rewrite <- E in *; now apply wp_check_false.
Qed.

(** A block that is already stored is reported as old, and changes nothing. *)
Theorem process_known (s : store) (b : block) (v : signature_verification)
  (Hs : inv s) (Ha : admissible s b v) (He : block_exists_type s (type b) (hash b) = true) :
  exists r, process s b v = Done (r, s) /\ code r = old.
Proof.
  assert (Hw : wp (process_block b) (mk_lstate s [] (initial_result v) []) (leaves s old)).
  { destruct b; [unfold process_block, process_send | unfold process_block, process_receive
      | unfold process_block, process_open | unfold process_block, process_change
      | exact (known_state _ _ _ (mk_lstate s _ _ _) v Hs Ha He)];
      apply wp_bind, wp_reads; apply (wp_check_false _ _ _ (mk_lstate s _ _ _)); cbn [db];
      rewrite He; reflexivity. }
  unfold wp, process in *. destruct (process_block _ _) as [[[] s'] | |]; [| done | done].
  destruct Hw as [Hc <-]. exists (result s'). done.
Qed.

(** ** Rolling back *)

(** The block that was just accepted is rolled back. *)
Lemma rollback_accepted (s : store) (b : block) (v : signature_verification)
  (r : process_return) (t : lstate) (n : nat) (Hs : inv s) (Ha : admissible s b v)
  (E : process s b v = Done (r, db t)) (Hc : code r = progress)
  (Hg : block_get_full s genesis_account = None) (He : block_get_full s epoch_link = None) :
  exists t', rollback (3 + n) (hash b) t = Done (tt, t') /\ restored s (db t') /\ inv (db t') /\
    rolled t' = rolled t ++ [hash b].
Proof.
  destruct (process_cases _ _ _ _ _ Hs Ha E) as [[Hn _] | (_ & sb & old & new & c & Hap & Hex & _)]; [done |].
  pose proof (rollback_last n s t b sb _ old new c Hs Hap Hex Hg He) as Hw. unfold wp in Hw.
  destruct (rollback (3 + n) (hash b) t) as [[[] t'] | |]; [| done | done]. destruct Hw as [Hr Hl].
  exists t'. pose proof (restored_inv _ _ Hs Hr). done.
Qed.

(** C5: rolling back the block that was just accepted fails no assertion, ends
    with three units of fuel, rolls back that block alone and restores every
    table: the blocks, the account records up to the time of modification, the
    pending entries, the vote weights and the frontiers; the invariant holds
    again.  The two lookups rule out that a block's hash is the number of the
    genesis account or of the epoch link, which the code tests before it looks
    the block up. *)
Theorem rollback_undoes_process (s : store) (b : block) (v : signature_verification)
  (r : process_return) (t : lstate) (n : nat) (Hs : inv s) (Ha : admissible s b v)
  (E : process s b v = Done (r, db t)) (Hc : code r = progress)
  (Hg : block_get_full s genesis_account = None) (He : block_get_full s epoch_link = None) :
  exists t', rollback (3 + n) (hash b) t = Done (tt, t') /\ restored s (db t') /\ inv (db t') /\
    rolled t' = rolled t ++ [hash b].
Proof. exact (rollback_accepted s b v r t n Hs Ha E Hc Hg He). Qed.

(** ** Reachable stores *)

Inductive reachable (s0 : store) : store -> Prop :=
| reach_start : reachable s0 s0
| reach_step (s s' : store) (b : block) (v : signature_verification) (r : process_return) :
    reachable s0 s -> admissible s b v -> process s b v = Done (r, s') -> reachable s0 s'.

Lemma reachable_inv (s0 s : store) : inv s0 -> reachable s0 s -> inv s.
Proof.
  intros H0. induction 1 as [| s s' b v r Hr IH Ha E]; [done |].
  destruct (process_cases _ _ _ _ _ IH Ha E) as [[_ ->] | (_ & sb & old & new & c & Hap & _)]; [done |].
  exact (append_inv _ _ _ _ _ _ _ _ IH Hap).
Qed.

(** C2: in every store reachable from start-up by processing blocks, the
    balances and the pending amounts add up to the genesis amount: no block
    creates or destroys coins. *)
Theorem supply_conserved (b0 : block) (s0 s : store) (Hg : genesis_ok genesis_account b0)
  (E : initialize (hash b0) genesis_account now b0 = Some s0) (Hr : reachable s0 s) :
  supply s = genesis_amount.
Proof. exact (inv_supply _ (reachable_inv _ _ (initialize_ok _ _ _ _ Hg E) Hr)). Qed.

(** C4: in every reachable store the representation table, which is kept by
    wrapping additions, holds for each representative the exact sum of the
    balances of the accounts that chose it. *)
Theorem representation_exact (b0 : block) (s0 s : store) (a : Z) (Hg : genesis_ok genesis_account b0)
  (E : initialize (hash b0) genesis_account now b0 = Some s0) (Hr : reachable s0 s) :
  representation_get s a = weight_of s a /\ weight_of s a <= genesis_amount.
Proof.
  pose proof (reachable_inv _ _ (initialize_ok _ _ _ _ Hg E) Hr) as Hs.
  split; [apply (inv_weight _ Hs) |].
  pose proof (weight_range s a (balance_nonneg _ Hs) (pending_nonneg _ Hs) (inv_supply _ Hs)).
  unfold genesis_amount. lia.
Qed.

(** ** Queries *)

Lemma account_exists_get (s : store) (a : Z) :
  account_exists s a = true -> exists i, account_get s a = Some i.
Proof.
  unfold account_exists, account_get. destruct (accounts s !! (epoch_1, a)); [eauto |].
  destruct (accounts s !! (epoch_0, a)); [eauto | done].
Qed.

(** On a store that satisfies the invariant, the query for the successor of a
    root fails no assertion: it finds the account's first block, the block's
    successor, or nothing. *)
Theorem successor_total (s : lstate) (p a : Z) (Hs : inv (db s)) :
  exists o, successor p a s = Done (o, s) /\
    (forall b, o = Some b -> previous b = p /\ exists h, block_get (db s) h = Some b).
Proof.
  enough (Hw : wp (successor p a) s (fun o s' => s' = s /\ forall b, o = Some b ->
    previous b = p /\ exists h, block_get (db s) h = Some b)).
  { unfold wp in Hw. destruct (successor p a s) as [[o s'] | |]; [| done | done].
    destruct Hw as [-> Hb]. eauto. }
  unfold successor. apply wp_bind, wp_reads. apply wp_bind.
  apply wp_mono with (Q := fun next s' => s' = s /\
    (next = 0 \/ exists x, block_get_full (db s) next = Some x /\ previous x.1 = p)).
  - destruct (Z.eqb_spec p 0) as [-> | Hp]; cbn [andb].
    + destruct (account_exists (db s) a) eqn:Ea; cbn [andb].
      * destruct (account_exists_get _ _ Ea) as (i & Hi). apply wp_bind.
        eapply wp_needs; [exact Hi |]. apply wp_ret. split; [done |]. right.
        apply (account_get_some _ Hs) in Hi. exact (ao_open _ _ _ _ (inv_account _ Hs _ _ _ Hi)).
      * apply wp_reads. split; [done |]. left. rewrite block_successor_get.
        destruct (block_get_full (db s) 0) as [x |] eqn:E0; [| done].
        now apply (get_nonzero _ Hs) in E0.
    + apply wp_reads. split; [done |]. rewrite block_successor_get.
      destruct (block_get_full (db s) p) as [x |] eqn:Ex; [| now left].
      destruct (Z.eq_dec (sb_successor x.2) 0) as [E0 | E0]; [now left | right].
      exact (ch_next _ _ _ (inv_chain _ Hs _ _ Ex) E0).
  - intros next s' [-> Hn]. apply wp_bind. destruct Hn as [-> | (x & Hx & Px)].
    + apply wp_ret, wp_bind, wp_ret, wp_ret. done.
    + pose proof (get_nonzero _ Hs _ _ Hx) as Hz. apply Z.eqb_neq in Hz as ->. apply wp_reads.
      rewrite block_get_get, Hx. apply wp_bind, wp_ret, wp_ret. split; [done |]. intros b [= <-].
      split; [done |]. exists next. now rewrite block_get_get, Hx.
Qed.

End Theorems.

(** ** A concrete ledger *)

(** Hashes that are the preimages modulo a prime, and signatures that always check. *)
Definition demo_env : Env := {|
  env_hash := fun b => 1 + be_val (preimage b) mod (2 ^ 255 - 19);
  validate_message := fun _ _ _ => false;
  epoch_link := 7; epoch_signer := 9; genesis_account := 1; now := 0 |}.

#[local] Existing Instance demo_env.

Definition demo_genesis : block := open_block (mk_open 1 1 1) 0 0.
Definition demo_send : block := send_block (mk_send (hash demo_genesis) 5 1000) 0 0.
Definition demo_fork : block := send_block (mk_send (hash demo_genesis) 6 0) 0 0.

Definition store_of (o : option store) : store := match o with Some s => s | None => empty_store end.
Definition after (s : store) (b : block) : store :=
  match process s b sv_unknown with Done (_, s') => s' | _ => s end.
Definition result_of (s : store) (b : block) : process_return :=
  match process s b sv_unknown with Done (r, _) => r | _ => initial_result sv_unknown end.

Definition demo_start : store := store_of (initialize (hash demo_genesis) 1 0 demo_genesis).
Definition demo_sent : store := after demo_start demo_send.

Lemma demo_genesis_ok : genesis_ok 1 demo_genesis.
Proof. split; [concrete_block_ok | repeat split; vm_compute; discriminate]. Qed.

Lemma demo_start_inv : inv demo_start.
Proof. apply (initialize_ok 1 0 demo_genesis); [exact demo_genesis_ok | reflexivity]. Qed.

Lemma demo_admissible (s : store) (b : block) :
  block_ok b -> hash b <> 0 -> block_get_full s (hash b) = None -> type b <> bt_state ->
  admissible s b sv_unknown.
Proof. intros H1 H2 H3 H4. split; try done. intros x Hx. congruence. Qed.

Lemma demo_send_ok : admissible demo_start demo_send sv_unknown.
Proof. apply demo_admissible;
  [concrete_block_ok | vm_compute; discriminate | vm_compute; reflexivity | discriminate]. Qed.

Lemma demo_fork_ok : admissible demo_sent demo_fork sv_unknown.
Proof. apply demo_admissible;
  [concrete_block_ok | vm_compute; discriminate | vm_compute; reflexivity | discriminate]. Qed.

Lemma process_preserves_witness : exists r s',
  process demo_start demo_send sv_unknown = Done (r, s') /\ inv s'.
Proof. exact (process_preserves demo_start demo_send sv_unknown demo_start_inv demo_send_ok). Defined.

Lemma demo_done (s : store) (b : block) : inv s -> admissible s b sv_unknown ->
  process s b sv_unknown = Done (result_of s b, after s b).
Proof.
  intros Hs Ha. destruct (process_settled s b sv_unknown Hs Ha) as (r & s' & E & _).
  unfold result_of, after. now rewrite E.
Qed.

Lemma demo_sent_done : process demo_start demo_send sv_unknown = Done (result_of demo_start demo_send, demo_sent).
Proof. exact (demo_done _ _ demo_start_inv demo_send_ok). Qed.

Lemma demo_sent_inv : inv demo_sent.
Proof.
  destruct (process_cases _ _ _ _ _ demo_start_inv demo_send_ok demo_sent_done) as
    [[_ ->] | (_ & sb & old & new & c & Hap & _)]; [exact demo_start_inv |].
  exact (append_inv _ _ _ _ _ _ _ _ demo_start_inv Hap).
Qed.

Lemma process_rejected_witness : after demo_sent demo_fork = demo_sent.
Proof.
  apply (process_rejected demo_sent demo_fork sv_unknown (result_of demo_sent demo_fork)
    (after demo_sent demo_fork) demo_sent_inv demo_fork_ok (demo_done _ _ demo_sent_inv demo_fork_ok)).
  vm_compute. discriminate.
Defined.

Lemma process_accepted_witness : block_get demo_sent (hash demo_send) = Some demo_send /\
  latest demo_sent (r_account (result_of demo_start demo_send)) = hash demo_send.
Proof.
  assert (Hc : code (result_of demo_start demo_send) = progress) by (vm_compute; reflexivity).
  destruct (process_accepted demo_start demo_send sv_unknown (result_of demo_start demo_send) demo_sent
    demo_start_inv demo_send_ok demo_sent_done Hc) as (E1 & E2 & _). exact (conj E1 E2).
Defined.

Lemma no_double_spend_witness : code (result_of demo_sent demo_fork) <> progress.
Proof.
  assert (Hc : code (result_of demo_start demo_send) = progress) by (vm_compute; reflexivity).
  apply (no_double_spend demo_start demo_sent (after demo_sent demo_fork) demo_send demo_fork
    sv_unknown sv_unknown (result_of demo_start demo_send) (result_of demo_sent demo_fork)
    demo_start_inv demo_send_ok demo_sent_done Hc demo_fork_ok eq_refl);
    [vm_compute; discriminate | exact (demo_done _ _ demo_sent_inv demo_fork_ok)].
Defined.

Lemma process_known_witness : exists r, process demo_start demo_genesis sv_unknown = Done (r, demo_start) /\
  code r = old.
Proof.
  apply (process_known demo_start demo_genesis sv_unknown demo_start_inv); [| vm_compute; reflexivity].
  split; [apply demo_genesis_ok | apply demo_genesis_ok | | discriminate | discriminate | discriminate].
  intros x Hx. assert (E : option_map fst (block_get_full demo_start (hash demo_genesis)) = Some demo_genesis)
    by (vm_compute; reflexivity). rewrite Hx in E. cbn [option_map] in E. congruence.
Defined.

Lemma rollback_undoes_process_witness : exists t',
  rollback 3 (hash demo_send) (mk_lstate demo_sent [] (initial_result sv_unknown) []) = Done (tt, t') /\
  restored demo_start (db t') /\ inv (db t') /\ rolled t' = [hash demo_send].
Proof.
  assert (Hc : code (result_of demo_start demo_send) = progress) by (vm_compute; reflexivity).
  apply (rollback_undoes_process demo_start demo_send sv_unknown (result_of demo_start demo_send)
    (mk_lstate demo_sent [] (initial_result sv_unknown) []) 0 demo_start_inv demo_send_ok demo_sent_done Hc);
    vm_compute; reflexivity.
Defined.

(** ** An epoch block that opens an account must have no previous block *)

(** The genesis account sends everything it has; the next block, signed by the
    epoch signer, is for an account that is not open and names that send as its
    previous block. *)
Definition demo_spent : store := after demo_start demo_fork.
Definition demo_epoch : block := state_block (mk_state 5 (hash demo_fork) 0 0 7) 0 0.

Lemma demo_spent_ok : admissible demo_start demo_fork sv_unknown.
Proof. apply demo_admissible;
  [concrete_block_ok | vm_compute; discriminate | vm_compute; reflexivity | discriminate]. Qed.

(** [ad_opens] of [admissible] is not implied by the code: on a store that
    satisfies the invariant, a well-formed epoch block for an account that is not
    open, with a previous block of balance zero, passes the checks of
    [epoch_block_impl] and fails the assertion of [change_latest]. *)
Theorem epoch_open_unguarded :
  inv demo_spent /\ block_ok demo_epoch /\ account_get demo_spent (account demo_epoch) = None /\
  process demo_spent demo_epoch sv_unknown = Failed.
Proof.
  split; [| split; [concrete_block_ok | split; vm_compute; reflexivity]].
  destruct (process_cases _ _ _ _ _ demo_start_inv demo_spent_ok (demo_done _ _ demo_start_inv demo_spent_ok))
    as [[_ E] | (_ & sb & old & new & c & Hap & _)].
  - unfold demo_spent. rewrite E. exact demo_start_inv.
  - exact (append_inv _ _ _ _ _ _ _ _ demo_start_inv Hap).
Qed.

Lemma demo_reachable : reachable demo_start demo_sent.
Proof.
  eapply (reach_step demo_start demo_start _ demo_send sv_unknown (result_of demo_start demo_send));
    [constructor | exact demo_send_ok | exact demo_sent_done].
Qed.

Lemma supply_conserved_witness : supply demo_sent = genesis_amount.
Proof.
  exact (supply_conserved demo_genesis demo_start demo_sent demo_genesis_ok eq_refl demo_reachable).
Defined.

Lemma representation_exact_witness : representation_get demo_sent 1 = weight_of demo_sent 1 /\
  weight_of demo_sent 1 <= genesis_amount.
Proof.
  exact (representation_exact demo_genesis demo_start demo_sent 1 demo_genesis_ok eq_refl demo_reachable).
Defined.

Lemma successor_total_witness :
  exists o, successor (hash demo_genesis) 1 (mk_lstate demo_sent [] (initial_result sv_unknown) []) =
      Done (o, mk_lstate demo_sent [] (initial_result sv_unknown) []) /\
    (forall b, o = Some b -> previous b = hash demo_genesis /\ exists h, block_get demo_sent h = Some b).
Proof.
  exact (successor_total (mk_lstate demo_sent [] (initial_result sv_unknown) []) (hash demo_genesis) 1
    demo_sent_inv).
Defined.

End LedgerTheorems.
