(* ===== verification/LedgerOutcome.v ===== *)
(** * The ledger: what a result means

    [LedgerProcess] shows that a block is rejected without a change or appended.
    The callers of [process] also read why it was rejected: a gap says which block
    to wait for, a fork says that another block has the place, and the status of the
    signature is kept with a block that waits.  This file proves that these answers
    are right, by partial-correctness rules for the handlers: [post] follows the code
    and the status a computation ends with. *)

From stdpp Require Import base gmap list.
From Stdlib Require Import ZArith Lia.
From S2P Require Import Prelude Blocks Store Ledger LedgerInv LedgerAppend LedgerProcess LedgerTheorems.
Local Open Scope Z_scope.

Module LedgerOutcome.
Import Ledger.Ledger LedgerInv.LedgerInv LedgerProcess.LedgerProcess.
Module LT := LedgerTheorems.LedgerTheorems.

(** ** Rules *)

Definition post {A : Type} (m : M A) (s : lstate) (Q : process_result -> signature_verification -> Prop) : Prop :=
  forall x s', m s = Done (x, s') -> Q (code (result s')) (verified (result s')).

(** The computations that leave code and status alone. *)
Definition keeps {A : Type} (m : M A) : Prop :=
  forall s x s', m s = Done (x, s') -> code (result s') = code (result s) /\ verified (result s') = verified (result s).

Section Rules.

Implicit Types (s : lstate) (Q : process_result -> signature_verification -> Prop).

Lemma post_keeps {A : Type} (m : M A) s Q : keeps m -> Q (code (result s)) (verified (result s)) -> post m s Q.
Proof. intros K HQ x s' E. destruct (K s x s' E) as [-> ->]. exact HQ. Qed.

(** A first step that yields values and leaves the state alone. *)
Definition yields {A : Type} (m : M A) s (P : A -> Prop) : Prop := forall x s', m s = Done (x, s') -> s' = s /\ P x.

Lemma post_yields {A B : Type} (m : M A) (k : A -> M B) s (P : A -> Prop) Q :
  yields m s P -> (forall x, P x -> post (k x) s Q) -> post (m ≫= k) s Q.
Proof.
  intros Y K y s' E. unfold mbind, M_bind in E. destruct (m s) as [[x s1] | |] eqn:Em; [| done | done].
  destruct (Y x s1 Em) as [-> Hx]. exact (K x Hx y s' E).
Qed.

Lemma post_reads {A B : Type} (f : store -> A) (k : A -> M B) s Q :
  post (k (f (db s))) s Q -> post (reads f ≫= k) s Q.
Proof. intros K y s' E. exact (K y s' E). Qed.

Lemma post_must {A B : Type} (o : option A) (k : A -> M B) s Q :
  (forall x, o = Some x -> post (k x) s Q) -> post (must o ≫= k) s Q.
Proof. intros K. apply (post_yields _ _ _ (fun x => o = Some x)); [| exact K]. intros x s'. destruct o; [now intros [= -> ->] | done]. Qed.

Lemma post_needs {A B : Type} (f : store -> option A) (k : A -> M B) s Q :
  (forall x, f (db s) = Some x -> post (k x) s Q) -> post (needs f ≫= k) s Q.
Proof.
  intros K. apply (post_yields _ _ _ (fun x => f (db s) = Some x)); [| exact K].
  intros x s'. unfold needs, mbind, M_bind, reads, must. destruct (f (db s)); [now intros [= -> ->] | done].
Qed.

Lemma post_assert {B : Type} (c : bool) (k : unit -> M B) s Q :
  (c = true -> post (k ()) s Q) -> post (assert c ≫= k) s Q.
Proof. intros K. apply (post_yields _ _ _ (fun _ => c = true)); [| intros []; exact K]. intros [] s'. destruct c; [now intros [= ->] | done]. Qed.

Lemma post_modify {B : Type} (f : process_return -> process_return) (k : unit -> M B) s Q :
  post (k ()) (set_result s (f (result s))) Q -> post (modify f ≫= k) s Q.
Proof. intros K y s' E. exact (K y s' E). Qed.

Lemma post_set_code (c : process_result) s Q : Q c (verified (result s)) -> post (set_code c) s Q.
Proof. intros HQ x s' [= _ <-]. exact HQ. Qed.

Lemma post_check (c : bool) (o : process_result) (k : M unit) s Q :
  (c = false -> Q o (verified (result s))) ->
  (c = true -> forall r, code r = progress -> verified r = verified (result s) -> post k (set_result s r) Q) ->
  post (check c o k) s Q.
Proof.
  intros HF HT. unfold check. apply post_modify. destruct c.
  - apply HT; done.
  - intros x s' [= _ <-]. cbn. now apply HF.
Qed.

End Rules.

Section Environment.

Context `{Env}.

Implicit Types (s : lstate) (Q : process_result -> signature_verification -> Prop).

Lemma post_check_signature (v : signature_verification) (a h sg : Z) (k : M unit) s Q :
  Q bad_signature (verified (result s)) ->
  (validate_message a h sg = false -> forall r, code r = progress -> verified r = v -> post k (set_result s r) Q) ->
  post (check_signature v a h sg k) s Q.
Proof.
  intros HB HG. unfold check_signature. change (get_result ≫= ?k) with (fun s => k (result s) s). cbv beta.
  intros x s' E. revert x s' E. match goal with |- forall x s', ?m s = Done _ -> _ => change (post (fun t => m s) s Q) end.
  set (i := negb _ && _). change (post (set_code (if i then bad_signature else progress) ≫= fun _ => if i then mret () else
    assert (negb (validate_message a h sg));; set_verified v;; k) s Q).
  apply post_modify. destruct i.
  - intros x s' [= _ <-]. exact HB.
  - apply post_assert. intros Hv%negb_true_iff. apply post_modify. now apply HG.
Qed.

(** ** What keeps code and status *)

Lemma keeps_bind {A B : Type} (m : M A) (k : A -> M B) : keeps m -> (forall x, keeps (k x)) -> keeps (m ≫= k).
Proof.
  intros Hm Hk s y s' E. unfold mbind, M_bind in E. destruct (m s) as [[x s1] | |] eqn:Em; [| done | done].
  destruct (Hm _ _ _ Em) as [<- <-]. exact (Hk x _ _ _ E).
Qed.

Lemma keeps_ret {A : Type} (x : A) : keeps (mret x : M A).
Proof. now intros s y s' [= <- <-]. Qed.

Lemma keeps_reads {A : Type} (f : store -> A) : keeps (reads f).
Proof. now intros s y s' [= <- <-]. Qed.

Lemma keeps_must {A : Type} (o : option A) : keeps (must o).
Proof. destruct o; [apply keeps_ret | done]. Qed.

Lemma keeps_needs {A : Type} (f : store -> option A) : keeps (needs f).
Proof. apply keeps_bind; [apply keeps_reads | intros; apply keeps_must]. Qed.

Lemma keeps_assert (c : bool) : keeps (assert c).
Proof. destruct c; [apply keeps_ret | done]. Qed.

Lemma keeps_writes (f : store -> option store) : keeps (writes f).
Proof. intros s y s'. unfold writes. destruct (f (db s)); [now intros [= <- <-] | done]. Qed.

Lemma keeps_puts (f : store -> store) : keeps (puts f).
Proof. apply keeps_writes. Qed.

Lemma keeps_stat (t : stat_type) (d : stat_detail) : keeps (stat_inc t d).
Proof. now intros s y s' [= <- <-]. Qed.

Lemma keeps_modify (f : process_return -> process_return) :
  (forall r, code (f r) = code r /\ verified (f r) = verified r) -> keeps (modify f).
Proof. intros Hf s y s' [= <- <-]. apply Hf. Qed.

End Environment.

Create HintDb keeping.
#[export] Hint Resolve keeps_bind keeps_ret keeps_reads keeps_must keeps_needs keeps_assert keeps_writes keeps_puts keeps_stat : keeping.
#[export] Hint Extern 2 (keeps (modify _)) => apply keeps_modify; intros; split; reflexivity : keeping.
#[export] Hint Extern 1 (keeps (match ?x with _ => _ end)) => destruct x : keeping.
#[export] Hint Extern 3 (keeps _) => progress (unfold set_account, set_amount, set_pending_account, set_is_send,
  change_latest, frontier_drop, ledger_balance, state_commit) : keeping.

Ltac keeping := intros; eauto 60 with keeping.

Section Outcomes.

Context `{Env}.

Lemma keeps_change_latest (a h rb bal count : Z) (e : epoch) : keeps (change_latest a h rb bal count e).
Proof. keeping. Qed.

Lemma keeps_state_commit (f : state_hashables) (sg w : Z) (i : account_info) (is_send : bool) (amt : Z) (e : epoch) :
  keeps (state_commit f sg w i is_send amt e).
Proof. keeping. Qed.

(** ** The answers *)

(** A state block whose predecessor is in the chain of another account. *)
Definition foreign (s : store) (b : block) : Prop :=
  type b = bt_state /\ exists x, block_get_full s (previous b) = Some x /\ entry_account x <> account b.

Definition source_of (b : block) : Z := match b with state_block f _ _ => state_link f | _ => source b end.

(** The status a result carries is the one given, or one that was checked. *)
Definition status_ok (s : store) (b : block) (v v' : signature_verification) : Prop :=
  (v' = sv_valid -> v = sv_valid \/ reaches_signature s b = true /\
     validate_message (signer s b) (hash b) (block_signature b) = false) /\
  (v' = sv_valid_epoch -> v = sv_valid_epoch \/ validate_message epoch_signer (hash b) (block_signature b) = false).

(** A gap names a block that is not there, a fork has another block, and an old block
    is stored. *)
Definition gap_source_ok (s : store) (b : block) : Prop :=
  source_exists s (source_of b) = false /\
  (previous b = 0 \/ exists x, block_get_full s (previous b) = Some x /\
     forall f sg w, b = state_block f sg w -> entry_balance x <= state_balance f).

Definition fork_ok (s : store) (b : block) : Prop :=
  block_exists_type s (type b) (hash b) = false /\
  (foreign s b \/ is_Some (account_get s (root b)) \/
   exists x y, block_get_full s (root b) = Some x /\ block_get_full s (sb_successor x.2) = Some y).

Definition answer_ok (s : store) (b : block) (c : process_result) : Prop :=
  match c with
  | gap_previous => block_get_full s (previous b) = None \/ foreign s b
  | gap_source => gap_source_ok s b
  | fork => fork_ok s b
  | old => block_exists_type s (type b) (hash b) = true
  | _ => True
  end.

Definition answers (s : store) (b : block) (v : signature_verification) (c : process_result)
    (v' : signature_verification) : Prop := status_ok s b v v' /\ answer_ok s b c.

Lemma status_same (s : store) (b : block) (v : signature_verification) : status_ok s b v v.
Proof. split; auto. Qed.

Lemma status_valid (s : store) (b : block) (v : signature_verification) : reaches_signature s b = true ->
  validate_message (signer s b) (hash b) (block_signature b) = false -> status_ok s b v sv_valid.
Proof. split; [auto | done]. Qed.

Lemma status_epoch (s : store) (b : block) (v : signature_verification) :
  validate_message epoch_signer (hash b) (block_signature b) = false -> status_ok s b v sv_valid_epoch.
Proof. split; [done | auto]. Qed.

(** A stored block that is not the head of its chain has a successor. *)
Lemma successor_stored (s : store) (h : Z) (x : entry) : inv s -> block_get_full s h = Some x ->
  (forall e i, accounts s !! (e, entry_account x) = Some i -> head i <> h) ->
  exists y, block_get_full s (sb_successor x.2) = Some y.
Proof.
  intros Hs Hx Hn. destruct (inv_chain _ Hs _ _ Hx) as [(e & i & Hi & Hh & _) _ Hnext].
  destruct (Z.eq_dec (sb_successor x.2) 0) as [E | E]; [| destruct (Hnext E) as (y & Hy & _); eauto].
  now destruct (Hn e i Hi (Hh E)).
Qed.

Lemma legacy_fork (s : store) (h : Z) (x : entry) : inv s -> block_get_full s h = Some x ->
  legacy_type (type x.1) = true -> frontier_get s h = 0 -> exists y, block_get_full s (sb_successor x.2) = Some y.
Proof.
  intros Hs Hx Hl Hf. apply (successor_stored s h x Hs Hx). intros e i Hi Eh.
  destruct (ao_head _ _ _ _ (inv_account _ Hs _ _ _ Hi)) as (x' & Hx' & _ & _ & _ & _ & Fr).
  rewrite Eh in *. rewrite Hx in Hx'. injection Hx' as <-. rewrite Hl in Fr.
  unfold frontier_get in Hf. rewrite Fr in Hf. exact (ao_nonzero _ _ _ _ (inv_account _ Hs _ _ _ Hi) Hf).
Qed.

Lemma block_get_some (s : store) (h : Z) (b : block) : block_get s h = Some b ->
  exists x, block_get_full s h = Some x /\ x.1 = b.
Proof. rewrite block_get_get. destruct (block_get_full s h) as [x |]; [| done]. intros [= <-]. eauto. Qed.

Lemma block_get_none (s : store) (h : Z) : present (block_get s h) = false -> block_get_full s h = None.
Proof. rewrite block_get_get. now destruct (block_get_full s h). Qed.

End Outcomes.

Section Handlers.

Context `{Env} (d : store) (b : block) (v : signature_verification) (Hd : inv d).

(** On the way: the tables are as they were and the status is right. *)
Definition on_way (s : lstate) : Prop := db s = d /\ status_ok d b v (verified (result s)).

Notation good := (answers d b v).

Lemma way_judge (c : bool) (o : process_result) (k : M unit) (s : lstate) : on_way s ->
  (c = false -> answer_ok d b o) ->
  (c = true -> forall s', on_way s' -> code (result s') = progress -> post k s' good) -> post (check c o k) s good.
Proof.
  intros [E S] HF HT. apply post_check; [intros Hc; split; auto |]. intros Hc r Er Ev. apply HT; [done | | done].
  split; [done |]. cbn. now rewrite Ev.
Qed.

Lemma way_reads {A B : Type} (f : store -> A) (k : A -> M B) (s : lstate) : on_way s ->
  post (k (f d)) s good -> post (reads f ≫= k) s good.
Proof. intros [E _] K. apply post_reads. now rewrite E. Qed.

Lemma way_needs {A B : Type} (f : store -> option A) (k : A -> M B) (s : lstate) : on_way s ->
  (forall x, f d = Some x -> post (k x) s good) -> post (needs f ≫= k) s good.
Proof. intros [E _] K. apply post_needs. now rewrite E. Qed.

Lemma way_signed (u : signature_verification) (a : Z) (k : M unit) (s : lstate) : on_way s ->
  (validate_message a (hash b) (block_signature b) = false -> status_ok d b v u) ->
  (forall s', on_way s' -> code (result s') = progress -> post k s' good) ->
  post (check_signature u a (hash b) (block_signature b) k) s good.
Proof.
  intros [E S] Hu HT. apply post_check_signature; [split; [exact S | exact I] |]. intros Hv r Er Ev.
  apply HT; [| done]. split; [done |]. cbn. rewrite Ev. auto.
Qed.

Lemma way_keeps {A : Type} (m : M A) (s : lstate) : on_way s -> keeps m -> code (result s) = progress -> post m s good.
Proof. intros [_ S] K Hc. apply post_keeps; [exact K |]. rewrite Hc. split; [exact S | exact I]. Qed.

Lemma way_modify {B : Type} (f : process_return -> process_return) (k : unit -> M B) (s : lstate) : on_way s ->
  verified (f (result s)) = verified (result s) ->
  (forall s', on_way s' -> code (result s') = code (f (result s)) -> post (k ()) s' good) -> post (modify f ≫= k) s good.
Proof. intros [E S] Hv K. apply post_modify, K; [| done]. split; [done |]. cbn. now rewrite Hv. Qed.

End Handlers.

Ltac look := eapply way_reads; [eassumption |].
Ltac judged H := eapply way_judge; [eassumption | intros H; try exact I | intros H; let s := fresh "s" in
  let Hw := fresh "Hw" in let Hc := fresh "Hc" in intros s Hw Hc].
Ltac signed := eapply way_signed; [eassumption | | let s := fresh "s" in
  let Hw := fresh "Hw" in let Hc := fresh "Hc" in intros s Hw Hc].
Ltac kept := eapply way_keeps; [eassumption | keeping | assumption].

Section Types.

Context `{Env} (d : store) (v : signature_verification) (Hd : inv d).

Lemma post_change (f : change_hashables) (sg w : Z) (s : lstate) : let b := change_block f sg w in
  on_way d b v s -> post (process_change f sg w) s (answers d b v).
Proof.
  intros b Hw. unfold process_change. fold b. look. judged He; [now apply negb_false_iff |]. look. judged Hp; [left; now apply block_get_none |].
  apply post_must. intros p (x & Hx & <-)%block_get_some. judged Hl. look. judged Hf.
  { apply negb_false_iff, Z.eqb_eq in Hf. apply negb_true_iff in He. split; [done |]. right. right.
    exists x. destruct (legacy_fork d _ x Hd Hx Hl Hf) as [y Hy]. eauto. }
  eapply way_needs; [eassumption |]. intros i Hi. apply post_assert. intros _. signed; [intros Hsig; now apply status_valid | kept].
Qed.

Lemma post_send (f : send_hashables) (sg w : Z) (s : lstate) : let b := send_block f sg w in
  on_way d b v s -> post (process_send f sg w) s (answers d b v).
Proof.
  intros b Hw. unfold process_send. fold b. look. judged He; [now apply negb_false_iff |]. look. judged Hp; [left; now apply block_get_none |].
  apply post_must. intros p (x & Hx & <-)%block_get_some. judged Hl. look. judged Hf.
  { apply negb_false_iff, Z.eqb_eq in Hf. apply negb_true_iff in He. split; [done |]. right. right.
    exists x. destruct (legacy_fork d _ x Hd Hx Hl Hf) as [y Hy]. eauto. }
  signed; [intros Hsig; now apply status_valid |]. eapply way_needs; [eassumption |]. intros i Hi. apply post_assert. intros _.
  judged Hb. kept.
Qed.

Lemma post_receive (f : receive_hashables) (sg w : Z) (s : lstate) : let b := receive_block f sg w in
  on_way d b v s -> post (process_receive f sg w) s (answers d b v).
Proof.
  intros b Hw. unfold process_receive. fold b. look. judged He; [now apply negb_false_iff |]. look. judged Hp; [left; now apply block_get_none |].
  apply post_must. intros p (x & Hx & <-)%block_get_some. judged Hl. look.
  eapply way_modify; [eassumption | done |]. intros s3 Hw3 Hc3. destruct (Z.eqb_spec (frontier_get d (receive_previous f)) 0) as [Hf | Hf]; cbn [negb].
  - look. rewrite (proj2 (exists_get d (inv_blocks _ Hd) _)) by eauto. apply post_set_code.
    split; [apply Hw3 |]. apply negb_true_iff in He. split; [done |]. right. right.
    exists x. destruct (legacy_fork d _ x Hd Hx Hl Hf) as [y Hy]. eauto.
  - signed; [intros Hsig; apply status_valid; [now apply negb_true_iff, Z.eqb_neq | exact Hsig] |]. look. judged Hsrc.
    { split; [exact Hsrc |]. right. exists x. done. }
    look. destruct (frontier_head d _ Hd Hf) as (i & x' & _ & Hi & Hh & _). rewrite Hi. judged Hg.
    { exfalso. apply Z.eqb_neq in Hg. congruence. }
    look. judged Hpd. apply post_must. intros pd Epd. judged Hep. kept.
Qed.

Lemma post_open (f : open_hashables) (sg w : Z) (s : lstate) : let b := open_block f sg w in
  on_way d b v s -> post (process_open f sg w) s (answers d b v).
Proof.
  intros b Hw. unfold process_open. fold b. look. judged He; [now apply negb_false_iff |]. signed; [intros Hsig; now apply status_valid |].
  look. judged Hsrc. { split; [exact Hsrc | now left]. }
  look. judged Ho. { apply negb_true_iff in He. split; [done |]. right. left. cbn. destruct (account_get d _); [eauto | done]. }
  look. judged Hpd. apply post_must. intros pd Epd. judged Hb. judged Hep. kept.
Qed.

Section State.

Context (f : state_hashables) (sg w : Z) (b := state_block f sg w).

(** The head of an account has the account's balance. *)
Lemma head_entry (a : Z) (i : account_info) : account_get d a = Some i ->
  exists x, block_get_full d (head i) = Some x /\ entry_balance x = balance i /\ entry_account x = a.
Proof.
  intros Hi%(account_get_some d Hd). destruct (ao_head _ _ _ _ (inv_account _ Hd _ _ _ Hi)) as (x & H1 & H2 & H3 & _). eauto.
Qed.

(** A predecessor in the chain of the account that is not its head has a successor. *)
Lemma state_fork (i : account_info) (x : entry) : account_get d (state_account f) = Some i ->
  block_exists_type d (type b) (hash b) = false -> state_previous f <> 0 ->
  block_get_full d (state_previous f) = Some x -> state_previous f <> head i -> fork_ok d b.
Proof.
  intros Hi He Hp Hx Hh. split; [done |].
  destruct (Z.eq_dec (entry_account x) (account b)) as [E | E].
  - right. right. exists x. cbn [root b]. rewrite (proj2 (Z.eqb_neq _ _) Hp). cbn [negb].
    destruct (successor_stored d _ x Hd Hx) as [y Hy]; [| eauto]. intros e j Hj. rewrite E in Hj.
    apply (account_get_entry d Hd) in Hj. cbn in Hj. congruence.
  - left. split; [done |]. exists x. done.
Qed.

Lemma post_check_source (is_send : bool) (amt : Z) (e : epoch) (k : epoch -> M unit) (s : lstate) :
  on_way d b v s -> code (result s) = progress ->
  (is_send = false -> source_exists d (state_link f) = false -> gap_source_ok d b) ->
  (forall e s, on_way d b v s -> code (result s) = progress -> post (k e) s (answers d b v)) ->
  post (state_check_source f is_send amt e k) s (answers d b v).
Proof.
  intros Hw Hc Hg HK. unfold state_check_source. destruct is_send; cbn [negb]; [now apply HK |].
  destruct (state_link f =? 0); cbn [negb].
  - judged Ha. now apply HK.
  - look. judged Hs; [now apply Hg |]. look. judged Hp. apply post_must. intros pd _. judged Ha. now apply HK.
Qed.

Lemma post_state_impl (s : lstate) : on_way d b v s -> post (state_block_impl f sg w) s (answers d b v).
Proof.
  intros Hw. unfold state_block_impl. fold b. look. judged He; [now apply negb_false_iff |]. apply negb_true_iff in He.
  signed; [intros Hsig; now apply status_valid |]. judged Hz.
  eapply way_modify; [eassumption | done |]. intros s3 Hw3 Hc3. look.
  destruct (account_get d (state_account f)) as [i |] eqn:Hi.
  - judged Hp. { split; [done |]. right. left. cbn. rewrite Hp. eauto. }
    apply negb_true_iff, Z.eqb_neq in Hp. look. judged Hx.
    { left. destruct (block_get_full d (previous b)) eqn:E; [| done]. exfalso.
      rewrite (proj2 (exists_get d (inv_blocks _ Hd) _)) in Hx by eauto. done. }
    apply (exists_get d (inv_blocks _ Hd)) in Hx as [x Hx].
    eapply way_modify; [eassumption | done |]. intros s6 Hw6 Hc6. judged Hh.
    { apply Z.eqb_neq in Hh. eapply state_fork; eauto. }
    apply Z.eqb_eq in Hh. apply post_check_source; [done | done | |].
    + intros Hn Hsrc. split; [exact Hsrc |]. right. exists x. split; [done |]. intros f' sg' w' [= <- <- <-].
      destruct (head_entry _ _ Hi) as (y & Hy & Hb & _). rewrite <- Hh in Hy. rewrite Hx in Hy. injection Hy as <-.
      apply Z.ltb_ge in Hn. lia.
    + intros e s8 Hw8 Hc8. kept.
  - judged Hp.
    { destruct (block_get_full d (previous b)) as [x |] eqn:E; [right | now left]. split; [done |]. exists x. split; [done |].
      intros Ea. destruct (inv_chain _ Hd _ _ E) as [(e & j & Hj & _) _ _]. rewrite Ea in Hj.
      apply (account_get_entry d Hd) in Hj. cbn in Hj. congruence. }
    apply Z.eqb_eq in Hp. judged Hl.
    { apply negb_false_iff, Z.eqb_eq in Hl. split; [| now left]. cbn [source_of b]. rewrite Hl. unfold source_exists.
      apply orb_false_iff. split; apply not_true_is_false; intros (x & Hx & _)%(exists_type_get d (inv_blocks _ Hd));
        now apply (get_nonzero d Hd) in Hx. }
    apply post_check_source; [done | done | intros _ Hsrc; split; [exact Hsrc | now left] |].
    intros e s8 Hw8 Hc8. kept.
Qed.

Lemma post_epoch_commit (i : account_info) (s : lstate) : on_way d b v s -> post (epoch_commit f sg w i) s (answers d b v).
Proof. intros Hw. unfold epoch_commit. judged He. judged Hb. kept. Qed.

(** An epoch block is only tried when its predecessor is there. *)
Lemma post_epoch_impl (s : lstate) : on_way d b v s ->
  (state_previous f = 0 \/ exists x, block_get_full d (state_previous f) = Some x) ->
  post (epoch_block_impl f sg w) s (answers d b v).
Proof.
  intros Hw Hpre. unfold epoch_block_impl. fold b. look. judged He; [now apply negb_false_iff |]. apply negb_true_iff in He.
  signed; [intros Hsig; now apply status_epoch |]. judged Hz. look.
  destruct (account_get d (state_account f)) as [i |] eqn:Hi.
  - judged Hp. { split; [done |]. right. left. cbn. rewrite Hp. eauto. }
    apply negb_true_iff, Z.eqb_neq in Hp. destruct Hpre as [? | [x Hx]]; [done |]. judged Hh.
    { apply Z.eqb_neq in Hh. eapply state_fork; eauto. }
    eapply way_needs; [eassumption |]. intros lr _. judged Hr. now apply post_epoch_commit.
  - judged Hr. now apply post_epoch_commit.
Qed.

(** The first part of [process_state], up to the choice of the handler. *)
Definition chosen (ie : bool) (s : lstate) : Prop := on_way d b v s /\
  (code (result s) = progress /\ (ie = true -> state_previous f = 0 \/ exists x, block_get_full d (state_previous f) = Some x) \/
   code (result s) <> progress /\ answer_ok d b (code (result s))).

Lemma gap_signature (s s' : lstate) : on_way d b v s -> code (result s) = gap_previous ->
  block_get_full d (state_previous f) = None ->
  check_gap_signature f (hash b) sg s = Done ((), s') ->
  on_way d b v s' /\ code (result s') <> progress /\ answer_ok d b (code (result s')).
Proof.
  intros [E S] Hc Hn. unfold check_gap_signature. change (get_result ≫= ?k) with (fun s => k (result s) s). cbv beta.
  destruct (bool_decide _); [| intros [= <-]; rewrite Hc; split; [done |]; split; [done | now left]].
  destruct (validate_message (state_account f) (hash b) sg) eqn:V1;
    [destruct (validate_message epoch_signer (hash b) sg) eqn:V2 |]; intros [= <-]; cbn; rewrite ?Hc.
  - split; [split; [done | split; done] |]. done.
  - split; [split; [done | now apply status_epoch] |]. split; [done | now left].
  - split; [split; [done | now apply status_valid] |]. split; [done | now left].
Qed.

Lemma choice (s s' : lstate) (ie : bool) : on_way d b v s -> code (result s) = progress ->
  (if negb (epoch_link =? 0) && is_epoch_link (state_link f) then
     prev_balance ←
       (if negb (state_previous f =? 0) then
          pe ← reads (fun s => block_exists s (state_previous f));
          set_code (if pe : bool then progress else gap_previous);;
          if pe : bool then ledger_balance (state_previous f)
          else check_gap_signature f (hash b) sg;; mret 0
        else mret 0);
     mret (state_balance f =? prev_balance)
   else mret false) s = Done (ie, s') -> chosen ie s'.
Proof.
  intros Hw Hc. destruct (_ && _); [| intros [= <- <-]; split; [done | left; done]].
  destruct (Z.eqb_spec (state_previous f) 0) as [Ep | Ep]; cbn [negb].
  { intros [= <- <-]. split; [done | left; auto]. }
  unfold mbind, M_bind. unfold reads at 1. rewrite (proj1 Hw). cbn [set_code modify].
  destruct (block_exists d (state_previous f)) eqn:Ex.
  - apply (exists_get d (inv_blocks _ Hd)) in Ex as Hx. unfold ledger_balance.
    rewrite (proj2 (Z.eqb_neq _ _) Ep). unfold needs, mbind, M_bind, reads, must. cbn [db].
    destruct (block_balance (db s) (state_previous f)); [| done]. intros [= <- <-].
    split; [split; [apply Hw | apply Hw] | left; cbn; auto].
  - destruct (check_gap_signature f (hash b) sg _) as [[[] s1] | |] eqn:Eg; [| done | done]. intros [= <- <-].
    assert (Hn : block_get_full d (state_previous f) = None).
    { destruct (block_get_full d (state_previous f)) eqn:E; [| done].
      rewrite (proj2 (exists_get d (inv_blocks _ Hd) _)) in Ex by eauto. done. }
    eapply gap_signature in Eg as (W & N & A); [| split; apply Hw | reflexivity | exact Hn].
    split; [exact W | right; done].
Qed.

Lemma post_state (s : lstate) : on_way d b v s -> post (process_state f sg w) s (answers d b v).
Proof.
  intros Hw. unfold process_state. fold b. eapply way_modify; [eassumption | done |]. intros s1 Hw1 Hc1.
  intros [] s' E. unfold mbind at 1, M_bind at 1 in E.
  match type of E with match ?m s1 with _ => _ end = _ => destruct (m s1) as [[ie s2] | |] eqn:Em end; [| done | done].
  destruct (choice s1 s2 ie Hw1 Hc1 Em) as (Hw2 & Hcase).
  change (get_result ≫= ?k) with (fun s => k (result s) s) in E. cbv beta in E.
  destruct Hcase as [[Hc Hp] | [Hc Ha]].
  - rewrite bool_decide_eq_true_2 in E by done. destruct ie.
    + exact (post_epoch_impl s2 Hw2 (Hp eq_refl) _ _ E).
    + exact (post_state_impl s2 Hw2 _ _ E).
  - rewrite bool_decide_eq_false_2 in E by done. injection E as <-. split; [apply Hw2 | exact Ha].
Qed.

End State.

(** What the result of [process] says is right. *)
Lemma process_answered (b : block) (r : process_return) (s' : store) :
  process d b v = Done (r, s') -> answers d b v (code r) (verified r).
Proof.
  unfold process. set (s := mk_lstate d [] (initial_result v) []).
  assert (Hw : on_way d b v s) by (split; [done | apply status_same]).
  destruct (process_block b s) as [[[] s1] | |] eqn:E; [| done | done]. intros [= <- <-].
  destruct b as [f sg w | f sg w | f sg w | f sg w | f sg w]; cbn [process_block] in E.
  - exact (post_send f sg w s Hw _ _ E).
  - exact (post_receive f sg w s Hw _ _ E).
  - exact (post_open f sg w s Hw _ _ E).
  - exact (post_change f sg w s Hw _ _ E).
  - exact (post_state f sg w s Hw _ _ E).
Qed.

End Types.



End LedgerOutcome.
