(* ===== verification/Numbers.v ===== *)
(** * Numbers

    Model of [nano/lib/numbers.cpp]: the 128-, 256- and 512-bit unions, whose
    bytes are big endian, with their comparison, exclusive or and zero test; the
    text form of accounts, its check sum and its decoding; the derivation of
    deterministic keys; and the display of balances.  Text is the list of its
    character codes.  [None] is a failed assertion or a thrown exception. *)

From Stdlib Require Import String Ascii DecimalString ZArith Lia List Bool.
From S2P Require Import Prelude Blake2b Blocks.
Import ListNotations.
Local Open Scope Z_scope.

Module Numbers.
Import Blake2bRef.

Definition codes (s : string) : list Z :=
  map (fun c => Z.of_nat (nat_of_ascii c)) (list_ascii_of_string s).

(** ** The unions *)

(** [std::memcmp]: the sign of the first difference. *)
Fixpoint memcmp (a b : list Z) : Z :=
  match a, b with
  | x :: a', y :: b' => if x <? y then -1 else if y <? x then 1 else memcmp a' b'
  | _, _ => 0
  end.

(** The 64-bit words of the memory image, on a little-endian machine. *)
Fixpoint qwords (n : nat) (l : list Z) : list Z :=
  match n with
  | O => []
  | S n' => le_val (firstn 8 l) :: qwords n' (skipn 8 l)
  end.

Fixpoint from_qwords (l : list Z) : list Z :=
  match l with [] => [] | q :: l' => le_bytes 8 q ++ from_qwords l' end.

Definition uint128_lt (x y : Z) : bool := memcmp (be_bytes 16 x) (be_bytes 16 y) <? 0.
Definition uint128_gt (x y : Z) : bool := 0 <? memcmp (be_bytes 16 x) (be_bytes 16 y).
Definition uint256_lt (x y : Z) : bool := memcmp (be_bytes 32 x) (be_bytes 32 y) <? 0.

Definition uint128_is_zero (x : Z) : bool := forallb (Z.eqb 0) (qwords 2 (be_bytes 16 x)).
Definition uint256_is_zero (x : Z) : bool := forallb (Z.eqb 0) (qwords 4 (be_bytes 32 x)).
Definition uint512_is_zero (x : Z) : bool := forallb (Z.eqb 0) (qwords 8 (be_bytes 64 x)).

Fixpoint xor_words (a b : list Z) : list Z :=
  match a, b with x :: a', y :: b' => Z.lxor x y :: xor_words a' b' | _, _ => [] end.

Definition uint256_xor (x y : Z) : Z :=
  be_val (from_qwords (xor_words (qwords 4 (be_bytes 32 x)) (qwords 4 (be_bytes 32 y)))).

(** ** Digests written over an integer *)

(** [blake2b_init], one [blake2b_update] per string, [blake2b_final] into a
    zeroed little-endian integer. *)
Definition digest_le (outlen : nat) (chunks : list (list Z)) : option Z :=
  match blake2b_init outlen with
  | Some st => option_map (fun r => le_val (snd r))
                 (blake2b_final (fold_left blake2b_update chunks st) outlen)
  | None => None
  end.

(** ** Accounts *)

Definition account_lookup : list Z := codes "13456789abcdefghijkmnopqrstuwxyz".
Definition account_reverse : list Z :=
  codes "~0~1234567~~~~~~~~~~~~~~~~~~~~~~~~~~~~~~~~~~~~~~~89:;<=>?@AB~CDEFGHIJK~LMNO~~~~~".

Definition account_encode (value : Z) : option Z :=
  if value <? 32 then Some (nth (Z.to_nat value) account_lookup 0) else None.

(** 126 is the tilde. *)
Definition account_decode (value : Z) : option Z :=
  if (48 <=? value) && (value <=? 126) then
    let result := nth (Z.to_nat (value - 48)) account_reverse 0 in
    Some (if negb (result =? 126) then result - 48 else result)
  else None.

(** The five-byte digest of an account, as the [uint64_t] it is written over. *)
Definition account_check (x : Z) : option Z := digest_le 5 [be_bytes 32 x].

Definition u512 (x : Z) : Z := x mod 2 ^ 512.

(** The loop that pushes [n] characters. *)
Fixpoint encode_loop (n : nat) (number_l : Z) (destination : list Z) : option (list Z) :=
  match n with
  | O => Some destination
  | S n' =>
      let r := Z.land number_l 31 in
      match account_encode r with
      | Some c => encode_loop n' (Z.shiftr number_l 5) (destination ++ [c])
      | None => None
      end
  end.

Definition encode_account (x : Z) : option (list Z) :=
  match account_check x with
  | Some check =>
      let number_l := Z.lor (u512 (Z.shiftl x 40)) check in
      option_map (fun d => rev (d ++ codes "_rlf")) (encode_loop 60 number_l [])
  | None => None
  end.

(** The loop over the characters after the prefix: the error flag and the number. *)
Fixpoint decode_loop (l : list Z) (number_l : Z) : option (bool * Z) :=
  match l with
  | [] => Some (false, number_l)
  | character :: l' =>
      if (character <? 48) || (128 <=? character) then Some (true, number_l)
      else match account_decode character with
           | Some byte => if byte =? 126 then Some (true, number_l)
                          else decode_loop l' (u512 (u512 (Z.shiftl number_l 5) + byte))
           | None => None
           end
  end.

Definition flr_prefix (source : list Z) : bool :=
  (nth 0 source 0 =? 102) && (nth 1 source 0 =? 108) && (nth 2 source 0 =? 114) &&
  ((nth 3 source 0 =? 95) || (nth 3 source 0 =? 45)).

(** [this] and the source to the error flag and the new [this]. *)
Definition decode_account (this : Z) (source : list Z) : option (bool * Z) :=
  if (length source <? 5)%nat then Some (true, this)
  else if flr_prefix source && negb (length source =? 64)%nat then Some (true, this)
  else if flr_prefix source then
    let first := nth 4 source 0 in
    if (first =? 49) || (first =? 51) then
      match decode_loop (skipn 4 source) 0 with
      | Some (false, number_l) =>
          let x := Z.shiftr number_l 40 mod 2 ^ 256 in
          match account_check x with
          | Some validation =>
              Some (negb (Z.land number_l 1099511627775 =? validation), x)
          | None => None
          end
      | Some (true, _) => Some (true, this)
      | None => None
      end
    else Some (true, this)
  else Some (true, this).

Definition deterministic_key (seed index : Z) : option Z :=
  Block.digest_of 32 [be_bytes 32 seed; be_bytes 4 index].

(** ** Balances as text *)

(** [stream << val]. *)
Definition print_dec (v : Z) : list Z := codes (NilZero.string_of_uint (N.to_uint (Z.to_N v))).

(** [while (reduce > 1 && rem > 0 && precision > 0)]. *)
Fixpoint format_frac (fuel : nat) (rem reduce precision : Z) : option (list Z) :=
  match fuel with
  | O => None
  | S n =>
      if (1 <? reduce) && (0 <? rem) && (0 <? precision) then
        let reduce := reduce / 10 in
        let val := rem / reduce in
        option_map (app (print_dec val)) (format_frac n (rem - val * reduce) reduce (precision - 1))
      else Some []
  end.

(** [while (1)]: the largest power of ten that is at most [value], and the
    number of digits; [largestPow10] has 256 bits. *)
Fixpoint largest_pow10 (fuel : nat) (largest count value : Z) : option (Z * Z) :=
  match fuel with
  | O => None
  | S n =>
      let next := (largest * 10) mod 2 ^ 256 in
      if value <? next then Some (largest, count) else largest_pow10 n next (count + 1) value
  end.

(** [emit_group]: after which digits, from the right, a separator goes. *)
Fixpoint emit_groups (n : nat) (group_index group_count : Z) (groupings : list Z) : list bool :=
  match n with
  | O => []
  | S n' =>
      let group_count := group_count + 1 in
      if nth (Z.to_nat group_index) groupings 0 <? group_count
      then true :: emit_groups n'
             (Z.min (group_index + 1) (Z.of_nat (length groupings) - 1)) 1 groupings
      else false :: emit_groups n' group_index group_count groupings
  end.

(** [while (reduce > 0)]. *)
Fixpoint dec_loop (fuel : nat) (reduce rem dec_count group_sep : Z) (emit : list bool)
    : option (list Z) :=
  match fuel with
  | O => None
  | S n =>
      if 0 <? reduce then
        let val := rem / reduce in
        let dec_count := dec_count - 1 in
        let sep := if negb (group_sep =? 0) && nth (Z.to_nat dec_count) emit false && (1 <? reduce)
                   then [group_sep] else [] in
        option_map (fun rest => print_dec val ++ sep ++ rest)
          (dec_loop n (reduce / 10) (rem - val * reduce) dec_count group_sep emit)
      else Some []
  end.

Definition format_dec (value group_sep : Z) (groupings : list Z) : option (list Z) :=
  match largest_pow10 40 1 1 value with
  | Some (largest, dec_count) =>
      if 39 <? dec_count then Some []
      else dec_loop 40 largest value dec_count group_sep
             (if negb (group_sep =? 0) then emit_groups (Z.to_nat dec_count) 0 0 groupings else [])
  | None => None
  end.

Definition format_balance (balance scale precision : Z) (group_digits : bool)
    (thousands_sep decimal_point : Z) (grouping : list Z) : option (list Z) :=
  if scale =? 0 then None else
  let int_part := balance / scale in
  let frac_part := balance mod scale in
  let prec_scale := Nat.iter (Z.to_nat precision) (fun p => p / 10) scale in
  let small :=
    if (int_part =? 0) && (0 <? frac_part)
    then if prec_scale =? 0 then None else Some (frac_part / prec_scale =? 0)
    else Some false in
  match small with
  | None => None
  | Some true =>
      Some (codes "< " ++
            (if 0 <? precision then codes "0" ++ [decimal_point] ++ repeat 48 (Z.to_nat (precision - 1))
             else []) ++ codes "1")
  | Some false =>
      match format_dec int_part
              (if group_digits && (0 <? length grouping)%nat then thousands_sep else 0) grouping with
      | Some int_text =>
          if (0 <? precision) && (0 <? frac_part)
          then option_map (fun f => int_text ++ [decimal_point] ++ f)
                 (format_frac 40 frac_part scale precision)
          else Some int_text
      | None => None
      end
  end.

Definition grouping3 : list Z := [3].
Example balance1 : format_balance (2 ^ 128 - 1) (10 ^ 30) 4 true 44 46 grouping3 =
  Some (codes "340,282,366.9209").
Proof. vm_compute. reflexivity. Qed.
Example balance2 : format_balance 7 (10 ^ 30) 2 true 44 46 grouping3 = Some (codes "< 0.01").
Proof. vm_compute. reflexivity. Qed.
Example reverse_length : length account_reverse = 80%nat.
Proof. reflexivity. Qed.

(** ** Accounts: encoding and decoding are inverse *)

(** Five-bit digits, low digit first, and the number of a list of them, high digit first. *)
Fixpoint digits32 (n : nat) (x : Z) : list Z :=
  match n with O => [] | S n' => x mod 32 :: digits32 n' (x / 32) end.

Definition number32 (acc : Z) (l : list Z) : Z := fold_left (fun a d => a * 32 + d) l acc.

Definition digit (d : Z) : Prop := 0 <= d < 32.

Definition letter (d : Z) : Z := nth (Z.to_nat d) account_lookup 0.

Lemma digits32_length (n : nat) (x : Z) : length (digits32 n x) = n.
Proof. revert x. induction n as [| n IH]; intros x; cbn [digits32 length]; [reflexivity | now rewrite IH]. Qed.

Lemma digits32_ok (n : nat) (x : Z) : Forall digit (digits32 n x).
Proof.
  revert x. induction n as [| n IH]; intros x; constructor; [| apply IH].
  unfold digit. apply Z.mod_pos_bound. lia.
Qed.

Lemma number32_digits (n : nat) (x : Z) : number32 0 (rev (digits32 n x)) = x mod 32 ^ Z.of_nat n.
Proof.
  revert x. induction n as [| n IH]; intros x; [now rewrite Z.mod_1_r |].
  cbn [digits32 rev]. unfold number32 in *. rewrite fold_left_app, IH. cbn [fold_left].
  rewrite Nat2Z.inj_succ, Z.pow_succ_r, (Z.rem_mul_r x 32) by (try apply Z.pow_nonzero; lia). lia.
Qed.

Lemma number32_bound (l : list Z) (acc : Z) : Forall digit l -> 0 <= acc ->
  acc * 32 ^ Z.of_nat (length l) <= number32 acc l < (acc + 1) * 32 ^ Z.of_nat (length l).
Proof.
  revert acc. induction l as [| d l IH]; intros acc Hl Ha; [cbn; lia |].
  inversion Hl as [| ? ? Hd Hl']; subst. unfold digit in Hd.
  cbn [number32 fold_left length]. specialize (IH (acc * 32 + d) Hl' ltac:(lia)).
  unfold number32 in *. rewrite Nat2Z.inj_succ, Z.pow_succ_r by lia.
  pose proof (Z.pow_pos_nonneg 32 (Z.of_nat (length l)) ltac:(lia) ltac:(lia)). nia.
Qed.

Lemma digits32_number (l : list Z) : Forall digit l ->
  rev (digits32 (length l) (number32 0 l)) = l.
Proof.
  induction l as [| d l IH] using rev_ind; intros Hl; [reflexivity |].
  apply Forall_app in Hl as [Hl Hd]. inversion Hd as [| ? ? Hd' _]; subst. unfold digit in Hd'.
  rewrite length_app, Nat.add_comm. unfold number32. rewrite fold_left_app.
  cbn [fold_left length Nat.add digits32 rev]. fold (number32 0 l).
  replace ((number32 0 l * 32 + d) / 32) with (number32 0 l) by (apply (Z.div_unique _ _ _ d); lia).
  replace ((number32 0 l * 32 + d) mod 32) with d by (apply (Z.mod_unique _ _ (number32 0 l)); lia).
  now rewrite (IH Hl).
Qed.

(** The two tables are inverse. *)
Lemma letter_table : forallb (fun n => let d := Z.of_nat n in let c := letter d in
  match account_decode c with Some b => (b =? d) && (48 <=? c) && (c <? 128) | None => false end)
  (seq 0 32) = true.
Proof. reflexivity. Qed.

Lemma letter_decode (d : Z) : digit d ->
  account_decode (letter d) = Some d /\ 48 <= letter d < 128.
Proof.
  intros Hd. unfold digit in Hd. pose proof (proj1 (forallb_forall _ _) letter_table (Z.to_nat d)) as H.
  rewrite in_seq in H. specialize (H ltac:(lia)). cbv zeta in H. rewrite Z2Nat.id in H by lia.
  destruct (account_decode (letter d)) as [b |]; [| discriminate].
  apply andb_true_iff in H as [H H3]. apply andb_true_iff in H as [H1 H2].
  apply Z.eqb_eq in H1. apply Z.leb_le in H2. apply Z.ltb_lt in H3. now subst.
Qed.

Lemma reverse_table : forallb (fun n => let c := Z.of_nat n in
  match account_decode c with
  | Some b => (b =? 126) || ((0 <=? b) && (b <? 32) && (letter b =? c))
  | None => c =? 127
  end) (seq 48 80) = true.
Proof. reflexivity. Qed.

Lemma reverse_entry (c : Z) : 48 <= c < 128 ->
  match account_decode c with
  | Some b => b = 126 \/ digit b /\ letter b = c
  | None => c = 127
  end.
Proof.
  intros Hc. pose proof (proj1 (forallb_forall _ _) reverse_table (Z.to_nat c)) as H.
  rewrite in_seq in H. specialize (H ltac:(lia)). cbv zeta in H. rewrite Z2Nat.id in H by lia.
  unfold digit. destruct (account_decode c) as [b |]; [| now apply Z.eqb_eq].
  apply orb_true_iff in H as [H | H]; [left; now apply Z.eqb_eq | right].
  apply andb_true_iff in H as [H H3]. apply andb_true_iff in H as [H1 H2].
  apply Z.leb_le in H1. apply Z.ltb_lt in H2. apply Z.eqb_eq in H3. lia.
Qed.

Lemma encode_loop_spec (n : nat) (x : Z) (dest : list Z) :
  encode_loop n x dest = Some (dest ++ map letter (digits32 n x)).
Proof.
  revert x dest. induction n as [| n IH]; intros x dest; cbn [encode_loop digits32 map].
  - now rewrite app_nil_r.
  - change 31 with (2 ^ 5 - 1). rewrite land_mask by lia. change (2 ^ 5) with 32.
    unfold account_encode. rewrite (proj2 (Z.ltb_lt _ _)) by (apply Z.mod_pos_bound; lia).
    fold (letter (x mod 32)). rewrite IH, shiftr_div by lia. change (2 ^ 5) with 32.
    now rewrite <- app_assoc.
Qed.

Lemma decode_loop_spec (l : list Z) (acc : Z) : Forall digit l -> 0 <= acc ->
  (acc + 1) * 32 ^ Z.of_nat (length l) <= 2 ^ 512 ->
  decode_loop (map letter l) acc = Some (false, number32 acc l).
Proof.
  revert acc. induction l as [| d l IH]; intros acc Hl Ha Hb; [reflexivity |].
  inversion Hl as [| ? ? Hd Hl']; subst. destruct (letter_decode d Hd) as [Ed Hr]. unfold digit in Hd.
  cbn [map decode_loop number32 fold_left]. rewrite (proj2 (Z.ltb_ge _ _)), (proj2 (Z.leb_gt _ _)) by lia.
  cbn [orb]. rewrite Ed, (proj2 (Z.eqb_neq d 126)) by lia.
  cbn [length] in Hb. rewrite Nat2Z.inj_succ, Z.pow_succ_r in Hb by lia.
  pose proof (Z.pow_pos_nonneg 32 (Z.of_nat (length l)) ltac:(lia) ltac:(lia)) as Hp.
  assert (Hs : (acc + 1) * 32 <= 2 ^ 512) by nia.
  rewrite Z.shiftl_mul_pow2 by lia. change (2 ^ 5) with 32. unfold u512.
  rewrite (Z.mod_small (acc * 32)), (Z.mod_small (acc * 32 + d)) by lia.
  apply IH; [assumption | lia | nia].
Qed.

Lemma decode_loop_inv (s : list Z) (acc x : Z) : decode_loop s acc = Some (false, x) ->
  exists l, Forall digit l /\ s = map letter l.
Proof.
  revert acc. induction s as [| c s IH]; intros acc H; [now exists [] |].
  cbn [decode_loop] in H. destruct ((c <? 48) || (128 <=? c)) eqn:Ec; [discriminate |].
  apply orb_false_iff in Ec as [E1 E2]. apply Z.ltb_ge in E1. apply Z.leb_gt in E2.
  pose proof (reverse_entry c (conj E1 E2)) as Hc.
  destruct (account_decode c) as [b |]; [| discriminate].
  destruct (b =? 126) eqn:Eb; [discriminate |]. apply Z.eqb_neq in Eb.
  destruct Hc as [? | [Hb <-]]; [contradiction |]. destruct (IH _ H) as (l & Hl & ->).
  exists (b :: l). split; [now constructor | reflexivity].
Qed.

Lemma spec_blake2b_ok (o : nat) (inp key : list Z) :
  bytes_ok (spec_blake2b o inp key) /\ (length (spec_blake2b o inp key) <= o)%nat.
Proof.
  unfold spec_blake2b. split; [apply bytes_ok_firstn | apply firstn_le_length].
  induction (spec_blocks _ _ _ _) as [| w ws IH]; [constructor |]. cbn [map concat].
  apply bytes_ok_app. split; [apply le_bytes_ok | exact IH].
Qed.

Lemma digest_le_spec (o : nat) (chunks : list (list Z)) : (1 <= o <= 64)%nat ->
  digest_le o chunks = Some (le_val (spec_blake2b o (concat chunks) [])).
Proof.
  intros Ho. destruct (init_chunks_spec o chunks Ho) as (S0 & E & D). unfold digest_le. rewrite E.
  unfold digest in D. destruct (blake2b_final _ o) as [r |]; [| discriminate].
  cbn [option_map] in *. now injection D as ->.
Qed.

Lemma digest_le_range (o : nat) (chunks : list (list Z)) : (1 <= o <= 64)%nat ->
  exists c, digest_le o chunks = Some c /\ 0 <= c < 2 ^ (8 * Z.of_nat o).
Proof.
  intros Ho. eexists. split; [now apply digest_le_spec |].
  destruct (spec_blake2b_ok o (concat chunks) []) as [Hb Hl]. pose proof (le_val_range _ Hb) as H.
  pose proof (Z.pow_le_mono_r 2 (8 * Z.of_nat (length (spec_blake2b o (concat chunks) [])))
    (8 * Z.of_nat o) ltac:(lia) ltac:(lia)). lia.
Qed.

(** The check sum is always there and has forty bits. *)
Lemma account_check_range (x : Z) : exists c, account_check x = Some c /\ 0 <= c < 2 ^ 40.
Proof. apply (digest_le_range 5). lia. Qed.

#[local] Opaque account_check.

(** The number an account's text spells. *)
Definition spelled (x c : Z) : Z := x * 2 ^ 40 + c.

Lemma encode_account_spec (x c : Z) : word 256 x -> account_check x = Some c -> 0 <= c < 2 ^ 40 ->
  encode_account x = Some (codes "flr_" ++ map letter (rev (digits32 60 (spelled x c)))).
Proof.
  unfold word. intros Hx E Hc. unfold encode_account. rewrite E. unfold u512.
  rewrite Z.shiftl_mul_pow2, Z.mod_small by lia.
  rewrite Z.lor_comm, lor_disjoint by lia. rewrite encode_loop_spec. cbn [option_map app].
  rewrite rev_app_distr, <- map_rev. unfold spelled. now rewrite (Z.add_comm c).
Qed.

Lemma digits32_last (n : nat) (x : Z) : digits32 (S n) x = digits32 n x ++ [x / 32 ^ Z.of_nat n mod 32].
Proof.
  revert x. induction n as [| n IH]; intros x; [cbn; now rewrite Z.div_1_r |].
  change (digits32 (S (S n)) x) with (x mod 32 :: digits32 (S n) (x / 32)). rewrite IH.
  cbn [digits32 app]. rewrite Z.div_div by (try apply Z.pow_pos_nonneg; lia).
  now rewrite Nat2Z.inj_succ, Z.pow_succ_r by lia.
Qed.

Lemma spelled_parts (x c : Z) : word 256 x -> 0 <= c < 2 ^ 40 ->
  0 <= spelled x c < 2 ^ 296 /\ Z.shiftr (spelled x c) 40 mod 2 ^ 256 = x /\
  Z.land (spelled x c) 1099511627775 = c.
Proof.
  unfold word, spelled. intros Hx Hc. split; [lia |]. split.
  - rewrite shiftr_div by lia. replace ((x * 2 ^ 40 + c) / 2 ^ 40) with x.
    + now apply Z.mod_small.
    + apply (Z.div_unique _ _ _ c); lia.
  - change 1099511627775 with (2 ^ 40 - 1). rewrite land_mask by lia. symmetry.
    apply (Z.mod_unique _ _ x); lia.
Qed.

(** What [decode_account] computes on a text that spells [N]. *)
Lemma decode_account_spec (y N : Z) (sep : Z) (c : Z) : 0 <= N < 2 ^ 296 -> sep = 95 \/ sep = 45 ->
  account_check (Z.shiftr N 40 mod 2 ^ 256) = Some c ->
  decode_account y ([102; 108; 114; sep] ++ map letter (rev (digits32 60 N))) =
    Some (negb (Z.land N 1099511627775 =? c), Z.shiftr N 40 mod 2 ^ 256).
Proof.
  intros HN Hsep Ec. unfold decode_account.
  assert (L : length ([102; 108; 114; sep] ++ map letter (rev (digits32 60 N))) = 64%nat).
  { now rewrite length_app, length_map, length_rev, digits32_length. }
  rewrite L. cbn [Nat.ltb Nat.leb Nat.eqb negb andb].
  assert (P : flr_prefix ([102; 108; 114; sep] ++ map letter (rev (digits32 60 N))) = true).
  { unfold flr_prefix. cbn [app nth]. destruct Hsep as [-> | ->]; reflexivity. }
  rewrite P. cbn [andb].
  assert (F : nth 4 ([102; 108; 114; sep] ++ map letter (rev (digits32 60 N))) 0 = 49 \/
    nth 4 ([102; 108; 114; sep] ++ map letter (rev (digits32 60 N))) 0 = 51).
  { change 60%nat with (S 59). rewrite digits32_last, rev_app_distr. cbn [rev app map nth].
    assert (HD : 0 <= N / 32 ^ Z.of_nat 59 < 2).
    { change (32 ^ Z.of_nat 59) with (2 ^ 295).
      split; [apply Z.div_pos; lia | apply Z.div_lt_upper_bound; lia]. }
    rewrite Z.mod_small by lia.
    assert (HC : N / 32 ^ Z.of_nat 59 = 0 \/ N / 32 ^ Z.of_nat 59 = 1) by lia.
    destruct HC as [-> | ->]; [left | right]; reflexivity. }
  replace (_ || _)%bool with true by (destruct F as [-> | ->]; reflexivity).
  cbn [app skipn]. rewrite decode_loop_spec;
    [| apply Forall_rev, digits32_ok | lia | rewrite length_rev, digits32_length; vm_compute; discriminate].
  rewrite number32_digits. change (32 ^ Z.of_nat 60) with (2 ^ 300).
  rewrite (Z.mod_small N), Ec by lia. reflexivity.
Qed.

(** C40: every account has a text of 64 characters, and decoding it gives the
    account back without an error. *)
Theorem account_roundtrip (x y : Z) (Hx : word 256 x) :
  exists s, encode_account x = Some s /\ length s = 64%nat /\ decode_account y s = Some (false, x).
Proof.
  destruct (account_check_range x) as (c & Ec & Hc).
  destruct (spelled_parts x c Hx Hc) as (HN & E1 & E2).
  eexists. split; [exact (encode_account_spec x c Hx Ec Hc) |]. split.
  - now rewrite length_app, length_map, length_rev, digits32_length.
  - change (codes "flr_") with [102; 108; 114; 95].
    rewrite (decode_account_spec y (spelled x c) 95 c); rewrite ?E1, ?E2, ?Z.eqb_refl; auto.
Qed.

Lemma account_roundtrip_witness : exists s,
  encode_account 5 = Some s /\ length s = 64%nat /\ decode_account 0 s = Some (false, 5).
Proof. apply (account_roundtrip 5 0). unfold word. lia. Defined.

(** A text that decodes: the prefix, and sixty letters that spell a number below [2^296]. *)
Lemma decode_account_shape (y x : Z) (s : list Z) : decode_account y s = Some (false, x) ->
  exists sep N, (sep = 95 \/ sep = 45) /\ 0 <= N < 2 ^ 296 /\
    s = [102; 108; 114; sep] ++ map letter (rev (digits32 60 N)).
Proof.
  unfold decode_account. destruct (length s <? 5)%nat eqn:E5; [discriminate |].
  destruct (flr_prefix s) eqn:EP; [| discriminate].
  destruct (Nat.eqb_spec (length s) 64) as [L |]; [| discriminate]. cbn [andb negb].
  destruct ((nth 4 s 0 =? 49) || (nth 4 s 0 =? 51)) eqn:E4; [| discriminate].
  destruct (decode_loop (skipn 4 s) 0) as [[[|] N] |] eqn:EL; [discriminate | | discriminate]. intros _.
  destruct s as [| a [| b [| c [| sep s]]]]; try discriminate L. cbn [skipn nth] in *.
  unfold flr_prefix in EP. cbn [nth] in EP. rewrite !andb_true_iff, orb_true_iff, !Z.eqb_eq in EP.
  destruct EP as [[[-> ->] ->] Hsep]. destruct (decode_loop_inv _ _ _ EL) as (l & Hl & ->).
  exists sep, (number32 0 l). assert (Ll : length l = 60%nat) by (cbn in L; rewrite length_map in L; lia).
  split; [exact Hsep |]. split.
  - destruct l as [| d l]; [discriminate Ll |]. cbn [map nth] in E4.
    inversion Hl as [| ? ? Hd Hl']; subst. destruct (letter_decode d Hd) as [Ed _].
    assert (d <= 1).
    { apply orb_true_iff in E4 as [E4 | E4]; apply Z.eqb_eq in E4; rewrite E4 in Ed;
        injection Ed as <-; lia. }
    pose proof (number32_bound l d Hl' ltac:(unfold digit in Hd; lia)) as Hb.
    change (number32 0 (d :: l)) with (number32 d l). injection Ll as Ll. rewrite Ll in Hb.
    unfold digit in Hd. change (32 ^ Z.of_nat 59) with (2 ^ 295) in Hb. lia.
  - rewrite <- Ll. now rewrite digits32_number.
Qed.

(** A text that decodes without an error is the text of the account it
    decodes to, up to a hyphen in the place of the underscore. *)
Theorem account_canonical (x y : Z) (s : list Z) (H : decode_account y s = Some (false, x)) :
  word 256 x /\ exists rest, encode_account x = Some (codes "flr_" ++ rest) /\
    (s = codes "flr_" ++ rest \/ s = codes "flr-" ++ rest).
Proof.
  destruct (decode_account_shape _ _ _ H) as (sep & N & Hsep & HN & ->).
  destruct (account_check_range (Z.shiftr N 40 mod 2 ^ 256)) as (c & Ec & Hc).
  rewrite (decode_account_spec y N sep c HN Hsep Ec) in H. injection H as Hch <-.
  apply negb_false_iff, Z.eqb_eq in Hch. change 1099511627775 with (2 ^ 40 - 1) in Hch.
  rewrite land_mask in Hch by lia. rewrite shiftr_div in * by lia.
  assert (HX : 0 <= N / 2 ^ 40 < 2 ^ 256) by (split; [apply Z.div_pos | apply Z.div_lt_upper_bound]; lia).
  rewrite Z.mod_small in * by exact HX. split; [exact HX |].
  assert (EN : spelled (N / 2 ^ 40) c = N).
  { unfold spelled. rewrite <- Hch, Z.mul_comm. symmetry. apply Z.div_mod. lia. }
  eexists. split; [exact (encode_account_spec _ c HX Ec Hc) |]. rewrite EN.
  destruct Hsep as [-> | ->]; [left | right]; reflexivity.
Qed.

Lemma account_canonical_witness : exists s rest, encode_account 5 = Some (codes "flr_" ++ rest) /\
  (s = codes "flr_" ++ rest \/ s = codes "flr-" ++ rest).
Proof.
  destruct (account_check_range 5) as (c & Ec & Hc).
  destruct (spelled_parts 5 c ltac:(unfold word; lia) Hc) as (HN & E1 & E2).
  assert (D : decode_account 0 ([102; 108; 114; 45] ++ map letter (rev (digits32 60 (spelled 5 c)))) =
    Some (false, 5)).
  { rewrite (decode_account_spec 0 (spelled 5 c) 45 c HN ltac:(auto)); rewrite ?E1, ?E2, ?Z.eqb_refl; auto. }
  destruct (account_canonical 5 0 _ D) as (_ & rest & H1 & H2). eauto.
Defined.

(** A text with the delete character reaches [account_decode], whose
    assertion excludes it although the caller's range test and the table have it. *)
Theorem decode_account_aborts (y : Z) :
  decode_account y (codes "flr_1" ++ [127] ++ repeat 49 58) = None.
Proof. reflexivity. Qed.

(** ** The unions compute on numbers *)

Lemma be_val_cons (x : Z) (l : list Z) : be_val (x :: l) = x * 2 ^ (8 * Z.of_nat (length l)) + be_val l.
Proof.
  unfold be_val. cbn [rev]. rewrite le_val_app, length_rev. cbn [le_val]. lia.
Qed.

Lemma memcmp_val (a b : list Z) : bytes_ok a -> bytes_ok b -> length a = length b ->
  memcmp a b = if be_val a <? be_val b then -1 else if be_val b <? be_val a then 1 else 0.
Proof.
  intros Ha. revert b. induction Ha as [| x a Hx Ha IH]; intros b Hb L.
  - destruct b; [reflexivity | discriminate L].
  - destruct b as [| y b]; [discriminate L |]. inversion Hb as [| ? ? Hy Hb']; subst.
    injection L as L. cbn [memcmp]. rewrite !be_val_cons, <- L, (IH b Hb' L).
    pose proof (be_val_range a Ha) as Ra. pose proof (be_val_range b Hb') as Rb. rewrite <- L in Rb.
    set (w := 2 ^ (8 * Z.of_nat (length a))) in *.
    destruct (Z.ltb_spec x y) as [H1 | H1].
    + rewrite (proj2 (Z.ltb_lt _ _)) by nia. reflexivity.
    + destruct (Z.ltb_spec y x) as [H2 | H2].
      * rewrite (proj2 (Z.ltb_ge _ _)), (proj2 (Z.ltb_lt _ _)) by nia. reflexivity.
      * replace y with x by lia.
        destruct (Z.ltb_spec (be_val a) (be_val b)), (Z.ltb_spec (be_val b) (be_val a));
          repeat match goal with |- context [?u <? ?v] => destruct (Z.ltb_spec u v) end; lia.
Qed.

Lemma memcmp_be (n : nat) (x y : Z) : word (8 * Z.of_nat n) x -> word (8 * Z.of_nat n) y ->
  memcmp (be_bytes n x) (be_bytes n y) = if x <? y then -1 else if y <? x then 1 else 0.
Proof.
  intros Hx Hy. rewrite memcmp_val by (auto with bytes; now rewrite !be_bytes_length).
  now rewrite !be_val_bytes, !Z.mod_small.
Qed.

(** All words are zero when all bytes are. *)
Lemma le_val_zero (l : list Z) : bytes_ok l -> le_val l = 0 <-> Forall (Z.eq 0) l.
Proof.
  induction 1 as [| b l Hb Hl IH]; cbn [le_val]; [now split |]. pose proof (le_val_range l Hl).
  rewrite Forall_cons_iff, <- IH. unfold Z.eq. lia.
Qed.

Lemma qwords_zero (n : nat) (l : list Z) : bytes_ok l -> length l = (8 * n)%nat ->
  forallb (Z.eqb 0) (qwords n l) = (le_val l =? 0).
Proof.
  revert l. induction n as [| n IH]; intros l Hl L; [destruct l; [reflexivity | discriminate L] |].
  cbn [qwords forallb]. rewrite IH by (auto with bytes; rewrite length_skipn; lia).
  pose proof (le_val_range _ (bytes_ok_firstn 8 l Hl)) as R1.
  pose proof (le_val_range _ (bytes_ok_skipn 8 l Hl)) as R2.
  rewrite <- (firstn_skipn 8 l) at 3. rewrite le_val_app.
  replace (length (firstn 8 l)) with 8%nat by (rewrite length_firstn; lia). apply eq_iff_eq_true.
  rewrite andb_true_iff, !Z.eqb_eq. lia.
Qed.

Lemma is_zero_be (n : nat) (x : Z) : word (8 * Z.of_nat (8 * n)) x ->
  forallb (Z.eqb 0) (qwords n (be_bytes (8 * n) x)) = (x =? 0).
Proof.
  intros Hx. rewrite qwords_zero by (auto with bytes; now rewrite be_bytes_length).
  apply eq_iff_eq_true. rewrite !Z.eqb_eq, le_val_zero by auto with bytes.
  unfold be_bytes. split; intros H.
  - apply Forall_rev in H. rewrite rev_involutive in H. apply le_val_zero in H; [| auto with bytes].
    rewrite le_val_bytes, Z.mod_small in H by exact Hx. exact H.
  - apply Forall_rev. apply le_val_zero; [auto with bytes |]. now rewrite le_val_bytes, H, Z.mod_0_l
      by (apply Z.pow_nonzero; lia).
Qed.

(** Exclusive or, word by word, is exclusive or of the bytes and of the numbers. *)
Lemma lxor_join (a b x y n : Z) : 0 <= n -> 0 <= a < 2 ^ n -> 0 <= b < 2 ^ n ->
  Z.lxor (a + 2 ^ n * x) (b + 2 ^ n * y) = Z.lxor a b + 2 ^ n * Z.lxor x y.
Proof.
  intros Hn Ha Hb. pose proof (lxor_range a b n Hn Ha Hb) as Hc.
  rewrite !(Z.mul_comm (2 ^ n)). rewrite <- !lor_disjoint by assumption.
  rewrite <- !Z.shiftl_mul_pow2 by assumption. apply Z.bits_inj'. intros i Hi.
  rewrite !Z.lxor_spec, !Z.lor_spec, Z.lxor_spec, !Z.shiftl_spec by assumption.
  destruct (Z.le_gt_cases n i) as [Hle | Hlt].
  - rewrite !(testbit_above _ n i), Z.lxor_spec by (try assumption; lia). reflexivity.
  - rewrite !(Z.testbit_neg_r _ (i - n)) by lia. now rewrite !orb_false_r.
Qed.

Lemma le_val_xor (a b : list Z) : bytes_ok a -> bytes_ok b -> length a = length b ->
  le_val (xor_words a b) = Z.lxor (le_val a) (le_val b) /\ bytes_ok (xor_words a b) /\
  length (xor_words a b) = length a.
Proof.
  intros Ha. revert b. induction Ha as [| x a Hx Ha IH]; intros b Hb L.
  - destruct b; [repeat split; constructor | discriminate L].
  - destruct b as [| y b]; [discriminate L |]. inversion Hb as [| ? ? Hy Hb']; subst.
    injection L as L. destruct (IH b Hb' L) as (E & Ho & Hl). cbn [xor_words le_val length].
    rewrite lxor_join, E, Hl by (try assumption; lia). repeat split.
    constructor; [apply lxor_range; lia | exact Ho].
Qed.

Lemma xor_words_app (a b c d : list Z) : length a = length c ->
  xor_words (a ++ b) (c ++ d) = xor_words a c ++ xor_words b d.
Proof.
  revert c. induction a as [| x a IH]; intros [| y c] L; try discriminate L; [reflexivity |].
  injection L as L. cbn [app xor_words]. now rewrite IH.
Qed.

Lemma xor_qwords (n : nat) (a b : list Z) : bytes_ok a -> bytes_ok b ->
  length a = (8 * n)%nat -> length b = (8 * n)%nat ->
  from_qwords (xor_words (qwords n a) (qwords n b)) = xor_words a b.
Proof.
  revert a b. induction n as [| n IH]; intros a b Ha Hb La Lb.
  - destruct a; [reflexivity | discriminate La].
  - cbn [qwords xor_words from_qwords].
    rewrite IH by (auto with bytes; rewrite length_skipn; lia).
    assert (L : length (firstn 8 a) = 8%nat /\ length (firstn 8 b) = 8%nat)
      by (rewrite !length_firstn; lia).
    destruct (le_val_xor (firstn 8 a) (firstn 8 b)) as (E & Ho & Hl); auto with bytes; [lia |].
    rewrite <- E. replace 8%nat with (length (xor_words (firstn 8 a) (firstn 8 b))) at 1 by lia.
    rewrite le_bytes_val, <- xor_words_app, !firstn_skipn by (try assumption; lia). reflexivity.
Qed.

Lemma xor_words_rev (a b : list Z) : length a = length b ->
  xor_words (rev a) (rev b) = rev (xor_words a b).
Proof.
  revert b. induction a as [| x a IH]; intros [| y b] L; try discriminate L; [reflexivity |].
  injection L as L. cbn [rev xor_words]. rewrite xor_words_app, IH by (rewrite ?length_rev; assumption).
  reflexivity.
Qed.

(** Comparison of the big-endian bytes with [memcmp], the zero test and the
    exclusive or on the host's words are the order, the zero test and the
    exclusive or of the numbers. *)
Theorem union_operators (x y : Z) (Hx : word 128 x) (Hy : word 128 y) (v w : Z) (Hv : word 256 v)
  (Hw : word 256 w) :
  uint128_lt x y = (x <? y) /\ uint128_gt x y = (y <? x) /\ uint128_is_zero x = (x =? 0) /\
  uint256_lt v w = (v <? w) /\ uint256_is_zero v = (v =? 0) /\ uint256_xor v w = Z.lxor v w.
Proof.
  unfold uint128_lt, uint128_gt, uint256_lt. rewrite (memcmp_be 16), (memcmp_be 32) by assumption.
  repeat apply conj.
  - destruct (x <? y), (y <? x); reflexivity.
  - destruct (Z.ltb_spec x y), (Z.ltb_spec y x); lia || reflexivity.
  - exact (is_zero_be 2 x Hx).
  - destruct (v <? w), (w <? v); reflexivity.
  - exact (is_zero_be 4 v Hv).
  - unfold uint256_xor. rewrite (xor_qwords 4) by (auto with bytes; now rewrite be_bytes_length).
    unfold be_val, be_bytes. rewrite xor_words_rev, rev_involutive by now rewrite !le_bytes_length.
    destruct (le_val_xor (le_bytes 32 v) (le_bytes 32 w)) as (-> & _); auto with bytes. rewrite !le_val_bytes, !Z.mod_small by assumption. reflexivity.
Qed.

Lemma union_operators_witness : uint128_lt 255 256 = true /\ uint256_xor 12 10 = 6.
Proof.
  destruct (union_operators 255 256 ltac:(unfold word; lia) ltac:(unfold word; lia) 12 10
    ltac:(unfold word; lia) ltac:(unfold word; lia)) as (E1 & _ & _ & _ & _ & E2).
  rewrite E1, E2. split; reflexivity.
Defined.

(** ** Balances *)

(** Decimal digits, high digit first. *)
Definition number10 (l : list Z) : Z := fold_left (fun a d => a * 10 + d) l 0.
Definition dec_digit (d : Z) : Prop := 0 <= d < 10.
Definition dec_text (l : list Z) : list Z := map (Z.add 48) l.

Fixpoint digits10 (n : nat) (x : Z) : list Z :=
  match n with
  | O => []
  | S n' => x / 10 ^ Z.of_nat n' :: digits10 n' (x mod 10 ^ Z.of_nat n')
  end.

Lemma digits10_length (n : nat) (x : Z) : length (digits10 n x) = n.
Proof. revert x. induction n as [| n IH]; intros x; cbn [digits10 length]; [| rewrite IH]; reflexivity. Qed.

Lemma pow10_pos (n : nat) : 0 < 10 ^ Z.of_nat n.
Proof. apply Z.pow_pos_nonneg; lia. Qed.

Lemma pow10_succ (n : nat) : 10 ^ Z.of_nat (S n) = 10 * 10 ^ Z.of_nat n.
Proof. rewrite Nat2Z.inj_succ, Z.pow_succ_r by lia. reflexivity. Qed.

Lemma top_digit (n : nat) (x : Z) : 0 <= x < 10 ^ Z.of_nat (S n) -> dec_digit (x / 10 ^ Z.of_nat n).
Proof.
  rewrite pow10_succ. intros Hx. pose proof (pow10_pos n).
  split; [apply Z.div_pos; lia | apply Z.div_lt_upper_bound; lia].
Qed.

Lemma digits10_ok (n : nat) (x : Z) : 0 <= x < 10 ^ Z.of_nat n -> Forall dec_digit (digits10 n x).
Proof.
  revert x. induction n as [| n IH]; intros x Hx; constructor; [now apply top_digit |].
  apply IH, Z.mod_pos_bound, pow10_pos.
Qed.

Lemma fold10 (l : list Z) (acc : Z) :
  fold_left (fun a d => a * 10 + d) l acc = acc * 10 ^ Z.of_nat (length l) + number10 l.
Proof.
  unfold number10. revert acc. induction l as [| d l IH]; intros acc; cbn [fold_left length].
  - change (Z.of_nat 0) with 0. lia.
  - rewrite IH, (IH (0 * 10 + d)), pow10_succ. ring.
Qed.

Lemma number10_cons (d : Z) (l : list Z) : number10 (d :: l) = d * 10 ^ Z.of_nat (length l) + number10 l.
Proof. unfold number10 at 1. cbn [fold_left]. rewrite fold10. ring. Qed.

Lemma number10_digits (n : nat) (x : Z) : 0 <= x < 10 ^ Z.of_nat n -> number10 (digits10 n x) = x.
Proof.
  revert x. induction n as [| n IH]; intros x Hx; [change (10 ^ Z.of_nat 0) with 1 in Hx; cbn; lia |].
  cbn [digits10]. rewrite number10_cons, digits10_length, IH by (apply Z.mod_pos_bound, pow10_pos).
  pose proof (pow10_pos n). pose proof (Z.div_mod x (10 ^ Z.of_nat n) ltac:(lia)). lia.
Qed.

Lemma print_digit (d : Z) : dec_digit d -> print_dec d = [48 + d].
Proof.
  intros Hd. unfold dec_digit in Hd.
  assert (H : forallb (fun n => match print_dec (Z.of_nat n) with
    | [c] => c =? 48 + Z.of_nat n | _ => false end) (seq 0 10) = true) by reflexivity.
  rewrite forallb_forall in H. specialize (H (Z.to_nat d)). rewrite in_seq, Z2Nat.id in H by lia.
  specialize (H ltac:(lia)). destruct (print_dec d) as [| c [| ? ?]]; try discriminate H.
  apply Z.eqb_eq in H. now subst.
Qed.

(** The loop finds the leading power of ten of a 128-bit number. *)
Lemma largest_pow10_spec (value : Z) (fuel k : nat) : 0 <= value < 10 ^ 39 ->
  (40 <= fuel + k)%nat -> (k <= 38)%nat -> (10 ^ Z.of_nat k <= value \/ k = 0%nat) ->
  exists n, largest_pow10 fuel (10 ^ Z.of_nat k) (Z.of_nat (S k)) value =
      Some (10 ^ Z.of_nat n, Z.of_nat (S n)) /\ (n <= 38)%nat /\
    (10 ^ Z.of_nat n <= value \/ n = 0%nat) /\ value < 10 ^ Z.of_nat (S n).
Proof.
  intros Hv. revert k. induction fuel as [| fuel IH]; intros k Hf Hk H0; [lia |].
  cbn [largest_pow10]. rewrite (Z.mul_comm _ 10), <- pow10_succ.
  pose proof (Z.pow_le_mono_r 10 (Z.of_nat (S k)) 39 ltac:(lia) ltac:(lia)).
  pose proof (pow10_pos (S k)). rewrite Z.mod_small by lia.
  destruct (Z.ltb_spec value (10 ^ Z.of_nat (S k))) as [Hlt | Hge]; [exists k; auto |].
  replace (Z.of_nat (S k) + 1) with (Z.of_nat (S (S k))) by lia. apply IH; [lia | | now left].
  enough (Z.of_nat (S k) < 39) by lia. apply (Z.pow_lt_mono_r_iff 10); lia.
Qed.

(** The digits, and separators between them. *)
Lemma dec_loop_spec (sep : Z) (emit : list bool) (k : nat) : forall fuel rem count,
  (k + 2 <= fuel)%nat -> 0 <= rem < 10 ^ Z.of_nat (S k) -> ~ 48 <= sep < 58 ->
  exists t, dec_loop fuel (10 ^ Z.of_nat k) rem count sep emit = Some t /\
    filter (fun c => negb (c =? sep)) t = dec_text (digits10 (S k) rem) /\
    (sep = 0 -> t = dec_text (digits10 (S k) rem)).
Proof.
  induction k as [| k IH]; intros [| fuel] rem count Hf Hr Hs; try lia; cbn [dec_loop].
  - change (10 ^ Z.of_nat 0) with 1. cbn [Z.ltb Z.compare]. rewrite Z.div_1_r.
    change (10 ^ Z.of_nat 1) with 10 in Hr. change (1 / 10) with 0.
    destruct fuel as [| fuel]; [lia |]. cbn [dec_loop Z.ltb Z.compare option_map].
    rewrite (print_digit rem Hr), !andb_false_r. cbn [app digits10 dec_text map].
    change (10 ^ Z.of_nat 0) with 1. rewrite Z.div_1_r. eexists. split; [reflexivity |].
    split; [| reflexivity]. cbn [filter]. rewrite (proj2 (Z.eqb_neq _ _)) by lia. reflexivity.
  - pose proof (pow10_pos (S k)) as Hp. rewrite (proj2 (Z.ltb_lt _ _) Hp).
    replace (10 ^ Z.of_nat (S k) / 10) with (10 ^ Z.of_nat k)
      by (rewrite pow10_succ, Z.mul_comm, Z.div_mul; lia).
    assert (E : rem - rem / 10 ^ Z.of_nat (S k) * 10 ^ Z.of_nat (S k) = rem mod 10 ^ Z.of_nat (S k))
      by (rewrite Z.mod_eq by lia; lia). rewrite E.
    destruct (IH fuel (rem mod 10 ^ Z.of_nat (S k)) (count - 1)) as (t & -> & F & P);
      [lia | apply Z.mod_pos_bound; lia | exact Hs |]. cbn [option_map].
    pose proof (top_digit _ _ Hr) as Hd. unfold dec_digit in Hd. rewrite (print_digit _ Hd).
    change (dec_text (digits10 (S (S k)) rem)) with
      (48 + rem / 10 ^ Z.of_nat (S k) :: dec_text (digits10 (S k) (rem mod 10 ^ Z.of_nat (S k)))).
    eexists. split; [reflexivity |]. split.
    + cbn [app filter]. rewrite (proj2 (Z.eqb_neq _ sep)) by lia. cbn [negb]. rewrite filter_app, F.
      destruct (_ && _ && _); cbn [filter]; rewrite ?Z.eqb_refl; reflexivity.
    + intros Es. rewrite (P Es), Es. reflexivity.
Qed.

(** The integer part of a balance is printed in decimal: without grouping the
    text is the digits of the number, with no leading zero; with a separator
    that is not a digit, taking the separators out gives the same text. *)
Theorem format_dec_digits (value sep : Z) (groupings : list Z) (Hv : word 128 value)
  (Hs : ~ 48 <= sep < 58) :
  exists ds t, format_dec value 0 groupings = Some (dec_text ds) /\ Forall dec_digit ds /\
    number10 ds = value /\ (ds = [0] \/ hd 0 ds <> 0) /\
    format_dec value sep groupings = Some t /\ filter (fun c => negb (c =? sep)) t = dec_text ds.
Proof.
  unfold word in Hv. assert (Hv' : 0 <= value < 10 ^ 39) by (split; [lia | apply (Z.lt_trans _ (2 ^ 128)); lia]).
  destruct (largest_pow10_spec value 40 0 Hv') as (n & E & Hn & Hlead & Hb); [lia | lia | now right |].
  change (10 ^ Z.of_nat 0) with 1 in E. change (Z.of_nat 1) with 1 in E.
  unfold format_dec. rewrite E, (proj2 (Z.ltb_ge 39 _)) by lia.
  exists (digits10 (S n) value).
  destruct (dec_loop_spec sep (if negb (sep =? 0) then emit_groups (Z.to_nat (Z.of_nat (S n))) 0 0 groupings
    else []) n 40 value (Z.of_nat (S n))) as (t & Et & F & _); [lia | lia | exact Hs |].
  destruct (dec_loop_spec 0 [] n 40 value (Z.of_nat (S n))) as (t0 & Et0 & _ & P0); [lia | lia | lia |].
  exists t. change (negb (0 =? 0)) with false. cbv iota. rewrite Et0, (P0 eq_refl).
  split; [reflexivity |]. split; [apply digits10_ok; lia |]. split; [apply number10_digits; lia |].
  split; [| split; [exact Et | exact F]].
  cbn [digits10 hd]. destruct Hlead as [Hle | ->].
  - right. pose proof (pow10_pos n). pose proof (Z.div_str_pos value (10 ^ Z.of_nat n) ltac:(lia)). lia.
  - change (10 ^ Z.of_nat 0) with 1. rewrite Z.div_1_r.
    destruct (Z.eq_dec value 0) as [-> |]; [now left | now right].
Qed.

Lemma format_dec_digits_witness : exists ds t, format_dec 1234567 44 [3] = Some t /\
  filter (fun c => negb (c =? 44)) t = dec_text ds /\ number10 ds = 1234567.
Proof.
  destruct (format_dec_digits 1234567 44 [3] ltac:(unfold word; lia) ltac:(lia))
    as (ds & t & _ & _ & E & _ & Et & F). eauto.
Defined.

(** The fraction of a balance is cut off, not rounded: on a scale of [10^k]
    and a precision [p], the text is digits whose value at that scale differs
    from the fraction by less than the last digit, and by nothing when fewer than
    [p] digits are printed. *)
Theorem format_frac_truncates (k : nat) : forall (fuel : nat) (frac p : Z),
  (k < fuel)%nat -> 0 <= frac < 10 ^ Z.of_nat k -> 0 <= p ->
  exists ds r, format_frac fuel frac (10 ^ Z.of_nat k) p = Some (dec_text ds) /\ Forall dec_digit ds /\
    (length ds <= k)%nat /\ Z.of_nat (length ds) <= p /\
    frac = number10 ds * 10 ^ Z.of_nat (k - length ds) + r /\ 0 <= r < 10 ^ Z.of_nat (k - length ds) /\
    (r = 0 \/ Z.of_nat (length ds) = p).
Proof.
  induction k as [| k IH]; intros [| fuel] frac p Hf Hr Hp; try lia; cbn [format_frac].
  - change (10 ^ Z.of_nat 0) with 1 in *. cbn [Z.ltb Z.compare andb Pos.compare Pos.compare_cont].
    exists [], 0. cbn [length dec_text map number10 fold_left Nat.sub]. change (10 ^ Z.of_nat 0) with 1.
    repeat apply conj; first [reflexivity | lia | constructor].
  - pose proof (pow10_pos k) as Hk. rewrite pow10_succ in Hr |- *.
    rewrite (proj2 (Z.ltb_lt 1 _)) by lia. cbn [andb].
    destruct (Z.ltb_spec 0 frac) as [H0 | H0]; [destruct (Z.ltb_spec 0 p) as [H1 | H1] |]; cbn [andb].
    + replace (10 * 10 ^ Z.of_nat k / 10) with (10 ^ Z.of_nat k) by (rewrite Z.mul_comm, Z.div_mul; lia).
      assert (Hd : dec_digit (frac / 10 ^ Z.of_nat k)) by (apply top_digit; rewrite pow10_succ; lia).
      replace (frac - frac / 10 ^ Z.of_nat k * 10 ^ Z.of_nat k) with (frac mod 10 ^ Z.of_nat k)
        by (rewrite Z.mod_eq by lia; lia).
      destruct (IH fuel (frac mod 10 ^ Z.of_nat k) (p - 1)) as (ds & r & -> & Hds & L1 & L2 & E & R & D);
        [lia | apply Z.mod_pos_bound; lia | lia |]. rewrite (print_digit _ Hd). cbn [option_map app].
      exists (frac / 10 ^ Z.of_nat k :: ds), r. cbn [length Nat.sub]. rewrite number10_cons.
      repeat apply conj; [reflexivity | now constructor | lia | lia | | lia | lia | lia].
      rewrite Z.mul_add_distr_r, <- Z.mul_assoc, <- Z.pow_add_r by lia.
      replace (Z.of_nat (length ds) + Z.of_nat (k - length ds)) with (Z.of_nat k) by lia.
      pose proof (Z.div_mod frac (10 ^ Z.of_nat k) ltac:(lia)). lia.
    + exists [], frac. cbn [length dec_text map number10 fold_left Nat.sub].
      rewrite pow10_succ. repeat apply conj; first [reflexivity | lia | constructor].
    + exists [], frac. cbn [length dec_text map number10 fold_left Nat.sub].
      rewrite pow10_succ. repeat apply conj; first [reflexivity | lia | constructor].
Qed.

Lemma format_frac_truncates_witness : exists ds r,
  format_frac 4 125 (10 ^ Z.of_nat 3) 2 = Some (dec_text ds) /\
  125 = number10 ds * 10 ^ Z.of_nat (3 - length ds) + r.
Proof.
  destruct (format_frac_truncates 3 4 125 2 ltac:(lia) ltac:(split; [lia | reflexivity]) ltac:(lia))
    as (ds & r & E & _ & _ & _ & F & _). eauto.
Defined.

End Numbers.
