(* ===== verification/Work.v ===== *)
(** * Proof of work

    Model of [nano/lib/work.cpp] and [nano/node/xorshift.hpp]: the work value of
    a nonce, its validation, the generator of nonces, and the pool of threads
    that search for work.

    The pool is a machine whose events are the sections the code runs under the
    mutex, the reads of the atomic [ticket] outside it, and one attempt of the
    search loop; any interleaving of the threads and of the callers is a list of
    events.  A callback is the request it belongs to, and calling it appends to
    a log. *)

From stdpp Require Import base list.
From Stdlib Require Import ZArith Lia.
From S2P Require Import Prelude Blocks Numbers.
Local Open Scope Z_scope.

Module Work.

(** ** Values *)

(** The work value and the network the node is built for. *)
Class WorkEnv := { work_value : Z -> Z -> Z; is_test_network : bool }.

(** The node's: an eight-byte digest of the nonce and the root. *)
Definition node_work_value (root work : Z) : Z :=
  match Numbers.digest_le 8 [le_bytes 8 work; be_bytes 32 root] with Some v => v | None => 0 end.

Definition publish_test_threshold : Z := 18374686479671623680.
Definition publish_full_threshold : Z := 18446743798831644672.

Section Values.

Context `{WorkEnv}.

Definition publish_threshold : Z :=
  if is_test_network then publish_test_threshold else publish_full_threshold.

(** The result (whether the work is too small) and the difficulty. *)
Definition work_validate (root work : Z) : bool * Z :=
  let value := work_value root work in (value <? publish_threshold, value).

Definition work_validate_block (b : Block.block) : bool * Z :=
  work_validate (Block.root b) (Block.block_work b).

End Values.

(** ** [xorshift1024star] *)

Record xorshift := mk_xorshift { xs_s : list Z; xs_p : Z }.

Definition next (r : xorshift) : Z * xorshift :=
  let pn := Z.land (xs_p r + 1) 15 in
  let s0 := nth (Z.to_nat (xs_p r)) (xs_s r) 0 in
  let s1 := nth (Z.to_nat pn) (xs_s r) 0 in
  let s1 := Z.lxor s1 (shl64 s1 31) in
  let s1 := Z.lxor s1 (Z.shiftr s1 11) in
  let s0 := Z.lxor s0 (Z.shiftr s0 30) in
  let x := Z.lxor s0 s1 in
  (mul64 x 1181783497276652981, mk_xorshift (<[Z.to_nat pn := x]> (xs_s r)) pn).

(** ** The pool *)

Record work_item := mk_item { wi_id : nat; item : Z; difficulty : Z }.

#[export] Instance work_item_eq_dec : EqDecision work_item.
Proof. solve_decision. Defined.

(** A thread of [loop]. *)
Inductive worker :=
| waiting                                             (* at the top of the loop *)
| searching (current : work_item) (ticket_l work output : Z)
| leaving (current : work_item) (ticket_l work output : Z)  (* out of the search, before the lock *)
| calling (current : work_item) (work : Z)            (* the lock released, before the callback *)
| returned.

Inductive answer := solved (work : Z) | from_opencl (work : Z) | cancelled.

Record pool := mk_pool {
  ticket : Z; done : bool; pending : list work_item; threads : list worker;
  called : list (work_item * answer); aborted : bool }.

Definition start (n : nat) : pool := mk_pool 0 false [] (replicate n waiting) [] false.

Definition set_thread (p : pool) (i : nat) (w : worker) : pool :=
  mk_pool (ticket p) (done p) (pending p) (<[i := w]> (threads p)) (called p) (aborted p).

Definition call (p : pool) (r : work_item) (a : answer) : pool :=
  mk_pool (ticket p) (done p) (pending p) (threads p) (called p ++ [(r, a)]) (aborted p).

Inductive event :=
| ev_generate (r : work_item)
| ev_cancel (root : Z)
| ev_stop
| ev_take (i : nat)
| ev_attempt (i : nat) (work : Z)
| ev_leave (i : nat)
| ev_lock (i : nat)
| ev_callback (i : nat)
| ev_return (i : nat).

Section Pool.

Context `{WorkEnv} (opencl : Z -> option Z).

(** [work_pool::generate]. *)
Definition generate (p : pool) (r : work_item) : pool :=
  if item r =? 0 then mk_pool (ticket p) (done p) (pending p) (threads p) (called p) true
  else match opencl (item r) with
       | Some w => call p r (from_opencl w)
       | None => mk_pool (ticket p) (done p) (pending p ++ [r]) (threads p) (called p) (aborted p)
       end.

(** [work_pool::cancel]: the ticket moves if the front is cancelled, and every
    matching request is called back with nothing. *)
Definition cancel (p : pool) (root : Z) : pool :=
  let front := match pending p with r :: _ => item r =? root | [] => false end in
  mk_pool (if front then u32 (ticket p + 1) else ticket p) (done p)
    (List.filter (fun r => negb (item r =? root)) (pending p)) (threads p)
    (called p ++ map (fun r => (r, cancelled)) (List.filter (fun r => item r =? root) (pending p)))
    (aborted p).

Definition stop (p : pool) : pool :=
  mk_pool (ticket p) true (pending p) (threads p) (called p) (aborted p).

(** The section of [loop] after the search, under the lock. *)
Definition relock (p : pool) (i : nat) (r : work_item) (ticket_l work output : Z) : pool :=
  if ticket p =? ticket_l then
    let fails := (output <? publish_threshold) || negb (work_value (item r) work =? output) in
    mk_pool (u32 (ticket p + 1)) (done p) (tail (pending p)) (<[i := calling r work]> (threads p))
      (called p) (aborted p || fails)
  else set_thread p i waiting.

(** [None]: the event cannot happen now. *)
Definition step (p : pool) (e : event) : option pool :=
  match e with
  | ev_generate r => Some (generate p r)
  | ev_cancel root => Some (cancel p root)
  | ev_stop => Some (stop p)
  | ev_take i =>
      match threads p !! i, pending p with
      | Some waiting, r :: _ => Some (set_thread p i (searching r (ticket p) 0 0))
      | _, _ => None
      end
  | ev_attempt i work =>
      match threads p !! i with
      | Some (searching r t _ output) =>
          if output <? difficulty r
          then Some (set_thread p i (searching r t work (work_value (item r) work))) else None
      | _ => None
      end
  | ev_leave i =>
      match threads p !! i with
      | Some (searching r t work output) =>
          if negb (ticket p =? t) || negb (output <? difficulty r)
          then Some (set_thread p i (leaving r t work output)) else None
      | _ => None
      end
  | ev_lock i =>
      match threads p !! i with
      | Some (leaving r t work output) => Some (relock p i r t work output)
      | _ => None
      end
  | ev_callback i =>
      match threads p !! i with
      | Some (calling r work) => Some (call (set_thread p i waiting) r (solved work))
      | _ => None
      end
  | ev_return i =>
      match threads p !! i, pending p with
      | Some waiting, [] => if done p then Some (set_thread p i returned) else None
      | _, _ => None
      end
  end.

Fixpoint run (p : pool) (es : list event) : option pool :=
  match es with [] => Some p | e :: es' => p' ← step p e; run p' es' end.

(** ** What the pool promises *)

(** The request asks for at least the network's threshold, for a root that is not zero. *)
Definition fair (r : work_item) : Prop := publish_threshold <= difficulty r /\ item r <> 0.

Definition solves (r : work_item) (work : Z) : Prop :=
  fair r /\ difficulty r <= work_value (item r) work.

(** Where a thread's local variables stand: while the ticket is the one it took,
    the front of the queue is the request it took. *)
Definition holds (p : pool) (r : work_item) (t work output : Z) : Prop :=
  0 <= t <= ticket p /\ fair r /\ (t = ticket p -> head (pending p) = Some r) /\
  (difficulty r <= output -> output = work_value (item r) work).

Definition worker_ok (p : pool) (w : worker) : Prop :=
  match w with
  | searching r t work output => holds p r t work output
  | leaving r t work output => holds p r t work output /\ (t < ticket p \/ difficulty r <= output)
  | calling r work => solves r work
  | waiting | returned => True
  end.

Definition answered (ra : work_item * answer) : Prop :=
  match ra.2 with solved work => solves ra.1 work | _ => True end.

(** The invariant after [k] events. *)
Record pool_inv (k : Z) (p : pool) : Prop := {
  pi_ticket : 0 <= ticket p <= k;
  pi_pending : Forall fair (pending p);
  pi_thread (i : nat) (w : worker) : threads p !! i = Some w -> worker_ok p w;
  pi_called : Forall answered (called p);
  pi_aborted : aborted p = false }.

Lemma threshold_pos : 0 < publish_threshold.
Proof. unfold publish_threshold. now destruct is_test_network. Qed.

(** A thread's facts survive when the ticket grows or the front stays. *)
Lemma worker_ok_mono (p p' : pool) (w : worker) : ticket p <= ticket p' ->
  (ticket p' = ticket p -> forall r, head (pending p) = Some r -> head (pending p') = Some r) ->
  worker_ok p w -> worker_ok p' w.
Proof.
  intros Ht Hp.
  assert (Hh : forall r t work output, holds p r t work output -> holds p' r t work output).
  { intros r t work output (H1 & H2 & H3 & H4). split; [lia |]. split; [done |]. split; [| done].
    intros Et. apply Hp; [lia |]. apply H3. lia. }
  destruct w as [| r t wk o | r t wk o | r wk |]; cbn [worker_ok]; auto. intros [Hw Hl].
  split; [auto | lia].
Qed.

Lemma thread_update (p p' : pool) (i : nat) (w : worker) :
  threads p' = <[i := w]> (threads p) -> worker_ok p' w ->
  (forall j v, threads p !! j = Some v -> worker_ok p v) ->
  ticket p <= ticket p' ->
  (ticket p' = ticket p -> forall r, head (pending p) = Some r -> head (pending p') = Some r) ->
  forall j v, threads p' !! j = Some v -> worker_ok p' v.
Proof.
  intros E Hw Ha Ht Hp j v Hj. rewrite E in Hj. apply list_lookup_insert_Some in Hj.
  destruct Hj as [(_ & <- & _) | (_ & Hj)]; [done |]. exact (worker_ok_mono _ _ _ Ht Hp (Ha _ _ Hj)).
Qed.

Lemma relock_inv (k : Z) (p : pool) (i : nat) (r : work_item) (t work output : Z) :
  pool_inv k p -> k + 1 < 2 ^ 32 -> threads p !! i = Some (leaving r t work output) ->
  pool_inv (k + 1) (relock p i r t work output).
Proof.
  intros [I1 I2 I3 I4 I5] Hk Hi. destruct (I3 _ _ Hi) as [(H1 & [H2 H2'] & H3 & H4) H5]. unfold relock.
  destruct (Z.eqb_spec (ticket p) t) as [Et | Et].
  - assert (Ho : difficulty r <= output) by lia. specialize (H4 Ho).
    assert (Eu : u32 (ticket p + 1) = ticket p + 1) by (apply u32_small; lia).
    split; cbn [ticket pending called aborted]; [lia | | | done |].
    + destruct (pending p); [done |]. now inversion I2.
    + eapply (thread_update p); cbn [threads ticket pending]; [done | | exact I3 | lia | lia].
      split; [done | lia].
    + rewrite I5, (proj2 (Z.ltb_ge _ _)) by lia. rewrite <- H4, Z.eqb_refl. done.
  - split; cbn [set_thread ticket pending called aborted]; [lia | done | | done | done].
    eapply (thread_update p); cbn [threads ticket pending set_thread]; [done | done | exact I3 | lia | done].
Qed.

Lemma cancel_inv (k : Z) (p : pool) (root : Z) : pool_inv k p -> k + 1 < 2 ^ 32 ->
  pool_inv (k + 1) (cancel p root).
Proof.
  intros [I1 I2 I3 I4 I5] Hk. unfold cancel.
  set (front := match pending p with r :: _ => item r =? root | [] => false end).
  assert (Eu : u32 (ticket p + 1) = ticket p + 1) by (apply u32_small; lia).
  split; cbn [ticket pending called aborted]; [destruct front; lia | | | | done].
  - apply List.Forall_forall. intros r [Hr _]%filter_In. rewrite List.Forall_forall in I2. auto.
  - intros j v Hj. apply (worker_ok_mono p); cbn [ticket pending]; [destruct front; lia | | eauto].
    intros E r Hr. destruct (pending p) as [| r' l] eqn:Ep; [done |]. injection Hr as ->.
    subst front. destruct (item r =? root) eqn:Er; [lia |]. cbn [List.filter]. now rewrite Er.
  - apply Forall_app. split; [done |]. apply List.Forall_forall. intros ra (r & <- & _)%in_map_iff. done.
Qed.

Lemma generate_inv (k : Z) (p : pool) (r : work_item) : pool_inv k p -> fair r ->
  pool_inv (k + 1) (generate p r).
Proof.
  intros [I1 I2 I3 I4 I5] Hr. unfold generate. rewrite (proj2 (Z.eqb_neq _ _) (proj2 Hr)).
  destruct (opencl (item r)) as [w |];
    split; cbn [call ticket pending called aborted]; try done; try lia.
  - apply Forall_app. split; [done |]. repeat constructor.
  - apply Forall_app. split; [done |]. now constructor.
  - intros j v Hj. apply (worker_ok_mono p); cbn [ticket pending]; [lia | | eauto].
    intros _ r'. now destruct (pending p).
Qed.

Definition fair_event (e : event) : Prop := match e with ev_generate r => fair r | _ => True end.

Lemma step_inv (k : Z) (p p' : pool) (e : event) : pool_inv k p -> k + 1 < 2 ^ 32 -> fair_event e ->
  step p e = Some p' -> pool_inv (k + 1) p'.
Proof.
  intros Hp Hk He Es. pose proof Hp as [I1 I2 I3 I4 I5]. pose proof threshold_pos as Hpos.
  destruct e as [r | root | | i | i work | i | i | i | i]; cbn [step] in Es;
    repeat match type of Es with
    | context [threads p !! i] => destruct (threads p !! i) as [[| r t wk o | r t wk o | r wk |] |] eqn:Hi
    | context [match pending p with _ => _ end] => destruct (pending p) as [| r l] eqn:Ep
    | (if ?c then _ else _) = _ => destruct c eqn:Ec
    end; try discriminate Es; injection Es as <-.
  - now apply generate_inv.
  - now apply cancel_inv.
  - split; cbn [stop ticket pending called aborted]; try done. lia.
  - split; cbn [set_thread ticket pending called aborted]; try done; [lia | now rewrite Ep |].
    eapply (thread_update p); cbn [threads ticket pending set_thread];
      [done | | exact I3 | lia | done].
    inversion I2 as [| ? ? Hr _]; subst. cbn [worker_ok]. unfold holds. cbn [set_thread ticket pending].
    rewrite Ep. destruct Hr. split_and!; try done; try lia.
  - split; cbn [set_thread ticket pending called aborted]; try done; [lia |].
    eapply (thread_update p); cbn [threads ticket pending set_thread]; [done | | exact I3 | lia | done].
    destruct (I3 _ _ Hi) as (H1 & H2 & H3 & H4). cbn [worker_ok]. unfold holds. done.
  - split; cbn [set_thread ticket pending called aborted]; try done; [lia |].
    eapply (thread_update p); cbn [threads ticket pending set_thread]; [done | | exact I3 | lia | done].
    pose proof (I3 _ _ Hi) as Hh. split; [exact Hh |]. destruct Hh as (H1 & _).
    cbn [set_thread ticket]. apply orb_true_iff in Ec as [Ec | Ec]; apply negb_true_iff in Ec.
    + apply Z.eqb_neq in Ec. lia.
    + apply Z.ltb_ge in Ec. lia.
  - now apply relock_inv.
  - split; cbn [call set_thread ticket pending called aborted]; try done; [lia | |].
    + eapply (thread_update p); cbn [threads ticket pending set_thread call]; [done | done | exact I3 | lia | done].
    + apply Forall_app. split; [done |]. constructor; [exact (I3 _ _ Hi) | done].
  - split; cbn [set_thread ticket pending called aborted]; try done; [lia | now rewrite Ep |].
    eapply (thread_update p); cbn [threads ticket pending set_thread]; [done | done | exact I3 | lia | done].
Qed.

Lemma run_inv (es : list event) : forall (k : Z) (p p' : pool), pool_inv k p -> 0 <= k ->
  k + Z.of_nat (length es) < 2 ^ 32 -> Forall fair_event es -> run p es = Some p' ->
  pool_inv (k + Z.of_nat (length es)) p'.
Proof.
  induction es as [| e es IH]; intros k p p' Hp Hk Hl He Er.
  - injection Er as <-. cbn [length]. now rewrite Z.add_0_r.
  - cbn [run] in Er. inversion He as [| ? ? He1 He2]; subst. cbn [length] in *.
    destruct (step p e) as [p1 |] eqn:Es; [| discriminate Er].
    replace (k + Z.of_nat (S (length es))) with (k + 1 + Z.of_nat (length es)) by lia.
    apply (IH _ p1); [| lia | lia | done | done]. apply (step_inv k p p1 e); [done | lia | done | done].
Qed.

Lemma start_inv (n : nat) : pool_inv 0 (start n).
Proof.
  split; cbn [start ticket pending called aborted]; try done.
  intros i w [-> _]%lookup_replicate_1. exact I.
Qed.

(** ** Every request is accounted for *)

Definition in_call (w : worker) : list work_item :=
  match w with calling r _ => [r] | _ => [] end.

Definition account (p : pool) : list work_item :=
  pending p ++ concat (map in_call (threads p)) ++ map fst (called p).

Definition generated (es : list event) : list work_item :=
  concat (map (fun e => match e with ev_generate r => [r] | _ => [] end) es).

Lemma calls_insert (l : list worker) (i : nat) (w w' : worker) : l !! i = Some w ->
  concat (map in_call (<[i := w']> l)) ++ in_call w ≡ₚ in_call w' ++ concat (map in_call l).
Proof.
  revert i. induction l as [| x l IH]; intros [| i] Hi; try discriminate Hi; cbn.
  - injection Hi as ->. solve_Permutation.
  - rewrite <- (app_assoc (in_call x)), (IH i Hi). solve_Permutation.
Qed.

(** Moving thread [i] from [w] to [w']. *)
Lemma account_thread (p p' : pool) (i : nat) (w w' : worker) : threads p !! i = Some w ->
  threads p' = <[i := w']> (threads p) ->
  pending p' ++ in_call w' ++ map fst (called p') ≡ₚ pending p ++ in_call w ++ map fst (called p) ->
  account p' ≡ₚ account p.
Proof.
  intros Hi Et E. unfold account. rewrite Et. pose proof (calls_insert _ _ _ w' Hi) as Hc.
  apply (Permutation_app_inv_r (in_call w)).
  rewrite <- !app_assoc. rewrite (Permutation_app_comm (map fst (called p')) (in_call w)).
  rewrite (app_assoc _ (in_call w)), Hc.
  transitivity ((pending p' ++ in_call w' ++ map fst (called p')) ++ concat (map in_call (threads p)));
    [solve_Permutation |]. rewrite E. solve_Permutation.
Qed.

Lemma filter_split {A : Type} (f : A -> bool) (l : list A) :
  List.filter (fun x => negb (f x)) l ++ List.filter f l ≡ₚ l.
Proof.
  induction l as [| x l IH]; [done |]. cbn [List.filter]. destruct (f x); cbn [negb app].
  - rewrite <- IH at 3. solve_Permutation.
  - now rewrite IH.
Qed.

Lemma step_account (k : Z) (p p' : pool) (e : event) : pool_inv k p -> fair_event e ->
  step p e = Some p' -> account p' ≡ₚ account p ++ generated [e].
Proof.
  intros [I1 I2 I3 I4 I5] He Es.
  destruct e as [r | root | | i | i work | i | i | i | i]; cbn [step] in Es; unfold generated;
    cbn [map concat app]; rewrite ?app_nil_r;
    repeat match type of Es with
    | context [threads p !! i] => destruct (threads p !! i) as [[| r t wk o | r t wk o | r wk |] |] eqn:Hi
    | context [match pending p with _ => _ end] => destruct (pending p) as [| r l] eqn:Ep
    | (if ?c then _ else _) = _ => destruct c eqn:Ec
    end; try discriminate Es; injection Es as <-.
  - unfold generate. rewrite (proj2 (Z.eqb_neq _ _) (proj2 He)).
    destruct (opencl (item r)) as [w |]; unfold account; cbn [call pending threads called];
      rewrite ?map_app; solve_Permutation.
  - unfold account, cancel. cbn [pending threads called]. rewrite map_app, map_map. cbn [fst].
    rewrite map_id. rewrite <- (filter_split (fun r => item r =? root) (pending p)) at 3.
    solve_Permutation.
  - done.
  - apply (account_thread _ _ i waiting (searching r (ticket p) 0 0) Hi); done.
  - eapply (account_thread _ _ i _ _ Hi); done.
  - eapply (account_thread _ _ i _ _ Hi); done.
  - unfold relock. destruct (Z.eqb_spec (ticket p) t) as [Et | Et].
    + destruct (I3 _ _ Hi) as [(_ & _ & H3 & _) _]. specialize (H3 (eq_sym Et)).
      eapply (account_thread _ _ i _ _ Hi); [done |]. cbn [pending called in_call].
      destruct (pending p) as [| r' l]; [discriminate H3 |]. injection H3 as ->. cbn [tail].
      solve_Permutation.
    + eapply (account_thread _ _ i _ _ Hi); done.
  - eapply (account_thread _ _ i _ _ Hi); [done |]. cbn [call set_thread pending called in_call].
    rewrite map_app. cbn [map fst]. solve_Permutation.
  - eapply (account_thread _ _ i _ _ Hi); done.
Qed.

Lemma generated_cons (e : event) (es : list event) : generated (e :: es) = generated [e] ++ generated es.
Proof. unfold generated. cbn. now rewrite app_nil_r. Qed.

Lemma run_account (es : list event) : forall (k : Z) (p p' : pool), pool_inv k p -> 0 <= k ->
  k + Z.of_nat (length es) < 2 ^ 32 -> Forall fair_event es -> run p es = Some p' ->
  account p' ≡ₚ account p ++ generated es.
Proof.
  induction es as [| e es IH]; intros k p p' Hp Hk Hl He Er.
  - injection Er as <-. unfold generated. cbn. now rewrite app_nil_r.
  - cbn [run] in Er. inversion He as [| ? ? He1 He2]; subst. cbn [length] in *.
    destruct (step p e) as [p1 |] eqn:Es; [| discriminate Er].
    rewrite (IH (k + 1) p1 p'), (step_account k p p1 e), generated_cons; try done; try lia.
    + solve_Permutation.
    + apply (step_inv k p p1 e); [done | lia | done | done].
Qed.


(** In every such interleaving the requests handed to the pool are, each
    once, the ones that wait, the ones a thread is about to answer and the ones
    that were answered: no request is lost and none is answered twice. *)
Theorem work_pool_accounts (n : nat) (es : list event) (p : pool)
  (Hr : run (start n) es = Some p) (Hf : Forall fair_event es)
  (Hl : Z.of_nat (length es) < 2 ^ 32) :
  pending p ++ concat (map in_call (threads p)) ++ map fst (called p) ≡ₚ generated es.
Proof.
  pose proof (run_account es 0 _ _ (start_inv n) ltac:(lia) ltac:(lia) Hf Hr) as E.
  assert (E0 : account (start n) = []).
  { unfold account, start. cbn [pending threads called app map]. rewrite app_nil_r.
    clear. induction n as [| n IH]; [done |]. exact IH. }
  rewrite E0 in E. exact E.
Qed.

End Pool.

(** ** A run with two threads *)

Definition demo_work : WorkEnv := {| work_value := fun root work => root * 2 ^ 60 + work; is_test_network := true |}.

#[local] Existing Instance demo_work.

(** Both threads take the first request; the second is cancelled meanwhile; one
    thread solves it, the other finds that the ticket moved. *)
Definition demo_request : work_item := mk_item 0 15 publish_test_threshold.
Definition demo_events : list event :=
  [ev_generate demo_request; ev_generate (mk_item 1 7 publish_test_threshold); ev_take 0; ev_take 1;
   ev_attempt 0 0; ev_attempt 0 (2 ^ 60 - 1); ev_cancel 7; ev_leave 0; ev_lock 0; ev_leave 1; ev_lock 1;
   ev_callback 0].

Definition demo_pool : pool :=
  match run (fun _ => None) (start 2) demo_events with Some p => p | None => start 2 end.

Lemma demo_run : run (fun _ => None) (start 2) demo_events = Some demo_pool.
Proof. vm_compute. reflexivity. Qed.

Lemma demo_fair : Forall fair_event demo_events.
Proof.
  repeat constructor; unfold fair, publish_threshold; cbn [is_test_network demo_work demo_request item difficulty];
    lia.
Qed.


Lemma work_pool_accounts_witness :
  pending demo_pool ++ concat (map in_call (threads demo_pool)) ++ map fst (called demo_pool) ≡ₚ
  generated demo_events.
Proof.
  exact (work_pool_accounts (fun _ => None) 2 demo_events demo_pool demo_run demo_fair ltac:(reflexivity)).
Defined.

End Work.
