(* ===== verification/Records.v ===== *)
(** * The records of the tables

    Model of the byte formats of the values the store keeps:
    [nano/secure/common.cpp] (account, pending and unchecked records),
    [nano/secure/blockstore.cpp] (the sideband behind a block) and
    [nano/secure/versioning.cpp] (the formats of earlier schema versions, which
    the upgrades read).  Unions are big endian, integers are the host's little
    endian image, the sideband's integers are converted to big endian.

    [Format] is what a record offers to a table: well-formedness, a writer and a
    reader; [Lawful] is what a table relies on: reading inverts writing, and only
    written images are read. *)

From Stdlib Require Import ZArith Lia List Bool.
From S2P Require Import Prelude Blocks Store.
Import ListNotations.
Local Open Scope Z_scope.

Module Records.
Import Stream Block Store.Store.
Local Open Scope reader_scope.

(** ** Formats *)

Class Format (A : Type) := { fmt_ok : A -> Prop; write : A -> list Z; read_record : reader A }.

Class Lawful {A : Type} (F : Format A) : Prop := {
  fmt_roundtrip (x : A) : fmt_ok x -> reads read_record x (write x);
  fmt_canonical : writes_back fmt_ok write read_record }.

(** ** [account_info], [pending_info], [pending_key], [block_info] *)

(** The epoch is not written: it is the table's. *)
Definition account_info_serialize (i : account_info) : list Z :=
  be_bytes 32 (head i) ++ be_bytes 32 (rep_block i) ++ be_bytes 32 (open_block_hash i) ++
  be_bytes 16 (balance i) ++ le_bytes 8 (modified i) ++ le_bytes 8 (block_count i).

Definition account_info_deserialize (e : epoch) : reader account_info :=
  h <- read_be 32 ;; r <- read_be 32 ;; o <- read_be 32 ;; b <- read_be 16 ;;
  m <- read_le 8 ;; c <- read_le 8 ;; ret (mk_account_info h r o b m c e).

Definition account_info_ok (e : epoch) (i : account_info) : Prop :=
  word 256 (head i) /\ word 256 (rep_block i) /\ word 256 (open_block_hash i) /\
  word 128 (balance i) /\ word 64 (modified i) /\ word 64 (block_count i) /\ ai_epoch i = e.

Definition db_size : nat := 32 + 32 + 32 + 16 + 8 + 8.

#[export] Instance account_info_format (e : epoch) : Format account_info :=
  {| fmt_ok := account_info_ok e; write := account_info_serialize;
     read_record := account_info_deserialize e |}.

Definition pending_info_serialize (i : pending_info) : list Z :=
  be_bytes 32 (pi_source i) ++ be_bytes 16 (pi_amount i).

Definition pending_info_deserialize (e : epoch) : reader pending_info :=
  s <- read_be 32 ;; a <- read_be 16 ;; ret (mk_pending_info s a e).

Definition pending_info_ok (e : epoch) (i : pending_info) : Prop :=
  word 256 (pi_source i) /\ word 128 (pi_amount i) /\ pi_epoch i = e.

#[export] Instance pending_info_format (e : epoch) : Format pending_info :=
  {| fmt_ok := pending_info_ok e; write := pending_info_serialize;
     read_record := pending_info_deserialize e |}.

Record pending_key := mk_pending_key { pk_account : Z; pk_hash : Z }.

Definition pending_key_serialize (k : pending_key) : list Z :=
  be_bytes 32 (pk_account k) ++ be_bytes 32 (pk_hash k).

Definition pending_key_deserialize : reader pending_key :=
  a <- read_be 32 ;; h <- read_be 32 ;; ret (mk_pending_key a h).

#[export] Instance pending_key_format : Format pending_key :=
  {| fmt_ok := fun k => word 256 (pk_account k) /\ word 256 (pk_hash k);
     write := pending_key_serialize; read_record := pending_key_deserialize |}.

Record block_info := mk_block_info { bi_account : Z; bi_balance : Z }.

Definition block_info_serialize (i : block_info) : list Z :=
  be_bytes 32 (bi_account i) ++ be_bytes 16 (bi_balance i).

Definition block_info_deserialize : reader block_info :=
  a <- read_be 32 ;; b <- read_be 16 ;; ret (mk_block_info a b).

#[export] Instance block_info_format : Format block_info :=
  {| fmt_ok := fun i => word 256 (bi_account i) /\ word 128 (bi_balance i);
     write := block_info_serialize; read_record := block_info_deserialize |}.

(** ** [unchecked_info] *)

(** [verified] is the byte of the enumeration. *)
Record unchecked_info := mk_unchecked {
  ui_block : block; ui_account : Z; ui_modified : Z; ui_verified : Z }.

Definition unchecked_info_serialize (i : unchecked_info) : list Z :=
  serialize_block (ui_block i) ++ be_bytes 32 (ui_account i) ++ le_bytes 8 (ui_modified i) ++
  le_bytes 1 (ui_verified i).

Definition unchecked_info_deserialize : reader unchecked_info :=
  b <- deserialize_block ;; a <- read_be 32 ;; m <- read_le 8 ;; v <- read_le 1 ;;
  ret (mk_unchecked b a m v).

#[export] Instance unchecked_info_format : Format unchecked_info :=
  {| fmt_ok := fun i => block_ok (ui_block i) /\ word 256 (ui_account i) /\ word 64 (ui_modified i) /\
       word 8 (ui_verified i);
     write := unchecked_info_serialize; read_record := unchecked_info_deserialize |}.

(** ** [block_sideband] *)

Definition has_account (t : block_type) : bool :=
  match t with bt_state | bt_open => false | _ => true end.
Definition has_height (t : block_type) : bool := match t with bt_open => false | _ => true end.
Definition has_balance (t : block_type) : bool :=
  match t with bt_receive | bt_change | bt_open => true | _ => false end.

Definition when {A : Type} (c : bool) (l : list A) : list A := if c then l else [].

(** A field that is read only if [c], and is [d] otherwise. *)
Definition read_when (c : bool) (r : reader Z) (d : Z) : reader Z := if c then r else ret d.

Definition sideband_size (t : block_type) : nat :=
  32 + (if has_account t then 32 else 0) + (if has_height t then 8 else 0) +
  (if has_balance t then 16 else 0) + 8.

Definition sideband_serialize (t : block_type) (s : sideband) : list Z :=
  be_bytes 32 (sb_successor s) ++ when (has_account t) (be_bytes 32 (sb_account s)) ++
  when (has_height t) (be_bytes 8 (sb_height s)) ++
  when (has_balance t) (be_bytes 16 (sb_balance s)) ++ be_bytes 8 (sb_timestamp s).

(** [old] is the object that is filled: a field that is not stored keeps its
    value, except that the height of an open block is one. *)
Definition sideband_deserialize (t : block_type) (old : sideband) : reader sideband :=
  s <- read_be 32 ;; a <- read_when (has_account t) (read_be 32) (sb_account old) ;;
  h <- read_when (has_height t) (read_be 8) 1 ;;
  b <- read_when (has_balance t) (read_be 16) (sb_balance old) ;; u <- read_be 8 ;;
  ret (mk_sideband s a b h u).

Definition sideband_ok (t : block_type) (old : sideband) (s : sideband) : Prop :=
  word 256 (sb_successor s) /\
  (if has_account t then word 256 (sb_account s) else sb_account s = sb_account old) /\
  (if has_height t then word 64 (sb_height s) else sb_height s = 1) /\
  (if has_balance t then word 128 (sb_balance s) else sb_balance s = sb_balance old) /\
  word 64 (sb_timestamp s).

Definition sideband_format (t : block_type) (old : sideband) : Format sideband :=
  {| fmt_ok := sideband_ok t old; write := sideband_serialize t;
     read_record := sideband_deserialize t old |}.

(** ** Entries of the block tables *)

(** What [block_put] writes and [block_get] reads: the block, then its sideband. *)
Definition entry_serialize (x : entry) : list Z :=
  serialize (fst x) ++ sideband_serialize (type (fst x)) (snd x).

Definition entry_deserialize (t : block_type) (old : sideband) : reader entry :=
  b <- deserialize_block_type t ;; s <- sideband_deserialize t old ;; ret (b, s).

(** [block_successor_offset] on a database with full sidebands. *)
Definition block_successor_offset (t : block_type) (data : list Z) : nat :=
  length data - sideband_size t.

(** [block_successor] reads the hash there; [fill_value] and
    [block_successor_clear] overwrite it. *)
Definition successor_read (t : block_type) (data : list Z) : Z :=
  be_val (firstn 32 (skipn (block_successor_offset t data) data)).

Definition successor_write (t : block_type) (data : list Z) (h : Z) : list Z :=
  memcpy_at data (block_successor_offset t data) (be_bytes 32 h).

(** ** [endpoint_key]: the port is kept in network order *)

Definition swap16 (x : Z) : Z := Z.lor (u16 (Z.shiftl x 8)) (Z.shiftr x 8).

Record endpoint_key := mk_endpoint_key { ek_address : Z; ek_network_port : Z }.

Definition endpoint_key_new (address port : Z) : endpoint_key := mk_endpoint_key address (swap16 port).
Definition endpoint_port (k : endpoint_key) : Z := swap16 (ek_network_port k).

(** The key is the memory of the object. *)
Definition endpoint_key_bytes (k : endpoint_key) : list Z :=
  be_bytes 16 (ek_address k) ++ le_bytes 2 (ek_network_port k).

(** ** Earlier versions *)

Record account_info_v1 := mk_account_info_v1 {
  v1_head : Z; v1_rep_block : Z; v1_balance : Z; v1_modified : Z }.

Definition account_info_v1_serialize (i : account_info_v1) : list Z :=
  be_bytes 32 (v1_head i) ++ be_bytes 32 (v1_rep_block i) ++ be_bytes 16 (v1_balance i) ++
  le_bytes 8 (v1_modified i).

Definition account_info_v1_deserialize : reader account_info_v1 :=
  h <- read_be 32 ;; r <- read_be 32 ;; b <- read_be 16 ;; m <- read_le 8 ;;
  ret (mk_account_info_v1 h r b m).

#[export] Instance account_info_v1_format : Format account_info_v1 :=
  {| fmt_ok := fun i => word 256 (v1_head i) /\ word 256 (v1_rep_block i) /\ word 128 (v1_balance i) /\
       word 64 (v1_modified i);
     write := account_info_v1_serialize; read_record := account_info_v1_deserialize |}.

Record pending_info_v3 := mk_pending_info_v3 { v3_source : Z; v3_amount : Z; v3_destination : Z }.

Definition pending_info_v3_serialize (i : pending_info_v3) : list Z :=
  be_bytes 32 (v3_source i) ++ be_bytes 16 (v3_amount i) ++ be_bytes 32 (v3_destination i).

Definition pending_info_v3_deserialize : reader pending_info_v3 :=
  s <- read_be 32 ;; a <- read_be 16 ;; d <- read_be 32 ;; ret (mk_pending_info_v3 s a d).

#[export] Instance pending_info_v3_format : Format pending_info_v3 :=
  {| fmt_ok := fun i => word 256 (v3_source i) /\ word 128 (v3_amount i) /\ word 256 (v3_destination i);
     write := pending_info_v3_serialize; read_record := pending_info_v3_deserialize |}.

Record account_info_v5 := mk_account_info_v5 {
  v5_head : Z; v5_rep_block : Z; v5_open_block : Z; v5_balance : Z; v5_modified : Z }.

Definition account_info_v5_serialize (i : account_info_v5) : list Z :=
  be_bytes 32 (v5_head i) ++ be_bytes 32 (v5_rep_block i) ++ be_bytes 32 (v5_open_block i) ++
  be_bytes 16 (v5_balance i) ++ le_bytes 8 (v5_modified i).

Definition account_info_v5_deserialize : reader account_info_v5 :=
  h <- read_be 32 ;; r <- read_be 32 ;; o <- read_be 32 ;; b <- read_be 16 ;; m <- read_le 8 ;;
  ret (mk_account_info_v5 h r o b m).

#[export] Instance account_info_v5_format : Format account_info_v5 :=
  {| fmt_ok := fun i => word 256 (v5_head i) /\ word 256 (v5_rep_block i) /\ word 256 (v5_open_block i) /\
       word 128 (v5_balance i) /\ word 64 (v5_modified i);
     write := account_info_v5_serialize; read_record := account_info_v5_deserialize |}.

(** ** The laws *)

Lemma reads_skip {A : Type} (k : Z -> reader A) (x : A) (d : Z) (bytes : list Z) :
  reads (k d) x bytes -> reads (bind (ret d) k) x ([] ++ bytes).
Proof. intros H. exact H. Qed.

#[local] Hint Resolve deserialize_block_reads : stream.
Local Opaque read_be read_le deserialize_block.

Ltac fields' := cbn [head rep_block open_block_hash balance modified block_count ai_epoch pi_source
  pi_amount pi_epoch pk_account pk_hash bi_account bi_balance ui_block ui_account ui_modified
  ui_verified v1_head v1_rep_block v1_balance v1_modified v3_source v3_amount v3_destination v5_head
  v5_rep_block v5_open_block v5_balance v5_modified sb_successor sb_account sb_balance sb_height
  sb_timestamp] in *.

(** Both laws of a record whose format, reader and writer are unfolded by [unf]. *)
Ltac reads_record := intros x Hx; destruct x; fields'; destruct_ands; subst; read_fields.
Ltac writes_record := intros s x s' Hs H; invert_reads; fields'; rewrite <- ?app_assoc;
  repeat first [assumption | reflexivity | split].
Ltac lawful unf := split; unf; cbn [fmt_ok read_record write]; [reads_record | writes_record].

#[export] Instance account_info_lawful (e : epoch) : Lawful (account_info_format e).
Proof.
  lawful ltac:(unfold account_info_format, account_info_ok, account_info_serialize,
    account_info_deserialize).
Qed.

#[export] Instance pending_info_lawful (e : epoch) : Lawful (pending_info_format e).
Proof.
  lawful ltac:(unfold pending_info_format, pending_info_ok, pending_info_serialize,
    pending_info_deserialize).
Qed.

#[export] Instance pending_key_lawful : Lawful pending_key_format.
Proof. lawful ltac:(unfold pending_key_format, pending_key_serialize, pending_key_deserialize). Qed.

#[export] Instance block_info_lawful : Lawful block_info_format.
Proof. lawful ltac:(unfold block_info_format, block_info_serialize, block_info_deserialize). Qed.

#[export] Instance account_info_v1_lawful : Lawful account_info_v1_format.
Proof.
  lawful ltac:(unfold account_info_v1_format, account_info_v1_serialize, account_info_v1_deserialize).
Qed.

#[export] Instance pending_info_v3_lawful : Lawful pending_info_v3_format.
Proof.
  lawful ltac:(unfold pending_info_v3_format, pending_info_v3_serialize, pending_info_v3_deserialize).
Qed.

#[export] Instance account_info_v5_lawful : Lawful account_info_v5_format.
Proof.
  lawful ltac:(unfold account_info_v5_format, account_info_v5_serialize, account_info_v5_deserialize).
Qed.

#[export] Instance unchecked_info_lawful : Lawful unchecked_info_format.
Proof.
  split; unfold unchecked_info_format, unchecked_info_serialize, unchecked_info_deserialize;
    cbn [fmt_ok read_record write]; [reads_record |].
  intros s x s' Hs H. apply bind_inv in H as (b & t & Eb & H).
  destruct (deserialize_block_writes _ _ _ Hs Eb) as (-> & Ht & Hb). invert_reads. fields'.
  rewrite <- !app_assoc. repeat first [assumption | reflexivity | split].
Qed.

Lemma sideband_lawful (t : block_type) (old : sideband) : Lawful (sideband_format t old).
Proof.
  split; unfold sideband_format, sideband_ok, sideband_serialize, sideband_deserialize;
    cbn [fmt_ok read_record write].
  - intros x Hx. destruct x; fields'. destruct t; cbn [has_account has_height has_balance when read_when app] in *;
      destruct_ands; subst; read_fields.
  - intros s x s' Hs H. destruct t; cbn [has_account has_height has_balance when read_when app] in *;
      invert_reads; fields'; rewrite <- ?app_assoc; repeat first [assumption | reflexivity | split].
Qed.

Lemma sideband_length (t : block_type) (s : sideband) :
  length (sideband_serialize t s) = sideband_size t.
Proof.
  unfold sideband_serialize, sideband_size.
  destruct t; cbn [has_account has_height has_balance when app]; rewrite !length_app, !be_bytes_length;
    reflexivity.
Qed.

Lemma swap16_twice (p : Z) : word 16 p -> swap16 (swap16 p) = p.
Proof.
  unfold word, swap16, u16. intros Hp. rewrite !shiftr_div, !Z.shiftl_mul_pow2 by lia.
  assert (E : forall x, 0 <= x < 2 ^ 16 -> Z.lor ((x * 2 ^ 8) mod 2 ^ 16) (x / 2 ^ 8) =
    x / 2 ^ 8 + x mod 2 ^ 8 * 2 ^ 8).
  { intros x Hx. replace ((x * 2 ^ 8) mod 2 ^ 16) with (x mod 2 ^ 8 * 2 ^ 8) by (Z.div_mod_to_equations; lia).
    rewrite Z.lor_comm. apply lor_disjoint; [lia |]. Z.div_mod_to_equations; lia. }
  rewrite (E p) by lia. rewrite E by (Z.div_mod_to_equations; lia). Z.div_mod_to_equations; lia.
Qed.

(** Every record of the tables is read back from its image, whatever follows
    it, and nothing else is read: accounts, pending entries and their keys, block
    infos, unchecked blocks, sidebands of every block type, and the records of
    earlier versions.  The sizes the code computes are the sizes of the images,
    and an endpoint's port survives the conversion to network order. *)
Theorem records_lawful (e : epoch) (t : block_type) (old : sideband) :
  Lawful (account_info_format e) /\ Lawful (pending_info_format e) /\ Lawful pending_key_format /\
  Lawful block_info_format /\ Lawful unchecked_info_format /\ Lawful (sideband_format t old) /\
  Lawful account_info_v1_format /\ Lawful pending_info_v3_format /\ Lawful account_info_v5_format /\
  (forall i, length (account_info_serialize i) = db_size) /\
  (forall s, length (sideband_serialize t s) = sideband_size t) /\
  (forall p, word 16 p -> endpoint_port (endpoint_key_new 0 p) = p).
Proof.
  repeat (split; [first [exact _ | apply sideband_lawful] |]). split; [| split].
  - intros i. unfold account_info_serialize. rewrite !length_app, !be_bytes_length, !le_bytes_length.
    reflexivity.
  - apply sideband_length.
  - exact swap16_twice.
Qed.

(** ** Successors in place *)

Lemma sideband_split (t : block_type) (s : sideband) : exists rest,
  forall h, sideband_serialize t (mk_sideband h (sb_account s) (sb_balance s) (sb_height s)
    (sb_timestamp s)) = be_bytes 32 h ++ rest.
Proof. unfold sideband_serialize. fields'. eexists. reflexivity. Qed.

Lemma offset_entry (x : entry) :
  block_successor_offset (type (fst x)) (entry_serialize x) = length (serialize (fst x)).
Proof.
  unfold block_successor_offset, entry_serialize. rewrite length_app, sideband_length. lia.
Qed.

(** The offset the code computes from the size of the value is where the
    successor is: reading there gives the successor of the entry, and
    overwriting the hash there gives the image of the entry with that successor,
    so the updates of [fill_value] and [block_successor_clear] on the bytes are
    [set_successor] on the entry; and the entry is read back. *)
Theorem entry_successor (b : block) (s old : sideband) (h : Z) (rest : list Z) (Hb : block_ok b)
  (Hs : sideband_ok (type b) old s) (Hh : word 256 h) :
  entry_deserialize (type b) old (entry_serialize (b, s) ++ rest) = Some ((b, s), rest) /\
  successor_read (type b) (entry_serialize (b, s)) = sb_successor s /\
  successor_write (type b) (entry_serialize (b, s)) h = entry_serialize (set_successor (b, s) h).
Proof.
  pose proof (offset_entry (b, s)) as Ho. cbn [fst snd] in Ho.
  destruct (sideband_split (type b) s) as (tail & E).
  assert (E0 : sideband_serialize (type b) s = be_bytes 32 (sb_successor s) ++ tail)
    by (rewrite <- E; now destruct s). split; [| split].
  - revert rest. change (reads (entry_deserialize (type b) old) (b, s) (entry_serialize (b, s))).
    unfold entry_deserialize, entry_serialize. eapply reads_bind; [now apply deserialize_type_reads |].
    cbn [fst snd]. rewrite <- (app_nil_r (sideband_serialize _ _)).
    eapply reads_bind; [exact (@fmt_roundtrip _ _ (sideband_lawful (type b) old) s Hs) | apply reads_ret].
  - unfold successor_read. rewrite Ho. unfold entry_serialize. cbn [fst snd].
    rewrite skipn_app, skipn_all, Nat.sub_diag, skipn_O. cbn [app].
    rewrite E0, firstn_app, be_bytes_length, Nat.sub_diag, app_nil_r.
    rewrite firstn_all2 by now rewrite be_bytes_length.
    rewrite be_val_bytes. apply Z.mod_small. apply Hs.
  - unfold successor_write. rewrite Ho. unfold entry_serialize, memcpy_at, set_successor. cbn [fst snd].
    rewrite E, E0, be_bytes_length.
    rewrite firstn_app, firstn_all, Nat.sub_diag, app_nil_r.
    rewrite skipn_app, (skipn_all2 (serialize b)) by lia.
    replace (length (serialize b) + 32 - length (serialize b))%nat with 32%nat by lia.
    rewrite skipn_app, be_bytes_length, Nat.sub_diag, skipn_all2 by now rewrite be_bytes_length.
    reflexivity.
Qed.

Lemma entry_successor_witness :
  successor_write bt_change (entry_serialize (change_block (mk_change 3 4) 5 6, mk_sideband 0 1 2 3 4)) 9 =
  entry_serialize (change_block (mk_change 3 4) 5 6, mk_sideband 9 1 2 3 4).
Proof.
  refine (proj2 (proj2 (entry_successor (change_block (mk_change 3 4) 5 6) (mk_sideband 0 1 2 3 4)
    (mk_sideband 0 0 0 0 0) 9 [] _ _ _))).
  - concrete_block_ok.
  - unfold sideband_ok, word. cbn. lia.
  - unfold word. lia.
Defined.

End Records.
