(* ===== verification/Votes.v ===== *)
(** * Votes

    Model of [nano::vote] of [nano/secure/common.cpp]: a representative's
    signature over a sequence number and the hashes of blocks, which travel with
    the vote as whole blocks or as hashes.  Its digest, its two byte formats (with
    a type byte per block, and with one type for all), and the digest by which
    [vote_uniquer] identifies votes. *)

From Stdlib Require Import String ZArith Lia List Bool.
From S2P Require Import Prelude Blake2b Blocks Numbers.
Import ListNotations.
Local Open Scope Z_scope.

Module Votes.
Import Stream Block.
Local Open Scope reader_scope.

(** The variant [shared_ptr<block>] or [block_hash]. *)
Inductive vote_block := vote_full (b : block) | vote_hash_only (h : Z).

Definition which (x : vote_block) : bool := match x with vote_full _ => false | vote_hash_only _ => true end.

Record vote := mk_vote {
  sequence : Z; blocks : list vote_block; vote_account : Z; signature : Z }.

(** ** Digests *)

Definition hash_prefix : list Z := Numbers.codes "vote ".

Section Digests.

Context `{BlockHash}.

(** [iterate_vote_blocks_as_hash]. *)
Definition as_hash (x : vote_block) : Z :=
  match x with vote_full b => hash b | vote_hash_only h => h end.

Definition prefixed (v : vote) : bool :=
  (1 <? length (blocks v))%nat || match blocks v with x :: _ => which x | [] => false end.

Definition vote_chunks (v : vote) : list (list Z) :=
  (if prefixed v then [hash_prefix] else []) ++
  map (fun x => be_bytes 32 (as_hash x)) (blocks v) ++ [le_bytes 8 (sequence v)].

Definition vote_hash (v : vote) : option Z := digest_of 32 (vote_chunks v).

(** [sizeof (account.bytes.data ())] is the size of a pointer. *)
Definition vote_full_hash (v : vote) : option Z :=
  match vote_hash v with
  | Some h => digest_of 32 [be_bytes 32 h; firstn 8 (be_bytes 32 (vote_account v));
                            firstn 8 (be_bytes 64 (signature v))]
  | None => None
  end.

(** ** Byte formats *)

Definition vote_head (v : vote) : list Z :=
  be_bytes 32 (vote_account v) ++ be_bytes 64 (signature v) ++ le_bytes 8 (sequence v).

(** One block of [serialize (stream, type)]; [None] is the failed assertion. *)
Definition serialize_as (t : block_type) (x : vote_block) : option (list Z) :=
  match x with
  | vote_hash_only h => if type_eqb t bt_not_a_block then Some (be_bytes 32 h) else None
  | vote_full b => if type_eqb t bt_not_a_block then Some (be_bytes 32 (hash b)) else Some (serialize b)
  end.

Fixpoint serialize_all (t : block_type) (l : list vote_block) : option (list Z) :=
  match l with
  | [] => Some []
  | x :: l' => match serialize_as t x, serialize_all t l' with
               | Some a, Some b => Some (a ++ b)
               | _, _ => None
               end
  end.

Definition vote_serialize_type (t : block_type) (v : vote) : option (list Z) :=
  option_map (app (vote_head v)) (serialize_all t (blocks v)).

End Digests.

(** [serialize (stream)]: a type byte before each block. *)
Definition serialize_item (x : vote_block) : list Z :=
  match x with
  | vote_hash_only h => le_bytes 1 (type_code bt_not_a_block) ++ be_bytes 32 h
  | vote_full b => serialize_block b
  end.

Definition vote_serialize (v : vote) : list Z := vote_head v ++ concat (map serialize_item (blocks v)).

Definition read_as (t : block_type) : reader vote_block :=
  if type_eqb t bt_not_a_block then h <- read_be 32 ;; ret (vote_hash_only h)
  else b <- deserialize_block_type t ;; ret (vote_full b).

Definition read_item : reader vote_block := c <- read_le 1 ;; read_as (type_of_code c).

(** Read items until the stream ends; every item takes at least one byte. *)
Fixpoint read_all (fuel : nat) (item : reader vote_block) : reader (list vote_block) :=
  fun s => match s with
           | [] => Some ([], [])
           | _ :: _ =>
               match fuel with
               | O => None
               | S n => (x <- item ;; l <- read_all n item ;; ret (x :: l)) s
               end
           end.

(** The error flag is set by a failed read, and if there is no block. *)
Definition read_vote (item : reader vote_block) : reader vote :=
  a <- read_be 32 ;; g <- read_be 64 ;; q <- read_le 8 ;;
  (fun s => match read_all (length s) item s with
            | Some ([], _) | None => None
            | Some (l, s') => Some (mk_vote q l a g, s')
            end).

Definition vote_deserialize : reader vote := read_vote read_item.
Definition vote_deserialize_type (t : block_type) : reader vote := read_vote (read_as t).

(** [operator==]. *)
Definition vote_block_eqb (x y : vote_block) : bool :=
  match x, y with
  | vote_full b, vote_full b' => blocks_equal b b'
  | vote_hash_only h, vote_hash_only h' => h =? h'
  | _, _ => false
  end.

Definition vote_eqb (v w : vote) : bool :=
  (sequence v =? sequence w) &&
  ((length (blocks v) =? length (blocks w))%nat &&
   forallb (fun p => vote_block_eqb (fst p) (snd p)) (combine (blocks v) (blocks w))) &&
  (vote_account v =? vote_account w) && (signature v =? signature w).

(** ** Well-formed votes *)

Definition item_ok (x : vote_block) : Prop :=
  match x with vote_full b => block_ok b | vote_hash_only h => word 256 h end.

Definition vote_ok (v : vote) : Prop :=
  word 64 (sequence v) /\ word 256 (vote_account v) /\ word 512 (signature v) /\
  blocks v <> [] /\ Forall item_ok (blocks v).

(** Every block has the type the message's header names. *)
Definition item_typed (t : block_type) (x : vote_block) : Prop :=
  match x with vote_full b => type b = t | vote_hash_only _ => t = bt_not_a_block end.

(** ** Formats *)

(** An item format: writes at least one byte, and its reader inverts it. *)
Record item_format (ok : vote_block -> Prop) (write : vote_block -> list Z) (item : reader vote_block) := {
  if_reads (x : vote_block) : ok x -> reads item x (write x);
  if_writes : writes_back ok write item;
  if_nonempty (x : vote_block) : ok x -> write x <> [] }.

Section Items.

Context (ok : vote_block -> Prop) (write : vote_block -> list Z) (item : reader vote_block).
Context (F : item_format ok write item).

Lemma read_all_reads (l : list vote_block) : Forall ok l -> forall fuel,
  (length (concat (map write l)) <= fuel)%nat ->
  read_all fuel item (concat (map write l)) = Some (l, []).
Proof.
  induction 1 as [| x l Hx Hl IH]; intros fuel Hf; [now destruct fuel |].
  cbn [map concat] in *. rewrite length_app in Hf. pose proof (if_nonempty _ _ _ F x Hx) as Hne.
  destruct (write x) as [| c w] eqn:Ew; [contradiction |].
  destruct fuel as [| n]; [cbn in Hf; lia |]. cbn [app read_all]. unfold bind.
  change (c :: w ++ concat (map write l)) with ((c :: w) ++ concat (map write l)). rewrite <- Ew.
  rewrite (if_reads _ _ _ F x Hx), IH; [reflexivity |]. cbn [length] in Hf. lia.
Qed.

Lemma read_all_writes (fuel : nat) : forall (s : list Z) (l : list vote_block) (s' : list Z), bytes_ok s ->
  read_all fuel item s = Some (l, s') -> s = concat (map write l) /\ s' = [] /\ Forall ok l.
Proof.
  induction fuel as [| n IH]; intros [| c s] l s' Hs H; cbn [read_all] in H;
    try discriminate H; try (injection H as <- <-; repeat split; constructor).
  apply bind_inv in H as (x & t & Ex & H). apply bind_inv in H as (l' & t' & El & H).
  injection H as <- <-. destruct (if_writes _ _ _ F _ _ _ Hs Ex) as (-> & Ht & Hx).
  destruct (IH _ _ _ Ht El) as (-> & -> & Hl). repeat split. now constructor.
Qed.

Definition vote_image (v : vote) : list Z := vote_head v ++ concat (map write (blocks v)).

Definition vote_all_ok (v : vote) : Prop :=
  word 64 (sequence v) /\ word 256 (vote_account v) /\ word 512 (signature v) /\
  blocks v <> [] /\ Forall ok (blocks v).

Lemma read_vote_reads (v : vote) : vote_all_ok v -> read_vote item (vote_image v) = Some (v, []).
Proof.
  intros (H1 & H2 & H3 & H4 & H5). destruct v as [q l a g]. unfold read_vote, vote_image, vote_head.
  cbn [vote_account signature sequence blocks] in *. rewrite <- !app_assoc. unfold bind.
  rewrite (reads_be 32 a H2), (reads_be 64 g H3), (reads_le 8 q H1).
  rewrite read_all_reads by (assumption || lia). now destruct l.
Qed.

Lemma read_vote_writes (s s' : list Z) (v : vote) : bytes_ok s -> read_vote item s = Some (v, s') ->
  s = vote_image v /\ s' = [] /\ vote_all_ok v.
Proof.
  intros Hs H. unfold read_vote in H. apply bind_inv in H as (a & t1 & E1 & H).
  apply bind_inv in H as (g & t2 & E2 & H). apply bind_inv in H as (q & t3 & E3 & H).
  destruct (writes_back_be 32 _ _ _ Hs E1) as (-> & Ht1 & W1).
  destruct (writes_back_be 64 _ _ _ Ht1 E2) as (-> & Ht2 & W2).
  destruct (writes_back_le 8 _ _ _ Ht2 E3) as (-> & Ht3 & W3).
  destruct (read_all (length t3) item t3) as [[[| x l] t] |] eqn:E; [discriminate | | discriminate].
  injection H as <- <-. destruct (read_all_writes _ _ _ _ Ht3 E) as (-> & -> & Hl).
  unfold vote_image, vote_head, vote_all_ok. cbn [vote_account signature sequence blocks].
  rewrite <- !app_assoc. repeat split; (assumption || discriminate || apply W1 || apply W2 || apply W3).
Qed.

End Items.

Lemma serialize_nonempty (b : block) : serialize b <> [].
Proof. intros E. pose proof (serialize_length b) as L. rewrite E in L. now destruct b. Qed.

Lemma typed_format : item_format item_ok serialize_item read_item.
Proof.
  split.
  - intros [b | h] Hx; unfold read_item, serialize_item.
    + intros rest. pose proof (deserialize_block_reads b Hx rest) as E. unfold deserialize_block in E.
      apply bind_inv in E as (c & t & Ec & E). unfold bind. rewrite Ec. unfold read_as.
      destruct (type_of_code c); try discriminate E; cbn [type_eqb type_code Z.eqb Pos.eqb];
        unfold bind; now rewrite E.
    + eapply reads_bind; [apply reads_le; unfold word; cbn; lia |].
      unfold read_as. cbn [type_code type_of_code Z.eqb Pos.eqb type_eqb].
      rewrite <- (app_nil_r (be_bytes 32 h)). eapply reads_bind; [now apply reads_be | apply reads_ret].
  - intros s x s' Hs H. unfold read_item in H. apply bind_inv in H as (c & t & Ec & H).
    unfold read_as in H. destruct (type_eqb (type_of_code c) bt_not_a_block) eqn:Et.
    + destruct (writes_back_le 1 _ _ _ Hs Ec) as (-> & Ht & Hc). apply bind_inv in H as (h & t' & Eh & H).
      injection H as <- <-. destruct (writes_back_be 32 _ _ _ Ht Eh) as (-> & Ht' & Hh).
      cbn [serialize_item item_ok]. rewrite <- app_assoc. repeat split; try assumption; try apply Hh.
      f_equal. f_equal. unfold type_of_code in Et.
      repeat match type of Et with context [if ?x =? ?y then _ else _] =>
        destruct (Z.eqb_spec x y); [subst; first [discriminate Et | reflexivity] |] end. discriminate Et.
    + apply bind_inv in H as (b & t' & Eb & H). injection H as <- <-.
      destruct (deserialize_block_writes s b t' Hs) as (-> & Ht' & Hb); [| repeat split; assumption || apply Hb].
      unfold deserialize_block, bind. now rewrite Ec.
  - intros [b | h] _; cbn [serialize_item]; unfold serialize_block; now cbn [le_bytes app].
Qed.

(** ** One type for all blocks *)

Section OneType.

Context `{BlockHash} (t : block_type).

Definition typed_ok (x : vote_block) : Prop := item_ok x /\ item_typed t x.

Definition image_as (x : vote_block) : list Z :=
  match serialize_as t x with Some s => s | None => [] end.

Lemma type_eqb_eq (t' : block_type) : type_eqb t t' = true <-> t = t'.
Proof. unfold type_eqb. destruct t, t'; split; (reflexivity || discriminate). Qed.

Lemma block_typed (b : block) : type b = t -> type_eqb t bt_not_a_block = false.
Proof. intros <-. now destruct b. Qed.

Lemma serialize_as_typed (x : vote_block) : item_typed t x -> serialize_as t x = Some (image_as x).
Proof.
  unfold image_as. destruct x as [b | h]; cbn [item_typed serialize_as].
  - intros E. now rewrite (block_typed b E).
  - intros ->. reflexivity.
Qed.

Lemma serialize_all_typed (l : list vote_block) : Forall (item_typed t) l ->
  serialize_all t l = Some (concat (map image_as l)).
Proof.
  induction 1 as [| x l Hx Hl IH]; [reflexivity |]. cbn [serialize_all map concat].
  now rewrite (serialize_as_typed x Hx), IH.
Qed.

Lemma one_type_format : item_format typed_ok image_as (read_as t).
Proof.
  split.
  - intros x [Hx Hty]. unfold image_as, read_as. destruct x as [b | h]; cbn [item_typed serialize_as] in *.
    + rewrite (block_typed b Hty). rewrite <- (app_nil_r (serialize b)).
      eapply reads_bind; [| apply reads_ret]. rewrite <- Hty. now apply deserialize_type_reads.
    + rewrite Hty. cbn [type_eqb type_code Z.eqb Pos.eqb]. rewrite <- (app_nil_r (be_bytes 32 h)).
      eapply reads_bind; [now apply reads_be | apply reads_ret].
  - intros s x s' Hs E. unfold read_as in E. destruct (type_eqb t bt_not_a_block) eqn:Et.
    + apply bind_inv in E as (h & r & Eh & E). injection E as <- <-.
      destruct (writes_back_be 32 _ _ _ Hs Eh) as (-> & Hr & Hh). unfold typed_ok, image_as.
      cbn [serialize_as item_ok item_typed]. rewrite Et. repeat split; try apply Hh; try assumption.
      now apply type_eqb_eq.
    + apply bind_inv in E as (b & r & Eb & E). injection E as <- <-.
      destruct (deserialize_type_writes t _ _ _ Hs Eb) as (-> & Hr & Hb & Hty). unfold typed_ok, image_as.
      cbn [serialize_as item_ok item_typed]. rewrite Et. repeat split; assumption || apply Hb.
  - intros x [_ Hty]. unfold image_as. destruct x as [b | h]; cbn [item_typed serialize_as] in *.
    + rewrite (block_typed b Hty). apply serialize_nonempty.
    + rewrite Hty. cbn [type_eqb type_code Z.eqb Pos.eqb]. intros E.
      pose proof (be_bytes_length 32 h) as L. now rewrite E in L.
Qed.

Lemma vote_image_typed (v : vote) : Forall (item_typed t) (blocks v) ->
  vote_serialize_type t v = Some (vote_image image_as v).
Proof. intros Hv. unfold vote_serialize_type. now rewrite serialize_all_typed. Qed.

End OneType.

Lemma vote_typed_ok `{BlockHash} (t : block_type) (v : vote) : vote_ok v ->
  Forall (item_typed t) (blocks v) -> vote_all_ok (typed_ok t) v.
Proof.
  intros (H1 & H2 & H3 & H4 & H5) Ht. repeat split; try assumption; try apply H1; try apply H2; try apply H3.
  rewrite Forall_forall in *. split; auto.
Qed.

(** Every well-formed vote is read back from both of its formats: the one with
    a type byte per block, and the one in which all blocks have the type the
    header names. *)
Theorem vote_roundtrip `{BlockHash} (v : vote) (t : block_type) (Hv : vote_ok v)
  (Ht : Forall (item_typed t) (blocks v)) :
  vote_deserialize (vote_serialize v) = Some (v, []) /\
  exists s, vote_serialize_type t v = Some s /\ vote_deserialize_type t s = Some (v, []).
Proof.
  split; [exact (read_vote_reads _ _ _ typed_format v Hv) |].
  eexists. split; [now apply vote_image_typed |].
  exact (read_vote_reads _ _ _ (one_type_format t) v (vote_typed_ok t v Hv Ht)).
Qed.

(** A byte string is read as a vote only if it is the vote's image: the
    whole of it, in the format with type bytes and in the format with one type. *)
Theorem vote_canonical `{BlockHash} (s s' : list Z) (v : vote) (t : block_type) (Hs : bytes_ok s) :
  (vote_deserialize s = Some (v, s') -> s = vote_serialize v /\ s' = [] /\ vote_ok v) /\
  (vote_deserialize_type t s = Some (v, s') ->
   vote_serialize_type t v = Some s /\ s' = [] /\ vote_ok v /\ Forall (item_typed t) (blocks v)).
Proof.
  split; intros E.
  - exact (read_vote_writes _ _ _ typed_format _ _ _ Hs E).
  - destruct (read_vote_writes _ _ _ (one_type_format t) _ _ _ Hs E) as (-> & -> & H1 & H2 & H3 & H4 & H5).
    rewrite Forall_forall in H5. assert (Ht : Forall (item_typed t) (blocks v)).
    { apply Forall_forall. intros x Hx. apply (H5 x Hx). }
    split; [now apply vote_image_typed |]. split; [reflexivity |]. split; [| exact Ht].
    repeat split; try assumption; try apply H1; try apply H2; try apply H3.
    apply Forall_forall. intros x Hx. apply (H5 x Hx).
Qed.

(** ** What a vote's signature covers *)

Lemma concat_hashes_inj (l l' : list Z) (r r' : list Z) :
  Forall (word 256) l -> Forall (word 256) l' -> length l = length l' ->
  concat (map (be_bytes 32) l) ++ r = concat (map (be_bytes 32) l') ++ r' -> l = l' /\ r = r'.
Proof.
  intros Hl. revert l'. induction Hl as [| x l Hx Hl IH]; intros [| y l'] Hl' L E; try discriminate L.
  - now split.
  - cbn [map concat] in E. rewrite <- !app_assoc in E. inversion Hl' as [| ? ? Hy Hl'']; subst.
    apply be_bytes_app_inj in E as [-> E]; [| exact Hx | exact Hy]. injection L as L.
    destruct (IH l' Hl'' L E) as [-> ->]. now split.
Qed.

Lemma concat_hashes_length (l : list Z) : length (concat (map (be_bytes 32) l)) = (32 * length l)%nat.
Proof.
  induction l as [| x l IH]; [reflexivity |]. cbn [map concat length].
  rewrite length_app, be_bytes_length, IH. lia.
Qed.

Section Preimage.

Context `{BlockHash}.

Definition hashes (v : vote) : list Z := map as_hash (blocks v).

Lemma vote_preimage (v : vote) : concat (vote_chunks v) =
  (if prefixed v then hash_prefix else []) ++ concat (map (be_bytes 32) (hashes v)) ++ le_bytes 8 (sequence v).
Proof.
  unfold vote_chunks, hashes. rewrite !concat_app, map_map. cbn [concat]. rewrite app_nil_r.
  destruct (prefixed v); [cbn [concat]; now rewrite app_nil_r | reflexivity].
Qed.

(** The digest a vote is signed over is BLAKE2b-256 of a string that determines
    the sequence number, the hashes of the blocks and their order, and whether the
    vote is for hashes: no signature carries over to other blocks or another
    sequence number unless the hash function collides. *)
Theorem vote_preimage_injective (v w : vote) (Hv : Forall (word 256) (hashes v))
  (Hw : Forall (word 256) (hashes w)) (Hsv : word 64 (sequence v)) (Hsw : word 64 (sequence w))
  (E : concat (vote_chunks v) = concat (vote_chunks w)) :
  hashes v = hashes w /\ sequence v = sequence w /\ prefixed v = prefixed w /\
  vote_hash v = Some (be_val (Blake2bRef.spec_blake2b 32 (concat (vote_chunks v)) [])).
Proof.
  rewrite !vote_preimage in E. pose proof (f_equal (@length Z) E) as L.
  rewrite !length_app, !concat_hashes_length, !le_bytes_length in L.
  assert (EP : prefixed v = prefixed w).
  { destruct (prefixed v), (prefixed w); try reflexivity; cbn [length] in L;
      change (length hash_prefix) with 5%nat in L; lia. }
  rewrite EP in E, L. apply app_inv_head in E.
  destruct (concat_hashes_inj _ _ _ _ Hv Hw ltac:(lia) E) as [Eh Es].
  apply (f_equal le_val) in Es. rewrite !le_val_bytes, !Z.mod_small in Es by assumption.
  repeat (split; [assumption |]). unfold vote_hash. apply digest_of_spec. lia.
Qed.

(** The digest [vote_uniquer] keys votes by covers only the first eight bytes
    of the account and of the signature: votes that agree there, on the blocks and
    on the sequence number are taken for the same. *)
Theorem vote_full_hash_truncated (q : Z) (l : list vote_block) (a a' g g' : Z)
  (Ha : firstn 8 (be_bytes 32 a) = firstn 8 (be_bytes 32 a'))
  (Hg : firstn 8 (be_bytes 64 g) = firstn 8 (be_bytes 64 g')) :
  vote_full_hash (mk_vote q l a g) = vote_full_hash (mk_vote q l a' g').
Proof.
  unfold vote_full_hash. cbn [vote_account signature].
  change (vote_hash (mk_vote q l a' g')) with (vote_hash (mk_vote q l a g)). now rewrite Ha, Hg.
Qed.

End Preimage.

(** ** Concrete votes *)

Definition demo_hash : BlockHash := fun b => type_code (type b).
#[local] Existing Instance demo_hash.

Definition demo_vote : vote := mk_vote 7 [vote_hash_only 11; vote_hash_only 12] 3 4.

Lemma demo_vote_ok : vote_ok demo_vote.
Proof. repeat split; try discriminate; repeat constructor; unfold word; cbn; lia. Qed.

Lemma vote_roundtrip_witness : vote_deserialize (vote_serialize demo_vote) = Some (demo_vote, []) /\
  exists s, vote_serialize_type bt_not_a_block demo_vote = Some s /\
    vote_deserialize_type bt_not_a_block s = Some (demo_vote, []).
Proof. apply (vote_roundtrip demo_vote bt_not_a_block demo_vote_ok). repeat constructor. Defined.

Lemma vote_canonical_witness :
  vote_serialize demo_vote = vote_serialize demo_vote /\ @nil Z = [] /\ vote_ok demo_vote.
Proof.
  apply (vote_canonical (vote_serialize demo_vote) [] demo_vote bt_not_a_block).
  - unfold bytes_ok. apply Forall_forall. intros x Hx.
    assert (Hf : forallb (fun y => (0 <=? y) && (y <? 256)) (vote_serialize demo_vote) = true) by reflexivity.
    rewrite forallb_forall in Hf. specialize (Hf x Hx). apply andb_true_iff in Hf as [H1 H2].
    apply Z.leb_le in H1. apply Z.ltb_lt in H2. split; [exact H1 | exact H2].
  - vm_compute. reflexivity.
Defined.

Lemma vote_preimage_injective_witness : let w := mk_vote 7 [vote_hash_only 11; vote_hash_only 12] 8 9 in
  hashes demo_vote = hashes w /\ sequence demo_vote = sequence w /\ prefixed demo_vote = prefixed w /\
  vote_hash demo_vote = Some (be_val (Blake2bRef.spec_blake2b 32 (concat (vote_chunks demo_vote)) [])).
Proof.
  intros w. apply (vote_preimage_injective demo_vote w);
    [repeat constructor; unfold word; cbn; lia | repeat constructor; unfold word; cbn; lia
    | unfold word; cbn; lia | unfold word; cbn; lia | reflexivity].
Defined.

Lemma vote_full_hash_truncated_witness :
  vote_full_hash (mk_vote 7 [vote_hash_only 11] 1 4) = vote_full_hash (mk_vote 7 [vote_hash_only 11] 2 5).
Proof. apply (vote_full_hash_truncated 7 [vote_hash_only 11] 1 2 4 5); vm_compute; reflexivity. Defined.

End Votes.
