(* ===== verification/Messages.v ===== *)
(** * Network messages

    Model of [nano/node/common.cpp] and [common.hpp]: the message header and its
    extension bits, the ten messages with their byte formats, the payload length
    of the framed (TCP) messages, and [message_parser], which reads a datagram and
    hands the message to a visitor.  The visitor's call is the message returned
    beside the status.  [None] from a writer is a failed assertion, from a reader
    the error flag. *)

From Stdlib Require Import ZArith Lia List Bool.
From S2P Require Import Prelude Blocks Numbers Work Votes.
Import ListNotations.
Local Open Scope Z_scope.

Module Messages.
Import Stream Block Votes.Votes Work.Work.
Local Open Scope reader_scope.

(** ** Headers *)

(** The network the node is built for: test, beta or live (0, 1, 2). *)
Class Network := nano_network : Z.

Definition is_beta_network `{Network} : bool := nano_network =? 1.

Definition magic_number `{Network} : list Z :=
  if nano_network =? 0 then [70; 65] else if is_beta_network then [70; 66] else [70; 67].

Definition protocol_version : Z := 16.
Definition protocol_version_min : Z := 13.
Definition protocol_version_reasonable_min : Z := 13.

Inductive message_type :=
| mt_invalid | mt_not_a_type | mt_keepalive | mt_publish | mt_confirm_req | mt_confirm_ack
| mt_bulk_pull | mt_bulk_push | mt_frontier_req | mt_node_id_handshake | mt_bulk_pull_account.

Definition message_code (t : message_type) : Z :=
  match t with
  | mt_invalid => 0 | mt_not_a_type => 1 | mt_keepalive => 2 | mt_publish => 3 | mt_confirm_req => 4
  | mt_confirm_ack => 5 | mt_bulk_pull => 6 | mt_bulk_push => 7 | mt_frontier_req => 8
  | mt_node_id_handshake => 10 | mt_bulk_pull_account => 11
  end.

(** The type is kept as the byte that was read. *)
Record message_header := mk_header {
  version_max : Z; version_using : Z; version_min : Z; header_type : Z; extensions : Z }.

Definition new_header (t : message_type) : message_header :=
  mk_header protocol_version protocol_version protocol_version_min (message_code t) 0.

Definition header_serialize `{Network} (h : message_header) : list Z :=
  magic_number ++ le_bytes 1 (version_max h) ++ le_bytes 1 (version_using h) ++
  le_bytes 1 (version_min h) ++ le_bytes 1 (header_type h) ++ le_bytes 2 (extensions h).

Definition header_deserialize `{Network} : reader message_header :=
  m <- read 2 ;;
  (if if list_eq_dec Z.eq_dec m magic_number then true else false then
     a <- read_le 1 ;; u <- read_le 1 ;; i <- read_le 1 ;; t <- read_le 1 ;; e <- read_le 2 ;;
     ret (mk_header a u i t e)
   else fun _ => None).

Definition block_type_mask : Z := 3840.

Definition header_block_type (h : message_header) : block_type :=
  type_of_code (Z.shiftr (Z.land (extensions h) block_type_mask) 8).

Definition with_extensions (h : message_header) (e : Z) : message_header :=
  mk_header (version_max h) (version_using h) (version_min h) (header_type h) e.

Definition block_type_set (h : message_header) (t : block_type) : message_header :=
  with_extensions h (Z.lor (Z.land (extensions h) (65535 - block_type_mask)) (Z.shiftl (type_code t) 8)).

Definition flag (h : message_header) (n : Z) : bool := Z.testbit (extensions h) n.

Definition count_present_flag : Z := 0.
Definition query_flag : Z := 0.
Definition response_flag : Z := 1.

Definition bulk_pull_is_count_present (h : message_header) : bool :=
  (header_type h =? message_code mt_bulk_pull) && flag h count_present_flag.

Definition extended_parameters_size : nat := 8.

(** [None]: the [default] case. *)
Definition payload_length_bytes (h : message_header) : option nat :=
  let t := header_type h in
  if t =? message_code mt_bulk_pull then
    Some (32 + 32 + (if bulk_pull_is_count_present h then extended_parameters_size else 0))%nat
  else if t =? message_code mt_bulk_push then Some 0%nat
  else if t =? message_code mt_frontier_req then Some (32 + 4 + 4)%nat
  else if t =? message_code mt_bulk_pull_account then Some (32 + 16 + 1)%nat
  else if t =? message_code mt_keepalive then Some (8 * (16 + 2))%nat
  else None.

(** Both test the node's own constant. *)
Definition valid_magic `{Network} : bool :=
  (nth 0 magic_number 0 =? 70) && (65 <=? nth 1 magic_number 0) && (nth 1 magic_number 0 <=? 67).

Definition valid_network `{Network} : bool := nth 1 magic_number 0 - 65 =? nano_network.

(** ** Messages *)

Inductive body :=
| keepalive (peers : list (Z * Z))                              (* addresses and ports *)
| publish (b : block)
| confirm_req (b : option block) (roots_hashes : list (Z * Z))
| confirm_ack (v : vote)
| bulk_pull (start end_ count : Z)
| bulk_push
| frontier_req (start age count : Z)
| node_id_handshake (query : option Z) (response : option (Z * Z))
| bulk_pull_account (account minimum_amount flags : Z).

Definition body_type (b : body) : message_type :=
  match b with
  | keepalive _ => mt_keepalive | publish _ => mt_publish | confirm_req _ _ => mt_confirm_req
  | confirm_ack _ => mt_confirm_ack | bulk_pull _ _ _ => mt_bulk_pull | bulk_push => mt_bulk_push
  | frontier_req _ _ _ => mt_frontier_req | node_id_handshake _ _ => mt_node_id_handshake
  | bulk_pull_account _ _ _ => mt_bulk_pull_account
  end.

(** ** Writing *)

Definition peer_serialize (p : Z * Z) : list Z := be_bytes 16 (fst p) ++ le_bytes 2 (snd p).
Definition pair_serialize (p : Z * Z) : list Z := be_bytes 32 (fst p) ++ be_bytes 32 (snd p).

Definition keepalive_serialize (peers : list (Z * Z)) : list Z := concat (map peer_serialize peers).

Definition publish_serialize (b : block) : list Z := serialize b.

Definition frontier_req_serialize (start age count : Z) : list Z :=
  be_bytes 32 start ++ le_bytes 4 age ++ le_bytes 4 count.

Definition bulk_pull_account_serialize (account minimum_amount flags : Z) : list Z :=
  be_bytes 32 account ++ be_bytes 16 minimum_amount ++ le_bytes 1 flags.

Definition confirm_req_serialize (h : message_header) (b : option block) (l : list (Z * Z)) : option (list Z) :=
  if type_eqb (header_block_type h) bt_not_a_block then
    if negb (length l =? 0)%nat && (length l <=? 32)%nat
    then Some (le_bytes 1 (Z.of_nat (length l)) ++ concat (map pair_serialize l)) else None
  else option_map serialize b.

Definition bulk_pull_serialize (h : message_header) (start end_ count : Z) : option (list Z) :=
  let present := flag h count_present_flag in
  if ((count =? 0) && negb present) || (negb (count =? 0) && present) then
    Some (be_bytes 32 start ++ be_bytes 32 end_ ++
          (if present then [0] ++ le_bytes 4 count ++ repeat 0 3 else []))
  else None.

Definition handshake_serialize (query : option Z) (response : option (Z * Z)) : list Z :=
  match query with Some q => be_bytes 32 q | None => [] end ++
  match response with Some (a, s) => be_bytes 32 a ++ be_bytes 64 s | None => [] end.

Definition confirm_ack_serialize `{BlockHash} (h : message_header) (v : vote) : option (list Z) :=
  match header_block_type h with
  | bt_invalid => None
  | t => vote_serialize_type t v
  end.

Definition body_serialize `{BlockHash} (h : message_header) (b : body) : option (list Z) :=
  match b with
  | keepalive peers => Some (keepalive_serialize peers)
  | publish b => Some (publish_serialize b)
  | confirm_req b l => confirm_req_serialize h b l
  | confirm_ack v => confirm_ack_serialize h v
  | bulk_pull s e c => bulk_pull_serialize h s e c
  | bulk_push => Some []
  | frontier_req s a c => Some (frontier_req_serialize s a c)
  | node_id_handshake q r => Some (handshake_serialize q r)
  | bulk_pull_account a m f => Some (bulk_pull_account_serialize a m f)
  end.

Definition message_serialize `{BlockHash, Network} (h : message_header) (b : body) : option (list Z) :=
  option_map (app (header_serialize h)) (body_serialize h b).

(** ** Reading *)

Fixpoint read_list {A : Type} (n : nat) (item : reader A) : reader (list A) :=
  match n with
  | O => ret []
  | S n' => x <- item ;; l <- read_list n' item ;; ret (x :: l)
  end.

Definition read_peer : reader (Z * Z) := a <- read_be 16 ;; p <- read_le 2 ;; ret (a, p).

Definition keepalive_deserialize : reader body := l <- read_list 8 read_peer ;; ret (keepalive l).

Definition publish_deserialize (h : message_header) : reader body :=
  b <- deserialize_block_type (header_block_type h) ;; ret (publish b).

(** A zero hash or root is skipped, and a zero hash has no root. *)
Fixpoint read_pairs (n : nat) : reader (list (Z * Z)) :=
  match n with
  | O => ret []
  | S n' =>
      x <- read_be 32 ;;
      (if negb (Numbers.uint256_is_zero x) then
         r <- read_be 32 ;; l <- read_pairs n' ;;
         ret (if negb (Numbers.uint256_is_zero r) then (x, r) :: l else l)
       else read_pairs n')
  end.

Definition confirm_req_deserialize (h : message_header) : reader body :=
  if type_eqb (header_block_type h) bt_not_a_block then
    c <- read_le 1 ;; l <- read_pairs (Z.to_nat c) ;;
    (if (length l =? 0)%nat || negb (Z.of_nat (length l) =? c) then fun _ => None
     else ret (confirm_req None l))
  else b <- deserialize_block_type (header_block_type h) ;; ret (confirm_req (Some b) []).

Definition confirm_ack_deserialize (h : message_header) : reader body :=
  v <- vote_deserialize_type (header_block_type h) ;; ret (confirm_ack v).

Definition bulk_pull_deserialize (h : message_header) : reader body :=
  s <- read_be 32 ;; e <- read_be 32 ;;
  (if flag h count_present_flag then
     x <- read extended_parameters_size ;;
     (if negb (hd 0 x =? 0) then fun _ => None
      else ret (bulk_pull s e (le_val (firstn 4 (tl x)))))
   else ret (bulk_pull s e 0)).

Definition frontier_req_deserialize : reader body :=
  s <- read_be 32 ;; a <- read_le 4 ;; c <- read_le 4 ;; ret (frontier_req s a c).

Definition handshake_deserialize (h : message_header) : reader body :=
  q <- (if flag h query_flag then x <- read_be 32 ;; ret (Some x) else ret None) ;;
  r <- (if flag h response_flag then a <- read_be 32 ;; s <- read_be 64 ;; ret (Some (a, s))
        else ret None) ;;
  ret (node_id_handshake q r).

Definition bulk_pull_account_deserialize : reader body :=
  a <- read_be 32 ;; m <- read_be 16 ;; f <- read_le 1 ;; ret (bulk_pull_account a m f).

(** ** Messages as the node builds them *)

Definition set_flag (h : message_header) (n : Z) (v : bool) : message_header :=
  with_extensions h (if v then Z.setbit (extensions h) n else Z.clearbit (extensions h) n).

Definition keepalive_new : message_header * body := (new_header mt_keepalive, keepalive (repeat (0, 0) 8)).

Definition publish_new (b : block) : message_header * body :=
  (block_type_set (new_header mt_publish) (type b), publish b).

Definition confirm_req_new_block (b : block) : message_header * body :=
  (block_type_set (new_header mt_confirm_req) (type b), confirm_req (Some b) []).

Definition confirm_req_new_pairs (l : list (Z * Z)) : message_header * body :=
  (block_type_set (new_header mt_confirm_req) bt_not_a_block, confirm_req None l).

Definition confirm_req_new_pair (hash root : Z) : message_header * body :=
  confirm_req_new_pairs [(hash, root)].

(** [None]: the assertion that there is a block. *)
Definition confirm_ack_new (v : vote) : option (message_header * body) :=
  match blocks v with
  | [] => None
  | x :: _ =>
      let t := match x with vote_hash_only _ => bt_not_a_block | vote_full b => type b end in
      Some (block_type_set (new_header mt_confirm_ack) t, confirm_ack v)
  end.

Definition node_id_handshake_new (q : option Z) (r : option (Z * Z)) : message_header * body :=
  let h := new_header mt_node_id_handshake in
  let h := match q with Some _ => set_flag h query_flag true | None => h end in
  let h := match r with Some _ => set_flag h response_flag true | None => h end in
  (h, node_id_handshake q r).

(** [bulk_pull ()] with a count set, as the bootstrap client does. *)
Definition set_count_present (h : message_header) (v : bool) : message_header :=
  set_flag h count_present_flag v.

(** ** [message_parser] *)

Inductive parse_status :=
| success | insufficient_work | invalid_header | invalid_message_type | invalid_keepalive_message
| invalid_publish_message | invalid_confirm_req_message | invalid_confirm_ack_message
| invalid_node_id_handshake_message | outdated_version | invalid_magic | invalid_network.

Definition max_safe_udp_message_size : nat := 508.

Section Parser.

Context `{WorkEnv, Network}.

(** Read the payload; at the end of the stream, hand it on or report too little work. *)
Definition deserialize_payload (r : reader body) (bad : parse_status) (enough : body -> bool) (s : list Z)
    : parse_status * option body :=
  match r s with
  | Some (b, []) => if enough b then (success, Some b) else (insufficient_work, None)
  | _ => (bad, None)
  end.

(** No block of the message has too little work. *)
Definition enough_work (b : body) : bool :=
  match b with
  | publish b | confirm_req (Some b) _ => negb (fst (work_validate_block b))
  | confirm_ack v =>
      forallb (fun x => match x with
                        | vote_full b => negb (fst (work_validate_block b))
                        | vote_hash_only _ => true
                        end) (blocks v)
  | _ => true
  end.

Definition deserialize_buffer (buffer : list Z) : parse_status * option (message_header * body) :=
  if (length buffer <=? max_safe_udp_message_size)%nat then
    match header_deserialize buffer with
    | Some (h, s) =>
        let handed := fun r => (fst r, option_map (pair h) (snd r)) in
        if is_beta_network && (version_using h <? protocol_version_reasonable_min) then (outdated_version, None)
        else if version_using h <? protocol_version_min then (outdated_version, None)
        else if negb valid_magic then (invalid_magic, None)
        else if negb valid_network then (invalid_network, None)
        else if header_type h =? message_code mt_keepalive then
          handed (deserialize_payload keepalive_deserialize invalid_keepalive_message enough_work s)
        else if header_type h =? message_code mt_publish then
          handed (deserialize_payload (publish_deserialize h) invalid_publish_message enough_work s)
        else if header_type h =? message_code mt_confirm_req then
          handed (deserialize_payload (confirm_req_deserialize h) invalid_confirm_req_message enough_work s)
        else if header_type h =? message_code mt_confirm_ack then
          handed (deserialize_payload (confirm_ack_deserialize h) invalid_confirm_ack_message enough_work s)
        else if header_type h =? message_code mt_node_id_handshake then
          handed (deserialize_payload (handshake_deserialize h) invalid_node_id_handshake_message enough_work s)
        else (invalid_message_type, None)
    | None => (invalid_header, None)
    end
  else (success, None).

End Parser.

(** ** Well-formed messages *)

Definition header_ok (h : message_header) : Prop :=
  word 8 (version_max h) /\ word 8 (version_using h) /\ word 8 (version_min h) /\
  word 8 (header_type h) /\ word 16 (extensions h).

Definition peer_ok (p : Z * Z) : Prop := word 128 (fst p) /\ word 16 (snd p).

(** A root or hash of zero cannot be asked for. *)
Definition pair_ok (p : Z * Z) : Prop := word 256 (fst p) /\ word 256 (snd p) /\ fst p <> 0 /\ snd p <> 0.

Definition block_typed_ok (h : message_header) (b : block) : Prop :=
  block_ok b /\ type b = header_block_type h.

(** The fields have their widths, and the header's extension bits say what follows. *)
Definition body_ok (h : message_header) (b : body) : Prop :=
  match b with
  | keepalive peers => length peers = 8%nat /\ Forall peer_ok peers
  | publish b => block_typed_ok h b
  | confirm_req None l =>
      header_block_type h = bt_not_a_block /\ (1 <= length l <= 32)%nat /\ Forall pair_ok l
  | confirm_req (Some b) l => l = [] /\ block_typed_ok h b
  | confirm_ack v => vote_ok v /\ Forall (item_typed (header_block_type h)) (blocks v)
  | bulk_pull s e c => word 256 s /\ word 256 e /\ word 32 c /\ flag h count_present_flag = negb (c =? 0)
  | bulk_push => True
  | frontier_req s a c => word 256 s /\ word 32 a /\ word 32 c
  | node_id_handshake q r =>
      flag h query_flag = match q with Some _ => true | None => false end /\
      flag h response_flag = match r with Some _ => true | None => false end /\
      match q with Some x => word 256 x | None => True end /\
      match r with Some (a, s) => word 256 a /\ word 512 s | None => True end
  | bulk_pull_account a m f => word 256 a /\ word 128 m /\ word 8 f
  end.

Definition message_ok (h : message_header) (b : body) : Prop :=
  header_ok h /\ header_type h = message_code (body_type b) /\ body_ok h b.

(** The reader of each type of message. *)
Definition body_deserialize (h : message_header) (t : message_type) : reader body :=
  match t with
  | mt_keepalive => keepalive_deserialize
  | mt_publish => publish_deserialize h
  | mt_confirm_req => confirm_req_deserialize h
  | mt_confirm_ack => confirm_ack_deserialize h
  | mt_bulk_pull => bulk_pull_deserialize h
  | mt_bulk_push => ret bulk_push
  | mt_frontier_req => frontier_req_deserialize
  | mt_node_id_handshake => handshake_deserialize h
  | mt_bulk_pull_account => bulk_pull_account_deserialize
  | mt_invalid | mt_not_a_type => fun _ => None
  end.

(** ** Reading back *)

Lemma some_inj {A : Type} (x y : A) : Some x = Some y -> x = y.
Proof. congruence. Qed.

Lemma reads_done {A B : Type} (r : reader A) (f : A -> B) (x : A) (bytes : list Z) :
  reads r x bytes -> reads (y <- r ;; ret (f y)) (f x) bytes.
Proof. intros E rest. unfold bind. now rewrite E. Qed.

Lemma reads_nil {A : Type} (r : reader A) (x : A) (bytes : list Z) :
  reads r x bytes -> r bytes = Some (x, []).
Proof. intros E. rewrite <- (app_nil_r bytes). apply E. Qed.

Lemma header_reads `{Network} (h : message_header) :
  header_ok h -> reads header_deserialize h (header_serialize h).
Proof.
  intros (H1 & H2 & H3 & H4 & H5). unfold header_deserialize, header_serialize.
  eapply reads_bind; [apply reads_read; unfold magic_number, is_beta_network;
    destruct (nano_network =? 0); [| destruct (nano_network =? 1)]; reflexivity |].
  destruct (list_eq_dec Z.eq_dec magic_number magic_number) as [_ | n]; [| contradiction].
  eapply reads_bind; [now apply reads_le |]. eapply reads_bind; [now apply reads_le |].
  eapply reads_bind; [now apply reads_le |]. eapply reads_bind; [now apply reads_le |].
  rewrite <- (app_nil_r (le_bytes 2 _)). eapply reads_bind; [now apply reads_le |].
  destruct h. apply reads_ret.
Qed.

Lemma peer_reads (p : Z * Z) : peer_ok p -> reads read_peer p (peer_serialize p).
Proof.
  intros [H1 H2]. destruct p as [a q]. unfold read_peer, peer_serialize. eapply reads_bind; [now apply reads_be |].
  apply (reads_done (read_le 2) (fun x => (a, x)) q). now apply reads_le.
Qed.

Lemma list_reads {A : Type} (item : reader A) (write : A -> list Z) (ok : A -> Prop) (l : list A) :
  (forall x, ok x -> reads item x (write x)) -> Forall ok l ->
  reads (read_list (length l) item) l (concat (map write l)).
Proof.
  intros Hi. induction 1 as [| x l Hx Hl IH]; [apply reads_ret |]. cbn [length read_list map concat].
  eapply reads_bind; [now apply Hi |]. now apply (reads_done _ (cons x)).
Qed.

Lemma zero_test (x : Z) : word 256 x -> Numbers.uint256_is_zero x = (x =? 0).
Proof. exact (Numbers.is_zero_be 4 x). Qed.

Lemma pairs_reads (l : list (Z * Z)) : Forall pair_ok l ->
  reads (read_pairs (length l)) l (concat (map pair_serialize l)).
Proof.
  induction 1 as [| [x r] l (H1 & H2 & H3 & H4) Hl IH]; [apply reads_ret |].
  cbn [length read_pairs map concat fst snd] in *.
  change (pair_serialize (x, r)) with (be_bytes 32 x ++ be_bytes 32 r). rewrite <- app_assoc.
  eapply reads_bind; [now apply reads_be |].
  rewrite zero_test, (proj2 (Z.eqb_neq x 0) H3) by assumption. cbn [negb].
  eapply reads_bind; [now apply reads_be |].
  rewrite zero_test, (proj2 (Z.eqb_neq r 0) H4) by assumption. cbn [negb]. now apply (reads_done _ (cons (x, r))).
Qed.

Lemma publish_reads (h : message_header) (b : block) : block_typed_ok h b ->
  reads (publish_deserialize h) (publish b) (serialize b).
Proof.
  intros [Hb Ht]. unfold publish_deserialize. apply (reads_done _ publish). rewrite <- Ht.
  now apply deserialize_type_reads.
Qed.

Lemma block_type_of (h : message_header) (b : block) : block_typed_ok h b ->
  type_eqb (header_block_type h) bt_not_a_block = false.
Proof. intros [_ <-]. now destruct b. Qed.

Lemma confirm_req_reads (h : message_header) (b : option block) (l : list (Z * Z)) :
  body_ok h (confirm_req b l) -> exists s, confirm_req_serialize h b l = Some s /\
  reads (confirm_req_deserialize h) (confirm_req b l) s.
Proof.
  unfold confirm_req_serialize, confirm_req_deserialize. destruct b as [b |]; cbn [body_ok].
  - intros [-> Hb]. rewrite (block_type_of h b Hb). eexists. split; [reflexivity |].
    apply (reads_done _ (fun x => confirm_req (Some x) [])). destruct Hb as [Hb Ht]. rewrite <- Ht.
    now apply deserialize_type_reads.
  - intros (Ht & Hl & Hp). rewrite Ht. cbn [type_eqb type_code Z.eqb Pos.eqb].
    rewrite (proj2 (Nat.leb_le _ _)) by lia. rewrite (proj2 (Nat.eqb_neq (length l) 0)) by lia.
    eexists. split; [reflexivity |]. eapply reads_bind; [apply reads_le; unfold word; lia |].
    rewrite Nat2Z.id. intros rest. unfold bind. rewrite (pairs_reads l Hp rest).
    rewrite (proj2 (Nat.eqb_neq (length l) 0)), Z.eqb_refl by lia. reflexivity.
Qed.

Lemma bulk_pull_reads (h : message_header) (b e c : Z) : body_ok h (bulk_pull b e c) ->
  exists s, bulk_pull_serialize h b e c = Some s /\ reads (bulk_pull_deserialize h) (bulk_pull b e c) s /\
  length s = (64 + if flag h count_present_flag then 8 else 0)%nat.
Proof.
  intros (H1 & H2 & H3 & Hf). unfold bulk_pull_serialize, bulk_pull_deserialize. rewrite Hf.
  destruct (Z.eqb_spec c 0) as [-> | Hc]; cbn [andb orb negb]; (eexists; split; [reflexivity |]; split).
  - eapply reads_bind; [now apply reads_be |]. eapply reads_bind; [now apply reads_be |]. apply reads_ret.
  - now rewrite !length_app, !be_bytes_length.
  - eapply reads_bind; [now apply reads_be |]. eapply reads_bind; [now apply reads_be |].
    rewrite <- (app_nil_r (_ ++ _)). eapply reads_bind.
    { apply reads_read. now rewrite !length_app, le_bytes_length, repeat_length. }
    cbn [app hd tl Z.eqb negb]. rewrite firstn_app, le_bytes_length, Nat.sub_diag, app_nil_r.
    rewrite firstn_all2, le_val_bytes, Z.mod_small by (try assumption; now rewrite le_bytes_length).
    apply reads_ret.
  - now rewrite !length_app, !be_bytes_length, le_bytes_length, repeat_length.
Qed.

Lemma handshake_reads (h : message_header) (q : option Z) (r : option (Z * Z)) :
  body_ok h (node_id_handshake q r) ->
  reads (handshake_deserialize h) (node_id_handshake q r) (handshake_serialize q r).
Proof.
  intros (Hq & Hr & Wq & Wr). unfold handshake_deserialize, handshake_serialize. rewrite Hq, Hr.
  eapply (reads_bind _ _ q).
  - destruct q; [apply (reads_done _ Some); now apply reads_be | apply reads_ret].
  - rewrite <- (app_nil_r (match r with Some _ => _ | None => _ end)).
    apply (reads_bind _ _ r); [| apply reads_ret].
    destruct r as [[a g] |]; [| apply reads_ret]. destruct Wr as [Wa Wg].
    eapply reads_bind; [now apply reads_be |]. apply (reads_done _ (fun x => Some (a, x))). now apply reads_be.
Qed.

Lemma frontier_req_reads (s a c : Z) : word 256 s -> word 32 a -> word 32 c ->
  reads frontier_req_deserialize (frontier_req s a c) (be_bytes 32 s ++ le_bytes 4 a ++ le_bytes 4 c).
Proof.
  intros H1 H2 H3. eapply reads_bind; [now apply reads_be |]. eapply reads_bind; [now apply reads_le |].
  apply (reads_done _ (frontier_req s a)). now apply reads_le.
Qed.

Lemma bulk_pull_account_reads (a m f : Z) : word 256 a -> word 128 m -> word 8 f ->
  reads bulk_pull_account_deserialize (bulk_pull_account a m f)
    (be_bytes 32 a ++ be_bytes 16 m ++ le_bytes 1 f).
Proof.
  intros H1 H2 H3. eapply reads_bind; [now apply reads_be |]. eapply reads_bind; [now apply reads_be |].
  apply (reads_done _ (bulk_pull_account a m)). now apply reads_le.
Qed.

Lemma confirm_ack_image `{BlockHash} (h : message_header) (v : vote) : body_ok h (confirm_ack v) ->
  confirm_ack_serialize h v = Some (vote_image (image_as (header_block_type h)) v).
Proof.
  intros [Hv Ht]. rewrite <- (vote_image_typed _ v Ht). unfold confirm_ack_serialize.
  assert (Hi : header_block_type h <> bt_invalid).
  { intros E. rewrite E in Ht. destruct Hv as (_ & _ & _ & Hne & _).
    destruct (blocks v) as [| x l]; [contradiction |]. inversion Ht as [| ? ? Hx]; subst.
    destruct x as [b |]; cbn in Hx; [now destruct b | discriminate]. }
  destruct (header_block_type h); (contradiction || reflexivity).
Qed.

Lemma confirm_ack_reads `{BlockHash} (h : message_header) (v : vote) : body_ok h (confirm_ack v) ->
  confirm_ack_deserialize h (vote_image (image_as (header_block_type h)) v) = Some (confirm_ack v, []).
Proof.
  intros [Hv Ht]. unfold confirm_ack_deserialize, bind.
  now rewrite (read_vote_reads _ _ _ (one_type_format (header_block_type h)) v (vote_typed_ok _ v Hv Ht) :
    vote_deserialize_type (header_block_type h) _ = _).
Qed.

Lemma body_reads `{BlockHash} (h : message_header) (b : body) : body_ok h b -> exists s,
  body_serialize h b = Some s /\ body_deserialize h (body_type b) s = Some (b, []).
Proof.
  destruct b as [peers | b | b l | v | s e c | | s a c | q r | a m f]; intros Hb;
    cbn [body_serialize body_type body_deserialize].
  - destruct Hb as [L Hp]. eexists. split; [reflexivity |]. apply reads_nil. unfold keepalive_deserialize.
    apply (reads_done _ keepalive). rewrite <- L. apply (list_reads _ _ peer_ok); [apply peer_reads | exact Hp].
  - eexists. split; [reflexivity |]. apply reads_nil. now apply publish_reads.
  - destruct (confirm_req_reads h b l Hb) as (s & Es & Hr). exists s. split; [exact Es | now apply reads_nil].
  - eexists. split; [now apply confirm_ack_image | now apply confirm_ack_reads].
  - destruct (bulk_pull_reads h s e c Hb) as (t & Et & Hr & _). exists t. split; [exact Et | now apply reads_nil].
  - eexists. split; reflexivity.
  - destruct Hb as (H1 & H2 & H3). eexists. split; [reflexivity |]. apply reads_nil. now apply frontier_req_reads.
  - eexists. split; [reflexivity |]. apply reads_nil. now apply handshake_reads.
  - destruct Hb as (H1 & H2 & H3). eexists. split; [reflexivity |]. apply reads_nil.
    now apply bulk_pull_account_reads.
Qed.

(** ** Only images are read *)

Ltac parts := repeat first [assumption | reflexivity | lia | split].

Lemma header_writes `{Network} : writes_back header_ok header_serialize header_deserialize.
Proof.
  intros s h s' Hs E. unfold header_deserialize in E. apply bind_inv in E as (m & t & Em & E).
  destruct (writes_back_read 2 _ _ _ Hs Em) as (-> & Ht & _).
  destruct (list_eq_dec Z.eq_dec m magic_number) as [-> | _]; [| discriminate E].
  apply bind_inv in E as (a & t1 & E1 & E). apply bind_inv in E as (u & t2 & E2 & E).
  apply bind_inv in E as (i & t3 & E3 & E). apply bind_inv in E as (c & t4 & E4 & E).
  apply bind_inv in E as (e & t5 & E5 & E). injection E as <- <-.
  destruct (writes_back_le 1 _ _ _ Ht E1) as (-> & Ht1 & W1).
  destruct (writes_back_le 1 _ _ _ Ht1 E2) as (-> & Ht2 & W2).
  destruct (writes_back_le 1 _ _ _ Ht2 E3) as (-> & Ht3 & W3).
  destruct (writes_back_le 1 _ _ _ Ht3 E4) as (-> & Ht4 & W4).
  destruct (writes_back_le 2 _ _ _ Ht4 E5) as (-> & Ht5 & W5).
  unfold header_serialize. cbn [version_max version_using version_min header_type extensions].
  rewrite <- !app_assoc. split; [reflexivity |]. split; [exact Ht5 |]. parts.
Qed.

Lemma peer_writes : writes_back peer_ok peer_serialize read_peer.
Proof.
  intros s p s' Hs E. unfold read_peer in E. apply bind_inv in E as (a & t1 & E1 & E).
  apply bind_inv in E as (q & t2 & E2 & E). injection E as <- <-.
  destruct (writes_back_be 16 _ _ _ Hs E1) as (-> & Ht1 & W1).
  destruct (writes_back_le 2 _ _ _ Ht1 E2) as (-> & Ht2 & W2).
  unfold peer_serialize. cbn [fst snd]. rewrite <- app_assoc. split; [reflexivity |]. split; [exact Ht2 |].
  split; assumption.
Qed.

Lemma list_writes {A : Type} (item : reader A) (write : A -> list Z) (ok : A -> Prop) (n : nat) :
  writes_back ok write item ->
  writes_back (fun l => length l = n /\ Forall ok l) (fun l => concat (map write l)) (read_list n item).
Proof.
  intros Hi. induction n as [| n IH]; intros s l s' Hs E; cbn [read_list] in E.
  - injection E as <- <-. repeat split; [exact Hs | constructor].
  - apply bind_inv in E as (x & t1 & E1 & E). apply bind_inv in E as (l' & t2 & E2 & E). injection E as <- <-.
    destruct (Hi _ _ _ Hs E1) as (-> & Ht1 & Wx). destruct (IH _ _ _ Ht1 E2) as (-> & Ht2 & L & Wl).
    cbn [map concat length]. rewrite <- app_assoc, L. repeat split; [exact Ht2 |]. now constructor.
Qed.

(** A skipped pair leaves the list short for good. *)
Lemma pairs_writes (n : nat) : forall (s : list Z) (l : list (Z * Z)) (s' : list Z), bytes_ok s ->
  read_pairs n s = Some (l, s') -> bytes_ok s' /\ (length l <= n)%nat /\
  (length l = n -> s = concat (map pair_serialize l) ++ s' /\ Forall pair_ok l).
Proof.
  induction n as [| n IH]; intros s l s' Hs E; cbn [read_pairs] in E.
  - injection E as <- <-. split; [exact Hs |]. split; [constructor |]. repeat split. constructor.
  - apply bind_inv in E as (x & t1 & E1 & E). destruct (writes_back_be 32 _ _ _ Hs E1) as (-> & Ht1 & Wx).
    rewrite (zero_test x Wx) in E. destruct (Z.eqb_spec x 0) as [-> | Nx]; cbn [negb] in E.
    + destruct (IH _ _ _ Ht1 E) as (Ho & L & _). repeat split; (assumption || lia).
    + apply bind_inv in E as (r & t2 & E2 & E). apply bind_inv in E as (l' & t3 & E3 & E).
      destruct (writes_back_be 32 _ _ _ Ht1 E2) as (-> & Ht2 & Wr). destruct (IH _ _ _ Ht2 E3) as (Ho & L & HL).
      rewrite (zero_test r Wr) in E.
      destruct (Z.eqb_spec r 0) as [-> | Nr]; cbn [negb] in E; injection E as <- <-;
        [repeat split; (assumption || lia) |].
      cbn [length map concat]. split; [exact Ho |]. split; [lia |]. intros EL.
      destruct HL as [-> HL]; [lia |]. unfold pair_serialize at 3. cbn [fst snd]. rewrite <- !app_assoc.
      split; [reflexivity |]. constructor; [| exact HL]. parts.
Qed.

Lemma pairs_length (l : list (Z * Z)) : length (concat (map pair_serialize l)) = (64 * length l)%nat.
Proof.
  induction l as [| p l IH]; [reflexivity |]. cbn [map concat length]. unfold pair_serialize at 1.
  rewrite !length_app, !be_bytes_length, IH. lia.
Qed.

Lemma confirm_req_writes (h : message_header) (s : list Z) (b : body) (s' : list Z) : bytes_ok s ->
  (length s <= max_safe_udp_message_size)%nat -> confirm_req_deserialize h s = Some (b, s') ->
  exists ob l t, b = confirm_req ob l /\ confirm_req_serialize h ob l = Some t /\ s = t ++ s' /\
  (length l <= 7)%nat /\ body_ok h b.
Proof.
  intros Hs Hlen E. unfold confirm_req_deserialize in E. unfold confirm_req_serialize.
  destruct (type_eqb (header_block_type h) bt_not_a_block) eqn:Et.
  - apply bind_inv in E as (c & t1 & E1 & E). apply bind_inv in E as (l & t2 & E2 & E).
    destruct (writes_back_le 1 _ _ _ Hs E1) as (-> & Ht1 & Wc).
    destruct (pairs_writes _ _ _ _ Ht1 E2) as (Ho & L & HL).
    destruct ((length l =? 0)%nat || negb (Z.of_nat (length l) =? c)) eqn:Eg; [discriminate E |].
    injection E as <- <-. apply orb_false_iff in Eg as [Hn Hc]. apply Nat.eqb_neq in Hn.
    apply negb_false_iff, Z.eqb_eq in Hc. destruct HL as [-> HL]; [lia |].
    rewrite !length_app, pairs_length, le_bytes_length in Hlen. unfold max_safe_udp_message_size in Hlen.
    exists None, l. rewrite (proj2 (Nat.leb_le _ _)), (proj2 (Nat.eqb_neq (length l) 0)) by lia.
    eexists. split; [reflexivity |]. split; [reflexivity |]. rewrite Hc, <- app_assoc. split; [reflexivity |].
    split; [lia |]. cbn [body_ok]. apply type_eqb_eq in Et. repeat split; (assumption || lia).
  - apply bind_inv in E as (b' & t1 & E1 & E). injection E as <- <-.
    destruct (deserialize_type_writes _ _ _ _ Hs E1) as (-> & Ht & Hb & Hty).
    exists (Some b'), []. eexists. parts; cbn; lia.
Qed.

Lemma handshake_writes (h : message_header) (s : list Z) (b : body) (s' : list Z) : bytes_ok s ->
  handshake_deserialize h s = Some (b, s') ->
  exists q r, b = node_id_handshake q r /\ s = handshake_serialize q r ++ s' /\ body_ok h b.
Proof.
  intros Hs E. unfold handshake_deserialize in E. apply bind_inv in E as (q & t1 & E1 & E).
  apply bind_inv in E as (r & t2 & E2 & E). injection E as <- <-. exists q, r. split; [reflexivity |].
  assert (Hq : s = match q with Some x => be_bytes 32 x | None => [] end ++ t1 /\ bytes_ok t1 /\
    flag h query_flag = match q with Some _ => true | None => false end /\
    match q with Some x => word 256 x | None => True end).
  { destruct (flag h query_flag); [| injection E1 as <- <-; repeat split; assumption].
    apply bind_inv in E1 as (x & t & Ex & E1). injection E1 as <- <-.
    destruct (writes_back_be 32 _ _ _ Hs Ex) as (-> & Ht & Wx). parts. }
  destruct Hq as (-> & Ht1 & Fq & Wq). unfold handshake_serialize. rewrite <- app_assoc.
  assert (Hr : t1 = match r with Some (a, g) => be_bytes 32 a ++ be_bytes 64 g | None => [] end ++ t2 /\
    flag h response_flag = match r with Some _ => true | None => false end /\
    match r with Some (a, g) => word 256 a /\ word 512 g | None => True end).
  { destruct (flag h response_flag); [| injection E2 as <- <-; repeat split].
    apply bind_inv in E2 as (a & t & Ea & E2). apply bind_inv in E2 as (g & t' & Eg & E2). injection E2 as <- <-.
    destruct (writes_back_be 32 _ _ _ Ht1 Ea) as (-> & Ht & Wa).
    destruct (writes_back_be 64 _ _ _ Ht Eg) as (-> & Ht' & Wg). rewrite <- app_assoc.
    parts. }
  destruct Hr as (-> & Fr & Wr). split; [reflexivity |]. parts.
Qed.

(** The messages a datagram may carry; the others are framed. *)
Definition realtime (b : body) : bool :=
  match b with
  | keepalive _ | publish _ | confirm_req _ _ | confirm_ack _ | node_id_handshake _ _ => true
  | _ => false
  end.

Lemma peers_length (l : list (Z * Z)) : length (concat (map peer_serialize l)) = (18 * length l)%nat.
Proof.
  induction l as [| p l IH]; [reflexivity |]. cbn [map concat length]. unfold peer_serialize at 1.
  rewrite !length_app, be_bytes_length, le_bytes_length, IH. lia.
Qed.

Lemma header_length `{Network} (h : message_header) : length (header_serialize h) = 8%nat.
Proof.
  unfold header_serialize, magic_number, is_beta_network. rewrite !length_app, !le_bytes_length.
  destruct (nano_network =? 0); [| destruct (nano_network =? 1)]; reflexivity.
Qed.

(** Every well-formed message of the ten types is written without a failed
    assertion and its reader returns it and leaves nothing; the length that frames
    a message on a stream, computed from its header alone, is the length of what
    was written. *)
Theorem message_roundtrip `{BlockHash, Network} (h : message_header) (b : body) (Hm : message_ok h b) :
  exists s, message_serialize h b = Some (header_serialize h ++ s) /\
  header_deserialize (header_serialize h ++ s) = Some (h, s) /\
  body_deserialize h (body_type b) s = Some (b, []) /\
  forall n, payload_length_bytes h = Some n -> length s = n.
Proof.
  destruct Hm as (Hh & Ht & Hb). destruct (body_reads h b Hb) as (s & Es & Er). exists s.
  unfold message_serialize. rewrite Es. split; [reflexivity |]. split; [now apply header_reads |].
  split; [exact Er |]. intros n. unfold payload_length_bytes, bulk_pull_is_count_present. rewrite Ht.
  destruct b as [peers | | | | st e c | | st a c | | a m f]; cbn [body_type message_code Z.eqb Pos.eqb andb];
    intros Hn; try discriminate Hn; injection Hn as <-; cbn [body_serialize] in Es;
    unfold keepalive_serialize, frontier_req_serialize, bulk_pull_account_serialize in Es.
  - apply some_inj in Es as <-. destruct Hb as [L _]. now rewrite peers_length, L.
  - destruct (bulk_pull_reads h st e c Hb) as (s' & Es' & _ & L). rewrite Es' in Es. apply some_inj in Es as <-.
    exact L.
  - now apply some_inj in Es as <-.
  - apply some_inj in Es as <-. now rewrite !length_app, be_bytes_length, !le_bytes_length.
  - apply some_inj in Es as <-. now rewrite !length_app, !be_bytes_length, le_bytes_length.
Qed.

Section ParserTheorems.

Context `{BH : BlockHash, WE : WorkEnv, NW : Network}.

(** The three networks there are. *)
Definition known_network : Prop := 0 <= nano_network <= 2.

Lemma network_valid : known_network -> valid_magic = true /\ valid_network = true.
Proof.
  unfold known_network, valid_magic, valid_network, magic_number, is_beta_network. intros Hn.
  assert (E : nano_network = 0 \/ nano_network = 1 \/ nano_network = 2) by lia.
  destruct E as [-> | [-> | ->]]; split; reflexivity.
Qed.

(** What the parser demands of a message besides its form. *)
Definition admissible (h : message_header) (b : body) : Prop :=
  message_ok h b /\ realtime b = true /\ protocol_version_min <= version_using h /\ enough_work b = true.

Lemma version_accepted (h : message_header) : protocol_version_min <= version_using h ->
  is_beta_network && (version_using h <? protocol_version_reasonable_min) = false /\
  (version_using h <? protocol_version_min) = false.
Proof.
  unfold protocol_version_min, protocol_version_reasonable_min. intros Hv.
  rewrite (proj2 (Z.ltb_ge _ _)) by lia. now rewrite andb_false_r.
Qed.

Lemma parser_accepts (h : message_header) (b : body) (buffer : list Z) : known_network -> admissible h b ->
  message_serialize h b = Some buffer -> (length buffer <= max_safe_udp_message_size)%nat ->
  deserialize_buffer buffer = (success, Some (h, b)).
Proof.
  intros Hn ((Hh & Ht & Hb) & Hr & Hv & Hw) Es Hl. destruct (body_reads h b Hb) as (s & Eb & Er).
  unfold message_serialize in Es. rewrite Eb in Es. injection Es as <-. unfold deserialize_buffer.
  rewrite (proj2 (Nat.leb_le _ _)) by exact Hl. rewrite (header_reads h Hh s).
  destruct (version_accepted h Hv) as [-> ->]. destruct (network_valid Hn) as [-> ->]. rewrite Ht.
  unfold deserialize_payload. destruct b; try discriminate Hr;
    cbn [body_type body_deserialize message_code Z.eqb Pos.eqb negb] in *; now rewrite Er, Hw.
Qed.

Lemma payload_inv (h : message_header) (r : reader body) (bad : parse_status) (s : list Z)
  (st : parse_status) (h' : message_header) (b : body) :
  (let p := deserialize_payload r bad enough_work s in (fst p, option_map (pair h) (snd p))) = (st, Some (h', b)) ->
  st = success /\ h' = h /\ r s = Some (b, []) /\ enough_work b = true.
Proof.
  unfold deserialize_payload. destruct (r s) as [[b' [|]] |]; try discriminate.
  destruct (enough_work b') eqn:E; cbn; [| discriminate]. intros Eq. injection Eq as <- <- <-. now split.
Qed.

Lemma body_writes (h : message_header) (t : message_type) (s : list Z) (b : body) :
  match t with
  | mt_keepalive | mt_publish | mt_confirm_req | mt_confirm_ack | mt_node_id_handshake => True
  | _ => False
  end -> bytes_ok s -> (length s <= max_safe_udp_message_size)%nat -> body_deserialize h t s = Some (b, []) ->
  body_type b = t /\ realtime b = true /\ body_serialize h b = Some s /\ body_ok h b.
Proof.
  intros Hr Hs Hl E. destruct t; try contradiction; cbn [body_deserialize] in E.
  - apply bind_inv in E as (l & t1 & E1 & E). injection E as <- ->.
    destruct (list_writes _ _ _ 8 peer_writes _ _ _ Hs E1) as (-> & _ & L & W). cbn [body_serialize].
    rewrite app_nil_r. parts.
  - apply bind_inv in E as (b' & t1 & E1 & E). injection E as <- ->.
    destruct (deserialize_type_writes _ _ _ _ Hs E1) as (-> & _ & Hb & Hty). cbn [body_serialize].
    rewrite app_nil_r. parts.
  - destruct (confirm_req_writes h _ _ _ Hs Hl E) as (ob & l & t & -> & Et & -> & _ & Hok).
    rewrite app_nil_r. parts.
  - apply bind_inv in E as (v & t1 & E1 & E). injection E as <- ->.
    destruct (read_vote_writes _ _ _ (one_type_format (header_block_type h)) _ _ _ Hs E1) as (-> & _ & Hv).
    assert (Hok : body_ok h (confirm_ack v)).
    { destruct Hv as (H1 & H2 & H3 & H4 & H5). rewrite Forall_forall in H5.
      split; [| apply Forall_forall; intros x Hx; apply (H5 x Hx)].
      parts. apply Forall_forall. intros x Hx. apply (H5 x Hx). }
    cbn [body_serialize]. rewrite (confirm_ack_image h v Hok). parts.
  - destruct (handshake_writes h _ _ _ Hs E) as (q & r & -> & -> & Hok). rewrite app_nil_r. parts.
Qed.


(** The statuses for a foreign network are never reported: both tests look at
    the node's own magic number, which a header must carry to be read at all, so a
    datagram of another network has an invalid header. *)
Theorem network_status_unreachable (buffer : list Z) (Hn : known_network) :
  fst (deserialize_buffer buffer) <> invalid_magic /\ fst (deserialize_buffer buffer) <> invalid_network /\
  ((length buffer <= max_safe_udp_message_size)%nat -> firstn 2 buffer <> magic_number ->
   deserialize_buffer buffer = (invalid_header, None)).
Proof.
  assert (P : forall (h : message_header) r bad s, bad <> invalid_magic -> bad <> invalid_network ->
    fst (deserialize_payload r bad enough_work s) <> invalid_magic /\
    fst (deserialize_payload r bad enough_work s) <> invalid_network).
  { intros h r bad s H1 H2. unfold deserialize_payload. destruct (r s) as [[b [|]] |]; try now split.
    destruct (enough_work b); split; discriminate. }
  unfold deserialize_buffer. destruct (network_valid Hn) as [-> ->]. cbn [negb].
  assert (A : forall p q : Prop, p /\ q -> forall r : Prop, r -> p /\ q /\ r) by tauto.
  apply A.
  - destruct (length buffer <=? _)%nat; [| split; discriminate].
    destruct (header_deserialize buffer) as [[h s] |]; [| split; discriminate].
    destruct (is_beta_network && _); [split; discriminate |].
    destruct (version_using h <? _); [split; discriminate |]. cbv zeta.
    repeat match goal with |- context [if ?x =? ?y then _ else _] =>
      destruct (x =? y); [apply (P h); discriminate |] end. split; discriminate.
  - intros Hl Hm. rewrite (proj2 (Nat.leb_le _ _)) by exact Hl.
    replace (header_deserialize buffer) with (@None (message_header * list Z)); [reflexivity |].
    unfold header_deserialize, bind, read. destruct (length buffer <? 2)%nat; [reflexivity |].
    now destruct (list_eq_dec Z.eq_dec (firstn 2 buffer) magic_number).
Qed.

End ParserTheorems.

(** ** Messages the node builds *)

(** Closed numbers. *)
Ltac small := unfold word; vm_compute; split; [discriminate | reflexivity].

Lemma block_type_set_get (t : message_type) (b : block_type) :
  header_block_type (block_type_set (new_header t) b) = b /\
  (word 8 (message_code t) -> header_ok (block_type_set (new_header t) b)) /\
  header_type (block_type_set (new_header t) b) = message_code t.
Proof.
  split; [now destruct t, b |]. split; [| reflexivity]. intros Ht.
  unfold header_ok. cbn [block_type_set with_extensions new_header version_max version_using version_min
    header_type extensions]. do 3 (split; [small |]). split; [exact Ht |]. destruct b; small.
Qed.

Lemma handshake_new_ok (q : option Z) (r : option (Z * Z)) :
  match q with Some x => word 256 x | None => True end ->
  match r with Some (a, s) => word 256 a /\ word 512 s | None => True end ->
  message_ok (fst (node_id_handshake_new q r)) (snd (node_id_handshake_new q r)).
Proof.
  intros Hq Hr. unfold message_ok. split; [| split; [destruct q, r; reflexivity |]].
  - unfold header_ok. destruct q, r; do 4 (split; [small |]); small.
  - split; [destruct q, r; reflexivity |]. split; [destruct q, r; reflexivity |]. now split.
Qed.

Lemma hashes_length (l : list vote_block) `{BlockHash} :
  Forall (item_typed bt_not_a_block) l -> length (concat (map (image_as bt_not_a_block) l)) = (32 * length l)%nat.
Proof.
  induction 1 as [| x l Hx Hl IH]; [reflexivity |]. cbn [map concat length]. rewrite length_app, IH.
  destruct x as [b | h]; cbn in Hx; [now destruct b |]. unfold image_as. cbn [serialize_as type_eqb type_code Z.eqb Pos.eqb].
  rewrite be_bytes_length. lia.
Qed.

Lemma hash_vote_message `{BlockHash, WorkEnv} (v : vote) : vote_ok v ->
  Forall (item_typed bt_not_a_block) (blocks v) ->
  confirm_ack_new v = Some (block_type_set (new_header mt_confirm_ack) bt_not_a_block, confirm_ack v) /\
  enough_work (confirm_ack v) = true.
Proof.
  intros Hv Ht. unfold confirm_ack_new, enough_work. split.
  - destruct Hv as (_ & _ & _ & Hne & _). destruct (blocks v) as [| [b |] l]; try contradiction; [| reflexivity].
    inversion Ht as [| ? ? Hx]; subst. cbn in Hx. now destruct b.
  - apply forallb_forall. rewrite Forall_forall in Ht. intros [b | h] Hx; [| reflexivity].
    specialize (Ht _ Hx). cbn in Ht. now destruct b.
Qed.

Section Sent.

Context `{BH : BlockHash, WE : WorkEnv, NW : Network}.

(** The message is written, and the parser of the receiver hands it on. *)
Definition delivered (m : message_header * body) : Prop :=
  exists s, message_serialize (fst m) (snd m) = Some s /\ deserialize_buffer s = (success, Some m).

Lemma deliver (h : message_header) (b : body) (s : list Z) : known_network -> message_ok h b ->
  realtime b = true -> version_using h = protocol_version -> enough_work b = true ->
  body_serialize h b = Some s -> (8 + length s <= max_safe_udp_message_size)%nat -> delivered (h, b).
Proof.
  intros Hn Hm Hr Hv Hw Es Hl. exists (header_serialize h ++ s). unfold message_serialize. cbn [fst snd].
  rewrite Es. split; [reflexivity |]. apply parser_accepts; [exact Hn | | unfold message_serialize; now rewrite Es |].
  - split; [exact Hm |]. split; [exact Hr |]. split; [rewrite Hv; discriminate | exact Hw].
  - now rewrite length_app, header_length.
Qed.

Lemma block_messages (b : block) : known_network -> block_ok b -> fst (work_validate_block b) = false ->
  delivered (publish_new b) /\ delivered (confirm_req_new_block b).
Proof.
  intros Hn Hb Hw. pose proof (serialize_length b) as L.
  assert (Hs : (length (serialize b) <= 216)%nat) by (rewrite L; destruct b; cbn; lia).
  destruct (block_type_set_get mt_publish (type b)) as (Tp & Hp & _).
  destruct (block_type_set_get mt_confirm_req (type b)) as (Tc & Hc & _).
  split; (eapply (deliver _ _ (serialize b)); try reflexivity; try exact Hn).
  - split; [apply Hp; small |]. split; [reflexivity |]. now split.
  - cbn [enough_work]. now rewrite Hw.
  - unfold max_safe_udp_message_size. lia.
  - split; [apply Hc; small |]. split; [reflexivity |]. split; [reflexivity |]. now split.
  - cbn [enough_work]. now rewrite Hw.
  - cbn [body_serialize]. unfold confirm_req_serialize. rewrite Tc. now destruct b.
  - unfold max_safe_udp_message_size. lia.
Qed.


End Sent.

(** ** Concrete messages *)

(** The live network, with a work function that accepts everything. *)
Definition demo_network : Network := 2.
Definition demo_env : WorkEnv := {| work_value := fun _ _ => 18446744073709551615; is_test_network := false |}.
#[local] Existing Instance demo_network.
#[local] Existing Instance demo_env.
#[local] Existing Instance demo_hash.

Definition demo_ack : message_header * body :=
  (block_type_set (new_header mt_confirm_ack) bt_not_a_block, confirm_ack demo_vote).

Lemma demo_ack_ok : message_ok (fst demo_ack) (snd demo_ack).
Proof.
  destruct (block_type_set_get mt_confirm_ack bt_not_a_block) as (Tc & Hc & Hh).
  split; [apply Hc; small |]. split; [reflexivity |]. split; [exact demo_vote_ok |]. repeat constructor.
Qed.

Definition demo_bytes : list Z :=
  match message_serialize (fst demo_ack) (snd demo_ack) with Some s => s | None => [] end.

Lemma message_roundtrip_witness : exists s,
  message_serialize (fst demo_ack) (snd demo_ack) = Some (header_serialize (fst demo_ack) ++ s) /\
  header_deserialize (header_serialize (fst demo_ack) ++ s) = Some (fst demo_ack, s) /\
  body_deserialize (fst demo_ack) mt_confirm_ack s = Some (snd demo_ack, []) /\
  forall n, payload_length_bytes (fst demo_ack) = Some n -> length s = n.
Proof. apply (message_roundtrip (fst demo_ack) (snd demo_ack) demo_ack_ok). Defined.


Lemma network_status_unreachable_witness :
  fst (deserialize_buffer [70; 65]) <> invalid_magic /\ fst (deserialize_buffer [70; 65]) <> invalid_network /\
  deserialize_buffer [70; 65] = (invalid_header, None).
Proof.
  destruct (network_status_unreachable [70; 65]) as (H1 & H2 & H3); [vm_compute; split; discriminate |].
  split; [exact H1 |]. split; [exact H2 |]. apply H3; [vm_compute; lia | discriminate].
Defined.

Definition demo_block : block := change_block (mk_change 5 6) 7 8.


End Messages.
