(* ===== verification/Elections.v ===== *)
(** * Elections: definitions

    Model of [nano::election], [nano::active_transactions], [nano::online_reps]
    ([nano/node/node.cpp], [node.hpp]) and of [ledger::weight].  Elections are
    shared objects: they live in a heap and are reached through two indices, [roots]
    (ordered by difficulty, unique by root) and [blocks] (by block hash), which the
    code updates separately.  What the code hands to other parts of the node (blocks
    to force, to confirm or to publish, votes to republish, requests) is a log.
    [None] is a failed assertion. *)

From stdpp Require Import base gmap list.
From Stdlib Require Import ZArith Lia.
From S2P Require Import Prelude Blocks Numbers Store Ledger Work Votes.
Local Open Scope Z_scope.

Module Elections.
Import Block Ledger.Ledger.
Module V := Votes.Votes.
Module W := Work.Work.

(** ** Weights *)

Record peer_information := mk_peer { endpoint : Z; rep_account : Z; rep_weight : Z }.

(** [ledger::weight] and the flag [check_bootstrap_weights] after it. *)
Definition ledger_weight (bootstrap_weights : gmap Z Z) (max_blocks : Z) (check : bool) (s : store) (a : Z)
    : Z * bool :=
  if check then
    if Z.of_nat (base.size (Store.blocks s)) <? max_blocks then
      match bootstrap_weights !! a with
      | Some w => (w, true)
      | None => (representation_get s a, true)
      end
    else (representation_get s a, false)
  else (representation_get s a, false).

(** What an operation of the elections sees of the rest of the node. *)
Class VoteEnv := {
  weight : Z -> Z;                        (* [ledger.weight] *)
  ve_store : store;
  online_stake : Z;                       (* [online_reps.online_stake] *)
  steady_now : Z;                         (* the clocks, in seconds *)
  system_now : Z;
  representatives : list peer_information;   (* [peers.representatives] *)
  list_vector : list peer_information }.     (* [peers.list_vector (100)] *)

(** Constants of the node and its configuration. *)
Class Config := {
  online_weight_minimum : Z;
  online_weight_quorum : Z;
  not_an_account : Z;
  is_live_network : bool }.

(** The order in which an [unordered_map] is iterated. *)
Class Iteration := {
  iterate : gmap Z Z -> list (Z * Z);
  iterate_perm (m : gmap Z Z) : iterate m ≡ₚ map_to_list m }.

(** ** Data *)

Record vote_info := mk_vote_info { vi_time : Z; vi_sequence : Z; vi_hash : Z }.

Record election_status := mk_status {
  winner : block; st_tally : Z; election_end : Z; election_duration : Z }.

Record election := mk_election {
  last_votes : gmap Z vote_info; el_blocks : gmap Z block; election_start : Z;
  status : election_status; confirmed : bool; stopped : bool; last_tally : gmap Z Z;
  announcements : Z }.

(** [uint512_union (previous, root)]. *)
Definition root_of (b : block) : Z * Z := (previous b, root b).

Record conflict_info := mk_conflict { ci_root : Z * Z; difficulty : Z; ci_election : nat }.

(** What other parts of the node are asked to do. *)
Inductive action :=
| process_confirmed (e : nat) (b : block)
| block_force (b : block)
| republish_block (b : block)
| republish_vote (v : V.vote)
| republish_block_batch (l : list block)
| confirm_req_hashes (l : list (Z * list (Z * Z)))
| confirm_req_blocks (l : list (block * list peer_information)).

Record active := mk_active {
  elections : gmap nat election; roots : list conflict_info; blocks : gmap Z nat;
  history : list election_status; a_stopped : bool; log : list action }.

Definition set_last_votes (e : election) (m : gmap Z vote_info) : election :=
  mk_election m (el_blocks e) (election_start e) (status e) (confirmed e) (stopped e) (last_tally e) (announcements e).
Definition set_el_blocks (e : election) (m : gmap Z block) : election :=
  mk_election (last_votes e) m (election_start e) (status e) (confirmed e) (stopped e) (last_tally e) (announcements e).
Definition set_status (e : election) (s : election_status) : election :=
  mk_election (last_votes e) (el_blocks e) (election_start e) s (confirmed e) (stopped e) (last_tally e) (announcements e).
Definition set_confirmed (e : election) : election :=
  mk_election (last_votes e) (el_blocks e) (election_start e) (status e) true (stopped e) (last_tally e) (announcements e).
Definition set_stopped (e : election) : election :=
  mk_election (last_votes e) (el_blocks e) (election_start e) (status e) (confirmed e) true (last_tally e) (announcements e).
Definition set_last_tally (e : election) (m : gmap Z Z) : election :=
  mk_election (last_votes e) (el_blocks e) (election_start e) (status e) (confirmed e) (stopped e) m (announcements e).
Definition set_announcements (e : election) (n : Z) : election :=
  mk_election (last_votes e) (el_blocks e) (election_start e) (status e) (confirmed e) (stopped e) (last_tally e) n.

Definition put_election (a : active) (i : nat) (e : election) : active :=
  mk_active (<[i := e]> (elections a)) (roots a) (blocks a) (history a) (a_stopped a) (log a).
Definition put_log (a : active) (x : action) : active :=
  mk_active (elections a) (roots a) (blocks a) (history a) (a_stopped a) (log a ++ [x]).
Definition put_roots (a : active) (l : list conflict_info) : active :=
  mk_active (elections a) l (blocks a) (history a) (a_stopped a) (log a).
Definition put_blocks (a : active) (m : gmap Z nat) : active :=
  mk_active (elections a) (roots a) m (history a) (a_stopped a) (log a).

Definition initial_active : active := mk_active ∅ [] ∅ [] false [].

(** [unordered_map::insert] keeps an existing entry. *)
Definition insert_new {A : Type} (k : Z) (x : A) (m : gmap Z A) : gmap Z A :=
  match m !! k with Some _ => m | None => <[k := x]> m end.

Section Operations.

Context `{LE : Env, WE : W.WorkEnv, IT : Iteration, CF : Config}.

Section WithEnv.

Context `{VE : VoteEnv}.

(** ** One election *)

Definition new_election (b : block) : election :=
  mk_election {[ not_an_account := mk_vote_info steady_now 0 (hash b) ]} {[ hash b := b ]} steady_now
    (mk_status b 0 0 0) false false ∅ 0.

(** [block_weights[hash] += weight], over the last votes. *)
Definition add_weight (h w : Z) (m : gmap Z Z) : gmap Z Z := <[h := u128 (default 0 (m !! h) + w)]> m.

Definition block_weights (e : election) : gmap Z Z :=
  map_fold (fun rep v m => add_weight (vi_hash v) (weight rep) m) ∅ (last_votes e).

(** [std::map] by decreasing weight: [insert] does nothing if the weight is there. *)
Fixpoint tally_insert (w : Z) (b : block) (t : list (Z * block)) : list (Z * block) :=
  match t with
  | [] => [(w, b)]
  | (w', b') :: t' =>
      if w' <? w then (w, b) :: t
      else if w' =? w then t
      else (w', b') :: tally_insert w b t'
  end.

Definition tally_of (e : election) (items : list (Z * Z)) : list (Z * block) :=
  fold_left (fun t x => match el_blocks e !! fst x with
                        | Some b => tally_insert (snd x) b t
                        | None => t
                        end) items [].

(** [election::tally]: the tally, and the election with its [last_tally]. *)
Definition tally (e : election) : list (Z * block) * election :=
  let w := block_weights e in (tally_of e (iterate w), set_last_tally e w).

Definition delta : Z := u128 (online_stake / 100 * online_weight_quorum).

Definition have_quorum (t : list (Z * block)) (tally_sum : Z) : bool :=
  if online_weight_minimum <=? tally_sum then
    match t with
    | [] => false
    | (first, _) :: t' =>
        let second := match t' with (w, _) :: _ => w | [] => 0 end in
        u128 (second + delta) <? first
    end
  else false.

Definition tally_total (t : list (Z * block)) : Z := fold_left (fun s x => u128 (s + fst x)) t 0.

(** ** Confirming *)

Definition confirm (a : active) (i : nat) (e : election) : active :=
  let s := status e in
  let e' := set_status (set_confirmed e)
    (mk_status (winner s) (st_tally s) system_now (steady_now - election_start e)) in
  put_log (put_election a i e') (process_confirmed i (winner s)).

(** [election::confirm_back]: the queue of hashes; each step takes one, and an
    election that is confirmed adds three. *)
Fixpoint confirm_back (fuel : nat) (hashes : list Z) (a : active) : option active :=
  match hashes with
  | [] => Some a
  | h :: hs =>
      match fuel with
      | O => None
      | S n =>
          if negb (Numbers.uint256_is_zero h) && negb (is_epoch_link h) then
            match blocks a !! h with
            | Some j =>
                match elections a !! j with
                | Some x =>
                    if negb (confirmed x) && negb (stopped x) && (base.size (el_blocks x) =? 1)%nat then
                      if hash (winner (status x)) =? h then
                        confirm_back n (hs ++ [previous (winner (status x)); source (winner (status x));
                                               link (winner (status x))]) (confirm a j x)
                      else None
                    else confirm_back n hs a
                | None => None
                end
            | None => confirm_back n hs a
            end
          else confirm_back n hs a
      end
  end.

(** Three for the queue at the start, and for every election three and its own step. *)
Definition confirm_fuel (a : active) : nat := 3 + 4 * base.size (elections a).

Definition confirm_once (a : active) (i : nat) : option active :=
  match elections a !! i with
  | Some e =>
      if confirmed e then Some a
      else
        let a' := confirm a i e in let w := winner (status e) in
        confirm_back (confirm_fuel a') [previous w; source w; link w] a'
  | None => None
  end.

Definition confirm_if_quorum (a : active) (i : nat) : option active :=
  match elections a !! i with
  | Some e =>
      let (t, e) := tally e in
      match t with
      | [] => None
      | (w, b) :: _ =>
          let s := status e in
          let sum := tally_total t in
          let forced := (online_weight_minimum <=? sum) && negb (hash b =? hash (winner s)) in
          let e := set_status e (mk_status (if forced then b else winner s) w (election_end s) (election_duration s)) in
          let a := put_election a i e in
          let a := if forced then put_log a (block_force b) else a in
          if have_quorum t sum then confirm_once a i else Some a
      end
  | None => None
  end.

(** ** Votes *)

Definition cooldown (w : Z) : Z :=
  if w <? online_stake / 100 then 15 else if w <? online_stake / 20 then 5 else 1.

(** [election::vote]: replay, processed. *)
Definition election_vote (a : active) (i : nat) (rep sequence h : Z) : option ((bool * bool) * active) :=
  match elections a !! i with
  | Some e =>
      let w := weight rep in
      if W.is_test_network || (online_stake / 1000 <? w) then
        let decision :=
          match last_votes e !! rep with
          | None => (false, true)
          | Some v =>
              if (vi_sequence v <? sequence) || ((vi_sequence v =? sequence) && Numbers.uint256_lt (vi_hash v) h)
              then (false, vi_time v <=? steady_now - cooldown w)
              else (true, false)
          end in
        if snd decision then
          let a' := put_election a i
            (set_last_votes e (<[rep := mk_vote_info steady_now sequence h]> (last_votes e))) in
          option_map (pair decision) (if confirmed e then Some a' else confirm_if_quorum a' i)
        else Some (decision, a)
      else Some ((false, false), a)
  | None => None
  end.

Definition find_root (a : active) (r : Z * Z) : option conflict_info :=
  List.find (fun c => bool_decide (ci_root c = r)) (roots a).

(** The votes for the blocks of a vote, in order; replay and processed are or'ed. *)
Fixpoint vote_blocks (a : active) (rep sequence : Z) (l : list V.vote_block) (acc : bool * bool)
    : option ((bool * bool) * active) :=
  match l with
  | [] => Some (acc, a)
  | x :: l' =>
      let target :=
        match x with
        | V.vote_hash_only h => option_map (fun i => (i, h)) (blocks a !! h)
        | V.vote_full b => option_map (fun c => (ci_election c, hash b)) (find_root a (root_of b))
        end in
      match target with
      | Some (i, h) =>
          match election_vote a i rep sequence h with
          | Some (r, a') => vote_blocks a' rep sequence l' (fst acc || fst r, snd acc || snd r)
          | None => None
          end
      | None => vote_blocks a rep sequence l' acc
      end
  end.

(** [active_transactions::vote]: is the vote a replay. *)
Definition active_vote (a : active) (v : V.vote) : option (bool * active) :=
  match vote_blocks a (V.vote_account v) (V.sequence v) (V.blocks v) (false, false) with
  | Some ((replay, processed), a') => Some (replay, if processed then put_log a' (republish_vote v) else a')
  | None => None
  end.

(** ** Publishing *)

(** Run a query of the ledger on the store of the moment. *)
Definition query {A : Type} (m : M A) : option A :=
  match m (mk_lstate ve_store [] (mk_return progress 0 0 0 None sv_unknown) []) with
  | Done (x, _) => Some x
  | _ => None
  end.

(** [node::validate_block_by_previous]; [true] is an error. *)
Definition validate_block_by_previous (b : block) : M bool :=
  r ← (if negb (previous b =? 0) then
         e ← reads (fun s => block_exists s (previous b));
         if e : bool then x ← ledger_account (previous b); mret (false, x) else mret (true, 0)
       else mret (false, root b));
  let '(result, acc) := r in
  q ← (match b with
       | state_block h _ _ =>
           if negb result then
             p ← (if negb (state_previous h =? 0) then
                    e ← reads (fun s => block_exists s (state_previous h));
                    if e : bool then x ← ledger_balance (state_previous h); mret (false, x) else mret (true, 0)
                  else mret (false, 0));
             let '(bad, prev_balance) := p in
             mret (bad, if negb bad && ((state_balance h =? prev_balance) && negb (epoch_link =? 0) &&
                                        is_epoch_link (state_link h))
                        then epoch_signer else acc)
           else mret (result, acc)
       | _ => mret (result, acc)
       end);
  let '(result, acc) := q in
  mret (result || ((acc =? 0) || validate_message acc (hash b) (block_signature b))).

(** [election::publish]; [true]: the block is refused. *)
Definition election_publish (a : active) (i : nat) (b : block) : option (bool * active) :=
  match elections a !! i with
  | Some e =>
      let full := (10 <=? base.size (el_blocks e))%nat in
      let e := if full then set_last_tally e (insert_new (hash b) 0 (last_tally e)) else e in
      let a := put_election a i e in
      if full && (default 0 (last_tally e !! hash b) <? online_stake / 10) then Some (true, a)
      else
        match query (validate_block_by_previous b) with
        | Some true => Some (true, a)
        | Some false =>
            match el_blocks e !! hash b with
            | Some _ => Some (false, a)
            | None =>
                let a := put_election a i (set_el_blocks e (<[hash b := b]> (el_blocks e))) in
                match confirm_if_quorum a i with
                | Some a => Some (false, put_log a (republish_block b))
                | None => None
                end
            end
        | None => None
        end
  | None => None
  end.

Definition active_publish (a : active) (b : block) : option (bool * active) :=
  match find_root a (root_of b) with
  | Some c =>
      match election_publish a (ci_election c) b with
      | Some (result, a') =>
          Some (result, if result then a' else put_blocks a' (insert_new (hash b) (ci_election c) (blocks a')))
      | None => None
      end
  | None => Some (true, a)
  end.

(** ** The indices *)

(** Insertion in the index by decreasing difficulty: after its equals. *)
Fixpoint roots_insert (c : conflict_info) (l : list conflict_info) : list conflict_info :=
  match l with
  | [] => [c]
  | x :: l' => if difficulty x <? difficulty c then c :: l else x :: roots_insert c l'
  end.

Definition roots_erase (r : Z * Z) (l : list conflict_info) : list conflict_info :=
  List.filter (fun c => negb (bool_decide (ci_root c = r))) l.

(** The next number in the heap. *)
Definition fresh_election (a : active) : nat := base.size (elections a).

(** [active_transactions::add]; [true]: nothing was started. *)
Definition active_add (a : active) (b : block) : option (bool * active) :=
  if a_stopped a then Some (true, a)
  else match find_root a (root_of b) with
       | Some _ => Some (true, a)
       | None =>
           let v := W.work_validate_block b in
           if fst v then None
           else
             let i := fresh_election a in
             let a := put_election a i (new_election b) in
             let a := put_roots a (roots_insert (mk_conflict (root_of b) (snd v) i) (roots a)) in
             Some (false, put_blocks a (insert_new (hash b) i (blocks a)))
       end.

(** [active_transactions::erase]. *)
Definition active_erase (a : active) (b : block) : active := put_roots a (roots_erase (root_of b) (roots a)).

(** [roots.modify]: the element stays where it is if the order allows it. *)
Fixpoint roots_modify (before : option Z) (r : Z * Z) (d : Z) (l : list conflict_info)
    : option (list conflict_info) :=
  match l with
  | [] => None
  | c :: l' =>
      if bool_decide (ci_root c = r) then
        let low := match before with Some x => x <? d | None => false end in
        let high := match l' with x :: _ => d <? difficulty x | [] => false end in
        if low || high then None else Some (mk_conflict r d (ci_election c) :: l')
      else option_map (cons c) (roots_modify (Some (difficulty c)) r d l')
  end.

(** [active_transactions::update_difficulty]. *)
Definition update_difficulty (a : active) (b : block) : option active :=
  match find_root a (root_of b) with
  | Some c =>
      let v := W.work_validate_block b in
      if fst v then None
      else
        Some (put_roots a (match roots_modify None (root_of b) (snd v) (roots a) with
                           | Some l => l
                           | None => roots_insert (mk_conflict (root_of b) (snd v) (ci_election c))
                                       (roots_erase (root_of b) (roots a))
                           end))
  | None => Some a
  end.

(** ** [request_confirm] *)

Definition announcement_min : Z := 2.
Definition announcement_long : Z := 20.
Definition election_history_size : nat := 2048.
Definition max_broadcast_queue : nat := 1000.
Definition confirm_req_hashes_max : nat := 6.

Record bundles := mk_bundles {
  requests : gmap Z (list (Z * Z)); rebroadcast : list block;
  confirm_reqs : list (block * list peer_information); inactive : list (Z * Z) }.

(** The pass over the representatives: the vector before and from the current
    one; one that has voted is replaced by the last. *)
Fixpoint rep_loop (fuel : nat) (votes : gmap Z vote_info) (front rest : list peer_information)
    (probable : list Z) (total : Z) : list peer_information * Z :=
  match rest, fuel with
  | [], _ | _, O => (front ++ rest, total)
  | p :: tl, S n =>
      let seen := bool_decide (rep_account p ∈ probable) in
      let total := if seen then total else u128 (total + rep_weight p) in
      let probable := if seen then probable else rep_account p :: probable in
      match votes !! rep_account p with
      | Some _ =>
          match tl with
          | [] => (front, total)
          | _ => rep_loop n votes front (default p (last tl) :: removelast tl) probable total
          end
      | None => rep_loop n votes (front ++ [p]) tl probable total
      end
  end.

Definition request (limit : option (nat * nat)) (w : block) (m : gmap Z (list (Z * Z))) (p : peer_information)
    : gmap Z (list (Z * Z)) :=
  let pair := (hash w, root w) in
  match m !! endpoint p with
  | None =>
      if match limit with Some (n, _) => (base.size m <? n)%nat | None => true end
      then <[endpoint p := [pair]]> m else m
  | Some l =>
      if match limit with Some (_, n) => (length l <? n)%nat | None => true end
      then <[endpoint p := l ++ [pair]]> m else m
  end.

(** The requests for one election. *)
Definition request_votes (e : election) (roots_size : nat) (u : bundles) : bundles :=
  let w := winner (status e) in
  let (reps, total_weight) := rep_loop (length representatives) (last_votes e) [] representatives [] 0 in
  let enough := (negb (length reps =? 0)%nat && (online_weight_minimum <? total_weight)) || (5 <? roots_size)%nat in
  if enough then
    if negb W.is_test_network then
      if (length (confirm_reqs u) <? max_broadcast_queue)%nat
      then mk_bundles (requests u) (rebroadcast u) (confirm_reqs u ++ [(w, reps)]) (inactive u) else u
    else mk_bundles
           (fold_left (request (Some (max_broadcast_queue, (max_broadcast_queue * confirm_req_hashes_max)%nat)) w)
              reps (requests u)) (rebroadcast u) (confirm_reqs u) (inactive u)
  else
    if negb W.is_test_network
    then mk_bundles (requests u) (rebroadcast u) (confirm_reqs u ++ [(w, list_vector)]) (inactive u)
    else mk_bundles (fold_left (request None w) reps (requests u)) (rebroadcast u) (confirm_reqs u) (inactive u).

(** New elections for the previous block and the source of a long one. *)
Definition escalate (a : active) (w : block) : option active :=
  let previous_block := if Numbers.uint256_is_zero (previous w) then None else block_get ve_store (previous w) in
  match (match previous_block with Some p => option_map snd (active_add a p) | None => Some a end) with
  | Some a =>
      if Numbers.uint256_is_zero (previous w) || present previous_block then
        match query (block_source w) with
        | Some h =>
            if Numbers.uint256_is_zero h then Some a
            else match block_get ve_store h with
                 | Some b => option_map snd (active_add a b)
                 | None => Some a
                 end
        | None => None
        end
      else Some a
  | None => None
  end.

Definition push_history (a : active) (s : election_status) : active :=
  let l := history a ++ [s] in
  mk_active (elections a) (roots a) (blocks a)
    (if (election_history_size <? length l)%nat then tail l else l) (a_stopped a) (log a).

(** One election of the pass, but for the count of its announcements. *)
Definition scan_election (roots_size : nat) (c : conflict_info) (e : election) (a : active) (u : bundles)
    : option (active * bundles) :=
  let i := ci_election c in
  let n := announcements e in
  if (confirmed e || stopped e) && (announcement_min - 1 <=? n) then
    Some (if confirmed e then push_history a (status e) else a,
          mk_bundles (requests u) (rebroadcast u) (confirm_reqs u) (inactive u ++ [ci_root c]))
  else
    let long := announcement_long <? n in
    let a := if long && (n mod 50 =? 1) then put_election a i (snd (tally e)) else a in
    let escalated :=
      if long && ((n mod announcement_long =? 1) && (roots_size <? 100)%nat && negb W.is_test_network)
      then escalate a (winner (status e)) else Some a in
    match escalated with
    | Some a =>
        let announced :=
          if (n <? announcement_long) || (n mod announcement_long =? 1) then
            match query (could_fit (winner (status e))), elections a !! i with
            | Some true, _ =>
                Some (a, if (length (rebroadcast u) <? max_broadcast_queue)%nat
                         then mk_bundles (requests u) (rebroadcast u ++ [winner (status e)]) (confirm_reqs u) (inactive u)
                         else u)
            | Some false, Some e => Some (if negb (n =? 0) then put_election a i (set_stopped e) else a, u)
            | _, _ => None
            end
          else Some (a, u) in
        match announced with
        | Some (a, u) => Some (a, if n mod 4 =? 1 then request_votes e roots_size u else u)
        | None => None
        end
    | None => None
    end.

(** The elements after the one with root [r]. *)
Fixpoint after_root (r : Z * Z) (l : list conflict_info) : list conflict_info :=
  match l with
  | [] => []
  | c :: l' => if bool_decide (ci_root c = r) then l' else after_root r l'
  end.

(** The pass over [roots], which [escalate] extends on the way: [rest] is what the
    iterator has before it. *)
Fixpoint scan (fuel : nat) (roots_size : nat) (rest : list conflict_info) (a : active) (u : bundles)
    : option (active * bundles) :=
  match rest with
  | [] => Some (a, u)
  | c :: _ =>
      match fuel, elections a !! ci_election c with
      | S n, Some e =>
          match scan_election roots_size c e a u with
          | Some (a, u) =>
              match elections a !! ci_election c with
              | Some e =>
                  let a := put_election a (ci_election c) (set_announcements e (u32 (announcements e + 1))) in
                  scan n roots_size (after_root (ci_root c) (roots a)) a u
              | None => None
              end
          | None => None
          end
      | _, _ => None
      end
  end.

(** An election of the start of the pass can add two more. *)
Definition scan_fuel (a : active) : nat := 3 * length (roots a).

Definition when_nonempty {A : Type} (l : list A) (x : action) (a : active) : active :=
  match l with [] => a | _ => put_log a x end.

(** The first part of [request_confirm], to where the lock is released, and what is
    sent then. *)
Definition request_confirm_scan (a : active) : option (active * list (Z * Z)) :=
  match scan (scan_fuel a) (length (roots a)) (roots a) a (mk_bundles ∅ [] [] []) with
  | Some (a, u) =>
      let a := when_nonempty (rebroadcast u) (republish_block_batch (rebroadcast u)) a in
      let a := if is_live_network then a
               else when_nonempty (map_to_list (requests u)) (confirm_req_hashes (map_to_list (requests u))) a in
      let a := when_nonempty (confirm_reqs u) (confirm_req_blocks (confirm_reqs u)) a in
      Some (a, inactive u)
  | None => None
  end.

(** [blocks.erase], asserting that there was something. *)
Definition erase_block (m : option (gmap Z nat)) (h : Z) : option (gmap Z nat) :=
  match m with
  | Some m => match m !! h with Some _ => Some (delete h m) | None => None end
  | None => None
  end.

Definition finish_root (a : active) (r : Z * Z) : option active :=
  match find_root a r with
  | Some c =>
      match elections a !! ci_election c with
      | Some e =>
          match fold_left erase_block (map fst (map_to_list (el_blocks e))) (Some (blocks a)) with
          | Some m => Some (put_roots (put_blocks a m) (roots_erase r (roots a)))
          | None => None
          end
      | None => None
      end
  | None => None
  end.

(** The last part, after the lock is taken again. *)
Fixpoint request_confirm_finish (l : list (Z * Z)) (a : active) : option active :=
  match l with
  | [] => Some a
  | r :: l' => match finish_root a r with Some a => request_confirm_finish l' a | None => None end
  end.

Definition active_stop (a : active) : active :=
  mk_active (elections a) (roots a) (blocks a) (history a) true (log a).
Definition active_clear (a : active) : active := put_roots a [].

Definition list_blocks (a : active) : list block :=
  omap (fun c => option_map (fun e => winner (status e)) (elections a !! ci_election c)) (roots a).

Definition is_active (a : active) (b : block) : bool := present (find_root a (root_of b)).

End WithEnv.

(** ** Interleavings *)

(** What happens under the lock of [active_transactions]; the pass of the request
    loop is two events, and [stop] waits for it before it clears the roots. *)
Inductive event :=
| ev_start (b : block)
| ev_vote (v : V.vote)
| ev_publish (b : block)
| ev_erase (b : block)
| ev_update (b : block)
| ev_scan
| ev_finish
| ev_stop
| ev_clear.

Record system := mk_system { sys_active : active; sys_inactive : option (list (Z * Z)) }.

Definition initial_system : system := mk_system initial_active None.

Inductive outcome_of := ok (s : system) | assertion_failed | cannot_happen.

Definition on_active (s : system) (o : option active) : outcome_of :=
  match o with Some a => ok (mk_system a (sys_inactive s)) | None => assertion_failed end.

Definition event_step (VE : VoteEnv) (s : system) (x : event) : outcome_of :=
  let a := sys_active s in
  match x with
  | ev_start b => on_active s (option_map snd (active_add a b))
  | ev_vote v => on_active s (option_map snd (active_vote a v))
  | ev_publish b => on_active s (option_map snd (active_publish a b))
  | ev_erase b => on_active s (Some (active_erase a b))
  | ev_update b => on_active s (update_difficulty a b)
  | ev_scan =>
      match sys_inactive s with
      | None => if a_stopped a then cannot_happen
                else match request_confirm_scan a with
                     | Some (a', l) => ok (mk_system a' (Some l))
                     | None => assertion_failed
                     end
      | Some _ => cannot_happen
      end
  | ev_finish =>
      match sys_inactive s with
      | Some l => match request_confirm_finish l a with
                  | Some a' => ok (mk_system a' None)
                  | None => assertion_failed
                  end
      | None => cannot_happen
      end
  | ev_stop => on_active s (Some (active_stop a))
  | ev_clear => match sys_inactive s with
                | None => if a_stopped a then on_active s (Some (active_clear a)) else cannot_happen
                | Some _ => cannot_happen
                end
  end.

Fixpoint run_events (s : system) (es : list (VoteEnv * event)) : outcome_of :=
  match es with
  | [] => ok s
  | (env, x) :: es' =>
      match event_step env s x with
      | ok s' => run_events s' es'
      | o => o
      end
  end.

End Operations.

End Elections.
