(* ===== verification/ElectionInv.v ===== *)
(** * Elections: the invariant

    The invariant of the elections and their two indices, and that every operation
    of [active_transactions] preserves it and fails no assertion: the queue of
    [confirm_back] ends, the election found by a hash has that block as its winner
    if it has no other, the tally is never empty, and every block of an election that
    ends is in the index. *)

From stdpp Require Import base gmap list.
From Stdlib Require Import ZArith Lia.
From S2P Require Import Prelude Blocks Numbers Store Ledger LedgerInv LedgerProcess Work Votes Elections.
Local Open Scope Z_scope.

Module ElectionInv.
Import Block Ledger.Ledger LedgerInv.LedgerInv Elections.Elections.

(** How often the election [i] was handed over as confirmed. *)
Definition confirmations (i : nat) (l : list action) : nat :=
  length (List.filter (fun x => match x with process_confirmed j _ => (i =? j)%nat | _ => false end) l).

Lemma confirmations_app (i : nat) (l l' : list action) :
  confirmations i (l ++ l') = (confirmations i l + confirmations i l')%nat.
Proof. unfold confirmations. rewrite List.filter_app, length_app. done. Qed.

(** The actions that are not confirmations. *)
Definition quiet (x : action) : Prop := forall i, confirmations i [x] = 0%nat.

(** One block in a map of one block. *)
Lemma size_one {A : Type} (m : gmap Z A) (h h' : Z) (x y : A) :
  base.size m = 1%nat -> m !! h = Some x -> m !! h' = Some y -> h = h'.
Proof.
  intros Hs Hx Hy. destruct (decide (h = h')) as [| Hne]; [done |].
  rewrite <- (insert_delete_id m h x Hx), map_size_insert_None in Hs by apply lookup_delete_eq.
  assert (E : delete h m = ∅) by (apply map_size_empty_inv; lia).
  rewrite <- (lookup_delete_ne m h h' Hne), E in Hy. done.
Qed.

Section Tallies.

Context `{LE : Env, IT : Iteration, CF : Config, VE : VoteEnv}.

(** ** Tallies *)

(** The weight of the representatives whose last vote is for [h]. *)
Definition support (lv : gmap Z vote_info) (h : Z) : Z :=
  map_fold (fun rep v s => (if vi_hash v =? h then weight rep else 0) + s) 0 lv.

Lemma add_weight_lookup (h h' w : Z) (m : gmap Z Z) :
  add_weight h w m !! h' = if h =? h' then Some (u128 (default 0 (m !! h) + w)) else m !! h'.
Proof.
  unfold add_weight. destruct (Z.eqb_spec h h') as [-> | Hne]; [apply lookup_insert_eq | now apply lookup_insert_ne].
Qed.

Lemma add_weight_comm (h h' w w' : Z) (m : gmap Z Z) :
  add_weight h w (add_weight h' w' m) = add_weight h' w' (add_weight h w m).
Proof.
  apply map_eq. intros k. rewrite !add_weight_lookup.
  destruct (Z.eqb_spec h k), (Z.eqb_spec h' k), (Z.eqb_spec h' h), (Z.eqb_spec h h'); subst; try done; try congruence.
  cbn [from_option id]. unfold u128. f_equal. rewrite !Zplus_mod_idemp_l. f_equal. lia.
Qed.

Lemma block_weights_insert (e : election) (rep : Z) (v : vote_info) (m : gmap Z vote_info) : m !! rep = None ->
  block_weights (set_last_votes e (<[rep := v]> m)) =
  add_weight (vi_hash v) (weight rep) (block_weights (set_last_votes e m)).
Proof.
  intros Hn. unfold block_weights. cbn [last_votes set_last_votes].
  rewrite map_fold_insert_L; [done | | exact Hn]. intros. apply add_weight_comm.
Qed.

Lemma support_insert (rep h : Z) (v : vote_info) (m : gmap Z vote_info) : m !! rep = None ->
  support (<[rep := v]> m) h = (if vi_hash v =? h then weight rep else 0) + support m h.
Proof. intros Hn. unfold support. rewrite map_fold_insert_L; [done | | exact Hn]. intros. lia. Qed.

(** [h] has an entry if it has a vote, and its entry is its support. *)
Lemma block_weights_spec (e : election) (h : Z) :
  (forall rep v, last_votes e !! rep = Some v -> vi_hash v = h -> is_Some (block_weights e !! h)) /\
  (forall w, block_weights e !! h = Some w -> w = u128 (support (last_votes e) h) /\
    exists rep v, last_votes e !! rep = Some v /\ vi_hash v = h) /\
  (block_weights e !! h = None -> support (last_votes e) h = 0).
Proof.
  replace e with (set_last_votes e (last_votes e)) by now destruct e. cbn [last_votes set_last_votes].
  induction (last_votes e) as [| rep v m Hn IH] using map_ind.
  - unfold block_weights, support. cbn [last_votes set_last_votes]. rewrite !map_fold_empty.
    repeat split; intros *; rewrite ?lookup_empty; done.
  - rewrite (block_weights_insert e rep v m Hn), add_weight_lookup, (support_insert rep h v m Hn).
    destruct IH as (I1 & I2 & I3). destruct (Z.eqb_spec (vi_hash v) h) as [E | Hne].
    + split; [eauto |]. split; [| done]. intros w [= <-]. split.
      * rewrite E. destruct (block_weights (set_last_votes e m) !! h) as [x |] eqn:Ex; cbn [from_option id].
        -- destruct (I2 x eq_refl) as [-> _]. unfold u128. rewrite Zplus_mod_idemp_l. f_equal. lia.
        -- rewrite (I3 eq_refl). f_equal. lia.
      * exists rep, v. split; [apply lookup_insert_eq | exact E].
    + rewrite Z.add_0_l. split; [| split; [| exact I3]].
      * intros rep' v' Hv Hh. destruct (decide (rep = rep')) as [<- | Hr].
        -- rewrite lookup_insert_eq in Hv. congruence.
        -- rewrite lookup_insert_ne in Hv by done. eauto.
      * intros w Hw. destruct (I2 w Hw) as (-> & rep' & v' & Hv & Hh). split; [done |]. exists rep', v'.
        split; [| done]. rewrite lookup_insert_ne; [done |]. congruence.
Qed.

(** [tally_insert] keeps the tally sorted and adds at most the entry. *)
Fixpoint decreasing (t : list (Z * block)) : Prop :=
  match t with
  | [] => True
  | (w, _) :: t' => Forall (fun x => fst x < w) t' /\ decreasing t'
  end.

Lemma tally_insert_in (w : Z) (b : block) (t : list (Z * block)) (x : Z * block) :
  x ∈ tally_insert w b t -> x = (w, b) \/ x ∈ t.
Proof.
  induction t as [| [w' b'] t IH]; cbn [tally_insert]; [set_solver |].
  destruct (w' <? w); [set_solver |]. destruct (w' =? w); [set_solver |].
  rewrite !elem_of_cons. intros [-> | Hx]; [auto |]. destruct (IH Hx); auto.
Qed.

Lemma tally_insert_has (w : Z) (b : block) (t : list (Z * block)) :
  (exists b', (w, b') ∈ tally_insert w b t) /\ (forall x, x ∈ t -> x ∈ tally_insert w b t).
Proof.
  induction t as [| [w' b'] t [IH1 IH2]]; cbn [tally_insert].
  - split; [exists b; set_solver | set_solver].
  - destruct (w' <? w); [split; [exists b; set_solver | set_solver] |].
    destruct (Z.eqb_spec w' w) as [-> |]; [split; [exists b'; set_solver | done] |].
    destruct IH1 as [b1 H1]. split; [exists b1; set_solver | set_solver].
Qed.

Lemma tally_insert_decreasing (w : Z) (b : block) (t : list (Z * block)) :
  decreasing t -> decreasing (tally_insert w b t).
Proof.
  induction t as [| [w' b'] t IH]; cbn [tally_insert decreasing]; [done |]. intros [Hf Hd].
  destruct (Z.ltb_spec w' w) as [Hlt |].
  - cbn [decreasing]. split; [| done]. constructor; [done |]. eapply Forall_impl; [exact Hf |]. cbn. lia.
  - destruct (Z.eqb_spec w' w) as [-> |]; [done |]. cbn [decreasing]. split; [| now apply IH].
    apply Forall_forall. intros x Hx. apply tally_insert_in in Hx as [-> | Hx]; [cbn; lia |].
    rewrite Forall_forall in Hf. auto.
Qed.

Lemma tally_of_fold (e : election) (items : list (Z * Z)) : forall t, decreasing t ->
  let t' := fold_left (fun t x => match el_blocks e !! fst x with
    | Some b => tally_insert (snd x) b t | None => t end) items t in
  decreasing t' /\ (forall x, x ∈ t -> x ∈ t') /\
  (forall w b, (w, b) ∈ t' -> (w, b) ∈ t \/ exists h, (h, w) ∈ items /\ el_blocks e !! h = Some b) /\
  (forall h w, (h, w) ∈ items -> is_Some (el_blocks e !! h) -> exists b, (w, b) ∈ t').
Proof.
  induction items as [| [h w] items IH]; intros t Ht; cbn [fold_left fst snd].
  - repeat split; try done; [auto | intros h w Hx; inversion Hx].
  - destruct (el_blocks e !! h) as [b |] eqn:Eb.
    + destruct (IH (tally_insert w b t) (tally_insert_decreasing w b t Ht)) as (D & K & I & H).
      destruct (tally_insert_has w b t) as [[b1 H1] H2]. split; [exact D |]. split; [auto |]. split.
      * intros w' b' Hx. destruct (I w' b' Hx) as [Hi | (h' & Hh & E')].
        -- apply tally_insert_in in Hi as [[= -> ->] | Hi]; [| auto]. right. exists h. set_solver.
        -- right. exists h'. set_solver.
      * intros h' w' Hx Hs. apply elem_of_cons in Hx as [[= -> ->] | Hx]; eauto.
    + destruct (IH t Ht) as (D & K & I & H). split; [exact D |]. split; [exact K |]. split.
      * intros w' b' Hx. destruct (I w' b' Hx) as [Hi | (h' & Hh & E')]; [auto |]. right. exists h'. set_solver.
      * intros h' w' Hx Hs. apply elem_of_cons in Hx as [[= -> ->] | Hx]; [| eauto].
        rewrite Eb in Hs. now destruct Hs.
Qed.

(** The tally: strictly decreasing, its entries are supports of blocks of the
    election, and the support of every block that has a vote is in it. *)
Lemma tally_spec (e : election) : let t := fst (tally e) in
  decreasing t /\
  (forall w b, (w, b) ∈ t -> exists h, el_blocks e !! h = Some b /\ w = u128 (support (last_votes e) h)) /\
  (forall rep v, last_votes e !! rep = Some v -> is_Some (el_blocks e !! vi_hash v) ->
    exists b, (u128 (support (last_votes e) (vi_hash v)), b) ∈ t).
Proof.
  cbn [tally fst]. destruct (tally_of_fold e (iterate (block_weights e)) [] I) as (D & _ & K & H).
  split; [exact D |]. split.
  - intros w b Hx. destruct (K w b Hx) as [Hi | (h & Hh & Eb)]; [inversion Hi |]. exists h. split; [exact Eb |].
    rewrite iterate_perm in Hh. apply elem_of_map_to_list in Hh.
    now destruct (proj1 (proj2 (block_weights_spec e h)) w Hh).
  - intros rep v Hv Hs. destruct (block_weights_spec e (vi_hash v)) as (I1 & I2 & _).
    destruct (I1 rep v Hv eq_refl) as [w Hw]. destruct (I2 w Hw) as [<- _]. apply (H (vi_hash v) w); [| exact Hs].
    rewrite iterate_perm. now apply elem_of_map_to_list.
Qed.

End Tallies.

Section Invariant.

Context `{LE : Env, WE : W.WorkEnv, IT : Iteration, CF : Config}.

(** The blocks that occur; among them equal hashes mean equal roots. *)
Context (U : block -> Prop).
Context (hash_root : forall b b', U b -> U b' -> hash b = hash b' -> root_of b = root_of b').
Context (U_word : forall b, U b -> word 256 (previous b)).

Record election_ok (e : election) : Prop := {
  eo_winner : el_blocks e !! hash (winner (status e)) = Some (winner (status e));
  eo_block (h : Z) (b : block) : el_blocks e !! h = Some b ->
    hash b = h /\ root_of b = root_of (winner (status e)) /\ U b;
  eo_vote : exists v, last_votes e !! not_an_account = Some v /\ is_Some (el_blocks e !! vi_hash v) }.

(** Only known blocks are forced. *)
Definition forced_known (x : action) : Prop := match x with block_force b => U b | _ => True end.

(** [X]: the hashes of blocks that are about to enter the index. *)
Record active_inv (X : list Z) (a : active) : Prop := {
  ai_fresh (i : nat) (e : election) : elections a !! i = Some e -> (i < base.size (elections a))%nat;
  ai_election (i : nat) (e : election) : elections a !! i = Some e -> election_ok e;
  ai_blocks (h : Z) (i : nat) : blocks a !! h = Some i ->
    exists e, elections a !! i = Some e /\ is_Some (el_blocks e !! h);
  ai_nodup : NoDup (ci_root <$> roots a);
  ai_roots (c : conflict_info) : c ∈ roots a ->
    exists e, elections a !! ci_election c = Some e /\ root_of (winner (status e)) = ci_root c /\
    forall h, is_Some (el_blocks e !! h) -> is_Some (blocks a !! h) \/ h ∈ X;
  ai_log (i : nat) : confirmations i (log a) =
    match elections a !! i with Some e => if confirmed e then 1 else 0 | None => 0 end%nat;
  ai_forced : Forall forced_known (log a) }.

Lemma initial_inv : active_inv [] initial_active.
Proof.
  split; cbn.
  - intros i e. now rewrite lookup_empty.
  - intros i e. now rewrite lookup_empty.
  - intros h i. now rewrite lookup_empty.
  - constructor.
  - intros c Hc. inversion Hc.
  - intros i. now rewrite lookup_empty.
  - constructor.
Qed.

(** ** Updates of one election *)

(** The election at [i] changes, keeps its root and its flag, and gets no block
    outside [X]. *)
Lemma inv_put (X : list Z) (a : active) (i : nat) (e e' : election) :
  active_inv X a -> elections a !! i = Some e -> election_ok e' ->
  (forall h, is_Some (el_blocks e !! h) -> is_Some (el_blocks e' !! h)) ->
  (forall h, is_Some (el_blocks e' !! h) -> is_Some (el_blocks e !! h) \/ h ∈ X) ->
  root_of (winner (status e')) = root_of (winner (status e)) -> confirmed e' = confirmed e ->
  active_inv X (put_election a i e').
Proof.
  intros [F E B N R L FK] Hi Hok Hin Hout Hr Hc.
  assert (Hs : base.size (<[i := e']> (elections a)) = base.size (elections a))
    by (apply map_size_insert_Some; eauto).
  split; cbn [elections blocks roots log put_election].
  - intros j x Hj. rewrite Hs. destruct (decide (i = j)) as [<- | Hne]; [eauto |].
    rewrite lookup_insert_ne in Hj by done. eauto.
  - intros j x Hj. destruct (decide (i = j)) as [<- | Hne].
    + rewrite lookup_insert_eq in Hj. now injection Hj as <-.
    + rewrite lookup_insert_ne in Hj by done. eauto.
  - intros h j Hj. destruct (B h j Hj) as (x & Hx & Hh). destruct (decide (i = j)) as [<- | Hne].
    + rewrite lookup_insert_eq. assert (x = e) as -> by congruence. eauto.
    + rewrite lookup_insert_ne by done. eauto.
  - exact N.
  - intros c Hcc. destruct (R c Hcc) as (x & Hx & Hrx & Hbx). destruct (decide (i = ci_election c)) as [-> | Hne].
    + rewrite lookup_insert_eq. exists e'. assert (x = e) as -> by congruence. split; [done |].
      split; [congruence |]. intros h Hh. destruct (Hout h Hh) as [Ho | Ho]; [now apply Hbx | now right].
    + rewrite lookup_insert_ne by done. eauto.
  - intros j. rewrite (L j). destruct (decide (i = j)) as [<- | Hne].
    + now rewrite lookup_insert_eq, Hi, Hc.
    + now rewrite lookup_insert_ne by done.
  - exact FK.
Qed.

Lemma inv_log (X : list Z) (a : active) (x : action) : quiet x -> forced_known x -> active_inv X a ->
  active_inv X (put_log a x).
Proof.
  intros Hq Hf [F E B N R L FK]. split; try assumption.
  - intros i. cbn [log put_log elections]. rewrite confirmations_app, (Hq i), Nat.add_0_r. apply L.
  - apply Forall_app. split; [exact FK | now constructor].
Qed.

(** Only the blocks, the last votes, and the winner of an election matter. *)
Lemma election_ok_same (e e' : election) : el_blocks e' = el_blocks e -> last_votes e' = last_votes e ->
  winner (status e') = winner (status e) -> election_ok e -> election_ok e'.
Proof. intros Eb Ev Ew [H1 H2 H3]. split; rewrite ?Eb, ?Ev, ?Ew; assumption. Qed.

Lemma inv_put_same (X : list Z) (a : active) (i : nat) (e e' : election) :
  active_inv X a -> elections a !! i = Some e ->
  el_blocks e' = el_blocks e -> last_votes e' = last_votes e -> winner (status e') = winner (status e) ->
  confirmed e' = confirmed e -> active_inv X (put_election a i e').
Proof.
  intros Ha Hi Eb Ev Ew Ec.
  apply (inv_put X a i e); try assumption; try (rewrite Eb; now auto); [| now rewrite Ew].
  eapply election_ok_same; [exact Eb | exact Ev | exact Ew |]. exact (ai_election X a Ha i e Hi).
Qed.

(** ** Confirming *)

Section WithEnv.

Context `{VE : VoteEnv}.

Lemma confirm_inv (X : list Z) (a : active) (i : nat) (e : election) :
  active_inv X a -> elections a !! i = Some e -> confirmed e = false -> active_inv X (confirm a i e).
Proof.
  intros [F E B N R L FK] Hi Hc. set (e' := set_status (set_confirmed e)
    (mk_status (winner (status e)) (st_tally (status e)) system_now (steady_now - election_start e))).
  assert (Hs : base.size (<[i := e']> (elections a)) = base.size (elections a))
    by (apply map_size_insert_Some; eauto).
  assert (He' : confirmed e' = true) by done.
  assert (G : forall j x, <[i := e']> (elections a) !! j = Some x ->
    exists y, elections a !! j = Some y /\ el_blocks x = el_blocks y /\ last_votes x = last_votes y /\
      winner (status x) = winner (status y)).
  { intros j x. destruct (decide (i = j)) as [<- | Hne].
    - rewrite lookup_insert_eq. intros [= <-]. eauto 10.
    - rewrite lookup_insert_ne by done. eauto 10. }
  assert (G' : forall j y, elections a !! j = Some y -> exists x, <[i := e']> (elections a) !! j = Some x /\
    el_blocks x = el_blocks y /\ winner (status x) = winner (status y)).
  { intros j y Hy. destruct (decide (i = j)) as [<- | Hne].
    - rewrite lookup_insert_eq. exists e'. assert (y = e) as -> by congruence. done.
    - rewrite lookup_insert_ne by done. eauto. }
  change (confirm a i e) with (put_log (put_election a i e') (process_confirmed i (winner (status e)))).
  clearbody e'. split; cbn [put_log put_election elections blocks roots log].
  - intros j x Hj. rewrite Hs. destruct (G j x Hj) as (y & Hy & _). eauto.
  - intros j x Hj. destruct (G j x Hj) as (y & Hy & Eb & Ev & Ew). eapply election_ok_same; eauto.
  - intros h j Hj. destruct (B h j Hj) as (y & Hy & Hh). destruct (G' j y Hy) as (x & Hx & Eb & _).
    exists x. now rewrite Eb.
  - exact N.
  - intros c Hcc. destruct (R c Hcc) as (y & Hy & Hr & Hb). destruct (G' _ y Hy) as (x & Hx & Eb & Ew).
    exists x. rewrite Eb, Ew. auto.
  - intros j. rewrite confirmations_app, (L j). unfold confirmations. cbn [List.filter].
    destruct (decide (i = j)) as [<- | Hne].
    + rewrite lookup_insert_eq, Hi, Hc, He', Nat.eqb_refl. done.
    + rewrite lookup_insert_ne, (proj2 (Nat.eqb_neq j i)) by (done || lia). cbn. lia.
  - apply Forall_app. split; [exact FK | now constructor].
Qed.

(** The elections that can still be confirmed. *)
Definition unconfirmed (a : active) : nat :=
  base.size (filter (fun p : nat * election => confirmed p.2 = false) (elections a)).

Lemma unconfirmed_confirm (a : active) (i : nat) (e : election) : elections a !! i = Some e ->
  confirmed e = false -> unconfirmed a = S (unconfirmed (confirm a i e)).
Proof.
  intros Hi Hc. unfold unconfirmed. cbn [confirm put_log put_election elections].
  rewrite map_filter_insert_False by done.
  rewrite <- (insert_delete_id (elections a) i e Hi) at 1. rewrite map_filter_insert_True by done.
  rewrite map_size_insert_None; [done |]. apply map_lookup_filter_None. left. apply lookup_delete_eq.
Qed.

Lemma unconfirmed_size (a : active) : (unconfirmed a <= base.size (elections a))%nat.
Proof. unfold unconfirmed. apply map_size_filter. Qed.

(** The queue ends, and no assertion fails on the way. *)
Lemma confirm_back_inv (X : list Z) (fuel : nat) : forall (hashes : list Z) (a : active), active_inv X a ->
  (length hashes + 3 * unconfirmed a <= fuel)%nat ->
  exists a', confirm_back fuel hashes a = Some a' /\ active_inv X a' /\
    roots a' = roots a /\ blocks a' = blocks a.
Proof.
  induction fuel as [| n IH]; intros [| h hs] a Ha Hf; cbn [confirm_back length] in *;
    [eauto | lia | eauto |].
  destruct (negb _ && negb _); [| apply IH; [exact Ha | lia]].
  destruct (blocks a !! h) as [j |] eqn:Hj; [| apply IH; [exact Ha | lia]].
  destruct (ai_blocks X a Ha h j Hj) as (x & Hx & y & Hy). rewrite Hx.
  destruct (negb (confirmed x) && negb (stopped x) && _) eqn:Ec; [| apply IH; [exact Ha | lia]].
  apply andb_true_iff in Ec as [Ec Es]. apply andb_true_iff in Ec as [Ec _]. apply negb_true_iff in Ec.
  apply Nat.eqb_eq in Es. pose proof (eo_winner x (ai_election X a Ha j x Hx)) as Hw.
  rewrite (proj2 (Z.eqb_eq _ h)) by (eapply size_one; eassumption).
  destruct (IH (hs ++ [previous (winner (status x)); source (winner (status x)); link (winner (status x))])
    (confirm a j x)) as (a' & E & Ha' & Er & Eb).
  - now apply confirm_inv.
  - rewrite length_app. cbn [length]. rewrite (unconfirmed_confirm a j x Hx Ec) in Hf. lia.
  - exists a'. rewrite Er, Eb. done.
Qed.

Lemma confirm_once_inv (X : list Z) (a : active) (i : nat) : active_inv X a -> is_Some (elections a !! i) ->
  exists a', confirm_once a i = Some a' /\ active_inv X a' /\ roots a' = roots a /\ blocks a' = blocks a.
Proof.
  intros Ha [e He]. unfold confirm_once. rewrite He. destruct (confirmed e) eqn:Ec; [eauto 10 |].
  destruct (confirm_back_inv X (confirm_fuel (confirm a i e))
    [previous (winner (status e)); source (winner (status e)); link (winner (status e))] (confirm a i e))
    as (a' & E & Ha' & Er & Eb).
  - now apply confirm_inv.
  - unfold confirm_fuel. pose proof (unconfirmed_size (confirm a i e)). cbn [length]. lia.
  - exists a'. rewrite E, Er, Eb. done.
Qed.

Lemma confirm_if_quorum_inv (X : list Z) (a : active) (i : nat) : active_inv X a -> is_Some (elections a !! i) ->
  exists a', confirm_if_quorum a i = Some a' /\ active_inv X a' /\ roots a' = roots a /\ blocks a' = blocks a.
Proof.
  intros Ha [e He]. unfold confirm_if_quorum. rewrite He. pose proof (ai_election X a Ha i e He) as Hok.
  destruct (tally_spec e) as (_ & K & H). destruct (tally e) as [t e1] eqn:Et. cbn [fst] in *.
  assert (He1 : e1 = set_last_tally e (block_weights e)) by (unfold tally in Et; congruence).
  destruct t as [| [w b] t].
  { destruct (eo_vote e Hok) as (v & Hv & Hs). destruct (H _ v Hv Hs) as [b Hb]. inversion Hb. }
  destruct (K w b) as (h & Hb & _); [set_solver |]. destruct (eo_block e Hok h b Hb) as (Hh & Hr & Hu).
  set (sum := tally_total _). set (forced := (_ <=? sum) && _).
  set (e2 := set_status e1 _).
  assert (Hok2 : election_ok e2).
  { subst e2 e1. split; cbn [set_status set_last_tally el_blocks last_votes status winner].
    - destruct forced; [now rewrite Hh | apply (eo_winner e Hok)].
    - intros h' b' Hb'. destruct (eo_block e Hok h' b' Hb') as (? & ? & ?). destruct forced; [| done].
      split; [done |]. split; [congruence | done].
    - exact (eo_vote e Hok). }
  assert (Ha2 : active_inv X (put_election a i e2)).
  { apply (inv_put X a i e); try done; subst e2 e1; cbn; auto. destruct forced; [congruence | done]. }
  set (a2 := if forced then _ else _).
  assert (Ha3 : active_inv X a2 /\ roots a2 = roots a /\ blocks a2 = blocks a /\ is_Some (elections a2 !! i)).
  { subst a2. destruct forced; (split; [try (apply inv_log; [intros j | |]); done |]); cbn;
      rewrite lookup_insert_eq; eauto. }
  clearbody a2. destruct Ha3 as (H2 & Er & Eb & Hi). rewrite <- Er, <- Eb.
  destruct (have_quorum _ _); [now apply confirm_once_inv | eauto].
Qed.

(** ** What confirming leaves as it is *)

(** A property that each confirmation keeps. *)
Lemma confirm_back_closed (P : active -> Prop) :
  (forall a j x, P a -> elections a !! j = Some x -> confirmed x = false -> P (confirm a j x)) ->
  forall fuel hashes a a', P a -> confirm_back fuel hashes a = Some a' -> P a'.
Proof.
  intros HP. induction fuel as [| n IH]; intros [| h hs] a a' Ha; cbn [confirm_back].
  1, 3: intros [= <-]; exact Ha.
  - discriminate.
  - destruct (negb _ && negb _); [| now apply IH].
    destruct (blocks a !! h) as [j |]; [| now apply IH].
    destruct (elections a !! j) as [x |] eqn:Hx; [| discriminate].
    destruct (negb (confirmed x) && negb (stopped x) && _) eqn:Ec; [| now apply IH].
    destruct (_ =? h); [| discriminate]. apply andb_true_iff in Ec as [Ec _]. apply andb_true_iff in Ec as [Ec _].
    apply negb_true_iff in Ec. apply IH. now apply HP.
Qed.

Lemma confirm_once_closed (P : active -> Prop) :
  (forall a j x, P a -> elections a !! j = Some x -> confirmed x = false -> P (confirm a j x)) ->
  forall a i a', P a -> confirm_once a i = Some a' -> P a'.
Proof.
  intros HP a i a' Ha. unfold confirm_once. destruct (elections a !! i) as [e |] eqn:He; [| done].
  destruct (confirmed e) eqn:Ec; [intros [= <-]; exact Ha |]. cbv zeta. intros E.
  exact (confirm_back_closed P HP _ _ _ _ (HP a i e Ha He Ec) E).
Qed.

(** The blocks of every election. *)
Definition keeps (a a' : active) : Prop :=
  forall j e, elections a !! j = Some e -> exists e', elections a' !! j = Some e' /\ el_blocks e' = el_blocks e.

#[export] Instance keeps_preorder : PreOrder keeps.
Proof.
  split; [intros a j e He; eauto |]. intros a b c H1 H2 j e He. destruct (H1 j e He) as (e1 & He1 & E1).
  destruct (H2 j e1 He1) as (e2 & He2 & E2). exists e2. split; congruence.
Qed.

Lemma keeps_put (a : active) (i : nat) (e e' : election) : elections a !! i = Some e ->
  el_blocks e' = el_blocks e -> keeps a (put_election a i e').
Proof.
  intros Hi Eb j x Hj. cbn [put_election elections]. destruct (decide (i = j)) as [<- | Hne].
  - rewrite lookup_insert_eq. exists e'. split; congruence.
  - rewrite lookup_insert_ne by done. eauto.
Qed.

Lemma confirm_once_keeps (a : active) (i : nat) (a' : active) : confirm_once a i = Some a' -> keeps a a'.
Proof.
  apply (confirm_once_closed (keeps a)); [| reflexivity]. intros b j x Hb Hx _. etransitivity; [exact Hb |].
  eapply keeps_put; [exact Hx | reflexivity].
Qed.

Lemma confirm_if_quorum_keeps (a : active) (i : nat) (a' : active) :
  confirm_if_quorum a i = Some a' -> keeps a a'.
Proof.
  unfold confirm_if_quorum. destruct (elections a !! i) as [e |] eqn:He; [| done]. cbn [tally].
  destruct (tally_of e _) as [| [w b] t]; [done |]. set (e2 := set_status _ _).
  assert (K : keeps a (put_election a i e2)) by (eapply keeps_put; [exact He | done]).
  clearbody e2. set (a2 := if _ : bool then put_log _ _ else _).
  assert (K2 : keeps a a2) by (subst a2; now destruct (_ && _)). clearbody a2.
  destruct (have_quorum _ _); [| now intros [= <-]]. intros E. etransitivity; [exact K2 |].
  eapply confirm_once_keeps. exact E.
Qed.

(** ** Votes *)

Lemma election_vote_inv (X : list Z) (a : active) (i : nat) (rep sequence h : Z) : active_inv X a ->
  is_Some (elections a !! i) -> rep <> not_an_account ->
  exists r a', election_vote a i rep sequence h = Some (r, a') /\ active_inv X a' /\
    roots a' = roots a /\ blocks a' = blocks a.
Proof.
  intros Ha [e He] Hr. unfold election_vote. rewrite He. destruct (_ || _); [| eauto 10].
  set (d := match last_votes e !! rep with Some _ => _ | None => _ end). destruct (snd d); [| eauto 10].
  set (e' := set_last_votes e _).
  assert (Ha' : active_inv X (put_election a i e')).
  { apply (inv_put X a i e); try done; [| auto]. destruct (ai_election X a Ha i e He) as [H1 H2 H3].
    split; [exact H1 | exact H2 |]. cbn [e' set_last_votes last_votes el_blocks].
    rewrite lookup_insert_ne by done. exact H3. }
  destruct (confirmed e); [cbn; eauto 10 |].
  destruct (confirm_if_quorum_inv X (put_election a i e') i Ha') as (a' & E & Hi & Er & Eb).
  - cbn. rewrite lookup_insert_eq. eauto.
  - rewrite E. cbn. eauto 10.
Qed.

Lemma find_root_some (a : active) (r : Z * Z) (c : conflict_info) :
  find_root a r = Some c -> c ∈ roots a /\ ci_root c = r.
Proof.
  unfold find_root. intros E. apply List.find_some in E as [Hin Hc]. apply bool_decide_eq_true in Hc.
  split; [now apply list_elem_of_In | exact Hc].
Qed.

Lemma find_root_none (a : active) (r : Z * Z) : find_root a r = None -> r ∉ ci_root <$> roots a.
Proof.
  unfold find_root. intros E Hin. apply list_elem_of_fmap in Hin as (c & -> & Hc).
  apply list_elem_of_In in Hc. pose proof (List.find_none _ _ E c Hc) as Hn.
  rewrite bool_decide_eq_false in Hn. done.
Qed.

Lemma vote_blocks_inv (X : list Z) (rep sequence : Z) (l : list V.vote_block) : rep <> not_an_account ->
  forall a acc, active_inv X a ->
  exists r a', vote_blocks a rep sequence l acc = Some (r, a') /\ active_inv X a' /\ roots a' = roots a /\
    blocks a' = blocks a.
Proof.
  intros Hr. induction l as [| x l IH]; intros a acc Ha; cbn [vote_blocks]; [eauto 10 |].
  set (target := match x with V.vote_full _ => _ | V.vote_hash_only _ => _ end).
  assert (Ht : forall i h, target = Some (i, h) -> is_Some (elections a !! i)).
  { intros i h. subst target. destruct x as [b | h'].
    - destruct (find_root a (root_of b)) as [c |] eqn:Ec; [| done]. intros [= <- _].
      destruct (find_root_some a _ c Ec) as [Hin _]. destruct (ai_roots X a Ha c Hin) as (e & He & _). eauto.
    - destruct (blocks a !! h') as [j |] eqn:Ej; [| done]. intros [= <- _].
      destruct (ai_blocks X a Ha h' j Ej) as (e & He & _). eauto. }
  clearbody target. destruct target as [[i h] |]; [| now apply IH].
  destruct (election_vote_inv X a i rep sequence h Ha (Ht i h eq_refl) Hr) as (r & a1 & E & Ha1 & Er & Eb).
  rewrite E. destruct (IH a1 (fst acc || fst r, snd acc || snd r) Ha1) as (r' & a2 & E2 & Ha2 & Er2 & Eb2).
  exists r', a2. rewrite Er2, Eb2. done.
Qed.

Lemma active_vote_inv (X : list Z) (a : active) (v : V.vote) : active_inv X a -> V.vote_account v <> not_an_account ->
  exists r a', active_vote a v = Some (r, a') /\ active_inv X a' /\ roots a' = roots a.
Proof.
  intros Ha Hr. unfold active_vote.
  destruct (vote_blocks_inv X (V.vote_account v) (V.sequence v) (V.blocks v) Hr a (false, false) Ha)
    as ([replay processed] & a' & E & Ha' & Er & _).
  rewrite E. destruct processed; [| eauto]. exists replay, (put_log a' (republish_vote v)).
  split; [done |]. split; [| done]. apply inv_log; [intros i | |]; done.
Qed.

(** ** Queries of the ledger *)

Lemma query_total {A : Type} (m : M A) :
  (forall s, db s = ve_store -> wp m s (fun _ _ => True)) -> is_Some (query m).
Proof.
  intros H. unfold query. specialize (H (mk_lstate ve_store [] (mk_return progress 0 0 0 None sv_unknown) []) eq_refl).
  unfold wp in H. destruct (m _) as [[x s'] | |]; [eauto | done | done].
Qed.

Context (Hstore : inv ve_store).

Lemma wp_is_send (f : state_hashables) (s : lstate) (Q : bool -> lstate -> Prop) : db s = ve_store ->
  state_previous f = 0 \/ block_exists ve_store (state_previous f) = true -> (forall x, Q x s) -> wp (is_send f) s Q.
Proof.
  intros Hs Hp HQ. unfold is_send. destruct (Z.eqb_spec (state_previous f) 0) as [E | Hne]; cbn [negb];
    [apply wp_ret; auto |].
  destruct Hp as [Hp | Hp]; [done |]. apply (exists_get _ (inv_blocks _ Hstore)) in Hp as (x & Hx). apply wp_bind.
  eapply LedgerProcess.LedgerProcess.wp_ledger_balance; [done | | apply wp_ret; auto].
  now rewrite Hs, block_balance_get, Hx.
Qed.

Lemma could_fit_total (b : block) : is_Some (query (could_fit b)).
Proof.
  apply query_total. intros s Hs. destruct b as [f g w | f g w | f g w | f g w | f g w]; cbn [could_fit];
    try (apply wp_reads; exact I).
  apply wp_bind, wp_reads. cbn [previous]. rewrite Hs.
  destruct ((state_previous f =? 0) || block_exists ve_store (state_previous f)) eqn:E; [| now apply wp_ret].
  apply wp_bind, wp_is_send; [exact Hs | |].
  - apply orb_true_iff in E as [E%Z.eqb_eq | E]; auto.
  - intros [|]; [now apply wp_ret | now apply wp_reads].
Qed.

Lemma block_source_total (b : block) : previous b = 0 \/ is_Some (block_get ve_store (previous b)) ->
  is_Some (query (block_source b)).
Proof.
  intros Hp. apply query_total. intros s Hs. unfold block_source. apply wp_bind, wp_reads. apply wp_bind. rewrite Hs.
  assert (E : previous b = 0 \/ block_exists ve_store (previous b) = true).
  { destruct Hp as [Hp | [x Hx]]; [auto | right]. apply (exists_get _ (inv_blocks _ Hstore)).
    unfold block_get in Hx. destruct (block_get_full ve_store (previous b)); [eauto | done]. }
  apply wp_assert; [apply orb_true_iff; destruct E as [-> |]; auto |].
  destruct b as [f g w | f g w | f g w | f g w | f g w]; try now apply wp_ret.
  apply wp_bind, wp_is_send; [exact Hs | exact E |]. intros [|]; now apply wp_ret.
Qed.

Lemma validate_total (b : block) : is_Some (query (validate_block_by_previous b)).
Proof.
  apply query_total. intros s Hs. unfold validate_block_by_previous. apply wp_bind.
  apply wp_mono with (Q := fun r s' => s' = s).
  - destruct (previous b =? 0); cbn [negb]; [now apply wp_ret |]. apply wp_bind, wp_reads. rewrite Hs.
    destruct (block_exists ve_store (previous b)) eqn:Ex; [| now apply wp_ret].
    apply (exists_get _ (inv_blocks _ Hstore)) in Ex as (x & Hx). apply wp_bind. eapply wp_needs; [| now apply wp_ret].
    destruct (ch_account _ _ _ (inv_chain _ Hstore _ _ Hx)) as (e & i & Hi & _).
    rewrite Hs. apply block_account_get; [exact Hx |]. exact (ao_nonzero _ _ _ _ (inv_account _ Hstore _ _ _ Hi)).
  - intros [result acc] s' ->. apply wp_bind. apply wp_mono with (Q := fun r s' => s' = s);
      [| intros [? ?] ? ->; now apply wp_ret].
    destruct b as [f g w | f g w | f g w | f g w | f g w]; try now apply wp_ret.
    destruct result; cbn [negb]; [now apply wp_ret |]. apply wp_bind.
    apply wp_mono with (Q := fun r s' => s' = s); [| intros [? ?] ? ->; now apply wp_ret].
    destruct (Z.eqb_spec (state_previous f) 0) as [E | Hne]; cbn [negb]; [now apply wp_ret |].
    apply wp_bind, wp_reads. rewrite Hs. destruct (block_exists ve_store (state_previous f)) eqn:Ex; [| now apply wp_ret].
    apply (exists_get _ (inv_blocks _ Hstore)) in Ex as (x & Hx). apply wp_bind.
    eapply LedgerProcess.LedgerProcess.wp_ledger_balance; [done | | now apply wp_ret].
    now rewrite Hs, block_balance_get, Hx.
Qed.

(** ** Publishing *)

Lemma election_publish_inv (a : active) (i : nat) (e : election) (b : block) : active_inv [] a -> U b ->
  elections a !! i = Some e -> root_of (winner (status e)) = root_of b ->
  exists r a' e', election_publish a i b = Some (r, a') /\ active_inv [hash b] a' /\ roots a' = roots a /\
    elections a' !! i = Some e' /\ (r = true -> active_inv [] a') /\ (r = false -> is_Some (el_blocks e' !! hash b)).
Proof.
  intros Ha Hu He Hr. unfold election_publish. rewrite He. set (full := (10 <=? _)%nat).
  set (e1 := if full then _ else e).
  assert (E1 : el_blocks e1 = el_blocks e /\ last_votes e1 = last_votes e /\
    winner (status e1) = winner (status e) /\ confirmed e1 = confirmed e) by (subst e1; now destruct full).
  destruct E1 as (Eb & Ev & Ew & Ec).
  pose proof (inv_put_same [] a i e e1 Ha He Eb Ev Ew Ec) as Ha1.
  assert (W : forall X a, active_inv [] a -> active_inv X a).
  { intros X x [? ? ? ? R ?]. split; try done. intros c Hc. destruct (R c Hc) as (y & Hy & Hry & Hby).
    exists y. split; [done |]. split; [done |]. intros h Hh. left. destruct (Hby h Hh) as [| Hx]; [done | inversion Hx]. }
  assert (L1 : elections (put_election a i e1) !! i = Some e1) by (cbn; apply lookup_insert_eq).
  clearbody e1. destruct (full && _).
  { exists true, (put_election a i e1), e1. split_and!; try done; auto. }
  destruct (validate_total b) as [[|] Eq]; rewrite Eq.
  { exists true, (put_election a i e1), e1. split_and!; try done; auto. }
  destruct (el_blocks e1 !! hash b) as [b' |] eqn:Eb'.
  { exists false, (put_election a i e1), e1. rewrite Eb'. split_and!; try done; auto. }
  set (e2 := set_el_blocks e1 _).
  assert (Hi : active_inv [hash b] (put_election (put_election a i e1) i e2)).
  { apply (inv_put [hash b] (put_election a i e1) i e1); try done; [auto | | |].
    - destruct (ai_election _ _ Ha1 i e1 L1) as [H1 H2 H3].
      assert (Hw : hash b <> hash (winner (status e1))) by congruence.
      split; cbn [e2 set_el_blocks el_blocks status last_votes].
      + now rewrite lookup_insert_ne.
      + intros h x. destruct (decide (hash b = h)) as [<- | Hne].
        * rewrite lookup_insert_eq. intros [= <-]. split; [done |]. split; [congruence | done].
        * rewrite lookup_insert_ne by done. apply H2.
      + destruct H3 as (v & Hv & Hs). exists v. split; [done |]. apply lookup_insert_is_Some.
        destruct (decide (hash b = vi_hash v)); auto.
    - intros h Hh. cbn. apply lookup_insert_is_Some. destruct (decide (hash b = h)); auto.
    - intros h Hh. cbn in Hh. apply lookup_insert_is_Some in Hh as [<- | [_ Hh]]; [right; set_solver | auto]. }
  destruct (confirm_if_quorum_inv [hash b] _ i Hi) as (a' & E & Ha' & Er & _).
  { cbn. rewrite lookup_insert_eq. eauto. }
  rewrite E. destruct (confirm_if_quorum_keeps _ _ _ E i e2) as (e3 & He3 & Eb3).
  { cbn. apply lookup_insert_eq. }
  exists false, (put_log a' (republish_block b)), e3. split; [done |].
  split; [apply inv_log; [intros j | |]; done |]. split; [exact Er |]. split; [exact He3 |].
  split; [done |]. intros _. rewrite Eb3. cbn. rewrite lookup_insert_eq. eauto.
Qed.

Lemma insert_new_lookup {A : Type} (k : Z) (x : A) (m : gmap Z A) (k' : Z) :
  insert_new k x m !! k' = match m !! k' with Some y => Some y | None => if k =? k' then Some x else None end.
Proof.
  unfold insert_new. destruct (Z.eqb_spec k k') as [<- | Hne].
  - destruct (m !! k) eqn:E; [now rewrite E | apply lookup_insert_eq].
  - destruct (m !! k); [| rewrite lookup_insert_ne by done]; now destruct (m !! k').
Qed.

(** The block enters the index. *)
Lemma inv_index (a : active) (h : Z) (i : nat) (e : election) : active_inv [h] a -> elections a !! i = Some e ->
  is_Some (el_blocks e !! h) -> active_inv [] (put_blocks a (insert_new h i (blocks a))).
Proof.
  intros [F E B N R L FK] He Hh. split; cbn [put_blocks elections blocks roots log]; try assumption.
  - intros k j. rewrite insert_new_lookup. destruct (blocks a !! k) as [j' |] eqn:Ek.
    + intros [= <-]. eauto.
    + destruct (Z.eqb_spec h k) as [<- |]; [intros [= <-]; eauto | done].
  - intros c Hc. destruct (R c Hc) as (x & Hx & Hrx & Hbx). exists x. split; [done |]. split; [done |].
    intros k Hk. left. rewrite insert_new_lookup. destruct (Hbx k Hk) as [[j ->] | Hj]; [eauto |].
    apply list_elem_of_singleton in Hj as ->. rewrite Z.eqb_refl. destruct (blocks a !! h); eauto.
Qed.

Lemma active_publish_inv (a : active) (b : block) : active_inv [] a -> U b ->
  exists r a', active_publish a b = Some (r, a') /\ active_inv [] a' /\ roots a' = roots a.
Proof.
  intros Ha Hu. unfold active_publish. destruct (find_root a (root_of b)) as [c |] eqn:Ec; [| eauto].
  destruct (find_root_some a _ c Ec) as [Hin Hr]. destruct (ai_roots [] a Ha c Hin) as (e & He & Hre & _).
  destruct (election_publish_inv a _ e b Ha Hu He ltac:(congruence)) as (r & a' & e' & E & Ha' & Er & He' & Ht & Hf).
  rewrite E. destruct r; [exists true, a'; auto |]. exists false. eexists. split; [reflexivity |]. split; [| exact Er].
  apply (inv_index a' (hash b) _ e'); auto.
Qed.

(** ** The index by difficulty *)

Lemma roots_insert_perm (c : conflict_info) (l : list conflict_info) : roots_insert c l ≡ₚ c :: l.
Proof.
  induction l as [| x l IH]; cbn [roots_insert]; [done |]. destruct (_ <? _); [done |].
  rewrite IH. apply Permutation_swap.
Qed.

Lemma roots_erase_in (r : Z * Z) (l : list conflict_info) (c : conflict_info) :
  c ∈ roots_erase r l <-> c ∈ l /\ ci_root c <> r.
Proof.
  unfold roots_erase. rewrite !list_elem_of_In, List.filter_In, negb_true_iff, bool_decide_eq_false. done.
Qed.

Lemma roots_erase_sublist (r : Z * Z) (l : list conflict_info) : roots_erase r l `sublist_of` l.
Proof.
  unfold roots_erase. induction l as [| c l IH]; cbn [List.filter]; [done |].
  destruct (negb _); [now constructor | now constructor].
Qed.

(** Fewer roots. *)
Lemma inv_roots_sublist (X : list Z) (a : active) (l : list conflict_info) : active_inv X a ->
  l `sublist_of` roots a -> active_inv X (put_roots a l).
Proof.
  intros [F E B N R L FK] Hl. split; try assumption.
  - cbn. eapply sublist_NoDup; [exact N |]. now apply fmap_sublist.
  - intros c Hc. cbn in Hc. cbn. apply R. eapply elem_of_sublist; eassumption.
Qed.

(** The same roots with other difficulties, in another order. *)
Lemma inv_roots_same (X : list Z) (a : active) (l : list conflict_info) : active_inv X a ->
  (fun c => (ci_root c, ci_election c)) <$> l ≡ₚ (fun c => (ci_root c, ci_election c)) <$> roots a ->
  active_inv X (put_roots a l).
Proof.
  intros [F E B N R L FK] Hl. split; try assumption.
  - cbn. apply (fmap_Permutation fst) in Hl. rewrite <- !list_fmap_compose in Hl. cbn in Hl.
    change (fst ∘ (fun c => (ci_root c, ci_election c))) with ci_root in Hl. now rewrite Hl.
  - intros c Hc. cbn in Hc. cbn.
    assert (Hin : (ci_root c, ci_election c) ∈ (fun c => (ci_root c, ci_election c)) <$> roots a).
    { rewrite <- Hl. apply list_elem_of_fmap. eauto. }
    apply list_elem_of_fmap in Hin as (c' & [= Er Ei] & Hc'). rewrite Er, Ei. now apply R.
Qed.

Lemma active_erase_inv (a : active) (b : block) : active_inv [] a -> active_inv [] (active_erase a b).
Proof. intros Ha. apply inv_roots_sublist; [exact Ha | apply roots_erase_sublist]. Qed.

Lemma roots_modify_same (r : Z * Z) (d : Z) (l : list conflict_info) : forall before l',
  roots_modify before r d l = Some l' ->
  (fun c => (ci_root c, ci_election c)) <$> l' = (fun c => (ci_root c, ci_election c)) <$> l.
Proof.
  induction l as [| c l IH]; intros before l' E; cbn [roots_modify] in E; [done |].
  destruct (bool_decide_reflect (ci_root c = r)) as [<- |].
  - destruct (_ || _); [done |]. now injection E as <-.
  - destruct (roots_modify (Some _) r d l) as [l1 |] eqn:E1; [| done]. injection E as <-. cbn.
    now rewrite (IH _ _ E1).
Qed.

Lemma roots_erase_perm (c : conflict_info) (l : list conflict_info) : NoDup (ci_root <$> l) -> c ∈ l ->
  l ≡ₚ c :: roots_erase (ci_root c) l.
Proof.
  intros N Hc. apply list_elem_of_split in Hc as (l1 & l2 & ->). unfold roots_erase.
  rewrite List.filter_app. cbn [List.filter]. rewrite bool_decide_eq_true_2 by done. cbn [negb].
  rewrite fmap_app, fmap_cons in N. apply NoDup_app in N as (_ & N1 & N2). apply NoDup_cons in N2 as [N2 _].
  assert (K : forall l, (forall x, x ∈ l -> ci_root x <> ci_root c) ->
    List.filter (fun x => negb (bool_decide (ci_root x = ci_root c))) l = l).
  { induction l as [| x l IH]; intros H; cbn [List.filter]; [done |].
    rewrite bool_decide_eq_false_2 by (apply H; set_solver). cbn [negb]. rewrite IH; [done |]. set_solver. }
  rewrite !K; [now rewrite Permutation_middle | |].
  - intros x Hx E. apply N2. rewrite <- E. now apply list_elem_of_fmap_2.
  - intros x Hx E. apply (N1 (ci_root x)); [now apply list_elem_of_fmap_2 |]. rewrite E. set_solver.
Qed.

Lemma update_difficulty_inv (a : active) (b : block) : active_inv [] a -> fst (W.work_validate_block b) = false ->
  exists a', update_difficulty a b = Some a' /\ active_inv [] a' /\ ci_root <$> roots a' ≡ₚ ci_root <$> roots a.
Proof.
  intros Ha Hw. unfold update_difficulty. destruct (find_root a (root_of b)) as [c |] eqn:Ec; [| eauto].
  rewrite Hw. destruct (find_root_some a _ c Ec) as [Hin Hr].
  set (l := match roots_modify _ _ _ _ with Some l => l | None => _ end).
  assert (Hl : (fun c => (ci_root c, ci_election c)) <$> l ≡ₚ (fun c => (ci_root c, ci_election c)) <$> roots a).
  { subst l. destruct (roots_modify _ _ _ _) as [l |] eqn:El; [now rewrite (roots_modify_same _ _ _ _ _ El) |].
    rewrite roots_insert_perm. rewrite (roots_erase_perm c (roots a) (ai_nodup [] a Ha) Hin) at 2.
    rewrite Hr. cbn. now rewrite Hr. }
  eexists. split; [reflexivity |]. split; [now apply inv_roots_same |].
  apply (fmap_Permutation fst) in Hl. rewrite <- !list_fmap_compose in Hl. exact Hl.
Qed.

(** ** New elections *)

Lemma fresh_none (X : list Z) (a : active) : active_inv X a -> elections a !! fresh_election a = None.
Proof.
  intros Ha. destruct (elections a !! fresh_election a) as [e |] eqn:E; [| done].
  apply (ai_fresh X a Ha) in E. unfold fresh_election in E. lia.
Qed.

Lemma new_election_ok (b : block) : U b -> election_ok (new_election b).
Proof.
  intros Hu. split; cbn [new_election el_blocks last_votes status winner].
  - apply lookup_singleton_eq.
  - intros h x Hx. apply lookup_singleton_Some in Hx as [<- <-]. done.
  - eexists. split; [apply lookup_singleton_eq |]. cbn. rewrite lookup_singleton_eq. eauto.
Qed.

Lemma active_add_inv (a : active) (b : block) : active_inv [] a -> U b -> fst (W.work_validate_block b) = false ->
  exists r a', active_add a b = Some (r, a') /\ active_inv [] a' /\
    (a' = a \/ exists c, c = mk_conflict (root_of b) (snd (W.work_validate_block b)) (fresh_election a) /\
      root_of b ∉ ci_root <$> roots a /\ roots a' = roots_insert c (roots a) /\
      elections a' = <[fresh_election a := new_election b]> (elections a)).
Proof.
  intros Ha Hu Hw. unfold active_add. destruct (a_stopped a); [eauto 10 |].
  destruct (find_root a (root_of b)) as [c |] eqn:Ec; [eauto 10 |]. rewrite Hw.
  pose proof (fresh_none [] a Ha) as Hfresh. pose proof (find_root_none a _ Ec) as Hnew.
  eexists false, _. split; [reflexivity |]. split; [| right; eexists; split_and!; try reflexivity; exact Hnew].
  set (i := fresh_election a) in *. set (c := mk_conflict _ _ i).
  destruct Ha as [F E B N R L FK].
  split; cbn [put_blocks put_roots put_election elections blocks roots log].
  - intros j e Hj. rewrite map_size_insert_None by done.
    destruct (decide (i = j)) as [<- | Hne]; [unfold i, fresh_election; lia |].
    rewrite lookup_insert_ne in Hj by done. apply F in Hj. lia.
  - intros j e Hj. destruct (decide (i = j)) as [<- | Hne].
    + rewrite lookup_insert_eq in Hj. injection Hj as <-. now apply new_election_ok.
    + rewrite lookup_insert_ne in Hj by done. eauto.
  - intros h j. rewrite insert_new_lookup. destruct (blocks a !! h) as [j' |] eqn:Eh.
    + intros [= <-]. destruct (B h j' Eh) as (e & He & Hh). exists e. split; [| exact Hh].
      rewrite lookup_insert_ne; [done |]. congruence.
    + destruct (Z.eqb_spec (hash b) h) as [<- |]; [| done]. intros [= <-]. exists (new_election b).
      split; [apply lookup_insert_eq |]. cbn. rewrite lookup_singleton_eq. eauto.
  - rewrite roots_insert_perm. cbn. constructor; done.
  - intros c' Hc'. rewrite roots_insert_perm in Hc'. apply elem_of_cons in Hc' as [-> | Hc'].
    + exists (new_election b). split; [apply lookup_insert_eq |]. split; [done |]. intros h Hh. left.
      cbn in Hh. destruct Hh as [x Hx]. apply lookup_singleton_Some in Hx as [<- _].
      rewrite insert_new_lookup, Z.eqb_refl. destruct (blocks a !! hash b); eauto.
    + destruct (R c' Hc') as (e & He & Hr & Hb). exists e. split; [rewrite lookup_insert_ne; [done | congruence] |].
      split; [done |]. intros h Hh. left. rewrite insert_new_lookup.
      destruct (Hb h Hh) as [[j ->] | Hx]; [eauto | inversion Hx].
  - intros j. rewrite (L j). destruct (decide (i = j)) as [<- | Hne].
    + now rewrite lookup_insert_eq, Hfresh.
    + now rewrite lookup_insert_ne by done.
  - exact FK.
Qed.

(** ** The pass of [request_confirm] *)

Definition keys (a : active) : list (Z * Z) := ci_root <$> roots a.

Lemma after_root_suffix (r : Z * Z) (l : list conflict_info) : exists pre, l = pre ++ after_root r l.
Proof.
  induction l as [| c l [pre IH]]; [now exists [] |]. cbn [after_root]. destruct (bool_decide _).
  - now exists [c].
  - exists (c :: pre). cbn. congruence.
Qed.

Lemma after_root_here (pre : list conflict_info) (c : conflict_info) (tl : list conflict_info) :
  NoDup (ci_root <$> pre ++ c :: tl) -> after_root (ci_root c) (pre ++ c :: tl) = tl.
Proof.
  induction pre as [| x pre IH]; cbn [app after_root].
  - intros _. now rewrite bool_decide_eq_true_2.
  - rewrite fmap_cons, NoDup_cons. intros [Hx N]. rewrite bool_decide_eq_false_2; [now apply IH |].
    intros E. apply Hx. rewrite E, fmap_app. set_solver.
Qed.

Lemma after_root_insert (r : Z * Z) (x : conflict_info) (l : list conflict_info) : ci_root x <> r ->
  after_root r (roots_insert x l) = after_root r l \/
  after_root r (roots_insert x l) = roots_insert x (after_root r l).
Proof.
  intros Hx. induction l as [| y l IH]; cbn [roots_insert after_root].
  - left. now rewrite bool_decide_eq_false_2.
  - destruct (_ <? _); cbn [after_root].
    + left. now rewrite (bool_decide_eq_false_2 (ci_root x = r)).
    + destruct (bool_decide (ci_root y = r)); auto.
Qed.

(** What one step does to the rest of the pass: at most [k] elections that were
    never announced come in, and the elections other than [i] stay as they are. *)
Record grown (k i : nat) (a a' : active) : Prop := {
  gr_elections (j : nat) (e : election) : j <> i -> elections a !! j = Some e -> elections a' !! j = Some e;
  gr_keys (r : Z * Z) : r ∈ keys a -> r ∈ keys a';
  gr_rest (r : Z * Z) : r ∈ keys a -> exists new, (length new <= k)%nat /\
    after_root r (roots a') ≡ₚ new ++ after_root r (roots a) /\
    Forall (fun c => ci_root c ∉ keys a /\ ci_election c <> i /\
      exists e, elections a' !! ci_election c = Some e /\ announcements e = 0) new }.

Lemma grown_put (i : nat) (a : active) (e : election) : grown 0 i a (put_election a i e).
Proof.
  split; [intros j x Hj; cbn; now rewrite lookup_insert_ne | done |]. intros r _. exists []. done.
Qed.

Lemma grown_refl (i : nat) (a : active) : grown 0 i a a.
Proof. split; [done | done |]. intros r _. now exists []. Qed.

Lemma grown_trans (k l i : nat) (a b c : active) : grown k i a b -> grown l i b c -> grown (k + l) i a c.
Proof.
  intros [E1 K1 R1] [E2 K2 R2]. split; [auto | auto |]. intros r Hr.
  destruct (R1 r Hr) as (n1 & L1 & P1 & F1). destruct (R2 r (K1 r Hr)) as (n2 & L2 & P2 & F2).
  exists (n2 ++ n1). rewrite length_app. split; [lia |]. split; [now rewrite P2, P1, app_assoc |].
  apply Forall_app. split.
  - eapply Forall_impl; [exact F2 |]. cbn. intros x (H1 & H2). split; [auto | done].
  - eapply Forall_impl; [exact F1 |]. cbn. intros x (H1 & H2 & e & He & Hn). split_and!; try done. eauto.
Qed.

Lemma grown_weaken (k l i : nat) (a b : active) : (k <= l)%nat -> grown k i a b -> grown l i a b.
Proof.
  intros Hk [E K R]. split; [auto | auto |]. intros r Hr. destruct (R r Hr) as (new & Hl & H). exists new.
  split; [lia | exact H].
Qed.

Lemma active_add_grown (i : nat) (a : active) (b : block) : active_inv [] a -> is_Some (elections a !! i) -> U b ->
  fst (W.work_validate_block b) = false ->
  exists r a', active_add a b = Some (r, a') /\ active_inv [] a' /\ grown 1 i a a' /\ is_Some (elections a' !! i).
Proof.
  intros Ha Hi Hu Hw. destruct (active_add_inv a b Ha Hu Hw) as (r & a' & E & Ha' & Hc).
  exists r, a'. split; [exact E |]. split; [exact Ha' |].
  destruct Hc as [-> | (c & -> & Hnew & Hr & He)]; [split; [| exact Hi]; apply (grown_weaken 0); [lia | apply grown_refl] |].
  pose proof (fresh_none [] a Ha) as Hf. assert (Hne : fresh_election a <> i) by (intros <-; rewrite Hf in Hi; now destruct Hi).
  set (c := mk_conflict _ _ _) in *.
  assert (Hl : forall j e, elections a !! j = Some e -> elections a' !! j = Some e).
  { intros j e Hj. rewrite He, lookup_insert_ne; [done | congruence]. }
  split; [| destruct Hi as [e Hi]; eauto]. split; [auto | |].
  - intros x Hx. unfold keys. rewrite Hr, roots_insert_perm. cbn. set_solver.
  - intros x Hx. assert (Hxc : ci_root c <> x) by (intros <-; done). rewrite Hr.
    destruct (after_root_insert x c (roots a) Hxc) as [E' | E']; rewrite E'.
    + exists []. cbn. split; [lia | done].
    + exists [c]. split; [done |]. split; [apply roots_insert_perm |]. constructor; [| done].
      split; [exact Hnew |]. split; [exact Hne |]. cbn. rewrite He, lookup_insert_eq. eauto.
Qed.

Context (Hblocks : forall h b, block_get ve_store h = Some b -> U b /\ fst (W.work_validate_block b) = false).

(** Start the election for a block that may be there. *)
Lemma add_optional (i : nat) (a : active) (o : option block) : active_inv [] a -> is_Some (elections a !! i) ->
  (forall b, o = Some b -> U b /\ fst (W.work_validate_block b) = false) ->
  exists a', match o with Some b => option_map snd (active_add a b) | None => Some a end = Some a' /\
    active_inv [] a' /\ grown 1 i a a' /\ is_Some (elections a' !! i).
Proof.
  intros Ha Hi Ho. destruct o as [b |].
  - destruct (Ho b eq_refl) as [Hu Hw]. destruct (active_add_grown i a b Ha Hi Hu Hw) as (r & a' & -> & H).
    exists a'. done.
  - exists a. split_and!; try done. apply (grown_weaken 0); [lia | apply grown_refl].
Qed.

Lemma escalate_inv (i : nat) (a : active) (w : block) : active_inv [] a -> is_Some (elections a !! i) ->
  word 256 (previous w) ->
  exists a', escalate a w = Some a' /\ active_inv [] a' /\ grown 2 i a a' /\ is_Some (elections a' !! i).
Proof.
  intros Ha Hi Hp. unfold escalate.
  assert (Ez : Numbers.uint256_is_zero (previous w) = (previous w =? 0)) by exact (Numbers.is_zero_be 4 _ Hp).
  rewrite Ez. set (o := if previous w =? 0 then None else _).
  destruct (add_optional i a o Ha Hi) as (a1 & -> & Ha1 & G1 & Hi1).
  { intros b. subst o. destruct (_ =? 0); [done |]. apply Hblocks. }
  destruct ((previous w =? 0) || present o) eqn:Eo.
  - assert (Hs : previous w = 0 \/ is_Some (block_get ve_store (previous w))).
    { apply orb_true_iff in Eo as [E%Z.eqb_eq | E]; [auto | right]. subst o. destruct (previous w =? 0); [done |].
      destruct (block_get ve_store (previous w)); [eauto | done]. }
    destruct (block_source_total w Hs) as [h ->]. destruct (Numbers.uint256_is_zero h).
    + exists a1. split_and!; try done. now apply (grown_weaken 1); [lia |].
    + destruct (add_optional i a1 (block_get ve_store h) Ha1 Hi1) as (a2 & -> & Ha2 & G2 & Hi2); [apply Hblocks |].
      exists a2. split_and!; try done. exact (grown_trans 1 1 i a a1 a2 G1 G2).
  - exists a1. split_and!; try done. now apply (grown_weaken 1); [lia |].
Qed.

Lemma request_votes_inactive (e : election) (n : nat) (u : bundles) : inactive (request_votes e n u) = inactive u.
Proof.
  unfold request_votes. destruct (rep_loop _ _ _ _ _ _) as [reps total].
  repeat match goal with |- context [if ?x then _ else _] => destruct x end; done.
Qed.

Definition escalates (e : election) : bool := announcement_long <? announcements e.

(** Put back an election whose blocks, votes, winner and flag are the same. *)
Lemma put_step (a : active) (i : nat) (e e' : election) : active_inv [] a -> elections a !! i = Some e ->
  el_blocks e' = el_blocks e -> last_votes e' = last_votes e -> winner (status e') = winner (status e) ->
  confirmed e' = confirmed e ->
  active_inv [] (put_election a i e') /\ grown 0 i a (put_election a i e') /\
  is_Some (elections (put_election a i e') !! i).
Proof.
  intros Ha Hi Eb Ev Ew Ec. split; [now apply (inv_put_same [] a i e) |]. split; [apply grown_put |].
  cbn. rewrite lookup_insert_eq. eauto.
Qed.

Lemma history_step (a : active) (i : nat) (s : election_status) : active_inv [] a ->
  active_inv [] (push_history a s) /\ grown 0 i a (push_history a s).
Proof. intros [F E B N R L FK]. split; [now split |]. split; [done | done |]. intros r _. now exists []. Qed.

Lemma scan_election_inv (n : nat) (c : conflict_info) (e : election) (a : active) (u : bundles) :
  active_inv [] a -> elections a !! ci_election c = Some e ->
  exists a' u', scan_election n c e a u = Some (a', u') /\ active_inv [] a' /\
    grown (if escalates e then 2 else 0) (ci_election c) a a' /\ is_Some (elections a' !! ci_election c) /\
    (inactive u' = inactive u \/ inactive u' = inactive u ++ [ci_root c]).
Proof.
  intros Ha Hi. set (i := ci_election c) in *. unfold scan_election. fold i. fold (escalates e).
  pose proof (ai_election [] a Ha i e Hi) as Hok.
  pose proof (U_word _ (proj2 (proj2 (eo_block e Hok _ _ (eo_winner e Hok))))) as Hword.
  destruct ((confirmed e || stopped e) && _).
  { destruct (history_step a i (status e) Ha) as [Hh Gh].
    eexists _, _. split; [reflexivity |]. split; [now destruct (confirmed e) |].
    split; [apply (grown_weaken 0); [lia |]; destruct (confirmed e); [exact Gh | apply grown_refl] |].
    split; [destruct (confirmed e); cbn; eauto | now right]. }
  set (a1 := if _ : bool then put_election a i (snd (tally e)) else a).
  assert (H1 : active_inv [] a1 /\ grown 0 i a a1 /\ is_Some (elections a1 !! i)).
  { subst a1. destruct (_ && _); [now apply (put_step a i e) |]. split_and!; eauto using grown_refl. }
  clearbody a1. destruct H1 as (Ha1 & G1 & Hi1).
  set (o := if _ : bool then escalate a1 _ else Some a1).
  assert (H2 : exists a2, o = Some a2 /\ active_inv [] a2 /\ grown (if escalates e then 2 else 0) i a1 a2 /\
    is_Some (elections a2 !! i)).
  { subst o. destruct (escalates e); cbn [andb].
    - destruct (_ && _); [now apply escalate_inv |]. exists a1. split_and!; try done.
      apply (grown_weaken 0); [lia | apply grown_refl].
    - exists a1. split_and!; try done. apply grown_refl. }
  clearbody o. destruct H2 as (a2 & -> & Ha2 & G2 & e2 & Hi2).
  pose proof (grown_trans 0 _ i a a1 a2 G1 G2) as G. cbn [Nat.add] in G.
  set (announced := if _ : bool then _ else Some (a2, u)).
  assert (H3 : exists a3 u3, announced = Some (a3, u3) /\ active_inv [] a3 /\ grown 0 i a2 a3 /\
    is_Some (elections a3 !! i) /\ inactive u3 = inactive u).
  { subst announced. destruct (_ || _); [| exists a2, u; split_and!; eauto using grown_refl].
    destruct (could_fit_total (winner (status e))) as [fits ->]. destruct fits.
    - eexists a2, _. split; [reflexivity |]. split_and!; eauto using grown_refl. now destruct (_ <? _)%nat.
    - rewrite Hi2. eexists _, u. split; [reflexivity |]. destruct (negb _).
      + destruct (put_step a2 i e2 (set_stopped e2) Ha2 Hi2) as (? & ? & ?); try done.
      + split_and!; eauto using grown_refl. }
  clearbody announced. destruct H3 as (a3 & u3 & -> & Ha3 & G3 & Hi3 & Hu).
  eexists a3, _. split; [reflexivity |]. split; [exact Ha3 |]. split.
  - pose proof (grown_trans _ 0 i a a2 a3 G G3) as G4. now rewrite Nat.add_0_r in G4.
  - split; [exact Hi3 |]. left. destruct (_ =? 1); [now rewrite request_votes_inactive | exact Hu].
Qed.

(** An election counts for itself and for the two it can bring in. *)
Definition cost_of (a : active) (c : conflict_info) : nat :=
  match elections a !! ci_election c with Some e => if escalates e then 3 else 1 | None => 1 end.

Definition cost (a : active) (l : list conflict_info) : nat := list_sum (cost_of a <$> l).

Lemma list_sum_perm (l l' : list nat) : l ≡ₚ l' -> list_sum l = list_sum l'.
Proof. intros H. unfold list_sum. induction H; simpl in *; lia. Qed.

Lemma cost_le (a : active) (l : list conflict_info) : (cost a l <= 3 * length l)%nat.
Proof.
  induction l as [| c l IH]; [unfold cost; cbn; lia |].
  change (cost a (c :: l)) with (cost_of a c + cost a l)%nat. cbn [length].
  assert (cost_of a c <= 3)%nat; [| lia]. unfold cost_of.
  destruct (elections a !! ci_election c) as [e |]; [destruct (escalates e) |]; lia.
Qed.

(** Elections of different roots are different. *)
Lemma roots_election (a : active) (c c' : conflict_info) : active_inv [] a -> c ∈ roots a -> c' ∈ roots a ->
  ci_election c = ci_election c' -> ci_root c = ci_root c'.
Proof.
  intros Ha Hc Hc' E. destruct (ai_roots [] a Ha c Hc) as (e & He & Hr & _).
  destruct (ai_roots [] a Ha c' Hc') as (e' & He' & Hr' & _). congruence.
Qed.

Lemma scan_step_cost (a a' : active) (c : conflict_info) (e : election) (pre tl : list conflict_info) :
  active_inv [] a -> roots a = pre ++ c :: tl -> elections a !! ci_election c = Some e ->
  grown (if escalates e then 2 else 0) (ci_election c) a a' ->
  (cost a' (after_root (ci_root c) (roots a')) < cost a (c :: tl))%nat.
Proof.
  intros Ha Hroots He G. pose proof (ai_nodup [] a Ha) as N. rewrite Hroots in N.
  assert (Hc : ci_root c ∈ keys a) by (unfold keys; rewrite Hroots, fmap_app; set_solver).
  destruct (gr_rest _ _ _ _ G _ Hc) as (new & Hl & Hp & Hf). rewrite Hroots, (after_root_here pre c tl N) in Hp.
  unfold cost. rewrite (list_sum_perm _ _ (fmap_Permutation (cost_of a') _ _ Hp)), fmap_app, list_sum_app.
  assert (E1 : list_sum (cost_of a' <$> new) = length new).
  { clear - Hf. induction Hf as [| x l (_ & _ & e' & He' & Hn) _ IH]; [done |]. cbn [fmap list_fmap list_sum foldr length].
    change (foldr Nat.add 0%nat (cost_of a' <$> l)) with (list_sum (cost_of a' <$> l)). rewrite IH.
    unfold cost_of. rewrite He'. unfold escalates. rewrite Hn. done. }
  assert (E2 : cost_of a' <$> tl = cost_of a <$> tl).
  { apply list_fmap_ext. intros k x Hx. apply list_elem_of_lookup_2 in Hx. unfold cost_of.
    assert (Hin : x ∈ roots a) by (rewrite Hroots; set_solver).
    destruct (ai_roots [] a Ha x Hin) as (ex & Hex & _). rewrite Hex.
    rewrite (gr_elections _ _ _ _ G (ci_election x) ex); [done | | exact Hex].
    intros Ei. assert (Er : ci_root x = ci_root c)
      by (apply (roots_election a); try done; rewrite Hroots; set_solver).
    rewrite fmap_app, fmap_cons in N. apply NoDup_app in N as (_ & _ & N). apply NoDup_cons in N as [N _].
    apply N. rewrite <- Er. now apply list_elem_of_fmap_2. }
  rewrite E1, E2, fmap_cons. change (list_sum (cost_of a c :: (cost_of a <$> tl)))
    with (cost_of a c + list_sum (cost_of a <$> tl))%nat.
  unfold cost_of at 2. rewrite He. destruct (escalates e); lia.
Qed.

(** The roots to remove so far and the ones still to come. *)
Definition pass_ok (a : active) (rest : list conflict_info) (u : bundles) : Prop :=
  NoDup (inactive u ++ (ci_root <$> rest)) /\ forall r, r ∈ inactive u -> r ∈ keys a.

Lemma scan_step_pass (k : nat) (a a' : active) (c : conflict_info) (pre tl : list conflict_info) (u u' : bundles) :
  active_inv [] a -> active_inv [] a' -> roots a = pre ++ c :: tl -> grown k (ci_election c) a a' ->
  (inactive u' = inactive u \/ inactive u' = inactive u ++ [ci_root c]) ->
  pass_ok a (c :: tl) u -> pass_ok a' (after_root (ci_root c) (roots a')) u'.
Proof.
  intros Ha Ha' Hroots G Hu [N K]. pose proof (ai_nodup [] a Ha) as N0. rewrite Hroots in N0.
  assert (Hc : ci_root c ∈ keys a) by (unfold keys; rewrite Hroots, fmap_app; set_solver).
  assert (K' : forall r, r ∈ inactive u' -> r ∈ keys a)
    by (intros r; destruct Hu as [-> | ->]; [apply K | rewrite elem_of_app, list_elem_of_singleton; intros [| ->]; auto]).
  split; [| intros r Hr; exact (gr_keys _ _ _ _ G r (K' r Hr))].
  destruct (gr_rest _ _ _ _ G _ Hc) as (new & _ & Hp & Hf). rewrite Hroots, (after_root_here pre c tl N0) in Hp.
  apply NoDup_app in N as (N1 & N2 & N3). rewrite fmap_cons in N2, N3. apply NoDup_cons in N3 as [N3 N4].
  apply NoDup_app. split_and!.
  - destruct Hu as [-> | ->]; [exact N1 |]. apply NoDup_app. split_and!; [exact N1 | | apply NoDup_singleton].
    intros r Hr E. apply list_elem_of_singleton in E as ->. apply (N2 _ Hr). set_solver.
  - intros r Hr Hin. rewrite Hp, fmap_app in Hin. apply elem_of_app in Hin as [Hin | Hin].
    + apply list_elem_of_fmap in Hin as (x & -> & Hx). rewrite Forall_forall in Hf.
      destruct (Hf x Hx) as [Hx' _]. apply Hx'. now apply K'.
    + destruct Hu as [E | E]; rewrite E in Hr; [apply (N2 _ Hr); set_solver |].
      apply elem_of_app in Hr as [Hr | Hr]; [apply (N2 _ Hr); set_solver |].
      apply list_elem_of_singleton in Hr as ->. done.
  - pose proof (ai_nodup [] a' Ha') as N'. destruct (after_root_suffix (ci_root c) (roots a')) as [p Ep].
    rewrite Ep, fmap_app in N'. now apply NoDup_app in N' as (_ & _ & N').
Qed.

(** The pass ends within the fuel, fails no assertion and keeps the invariant. *)
Lemma scan_inv (n fuel : nat) : forall (rest pre : list conflict_info) (a : active) (u : bundles),
  active_inv [] a -> roots a = pre ++ rest -> (cost a rest <= fuel)%nat -> pass_ok a rest u ->
  exists a' u', scan fuel n rest a u = Some (a', u') /\ active_inv [] a' /\ pass_ok a' [] u'.
Proof.
  induction fuel as [| f IH]; intros [| c tl] pre a u Ha Hroots Hcost Hp; cbn [scan]; try (now eauto 10).
  { exfalso. change (cost a (c :: tl)) with (cost_of a c + cost a tl)%nat in Hcost. unfold cost_of in Hcost.
    destruct (elections a !! ci_election c) as [e |]; [destruct (escalates e) |]; lia. }
  assert (Hin : c ∈ roots a) by (rewrite Hroots; set_solver).
  destruct (ai_roots [] a Ha c Hin) as (e & He & _). rewrite He.
  destruct (scan_election_inv n c e a u Ha He) as (a1 & u1 & -> & Ha1 & G1 & [e1 He1] & Hu).
  rewrite He1. set (e2 := set_announcements e1 _).
  destruct (put_step a1 (ci_election c) e1 e2 Ha1 He1) as (Ha2 & G2 & _); try done.
  set (a2 := put_election a1 (ci_election c) e2) in *.
  pose proof (grown_trans _ 0 _ a a1 a2 G1 G2) as G. rewrite Nat.add_0_r in G. clearbody a2.
  destruct (after_root_suffix (ci_root c) (roots a2)) as [pre' Hpre'].
  apply (IH (after_root (ci_root c) (roots a2)) pre' a2 u1); [exact Ha2 | exact Hpre' | |].
  - pose proof (scan_step_cost a a2 c e pre tl Ha Hroots He G). lia.
  - exact (scan_step_pass _ a a2 c pre tl u u1 Ha Ha2 Hroots G Hu Hp).
Qed.

Lemma when_nonempty_inv {A : Type} (l : list A) (x : action) (a : active) : quiet x -> forced_known x -> active_inv [] a ->
  active_inv [] (when_nonempty l x a) /\ roots (when_nonempty l x a) = roots a.
Proof. intros Hq Hf Ha. destruct l; [done |]. split; [now apply inv_log | done]. Qed.

Lemma request_confirm_scan_inv (a : active) : active_inv [] a -> exists a' l,
  request_confirm_scan a = Some (a', l) /\ active_inv [] a' /\ NoDup l /\ forall r, r ∈ l -> r ∈ keys a'.
Proof.
  intros Ha. unfold request_confirm_scan.
  destruct (scan_inv (length (roots a)) (scan_fuel a) (roots a) [] a (mk_bundles ∅ [] [] []) Ha eq_refl)
    as (a1 & u & E & Ha1 & Hn & Hk).
  - apply cost_le.
  - split; [cbn; exact (ai_nodup [] a Ha) | cbn; intros r Hr; inversion Hr].
  - rewrite E. eexists _, _. split; [reflexivity |]. cbn [fmap list_fmap] in Hn. rewrite app_nil_r in Hn.
    assert (Q : forall x, match x with process_confirmed _ _ => False | _ => True end -> quiet x)
      by (intros [] Hx; try done; intros j; done).
    set (b1 := when_nonempty (rebroadcast u) _ a1).
    destruct (when_nonempty_inv (rebroadcast u) (republish_block_batch (rebroadcast u)) a1 ltac:(now apply Q) I Ha1)
      as [H1 R1]. fold b1 in H1, R1. clearbody b1.
    set (b2 := if is_live_network then b1 else _).
    assert (H2 : active_inv [] b2 /\ roots b2 = roots b1)
      by (subst b2; destruct is_live_network; [done |]; apply when_nonempty_inv; [now apply Q | done | done]).
    clearbody b2. destruct H2 as [H2 R2].
    destruct (when_nonempty_inv (confirm_reqs u) (confirm_req_blocks (confirm_reqs u)) b2 ltac:(now apply Q) I H2)
      as [H3 R3].
    split; [exact H3 |]. split; [exact Hn |]. unfold keys. rewrite R3, R2, R1. exact Hk.
Qed.

(** ** The end of the pass *)

Lemma erase_blocks (l : list Z) : NoDup l -> forall m : gmap Z nat, (forall h, h ∈ l -> is_Some (m !! h)) ->
  exists m', fold_left erase_block l (Some m) = Some m' /\
    forall h, m' !! h = if bool_decide (h ∈ l) then None else m !! h.
Proof.
  induction 1 as [| x l Hx Hl IH]; intros m Hm; cbn [fold_left].
  - exists m. split; [done |]. intros h. rewrite bool_decide_eq_false_2; [done | set_solver].
  - destruct (Hm x) as [i Hi]; [set_solver |]. cbn [erase_block]. rewrite Hi.
    destruct (IH (delete x m)) as (m' & -> & Hm').
    { intros h Hh. rewrite lookup_delete_ne by set_solver. set_solver. }
    exists m'. split; [done |]. intros h. rewrite Hm'. destruct (decide (x = h)) as [<- | Hne].
    + rewrite (bool_decide_eq_true_2 (x ∈ x :: l)) by set_solver.
      destruct (bool_decide (x ∈ l)); [done | apply lookup_delete_eq].
    + rewrite lookup_delete_ne by done.
      destruct (decide (h ∈ l)); [rewrite !bool_decide_eq_true_2 by set_solver | rewrite !bool_decide_eq_false_2 by set_solver];
        done.
Qed.

Lemma finish_root_inv (a : active) (r : Z * Z) : active_inv [] a -> r ∈ keys a ->
  exists a', finish_root a r = Some a' /\ active_inv [] a' /\ forall r', r' ∈ keys a' <-> r' ∈ keys a /\ r' <> r.
Proof.
  intros Ha Hr. unfold finish_root. destruct (find_root a r) as [c |] eqn:Ec; [| now apply find_root_none in Ec].
  destruct (find_root_some a r c Ec) as [Hin Hcr]. destruct (ai_roots [] a Ha c Hin) as (e & He & Hre & Hbe).
  rewrite He. destruct (erase_blocks (map fst (map_to_list (el_blocks e))) (NoDup_fst_map_to_list _) (blocks a))
    as (m & -> & Hm).
  { intros h Hh. apply list_elem_of_fmap in Hh as ([h' b] & -> & Hb). apply elem_of_map_to_list in Hb.
    destruct (Hbe h') as [| Hx]; [eauto | done | inversion Hx]. }
  assert (Hdom : forall h, h ∈ map fst (map_to_list (el_blocks e)) <-> is_Some (el_blocks e !! h)).
  { intros h. split.
    - intros Hh. apply list_elem_of_fmap in Hh as ([h' b] & -> & Hb). apply elem_of_map_to_list in Hb. eauto.
    - intros [b Hb]. apply list_elem_of_fmap. exists (h, b). split; [done |]. now apply elem_of_map_to_list. }
  eexists. split; [reflexivity |]. split; [| intros r'; unfold keys; cbn].
  - destruct Ha as [F E B N R L FK]. split; cbn [put_roots put_blocks elections blocks roots log]; try assumption.
    + intros h i. rewrite Hm. destruct (bool_decide _); [done |]. apply B.
    + eapply sublist_NoDup; [exact N |]. apply fmap_sublist, roots_erase_sublist.
    + intros c' Hc'. apply roots_erase_in in Hc' as [Hc' Hne]. destruct (R c' Hc') as (e' & He' & Hr' & Hb').
      exists e'. split; [done |]. split; [done |]. intros h Hh. left. rewrite Hm.
      rewrite bool_decide_eq_false_2; [destruct (Hb' h Hh) as [| Hx]; [done | inversion Hx] |].
      rewrite Hdom. intros [b Hb]. destruct Hh as [b' Hb2]. apply Hne.
      destruct (eo_block e (E _ _ He) h b Hb) as (H1 & H2 & H3).
      destruct (eo_block e' (E _ _ He') h b' Hb2) as (H4 & H5 & H6).
      pose proof (hash_root b b' H3 H6 ltac:(congruence)). congruence.
  - rewrite !list_elem_of_fmap. setoid_rewrite roots_erase_in. naive_solver.
Qed.

Lemma request_confirm_finish_inv (l : list (Z * Z)) : NoDup l -> forall a, active_inv [] a ->
  (forall r, r ∈ l -> r ∈ keys a) -> exists a', request_confirm_finish l a = Some a' /\ active_inv [] a'.
Proof.
  induction 1 as [| r l Hr Hl IH]; intros a Ha Hk; cbn [request_confirm_finish]; [eauto |].
  destruct (finish_root_inv a r Ha) as (a' & -> & Ha' & Hk'); [apply Hk; set_solver |].
  apply IH; [exact Ha' |]. intros x Hx. apply Hk'. split; [apply Hk; set_solver |]. set_solver.
Qed.

End WithEnv.

End Invariant.

End ElectionInv.
