(* ===== verification/ElectionTheorems.v ===== *)
(** * Elections: theorems

    What the elections promise: no interleaving fails an assertion or confirms twice,
    a confirmed block has the weight of a quorum, the rules by which a vote counts, and
    the cases in which the code departs from what it means to do. *)

From stdpp Require Import base gmap list.
From Stdlib Require Import ZArith Lia.
From S2P Require Import Prelude Blocks Numbers Store Ledger LedgerInv LedgerTheorems Work Votes Elections ElectionInv.
Local Open Scope Z_scope.

Module ElectionTheorems.
Import Block Ledger.Ledger LedgerInv.LedgerInv Elections.Elections ElectionInv.ElectionInv.

(** ** Interleavings *)

Section Safety.

Context `{LE : Env, WE : W.WorkEnv, IT : Iteration, CF : Config}.
Context (U : block -> Prop).

(** The ledger of the moment satisfies its invariant, and its blocks have work. *)
Definition env_ok (VE : VoteEnv) : Prop :=
  inv ve_store /\ forall h b, block_get ve_store h = Some b -> U b /\ fst (W.work_validate_block b) = false.

(** Blocks have work; no vote is signed by the account that stands for none; no
    election is erased between the two parts of a pass. *)
Definition event_fair (s : system) (x : event) : Prop :=
  match x with
  | ev_start b | ev_update b => U b /\ fst (W.work_validate_block b) = false
  | ev_publish b => U b
  | ev_vote v => V.vote_account v <> not_an_account
  | ev_erase _ => sys_inactive s = None
  | _ => True
  end.

Fixpoint fair (s : system) (es : list (VoteEnv * event)) : Prop :=
  match es with
  | [] => True
  | (env, x) :: es' => env_ok env /\ event_fair s x /\
      match event_step env s x with ok s' => fair s' es' | _ => True end
  end.

Record system_inv (s : system) : Prop := {
  si_active : active_inv U [] (sys_active s);
  si_inactive (l : list (Z * Z)) : sys_inactive s = Some l ->
    NoDup l /\ forall r, r ∈ l -> r ∈ keys (sys_active s) }.

Context (hash_root : forall b b', U b -> U b' -> hash b = hash b' -> root_of b = root_of b').
Context (U_word : forall b, U b -> word 256 (previous b)).

(** A step that keeps the roots. *)
Lemma step_keeps (s : system) (a : active) : system_inv s -> active_inv U [] a ->
  (forall r, r ∈ keys (sys_active s) -> r ∈ keys a) -> system_inv (mk_system a (sys_inactive s)).
Proof.
  intros [Hs Hi] Ha Hk. split; [exact Ha |]. cbn. intros l Hl. destruct (Hi l Hl) as [N K]. split; [exact N | auto].
Qed.

Lemma event_step_inv (VE : VoteEnv) (s : system) (x : event) : env_ok VE -> event_fair s x -> system_inv s ->
  event_step VE s x <> assertion_failed /\ (forall s', event_step VE s x = ok s' -> system_inv s').
Proof.
  intros [Hst Hbl] Hx Hs. pose proof (si_active s Hs) as Ha.
  destruct x as [b | v | b | b | b | | | |]; cbn [event_step event_fair] in *.
  - destruct Hx as [Hu Hw]. destruct (active_add_inv U (sys_active s) b Ha Hu Hw) as (r & a' & E & Ha' & Hc).
    rewrite E. cbn. split; [done |]. intros s' [= <-]. apply step_keeps; try done. unfold keys.
    destruct Hc as [-> | (c & _ & _ & -> & _)]; [done |]. intros y Hy. rewrite roots_insert_perm. cbn. set_solver.
  - destruct (active_vote_inv U hash_root U_word [] (sys_active s) v Ha Hx) as (r & a' & E & Ha' & Er). rewrite E. cbn.
    split; [done |]. intros s' [= <-]. apply step_keeps; try done. unfold keys. now rewrite Er.
  - destruct (active_publish_inv U hash_root U_word Hst (sys_active s) b Ha Hx) as (r & a' & E & Ha' & Er). rewrite E. cbn.
    split; [done |]. intros s' [= <-]. apply step_keeps; try done. unfold keys. now rewrite Er.
  - cbn. split; [done |]. intros s' [= <-]. split; [now apply active_erase_inv |]. cbn. rewrite Hx. done.
  - destruct Hx as [Hu Hw]. destruct (update_difficulty_inv U hash_root U_word Hst (sys_active s) b Ha Hw) as (a' & E & Ha' & Er).
    rewrite E. cbn. split; [done |]. intros s' [= <-]. apply step_keeps; try done. unfold keys. intros y. now rewrite Er.
  - destruct (sys_inactive s); [done |]. destruct (a_stopped _); [done |].
    destruct (request_confirm_scan_inv U hash_root U_word Hst Hbl (sys_active s) Ha) as (a' & l & E & Ha' & N & K).
    rewrite E. split; [done |]. intros s' [= <-]. split; [exact Ha' |]. cbn. intros l' [= <-]. done.
  - destruct (sys_inactive s) as [l |] eqn:El; [| done]. destruct (si_inactive s Hs l El) as [N K].
    destruct (request_confirm_finish_inv U hash_root U_word Hst Hbl l N (sys_active s) Ha K) as (a' & E & Ha').
    rewrite E. split; [done |]. intros s' [= <-]. split; [exact Ha' | done].
  - cbn. split; [done |]. intros s' [= <-]. apply step_keeps; try done. now destruct Ha; split.
  - destruct (sys_inactive s) eqn:El; [done |]. destruct (a_stopped _); [| done]. cbn. split; [done |].
    intros s' [= <-]. split; [| now rewrite El]. apply inv_roots_sublist; [exact Ha | apply sublist_nil_l].
Qed.

Lemma run_events_inv (es : list (VoteEnv * event)) : forall s, system_inv s -> fair s es ->
  run_events s es <> assertion_failed /\ (forall s', run_events s es = ok s' -> system_inv s').
Proof.
  induction es as [| [env x] es IH]; intros s Hs Hf; cbn [run_events].
  - split; [done |]. now intros s' [= <-].
  - destruct Hf as (He & Hx & Hf). destruct (event_step_inv env s x He Hx Hs) as [N K].
    destruct (event_step env s x) as [s1 | |]; [now apply IH; auto | done | done].
Qed.


End Safety.

(** ** Quorums *)

(** The sum of [f] over a set. *)
Definition sum_over (f : Z -> Z) (s : gset Z) : Z := foldr (fun k x => f k + x) 0 (elements s).

Lemma sum_over_perm (f : Z -> Z) (l l' : list Z) : l ≡ₚ l' ->
  foldr (fun k x => f k + x) 0 l = foldr (fun k x => f k + x) 0 l'.
Proof. induction 1; cbn [foldr]; lia. Qed.

Lemma sum_over_insert (f : Z -> Z) (k : Z) (s : gset Z) : k ∉ s -> sum_over f ({[k]} ∪ s) = f k + sum_over f s.
Proof. intros Hk. unfold sum_over. now rewrite (sum_over_perm f _ _ (elements_union_singleton s k Hk)). Qed.

Section Quorum.

Context `{LE : Env, WE : W.WorkEnv, IT : Iteration, CF : Config, VE : VoteEnv}.

(** The weight of a set of representatives. *)
Definition stake (s : gset Z) : Z := sum_over weight s.

Definition supporters (lv : gmap Z vote_info) (h : Z) : gset Z :=
  dom (filter (fun p : Z * vote_info => vi_hash p.2 = h) lv).

Lemma stake_empty : stake ∅ = 0.
Proof. unfold stake, sum_over. now rewrite elements_empty. Qed.

Lemma stake_insert (rep : Z) (s : gset Z) : rep ∉ s -> stake ({[rep]} ∪ s) = weight rep + stake s.
Proof. apply sum_over_insert. Qed.

Lemma stake_union (s t : gset Z) : s ## t -> stake (s ∪ t) = stake s + stake t.
Proof.
  induction s as [| x s Hx IH] using set_ind_L; intros Hd.
  - now rewrite (left_id_L ∅ (∪)), stake_empty.
  - rewrite <- (assoc_L (∪)), !stake_insert by set_solver. rewrite IH by set_solver. lia.
Qed.

Context (weight_nonneg : forall rep, 0 <= weight rep).

Lemma stake_nonneg (s : gset Z) : 0 <= stake s.
Proof.
  induction s as [| x s Hx IH] using set_ind_L; [now rewrite stake_empty |].
  rewrite stake_insert by done. specialize (weight_nonneg x). lia.
Qed.

Lemma stake_mono (s t : gset Z) : s ⊆ t -> stake s <= stake t.
Proof.
  intros Hst. rewrite (union_difference_L s t Hst), stake_union by set_solver.
  pose proof (stake_nonneg (t ∖ s)). lia.
Qed.

Lemma support_stake (lv : gmap Z vote_info) (h : Z) : support lv h = stake (supporters lv h).
Proof.
  unfold supporters. induction lv as [| rep v m Hn IH] using map_ind.
  - unfold support. rewrite map_fold_empty, map_filter_empty, dom_empty_L. now rewrite stake_empty.
  - rewrite (support_insert rep h v m Hn), IH. destruct (Z.eqb_spec (vi_hash v) h) as [E | Hne].
    + rewrite map_filter_insert_True, dom_insert_L, stake_insert; [done | | done].
      rewrite not_elem_of_dom, map_lookup_filter_None. now left.
    + rewrite map_filter_insert_False by done. rewrite delete_id by done. lia.
Qed.

Lemma supporters_elem (lv : gmap Z vote_info) (h rep : Z) :
  rep ∈ supporters lv h <-> exists v, lv !! rep = Some v /\ vi_hash v = h.
Proof.
  unfold supporters. rewrite elem_of_dom. unfold is_Some. setoid_rewrite map_lookup_filter_Some. done.
Qed.

Lemma support_le (lv : gmap Z vote_info) (h : Z) : support lv h <= stake (dom lv).
Proof.
  rewrite support_stake. apply stake_mono. intros rep Hr. apply supporters_elem in Hr as (v & Hv & _).
  apply elem_of_dom. eauto.
Qed.

Lemma support_two (lv : gmap Z vote_info) (h h' : Z) : h <> h' -> support lv h + support lv h' <= stake (dom lv).
Proof.
  intros Hne. rewrite !support_stake, <- stake_union.
  - apply stake_mono. intros rep Hr. apply elem_of_union in Hr as [Hr | Hr];
      apply supporters_elem in Hr as (v & Hv & _); apply elem_of_dom; eauto.
  - intros rep H1 H2. apply supporters_elem in H1 as (v & Hv & E). apply supporters_elem in H2 as (v' & Hv' & E').
    congruence.
Qed.

(** ** What a confirmation means *)

Context (Hstake : word 128 online_stake) (Hquorum : 0 <= online_weight_quorum <= 50).

Lemma delta_bound : 0 <= delta <= 2 ^ 127.
Proof.
  unfold delta. pose proof Hstake as Hs. unfold word in Hs.
  assert (H : 0 <= online_stake / 100 * online_weight_quorum <= 2 ^ 127).
  { assert (H0 : 0 <= online_stake / 100) by (apply Z.div_pos; lia).
    assert (H1 : 100 * (online_stake / 100) <= online_stake) by (apply Z.mul_div_le; lia). nia. }
  rewrite u128_small; lia.
Qed.

(** The votes of the election weigh less than [2^128], as the supply does. *)
Definition votes_bounded (e : election) : Prop := stake (dom (last_votes e)) < 2 ^ 128.

Lemma support_word (e : election) (h : Z) : votes_bounded e -> u128 (support (last_votes e) h) = support (last_votes e) h.
Proof.
  intros Hb. apply u128_small. pose proof (support_le (last_votes e) h). unfold votes_bounded in Hb.
  pose proof (stake_nonneg (supporters (last_votes e) h)) as H0. rewrite <- support_stake in H0. lia.
Qed.

Lemma decreasing_tail (w : Z) (b : block) (t : list (Z * block)) (x : Z * block) :
  decreasing ((w, b) :: t) -> x ∈ t -> fst x < w.
Proof. intros [Hf _] Hx. rewrite Forall_forall in Hf. auto. Qed.

(** [have_quorum] on the tally of an election. *)
Lemma have_quorum_spec (e : election) (w : Z) (b : block) (t : list (Z * block)) : votes_bounded e ->
  (forall h x, el_blocks e !! h = Some x -> hash x = h) -> fst (tally e) = (w, b) :: t ->
  have_quorum ((w, b) :: t) (tally_total ((w, b) :: t)) = true ->
  w = support (last_votes e) (hash b) /\ delta < support (last_votes e) (hash b) /\
  (forall h', is_Some (el_blocks e !! h') -> support (last_votes e) h' = support (last_votes e) (hash b) \/
    support (last_votes e) h' + delta < support (last_votes e) (hash b)).
Proof.
  intros Hb Hk Et Hq. destruct (tally_spec e) as (D & K & H). rewrite Et in D, K, H.
  destruct (K w b) as (h & Hh & Ew); [set_solver |]. rewrite (support_word e h Hb) in Ew.
  assert (h = hash b) as -> by (symmetry; now apply Hk). pose proof delta_bound as [Hd0 Hd].
  unfold have_quorum in Hq. destruct (_ <=? _); [| done]. apply Z.ltb_lt in Hq.
  set (second := match t with (x, _) :: _ => x | [] => 0 end) in *.
  assert (Hs : 0 <= second /\ second + w < 2 ^ 128 /\ (second < w \/ t = [])).
  { subst second. destruct t as [| [w2 b2] t].
    - unfold votes_bounded in Hb. pose proof (support_le (last_votes e) (hash b)).
      rewrite Ew. split_and!; [lia | lia | now right].
    - destruct (K w2 b2) as (h2 & Hh2 & Ew2); [set_solver |]. rewrite (support_word e h2 Hb) in Ew2.
      pose proof (decreasing_tail w b _ (w2, b2) D ltac:(set_solver)) as Hlt. cbn in Hlt.
      assert (Hne : h2 <> hash b) by (intros ->; lia).
      pose proof (support_two (last_votes e) h2 (hash b) Hne). unfold votes_bounded in Hb.
      pose proof (stake_nonneg (supporters (last_votes e) h2)) as Hn0. rewrite <- support_stake in Hn0.
      split_and!; [lia | lia | auto]. }
  destruct Hs as (H0 & H1 & H2).
  assert (Hw : u128 (second + delta) = second + delta).
  { apply u128_small. destruct H2 as [H2 | H2]; [lia |]. subst t. cbn in second. subst second. lia. }
  rewrite Hw in Hq. split; [exact Ew |]. split; [lia |]. intros h' Hh'.
  destruct (decide (support (last_votes e) h' = 0)) as [E0 | N0].
  { rewrite E0. destruct (decide (support (last_votes e) (hash b) = 0)); [left; lia | right; lia]. }
  assert (Hv : exists rep v, last_votes e !! rep = Some v /\ vi_hash v = h').
  { destruct (decide (supporters (last_votes e) h' = ∅)) as [E | N].
    - rewrite support_stake, E, stake_empty in N0. done.
    - apply set_choose_L in N as [rep Hr]. apply supporters_elem in Hr as (v & Hv). eauto. }
  destruct Hv as (rep & v & Hv & Ehv). destruct (H rep v Hv) as [b' Hb']; [now rewrite Ehv |].
  rewrite Ehv, (support_word e h' Hb) in Hb'. apply elem_of_cons in Hb' as [[= E _] | Hb']; [left; lia | right].
  assert (Hle : support (last_votes e) h' <= second); [| lia].
  subst second. destruct t as [| [w2 b2] t]; [inversion Hb' |]. destruct D as [_ D].
  apply elem_of_cons in Hb' as [[= -> _] | Hb']; [lia |].
  pose proof (decreasing_tail w2 b2 t _ D Hb') as Hlt. cbn in Hlt. lia.
Qed.

(** An election that [confirm_if_quorum] confirms has a quorum for its winner. *)
Lemma confirms_quorum (a a' : active) (i : nat) (e e' : election) : elections a !! i = Some e ->
  confirmed e = false -> confirm_if_quorum a i = Some a' -> elections a' !! i = Some e' -> confirmed e' = true ->
  exists w b t, fst (tally e) = (w, b) :: t /\ have_quorum ((w, b) :: t) (tally_total ((w, b) :: t)) = true /\
    hash (winner (status e')) = hash b.
Proof.
  intros He Hc. unfold confirm_if_quorum. rewrite He. destruct (tally e) as [t e1] eqn:Et. cbn [fst].
  assert (Hc1 : confirmed e1 = false) by (unfold tally in Et; injection Et as <- <-; exact Hc). clear Et.
  destruct t as [| [w b] t]; [done |]. set (sum := tally_total _). set (forced := (_ <=? sum) && _).
  set (e2 := set_status e1 _). set (a2 := if forced then _ else _).
  assert (He2 : elections a2 !! i = Some e2) by (subst a2; destruct forced; cbn; apply lookup_insert_eq).
  destruct (have_quorum _ sum) eqn:Hq; intros E He' Hc'.
  - exists w, b, t. split; [done |]. split; [exact Hq |].
    assert (Hw : hash (winner (status e2)) = hash b).
    { unfold have_quorum in Hq. destruct (_ <=? sum) eqn:Es; [| done]. subst e2 forced. cbn [set_status status winner andb].
      destruct (Z.eqb_spec (hash b) (hash (winner (status e1)))) as [-> |]; done. }
    set (P := fun x : active => exists y, elections x !! i = Some y /\ hash (winner (status y)) = hash b).
    destruct (confirm_once_closed P) with (a := a2) (i := i) (a' := a') as (y & Hy & Ey); [| exists e2; done | exact E | congruence].
    intros x j z (y & Hy & Ey) Hz _. unfold P. cbn [confirm put_log put_election elections].
    destruct (decide (j = i)) as [-> | Hne].
    + rewrite lookup_insert_eq. eexists. split; [reflexivity |]. cbn. congruence.
    + rewrite lookup_insert_ne by done. eauto.
  - injection E as <-. rewrite He2 in He'. injection He' as <-. subst e2. cbn in Hc'. congruence.
Qed.

(** The two hypotheses on the state, which hold on every reachable one. *)
Definition keyed (e : election) : Prop := forall h x, el_blocks e !! h = Some x -> hash x = h.

Lemma new_keyed (b : block) (m : gmap Z vote_info) : keyed (set_last_votes (new_election b) m).
Proof.
  intros h x Hx. cbn [set_last_votes new_election el_blocks] in Hx.
  now apply lookup_singleton_Some in Hx as [<- <-].
Qed.

Lemma confirmed_majority (a a' : active) (i : nat) (e e' : election) : votes_bounded e -> keyed e ->
  elections a !! i = Some e -> confirmed e = false -> confirm_if_quorum a i = Some a' ->
  elections a' !! i = Some e' -> confirmed e' = true ->
  delta < support (last_votes e) (hash (winner (status e'))) /\
  (forall h', is_Some (el_blocks e !! h') ->
    support (last_votes e) h' = support (last_votes e) (hash (winner (status e'))) \/
    support (last_votes e) h' + delta < support (last_votes e) (hash (winner (status e')))).
Proof.
  intros Hb Hk He Hc E He' Hc'. destruct (confirms_quorum a a' i e e' He Hc E He' Hc') as (w & b & t & Et & Hq & ->).
  destruct (have_quorum_spec e w b t Hb Hk Et Hq) as (_ & H1 & H2). done.
Qed.


End Quorum.

(** ** The rules of voting *)

Section Rules.

Context `{LE : Env, WE : W.WorkEnv, IT : Iteration, CF : Config, VE : VoteEnv}.

(** Votes are ordered by sequence number, and then by hash. *)
Definition newer (v : vote_info) (sequence h : Z) : Prop :=
  vi_sequence v < sequence \/ (vi_sequence v = sequence /\ vi_hash v < h).

Lemma hash_order (h h' : Z) : word 256 h -> word 256 h' -> Numbers.uint256_lt h h' = (h <? h').
Proof.
  intros H1 H2. unfold Numbers.uint256_lt. rewrite (Numbers.memcmp_be 32) by assumption.
  destruct (Z.ltb_spec h h'), (Z.ltb_spec h' h); lia || done.
Qed.

(** More than a thousandth of the online stake. *)
Definition eligible (rep : Z) : Prop := W.is_test_network = true \/ online_stake / 1000 < weight rep.

(** What a confirmation leaves as it is. *)
Definition settled (a a' : active) : Prop :=
  forall j e, elections a !! j = Some e -> exists e', elections a' !! j = Some e' /\
    last_votes e' = last_votes e /\ el_blocks e' = el_blocks e /\
    (confirmed e = true -> confirmed e' = true /\ winner (status e') = winner (status e)).

#[local] Instance settled_preorder : PreOrder settled.
Proof.
  split; [intros a j e He; eauto 10 |]. intros a b c H1 H2 j e He. destruct (H1 j e He) as (e1 & He1 & V1 & B1 & C1).
  destruct (H2 j e1 He1) as (e2 & He2 & V2 & B2 & C2). exists e2. split_and!; [done | congruence | congruence |].
  intros Hc. destruct (C1 Hc) as [Hc1 W1]. destruct (C2 Hc1) as [Hc2 W2]. split; congruence.
Qed.

Lemma settled_put (a : active) (i : nat) (e e' : election) : elections a !! i = Some e -> confirmed e = false ->
  last_votes e' = last_votes e -> el_blocks e' = el_blocks e -> settled a (put_election a i e').
Proof.
  intros Hi Hc Ev Eb j x Hj. cbn [put_election elections]. destruct (decide (i = j)) as [<- | Hne].
  - rewrite lookup_insert_eq. exists e'. assert (x = e) as -> by congruence. split_and!; try done. congruence.
  - rewrite lookup_insert_ne by done. eauto 10.
Qed.

Lemma confirm_settled (a : active) (i : nat) (e : election) : elections a !! i = Some e -> confirmed e = false ->
  settled a (confirm a i e).
Proof.
  intros Hi Hc. exact (settled_put a i e (set_status (set_confirmed e)
    (mk_status (winner (status e)) (st_tally (status e)) system_now (steady_now - election_start e)))
    Hi Hc eq_refl eq_refl).
Qed.

Lemma confirm_if_quorum_settled (a a' : active) (i : nat) (e : election) : elections a !! i = Some e ->
  confirmed e = false -> confirm_if_quorum a i = Some a' -> settled a a'.
Proof.
  intros He Hc. unfold confirm_if_quorum. rewrite He. cbn [tally].
  destruct (tally_of e _) as [| [w b] t]; [done |]. set (e2 := set_status _ _).
  assert (K : settled a (put_election a i e2)) by (apply (settled_put a i e); done).
  clearbody e2. set (a2 := if _ : bool then put_log _ _ else _).
  assert (K2 : settled a a2) by (subst a2; now destruct (_ && _)). clearbody a2.
  destruct (have_quorum _ _); [| now intros [= <-]]. apply (confirm_once_closed (settled a)); [| exact K2].
  intros x j y Hx Hy Hcy. etransitivity; [exact Hx |]. now apply confirm_settled.
Qed.

(** C14: the rules of a vote, on every branch: a representative with too little
    weight has no effect; a vote that is not newer than the last one is a replay and has
    no effect; a newer one counts if the last one is old enough for the weight; a vote
    that counts becomes the representative's last vote and changes nobody else's; and
    in all cases an election that was confirmed stays so with its winner. *)
Theorem vote_rules (a a' : active) (i : nat) (e : election) (rep sequence h : Z) (r : bool * bool)
  (He : elections a !! i = Some e) (Hh : word 256 h) (Hw : forall v, last_votes e !! rep = Some v -> word 256 (vi_hash v))
  (E : election_vote a i rep sequence h = Some (r, a')) :
  (fst r = true <-> eligible rep /\ exists v, last_votes e !! rep = Some v /\ ~ newer v sequence h) /\
  (snd r = true <-> eligible rep /\ forall v, last_votes e !! rep = Some v ->
     newer v sequence h /\ vi_time v + cooldown (weight rep) <= steady_now) /\
  (snd r = false -> a' = a) /\
  (snd r = true -> exists e', elections a' !! i = Some e' /\
     last_votes e' = <[rep := mk_vote_info steady_now sequence h]> (last_votes e)) /\
  (forall j x, elections a !! j = Some x -> exists x', elections a' !! j = Some x' /\
     (j <> i -> last_votes x' = last_votes x) /\ el_blocks x' = el_blocks x /\
     (confirmed x = true -> confirmed x' = true /\ winner (status x') = winner (status x))).
Proof.
  unfold election_vote in E. rewrite He in E.
  assert (Hel : W.is_test_network || (online_stake / 1000 <? weight rep) = true <-> eligible rep)
    by (unfold eligible; rewrite orb_true_iff, Z.ltb_lt; done).
  destruct (W.is_test_network || _) eqn:El.
  2: { assert (N : ~ eligible rep) by (intros N; apply Hel in N; done). injection E as <- <-. cbn.
       split_and!; try done; try (split; [done | intros [? _]; done]). eauto 10. }
  pose proof (proj1 Hel eq_refl) as Hel'.
  set (d := match last_votes e !! rep with Some _ => _ | None => _ end) in *.
  assert (Hd : (fst d = true <-> exists v, last_votes e !! rep = Some v /\ ~ newer v sequence h) /\
    (snd d = true <-> forall v, last_votes e !! rep = Some v ->
      newer v sequence h /\ vi_time v + cooldown (weight rep) <= steady_now)).
  { subst d. destruct (last_votes e !! rep) as [v |]; [| split; [split; [done | intros (v & Hv & _); done] | split; [intros _ v Hv; done | done]]].
    assert (Hn : (vi_sequence v <? sequence) || ((vi_sequence v =? sequence) && Numbers.uint256_lt (vi_hash v) h) = true
      <-> newer v sequence h).
    { unfold newer. rewrite (hash_order (vi_hash v) h (Hw v eq_refl) Hh).
      rewrite orb_true_iff, andb_true_iff, !Z.ltb_lt, Z.eqb_eq. done. }
    clear E. destruct ((vi_sequence v <? sequence) || _); cbn [fst snd].
    - pose proof (proj1 Hn eq_refl) as N. split.
      + split; [done |]. intros (v' & [= <-] & N'). done.
      + rewrite Z.leb_le. split; [intros Ht v' [= <-]; split; [exact N | lia] |].
        intros H. destruct (H v eq_refl). lia.
    - assert (N : ~ newer v sequence h) by (intros N; apply Hn in N; done). split.
      + split; [eauto | done].
      + split; [done |]. intros H. destruct (H v eq_refl). done. }
  clearbody d. destruct Hd as [Hr Hp].
  destruct (snd d) eqn:Ed.
  - set (e1 := set_last_votes e _) in *. set (a1 := put_election a i e1) in *.
    assert (Hi1 : elections a1 !! i = Some e1) by (cbn; apply lookup_insert_eq).
    destruct (if confirmed e then Some a1 else confirm_if_quorum a1 i) as [a2 |] eqn:E2; [| done].
    cbn in E. injection E as <- <-. rewrite Ed.
    assert (S : settled a1 a2).
    { destruct (confirmed e) eqn:Ec; [injection E2 as <-; reflexivity |].
      now apply (confirm_if_quorum_settled a1 a2 i e1). }
    split_and!; [rewrite Hr; tauto | split; [intros _; split; [exact Hel' | now apply Hp] | done] | done | |].
    + intros _. destruct (S i e1 Hi1) as (e' & He' & Ev & _). exists e'. split; [done |]. now rewrite Ev.
    + intros j x Hj. destruct (decide (j = i)) as [-> | Hne].
      * assert (x = e) as -> by congruence. destruct (S i e1 Hi1) as (e' & He' & Ev & Eb & Ec). exists e'. split_and!; done.
      * destruct (S j x) as (x' & Hx' & Ev & Eb & Ec); [cbn; now rewrite lookup_insert_ne |]. exists x'. split_and!; done.
  - injection E as <- <-. rewrite Ed.
    split_and!; [rewrite Hr; tauto | split; [done | intros [_ H]; now apply Hp] | done | done |]. eauto 10.
Qed.

End Rules.

(** ** Whom to ask *)

Lemma rotate_perm {A : Type} (p : A) (l : list A) : l <> [] -> default p (last l) :: removelast l ≡ₚ l.
Proof.
  intros Hl. destruct l as [| x l _] using rev_ind; [done |].
  rewrite last_snoc, removelast_last. cbn [from_option id]. apply Permutation_cons_append.
Qed.

Definition no_vote (votes : gmap Z vote_info) (p : peer_information) : bool :=
  match votes !! rep_account p with Some _ => false | None => true end.

Definition accounts_of (l : list peer_information) : gset Z := list_to_set (rep_account <$> l).

Lemma filter_perm {A : Type} (f : A -> bool) (l l' : list A) : l ≡ₚ l' -> List.filter f l ≡ₚ List.filter f l'.
Proof.
  induction 1 as [| x l l' _ IH | x y l | l l' l'' _ IH1 _ IH2]; cbn [List.filter].
  - done.
  - destruct (f x); [now constructor | exact IH].
  - destruct (f x), (f y); try done. apply Permutation_swap.
  - now rewrite IH1.
Qed.

Lemma sum_over_nil (f : Z -> Z) (s : gset Z) : sum_over f (accounts_of [] ∖ s) = 0.
Proof.
  replace (accounts_of [] ∖ s) with (∅ : gset Z) by (unfold accounts_of; set_solver). unfold sum_over.
  now rewrite elements_empty.
Qed.

Lemma rep_loop_spec (votes : gmap Z vote_info) (f : Z -> Z) (fuel : nat) :
  forall (front rest : list peer_information) (probable : list Z) (total : Z), (length rest <= fuel)%nat ->
  (forall p, p ∈ rest -> rep_weight p = f (rep_account p)) ->
  fst (rep_loop fuel votes front rest probable (u128 total)) ≡ₚ front ++ List.filter (no_vote votes) rest /\
  snd (rep_loop fuel votes front rest probable (u128 total)) =
    u128 (total + sum_over f (accounts_of rest ∖ list_to_set probable)).
Proof.
  induction fuel as [| n IH]; intros front [| p tl] probable total Hl Hf; cbn [rep_loop length] in *; try lia.
  1, 2: split; [cbn; now rewrite app_nil_r | cbn [snd]; now rewrite sum_over_nil, Z.add_0_r].
  set (seen := bool_decide (rep_account p ∈ probable)).
  set (probable' := if seen then probable else rep_account p :: probable).
  assert (Ht : (if seen then u128 total else u128 (u128 total + rep_weight p)) =
    u128 (total + if seen then 0 else f (rep_account p))).
  { destruct seen; [now rewrite Z.add_0_r |]. unfold u128. rewrite Zplus_mod_idemp_l, Hf by set_solver. done. }
  rewrite Ht.
  assert (Hsum : forall l, l ≡ₚ tl ->
    total + (if seen then 0 else f (rep_account p)) + sum_over f (accounts_of l ∖ list_to_set probable') =
    total + sum_over f (accounts_of (p :: tl) ∖ list_to_set probable)).
  { intros l Hp. assert (Ea : accounts_of l = accounts_of tl) by (unfold accounts_of; now rewrite Hp). rewrite Ea.
    unfold accounts_of. cbn [fmap list_fmap list_to_set]. subst probable' seen.
    case_bool_decide as Hin; cbn [list_to_set].
    - rewrite Z.add_0_r. do 2 f_equal. set_solver.
    - rewrite <- Z.add_assoc. f_equal. set (A := list_to_set (rep_account <$> tl)). set (P := list_to_set probable).
      replace (({[rep_account p]} ∪ A) ∖ P) with ({[rep_account p]} ∪ (A ∖ ({[rep_account p]} ∪ P)) : gset Z).
      + rewrite sum_over_insert by set_solver. done.
      + apply set_eq. intros x. rewrite !elem_of_union, !elem_of_difference, !elem_of_union, !elem_of_singleton.
        subst P. rewrite elem_of_list_to_set. destruct (decide (x = rep_account p)) as [-> |]; naive_solver. }
  assert (Hnv : no_vote votes p = match votes !! rep_account p with Some _ => false | None => true end) by done.
  cbn [List.filter]. rewrite Hnv. clear Hnv. destruct (votes !! rep_account p) as [v |] eqn:Ev.
  - destruct tl as [| q tl'] eqn:Etl.
    + cbn [fst snd List.filter]. rewrite app_nil_r. split; [done |]. rewrite <- (Hsum []) by done.
      now rewrite sum_over_nil, Z.add_0_r.
    + rewrite <- Etl in *. assert (Hp : default p (last tl) :: removelast tl ≡ₚ tl) by (apply rotate_perm; congruence).
      destruct (IH front (default p (last tl) :: removelast tl) probable'
        (total + if seen then 0 else f (rep_account p))) as [H1 H2].
      * rewrite (Permutation_length Hp). lia.
      * intros x Hx. rewrite Hp in Hx. apply Hf. set_solver.
      * rewrite H1, H2, (Hsum _ Hp), (filter_perm _ _ _ Hp). done.
  - destruct (IH (front ++ [p]) tl probable' (total + if seen then 0 else f (rep_account p))) as [H1 H2].
    + lia.
    + intros x Hx. apply Hf. set_solver.
    + rewrite H1, H2, (Hsum tl) by done. rewrite <- app_assoc. done.
Qed.

(** The pass over the representatives, which removes elements of the vector it
    walks over by swapping in the last, asks exactly those that have not voted, and
    weighs every representative once however many peers claim it. *)
Theorem rep_loop_asks (votes : gmap Z vote_info) (reps : list peer_information) (f : Z -> Z)
  (Hf : forall p, p ∈ reps -> rep_weight p = f (rep_account p)) :
  fst (rep_loop (length reps) votes [] reps [] 0) ≡ₚ List.filter (no_vote votes) reps /\
  snd (rep_loop (length reps) votes [] reps [] 0) = u128 (sum_over f (accounts_of reps)).
Proof.
  destruct (rep_loop_spec votes f (length reps) [] reps [] 0 (Nat.le_refl _) Hf) as [H1 H2].
  change (u128 0) with 0 in H1, H2. split; [exact H1 |]. rewrite H2. f_equal. rewrite Z.add_0_l. f_equal. set_solver.
Qed.

(** ** Concrete elections *)

Definition demo_work : W.WorkEnv :=
  {| W.work_value := fun _ _ => 18446744073709551615; W.is_test_network := false |}.
Definition demo_config : Config :=
  {| online_weight_minimum := 10; online_weight_quorum := 50; not_an_account := 999; is_live_network := true |}.
Definition demo_order : Iteration := {| iterate := map_to_list; iterate_perm := fun m => Permutation_refl _ |}.

#[local] Existing Instance LedgerTheorems.LedgerTheorems.demo_env.
#[local] Existing Instance demo_work.
#[local] Existing Instance demo_config.
#[local] Existing Instance demo_order.

Import LedgerTheorems.LedgerTheorems.

(** At the given time, four representatives of weight 30 and one of 60; half of the
    online stake is 50. *)
Definition demo_view (time : Z) : VoteEnv :=
  {| weight := fun rep => if rep =? 60 then 60 else if (1 <=? rep) && (rep <=? 4) then 30 else 0;
     ve_store := demo_sent; online_stake := 100; steady_now := time; system_now := time;
     representatives := [mk_peer 1 60 60; mk_peer 2 1 30; mk_peer 3 60 60]; list_vector := [] |}.

Definition demo_ballot (rep sequence : Z) (b : block) : event :=
  ev_vote (V.mk_vote sequence [V.vote_full b] rep 0).

Definition state_of (es : list (VoteEnv * event)) : system :=
  match run_events initial_system es with ok s => s | _ => initial_system end.
Definition election_of (es : list (VoteEnv * event)) (i : nat) : option election :=
  elections (sys_active (state_of es)) !! i.

(** Two blocks of one root; then the representatives 1 and 3 for the first, 2 and 4
    for the second. *)
Definition demo_tie : list (VoteEnv * event) :=
  map (pair (demo_view 0)) [ev_start demo_send; ev_publish demo_fork; demo_ballot 1 1 demo_send;
    demo_ballot 2 1 demo_fork; demo_ballot 3 1 demo_send; demo_ballot 4 1 demo_fork].

(** A tie confirms.  The tally is a map keyed by weight, so of two blocks of equal
    weight it keeps one, the second place is empty, and the difference to it is the
    whole weight: with 60 against 30 and [delta] 50 the election is open, and the vote
    that makes it 60 against 60 confirms it. *)
Theorem tie_confirms :
  run_events initial_system demo_tie = ok (state_of demo_tie) /\
  (exists e, election_of (removelast demo_tie) 0 = Some e /\ confirmed e = false) /\
  exists e, election_of demo_tie 0 = Some e /\ confirmed e = true /\
    @support (demo_view 0) (last_votes e) (hash demo_send) = 60 /\
    @support (demo_view 0) (last_votes e) (hash demo_fork) = 60 /\ @delta demo_config (demo_view 0) = 50.
Proof.
  split; [vm_compute; reflexivity |]. split.
  - eexists. split; [vm_compute; reflexivity |]. reflexivity.
  - eexists. split; [vm_compute; reflexivity |]. split_and!; vm_compute; reflexivity.
Qed.

(** A confirmed election; then its representative votes for a block that arrives after. *)
Definition demo_switch : list (VoteEnv * event) :=
  [(demo_view 0, ev_start demo_send); (demo_view 0, demo_ballot 60 1 demo_send);
   (demo_view 100, demo_ballot 60 2 demo_fork); (demo_view 100, ev_publish demo_fork)].

(** A publication can replace the winner of a confirmed election: [vote] looks
    at [confirmed] before it counts, [publish] does not, so the other block is forced
    into the ledger although the first was handed over as confirmed, and it is never
    handed over itself. *)
Theorem confirmed_winner_replaced :
  (exists e, election_of (firstn 2 demo_switch) 0 = Some e /\ confirmed e = true /\ winner (status e) = demo_send) /\
  (exists e, election_of demo_switch 0 = Some e /\ confirmed e = true /\ winner (status e) = demo_fork) /\
  List.In (process_confirmed 0 demo_send) (log (sys_active (state_of demo_switch))) /\
  List.In (block_force demo_fork) (log (sys_active (state_of demo_switch))) /\
  confirmations 0 (log (sys_active (state_of demo_switch))) = 1%nat.
Proof.
  split; [eexists; split; [vm_compute; reflexivity |]; split; vm_compute; reflexivity |].
  split; [eexists; split; [vm_compute; reflexivity |]; split; vm_compute; reflexivity |].
  split_and!; vm_compute; tauto.
Qed.

(** A confirmed election that the second pass removes. *)
Definition demo_end : list (VoteEnv * event) :=
  map (pair (demo_view 0)) [ev_start demo_send; demo_ballot 60 1 demo_send; ev_scan; ev_finish; ev_scan].

(** An election that is erased and started again, and a vote by hash. *)
Definition demo_restart : list (VoteEnv * event) :=
  map (pair (demo_view 0)) [ev_start demo_send; ev_erase demo_send; ev_start demo_send;
    ev_vote (V.mk_vote 1 [V.vote_hash_only (hash demo_send)] 60 0)].

(** Erasing an election is unsafe.  Between the two parts of a pass it takes away
    the root that the second part asserts to be there; at any time it leaves the
    blocks in the index, so that the votes by hash go to the erased election and not
    to the one that was started in its place. *)
Theorem erase_unsafe :
  run_events initial_system (demo_end ++ [(demo_view 0, ev_finish)]) = ok (state_of (demo_end ++ [(demo_view 0, ev_finish)])) /\
  run_events initial_system (demo_end ++ [(demo_view 0, ev_erase demo_fork); (demo_view 0, ev_finish)]) =
    assertion_failed /\
  (exists old new, election_of demo_restart 0 = Some old /\ election_of demo_restart 1 = Some new /\
    confirmed old = true /\ confirmed new = false /\
    map ci_election (roots (sys_active (state_of demo_restart))) = [1%nat]).
Proof.
  split; [vm_compute; reflexivity |]. split; [vm_compute; reflexivity |].
  do 2 eexists. split; [vm_compute; reflexivity |]. split; [vm_compute; reflexivity |].
  split_and!; vm_compute; reflexivity.
Qed.

(** ** Applying the theorems *)

Definition demo_universe (b : block) : Prop := List.In b [demo_genesis; demo_send; demo_fork].

Lemma demo_hash_root (b b' : block) : demo_universe b -> demo_universe b' -> hash b = hash b' -> root_of b = root_of b'.
Proof.
  intros H1 H2. cbn in H1, H2. destruct_or! H1; destruct_or! H2; try done; subst b b'; try (intros _; reflexivity);
    intros E; exfalso; revert E; vm_compute; discriminate.
Qed.

Lemma demo_universe_word (b : block) : demo_universe b -> word 256 (previous b).
Proof. intros H. cbn in H. destruct_or! H; try done; subst b; vm_compute; split; [discriminate | reflexivity | discriminate | reflexivity | discriminate | reflexivity]. Qed.

Lemma stored_block (s : store) (h : Z) (b : block) : block_get s h = Some b ->
  List.In b (map (fun p => fst (snd p)) (map_to_list (Store.blocks s))).
Proof.
  unfold block_get. destruct (block_get_full s h) as [x |] eqn:Ex; [| discriminate]. intros [= <-].
  destruct (get_inv _ _ _ Ex) as [d Hd]. unfold found in Hd. apply elem_of_map_to_list, list_elem_of_In in Hd.
  exact (List.in_map (fun p => fst (snd p)) _ _ Hd).
Qed.

Lemma demo_view_ok (time : Z) : env_ok demo_universe (demo_view time).
Proof.
  split; [exact demo_sent_inv |]. intros h b Hb. split; [| reflexivity]. apply stored_block in Hb.
  assert (E : forallb (fun c => blocks_equal c demo_genesis || blocks_equal c demo_send)
    (map (fun p => fst (snd p)) (map_to_list (Store.blocks demo_sent))) = true) by (vm_compute; reflexivity).
  rewrite forallb_forall in E. apply E in Hb.
  apply orb_true_iff in Hb as [Hb | Hb]; apply blocks_equal_spec in Hb; rewrite Hb; cbn; tauto.
Qed.

Lemma fair_static `{LE : Env, WE : W.WorkEnv, IT : Iteration, CF : Config} (U : block -> Prop)
    (es : list (VoteEnv * event)) :
  Forall (fun p => env_ok U p.1 /\ forall s, event_fair U s p.2) es -> forall s, fair U s es.
Proof.
  induction 1 as [| [env x] es [H1 H2] _ IH]; intros s; cbn [fair]; [done |]. split; [exact H1 |]. split; [apply H2 |].
  destruct (event_step env s x); auto.
Qed.

Definition demo_run : list (VoteEnv * event) :=
  demo_tie ++ [(demo_view 0, ev_scan); (demo_view 0, ev_finish); (demo_view 0, ev_scan); (demo_view 0, ev_finish)].


(** An election in which the representative of weight 60 has voted and nothing was
    counted yet. *)
Definition demo_open : active := sys_active (state_of [(demo_view 0, ev_start demo_send)]).
Definition demo_election : election :=
  @set_last_votes (@new_election demo_env demo_config (demo_view 0) demo_send)
    {[ 999 := mk_vote_info 0 0 (hash demo_send); 60 := mk_vote_info 0 1 (hash demo_send) ]}.
Definition demo_counted : active := put_election demo_open 0 demo_election.
Definition demo_confirmed : active :=
  match @confirm_if_quorum _ _ _ (demo_view 0) demo_counted 0 with Some a => a | None => demo_open end.
Definition demo_confirmed_election : election :=
  match elections demo_confirmed !! 0%nat with Some e => e | None => demo_election end.


Definition demo_ballots : option ((bool * bool) * active) :=
  @election_vote _ _ _ _ (demo_view 0) demo_open 0 60 1 (hash demo_send).

Lemma vote_rules_witness : exists r a', demo_ballots = Some (r, a') /\ snd r = true /\
  exists e', elections a' !! 0%nat = Some e' /\ last_votes e' !! 60 = Some (mk_vote_info 0 1 (hash demo_send)).
Proof.
  destruct demo_ballots as [[r a'] |] eqn:E; [| vm_compute in E; discriminate]. exists r, a'. split; [reflexivity |].
  assert (Hr : snd r = true).
  { assert (Eb : option_map (fun x => snd (fst x)) demo_ballots = Some true) by (vm_compute; reflexivity).
    rewrite E in Eb. cbn [option_map fst] in Eb. congruence. }
  split; [exact Hr |].
  destruct (@vote_rules _ _ _ _ (demo_view 0) demo_open a' 0 (@new_election demo_env demo_config (demo_view 0) demo_send) 60 1 (hash demo_send) r)
    as (_ & _ & _ & H & _).
  - vm_compute. reflexivity.
  - vm_compute. split; [discriminate | reflexivity].
  - intros v Hv. vm_compute in Hv. discriminate.
  - exact E.
  - destruct (H Hr) as (e' & He' & Ev). exists e'. split; [exact He' |]. rewrite Ev. apply lookup_insert_eq.
Defined.

Lemma rep_loop_asks_witness :
  fst (rep_loop 3 {[ 1 := mk_vote_info 0 1 7 ]} [] (@representatives (demo_view 0)) [] 0) ≡ₚ
    [mk_peer 1 60 60; mk_peer 3 60 60].
Proof.
  destruct (rep_loop_asks {[ 1 := mk_vote_info 0 1 7 ]} (@representatives (demo_view 0))
    (fun a => if a =? 60 then 60 else 30)) as [H _].
  - intros p Hp. cbn in Hp. apply list_elem_of_In in Hp. cbn in Hp. destruct_or! Hp; try done; subst p; reflexivity.
  - exact H.
Defined.

End ElectionTheorems.
