(* ===== verification/Caches.v ===== *)
(** * Caches ordered by time

    Models of the three containers of the node that keep entries by time and by
    hash: [nano::votes_cache] ([nano/node/voting.cpp]), [nano::gap_cache] and
    [nano::block_arrival] ([nano/node/node.cpp], [node.hpp]).  Each is a
    [boost::multi_index_container] with an [ordered_non_unique] index on a time and
    a [hashed_unique] index on a hash; [TimeIndex] models it as the list in the
    order of the first index. *)

From stdpp Require Import base gmap list sorting.
From Stdlib Require Import ZArith Lia.
From S2P Require Import Prelude Blocks Numbers Store Ledger Work Votes.
Local Open Scope Z_scope.

(** ** The container *)

Module TimeIndex.

Class Timed (A : Type) := { time : A -> Z; key : A -> Z }.

Section Container.

Context {A : Type} `{Timed A}.

Definition find (k : Z) (l : list A) : option A := List.find (fun x => key x =? k) l.

(** Insertion in the ordered index: after the entries of the same time. *)
Fixpoint link (x : A) (l : list A) : list A :=
  match l with
  | [] => [x]
  | y :: l' => if time x <? time y then x :: l else y :: link x l'
  end.

(** Refused if the key is there; was it inserted. *)
Definition insert (x : A) (l : list A) : bool * list A :=
  match find (key x) l with
  | Some _ => (false, l)
  | None => (true, link x l)
  end.

Definition erase (k : Z) (l : list A) : list A := List.filter (fun x => negb (key x =? k)) l.

(** [erase (begin ())]. *)
Definition pop (l : list A) : list A := tl l.

(** The entry stays where it is if the order allows it. *)
Fixpoint replace (before : option Z) (k : Z) (f : A -> A) (l : list A) : option (list A) :=
  match l with
  | [] => None
  | x :: l' =>
      if key x =? k then
        let low := match before with Some t => time (f x) <? t | None => false end in
        let high := match l' with y :: _ => time y <? time (f x) | [] => false end in
        if low || high then None else Some (f x :: l')
      else option_map (cons x) (replace (Some (time x)) k f l')
  end.

Definition modify (k : Z) (f : A -> A) (l : list A) : list A :=
  match find k l with
  | Some x => match replace None k f l with Some l' => l' | None => link (f x) (erase k l) end
  | None => l
  end.

(** ** Its invariant *)

Definition before (x y : A) : Prop := time x <= time y.

Definition ok (l : list A) : Prop := StronglySorted before l /\ NoDup (map key l).

Lemma link_perm (x : A) (l : list A) : link x l ≡ₚ x :: l.
Proof.
  induction l as [| y l IH]; cbn; [done |]. destruct (time x <? time y); [done |].
  rewrite IH. constructor.
Qed.

Lemma link_sorted (x : A) (l : list A) : StronglySorted before l -> StronglySorted before (link x l).
Proof.
  induction l as [| y l IH]; cbn; intros Hs; [repeat constructor |].
  apply StronglySorted_inv in Hs as [Hs Hy].
  destruct (Z.ltb_spec (time x) (time y)) as [L | L].
  - constructor; [now constructor |]. constructor; [unfold before; lia |].
    eapply Forall_impl; [exact Hy |]. unfold before. intros; lia.
  - constructor; [now apply IH |]. rewrite link_perm. constructor; [unfold before; lia | done].
Qed.

(** A newest entry goes last. *)
Lemma link_last (x : A) (l : list A) : Forall (fun y => time y <= time x) l -> link x l = l ++ [x].
Proof.
  induction 1 as [| y l Hy _ IH]; cbn; [done |].
  destruct (Z.ltb_spec (time x) (time y)); [lia | now rewrite IH].
Qed.

Lemma find_None (k : Z) (l : list A) : find k l = None <-> k ∉ map key l.
Proof.
  induction l as [| y l IH]; cbn; [split; [intros _; apply not_elem_of_nil | done] |].
  rewrite not_elem_of_cons. destruct (Z.eqb_spec (key y) k) as [-> | N].
  - split; [done | intros [N _]; congruence].
  - fold (find k l). rewrite IH. naive_solver.
Qed.

Lemma find_Some (k : Z) (l : list A) (x : A) : find k l = Some x -> x ∈ l /\ key x = k.
Proof.
  intros E. apply List.find_some in E as [E K]. apply Z.eqb_eq in K. now rewrite list_elem_of_In.
Qed.

Lemma find_elem (l : list A) (x : A) : NoDup (map key l) -> x ∈ l -> find (key x) l = Some x.
Proof.
  induction l as [| y l IH]; cbn; intros N E; [now apply not_elem_of_nil in E |].
  apply NoDup_cons in N as [Ny N]. apply elem_of_cons in E as [-> | E]; [now rewrite Z.eqb_refl |].
  destruct (Z.eqb_spec (key y) (key x)) as [K | _]; [| now apply IH].
  destruct Ny. rewrite K. apply list_elem_of_fmap. eauto.
Qed.

(** What is found depends only on the entries. *)
Lemma find_perm (k : Z) (l l' : list A) : NoDup (map key l) -> l ≡ₚ l' -> find k l = find k l'.
Proof.
  intros N P. assert (N' : NoDup (map key l')) by now rewrite <- P.
  destruct (find k l) as [x |] eqn:E.
  - apply find_Some in E as [E <-]. symmetry. apply find_elem; [done |]. now rewrite <- P.
  - apply find_None in E. symmetry. apply find_None. now rewrite <- P.
Qed.

Lemma erase_elem (k : Z) (l : list A) (x : A) : x ∈ erase k l <-> x ∈ l /\ key x <> k.
Proof.
  unfold erase. rewrite !list_elem_of_In, filter_In, negb_true_iff, Z.eqb_neq. done.
Qed.

Lemma erase_notin (k : Z) (l : list A) : find k l = None -> erase k l = l.
Proof.
  induction l as [| y l IH]; cbn; [done |]. destruct (key y =? k); [done |]. cbn. intros E.
  f_equal. now apply IH.
Qed.

Lemma find_erase (k h : Z) (l : list A) : NoDup (map key l) ->
  find h (erase k l) = if h =? k then None else find h l.
Proof.
  intros N. destruct (Z.eqb_spec h k) as [-> | D].
  - apply find_None. intros (x & E & Hx)%list_elem_of_fmap. apply erase_elem in Hx as [_ K]. congruence.
  - clear N. induction l as [| y l IH]; cbn; [done |]. fold (erase k l).
    destruct (Z.eqb_spec (key y) k) as [K | K]; cbn; fold (find h l) (find h (erase k l)).
    + rewrite IH. now destruct (Z.eqb_spec (key y) h); [congruence |].
    + now rewrite IH.
Qed.

Lemma erase_sorted (k : Z) (l : list A) : StronglySorted before l -> StronglySorted before (erase k l).
Proof.
  induction 1 as [| y l Hs IH Hy]; cbn; [constructor |].
  destruct (negb (key y =? k)); [| done]. constructor; [done |].
  rewrite Forall_forall in *. intros z Hz. apply Hy. now apply erase_elem in Hz as [? _].
Qed.

Lemma erase_nodup (k : Z) (l : list A) : NoDup (map key l) -> NoDup (map key (erase k l)).
Proof.
  induction l as [| y l IH]; cbn; [done |]. intros [Ny N]%NoDup_cons.
  destruct (negb (key y =? k)); [| now apply IH]. cbn. constructor; [| now apply IH].
  rewrite list_elem_of_fmap in *. intros (x & E & Hx). apply Ny. exists x. split; [done |].
  now apply erase_elem in Hx as [? _].
Qed.

Lemma erase_ok (k : Z) (l : list A) : ok l -> ok (erase k l).
Proof. intros [S N]. split; [now apply erase_sorted | now apply erase_nodup]. Qed.

Lemma erase_length (k : Z) (l : list A) : (length (erase k l) <= length l)%nat.
Proof. unfold erase. induction l as [| y l IH]; cbn; [done |]. destruct (negb _); cbn; lia. Qed.

Lemma pop_ok (l : list A) : ok l -> ok (pop l).
Proof.
  intros [S N]. destruct l as [| x l]; [done |].
  apply StronglySorted_inv in S as [S _]. apply NoDup_cons in N as [_ N]. done.
Qed.

Lemma find_pop (k : Z) (x : A) (l : list A) :
  ok (x :: l) -> find k l = if key x =? k then None else find k (x :: l).
Proof.
  intros [_ N]. cbn in *. apply NoDup_cons in N as [N _].
  destruct (Z.eqb_spec (key x) k) as [<- | _]; [now apply find_None | done].
Qed.

Lemma link_ok (x : A) (l : list A) : ok l -> find (key x) l = None -> ok (link x l).
Proof.
  intros [S N] E. split; [now apply link_sorted |]. rewrite link_perm. cbn.
  constructor; [now apply find_None | done].
Qed.

Lemma find_link (k : Z) (x : A) (l : list A) :
  ok l -> find (key x) l = None ->
  find k (link x l) = if key x =? k then Some x else find k l.
Proof.
  intros O E. destruct (link_ok x l O E) as [_ N]. rewrite (find_perm k _ (x :: l) N (link_perm x l)). done.
Qed.

Lemma insert_ok (x : A) (l : list A) : ok l -> ok (snd (insert x l)).
Proof.
  intros O. unfold insert. destruct (find (key x) l) eqn:E; cbn; [done | now apply link_ok].
Qed.

(** Changing an entry: the entries are changed as a set, and stay in order. *)
Definition update (k : Z) (f : A -> A) (x : A) : A := if key x =? k then f x else x.

Lemma update_notin (k : Z) (f : A -> A) (l : list A) : find k l = None -> map (update k f) l = l.
Proof.
  induction l as [| y l IH]; cbn; [done |]. unfold update at 1.
  destruct (key y =? k); [done |]. intros E. now rewrite IH.
Qed.

Lemma replace_spec (k : Z) (f : A -> A) (l : list A) : forall b l',
  NoDup (map key l) -> StronglySorted before l ->
  match b with Some t => Forall (fun x => t <= time x) l | None => True end ->
  replace b k f l = Some l' ->
  l' = map (update k f) l /\ StronglySorted before l' /\
  match b with Some t => Forall (fun x => t <= time x) l' | None => True end.
Proof.
  induction l as [| x l IH]; cbn; intros b l' N S B E; [done |].
  apply NoDup_cons in N as [Nx N]. apply StronglySorted_inv in S as [S Sx]. unfold update at 1.
  destruct (Z.eqb_spec (key x) k) as [K | K].
  - destruct (_ || _) eqn:D; [done |]. apply orb_false_iff in D as [D1 D2]. simplify_eq.
    rewrite update_notin by now apply find_None. split; [done |].
    assert (F : Forall (before (f x)) l).
    { destruct l as [| y l]; [constructor |]. apply Z.ltb_ge in D2.
      apply StronglySorted_inv in S as [_ Sy]. constructor; [exact D2 |].
      eapply Forall_impl; [exact Sy |]. unfold before. intros; lia. }
    split; [now constructor |]. destruct b as [t |]; [| done].
    apply Forall_cons in B as [_ B]. constructor; [now apply Z.ltb_ge in D1 | done].
  - destruct (replace (Some (time x)) k f l) as [m |] eqn:E'; [| done]. cbn in E. simplify_eq.
    destruct (IH (Some (time x)) m N S Sx E') as (-> & Hs & Hb). split; [done |].
    split; [now constructor |]. destruct b as [t |]; [| done].
    apply Forall_cons in B as [B1 B2]. constructor; [done |].
    eapply Forall_impl; [exact Hb |]. cbn. intros; lia.
Qed.

Lemma update_erase (k : Z) (f : A -> A) (l : list A) (x : A) :
  NoDup (map key l) -> find k l = Some x -> map (update k f) l ≡ₚ f x :: erase k l.
Proof.
  induction l as [| y l IH]; cbn; [done |]. intros [Ny N]%NoDup_cons E. unfold update at 1.
  fold (erase k l). destruct (Z.eqb_spec (key y) k) as [K | K]; cbn.
  - simplify_eq. assert (E : find (key x) l = None) by now apply find_None.
    now rewrite update_notin, erase_notin.
  - rewrite (IH N E). constructor.
Qed.

Section Modify.

Context (k : Z) (f : A -> A) (Hf : forall x, key (f x) = key x).

Lemma update_keys (l : list A) : map key (map (update k f) l) = map key l.
Proof.
  rewrite map_map. apply map_ext. intros x. unfold update. destruct (key x =? k); [apply Hf | done].
Qed.

Lemma modify_perm (l : list A) : ok l -> modify k f l ≡ₚ map (update k f) l.
Proof.
  intros [S N]. unfold modify. destruct (find k l) as [x |] eqn:E.
  - destruct (replace None k f l) as [l' |] eqn:R.
    + now destruct (replace_spec k f l None l' N S I R) as [-> _].
    + rewrite link_perm. symmetry. now apply update_erase.
  - now rewrite update_notin.
Qed.

Lemma modify_ok (l : list A) : ok l -> ok (modify k f l).
Proof.
  intros O. split; [| rewrite (modify_perm l O), update_keys; apply O].
  destruct O as [S N]. unfold modify. destruct (find k l) as [x |] eqn:E; [| done].
  destruct (replace None k f l) as [l' |] eqn:R.
  - now destruct (replace_spec k f l None l' N S I R) as (_ & ? & _).
  - now apply link_sorted, erase_sorted.
Qed.

Lemma modify_length (l : list A) : ok l -> length (modify k f l) = length l.
Proof. intros O. rewrite (modify_perm l O). apply length_map. Qed.

Lemma find_modify (h : Z) (l : list A) :
  ok l -> find h (modify k f l) = if h =? k then f <$> find h l else find h l.
Proof.
  intros O. rewrite (find_perm h _ (map (update k f) l) (proj2 (modify_ok l O)) (modify_perm l O)).
  clear O. induction l as [| x l IH]; cbn; [now destruct (h =? k) |]. unfold update at 1 2.
  destruct (Z.eqb_spec (key x) k) as [K | K].
  - rewrite Hf, K. rewrite (Z.eqb_sym k h). destruct (Z.eqb_spec h k) as [-> | Hk]; [done |].
    fold (find h l) (find h (map (update k f) l)). rewrite IH. now destruct (Z.eqb_spec h k).
  - destruct (Z.eqb_spec (key x) h) as [<- | Hh]; [now destruct (Z.eqb_spec (key x) k) | exact IH].
Qed.

End Modify.

End Container.

#[global] Arguments modify_perm {A _} k f l.

End TimeIndex.

(** ** The cache of generated votes *)

Module VotesCache.
Import TimeIndex.
Module V := Votes.Votes.
Module W := Work.Work.

Record cached_votes := mk_cached { cv_time : Z; cv_hash : Z; cv_votes : list V.vote }.

#[global] Instance cached_timed : Timed cached_votes := { time := cv_time; key := cv_hash }.

Definition votes_cache := list cached_votes.

Definition push_vote (v : V.vote) (c : cached_votes) : cached_votes :=
  mk_cached (cv_time c) (cv_hash c) (cv_votes c ++ [v]).

Section Operations.

Context `{WE : W.WorkEnv}.

Definition max_cache : nat := if W.is_test_network then 2 else 1000.

(** [Clean old votes]: room is made for one more. *)
Definition evict (c : votes_cache) : votes_cache := if (max_cache <=? length c)%nat then pop c else c.

(** The body of the loop of [add], for a block that is a hash. *)
Definition add_hash (now : Z) (v : V.vote) (h : Z) (c : votes_cache) : votes_cache :=
  match find h c with
  | None => snd (insert (mk_cached now h [v]) (evict c))
  | Some _ => modify h (push_vote v) c
  end.

(** [votes_cache::add]; [true]: [boost::get] throws on a block that is not a hash,
    after the blocks before it.  [now i] is the clock at the i-th block. *)
Fixpoint add_blocks (now : nat -> Z) (v : V.vote) (l : list V.vote_block) (c : votes_cache)
    : bool * votes_cache :=
  match l with
  | [] => (false, c)
  | V.vote_full _ :: _ => (true, c)
  | V.vote_hash_only h :: l' => add_blocks (fun i => now (S i)) v l' (add_hash (now O) v h c)
  end.

Definition votes_add (now : nat -> Z) (v : V.vote) (c : votes_cache) : bool * votes_cache :=
  add_blocks now v (V.blocks v) c.

Definition votes_find (h : Z) (c : votes_cache) : list V.vote :=
  match find h c with Some x => cv_votes x | None => [] end.

Definition votes_remove (h : Z) (c : votes_cache) : votes_cache := erase h c.

(** *** Invariant: bounded, in order, without duplicates, every vote under a hash it
    votes for. *)
Definition entry_ok (x : cached_votes) : Prop :=
  cv_votes x <> [] /\ Forall (fun v => V.vote_hash_only (cv_hash x) ∈ V.blocks v) (cv_votes x).

Definition cache_ok (c : votes_cache) : Prop :=
  ok c /\ (length c <= max_cache)%nat /\ Forall entry_ok c.

Lemma max_cache_pos : (0 < max_cache)%nat.
Proof. unfold max_cache. destruct W.is_test_network; lia. Qed.

Lemma evict_ok (c : votes_cache) : cache_ok c -> cache_ok (evict c) /\ (length (evict c) < max_cache)%nat.
Proof.
  intros (O & L & F). unfold evict. destruct (Nat.leb_spec max_cache (length c)) as [G | G]; [| done].
  pose proof max_cache_pos. destruct c as [| x c]; cbn in *; [lia |].
  split; [| lia]. split; [now apply (pop_ok (x :: c)) |]. split; [lia |].
  now apply Forall_cons in F as [_ F].
Qed.

Lemma evict_find (h : Z) (c : votes_cache) : cache_ok c -> find h c = None -> find h (evict c) = None.
Proof.
  intros (O & _) E. unfold evict. destruct (_ <=? _)%nat; [| done].
  destruct c as [| x c]; [done |]. cbn [pop tl]. rewrite (find_pop h x c O), E. now destruct (_ =? _).
Qed.

Lemma add_hash_new (now : Z) (v : V.vote) (h : Z) (c : votes_cache) :
  cache_ok c -> find h c = None -> add_hash now v h c = link (mk_cached now h [v]) (evict c).
Proof.
  intros O E. pose proof (evict_find h c O E) as E'. unfold add_hash, insert. rewrite E.
  change (key _) with h. now rewrite E'.
Qed.

Lemma add_hash_ok (now : Z) (v : V.vote) (h : Z) (c : votes_cache) :
  cache_ok c -> V.vote_hash_only h ∈ V.blocks v -> cache_ok (add_hash now v h c).
Proof.
  intros O Hv. destruct (find h c) as [x |] eqn:E.
  - unfold add_hash. rewrite E. destruct O as (O & L & F).
    assert (K : forall y, key (push_vote v y) = key y) by done.
    split; [now apply modify_ok |]. rewrite modify_length by done. split; [done |].
    rewrite (modify_perm h (push_vote v) c O), Forall_map.
    eapply Forall_impl; [exact F |]. intros y [N Fy]. unfold update. cbn [key cached_timed].
    destruct (Z.eqb_spec (cv_hash y) h) as [K' |]; [| done]. split; cbn.
    + intros D. now apply app_eq_nil in D.
    + apply Forall_app. split; [done |]. constructor; [now rewrite K' | done].
  - rewrite add_hash_new by done. destruct (evict_ok c O) as [(O' & _ & F) L].
    split; [| split].
    + apply link_ok; [done |]. now apply evict_find.
    + rewrite link_perm. cbn. lia.
    + rewrite link_perm. constructor; [| done]. split; [done |]. now repeat constructor.
Qed.

Lemma add_blocks_ok (v : V.vote) (l : list V.vote_block) : forall now c,
  cache_ok c -> l ⊆ V.blocks v -> cache_ok (snd (add_blocks now v l c)).
Proof.
  induction l as [| [b | h] l IH]; cbn; intros now c O S; [done | done |].
  apply IH; [apply add_hash_ok; [done | set_solver] | set_solver].
Qed.

Lemma votes_remove_ok (h : Z) (c : votes_cache) : cache_ok c -> cache_ok (votes_remove h c).
Proof.
  intros (O & L & F). split; [now apply erase_ok |]. split.
  - pose proof (erase_length h c). unfold votes_remove. lia.
  - rewrite Forall_forall in *. intros x Hx. apply F. now apply erase_elem in Hx as [? _].
Qed.

(** What a lookup sees after one hash is added: the vote is appended under the
    hash, and the oldest entry goes if the hash is new and the cache is full. *)
Definition evicted (h : Z) (c : votes_cache) (h' : Z) : bool :=
  match find h c with
  | Some _ => false
  | None => (max_cache <=? length c)%nat && match c with x :: _ => cv_hash x =? h' | [] => false end
  end.

Lemma find_evict (h' : Z) (c : votes_cache) : cache_ok c ->
  votes_find h' (evict c) =
  if (max_cache <=? length c)%nat && match c with x :: _ => cv_hash x =? h' | [] => false end
  then [] else votes_find h' c.
Proof.
  intros (O & _). unfold evict, votes_find. destruct (_ <=? _)%nat; [| done].
  destruct c as [| x c]; [done |]. cbn [pop tl andb]. rewrite (find_pop h' x c O).
  change (key x) with (cv_hash x). now destruct (cv_hash x =? h').
Qed.

Lemma add_hash_find (now : Z) (v : V.vote) (h h' : Z) (c : votes_cache) : cache_ok c ->
  votes_find h' (add_hash now v h c) =
  if h' =? h then votes_find h c ++ [v]
  else if evicted h c h' then [] else votes_find h' c.
Proof.
  intros O. destruct (find h c) as [x |] eqn:E.
  - unfold votes_find, evicted, add_hash. rewrite E. rewrite find_modify by (done || apply O).
    destruct (Z.eqb_spec h' h) as [-> |]; [| done]. now rewrite E.
  - rewrite add_hash_new by done. unfold evicted. rewrite E.
    rewrite <- (find_evict h' c O). unfold votes_find. destruct (evict_ok c O) as [(O' & _) _].
    rewrite find_link by (done || now apply evict_find). change (key _) with h.
    rewrite (Z.eqb_sym h' h). destruct (Z.eqb_spec h h') as [<- |]; [now rewrite E | done].
Qed.

Lemma votes_add_throws (now : nat -> Z) (v : V.vote) (c : votes_cache) :
  fst (votes_add now v c) = true <-> exists b, V.vote_full b ∈ V.blocks v.
Proof.
  unfold votes_add. generalize (V.blocks v). intros l. revert now c.
  induction l as [| [b | h] l IH]; intros now c; cbn.
  - split; [done |]. intros [b Hb]. now apply not_elem_of_nil in Hb.
  - split; [| done]. intros _. exists b. now left.
  - rewrite IH. split; intros [b Hb]; exists b; [now right |].
    apply elem_of_cons in Hb as [D | Hb]; [discriminate D | done].
Qed.

Lemma votes_remove_find (h h' : Z) (c : votes_cache) : cache_ok c ->
  votes_find h' (votes_remove h c) = if h' =? h then [] else votes_find h' c.
Proof.
  intros (O & _). unfold votes_find, votes_remove. rewrite find_erase by apply O. now destruct (h' =? h).
Qed.

End Operations.

End VotesCache.

(** ** Blocks voted for that the node does not have *)

Module GapCache.
Import TimeIndex.
Module V := Votes.Votes.
Module W := Work.Work.

Record gap_information := mk_gap { arrival : Z; gap_hash : Z; voters : gset Z }.

#[global] Instance gap_timed : Timed gap_information := { time := arrival; key := gap_hash }.

Definition gap_cache := list gap_information.

Definition max : nat := 256.

Definition set_arrival (t : Z) (g : gap_information) : gap_information := mk_gap t (gap_hash g) (voters g).
Definition add_voter (a : Z) (g : gap_information) : gap_information :=
  mk_gap (arrival g) (gap_hash g) ({[ a ]} ∪ voters g).

Definition gap_add (h t : Z) (c : gap_cache) : gap_cache :=
  match find h c with
  | Some _ => modify h (set_arrival t) c
  | None =>
      let c := snd (insert (mk_gap t h ∅) c) in
      if (max <? length c)%nat then pop c else c
  end.

Definition gap_erase (h : Z) (c : gap_cache) : gap_cache := erase h c.

(** What the cache reads of the node. *)
Record gap_env := mk_gap_env {
  g_weight : Z -> Z;             (* [ledger.weight] *)
  g_minimum : Z;                 (* [config.online_weight_minimum] *)
  g_online_stake : Z;            (* [online_reps.online_stake] *)
  g_fraction : Z;                (* [config.bootstrap_fraction_numerator] *)
  disable_lazy_bootstrap : bool;
  disable_legacy_bootstrap : bool;
  g_now : Z }.                   (* the clock, in milliseconds *)

Definition bootstrap_threshold (E : gap_env) : Z := u128 (g_online_stake E / 256 * g_fraction E).

Definition gap_tally (E : gap_env) (s : gset Z) : Z := set_fold (fun a n => u128 (n + g_weight E a)) 0 s.

Definition start_bootstrap (E : gap_env) (tally : Z) : bool :=
  if negb (disable_lazy_bootstrap E) then g_minimum E <=? tally
  else negb (disable_legacy_bootstrap E) && (bootstrap_threshold E <? tally).

Section Votes.

Context `{BH : Block.BlockHash, WE : W.WorkEnv}.

(** The body of the loop of [vote]: the cache, and the alarm that is set, by its
    time and its hash. *)
Definition gap_vote_hash (E : gap_env) (a h : Z) (c : gap_cache) : gap_cache * list (Z * Z) :=
  match find h c with
  | Some g =>
      let is_new := bool_decide (a ∉ voters g) in
      let g := add_voter a g in
      let c := modify h (add_voter a) c in
      if is_new && start_bootstrap E (gap_tally E (voters g))
      then (c, [(g_now E + (if W.is_test_network then 5 else 5 * 1000), h)])
      else (c, [])
  | None => (c, [])
  end.

Fixpoint gap_vote_hashes (E : gap_env) (a : Z) (l : list Z) (c : gap_cache) : gap_cache * list (Z * Z) :=
  match l with
  | [] => (c, [])
  | h :: l' =>
      let (c, x) := gap_vote_hash E a h c in
      let (c, y) := gap_vote_hashes E a l' c in
      (c, x ++ y)
  end.

Definition gap_vote (E : gap_env) (v : V.vote) (c : gap_cache) : gap_cache * list (Z * Z) :=
  gap_vote_hashes E (V.vote_account v) (map V.as_hash (V.blocks v)) c.

End Votes.

(** What the alarm does when it goes off. *)
Inductive bootstrap_request := bootstrap_lazy (h : Z) | bootstrap.

Definition gap_alarm (E : gap_env) (block_exists : bool) (h : Z) : option bootstrap_request :=
  if block_exists then None
  else if negb (disable_lazy_bootstrap E) then Some (bootstrap_lazy h)
  else if negb (disable_legacy_bootstrap E) then Some bootstrap
  else None.

(** *** The tally is the weight of the voters, modulo 2^128. *)
Definition weight_of (w : Z -> Z) (s : gset Z) : Z := set_fold (fun a n => n + w a) 0 s.

Lemma gap_tally_spec (E : gap_env) (s : gset Z) : gap_tally E s = u128 (weight_of (g_weight E) s).
Proof.
  unfold gap_tally, weight_of, set_fold. cbn. generalize (elements s). intros l.
  assert (G : forall n, u128 (foldr (fun a n => n + g_weight E a) n l) =
    foldr (fun a n => u128 (n + g_weight E a)) (u128 n) l).
  { intros n. induction l as [| a l IH]; cbn; [done |]. rewrite <- IH. unfold u128.
    now rewrite Zplus_mod_idemp_l. }
  symmetry. apply (G 0).
Qed.

(** *** Invariant and runs *)

Section Runs.

Context `{BH : Block.BlockHash, WE : W.WorkEnv}.

Inductive gap_event :=
| ev_add (h t : Z)
| ev_vote (E : gap_env) (v : V.vote)
| ev_erase (h : Z).

Definition gap_step (c : gap_cache) (e : gap_event) : gap_cache * list (Z * Z) :=
  match e with
  | ev_add h t => (gap_add h t c, [])
  | ev_vote E v => gap_vote E v c
  | ev_erase h => (gap_erase h c, [])
  end.

Definition gap_run (l : list gap_event) (c : gap_cache) : gap_cache :=
  fold_left (fun c e => fst (gap_step c e)) l c.

(** The account voted for the hash in one of the events. *)
Definition voted (l : list gap_event) (h a : Z) : Prop :=
  exists E v, ev_vote E v ∈ l /\ V.vote_account v = a /\ h ∈ map V.as_hash (V.blocks v).

(** In order, without duplicates, at most [max] entries, whose voters voted. *)
Definition gap_ok (P : Z -> Z -> Prop) (c : gap_cache) : Prop :=
  ok c /\ (length c <= max)%nat /\ forall g a, g ∈ c -> a ∈ voters g -> P (gap_hash g) a.

Lemma gap_modify_ok (P : Z -> Z -> Prop) (h : Z) (f : gap_information -> gap_information) (c : gap_cache) :
  (forall g, gap_hash (f g) = gap_hash g) ->
  (forall g a, gap_hash g = h -> a ∈ voters (f g) -> a ∈ voters g \/ P h a) ->
  gap_ok P c -> gap_ok P (modify h f c).
Proof.
  intros K F (O & L & V). split; [now apply modify_ok |]. split; [now rewrite modify_length |].
  intros g a Hg Ha. rewrite (modify_perm h f c O) in Hg.
  apply list_elem_of_fmap in Hg as (g' & -> & Hg'). unfold update in *. change (key g') with (gap_hash g') in *.
  destruct (Z.eqb_spec (gap_hash g') h) as [E | E]; [| now apply V].
  rewrite K. destruct (F g' a E Ha) as [Ha' | Ha']; [now apply V | now rewrite E].
Qed.

Lemma gap_sub_ok (P : Z -> Z -> Prop) (c c' : gap_cache) :
  gap_ok P c -> ok c' -> (length c' <= length c)%nat -> (forall g, g ∈ c' -> g ∈ c) -> gap_ok P c'.
Proof. intros (O & L & V) O' L' S. split; [done |]. split; [lia |]. intros g a Hg. apply V. now apply S. Qed.

Lemma gap_add_ok (P : Z -> Z -> Prop) (h t : Z) (c : gap_cache) : gap_ok P c -> gap_ok P (gap_add h t c).
Proof.
  intros O. unfold gap_add. destruct (find h c) as [g |] eqn:E.
  - apply gap_modify_ok; [done | | done]. intros g' a _ Ha. now left.
  - destruct O as (O & L & V). unfold insert. change (key _) with h. rewrite E. cbn [snd].
    pose proof (link_ok (mk_gap t h ∅) c O E) as O'. pose proof (link_perm (mk_gap t h ∅) c) as HP.
    assert (V' : forall g a, g ∈ link (mk_gap t h ∅) c -> a ∈ voters g -> P (gap_hash g) a).
    { intros g a Hg Ha. rewrite HP in Hg. apply elem_of_cons in Hg as [-> | Hg]; [set_solver | now apply V]. }
    apply Permutation_length in HP. cbn in HP. destruct (Nat.ltb_spec max (length (link (mk_gap t h ∅) c))) as [G | G].
    + split; [now apply pop_ok |]. destruct (link _ c) as [| x m]; cbn in *; [lia |].
      split; [lia |]. intros g a Hg. apply V'. now right.
    + split; [done |]. split; [lia | done].
Qed.

Lemma gap_vote_ok (P : Z -> Z -> Prop) (E : gap_env) (a : Z) (l : list Z) : forall c,
  (forall h, h ∈ l -> P h a) -> gap_ok P c -> gap_ok P (fst (gap_vote_hashes E a l c)).
Proof.
  induction l as [| h l IH]; cbn; intros c HP O; [done |].
  assert (O' : gap_ok P (fst (gap_vote_hash E a h c))).
  { unfold gap_vote_hash. destruct (find h c) as [g |]; [| done].
    assert (gap_ok P (modify h (add_voter a) c)).
    { apply gap_modify_ok; [done | | done]. intros g' b _ Hb. cbn in Hb.
      apply elem_of_union in Hb as [Hb | Hb]; [right | now left].
      apply elem_of_singleton in Hb as ->. apply HP. now left. }
    now destruct (_ && _). }
  destruct (gap_vote_hash E a h c) as [c' x]. specialize (IH c' (fun k Hk => HP k (list_elem_of_further _ _ _ Hk)) O').
  now destruct (gap_vote_hashes E a l c').
Qed.

Lemma gap_step_ok (P : Z -> Z -> Prop) (c : gap_cache) (e : gap_event) :
  (forall E v h, e = ev_vote E v -> h ∈ map V.as_hash (V.blocks v) -> P h (V.vote_account v)) ->
  gap_ok P c -> gap_ok P (fst (gap_step c e)).
Proof.
  intros HP O. destruct e as [h t | E v | h]; cbn.
  - now apply gap_add_ok.
  - apply gap_vote_ok; [| done]. intros h Hh. now apply (HP E v h).
  - apply (gap_sub_ok P c); [done | now apply erase_ok, O | apply erase_length |].
    intros g Hg. now apply erase_elem in Hg as [? _].
Qed.

Lemma gap_run_ok (l : list gap_event) : gap_ok (voted l) (gap_run l []).
Proof.
  assert (G : forall l0 l c, gap_ok (voted l0) c -> (forall e, e ∈ l -> e ∈ l0) -> gap_ok (voted l0) (gap_run l c)).
  { intros l0 l'. induction l' as [| e l' IH]; intros c O S; [done |].
    apply IH; [| intros x Hx; apply S; now right]. apply gap_step_ok; [| done].
    intros E v h -> Hh. exists E, v. split; [apply S; now left | done]. }
  apply G; [| done]. split; [split; constructor |]. split; [cbn; lia |]. intros g a Hg. now apply not_elem_of_nil in Hg.
Qed.

(** An alarm for a hash: its entry has a new voter, and the tally is enough. *)
Lemma gap_alarm_cause (P : Z -> Z -> Prop) (E : gap_env) (a : Z) (l : list Z) (t h : Z) : forall c,
  (forall h, h ∈ l -> P h a) -> gap_ok P c -> (t, h) ∈ snd (gap_vote_hashes E a l c) ->
  exists s : gset Z, (forall b, b ∈ s -> P h b) /\ a ∈ s /\ start_bootstrap E (gap_tally E s) = true.
Proof.
  induction l as [| k l IH]; cbn; intros c HP O Ht; [now apply not_elem_of_nil in Ht |].
  pose proof (gap_vote_ok P E a [k] c (fun x Hx => HP x ltac:(set_solver)) O) as O'. cbn in O'.
  destruct (gap_vote_hash E a k c) as [c' x] eqn:Ek. cbn in O'.
  destruct (gap_vote_hashes E a l c') as [c'' y] eqn:El. cbn in Ht. apply elem_of_app in Ht as [Ht | Ht].
  - clear O'. unfold gap_vote_hash in Ek. destruct (find k c) as [g |] eqn:Eg; [| simplify_eq; now apply not_elem_of_nil in Ht].
    destruct (_ && _) eqn:D; simplify_eq; [| now apply not_elem_of_nil in Ht].
    apply list_elem_of_singleton in Ht. simplify_eq. apply andb_true_iff in D as [_ D].
    apply find_Some in Eg as [Eg Kg]. exists (voters (add_voter a g)). split; [| split; [set_solver | done]].
    intros b Hb. cbn in Hb. apply elem_of_union in Hb as [Hb | Hb].
    + apply elem_of_singleton in Hb as ->. apply HP. now left.
    + change (key g) with (gap_hash g) in Kg. rewrite <- Kg. destruct O as (_ & _ & V). now apply V.
  - apply (IH c'); [intros; apply HP; now right | | now rewrite El]. exact O'.
Qed.

End Runs.

End GapCache.

(** ** Blocks that arrived in a datagram *)

Module BlockArrival.
Import TimeIndex.

Record block_arrival_info := mk_arrival { ba_arrival : Z; ba_hash : Z }.

#[global] Instance arrival_timed : Timed block_arrival_info := { time := ba_arrival; key := ba_hash }.

Definition arrival_size_min : nat := 8 * 1024.

(** In milliseconds, as the clock. *)
Definition arrival_time_min : Z := 300 * 1000.

(** [true]: the block is there already. *)
Definition arrival_add (now h : Z) (l : list block_arrival_info) : bool * list block_arrival_info :=
  let (inserted, l) := insert (mk_arrival now h) l in (negb inserted, l).

(** The loop of [recent]. *)
Fixpoint expire (now : Z) (l : list block_arrival_info) : list block_arrival_info :=
  match l with
  | [] => []
  | x :: l' =>
      if (arrival_size_min <? length l)%nat && (ba_arrival x + arrival_time_min <? now) then expire now l' else l
  end.

Definition arrival_recent (now h : Z) (l : list block_arrival_info) : bool * list block_arrival_info :=
  let l := expire now l in (if find h l then true else false, l).

(** The loop drops a prefix, whose entries are all too old. *)
Lemma expire_spec (now : Z) (l : list block_arrival_info) :
  exists d, l = d ++ expire now l /\ Forall (fun x => ba_arrival x + arrival_time_min < now) d /\
    (Nat.min (length l) arrival_size_min <= length (expire now l))%nat /\
    ((length (expire now l) <= arrival_size_min)%nat \/
     exists x l', expire now l = x :: l' /\ now <= ba_arrival x + arrival_time_min).
Proof.
  induction l as [| x l (d & E & F & N & H)].
  { exists []. repeat split; [constructor | done | left; cbn; lia]. }
  cbn [expire]. destruct (Nat.ltb_spec arrival_size_min (length (x :: l))) as [G | G];
    [destruct (Z.ltb_spec (ba_arrival x + arrival_time_min) now) as [T | T] |]; cbn [andb].
  - exists (x :: d). cbn [app]. rewrite <- E. split; [done |]. split; [now constructor |].
    cbn [length] in *. split; [lia | exact H].
  - exists []. repeat split; [constructor | lia |]. right. eauto.
  - exists []. repeat split; [constructor | lia |]. now left.
Qed.

Lemma expire_keeps (now : Z) (l : list block_arrival_info) (x : block_arrival_info) :
  x ∈ l -> now <= ba_arrival x + arrival_time_min -> x ∈ expire now l.
Proof.
  intros Hx T. destruct (expire_spec now l) as (d & E & F & _). rewrite E in Hx.
  apply elem_of_app in Hx as [Hx | Hx]; [| done]. rewrite Forall_forall in F. specialize (F x Hx). lia.
Qed.

Lemma expire_ok (now : Z) (l : list block_arrival_info) : ok l -> ok (expire now l).
Proof.
  induction l as [| x l IH]; cbn [expire]; intros O; [done |].
  destruct (_ && _); [| done]. now apply IH, (pop_ok (x :: l)).
Qed.

Inductive arrival_event := ev_arrive (now h : Z) | ev_recent (now h : Z).

Definition event_time (e : arrival_event) : Z := match e with ev_arrive t _ | ev_recent t _ => t end.

Definition arrival_step (l : list block_arrival_info) (e : arrival_event) : list block_arrival_info :=
  match e with
  | ev_arrive t h => snd (arrival_add t h l)
  | ev_recent t h => snd (arrival_recent t h l)
  end.

Definition arrival_run (es : list arrival_event) (l : list block_arrival_info) : list block_arrival_info :=
  fold_left arrival_step es l.

Lemma arrival_add_elem (t h : Z) (l : list block_arrival_info) (x : block_arrival_info) :
  x ∈ snd (arrival_add t h l) <-> x ∈ l \/ (x = mk_arrival t h /\ find h l = None).
Proof.
  unfold arrival_add, insert. change (key _) with h. destruct (find h l) as [y |] eqn:E; cbn.
  - naive_solver.
  - rewrite link_perm, elem_of_cons. naive_solver.
Qed.

Lemma arrival_step_ok (l : list block_arrival_info) (e : arrival_event) : ok l -> ok (arrival_step l e).
Proof.
  intros O. destruct e as [t h | t h]; cbn.
  - unfold arrival_add. pose proof (insert_ok (mk_arrival t h) l O) as I. now destruct (insert _ l).
  - now apply expire_ok.
Qed.

Lemma arrival_step_keeps (l : list block_arrival_info) (e : arrival_event) (x : block_arrival_info) :
  x ∈ l -> event_time e <= ba_arrival x + arrival_time_min -> x ∈ arrival_step l e.
Proof.
  intros Hx T. destruct e as [t h | t h]; cbn in *.
  - apply arrival_add_elem. now left.
  - now apply expire_keeps.
Qed.

Lemma arrival_run_ok (es : list arrival_event) : forall l, ok l -> ok (arrival_run es l).
Proof. induction es as [| e es IH]; intros l O; [done |]. now apply IH, arrival_step_ok. Qed.

Lemma arrival_run_keeps (es : list arrival_event) (x : block_arrival_info) : forall l,
  x ∈ l -> Forall (fun e => event_time e <= ba_arrival x + arrival_time_min) es -> x ∈ arrival_run es l.
Proof.
  induction es as [| e es IH]; intros l Hx F; [done |]. apply Forall_cons in F as [F1 F2].
  apply IH; [now apply arrival_step_keeps | done].
Qed.

(** What is there was added. *)
Lemma arrival_run_from (es : list arrival_event) (x : block_arrival_info) : forall l,
  x ∈ arrival_run es l -> x ∈ l \/ ev_arrive (ba_arrival x) (ba_hash x) ∈ es.
Proof.
  induction es as [| e es IH]; intros l Hx; [now left |].
  destruct (IH _ Hx) as [H | H]; [| right; now right]. destruct e as [t h | t h]; cbn in H.
  - apply arrival_add_elem in H as [H | [-> _]]; [now left | right; now left].
  - left. destruct (expire_spec t l) as (d & E & _). rewrite E. set_solver.
Qed.

End BlockArrival.

(** ** Theorems *)

Module CacheTheorems.
Import TimeIndex.
Module V := Votes.Votes.
Module W := Work.Work.


Definition sample_vote : V.vote := V.mk_vote 1 [V.vote_hash_only 7; V.vote_hash_only 8] 5 0.


(** After any sequence of gaps found, votes and blocks stored, the cache of gaps
    has at most 256 entries, one for each hash, in the order of their times; and
    lazy bootstrapping of a block is scheduled by a vote only when representatives
    who voted for that block, the voter among them, together have at least the
    minimum of the weight. *)
Theorem gap_bootstrap_justified `{BH : Block.BlockHash, WE : W.WorkEnv} (l : list GapCache.gap_event)
  (E : GapCache.gap_env) (v : V.vote) (t h : Z)
  (Hw : forall s : gset Z, 0 <= GapCache.weight_of (GapCache.g_weight E) s < 2 ^ 128)
  (Hl : GapCache.disable_lazy_bootstrap E = false)
  (Ht : (t, h) ∈ snd (GapCache.gap_step (GapCache.gap_run l []) (GapCache.ev_vote E v))) :
  (ok (GapCache.gap_run l []) /\ (length (GapCache.gap_run l []) <= 256)%nat) /\
  exists s : gset Z, V.vote_account v ∈ s /\
    (forall a, a ∈ s -> GapCache.voted (l ++ [GapCache.ev_vote E v]) h a) /\
    GapCache.g_minimum E <= GapCache.weight_of (GapCache.g_weight E) s.
Proof.
  pose proof (GapCache.gap_run_ok l) as (O & L & V). split; [now split |].
  set (P := GapCache.voted (l ++ [GapCache.ev_vote E v])).
  assert (O' : GapCache.gap_ok P (GapCache.gap_run l [])).
  { split; [done |]. split; [done |]. intros g a Hg Ha.
    destruct (V g a Hg Ha) as (E' & v' & Hv & R). exists E', v'. split; [set_solver | done]. }
  assert (HP : forall k, k ∈ map V.as_hash (V.blocks v) -> P k (V.vote_account v)).
  { intros k Hk. exists E, v. split; [set_solver | done]. }
  destruct (GapCache.gap_alarm_cause P E _ _ t h _ HP O' Ht) as (s & Hs & Ha & Hb).
  exists s. split; [done |]. split; [done |]. unfold GapCache.start_bootstrap in Hb. rewrite Hl in Hb. cbn in Hb.
  rewrite GapCache.gap_tally_spec, u128_small in Hb by apply Hw. now apply Z.leb_le in Hb.
Qed.

Lemma gap_bootstrap_justified_witness :
  let BH := (fun _ : Block.block => 0) : Block.BlockHash in
  let WE := W.Build_WorkEnv (fun _ _ => 0) false in
  let E := GapCache.mk_gap_env (fun a => 0) 0 0 0 false false 10 in
  GapCache.voted [GapCache.ev_add 7 1; GapCache.ev_vote E sample_vote] 7 5.
Proof.
  intros BH WE E.
  assert (W0 : forall s : gset Z, GapCache.weight_of (GapCache.g_weight E) s = 0).
  { intros s. unfold GapCache.weight_of, set_fold. cbn. induction (elements s) as [| a m IH]; cbn; [done |]. lia. }
  destruct (gap_bootstrap_justified [GapCache.ev_add 7 1] E sample_vote (10 + 5 * 1000) 7) as (_ & s & H5 & Hs & _).
  - intros s. rewrite W0. lia.
  - reflexivity.
  - vm_compute. left.
  - apply Hs. exact H5.
Defined.

(** A block reported as new by [add] is reported recent for 300 seconds, whatever
    happens in between; a block reported recent was added; and the loop of [recent]
    ends with at most 8192 entries, or with entries of the last 300 seconds only,
    never dropping an entry while there are 8192 or fewer. *)
Theorem arrival_recent_exact (es es' : list BlockArrival.arrival_event) (t t' h : Z)
  (Hnew : fst (BlockArrival.arrival_add t h (BlockArrival.arrival_run es [])) = false)
  (Ht : Forall (fun e => BlockArrival.event_time e <= t + BlockArrival.arrival_time_min) (es' ++ [BlockArrival.ev_recent t' h])) :
  let run := es ++ [BlockArrival.ev_arrive t h] ++ es' in
  let l := BlockArrival.arrival_run run [] in
  fst (BlockArrival.arrival_recent t' h l) = true /\
  (forall k, fst (BlockArrival.arrival_recent t' k l) = true -> exists t0, BlockArrival.ev_arrive t0 k ∈ run) /\
  let r := snd (BlockArrival.arrival_recent t' h l) in
  ((length r <= 8192)%nat \/ Forall (fun x => t' <= BlockArrival.ba_arrival x + 300000) r) /\
  (Nat.min (length l) 8192 <= length r)%nat.
Proof.
  intros run l. apply Forall_app in Ht as [Ht Ht']. apply Forall_cons in Ht' as [Ht' _]. cbn in Ht'.
  set (l0 := BlockArrival.arrival_run es []) in *.
  assert (O : ok l) by (apply BlockArrival.arrival_run_ok; split; constructor).
  pose proof (BlockArrival.expire_ok t' l O) as Oe.
  assert (Hx : BlockArrival.mk_arrival t h ∈ l).
  { unfold l, run, BlockArrival.arrival_run. rewrite !fold_left_app. apply BlockArrival.arrival_run_keeps; [| done].
    apply BlockArrival.arrival_add_elem. right. split; [done |].
    unfold BlockArrival.arrival_add, insert in Hnew. change (key _) with h in Hnew. change (fold_left BlockArrival.arrival_step es []) with l0.
    destruct (find h l0); [discriminate Hnew | done]. }
  split; [| split; [| cbn [BlockArrival.arrival_recent snd]; split]].
  - unfold BlockArrival.arrival_recent. cbn [fst].
    pose proof (BlockArrival.expire_keeps t' l _ Hx Ht') as He.
    pose proof (find_elem _ _ (proj2 Oe) He) as Ef. change (key _) with h in Ef. now rewrite Ef.
  - intros k. unfold BlockArrival.arrival_recent. cbn [fst]. destruct (find k _) as [x |] eqn:Ek; [| done].
    intros _. apply find_Some in Ek as [Ek <-]. exists (BlockArrival.ba_arrival x).
    destruct (BlockArrival.expire_spec t' l) as (d & Ed & _).
    destruct (BlockArrival.arrival_run_from run x []) as [Hn | Hn]; [fold l; rewrite Ed; set_solver | | done].
    now apply not_elem_of_nil in Hn.
  - destruct (BlockArrival.expire_spec t' l) as (d & _ & _ & _ & [H | (x & m & Em & Hm)]); [now left |].
    right. rewrite Em in *. destruct Oe as [S _]. apply StronglySorted_inv in S as [_ S].
    constructor; [exact Hm |]. eapply Forall_impl; [exact S |]. intros y Hy.
    unfold before in Hy. cbn in Hy. unfold BlockArrival.arrival_time_min in Hm. lia.
  - now destruct (BlockArrival.expire_spec t' l) as (d & _ & _ & H & _).
Qed.

Lemma arrival_recent_exact_witness :
  fst (BlockArrival.arrival_recent 9 7 (BlockArrival.arrival_run [BlockArrival.ev_arrive 1 7; BlockArrival.ev_arrive 2 8] [])) = true.
Proof.
  refine (proj1 (arrival_recent_exact [] [BlockArrival.ev_arrive 2 8] 1 9 7 eq_refl _)).
  repeat constructor; vm_compute; discriminate.
Defined.

End CacheTheorems.
