(* ===== verification/VoteStore.v ===== *)
(** * Votes in the store: making votes, and their sequence numbers

    Model of the constructors and the check of [nano::vote]
    ([nano/secure/common.cpp]) and of the vote table of the store with its two
    caches ([nano/node/lmdb.cpp]: [vote_get], [vote_current], [vote_generate],
    [vote_max], [flush]).  A vote of a representative replaces its earlier votes if
    its sequence number is higher, so the numbers a node gives to its votes must
    increase.  Read transactions are snapshots of the committed table; [flush] takes
    the caches under the lock and writes the table afterwards, and other threads run
    in between.  [None] is a failed assertion. *)

From stdpp Require Import base gmap list.
From Stdlib Require Import ZArith Lia.
From S2P Require Import Prelude Blake2b Blocks Numbers Votes Signing.
Local Open Scope Z_scope.

Module VoteStore.
Module V := Votes.Votes.

(** ** Keys and signatures, as the votes use them *)

Class Signatures := {
  pub_key : Z -> Z;
  sign_message : Z -> Z -> Z -> list Z -> Z;      (* with the random bytes *)
  validate_message : Z -> Z -> Z -> bool;         (* [true]: invalid *)
  pub_key_word (prv : Z) : word 256 (pub_key prv);
  sign_word (prv pub m : Z) (r : list Z) : word 512 (sign_message prv pub m r);
  sign_valid (prv m : Z) (r : list Z) :
    validate_message (pub_key prv) m (sign_message prv (pub_key prv) m r) = false }.

(** The node's. *)
#[refine] Instance node_signatures : Signatures := {
  pub_key := Signing.pub_key;
  sign_message := Signing.sign_message;
  validate_message := Signing.validate_message }.
Proof.
  - exact Signing.pub_key_word.
  - exact Signing.sign_message_word.
  - exact Signing.sign_message_valid.
Defined.

(** The table of votes: the images of the votes, by account. *)
Notation table := (gmap Z (list Z)).

(** The members [vote_cache_l1] and [vote_cache_l2]. *)
Record vote_store := mk_store { vote_cache_l1 : gmap Z V.vote; vote_cache_l2 : gmap Z V.vote }.

Section Operations.

Context `{BH : Block.BlockHash, SG : Signatures}.

(** ** Votes *)

Definition digest (v : V.vote) : Z := default 0 (V.vote_hash v).

Definition signed (prv : Z) (v : V.vote) (rnd : list Z) : V.vote :=
  V.mk_vote (V.sequence v) (V.blocks v) (V.vote_account v) (sign_message prv (V.vote_account v) (digest v) rnd).

Definition vote_of_block (account prv sequence : Z) (b : Block.block) (rnd : list Z) : V.vote :=
  signed prv (V.mk_vote sequence [V.vote_full b] account 0) rnd.

Definition vote_of_hashes (account prv sequence : Z) (l : list Z) (rnd : list Z) : option V.vote :=
  if (0 <? length l)%nat && (length l <=? 12)%nat
  then Some (signed prv (V.mk_vote sequence (map V.vote_hash_only l) account 0) rnd)
  else None.

(** [true]: the signature is not valid. *)
Definition vote_validate (v : V.vote) : bool := validate_message (V.vote_account v) (digest v) (V.signature v).

(** ** The table and the caches *)

Definition vote_get (tx : table) (a : Z) : option (option V.vote) :=
  match tx !! a with
  | Some bytes => match V.vote_deserialize bytes with Some (v, _) => Some (Some v) | None => None end
  | None => Some None
  end.

Definition vote_current (tx : table) (s : vote_store) (a : Z) : option (option V.vote) :=
  match vote_cache_l1 s !! a with
  | Some v => Some (Some v)
  | None => match vote_cache_l2 s !! a with
            | Some v => Some (Some v)
            | None => vote_get tx a
            end
  end.

Definition put_l1 (s : vote_store) (a : Z) (v : V.vote) : vote_store :=
  mk_store (<[a := v]> (vote_cache_l1 s)) (vote_cache_l2 s).

Definition next_sequence (current : option V.vote) : Z :=
  u64 (match current with Some v => V.sequence v | None => 0 end + 1).

Definition vote_generate_block (tx : table) (s : vote_store) (a prv : Z) (b : Block.block) (rnd : list Z)
    : option (V.vote * vote_store) :=
  match vote_current tx s a with
  | Some current =>
      let v := vote_of_block a prv (next_sequence current) b rnd in Some (v, put_l1 s a v)
  | None => None
  end.

Definition vote_generate_hashes (tx : table) (s : vote_store) (a prv : Z) (l : list Z) (rnd : list Z)
    : option (V.vote * vote_store) :=
  match vote_current tx s a with
  | Some current =>
      match vote_of_hashes a prv (next_sequence current) l rnd with
      | Some v => Some (v, put_l1 s a v)
      | None => None
      end
  | None => None
  end.

Definition vote_max (tx : table) (s : vote_store) (v : V.vote) : option (V.vote * vote_store) :=
  match vote_current tx s (V.vote_account v) with
  | Some current =>
      let result := match current with
                    | Some c => if V.sequence v <? V.sequence c then c else v
                    | None => v
                    end in
      Some (result, put_l1 s (V.vote_account v) result)
  | None => None
  end.

(** [flush]: the part under the lock, and the writes. *)
Definition flush_swap (s : vote_store) : vote_store := mk_store ∅ (vote_cache_l1 s).

Definition flush_write (s : vote_store) (t : table) : table :=
  map_fold (fun a v t => <[a := V.vote_serialize v]> t) t (vote_cache_l2 s).

(** ** Invariant *)

Definition votes_ok (m : gmap Z V.vote) : Prop :=
  map_Forall (fun a v => V.vote_ok v /\ V.vote_account v = a) m.

Definition table_ok (t : table) : Prop :=
  map_Forall (fun a b => exists v, V.vote_ok v /\ V.vote_account v = a /\ b = V.vote_serialize v) t.

(** What is in the second cache is in the table. *)
Definition covered (m : gmap Z V.vote) (t : table) : Prop :=
  map_Forall (fun a v => t !! a = Some (V.vote_serialize v)) m.

(** A snapshot agrees with the table on the accounts that are in no cache. *)
Definition fresh (s : vote_store) (t tx : table) : Prop :=
  forall a, vote_cache_l1 s !! a = None -> vote_cache_l2 s !! a = None -> tx !! a = t !! a.

Lemma vote_read (v : V.vote) : V.vote_ok v -> V.vote_deserialize (V.vote_serialize v) = Some (v, []).
Proof. apply (V.read_vote_reads _ _ _ V.typed_format v). Qed.

Lemma vote_get_ok (t : table) (a : Z) : table_ok t ->
  exists r, vote_get t a = Some r /\ forall v, r = Some v -> V.vote_ok v /\ V.vote_account v = a.
Proof.
  intros T. unfold vote_get. destruct (t !! a) as [b |] eqn:E; [| exists None; split; [done | naive_solver]].
  destruct (T a b E) as (v & Hv & Ha & ->). rewrite (vote_read v Hv). exists (Some v). naive_solver.
Qed.

Lemma flush_write_lookup (s : vote_store) (t : table) (a : Z) :
  flush_write s t !! a = match vote_cache_l2 s !! a with Some v => Some (V.vote_serialize v) | None => t !! a end.
Proof.
  unfold flush_write. revert a.
  apply (map_fold_weak_ind (fun r m => forall a,
    r !! a = match m !! a with Some v => Some (V.vote_serialize v) | None => t !! a end)); [done |].
  intros k v m r Hk IH a. cbv beta. destruct (decide (k = a)) as [-> | N].
  - now rewrite !lookup_insert_eq.
  - rewrite !lookup_insert_ne by done. apply IH.
Qed.

(** A vote that was made is well formed, and valid under the key of its account. *)
Lemma signed_ok (prv : Z) (v : V.vote) (rnd : list Z) :
  word 64 (V.sequence v) -> word 256 (V.vote_account v) -> V.blocks v <> [] -> Forall V.item_ok (V.blocks v) ->
  V.vote_ok (signed prv v rnd).
Proof. intros H1 H2 H3 H4. repeat split; try done; try apply H1; try apply H2; apply sign_word. Qed.

Lemma signed_valid (prv : Z) (v : V.vote) (rnd : list Z) :
  V.vote_account v = pub_key prv -> vote_validate (signed prv v rnd) = false.
Proof. intros E. unfold vote_validate, signed. cbn. rewrite E. apply sign_valid. Qed.

(** ** Runs *)

(** The threads of the node: the caches, whether a flush has taken the caches and not
    yet written, and the committed tables, the latest first. *)
Record vstate := mk_vstate { vs_store : vote_store; flushing : bool; tables : list table }.

Definition snapshot (st : vstate) (age : nat) : table := nth age (tables st) ∅.

Inductive event :=
| ev_generate (age : nat) (prv : Z) (l : list Z) (rnd : list Z)
| ev_generate_block (age : nat) (prv : Z) (b : Block.block) (rnd : list Z)
| ev_max (age : nat) (v : V.vote)
| ev_flush_swap
| ev_flush_write.

Inductive obs := generated (v : V.vote) | seen (v : V.vote).

Definition obs_vote (o : obs) : V.vote := match o with generated v | seen v => v end.

Definition with_store (st : vstate) (s : vote_store) : vstate := mk_vstate s (flushing st) (tables st).

Definition event_step (st : vstate) (e : event) : option (list obs * vstate) :=
  match e with
  | ev_generate age prv l rnd =>
      match vote_generate_hashes (snapshot st age) (vs_store st) (pub_key prv) prv l rnd with
      | Some (v, s) => Some ([generated v], with_store st s)
      | None => None
      end
  | ev_generate_block age prv b rnd =>
      match vote_generate_block (snapshot st age) (vs_store st) (pub_key prv) prv b rnd with
      | Some (v, s) => Some ([generated v], with_store st s)
      | None => None
      end
  | ev_max age v =>
      match vote_max (snapshot st age) (vs_store st) v with
      | Some (_, s) => Some ([seen v], with_store st s)
      | None => None
      end
  | ev_flush_swap =>
      Some ([], if flushing st then st else mk_vstate (flush_swap (vs_store st)) true (tables st))
  | ev_flush_write =>
      Some ([], if flushing st
                then mk_vstate (vs_store st) false (flush_write (vs_store st) (snapshot st 0) :: tables st)
                else st)
  end.

Fixpoint event_run (st : vstate) (es : list event) : option (list obs * vstate) :=
  match es with
  | [] => Some ([], st)
  | e :: es' =>
      match event_step st e with
      | Some (o, st) => option_map (fun r => (o ++ fst r, snd r)) (event_run st es')
      | None => None
      end
  end.

(** Events the node produces: votes for one to twelve hashes, well-formed votes from
    the network, and transactions that do not span two flushes. *)
Definition event_age (e : event) : nat :=
  match e with ev_generate k _ _ _ | ev_generate_block k _ _ _ | ev_max k _ => k | _ => O end.

Definition event_ok (fl : bool) (e : event) : Prop :=
  (event_age e <= if fl then 0 else 1)%nat /\
  match e with
  | ev_generate _ _ l _ => (0 < length l <= 12)%nat /\ Forall (word 256) l
  | ev_generate_block _ _ b _ => Block.block_ok b
  | ev_max _ v => V.vote_ok v
  | _ => True
  end.

Definition flushing_after (fl : bool) (e : event) : bool :=
  match e with ev_flush_swap => true | ev_flush_write => false | _ => fl end.

Fixpoint events_ok (fl : bool) (es : list event) : Prop :=
  match es with
  | [] => True
  | e :: es' => event_ok fl e /\ events_ok (flushing_after fl e) es'
  end.

Definition event_sequence (e : event) : Z := match e with ev_max _ v => V.sequence v | _ => 0 end.

(** *** The invariant of a run *)

Definition current (st : vstate) (a : Z) : option V.vote :=
  default None (vote_current (snapshot st 0) (vs_store st) a).

Definition current_sequence (st : vstate) (a : Z) : Z :=
  match current st a with Some v => V.sequence v | None => 0 end.

Record state_ok (st : vstate) : Prop := {
  so_l1 : votes_ok (vote_cache_l1 (vs_store st));
  so_l2 : votes_ok (vote_cache_l2 (vs_store st));
  so_table : Forall table_ok (tables st);
  so_covered : flushing st = false -> covered (vote_cache_l2 (vs_store st)) (snapshot st 0);
  so_fresh : forall k, (k <= if flushing st then 0 else 1)%nat ->
    fresh (vs_store st) (snapshot st 0) (snapshot st k) }.

Lemma snapshot_ok (st : vstate) (k : nat) : state_ok st -> table_ok (snapshot st k).
Proof.
  intros O. pose proof (so_table st O) as F. unfold snapshot. rewrite Forall_forall in F.
  destruct (nth_in_or_default k (tables st) ∅) as [H | ->]; [apply F; now apply list_elem_of_In |].
  intros a b. now rewrite lookup_empty.
Qed.

(** Every admissible snapshot gives the current vote. *)
Lemma vote_current_spec (st : vstate) (k : nat) (a : Z) :
  state_ok st -> (k <= if flushing st then 0 else 1)%nat ->
  vote_current (snapshot st k) (vs_store st) a = Some (current st a) /\
  forall v, current st a = Some v -> V.vote_ok v /\ V.vote_account v = a.
Proof.
  intros O Hk. pose proof (so_fresh st O k Hk a) as F. unfold current, vote_current.
  destruct (vote_cache_l1 (vs_store st) !! a) as [v |] eqn:E1.
  { split; [done |]. cbn. intros w [= <-]. exact (so_l1 st O a v E1). }
  destruct (vote_cache_l2 (vs_store st) !! a) as [v |] eqn:E2.
  { split; [done |]. cbn. intros w [= <-]. exact (so_l2 st O a v E2). }
  specialize (F eq_refl eq_refl). destruct (vote_get_ok (snapshot st 0) a (snapshot_ok st 0 O)) as (r & Er & Hr).
  assert (Ek : vote_get (snapshot st k) a = Some r) by (unfold vote_get in *; now rewrite F).
  rewrite Ek, Er. now split.
Qed.

(** Writing a vote to the first cache. *)
Lemma put_ok (st : vstate) (v : V.vote) : state_ok st -> V.vote_ok v ->
  state_ok (with_store st (put_l1 (vs_store st) (V.vote_account v) v)).
Proof.
  intros O Hv. destruct O as [O1 O2 O3 O4 O5]. split; cbn; try done.
  - apply map_Forall_insert_2; [now split | exact O1].
  - intros k Hk a H1 H2. apply (O5 k Hk a); [| exact H2]. cbn in H1.
    destruct (decide (V.vote_account v = a)) as [<- | N]; [now rewrite lookup_insert_eq in H1 |].
    now rewrite lookup_insert_ne in H1.
Qed.

Lemma put_current (st : vstate) (a b : Z) (v : V.vote) :
  current (with_store st (put_l1 (vs_store st) a v)) b = if decide (a = b) then Some v else current st b.
Proof.
  unfold current, vote_current, snapshot. cbn. destruct (decide (a = b)) as [-> | N].
  - now rewrite lookup_insert_eq.
  - now rewrite lookup_insert_ne.
Qed.

Lemma put_current_sequence (st : vstate) (v : V.vote) (b : Z) :
  current_sequence (with_store st (put_l1 (vs_store st) (V.vote_account v) v)) b =
  if decide (V.vote_account v = b) then V.sequence v else current_sequence st b.
Proof. unfold current_sequence. rewrite put_current. now destruct (decide _). Qed.

(** A flush changes no current vote. *)
Lemma swap_ok (st : vstate) : state_ok st -> flushing st = false ->
  let st' := mk_vstate (flush_swap (vs_store st)) true (tables st) in
  state_ok st' /\ forall a, current st' a = current st a.
Proof.
  intros O F. pose proof (so_covered st O F) as C. destruct O as [O1 O2 O3 O4 O5]. split.
  - split; cbn; try done. intros k Hk. assert (k = O) as -> by lia. intros a _ _. reflexivity.
  - intros a. unfold current, vote_current, snapshot. cbn. rewrite lookup_empty.
    destruct (vote_cache_l1 (vs_store st) !! a) as [v |]; [done |].
    destruct (vote_cache_l2 (vs_store st) !! a) as [v |] eqn:E; [| done].
    unfold vote_get. pose proof (C a v E) as Ca. unfold snapshot in Ca. rewrite Ca.
    rewrite (vote_read v (proj1 (O2 a v E))). done.
Qed.

Lemma write_ok (st : vstate) : state_ok st -> flushing st = true ->
  let st' := mk_vstate (vs_store st) false (flush_write (vs_store st) (snapshot st 0) :: tables st) in
  state_ok st' /\ forall a, current st' a = current st a.
Proof.
  intros O F. pose proof (snapshot_ok st 0 O) as T. destruct O as [O1 O2 O3 O4 O5].
  assert (L : forall a, vote_cache_l2 (vs_store st) !! a = None ->
    flush_write (vs_store st) (snapshot st 0) !! a = snapshot st 0 !! a).
  { intros a E. now rewrite flush_write_lookup, E. }
  split.
  - split; cbn; try done.
    + constructor; [| exact O3]. intros a b Hb. rewrite flush_write_lookup in Hb.
      destruct (vote_cache_l2 (vs_store st) !! a) as [v |] eqn:E; [| exact (T a b Hb)].
      simplify_eq. destruct (O2 a v E). eauto.
    + intros _ a v E. unfold snapshot at 1. cbn. now rewrite flush_write_lookup, E.
    + intros k Hk a H1 H2. unfold snapshot at 1 2. cbn. destruct k as [| [| k]]; [done | | lia].
      symmetry. now apply L.
  - intros a. unfold current, vote_current. destruct (vote_cache_l1 _ !! a); [done |].
    destruct (vote_cache_l2 _ !! a) as [v |] eqn:E; [done |]. unfold vote_get, snapshot at 1. cbn. now rewrite L.
Qed.

(** What an event does: the invariant stays, no current number decreases or grows past
    the next and what was seen, and new votes are valid and numbered above. *)
Record step_ok (st : vstate) (q : Z) (o : list obs) (st' : vstate) : Prop := {
  sp_ok : state_ok st';
  sp_current : forall a, current_sequence st a <= current_sequence st' a <= Z.max (current_sequence st a + 1) q;
  sp_counted : forall x, x ∈ o -> V.sequence (obs_vote x) <= current_sequence st' (V.vote_account (obs_vote x));
  sp_new : forall v, generated v ∈ o ->
    current_sequence st (V.vote_account v) < V.sequence v /\ vote_validate v = false }.

(** Storing a vote [r] in the cache, observed as a vote with a number not above. *)
Lemma cache_step (st : vstate) (r : V.vote) (x : obs) (q : Z) :
  state_ok st -> V.vote_ok r -> V.vote_account (obs_vote x) = V.vote_account r ->
  V.sequence (obs_vote x) <= V.sequence r ->
  current_sequence st (V.vote_account r) <= V.sequence r <= Z.max (current_sequence st (V.vote_account r) + 1) q ->
  (forall v, x = generated v -> current_sequence st (V.vote_account v) < V.sequence v /\ vote_validate v = false) ->
  step_ok st q [x] (with_store st (put_l1 (vs_store st) (V.vote_account r) r)).
Proof.
  intros O Hr Ha Hq Hc Hg. split.
  - now apply put_ok.
  - intros a. rewrite put_current_sequence. destruct (decide _) as [<- |]; lia.
  - intros y ->%list_elem_of_singleton. rewrite put_current_sequence, Ha. rewrite decide_True by done. exact Hq.
  - intros v Hv. apply list_elem_of_singleton in Hv. now apply Hg.
Qed.

Lemma quiet_step (st st' : vstate) (q : Z) :
  state_ok st' -> (forall a, current st' a = current st a) -> step_ok st q [] st'.
Proof.
  intros O C. split; [done | | |]; try (intros x Hx; now apply not_elem_of_nil in Hx).
  intros a. assert (current_sequence st' a = current_sequence st a) by (unfold current_sequence; now rewrite C). lia.
Qed.

Section Generate.

Context (st : vstate) (prv : Z) (rnd : list Z) (O : state_ok st).
Context (Hs : current_sequence st (pub_key prv) < 2 ^ 64 - 1).

Lemma current_sequence_word (a : Z) : word 64 (current_sequence st a).
Proof using O.
  unfold current_sequence. destruct (vote_current_spec st 0 a O) as [_ Hc]; [lia |].
  destruct (current st a) as [v |]; [apply (Hc v eq_refl) | unfold word; lia].
Qed.

Lemma next_sequence_spec : next_sequence (current st (pub_key prv)) = current_sequence st (pub_key prv) + 1.
Proof.
  unfold next_sequence. fold (current_sequence st (pub_key prv)).
  pose proof (current_sequence_word (pub_key prv)) as W. unfold word in W. apply u64_small. lia.
Qed.

Lemma generate_step (l : list V.vote_block) : l <> [] -> Forall V.item_ok l ->
  let v := signed prv (V.mk_vote (next_sequence (current st (pub_key prv))) l (pub_key prv) 0) rnd in
  step_ok st 0 [generated v] (with_store st (put_l1 (vs_store st) (pub_key prv) v)).
Proof.
  intros Hn Hl v. pose proof (current_sequence_word (pub_key prv)) as W. unfold word in W.
  assert (Eq : V.sequence v = current_sequence st (pub_key prv) + 1) by apply next_sequence_spec.
  apply (cache_step st v (generated v)); cbn [obs_vote]; try done; rewrite ?Eq; try (change (V.vote_account v) with (pub_key prv); lia).
  - apply signed_ok; cbn; [rewrite next_sequence_spec; unfold word; lia | apply pub_key_word | done | done].
  - intros w [= <-]. change (V.vote_account v) with (pub_key prv). split; [lia | now apply signed_valid].
Qed.

End Generate.

Lemma max_step (st : vstate) (k : nat) (v : V.vote) : state_ok st -> V.vote_ok v ->
  (k <= if flushing st then 0 else 1)%nat ->
  exists r st', vote_max (snapshot st k) (vs_store st) v = Some (r, vs_store st') /\
    st' = with_store st (vs_store st') /\ step_ok st (V.sequence v) [seen v] st' /\
    current st' (V.vote_account v) = Some r /\
    V.sequence r = Z.max (current_sequence st (V.vote_account v)) (V.sequence v).
Proof.
  intros O Hv Hk. destruct (vote_current_spec st k (V.vote_account v) O Hk) as [Hc Hok].
  unfold vote_max. rewrite Hc. set (r := match current st (V.vote_account v) with Some _ => _ | None => v end).
  assert (R : V.vote_ok r /\ V.vote_account r = V.vote_account v /\
    V.sequence r = Z.max (current_sequence st (V.vote_account v)) (V.sequence v)).
  { unfold r, current_sequence. destruct (current st (V.vote_account v)) as [c |].
    - destruct (Hok c eq_refl). destruct (Z.ltb_spec (V.sequence v) (V.sequence c)); split_and!; try done; lia.
    - split_and!; try done. destruct Hv as [[W _] _]. lia. }
  clearbody r. destruct R as (R1 & R2 & R3). rewrite <- R2.
  eexists r, (with_store st (put_l1 (vs_store st) (V.vote_account r) r)). split; [done |]. split; [done |].
  split; [apply cache_step; cbn [obs_vote]; try done; rewrite ?R2, ?R3; lia |].
  split; [| now rewrite R2]. rewrite put_current. now rewrite decide_True.
Qed.

Lemma event_step_ok (st : vstate) (e : event) : state_ok st -> event_ok (flushing st) e ->
  (forall a, current_sequence st a < 2 ^ 64 - 1) ->
  exists o st', event_step st e = Some (o, st') /\ flushing st' = flushing_after (flushing st) e /\
    step_ok st (event_sequence e) o st'.
Proof.
  intros O [Hk He] Hs.
  destruct e as [k prv l rnd | k prv b rnd | k v | |]; cbn [event_step event_age event_sequence flushing_after] in *.
  - destruct (vote_current_spec st k (pub_key prv) O Hk) as [Hc _]. unfold vote_generate_hashes, vote_of_hashes.
    rewrite Hc. destruct He as [Hl Hw].
    rewrite (proj2 (Nat.ltb_lt 0 (length l))), (proj2 (Nat.leb_le (length l) 12)) by lia. cbn [andb].
    eexists _, _. split; [reflexivity |]. split; [done |].
    apply generate_step; [done | apply Hs | now destruct l | now apply Forall_map].
  - destruct (vote_current_spec st k (pub_key prv) O Hk) as [Hc _]. unfold vote_generate_block. rewrite Hc.
    eexists _, _. split; [reflexivity |]. split; [done |].
    apply generate_step; [done | apply Hs | done | constructor; [exact He | constructor]].
  - destruct (max_step st k v O He Hk) as (r & st' & -> & E & S & _). eexists _, _. split; [reflexivity |].
    rewrite <- E. split; [now rewrite E | done].
  - eexists _, _. split; [reflexivity |]. destruct (flushing st) eqn:F; [split; [done | now apply quiet_step] |].
    split; [done |]. destruct (swap_ok st O F). now apply quiet_step.
  - eexists _, _. split; [reflexivity |]. destruct (flushing st) eqn:F; [| split; [done | now apply quiet_step]].
    split; [done |]. destruct (write_ok st O F). now apply quiet_step.
Qed.

(** *** Runs *)

(** In a list of observations, a new vote has a higher number than every earlier
    observation of its account. *)
Definition increasing (o : list obs) : Prop :=
  forall l x m v r, o = l ++ x :: m ++ generated v :: r ->
    V.vote_account (obs_vote x) = V.vote_account v -> V.sequence (obs_vote x) < V.sequence v.

Record run_ok (st : vstate) (o : list obs) (st' : vstate) : Prop := {
  rn_ok : state_ok st';
  rn_current : forall a, current_sequence st a <= current_sequence st' a;
  rn_counted : forall x, x ∈ o -> V.sequence (obs_vote x) <= current_sequence st' (V.vote_account (obs_vote x));
  rn_new : forall v, generated v ∈ o ->
    current_sequence st (V.vote_account v) < V.sequence v /\ vote_validate v = false;
  rn_increasing : increasing o }.

(** The observations of one event and of the rest of the run. *)
Lemma run_cons (st st1 st2 : vstate) (q : Z) (o1 o2 : list obs) :
  (length o1 <= 1)%nat -> step_ok st q o1 st1 -> run_ok st1 o2 st2 -> run_ok st (o1 ++ o2) st2.
Proof.
  intros L1 S R. destruct R as [R1 R2 R3 R4 R5]. pose proof (sp_current _ _ _ _ S) as C. split.
  - done.
  - intros a. specialize (C a). specialize (R2 a). lia.
  - intros x [Hx | Hx]%elem_of_app; [| now apply R3]. pose proof (sp_counted _ _ _ _ S x Hx).
    specialize (R2 (V.vote_account (obs_vote x))). lia.
  - intros v [Hv | Hv]%elem_of_app; [now apply (sp_new _ _ _ _ S) |]. destruct (R4 v Hv). split; [| done].
    specialize (C (V.vote_account v)). lia.
  - intros l x m v r E Ha. destruct o1 as [| y [| z o1]]; cbn in L1, E; [now apply (R5 l x m v r) | | lia].
    destruct l as [| y' l]; cbn in E; injection E as -> E; [| now apply (R5 l x m v r)].
    assert (Hx : x ∈ [x]) by now left. pose proof (sp_counted _ _ _ _ S x Hx) as Hc. rewrite Ha in Hc.
    destruct (R4 v); [rewrite E; set_solver | lia].
Qed.

Lemma event_step_length (st st' : vstate) (e : event) (o : list obs) :
  event_step st e = Some (o, st') -> (length o <= 1)%nat.
Proof. destruct e; cbn; repeat case_match; naive_solver (cbn; lia). Qed.

Lemma event_run_ok (es : list event) : forall st M, state_ok st -> events_ok (flushing st) es ->
  (forall a, current_sequence st a <= M) -> Forall (fun e => event_sequence e <= M) es ->
  M + Z.of_nat (length es) < 2 ^ 64 ->
  exists o st', event_run st es = Some (o, st') /\ run_ok st o st'.
Proof.
  induction es as [| e es IH]; intros st M O Hes HM Hq Hb.
  { exists [], st. split; [done |]. split; try done; try (intros x Hx; now apply not_elem_of_nil in Hx).
    intros l x m v r E. now destruct l. }
  destruct Hes as [He Hes]. apply Forall_cons in Hq as [Hqe Hq]. cbn [length] in Hb.
  destruct (event_step_ok st e O He) as (o & st1 & E & F & S).
  { intros a. specialize (HM a). lia. }
  destruct (IH st1 (M + 1)) as (o' & st2 & E' & R).
  - apply (sp_ok _ _ _ _ S).
  - now rewrite F.
  - intros a. pose proof (sp_current _ _ _ _ S a). specialize (HM a). lia.
  - eapply Forall_impl; [exact Hq |]. cbn. intros; lia.
  - lia.
  - exists (o ++ o'), st2. cbn [event_run]. rewrite E, E'. split; [done |].
    apply (run_cons st st1 st2 (event_sequence e)); [exact (event_step_length st st1 e o E) | done | done].
Qed.

(** *** Starting and stopping *)

(** A node that starts: empty caches, and the table it finds. *)
Definition start (t : table) : vstate := mk_vstate (mk_store ∅ ∅) false [t; t].

Definition restart (st : vstate) : vstate := start (snapshot st 0).

Lemma start_ok (t : table) : table_ok t -> state_ok (start t).
Proof.
  intros T. split; cbn.
  - apply map_Forall_empty.
  - apply map_Forall_empty.
  - now repeat constructor.
  - intros _. apply map_Forall_empty.
  - intros k Hk a _ _. destruct k as [| [| k]]; [done | done | lia].
Qed.

(** After a whole flush nothing is lost in a restart. *)
Lemma flush_durable (st : vstate) (a : Z) : state_ok st -> flushing st = false ->
  exists o st', event_run st [ev_flush_swap; ev_flush_write] = Some (o, st') /\ current (restart st') a = current st a.
Proof.
  intros O F. destruct (swap_ok st O F) as [O1 C1]. set (st1 := mk_vstate _ true _) in *.
  destruct (write_ok st1 O1 eq_refl) as [O2 C2]. cbn [event_run event_step option_map]. rewrite F. fold st1.
  change (flushing st1) with true. cbv iota. eexists _, _. split; [reflexivity |]. cbn [snd].
  rewrite <- (C1 a), <- (C2 a). unfold current, vote_current. cbn.
  rewrite !lookup_empty. destruct (vote_cache_l1 (vs_store st) !! a) as [v |] eqn:E; [| done].
  unfold vote_get, snapshot. cbn [restart start tables snapshot nth]. rewrite flush_write_lookup.
  change (vote_cache_l2 _) with (vote_cache_l1 (vs_store st)). rewrite E.
  now rewrite (vote_read v (proj1 (so_l1 st O a v E))).
Qed.

End Operations.

(** ** Theorems *)


(** Signatures for examples. *)
#[refine] Instance demo_signatures : Signatures := {
  pub_key := fun prv => prv mod 2 ^ 256;
  sign_message := fun _ _ m _ => m mod 2 ^ 512;
  validate_message := fun _ m s => negb (m mod 2 ^ 512 =? s) }.
Proof.
  - intros prv. apply Z.mod_pos_bound. reflexivity.
  - intros prv pub m r. apply Z.mod_pos_bound. reflexivity.
  - intros prv m r. now rewrite Z.eqb_refl.
Defined.


(** Numbers are used twice when the node restarts before a flush, which stopping
    does not do, and when a transaction outlives two flushes: two votes of one
    account for different blocks have the same sequence number. *)
Theorem sequences_reused :
  (exists v w st st',
     event_run (BH := V.demo_hash) (start ∅) [ev_generate 0 5 [11] []] = Some ([generated v], st) /\
     event_run (BH := V.demo_hash) (restart st) [ev_generate 0 5 [12] []] = Some ([generated w], st') /\
     V.vote_account v = V.vote_account w /\ V.sequence v = V.sequence w /\ V.blocks v <> V.blocks w) /\
  (exists v w st,
     event_run (BH := V.demo_hash) (start ∅)
       [ev_generate 0 5 [11] []; ev_flush_swap; ev_flush_write; ev_flush_swap; ev_flush_write;
        ev_generate 2 5 [12] []] = Some ([generated v; generated w], st) /\
     V.vote_account v = V.vote_account w /\ V.sequence v = V.sequence w /\ V.blocks v <> V.blocks w).
Proof.
  split.
  - eexists _, _, _, _. split; [vm_compute; reflexivity |]. split; [vm_compute; reflexivity |].
    split; [reflexivity |]. split; [reflexivity | discriminate].
  - eexists _, _, _. split; [vm_compute; reflexivity |].
    split; [reflexivity |]. split; [reflexivity | discriminate].
Qed.

End VoteStore.
