(* ===== verification/OnlineReps.v ===== *)
(** * The weight of the representatives that are online

    Model of [nano::online_reps] ([nano/node/node.cpp], [node.hpp]) and of the table
    [online_weight] of the store ([nano/node/lmdb.cpp]).  Every five minutes the
    weight of the representatives seen voting is sampled into the table, which keeps
    the samples of two weeks; the median of the samples and the configured minimum is
    the stake the quorum of elections is a share of.  [None] is a failed assertion. *)

From stdpp Require Import base gmap list sorting.
From Stdlib Require Import ZArith Lia.
From S2P Require Import Prelude.
Local Open Scope Z_scope.

Module OnlineReps.

Class Network := { is_live_network : bool }.

(** ** The table, in the order of its keys *)

Definition online_weight := list (Z * Z).

Fixpoint online_weight_put (time amount : Z) (t : online_weight) : online_weight :=
  match t with
  | [] => [(time, amount)]
  | (k, x) :: t' =>
      if time <? k then (time, amount) :: t
      else if time =? k then (time, amount) :: t'
      else (k, x) :: online_weight_put time amount t'
  end.

(** The assertion that the key was there. *)
Definition online_weight_del (time : Z) (t : online_weight) : option online_weight :=
  if existsb (fun x => fst x =? time) t
  then Some (List.filter (fun x => negb (fst x =? time)) t) else None.

Definition online_weight_begin (t : online_weight) : option (Z * Z) := head t.

Definition online_weight_count (t : online_weight) : nat := length t.

(** ** The members *)

Record online_reps := mk_online { reps : gset Z; online : Z; minimum : Z }.

Section Operations.

Context `{NW : Network}.

Definition weight_samples : nat := if is_live_network then 4032 else 864.

(** [nth_element] puts at an index what sorting would put there. *)
Definition nth_element (k : nat) (l : list Z) : Z := nth k (merge_sort Z.le l) 0.

Definition trend (min : Z) (t : online_weight) : Z :=
  let items := min :: map snd t in nth_element (length items / 2) items.

Definition online_reps_new (min : Z) (t : online_weight) : online_reps := mk_online ∅ (trend min t) min.

Definition observe (weight : Z -> Z) (rep : Z) (o : online_reps) : online_reps :=
  if 0 <? weight rep then mk_online ({[ rep ]} ∪ reps o) (online o) (minimum o) else o.

(** The loop that discards the oldest samples. *)
Fixpoint discard (fuel : nat) (t : online_weight) : option online_weight :=
  if (weight_samples <=? online_weight_count t)%nat then
    match fuel, online_weight_begin t with
    | S n, Some oldest =>
        match online_weight_del (fst oldest) t with
        | Some t' => discard n t'
        | None => None
        end
    | _, _ => None
    end
  else Some t.

Definition current_weight (weight : Z -> Z) (s : gset Z) : Z := set_fold (fun a n => u128 (n + weight a)) 0 s.

(** [sample], with one unit of fuel for each entry; [now] is the system clock. *)
Definition sample (weight : Z -> Z) (now : Z) (o : online_reps) (t : online_weight)
    : option (online_reps * online_weight) :=
  match discard (length t) t with
  | Some t =>
      let t := online_weight_put (u64 now) (current_weight weight (reps o)) t in
      Some (mk_online ∅ (trend (minimum o) t) (minimum o), t)
  | None => None
  end.

Definition online_stake (o : online_reps) : Z := Z.max (online o) (minimum o).

(** ** The table stays in order *)

Definition ordered (t : online_weight) : Prop := StronglySorted Z.lt (map fst t).

Lemma put_keys (k x : Z) (t : online_weight) (a : Z) :
  a ∈ map fst (online_weight_put k x t) -> a = k \/ a ∈ map fst t.
Proof.
  induction t as [| [k' x'] t IH]; cbn; [set_solver |].
  destruct (k <? k'); [set_solver |]. destruct (Z.eqb_spec k k') as [-> | _]; set_solver.
Qed.

Lemma put_ordered (k x : Z) (t : online_weight) : ordered t -> ordered (online_weight_put k x t).
Proof.
  unfold ordered. induction t as [| [k' x'] t IH]; cbn; intros S; [repeat constructor |].
  apply StronglySorted_inv in S as [S F].
  destruct (Z.ltb_spec k k') as [L | L]; [| destruct (Z.eqb_spec k k') as [-> | N]].
  - constructor; [now constructor |]. constructor; [done |]. eapply Forall_impl; [exact F |]. cbn. lia.
  - now constructor.
  - constructor; [now apply IH |]. rewrite Forall_forall in *. intros a Ha. cbn.
    apply put_keys in Ha as [-> | Ha]; [lia | now apply F].
Qed.

Lemma put_length (k x : Z) (t : online_weight) :
  (length (online_weight_put k x t) <= S (length t))%nat.
Proof.
  induction t as [| [k' x'] t IH]; cbn; [lia |].
  destruct (k <? k'); [cbn; lia |]. destruct (k =? k'); cbn; lia.
Qed.

Lemma put_elem (k x : Z) (t : online_weight) : (k, x) ∈ online_weight_put k x t.
Proof.
  induction t as [| [k' x'] t IH]; cbn; [set_solver |].
  destruct (k <? k'); [set_solver |]. destruct (k =? k'); set_solver.
Qed.

(** Deleting the oldest entry. *)
Lemma del_begin (k x : Z) (t : online_weight) :
  ordered ((k, x) :: t) -> online_weight_del k ((k, x) :: t) = Some t.
Proof.
  unfold ordered, online_weight_del. cbn. intros [_ F]%StronglySorted_inv. rewrite Z.eqb_refl. cbn. f_equal.
  rewrite Forall_map in F. induction F as [| y t Hy F IH]; cbn; [done |].
  destruct (Z.eqb_spec (fst y) k); [cbn in Hy; lia |]. cbn. now rewrite IH.
Qed.

Lemma drop_ordered (n : nat) (t : online_weight) : ordered t -> ordered (drop n t).
Proof.
  unfold ordered. revert t. induction n as [| n IH]; intros [| x t] S; cbn; try done.
  apply IH. now apply StronglySorted_inv in S as [S _].
Qed.

Lemma weight_samples_pos : (0 < weight_samples)%nat.
Proof. unfold weight_samples. destruct is_live_network; lia. Qed.

(** The loop ends within a step for each entry, and keeps the newest. *)
Lemma discard_spec (t : online_weight) : forall fuel, ordered t -> (length t <= fuel)%nat ->
  discard fuel t = Some (drop (length t - (weight_samples - 1)) t).
Proof.
  pose proof weight_samples_pos as P.
  induction t as [| [k x] t IH]; intros fuel O L.
  - destruct fuel; cbn [discard online_weight_count length];
      destruct (Nat.leb_spec weight_samples 0); try lia; done.
  - destruct fuel as [| n]; cbn [length] in L; [lia |]. cbn [discard]. unfold online_weight_count.
    destruct (Nat.leb_spec weight_samples (length ((k, x) :: t))) as [G | G]; cbn [length] in G.
    + cbn [online_weight_begin head fst]. rewrite (del_begin k x t O).
      rewrite IH; [| now apply (drop_ordered 1) in O | lia]. cbn [length].
      replace (S (length t) - (weight_samples - 1))%nat with (S (length t - (weight_samples - 1)))%nat by lia. done.
    + cbn [length]. now replace (S (length t) - (weight_samples - 1))%nat with 0%nat by lia.
Qed.

(** ** The median *)

Definition count (P : Z -> bool) (l : list Z) : nat := length (List.filter P l).

Definition below (lo x : Z) : bool := x <? lo.
Definition above (hi x : Z) : bool := hi <? x.
Definition within (lo hi x : Z) : bool := (lo <=? x) && (x <=? hi).

Lemma count_perm (P : Z -> bool) (l l' : list Z) : l ≡ₚ l' -> count P l = count P l'.
Proof.
  unfold count. induction 1 as [| x l l' _ IH | x y l | l1 l2 l3 _ IH1 _ IH2]; cbn.
  - done.
  - destruct (P x); cbn; lia.
  - destruct (P x), (P y); cbn; lia.
  - lia.
Qed.

(** In a sorted list, what comes before an index is below, and after it above. *)
Lemma sorted_counts (lo hi : Z) (l : list Z) : forall k, StronglySorted Z.le l -> (k < length l)%nat ->
  (nth k l 0 < lo -> (k < count (below lo) l)%nat) /\
  (hi < nth k l 0 -> (length l - k <= count (above hi) l)%nat).
Proof.
  unfold count, below, above. induction l as [| x l IH]; intros k S L; cbn [length] in L; [lia |].
  apply StronglySorted_inv in S as [S F]. destruct k as [| k]; cbn [nth List.filter].
  - split.
    + intros H. rewrite (proj2 (Z.ltb_lt _ _) H). cbn. lia.
    + intros H. rewrite (proj2 (Z.ltb_lt _ _) H). cbn [length].
      assert (E : List.filter (fun x => hi <? x) l = l).
      { clear -F H. induction F as [| y l Hy F IH]; cbn; [done |].
        destruct (Z.ltb_spec hi y); [now rewrite IH | lia]. }
      rewrite E. lia.
  - destruct (IH k S ltac:(lia)) as [H1 H2]. split; intros H.
    + specialize (H1 H). rewrite Forall_forall in F.
      assert (x <= nth k l 0) by (apply F, list_elem_of_In, nth_In; lia).
      destruct (Z.ltb_spec x lo); cbn [length]; lia.
    + specialize (H2 H). destruct (hi <? x); cbn [length]; lia.
Qed.

Lemma nth_element_sorted (l : list Z) : StronglySorted Z.le (merge_sort Z.le l) /\ merge_sort Z.le l ≡ₚ l.
Proof.
  split; [| apply merge_sort_Permutation]. apply Sorted_StronglySorted; [intros ? ? ?; lia |].
  apply (Sorted_merge_sort Z.le).
Qed.

Lemma nth_element_between (lo hi : Z) (k : nat) (l : list Z) : (k < length l)%nat ->
  (count (below lo) l <= k)%nat -> (count (above hi) l < length l - k)%nat ->
  lo <= nth_element k l <= hi.
Proof.
  intros L H1 H2. destruct (nth_element_sorted l) as [S P]. unfold nth_element.
  assert (L' : (k < length (merge_sort Z.le l))%nat) by now rewrite P.
  destruct (sorted_counts lo hi _ k S L') as [C1 C2]. rewrite (Permutation_length P) in C2.
  rewrite (count_perm _ _ _ P) in C1. rewrite (count_perm _ _ _ P) in C2. split.
  - destruct (Z.le_gt_cases lo (nth k (merge_sort Z.le l) 0)) as [? | G]; [done |]. specialize (C1 G). lia.
  - destruct (Z.le_gt_cases (nth k (merge_sort Z.le l) 0) hi) as [? | G]; [done |]. specialize (C2 G). lia.
Qed.

Lemma nth_element_elem (k : nat) (l : list Z) : (k < length l)%nat -> nth_element k l ∈ l.
Proof.
  intros L. destruct (nth_element_sorted l) as [_ P]. unfold nth_element. rewrite <- P at 2.
  apply list_elem_of_In, nth_In. now rewrite P.
Qed.

(** The items in a range, and those below and above it. *)
Lemma count_split (lo hi : Z) (l : list Z) : lo <= hi ->
  (count (below lo) l + count (within lo hi) l + count (above hi) l = length l)%nat.
Proof.
  intros H. unfold count, below, within, above. induction l as [| x l IH]; cbn; [done |].
  destruct (Z.ltb_spec x lo), (Z.leb_spec lo x), (Z.leb_spec x hi), (Z.ltb_spec hi x); cbn; lia.
Qed.

(** ** Theorems *)

(** C29: sampling fails no assertion and ends, discarding the oldest samples one by
    one until there is room; the table stays in order and within its bound and has
    the new sample, and the representatives seen are forgotten.  The stake is at
    least the minimum, and wherever more than half of the samples and the minimum
    lie, there lies the trend: a minority of the samples cannot move it further. *)
Theorem sample_exact (weight : Z -> Z) (now : Z) (o : online_reps) (t : online_weight) (Ht : ordered t) :
  exists o' t', sample weight now o t = Some (o', t') /\
    t' = online_weight_put (u64 now) (current_weight weight (reps o)) (drop (length t - (weight_samples - 1)) t) /\
    ordered t' /\ (length t' <= weight_samples)%nat /\ (u64 now, current_weight weight (reps o)) ∈ t' /\
    reps o' = ∅ /\ minimum o <= online_stake o' /\
    (online o' = minimum o \/ exists k, (k, online o') ∈ t') /\
    forall lo hi, lo <= hi ->
      (length (minimum o :: map snd t') < 2 * count (within lo hi) (minimum o :: map snd t'))%nat ->
      lo <= online o' <= hi.
Proof.
  unfold sample. rewrite (discard_spec t (length t) Ht) by lia. eexists _, _. split; [reflexivity |]. split; [reflexivity |].
  set (t1 := drop _ t). assert (O1 : ordered t1) by now apply drop_ordered.
  set (t' := online_weight_put _ _ t1). set (items := minimum o :: map snd t').
  pose proof weight_samples_pos. assert (L1 : (length t1 <= weight_samples - 1)%nat).
  { unfold t1. rewrite length_drop. lia. }
  pose proof (put_length (u64 now) (current_weight weight (reps o)) t1) as L2. fold t' in L2.
  assert (K : (length items / 2 < length items)%nat) by (apply Nat.div_lt; cbn; lia).
  cbn [reps online minimum]. change (trend (minimum o) t') with (nth_element (length items / 2) items).
  split; [now apply put_ordered |]. split; [lia |]. split; [apply put_elem |]. split; [done |].
  split; [unfold online_stake; cbn; lia |]. split.
  - pose proof (nth_element_elem (length items / 2) items K) as E. unfold items at 3 in E.
    apply elem_of_cons in E as [E | E]; [now left |]. right.
    apply list_elem_of_fmap in E as ([k x] & E & Hx). exists k. cbn [snd] in E. now rewrite E.
  - intros lo hi H2 C. fold items in C. pose proof (count_split lo hi items H2) as S.
    pose proof (Nat.div_mod_eq (length items) 2) as D. pose proof (Nat.mod_upper_bound (length items) 2 ltac:(lia)).
    apply nth_element_between; [exact K | lia | lia].
Qed.

End Operations.

Lemma sample_exact_witness :
  let NW := Build_Network false in
  exists o' t', sample (fun a => 10 * a) 300 (mk_online {[ 3; 4 ]} 0 50) [(100, 60); (200, 80)] = Some (o', t') /\
    minimum (mk_online {[ 3; 4 ]} 0 50) <= online_stake o'.
Proof.
  intros NW. destruct (sample_exact (fun a => 10 * a) 300 (mk_online {[ 3; 4 ]} 0 50) [(100, 60); (200, 80)])
    as (o' & t' & E & _ & _ & _ & _ & _ & H & _).
  - repeat constructor.
  - exists o', t'. split; [exact E | exact H].
Defined.

End OnlineReps.
