(* ===== verification/VoteProcessor.v ===== *)
(** * Processing votes

    Model of [nano::vote_processor] and of the node's reaction to a vote
    ([nano/node/node.cpp]): the queue with its levels of early detection, the
    verification of a batch, and [vote_blocking], which composes the sequence numbers
    of [VoteStore], the elections of [Elections], the gaps of [Caches] and the
    representatives of [OnlineReps].  The thread of the processor takes the queue,
    verifies it and then handles one vote after the other, while other threads queue
    votes, run elections, make votes and flush.  [None] is a failed assertion. *)

From stdpp Require Import base gmap list.
From Stdlib Require Import ZArith Lia.
From S2P Require Import Prelude Blocks Numbers Store Ledger LedgerInv Work Votes Elections ElectionInv ElectionTheorems LedgerTheorems Signing VoteStore Caches OnlineReps.
Local Open Scope Z_scope.

Module VoteProcessor.
Module V := Votes.Votes.
Module W := Work.Work.
Module E := Elections.Elections.
Module EI := ElectionInv.ElectionInv.
Module ET := ElectionTheorems.ElectionTheorems.
Module VS := VoteStore.VoteStore.
Module G := GapCache.
Module R := OnlineReps.

#[local] Existing Instance Ledger.Ledger.env_hash.

(** The node's signature checker: one verdict for each signature, by key, message
    and signature; a valid signature is not refused. *)
Class Checker `{SG : VS.Signatures} := {
  verify : list (Z * Z * Z) -> list Z;
  verify_length (l : list (Z * Z * Z)) : length (verify l) = length l;
  verify_binary (l : list (Z * Z * Z)) : Forall (fun r => r = 0 \/ r = 1) (verify l);
  verify_complete (l : list (Z * Z * Z)) (i : nat) (a m s : Z) :
    nth_error l i = Some (a, m, s) -> VS.validate_message a m s = false -> nth_error (verify l) i = Some 1 }.

(** ** The queue *)

Definition queued : Type := V.vote * Z.      (* a vote and the endpoint it came from *)

Record processor := mk_processor {
  votes : list queued;
  representatives_1 : gset Z; representatives_2 : gset Z; representatives_3 : gset Z;
  vp_stopped : bool;
  vote_overflow : Z }.                       (* the counter *)

Section Queue.

Context `{WE : W.WorkEnv}.

Definition level (p : processor) (a : Z) : bool :=
  if negb W.is_test_network then
    let n := length (votes p) in
    if (Z.of_nat n <? 96 * 1024) then true
    else if (Z.of_nat n <? 112 * 1024) then bool_decide (a ∈ representatives_1 p)
    else if (Z.of_nat n <? 128 * 1024) then bool_decide (a ∈ representatives_2 p)
    else if (Z.of_nat n <? 144 * 1024) then bool_decide (a ∈ representatives_3 p)
    else false
  else true.

Definition processor_vote (v : V.vote) (endpoint : Z) (p : processor) : processor :=
  if vp_stopped p then p
  else if level p (V.vote_account v)
  then mk_processor (votes p ++ [(v, endpoint)]) (representatives_1 p) (representatives_2 p) (representatives_3 p)
         false (vote_overflow p)
  else mk_processor (votes p) (representatives_1 p) (representatives_2 p) (representatives_3 p)
         false (vote_overflow p + 1).

Definition processor_stop (p : processor) : processor :=
  mk_processor (votes p) (representatives_1 p) (representatives_2 p) (representatives_3 p) true (vote_overflow p).

(** The sets of one representative of the loop of [calculate_weights]. *)
Definition classify (supply : Z) (weight : Z -> Z) (r : gset Z * gset Z * gset Z) (a : Z) : gset Z * gset Z * gset Z :=
  let '(r1, r2, r3) := r in
  let w := weight a in
  if supply / 1000 <? w then
    let r1 := {[ a ]} ∪ r1 in
    if supply / 100 <? w then
      let r2 := {[ a ]} ∪ r2 in
      if supply / 20 <? w then (r1, r2, {[ a ]} ∪ r3) else (r1, r2, r3)
    else (r1, r2, r3)
  else (r1, r2, r3).

(** [keys]: the representation table. *)
Definition calculate_weights (supply : Z) (weight : Z -> Z) (keys : list Z) (p : processor) : processor :=
  if vp_stopped p then p
  else
    let '(r1, r2, r3) := fold_left (classify supply weight) keys (∅, ∅, ∅) in
    mk_processor (votes p) r1 r2 r3 false (vote_overflow p).

(** Who is in which set. *)
Definition share (supply n : Z) (weight : Z -> Z) (keys : list Z) (a : Z) : Prop := a ∈ keys /\ supply / n < weight a.

(** The three sets are independent, the thresholds being nested. *)
Definition with_share (supply n : Z) (weight : Z -> Z) (r : gset Z) (a : Z) : gset Z :=
  if supply / n <? weight a then {[ a ]} ∪ r else r.

Lemma classify_eq (supply : Z) (weight : Z -> Z) (r1 r2 r3 : gset Z) (a : Z) : 0 <= supply ->
  classify supply weight (r1, r2, r3) a =
  (with_share supply 1000 weight r1 a, with_share supply 100 weight r2 a, with_share supply 20 weight r3 a).
Proof.
  intros Hs. unfold classify, with_share.
  assert (D : supply / 1000 <= supply / 100 <= supply / 20).
  { split; apply Z.div_le_compat_l; lia. }
  destruct (Z.ltb_spec (supply / 1000) (weight a)), (Z.ltb_spec (supply / 100) (weight a)),
    (Z.ltb_spec (supply / 20) (weight a)); (done || lia).
Qed.

Lemma with_share_spec (supply n : Z) (weight : Z -> Z) (keys : list Z) (a : Z) : forall r,
  a ∈ fold_left (with_share supply n weight) keys r <-> a ∈ r \/ share supply n weight keys a.
Proof.
  unfold share. induction keys as [| k keys IH]; intros r; cbn [fold_left]; [set_solver |].
  rewrite IH, elem_of_cons. unfold with_share. destruct (Z.ltb_spec (supply / n) (weight k)) as [L | L].
  - rewrite elem_of_union, elem_of_singleton. naive_solver.
  - naive_solver lia.
Qed.

Lemma classify_fold (supply : Z) (weight : Z -> Z) (keys : list Z) : 0 <= supply -> forall r1 r2 r3,
  fold_left (classify supply weight) keys (r1, r2, r3) =
  (fold_left (with_share supply 1000 weight) keys r1, fold_left (with_share supply 100 weight) keys r2,
   fold_left (with_share supply 20 weight) keys r3).
Proof.
  intros Hs. induction keys as [| k keys IH]; intros r1 r2 r3; [done |].
  cbn [fold_left]. now rewrite classify_eq, IH.
Qed.

End Queue.

(** ** The reaction to a vote *)

Inductive vote_code := vc_invalid | vc_replay | vc_vote.

(** What goes out: a newer vote sent back to a peer, and alarms of the gaps. *)
Inductive sent := confirm_sent (v : V.vote) (endpoint : Z) | gap_alarm_set (time h : Z).

Record voting := mk_voting {
  v_system : E.system; v_store : VS.vstate; v_gaps : G.gap_cache; v_online : R.online_reps; v_sent : list sent }.

Record gap_flags := mk_flags { fraction_numerator : Z; no_lazy : bool; no_legacy : bool }.

Section Operations.

Context `{LE : Ledger.Ledger.Env, WE : W.WorkEnv, IT : E.Iteration, CF : E.Config, SG : VS.Signatures, CK : !Checker}.
Context (fl : gap_flags).

Section WithEnv.

Context `{VE : E.VoteEnv}.

Definition gap_env_now : G.gap_env :=
  G.mk_gap_env E.weight E.online_weight_minimum E.online_stake (fraction_numerator fl) (no_lazy fl) (no_legacy fl)
    (1000 * E.steady_now).

(** The observer of votes that the node installs: the gaps and the representatives
    that are online.  What it tells the crawler of representatives is not modelled. *)
Definition observe_vote (v : V.vote) (st : voting) : voting :=
  let (g, alarms) := G.gap_vote gap_env_now v (v_gaps st) in
  mk_voting (v_system st) (v_store st) g (R.observe E.weight (V.vote_account v) (v_online st))
    (v_sent st ++ map (fun x => gap_alarm_set (fst x) (snd x)) alarms).

(** [vote_blocking] in a transaction of the given age. *)
Definition vote_blocking (age : nat) (v : V.vote) (endpoint : Z) (validated : bool) (st : voting)
    : option (vote_code * voting) :=
  if validated || negb (VS.vote_validate v) then
    match VS.vote_max (VS.snapshot (v_store st) age) (VS.vs_store (v_store st)) v with
    | Some (max_vote, s) =>
        match E.active_vote (E.sys_active (v_system st)) v with
        | Some (replay, a) =>
            let st := mk_voting (E.mk_system a (E.sys_inactive (v_system st))) (VS.with_store (v_store st) s)
                        (v_gaps st) (v_online st) (v_sent st) in
            let st := if replay then st else observe_vote v st in
            let st := if u64 (V.sequence v + 10000) <? V.sequence max_vote
                      then mk_voting (v_system st) (v_store st) (v_gaps st) (v_online st)
                             (v_sent st ++ [confirm_sent max_vote endpoint])
                      else st in
            Some (if replay then vc_replay else vc_vote, st)
        | None => None
        end
    | None => None
    end
  else Some (vc_invalid, st).

End WithEnv.

(** [verify_votes]: the assertion that a verdict is 0 or 1, and the votes it keeps. *)
Fixpoint keep_verified (l : list queued) (r : list Z) : option (list queued) :=
  match l, r with
  | [], _ => Some []
  | x :: l', y :: r' =>
      if (y =? 1) || (y =? 0)
      then option_map (fun k => if y =? 1 then x :: k else k) (keep_verified l' r')
      else None
  | _ :: _, [] => None
  end.

Definition check_of (x : queued) : Z * Z * Z := (V.vote_account (fst x), VS.digest (fst x), V.signature (fst x)).

Definition verify_votes (l : list queued) : option (list queued) := keep_verified l (verify (map check_of l)).

(** ** The thread of the processor among the others *)

Record node := mk_node {
  n_processor : processor; n_batch : list queued; n_voting : voting;
  n_accepted : list queued;                  (* all that were queued, in order *)
  n_handled : list queued }.                 (* all that [vote_blocking] saw, in order *)

Inductive event :=
| ev_arrive (v : V.vote) (endpoint : Z)
| ev_take
| ev_handle (age : nat)
| ev_weights (keys : list Z)
| ev_stop
| ev_election (x : E.event)
| ev_store (x : VS.event)
| ev_gap (h t : Z)
| ev_sample (now : Z) (t : R.online_weight).

Inductive outcome := fine (n : node) | assertion | impossible.

Definition set_processor (n : node) (p : processor) : node :=
  mk_node p (n_batch n) (n_voting n) (n_accepted n) (n_handled n).
Definition set_voting (n : node) (v : voting) : node :=
  mk_node (n_processor n) (n_batch n) v (n_accepted n) (n_handled n).

(** A vote of the node itself is queued like one from the network. *)
Definition arrive (v : V.vote) (endpoint : Z) (n : node) : node :=
  let p := processor_vote v endpoint (n_processor n) in
  mk_node p (n_batch n) (n_voting n)
    (n_accepted n ++ drop (length (votes (n_processor n))) (votes p)) (n_handled n).

Definition take_queue (p : processor) : processor :=
  mk_processor [] (representatives_1 p) (representatives_2 p) (representatives_3 p) (vp_stopped p) (vote_overflow p).

(** The stake the elections see is the one of [online_reps]. *)
Definition env_now (VE : E.VoteEnv) (st : voting) : E.VoteEnv := {|
  E.weight := E.weight; E.ve_store := E.ve_store; E.online_stake := R.online_stake (v_online st);
  E.steady_now := E.steady_now; E.system_now := E.system_now;
  E.representatives := E.representatives; E.list_vector := E.list_vector |}.

Definition step (VE : E.VoteEnv) (n : node) (e : event) : outcome :=
  let st := n_voting n in
  let VE := env_now VE st in
  match e with
  | ev_arrive v endpoint => fine (arrive v endpoint n)
  | ev_take =>
      match n_batch n, votes (n_processor n) with
      | [], _ :: _ =>
          if vp_stopped (n_processor n) then impossible
          else match verify_votes (votes (n_processor n)) with
               | Some l => fine (mk_node (take_queue (n_processor n)) l st (n_accepted n) (n_handled n))
               | None => assertion
               end
      | _, _ => impossible
      end
  | ev_handle age =>
      match n_batch n with
      | (v, endpoint) :: l =>
          match vote_blocking age v endpoint true st with
          | Some (_, st') => fine (mk_node (n_processor n) l st' (n_accepted n) (n_handled n ++ [(v, endpoint)]))
          | None => assertion
          end
      | [] => impossible
      end
  | ev_weights keys =>
      fine (set_processor n (calculate_weights (R.online_stake (v_online st)) E.weight keys (n_processor n)))
  | ev_stop => fine (set_processor n (processor_stop (n_processor n)))
  | ev_election x =>
      match E.event_step VE (v_system st) x with
      | E.ok s => fine (set_voting n (mk_voting s (v_store st) (v_gaps st) (v_online st) (v_sent st)))
      | E.assertion_failed => assertion
      | E.cannot_happen => impossible
      end
  | ev_store x =>
      match VS.event_step (v_store st) x with
      | Some (_, s) => fine (set_voting n (mk_voting (v_system st) s (v_gaps st) (v_online st) (v_sent st)))
      | None => assertion
      end
  | ev_gap h t =>
      fine (set_voting n (mk_voting (v_system st) (v_store st) (G.gap_add h t (v_gaps st)) (v_online st) (v_sent st)))
  | ev_sample now t =>
      match R.sample (NW := R.Build_Network E.is_live_network) E.weight now (v_online st) t with
      | Some (o, _) => fine (set_voting n (mk_voting (v_system st) (v_store st) (v_gaps st) o (v_sent st)))
      | None => assertion
      end
  end.

Fixpoint run (n : node) (es : list (E.VoteEnv * event)) : outcome :=
  match es with
  | [] => fine n
  | (env, e) :: es' => match step env n e with fine n' => run n' es' | o => o end
  end.

(** ** Invariant *)

Definition max_queue : Z := 144 * 1024.

(** The levels are nested, and the last one ends at [max_queue]. *)
Record processor_ok (p : processor) : Prop := {
  po_bound : W.is_test_network = false -> Z.of_nat (length (votes p)) <= max_queue;
  po_nested : representatives_3 p ⊆ representatives_2 p /\ representatives_2 p ⊆ representatives_1 p }.

Lemma level_bound (p : processor) (a : Z) : W.is_test_network = false -> level p a = true ->
  Z.of_nat (length (votes p)) < max_queue.
Proof.
  intros T. unfold level, max_queue. rewrite T. cbn [negb].
  repeat match goal with |- context [if ?x <? ?y then _ else _] => destruct (Z.ltb_spec x y); [lia |] end. done.
Qed.

Lemma processor_vote_ok (v : V.vote) (ep : Z) (p : processor) : processor_ok p -> processor_ok (processor_vote v ep p).
Proof.
  intros [B N]. unfold processor_vote. destruct (vp_stopped p); [done |].
  destruct (level p (V.vote_account v)) eqn:L; split; cbn; try done.
  intros T. rewrite length_app. cbn. pose proof (level_bound p _ T L). lia.
Qed.

Lemma calculate_weights_ok (supply : Z) (weight : Z -> Z) (keys : list Z) (p : processor) : 0 <= supply ->
  processor_ok p -> processor_ok (calculate_weights supply weight keys p).
Proof.
  intros Hs [B N]. unfold calculate_weights. destruct (vp_stopped p); [done |].
  rewrite (classify_fold supply weight keys Hs). split; cbn; [done |].
  assert (D : supply / 1000 <= supply / 100 <= supply / 20) by (split; apply Z.div_le_compat_l; lia).
  split; intros a; rewrite !with_share_spec; unfold share;
    (intros [Ha | [Ha Hw]]; [now apply not_elem_of_empty in Ha | right; split; [done | lia]]).
Qed.

(** *** Verification *)

Lemma keep_verified_spec (l : list queued) : forall r, length r = length l -> Forall (fun y => y = 0 \/ y = 1) r ->
  exists k, keep_verified l r = Some k /\ k `sublist_of` l /\
    forall i x, nth_error l i = Some x -> nth_error r i = Some 1 -> x ∈ k.
Proof.
  induction l as [| x l IH]; intros [| y r] L F; try discriminate L; cbn [keep_verified].
  - exists []. split; [done |]. split; [constructor |]. intros [| i] x E; discriminate E.
  - apply Forall_cons in F as [Fy F]. injection L as L. destruct (IH r L F) as (k & -> & S & C).
    assert (T : (y =? 1) || (y =? 0) = true) by (destruct Fy as [-> | ->]; done). rewrite T. cbn [option_map].
    eexists. split; [reflexivity |]. split.
    + destruct (y =? 1); [now constructor | now apply sublist_cons].
    + intros [| i] x' Ex Er; cbn in Ex, Er; simplify_eq.
      * cbn. now left.
      * specialize (C i x' Ex Er). destruct (y =? 1); [now right | done].
Qed.

Lemma verify_votes_spec (l : list queued) : exists k, verify_votes l = Some k /\ k `sublist_of` l /\
  forall x, x ∈ l -> VS.vote_validate (fst x) = false -> x ∈ k.
Proof.
  unfold verify_votes. set (q := map check_of l).
  destruct (keep_verified_spec l (verify q)) as (k & E & S & C).
  - rewrite verify_length. unfold q. apply length_map.
  - apply verify_binary.
  - exists k. split; [done |]. split; [done |]. intros x Hx Hv.
    apply list_elem_of_In, In_nth_error in Hx as [i Hi]. apply (C i x Hi).
    unfold q. eapply verify_complete; [| exact Hv]. erewrite map_nth_error; [reflexivity | exact Hi].
Qed.

(** *** The node *)

Context (U : Block.block -> Prop).

Definition good (x : queued) : Prop := V.vote_ok (fst x) /\ V.vote_account (fst x) <> E.not_an_account.

(** What was accepted has been taken or is queued; what was taken and is valid has
    been handled or is in the batch, in order. *)
Definition in_order (n : node) : Prop :=
  exists taken, n_accepted n = taken ++ votes (n_processor n) /\
    n_handled n ++ n_batch n `sublist_of` taken /\
    forall x, x ∈ taken -> VS.vote_validate (fst x) = false -> x ∈ n_handled n ++ n_batch n.

Record voting_ok (st : voting) : Prop := {
  vo_system : ET.system_inv U (v_system st);
  vo_store : VS.state_ok (v_store st);
  vo_gaps : G.gap_ok (fun _ _ => True) (v_gaps st);
  vo_minimum : 0 <= R.minimum (v_online st) }.

Record node_inv (n : node) : Prop := {
  ni_processor : processor_ok (n_processor n);
  ni_voting : voting_ok (n_voting n);
  ni_good : Forall good (votes (n_processor n)) /\ Forall good (n_batch n);
  ni_order : in_order n }.

(** What the other parts of the node promise. *)
Definition event_fair (VE : E.VoteEnv) (n : node) (e : event) : Prop :=
  let st := n_voting n in
  match e with
  | ev_arrive v _ => V.vote_ok v /\ V.vote_account v <> E.not_an_account
  | ev_handle age => (age <= if VS.flushing (v_store st) then 0 else 1)%nat
  | ev_election x => ET.env_ok U VE /\ ET.event_fair U (v_system st) x
  | ev_store x => VS.event_ok (VS.flushing (v_store st)) x /\
      forall a, VS.current_sequence (v_store st) a < 2 ^ 64 - 1
  | ev_sample _ t => R.ordered t
  | _ => True
  end.

Fixpoint fair (n : node) (es : list (E.VoteEnv * event)) : Prop :=
  match es with
  | [] => True
  | (env, e) :: es' => event_fair env n e /\ match step env n e with fine n' => fair n' es' | _ => True end
  end.

Context (hash_root : forall b b', U b -> U b' -> Block.hash b = Block.hash b' -> E.root_of b = E.root_of b').
Context (U_word : forall b, U b -> word 256 (Block.previous b)).

Lemma gap_any_ok (E : G.gap_env) (v : V.vote) (c : G.gap_cache) :
  G.gap_ok (fun _ _ => True) c -> G.gap_ok (fun _ _ => True) (fst (G.gap_vote E v c)).
Proof. intros O. now apply G.gap_vote_ok. Qed.

Lemma observe_minimum (w : Z -> Z) (a : Z) (o : R.online_reps) : R.minimum (R.observe w a o) = R.minimum o.
Proof. unfold R.observe. now destruct (_ <? _). Qed.

Lemma observe_vote_ok (VE : E.VoteEnv) (v : V.vote) (st : voting) : voting_ok st -> voting_ok (observe_vote v st).
Proof.
  intros [H1 H2 H3 H4]. unfold observe_vote. pose proof (gap_any_ok gap_env_now v (v_gaps st) H3) as G.
  destruct (G.gap_vote gap_env_now v (v_gaps st)). split; cbn; try done. now rewrite observe_minimum.
Qed.

(** [vote_blocking] fails no assertion, keeps the invariant, and raises the number of
    the account to that of the vote. *)
Lemma vote_blocking_ok (VE : E.VoteEnv) (age : nat) (v : V.vote) (ep : Z) (validated : bool) (st : voting) :
  voting_ok st -> good (v, ep) -> (age <= if VS.flushing (v_store st) then 0 else 1)%nat ->
  exists c st', vote_blocking age v ep validated st = Some (c, st') /\ voting_ok st'.
Proof.
  intros O [Gv Ga] Ha. unfold vote_blocking. destruct (validated || _); [| now exists vc_invalid, st].
  pose proof O as [H1 H2 H3 H4]. cbn [fst] in Gv, Ga.
  destruct (VS.max_step (v_store st) age v H2 Gv Ha) as (mv & s' & -> & Es & Hs & _).
  destruct (EI.active_vote_inv U hash_root U_word [] (E.sys_active (v_system st)) v (ET.si_active _ _ H1) Ga)
    as (replay & a & -> & Hi & Hr).
  rewrite <- Es. set (st1 := mk_voting (E.mk_system a (E.sys_inactive (v_system st))) s' (v_gaps st) (v_online st) (v_sent st)).
  assert (O1 : voting_ok st1).
  { split; cbn; try done; [| apply (VS.sp_ok _ _ _ _ Hs)]. apply ET.step_keeps; try done.
    unfold EI.keys. now rewrite Hr. }
  assert (O2 : voting_ok (if replay then st1 else observe_vote v st1)).
  { destruct replay; [done | now apply observe_vote_ok]. }
  set (st2 := if replay then _ else _) in *. clearbody st2.
  eexists _, _. split; [reflexivity |]. destruct (_ <? _); [| done]. destruct O2. now split.
Qed.

Lemma arrive_inv (n : node) (v : V.vote) (ep : Z) : node_inv n -> good (v, ep) -> node_inv (arrive v ep n).
Proof.
  intros [H1 H2 [H3 H3'] (taken & Ea & Es & Ev)] Hg. unfold arrive. split; cbn; try done.
  - now apply processor_vote_ok.
  - unfold processor_vote. destruct (vp_stopped _); [done |]. destruct (level _ _); [| done]. cbn.
    split; [| done]. apply Forall_app. split; [done |]. constructor; [exact Hg | constructor].
  - exists taken. cbn. split; [| done]. rewrite Ea, <- app_assoc. f_equal. unfold processor_vote.
    destruct (vp_stopped _); [now rewrite drop_all, app_nil_r |].
    destruct (level _ _); cbn; [now rewrite drop_app_length | now rewrite drop_all, app_nil_r].
Qed.

Lemma take_inv (n : node) (l : list queued) : node_inv n -> n_batch n = [] ->
  verify_votes (votes (n_processor n)) = Some l ->
  node_inv (mk_node (take_queue (n_processor n)) l (n_voting n) (n_accepted n) (n_handled n)).
Proof.
  intros [H1 H2 [H3 _] (taken & Ea & Es & Ev)] Eb El.
  destruct (verify_votes_spec (votes (n_processor n))) as (k & Ek & S & C). rewrite El in Ek. simplify_eq.
  rewrite Eb, app_nil_r in Es, Ev. split; cbn; try done.
  - destruct H1 as [_ N]. split; cbn; [| done]. intros _. unfold max_queue. lia.
  - split; [constructor |]. rewrite Forall_forall in *. intros x Hx. apply H3. now apply (sublist_subseteq _ _ S).
  - exists (n_accepted n). cbn. rewrite app_nil_r. split; [done |]. rewrite Ea. split; [now apply sublist_app |].
    intros x [Hx | Hx]%elem_of_app Hv; apply elem_of_app; [left; now apply Ev | right; now apply C].
Qed.

Lemma handle_inv (n : node) (x : queued) (l : list queued) (st : voting) : node_inv n -> n_batch n = x :: l ->
  voting_ok st -> node_inv (mk_node (n_processor n) l st (n_accepted n) (n_handled n ++ [x])).
Proof.
  intros [H1 H2 [H3 H4] (taken & Ea & Es & Ev)] Eb O. rewrite Eb in H4, Es, Ev. split; cbn; try done.
  - split; [done |]. now apply Forall_cons in H4 as [_ H4].
  - exists taken. cbn. rewrite <- app_assoc. done.
Qed.

Lemma set_processor_inv (n : node) (p : processor) : node_inv n -> processor_ok p ->
  votes p = votes (n_processor n) -> node_inv (set_processor n p).
Proof.
  intros [H1 H2 [H3 H4] (taken & Ea & Es & Ev)] O E. split; cbn; try done; rewrite ?E; [done |].
  exists taken. cbn. now rewrite E.
Qed.

Lemma set_voting_inv (n : node) (st : voting) : node_inv n -> voting_ok st -> node_inv (set_voting n st).
Proof. intros [H1 H2 H3 H4] O. now split. Qed.

Lemma sample_total (NW : R.Network) (w : Z -> Z) (now : Z) (o : R.online_reps) (t : R.online_weight) : R.ordered t ->
  exists o' t', R.sample w now o t = Some (o', t') /\ R.minimum o' = R.minimum o.
Proof.
  intros O. unfold R.sample. rewrite (R.discard_spec t (length t) O) by lia. eexists _, _. split; [reflexivity | done].
Qed.

Lemma online_stake_nonneg (o : R.online_reps) : 0 <= R.minimum o -> 0 <= R.online_stake o.
Proof. unfold R.online_stake. lia. Qed.

Lemma node_step_inv (VE : E.VoteEnv) (n : node) (e : event) : node_inv n -> event_fair VE n e ->
  step VE n e <> assertion /\ forall n', step VE n e = fine n' -> node_inv n'.
Proof.
  intros I F. pose proof (ni_voting n I) as O. pose proof (vo_minimum _ O) as M.
  destruct e as [v ep | | age | keys | | x | x | h t | now t]; cbn [step event_fair] in *.
  - split; [done |]. intros n' [= <-]. now apply arrive_inv.
  - destruct (n_batch n) as [| x l] eqn:Eb; [| done]. destruct (votes (n_processor n)) as [| y q] eqn:Eq; [done |].
    destruct (vp_stopped _); [done |]. rewrite <- Eq.
    destruct (verify_votes_spec (votes (n_processor n))) as (k & Ek & _). rewrite Ek. split; [done |].
    intros n' [= <-]. now apply take_inv.
  - destruct (n_batch n) as [| [v ep] l] eqn:Eb; [done |].
    assert (Gx : good (v, ep)).
    { destruct (ni_good n I) as [_ Fb]. rewrite Eb in Fb. now apply Forall_cons in Fb as [? _]. }
    destruct (vote_blocking_ok (env_now VE (n_voting n)) age v ep true (n_voting n) O Gx F) as (c & st & -> & O').
    split; [done |]. intros n' [= <-]. now apply handle_inv.
  - split; [done |]. intros n' [= <-]. apply set_processor_inv; [done | |].
    + apply calculate_weights_ok; [now apply online_stake_nonneg | apply I].
    + unfold calculate_weights. destruct (vp_stopped _); [done |]. now destruct (fold_left _ _ _) as [[? ?] ?].
  - split; [done |]. intros n' [= <-]. apply set_processor_inv; [done | | done]. destruct (ni_processor n I). now split.
  - destruct F as [Fe Fx].
    destruct (ET.event_step_inv U hash_root U_word (env_now VE (n_voting n)) (v_system (n_voting n)) x Fe Fx (vo_system _ O))
      as [N K].
    destruct (E.event_step _ _ x) as [s | |]; [| done | done]. split; [done |]. intros n' [= <-].
    apply set_voting_inv; [done |]. destruct O. split; cbn; auto.
  - destruct F as [Fx Fs]. destruct (VS.event_step_ok (v_store (n_voting n)) x (vo_store _ O) Fx Fs) as (o & s & -> & _ & Hs).
    split; [done |]. intros n' [= <-]. apply set_voting_inv; [done |]. destruct O. split; cbn; try done.
    apply (VS.sp_ok _ _ _ _ Hs).
  - split; [done |]. intros n' [= <-]. apply set_voting_inv; [done |]. destruct O. split; cbn; try done. now apply G.gap_add_ok.
  - match goal with |- context [R.sample (NW := ?NW) ?w now ?o t] =>
      destruct (sample_total NW w now o t F) as (o' & t' & -> & Em) end.
    split; [done |]. intros n' [= <-]. apply set_voting_inv; [done |]. destruct O. split; cbn; try done. now rewrite Em.
Qed.

Lemma node_run_inv (es : list (E.VoteEnv * event)) : forall n, node_inv n -> fair n es ->
  run n es <> assertion /\ forall n', run n es = fine n' -> node_inv n'.
Proof.
  induction es as [| [env e] es IH]; intros n I F; cbn [run].
  - split; [done |]. now intros n' [= <-].
  - destruct F as [Fe F]. destruct (node_step_inv env n e I Fe) as [N K].
    destruct (step env n e) as [n1 | |]; [now apply IH; auto | done | done].
Qed.

(** A node that starts with a table of votes and a table of weights. *)
Definition start_node (t : gmap Z (list Z)) (min : Z) (w : R.online_weight) : node :=
  mk_node (mk_processor [] ∅ ∅ ∅ false 0) []
    (mk_voting E.initial_system (VS.start t) [] (R.online_reps_new min w) []) [] [].

Lemma start_node_inv (t : gmap Z (list Z)) (min : Z) (w : R.online_weight) : VS.table_ok t -> 0 <= min ->
  node_inv (start_node t min w).
Proof.
  intros T M. split; cbn.
  - split; cbn; [intros _; unfold max_queue; lia | done].
  - split; cbn; [split; [apply EI.initial_inv | done] | now apply VS.start_ok | | done].
    split; [split; constructor |]. split; [cbn; lia |]. intros g a Hg. now apply not_elem_of_nil in Hg.
  - split; constructor.
  - exists []. cbn. split; [done |]. split; [constructor |]. intros x Hx. now apply not_elem_of_nil in Hx.
Qed.

(** Handling the batch to its end. *)
Lemma handle_all (VE : E.VoteEnv) (l : list queued) : forall n, node_inv n -> n_batch n = l ->
  exists n', run n (repeat (VE, ev_handle 0) (length l)) = fine n' /\ node_inv n' /\ n_batch n' = [] /\
    n_processor n' = n_processor n /\ n_accepted n' = n_accepted n /\ n_handled n' = n_handled n ++ l.
Proof.
  induction l as [| [v ep] l IH]; intros n I Eb; cbn [length repeat run].
  - exists n. rewrite app_nil_r. done.
  - assert (F : event_fair VE n (ev_handle 0)) by (cbn; lia).
    destruct (node_step_inv VE n (ev_handle 0) I F) as [_ K]. cbn [step] in *. rewrite Eb in *.
    assert (Gx : good (v, ep)).
    { destruct (ni_good n I) as [_ Fb]. rewrite Eb in Fb. now apply Forall_cons in Fb as [? _]. }
    destruct (vote_blocking_ok (env_now VE (n_voting n)) 0 v ep true (n_voting n) (ni_voting n I) Gx ltac:(lia))
      as (c & st & E & O'). rewrite E in *.
    destruct (IH _ (K _ eq_refl) eq_refl) as (n' & En & I' & B' & P' & A' & H'). exists n'. split; [exact En |].
    rewrite H'. cbn. rewrite <- app_assoc. done.
Qed.

(** ** Theorems *)


(** A queue that is taken is handled to its end: after taking it and one step for
    each vote that verifies, queue and batch are empty and every valid vote ever
    queued has been handled. *)
Theorem queue_drains (VE : E.VoteEnv) (n : node) (I : node_inv n) (Hb : n_batch n = [])
  (Hq : votes (n_processor n) <> []) (Hs : vp_stopped (n_processor n) = false) :
  exists k n', (k <= length (votes (n_processor n)))%nat /\
    run n ((VE, ev_take) :: repeat (VE, ev_handle 0) k) = fine n' /\
    n_batch n' = [] /\ votes (n_processor n') = [] /\
    forall x, x ∈ n_accepted n -> VS.vote_validate (fst x) = false -> x ∈ n_handled n'.
Proof.
  destruct (verify_votes_spec (votes (n_processor n))) as (l & El & Sl & _).
  destruct (node_step_inv VE n ev_take I Logic.I) as [_ K]. cbn [run step] in *. rewrite Hb in *.
  destruct (votes (n_processor n)) as [| y q] eqn:Eq; [done |]. rewrite Hs in *. rewrite El in *.
  specialize (K _ eq_refl). set (n1 := mk_node _ l _ _ _) in *.
  destruct (handle_all VE l n1 K eq_refl) as (n' & En & I' & B' & P' & A' & H').
  exists (length l), n'. split; [now apply sublist_length in Sl |]. split; [exact En |]. split; [done |].
  rewrite P'. split; [done |]. intros x Hx Hv. destruct (ni_order n' I') as (taken & Ea & _ & Ev).
  rewrite P', A' in Ea. cbn in Ea. rewrite app_nil_r in Ea. rewrite B', app_nil_r in Ev. apply Ev; [| exact Hv].
  now rewrite <- Ea.
Qed.

(** Which votes the queue takes.  After the weights were calculated, a vote is
    refused, and counted, exactly when the queue is at a level its representative
    does not reach: from 96 * 1024 votes on it needs more than a thousandth of the
    stake, from 112 * 1024 more than a hundredth, from 128 * 1024 more than a
    twentieth, and at 144 * 1024 nobody is taken; below, everybody is. *)
Theorem queue_levels (supply : Z) (weight : Z -> Z) (keys : list Z) (p0 : processor) (v : V.vote) (ep : Z)
  (Hs : 0 <= supply) (Hr : vp_stopped p0 = false) (Hn : W.is_test_network = false) :
  let p := calculate_weights supply weight keys p0 in
  let n := Z.of_nat (length (votes p0)) in
  let a := V.vote_account v in
  let takes :=
    n < 96 * 1024 \/ (n < 112 * 1024 /\ share supply 1000 weight keys a) \/
    (n < 128 * 1024 /\ share supply 100 weight keys a) \/ (n < 144 * 1024 /\ share supply 20 weight keys a) in
  (takes -> votes (processor_vote v ep p) = votes p0 ++ [(v, ep)] /\
            vote_overflow (processor_vote v ep p) = vote_overflow p0) /\
  (~ takes -> votes (processor_vote v ep p) = votes p0 /\
              vote_overflow (processor_vote v ep p) = vote_overflow p0 + 1).
Proof.
  intros p n a takes.
  assert (Ep : p = mk_processor (votes p0) (fold_left (with_share supply 1000 weight) keys ∅)
    (fold_left (with_share supply 100 weight) keys ∅) (fold_left (with_share supply 20 weight) keys ∅) false (vote_overflow p0)).
  { unfold p, calculate_weights. now rewrite Hr, classify_fold. }
  assert (S : forall m, a ∈ fold_left (with_share supply m weight) keys ∅ <-> share supply m weight keys a).
  { intros m. rewrite with_share_spec. split; [intros [H | H]; [now apply not_elem_of_empty in H | exact H] | now right]. }
  assert (D : supply / 1000 <= supply / 100 <= supply / 20) by (split; apply Z.div_le_compat_l; lia).
  assert (L : level p a = true <-> takes).
  { unfold level, takes, n. rewrite Hn, Ep. cbn [negb votes representatives_1 representatives_2 representatives_3].
    unfold share in *.
    repeat match goal with |- context [if ?x <? ?y then _ else _] => destruct (Z.ltb_spec x y) end;
      rewrite ?bool_decide_eq_true, ?S; (split; [intros H' | intros [H' | [[? H'] | [[? H'] | [? H']]]]]);
      try lia; try done; try tauto; try (destruct H' as [Hk Hw]; split; [exact Hk | lia]). }
  unfold processor_vote. fold a. split; intros T.
  - apply L in T. rewrite T, Ep. done.
  - destruct (level p a) eqn:E; [tauto |]. rewrite Ep. done.
Qed.

Lemma reaction_fields (VE : E.VoteEnv) (replay : bool) (v : V.vote) (st : voting) :
  let st' := if replay then st else observe_vote v st in
  v_system st' = v_system st /\ v_store st' = v_store st /\
  (v_gaps st', v_online st') =
    (if replay then (v_gaps st, v_online st)
     else (fst (G.gap_vote gap_env_now v (v_gaps st)), R.observe E.weight (V.vote_account v) (v_online st))) /\
  exists al, v_sent st' = v_sent st ++ al.
Proof.
  destruct replay; [split_and!; try done; exists []; now rewrite app_nil_r |]. unfold observe_vote.
  destruct (G.gap_vote gap_env_now v (v_gaps st)) as [g al]. cbn. split_and!; try done. now eexists.
Qed.

(** The reaction to one vote.  A vote that is not valid changes nothing; any other
    raises the highest known number of its account to its own, goes to the elections,
    whose answer decides between replay and vote, is shown to the gaps and to the
    representatives online only if it is no replay, and is answered with the highest
    known vote exactly when that is more than 10000 numbers ahead, in 64 bits. *)
Theorem vote_blocking_exact (VE : E.VoteEnv) (age : nat) (v : V.vote) (ep : Z) (validated : bool) (st : voting)
  (O : voting_ok st) (Gv : good (v, ep)) (Ha : (age <= if VS.flushing (v_store st) then 0 else 1)%nat) :
  (validated = false -> VS.vote_validate v = true -> vote_blocking age v ep validated st = Some (vc_invalid, st)) /\
  (validated = true \/ VS.vote_validate v = false ->
   exists replay a max_vote st',
     E.active_vote (E.sys_active (v_system st)) v = Some (replay, a) /\
     vote_blocking age v ep validated st = Some (if replay then vc_replay else vc_vote, st') /\
     voting_ok st' /\ E.sys_active (v_system st') = a /\
     VS.current (v_store st') (V.vote_account v) = Some max_vote /\
     V.sequence max_vote = Z.max (VS.current_sequence (v_store st) (V.vote_account v)) (V.sequence v) /\
     (v_gaps st', v_online st') =
       (if replay then (v_gaps st, v_online st)
        else (fst (G.gap_vote gap_env_now v (v_gaps st)), R.observe E.weight (V.vote_account v) (v_online st))) /\
     exists alarms, v_sent st' = v_sent st ++ alarms ++
       (if u64 (V.sequence v + 10000) <? V.sequence max_vote then [confirm_sent max_vote ep] else [])).
Proof.
  split; [intros -> E; unfold vote_blocking; now rewrite E |]. intros Hv.
  destruct (vote_blocking_ok VE age v ep validated st O Gv Ha) as (c & st' & E' & O'). revert E'.
  unfold vote_blocking. replace (validated || negb (VS.vote_validate v)) with true
    by (destruct Hv as [-> | ->]; [done | now destruct validated]).
  destruct (VS.max_step (v_store st) age v (vo_store _ O) (proj1 Gv) Ha) as (mv & s' & -> & Es & _ & Hc & Hq).
  destruct (E.active_vote (E.sys_active (v_system st)) v) as [[replay a] |]; [| done].
  rewrite <- Es. intros [= <- <-]. exists replay, a, mv. eexists. split; [done |]. split; [reflexivity |].
  split; [exact O' |]. clear O' Es.
  set (st1 := mk_voting (E.mk_system a (E.sys_inactive (v_system st))) s' (v_gaps st) (v_online st) (v_sent st)).
  destruct (reaction_fields VE replay v st1) as (H1 & H2 & H3 & al & H4).
  set (st2 := if replay then st1 else observe_vote v st1) in *. clearbody st2.
  destruct (_ <? _); cbn [v_system v_store v_gaps v_online v_sent]; rewrite H1, H2, H3, H4;
    (split; [reflexivity |]; split; [exact Hc |]; split; [exact Hq |]; split; [now destruct replay |]);
    exists al; [now rewrite <- app_assoc | now rewrite app_nil_r].
Qed.

End Operations.

(** ** A checker that looks at every signature *)

Definition verdict `{SG : VS.Signatures} (x : Z * Z * Z) : Z :=
  let '(a, m, s) := x in if VS.validate_message a m s then 0 else 1.

#[refine] Instance direct_checker `{SG : VS.Signatures} : Checker := { verify := map verdict }.
Proof.
  - intros l. apply length_map.
  - intros l. apply Forall_map, Forall_true. intros [[a m] s]. cbn. destruct (VS.validate_message a m s); auto.
  - intros l i a m s E V. rewrite (map_nth_error verdict i l E). cbn. now rewrite V.
Defined.

(** ** Applying the theorems *)

#[local] Existing Instance LedgerTheorems.LedgerTheorems.demo_env.
#[local] Existing Instance ET.demo_work.
#[local] Existing Instance ET.demo_config.
#[local] Existing Instance ET.demo_order.
#[local] Existing Instance VS.demo_signatures.

Definition demo_flags : gap_flags := mk_flags 1 false false.

Definition demo_vote_for (rep q h : Z) : V.vote :=
  VS.signed rep (V.mk_vote q [V.vote_hash_only h] rep 0) [].

Lemma demo_vote_good (rep q h ep : Z) : word 256 rep -> rep <> 999 -> word 64 q -> word 256 h ->
  good (demo_vote_for rep q h, ep).
Proof.
  intros Hr Hn Hq Hh. split; [| exact Hn]. apply VS.signed_ok; cbn; [done | done | done |].
  constructor; [exact Hh | constructor].
Qed.

Definition demo_events : list (E.VoteEnv * event) :=
  map (pair (ET.demo_view 0)) [ev_arrive (demo_vote_for 60 1 7) 1; ev_arrive (demo_vote_for 1 2 7) 2; ev_take; ev_handle 0].


Definition demo_node : node := arrive (demo_vote_for 60 1 7) 1 (start_node ∅ 10 []).

Lemma demo_node_inv : node_inv ET.demo_universe demo_node.
Proof.
  apply arrive_inv.
  - apply start_node_inv; [| lia]. intros a b. now rewrite lookup_empty.
  - apply demo_vote_good; unfold word; lia.
Qed.

Lemma queue_drains_witness : exists k n',
  run demo_flags demo_node ((ET.demo_view 0, ev_take) :: repeat (ET.demo_view 0, ev_handle 0) k) = fine n' /\
  votes (n_processor n') = [].
Proof.
  destruct (queue_drains demo_flags ET.demo_universe ET.demo_hash_root ET.demo_universe_word (ET.demo_view 0) demo_node
    demo_node_inv eq_refl) as (k & n' & _ & E & _ & Q & _).
  - discriminate.
  - reflexivity.
  - exists k, n'. split; [exact E | exact Q].
Defined.

Lemma queue_levels_witness :
  votes (processor_vote (demo_vote_for 60 1 7) 1 (calculate_weights 100 (fun a => a) [60] (mk_processor [] ∅ ∅ ∅ false 0)))
  = [(demo_vote_for 60 1 7, 1)].
Proof.
  refine (proj1 (proj1 (queue_levels 100 (fun a => a) [60] (mk_processor [] ∅ ∅ ∅ false 0) (demo_vote_for 60 1 7) 1 _ eq_refl eq_refl) _)).
  - lia.
  - left. cbn. lia.
Defined.

Lemma vote_blocking_exact_witness :
  exists c st, vote_blocking demo_flags (VE := ET.demo_view 0) 0 (demo_vote_for 60 1 7) 1 true (n_voting demo_node) = Some (c, st).
Proof.
  destruct (proj2 (vote_blocking_exact demo_flags ET.demo_universe ET.demo_hash_root ET.demo_universe_word (ET.demo_view 0) 0
    (demo_vote_for 60 1 7) 1 true (n_voting demo_node) (ni_voting _ _ demo_node_inv)
    (demo_vote_good 60 1 7 1 ltac:(unfold word; lia) ltac:(lia) ltac:(unfold word; lia) ltac:(unfold word; lia)) ltac:(cbn; lia))
    (or_introl eq_refl)) as (replay & a & mv & st & _ & E & _).
  eexists _, st. exact E.
Defined.

End VoteProcessor.
