(* ===== verification/VoteGenerator.v ===== *)
(** * Making votes

    Model of [nano::vote_generator] ([nano/node/voting.cpp]) and of the answers to a
    [confirm_req] message ([nano/node/node.cpp]: [confirm_block],
    [network::confirm_hashes], [network::send_votes_cache] and the handler of the
    message).  Both make votes through [VoteStore] and keep them in the cache of
    [Caches]; the generator hands them to the queue of [VoteProcessor], the answers
    go to the peer who asked.  A wallet is what [foreach_representative]
    ([nano/node/wallet.cpp]) reads of it.  [None] is a failed assertion or an
    exception. *)

From stdpp Require Import base gmap list.
From Stdlib Require Import ZArith Lia.
From S2P Require Import Prelude Blocks Numbers Store Ledger LedgerInv LedgerTheorems Work Votes Elections Signing VoteStore Caches OnlineReps VoteProcessor Messages.
Local Open Scope Z_scope.

Module VoteGenerator.
Module V := Votes.Votes.
Module W := Work.Work.
Module VS := VoteStore.VoteStore.
Module VC := VotesCache.
Module VP := VoteProcessor.VoteProcessor.
Module L := LedgerInv.LedgerInv.

#[local] Existing Instance Ledger.Ledger.env_hash.

(** ** The loop of the generator *)

(** [cutoff] is [None] at the value [min]. *)
Record generator := mk_generator { hashes : list Z; cutoff : option Z }.

Definition generator_add (h : Z) (g : generator) : generator := mk_generator (hashes g ++ [h]) (cutoff g).

(** The loop at the start of [send]. *)
Fixpoint pop_hashes (room : nat) (l : list Z) : list Z * list Z :=
  match room, l with
  | S n, x :: l' => let (a, b) := pop_hashes n l' in (x :: a, b)
  | _, _ => ([], l)
  end.

Inductive activity := sends (batch : list Z) | waits_until (t : Z) | waits.

Definition generator_send (g : generator) : generator * activity :=
  let (batch, rest) := pop_hashes 12 (hashes g) in (mk_generator rest (cutoff g), sends batch).

(** One iteration of [run], at the time [now]. *)
Definition generator_run (wait now : Z) (g : generator) : generator * activity :=
  if (12 <=? length (hashes g))%nat then generator_send g
  else match cutoff g with
       | None => (mk_generator (hashes g) (Some (now + wait)), waits_until (now + wait))
       | Some c =>
           if now <? c then (g, waits_until c)
           else let g := mk_generator (hashes g) None in
                if negb (length (hashes g) =? 0)%nat then generator_send g else (g, waits)
       end.

Inductive generator_event := ge_add (h : Z) | ge_run (now : Z).

(** A run: the batches that were sent. *)
Fixpoint generator_events (wait : Z) (es : list generator_event) (g : generator) : list (list Z) * generator :=
  match es with
  | [] => ([], g)
  | ge_add h :: es' => generator_events wait es' (generator_add h g)
  | ge_run now :: es' =>
      let (g, x) := generator_run wait now g in
      let (bs, g) := generator_events wait es' g in
      (match x with sends b => b :: bs | _ => bs end, g)
  end.

Definition added (es : list generator_event) : list Z :=
  omap (fun e => match e with ge_add h => Some h | ge_run _ => None end) es.

Lemma pop_hashes_spec (n : nat) (l : list Z) : forall a b, pop_hashes n l = (a, b) ->
  a ++ b = l /\ (length a <= n)%nat /\ (l <> [] -> n <> 0%nat -> a <> []).
Proof.
  revert l. induction n as [| n IH]; intros [| x l] a b; cbn [pop_hashes]; try (intros [= <- <-]; done || (split_and!; [done | cbn; lia | done])).
  destruct (pop_hashes n l) as [a' b'] eqn:E. intros [= <- <-]. destruct (IH l a' b' E) as (H1 & H2 & _).
  split_and!; [cbn; now rewrite H1 | cbn; lia | done].
Qed.

Lemma generator_send_spec (g : generator) : hashes g <> [] ->
  exists b rest, generator_send g = (mk_generator rest (cutoff g), sends b) /\ b ++ rest = hashes g /\
    (0 < length b <= 12)%nat.
Proof.
  intros Hn. unfold generator_send. destruct (pop_hashes 12 (hashes g)) as [b rest] eqn:E.
  destruct (pop_hashes_spec 12 _ _ _ E) as (H1 & H2 & H3). exists b, rest. split; [done |]. split; [done |].
  specialize (H3 Hn ltac:(lia)). destruct b; [done | cbn in *; lia].
Qed.

(** One iteration sends a batch from the front or leaves the hashes alone. *)
Lemma generator_run_spec (wait now : Z) (g : generator) :
  (exists b rest c, generator_run wait now g = (mk_generator rest c, sends b) /\ b ++ rest = hashes g /\
     (0 < length b <= 12)%nat) \/
  (exists c x, generator_run wait now g = (mk_generator (hashes g) c, x) /\ forall b, x <> sends b).
Proof.
  unfold generator_run. destruct (Nat.leb_spec 12 (length (hashes g))) as [H | H].
  - left. destruct (generator_send_spec g) as (b & rest & E & Hb); [intros E; rewrite E in H; cbn in H; lia |]. eauto.
  - destruct (cutoff g) as [c |] eqn:Ec; [| right; eexists _, _; done].
    destruct (now <? c); [right; exists (cutoff g), (waits_until c); split; [now destruct g | done] |].
    cbn [hashes]. destruct (Nat.eqb_spec (length (hashes g)) 0) as [Z0 | Z0]; cbn [negb]; [right; eexists _, _; done |].
    left. destruct (generator_send_spec (mk_generator (hashes g) None)) as (b & rest & E & Hb).
    { cbn. intros E. rewrite E in Z0. done. }
    cbn [hashes] in *. eauto 10.
Qed.

Lemma generator_events_spec (wait : Z) (es : list generator_event) : forall g bs g',
  generator_events wait es g = (bs, g') ->
  concat bs ++ hashes g' = hashes g ++ added es /\ Forall (fun b => (0 < length b <= 12)%nat) bs.
Proof.
  induction es as [| [h | now] es IH]; intros g bs g'; cbn [generator_events].
  - intros [= <- <-]. cbn. rewrite app_nil_r. split; [done | constructor].
  - intros E. destruct (IH _ _ _ E) as [H1 H2]. split; [| done]. rewrite H1. cbn. now rewrite <- app_assoc.
  - change (added (ge_run now :: es)) with (added es).
    destruct (generator_run_spec wait now g) as [(b & rest & c & E & H1 & H2) | (c & x & E & Hx)]; rewrite E.
    + destruct (generator_events wait es _) as [bs' g1] eqn:Eb. intros [= <- <-].
      destruct (IH _ _ _ Eb) as [H3 H4]. split; [| now constructor]. cbn. rewrite <- app_assoc, H3. cbn.
      now rewrite <- H1, <- app_assoc.
    + destruct (generator_events wait es _) as [bs' g1] eqn:Eb.
      destruct x as [b | t |]; [now destruct (Hx b) | |]; intros [= <- <-]; exact (IH _ _ _ Eb).
Qed.

(** An iteration that sends: the batch is full, or the time has come. *)
Lemma generator_due (wait t : Z) (g : generator) (h : Z) (l : list Z) : hashes g = h :: l ->
  (12 <= length (h :: l))%nat \/ (exists c, cutoff g = Some c /\ c <= t) ->
  exists b g', generator_run wait t g = (g', sends (h :: b)).
Proof.
  intros Eg Hd. unfold generator_run, generator_send. cbn [hashes cutoff]. rewrite Eg.
  change (pop_hashes 12 (h :: l)) with (let (a, b) := pop_hashes 11 l in (h :: a, b)).
  destruct (Nat.leb_spec 12 (length (h :: l))) as [B | B].
  - destruct (pop_hashes 11 l). eauto.
  - destruct Hd as [? | (c & -> & Hc)]; [lia |]. rewrite (proj2 (Z.ltb_ge t c) Hc).
    cbn [length Nat.eqb negb]. destruct (pop_hashes 11 l). eauto.
Qed.



(** ** Votes of all representatives *)

(** What is done with a vote: it is queued, or sent to a peer. *)
Inductive target := to_processor (endpoint : Z) | to_peer.

Inductive out := out_vote (v : V.vote) | out_block (b : Block.block).

Record duty := mk_duty {
  d_store : VS.vstate; d_cache : VC.votes_cache; d_processor : VP.processor; d_out : list out }.

Section Operations.

Context `{LE : Ledger.Ledger.Env, WE : W.WorkEnv, SG : VS.Signatures}.

Definition deliver (t : target) (v : V.vote) (d : duty) : duty :=
  match t with
  | to_processor ep => mk_duty (d_store d) (d_cache d) (VP.processor_vote v ep (d_processor d)) (d_out d)
  | to_peer => mk_duty (d_store d) (d_cache d) (d_processor d) (d_out d ++ [out_vote v])
  end.

(** The action for one representative, by account and private key: [vote_generate],
    delivery, [votes_cache.add]. *)
Definition vote_as (age : nat) (now : nat -> Z) (rnd : Z -> list Z) (t : target) (l : list Z) (d : duty) (r : Z * Z)
    : option duty :=
  match VS.vote_generate_hashes (VS.snapshot (d_store d) age) (VS.vs_store (d_store d)) (fst r) (snd r) l (rnd (snd r)) with
  | Some (v, s) =>
      let d := deliver t v (mk_duty (VS.with_store (d_store d) s) (d_cache d) (d_processor d) (d_out d)) in
      let (thrown, c) := VC.votes_add now v (d_cache d) in
      if thrown then None else Some (mk_duty (d_store d) c (d_processor d) (d_out d))
  | None => None
  end.

Fixpoint vote_for_all (age : nat) (now : nat -> Z) (rnd : Z -> list Z) (t : target) (l : list Z)
    (reps : list (Z * Z)) (d : duty) : option duty :=
  match reps with
  | [] => Some d
  | r :: reps' =>
      match vote_as age now rnd t l d r with
      | Some d => vote_for_all age now rnd t l reps' d
      | None => None
      end
  end.

(** A wallet, as far as [foreach_representative] looks at it: the set of its
    representatives in the order of its iteration, which accounts it has, whether it
    is unlocked, and the private keys. *)
Record wallet := mk_wallet {
  w_representatives : list Z; w_exists : Z -> bool; w_valid_password : bool; w_fetch : Z -> option Z }.

(** [wallets::foreach_representative] calls the action on these accounts and keys;
    [None]: the assertion that the key can be fetched. *)
Fixpoint wallet_keys (weight : Z -> Z) (w : wallet) (l : list Z) : option (list (Z * Z)) :=
  match l with
  | [] => Some []
  | a :: l' =>
      if w_exists w a && negb (Numbers.uint128_is_zero (weight a)) && w_valid_password w then
        match w_fetch w a with
        | Some prv => option_map (cons (a, prv)) (wallet_keys weight w l')
        | None => None
        end
      else wallet_keys weight w l'
  end.

Fixpoint all_keys (weight : Z -> Z) (ws : list wallet) : option (list (Z * Z)) :=
  match ws with
  | [] => Some []
  | w :: ws' =>
      match wallet_keys weight w (w_representatives w), all_keys weight ws' with
      | Some k, Some k' => Some (k ++ k')
      | _, _ => None
      end
  end.

Definition foreach_representative (enable_voting : bool) (weight : Z -> Z) (ws : list wallet) : option (list (Z * Z)) :=
  if enable_voting then all_keys weight ws else Some [].

(** An unlocked wallet has the keys of its representatives that it still has. *)
Definition wallet_ok (w : wallet) : Prop :=
  forall a, a ∈ w_representatives w -> w_exists w a = true -> w_valid_password w = true ->
    exists prv, w_fetch w a = Some prv /\ VS.pub_key prv = a.

Definition keyed (r : Z * Z) : Prop := VS.pub_key (snd r) = fst r.

Lemma wallet_keys_ok (weight : Z -> Z) (w : wallet) (l : list Z) : wallet_ok w -> l ⊆ w_representatives w ->
  exists k, wallet_keys weight w l = Some k /\ Forall keyed k /\ (length k <= length l)%nat /\
    Forall (fun r => fst r ∈ l /\ Numbers.uint128_is_zero (weight (fst r)) = false) k.
Proof.
  intros Hw. induction l as [| a l IH]; intros Hl; cbn [wallet_keys];
    [| destruct (IH ltac:(set_solver)) as (k & E & F & L & W)].
  - exists []. split_and!; [done | constructor | cbn; lia | constructor].
  - assert (W' : Forall (fun r => fst r ∈ a :: l /\ Numbers.uint128_is_zero (weight (fst r)) = false) k).
    { eapply Forall_impl; [exact W |]. cbn. intros r [? ?]. split; [now right | done]. }
    destruct (_ && _ && _) eqn:C; [| exists k; split_and!; [done | done | cbn; lia | done]].
    apply andb_true_iff in C as [C C3]. apply andb_true_iff in C as [C1 C2]. apply negb_true_iff in C2.
    destruct (Hw a ltac:(set_solver) C1 C3) as (prv & -> & Hp). rewrite E. exists ((a, prv) :: k).
    split_and!; [done | now constructor | cbn; lia |]. constructor; [cbn; split; [now left | done] | done].
Qed.

Lemma all_keys_ok (weight : Z -> Z) (ws : list wallet) : Forall wallet_ok ws ->
  exists k, all_keys weight ws = Some k /\ Forall keyed k /\
    (length k <= length (concat (map w_representatives ws)))%nat /\
    Forall (fun r => Numbers.uint128_is_zero (weight (fst r)) = false) k.
Proof.
  induction 1 as [| w ws Hw _ (k' & E' & F' & L' & W')]; cbn [all_keys].
  - exists []. split_and!; [done | constructor | cbn; lia | constructor].
  - destruct (wallet_keys_ok weight w (w_representatives w) Hw ltac:(done)) as (k & E & F & L & W). exists (k ++ k'). rewrite E, E'.
    cbn [map concat]. rewrite !length_app. split_and!; [done | now apply Forall_app | lia |].
    apply Forall_app. split; [| done]. eapply Forall_impl; [exact W |]. cbn. tauto.
Qed.

(** *** What the votes are *)

(** The votes [vs] of the representatives for the hashes [l], and where they went. *)
Definition delivered (t : target) (vs : list V.vote) (d d' : duty) : Prop :=
  match t with
  | to_processor ep =>
      d_processor d' = fold_left (fun p v => VP.processor_vote v ep p) vs (d_processor d) /\ d_out d' = d_out d
  | to_peer => d_processor d' = d_processor d /\ d_out d' = d_out d ++ map out_vote vs
  end.

Definition duty_ok (d : duty) : Prop := VS.state_ok (d_store d) /\ VC.cache_ok (d_cache d).

Lemma generate_shape (tx : gmap Z (list Z)) (s s' : VS.vote_store) (a prv : Z) (l : list Z) (rnd : list Z) (v : V.vote) :
  VS.vote_generate_hashes tx s a prv l rnd = Some (v, s') ->
  V.blocks v = map V.vote_hash_only l /\ V.vote_account v = a.
Proof.
  unfold VS.vote_generate_hashes, VS.vote_of_hashes. destruct (VS.vote_current tx s a); [| done].
  destruct (_ && _); [| done]. intros [= <- _]. done.
Qed.

Lemma vote_as_ok (age : nat) (now : nat -> Z) (rnd : Z -> list Z) (t : target) (l : list Z) (d : duty) (r : Z * Z) :
  keyed r -> duty_ok d -> (age <= if VS.flushing (d_store d) then 0 else 1)%nat ->
  (0 < length l <= 12)%nat -> Forall (word 256) l -> (forall a, VS.current_sequence (d_store d) a < 2 ^ 64 - 1) ->
  exists v d', vote_as age now rnd t l d r = Some d' /\ duty_ok d' /\ delivered t [v] d d' /\
    V.blocks v = map V.vote_hash_only l /\ V.vote_account v = fst r /\ VS.vote_validate v = false /\
    VS.current_sequence (d_store d) (fst r) < V.sequence v /\
    VS.flushing (d_store d') = VS.flushing (d_store d) /\
    (forall a, VS.current_sequence (d_store d) a <= VS.current_sequence (d_store d') a <= VS.current_sequence (d_store d) a + 1).
Proof.
  destruct r as [acc prv]. unfold keyed. cbn [fst snd]. intros <- [O C] Ha Hl Hw Hs.
  destruct (VS.event_step_ok (d_store d) (VS.ev_generate age prv l (rnd prv)) O) as (o & st' & E & F & S);
    [split; [exact Ha | split; [exact Hl | exact Hw]] | exact Hs |].
  cbn [VS.event_step VS.event_sequence VS.flushing_after] in *. unfold vote_as. cbn [fst snd].
  destruct (VS.vote_generate_hashes _ _ _ _ _ _) as [[v s] |] eqn:Eg; [| discriminate E]. injection E as <- <-.
  destruct (generate_shape _ _ _ _ _ _ _ _ Eg) as [Hb Hv].
  assert (Ht : fst (VC.votes_add now v (d_cache d)) = false).
  { destruct (fst (VC.votes_add now v (d_cache d))) eqn:T; [| done]. apply VC.votes_add_throws in T as [b T].
    rewrite Hb in T. apply list_elem_of_fmap in T as (h & T & _). discriminate T. }
  pose proof (VC.add_blocks_ok v (V.blocks v) now (d_cache d) C ltac:(done)) as C'. fold (VC.votes_add now v (d_cache d)) in C'.
  destruct (VS.sp_new _ _ _ _ S v ltac:(now left)) as [Hq Hval]. rewrite Hv in Hq.
  assert (Hcur : forall a, VS.current_sequence (d_store d) a <= VS.current_sequence (VS.with_store (d_store d) s) a <=
    VS.current_sequence (d_store d) a + 1).
  { intros a. pose proof (VS.sp_current _ _ _ _ S a). pose proof (VS.current_sequence_word (d_store d) O a) as W. unfold word in W. lia. }
  exists v. destruct (VC.votes_add now v (d_cache d)) as [thrown c] eqn:Ec. cbn [fst snd] in *. subst thrown.
  destruct t; cbn [deliver d_cache d_store d_processor d_out]; rewrite Ec; eexists; (split; [reflexivity |]);
    (split; [split; [apply (VS.sp_ok _ _ _ _ S) | exact C'] |]); (split; [done |]); split_and!; try done; apply Hcur.
Qed.

Lemma delivered_cons (t : target) (v : V.vote) (vs : list V.vote) (d d1 d2 : duty) :
  delivered t [v] d d1 -> delivered t vs d1 d2 -> delivered t (v :: vs) d d2.
Proof.
  destruct t; cbn; intros [H1 H2] [H3 H4]; rewrite H3, H4, H1, H2; split; try done. now rewrite <- app_assoc.
Qed.

Lemma foreach_ok (age : nat) (now : nat -> Z) (rnd : Z -> list Z) (t : target) (l : list Z) (reps : list (Z * Z)) :
  Forall keyed reps -> (0 < length l <= 12)%nat -> Forall (word 256) l -> forall d M, duty_ok d ->
  (age <= if VS.flushing (d_store d) then 0 else 1)%nat ->
  (forall a, VS.current_sequence (d_store d) a <= M) -> M + Z.of_nat (length reps) < 2 ^ 64 ->
  exists vs d', vote_for_all age now rnd t l reps d = Some d' /\ duty_ok d' /\ delivered t vs d d' /\
    map V.vote_account vs = map fst reps /\
    Forall (fun v => V.blocks v = map V.vote_hash_only l /\ VS.vote_validate v = false /\
                     VS.current_sequence (d_store d) (V.vote_account v) < V.sequence v) vs.
Proof.
  intros Hk Hl Hw. induction Hk as [| r reps Hr _ IH]; intros d M O Ha HM Hb; cbn [vote_for_all].
  - exists [], d. split; [done |]. split; [done |]. split; [| split; [done | constructor]].
    destruct t; cbn; [done | now rewrite app_nil_r].
  - cbn [length] in Hb. destruct (vote_as_ok age now rnd t l d r Hr O Ha Hl Hw) as (v & d1 & -> & O1 & D1 & B1 & A1 & V1 & Q1 & F1 & C1).
    { intros a. specialize (HM a). lia. }
    destruct (IH d1 (M + 1) O1) as (vs & d2 & E & O2 & D2 & A2 & F2); [now rewrite F1 | | lia |].
    { intros a. specialize (HM a). specialize (C1 a). lia. }
    exists (v :: vs), d2. split; [done |]. split; [done |]. split; [now apply (delivered_cons t v vs d d1 d2) |].
    split; [cbn; now rewrite A1, A2 |]. constructor; [now rewrite A1 |].
    eapply Forall_impl; [exact F2 |]. cbn. intros w (? & ? & ?). split_and!; try done.
    specialize (C1 (V.vote_account w)). lia.
Qed.

(** A batch becomes one vote of every representative, in order: no assertion
    fails, each vote is for exactly the hashes of the batch, is valid under the key of
    its account and has a sequence number above all that are known of it, is queued
    (unless the level of the queue refuses it) or sent to the peer, and is put into
    the cache, which keeps its bound. *)
Theorem votes_generated (age : nat) (now : nat -> Z) (rnd : Z -> list Z) (t : target) (l : list Z) (ws : list wallet) (weight : Z -> Z)
  (enable_voting : bool) (d : duty) (M : Z) (Hws : Forall wallet_ok ws) (Hl : (0 < length l <= 12)%nat) (Hw : Forall (word 256) l) (O : duty_ok d)
  (Ha : (age <= if VS.flushing (d_store d) then 0 else 1)%nat)
  (HM : forall a, VS.current_sequence (d_store d) a <= M)
  (Hb : M + Z.of_nat (length (concat (map w_representatives ws))) < 2 ^ 64) :
  exists reps vs d', foreach_representative enable_voting weight ws = Some reps /\
    vote_for_all age now rnd t l reps d = Some d' /\ duty_ok d' /\ delivered t vs d d' /\
    map V.vote_account vs = map fst reps /\ Forall (fun r => Numbers.uint128_is_zero (weight (fst r)) = false) reps /\
    Forall (fun v => V.blocks v = map V.vote_hash_only l /\ VS.vote_validate v = false /\
                     VS.current_sequence (d_store d) (V.vote_account v) < V.sequence v) vs.
Proof.
  assert (K : exists reps, foreach_representative enable_voting weight ws = Some reps /\ Forall keyed reps /\
    (length reps <= length (concat (map w_representatives ws)))%nat /\
    Forall (fun r => Numbers.uint128_is_zero (weight (fst r)) = false) reps).
  { unfold foreach_representative. destruct enable_voting; [now apply all_keys_ok |].
    exists []. split_and!; [done | constructor | cbn; lia | constructor]. }
  destruct K as (reps & E & Hk & Hn & Hz).
  destruct (foreach_ok age now rnd t l reps Hk Hl Hw d M O Ha HM) as (vs & d' & Ed & O' & D & A & F); [lia |].
  exists reps, vs, d'. done.
Qed.

(** ** Answers to requests *)

Definition put_out (d : duty) (l : list out) : duty := mk_duty (d_store d) (d_cache d) (d_processor d) (d_out d ++ l).

(** [network::send_votes_cache]: were there votes to send. *)
Definition send_votes_cache (h : Z) (d : duty) : bool * duty :=
  let vs := VC.votes_find h (d_cache d) in
  (negb (length vs =? 0)%nat, put_out d (map out_vote vs)).

(** The environment of the answers: the transaction's age and store, the clock, the
    random bytes, and what [foreach_representative] visits. *)
Record answer_env := mk_answer_env {
  ae_age : nat; ae_store : Store.store; ae_now : nat -> Z; ae_random : Z -> list Z; ae_reps : list (Z * Z) }.

Definition query_on {A : Type} (s : Store.store) (m : Ledger.Ledger.M A) : option A :=
  match m (Ledger.Ledger.mk_lstate s [] (Ledger.Ledger.mk_return Ledger.Ledger.progress 0 0 0 None Ledger.Ledger.sv_unknown) []) with
  | Ledger.Ledger.Done (x, _) => Some x
  | _ => None
  end.

Section Answers.

Context (AE : answer_env).

Definition votes_to_peer (l : list Z) (d : duty) : option duty :=
  vote_for_all (ae_age AE) (ae_now AE) (ae_random AE) to_peer l (ae_reps AE) d.

(** [confirm_block] to the peer who asked. *)
Definition confirm_block (b : Block.block) (also_publish : bool) (d : duty) : option duty :=
  let h := Block.hash b in
  let vs := VC.votes_find h (d_cache d) in
  let d := if (length vs =? 0)%nat then votes_to_peer [h] d else Some (put_out d (map out_vote vs)) in
  option_map (fun d => if also_publish then put_out d [out_block b] else d) d.

(** The request for one block. *)
Definition confirm_req_block (b : Block.block) (d : duty) : option duty :=
  let (sent, d) := send_votes_cache (Block.hash b) d in
  if sent then Some d
  else match query_on (ae_store AE) (Ledger.Ledger.successor (Block.previous b) (Block.root b)) with
       | Some (Some n) => confirm_block n (negb (Block.hash n =? Block.hash b)) d
       | Some None => Some d
       | None => None
       end.

(** The successor of a root: of a block, or the first block of an account. *)
Definition root_successor (root : Z) : option Z :=
  let n := Store.block_successor (ae_store AE) root in
  if Numbers.uint256_is_zero n && Store.account_exists (ae_store AE) root
  then option_map Store.open_block_hash (Store.account_get (ae_store AE) root)
  else Some n.

(** One pair of hash and root: the answer, and the hashes to vote for. *)
Definition answer_root (p : Z * Z) (d : duty) (bundle : list Z) : option (duty * list Z) :=
  let (sent, d) := send_votes_cache (fst p) d in
  if negb sent && Store.block_exists (ae_store AE) (fst p) then Some (d, bundle ++ [fst p])
  else match root_successor (snd p) with
       | Some n =>
           if negb (Numbers.uint256_is_zero n) then
             let (sent, d) := send_votes_cache n d in
             let bundle := if sent then bundle else bundle ++ [n] in
             match Store.block_get (ae_store AE) n with
             | Some b => Some (put_out d [out_block b], bundle)
             | None => None
             end
           else Some (d, bundle)
       | None => None
       end.

Fixpoint answer_roots (l : list (Z * Z)) (d : duty) (bundle : list Z) : option (duty * list Z) :=
  match l with
  | [] => Some (d, bundle)
  | p :: l' => match answer_root p d bundle with
               | Some (d, bundle) => answer_roots l' d bundle
               | None => None
               end
  end.

Definition confirm_req_roots (l : list (Z * Z)) (d : duty) : option duty :=
  match answer_roots l d [] with
  | Some (d, bundle) => if negb (length bundle =? 0)%nat then votes_to_peer bundle d else Some d
  | None => None
  end.

Inductive request := for_block (b : Block.block) | for_roots (l : list (Z * Z)).

(** The handler of [confirm_req]; [enabled]: voting is, and there is a representative. *)
Definition confirm_req (enabled : bool) (r : request) (d : duty) : option duty :=
  if enabled then
    match r with
    | for_block b => confirm_req_block b d
    | for_roots [] => Some d
    | for_roots l => confirm_req_roots l d
    end
  else Some d.

(** The query of the ledger finds a stored block or nothing. *)
Lemma successor_found (s : Store.store) (p a : Z) : L.inv s ->
  let st := Ledger.Ledger.mk_lstate s [] (Ledger.Ledger.mk_return Ledger.Ledger.progress 0 0 0 None Ledger.Ledger.sv_unknown) [] in
  Ledger.Ledger.successor p a st = Ledger.Ledger.Done (None, st) \/
  exists h b, Ledger.Ledger.successor p a st = Ledger.Ledger.Done (Some b, st) /\ Store.block_get s h = Some b.
Proof.
  intros I st. destruct (LedgerTheorems.successor_total st p a I) as ([b |] & E & H); [right | now left].
  destruct (H b eq_refl) as [_ (h & Hh)]. now exists h, b.
Qed.

(** A datagram holds at most seven pairs. *)
Lemma pairs_fit (h : Messages.message_header) (l : list (Z * Z)) (s : list Z) :
  Messages.confirm_req_serialize h None l = Some s -> (8 + length s <= 508)%nat -> (length l <= 12)%nat.
Proof.
  unfold Messages.confirm_req_serialize. destruct (Block.type_eqb _ _); [| done]. destruct (_ && _); [| done].
  intros Es Hl. apply (inj Some) in Es as <-. rewrite length_app, le_bytes_length in Hl.
  assert (E : length (concat (map Messages.pair_serialize l)) = (64 * length l)%nat).
  { clear Hl. induction l as [| p l IH]; [done |]. cbn [map concat length]. unfold Messages.pair_serialize at 1.
    rewrite !length_app, !be_bytes_length, IH. lia. }
  lia.
Qed.

(** *** What is sent *)

Context (Hinv : L.inv (ae_store AE)).
Context (hash_word : forall b, word 256 (Block.hash b)).

Definition known (h : Z) : Prop := Store.block_exists (ae_store AE) h = true.

Lemma known_get (h : Z) : known h <-> exists x, Store.block_get_full (ae_store AE) h = Some x.
Proof. apply L.exists_get, Hinv. Qed.

Lemma known_word (h : Z) : known h -> word 256 h.
Proof. rewrite known_get. intros (x & E). destruct (L.get_hash _ (L.inv_blocks _ Hinv) _ _ E) as [-> _]. apply hash_word. Qed.

(** A vote is from the cache, or for blocks the node has; a block is one of them. *)
Definition out_ok (c : VC.votes_cache) (o : out) : Prop :=
  match o with
  | out_vote v => (exists h, v ∈ VC.votes_find h c) \/ Forall (fun x => known (V.as_hash x)) (V.blocks v)
  | out_block b => exists h, Store.block_get (ae_store AE) h = Some b
  end.

Lemma successor_known (h : Z) : Store.block_successor (ae_store AE) h <> 0 -> known (Store.block_successor (ae_store AE) h).
Proof.
  rewrite L.block_successor_get. destruct (Store.block_get_full (ae_store AE) h) as [x |] eqn:E; [| done].
  intros N. apply known_get. destruct (L.ch_next _ _ _ (L.inv_chain _ Hinv _ _ E) N) as (y & Hy & _). eauto.
Qed.

Lemma root_successor_ok (root : Z) :
  exists n, root_successor root = Some n /\ (Numbers.uint256_is_zero n = false -> known n).
Proof.
  unfold root_successor. set (n := Store.block_successor (ae_store AE) root).
  destruct (Numbers.uint256_is_zero n) eqn:Z0; cbn [andb].
  - destruct (Store.account_exists (ae_store AE) root) eqn:Ea; [| exists n; split; [done | congruence]].
    destruct (LedgerTheorems.account_exists_get _ _ Ea) as (i & Hi). rewrite Hi. eexists. split; [reflexivity |].
    intros _. apply known_get. apply (L.account_get_some _ Hinv) in Hi.
    destruct (L.ao_open _ _ _ _ (L.inv_account _ Hinv _ _ _ Hi)) as (x & Hx & _). eauto.
  - exists n. split; [done |]. intros _. apply successor_known. intros E. fold n in E. rewrite E in Z0. discriminate Z0.
Qed.

Lemma known_block (h : Z) : known h -> exists b, Store.block_get (ae_store AE) h = Some b.
Proof. rewrite known_get. intros (x & E). rewrite L.block_get_get, E. cbn. eauto. Qed.

(** Sending from the cache, and blocks. *)
Definition extends (d d' : duty) : Prop :=
  d_store d' = d_store d /\ d_cache d' = d_cache d /\
  exists l, d_out d' = d_out d ++ l /\ Forall (out_ok (d_cache d)) l.

Lemma extends_refl (d : duty) : extends d d.
Proof. split; [done |]. split; [done |]. exists []. rewrite app_nil_r. split; [done | constructor]. Qed.

Lemma extends_put (d d' : duty) (l : list out) : extends d d' -> Forall (out_ok (d_cache d)) l -> extends d (put_out d' l).
Proof.
  intros (H1 & H2 & m & H3 & H4) Hl. split; [done |]. split; [done |]. exists (m ++ l). cbn. rewrite H3, <- app_assoc.
  split; [done |]. now apply Forall_app.
Qed.

Lemma cached_ok (h : Z) (c : VC.votes_cache) : Forall (out_ok c) (map out_vote (VC.votes_find h c)).
Proof. apply Forall_map, Forall_forall. intros v Hv. left. eauto. Qed.

Lemma send_votes_extends (h : Z) (d d' : duty) : extends d d' -> extends d (snd (send_votes_cache h d')).
Proof. intros E. apply extends_put; [done |]. destruct E as (_ & -> & _). apply cached_ok. Qed.

Lemma answer_root_ok (p : Z * Z) (d d' : duty) (bundle : list Z) : extends d d' ->
  exists d'' extra, answer_root p d' bundle = Some (d'', bundle ++ extra) /\ extends d d'' /\
    (length extra <= 1)%nat /\ Forall known extra.
Proof.
  intros E. unfold answer_root. pose proof (send_votes_extends (fst p) d d' E) as E1.
  destruct (send_votes_cache (fst p) d') as [sent d1]. cbn [snd] in E1.
  destruct (negb sent && _) eqn:C.
  { apply andb_true_iff in C as [_ C]. exists d1, [fst p]. split_and!; [done | done | cbn; lia | now repeat constructor]. }
  destruct (root_successor_ok (snd p)) as (n & -> & Hn). destruct (Numbers.uint256_is_zero n); cbn [negb].
  { exists d1, []. rewrite app_nil_r. split_and!; [done | done | cbn; lia | constructor]. }
  specialize (Hn eq_refl). pose proof (send_votes_extends n d d1 E1) as E2.
  destruct (send_votes_cache n d1) as [sent' d2]. cbn [snd] in E2. destruct (known_block n Hn) as (b & Eb). rewrite Eb.
  assert (E3 : extends d (put_out d2 [out_block b])) by (apply extends_put; [done | constructor; [cbn; eauto | constructor]]).
  destruct sent'; [exists (put_out d2 [out_block b]), [] | exists (put_out d2 [out_block b]), [n]]; rewrite ?app_nil_r;
    split_and!; try done; try (cbn; lia); constructor; [exact Hn | constructor].
Qed.

Lemma answer_roots_ok (l : list (Z * Z)) (d : duty) : forall d' bundle, extends d d' -> Forall known bundle ->
  exists d'' bundle', answer_roots l d' bundle = Some (d'', bundle') /\ extends d d'' /\
    (length bundle' <= length bundle + length l)%nat /\ Forall known bundle'.
Proof.
  induction l as [| p l IH]; intros d' bundle E K; cbn [answer_roots].
  - exists d', bundle. split_and!; [done | done | cbn; lia | done].
  - destruct (answer_root_ok p d d' bundle E) as (d1 & extra & -> & E1 & L1 & K1).
    destruct (IH d1 (bundle ++ extra) E1) as (d2 & b2 & -> & E2 & L2 & K2); [now apply Forall_app |].
    exists d2, b2. rewrite length_app in L2. split_and!; try done. cbn [length]. lia.
Qed.

Context (d : duty) (M : Z) (O : duty_ok d).
Context (Hage : (ae_age AE <= if VS.flushing (d_store d) then 0 else 1)%nat).
Context (HM : forall a, VS.current_sequence (d_store d) a <= M).
Context (Hb : M + Z.of_nat (length (ae_reps AE)) < 2 ^ 64) (Hkeys : Forall keyed (ae_reps AE)).

(** The result of an answer. *)
Definition answered (r : option duty) : Prop :=
  exists d', r = Some d' /\ duty_ok d' /\ exists l, d_out d' = d_out d ++ l /\ Forall (out_ok (d_cache d)) l.

Lemma extends_answered (d' : duty) : extends d d' -> answered (Some d').
Proof. intros (H1 & H2 & H3). exists d'. split; [done |]. split; [| done]. unfold duty_ok. now rewrite H1, H2. Qed.

Lemma votes_answered (d' : duty) (l : list Z) : extends d d' -> (0 < length l <= 12)%nat -> Forall known l ->
  answered (votes_to_peer l d').
Proof.
  intros (H1 & H2 & m & H3 & H4) Hl K. unfold votes_to_peer.
  assert (Hw : Forall (word 256) l) by (eapply Forall_impl; [exact K | apply known_word]).
  destruct (foreach_ok (ae_age AE) (ae_now AE) (ae_random AE) to_peer l (ae_reps AE) Hkeys Hl Hw d' M)
    as (vs & d2 & E & O2 & [_ D2] & _ & F2); [unfold duty_ok; now rewrite H1, H2 | now rewrite H1 | now rewrite H1 | exact Hb |].
  exists d2. split; [exact E |]. split; [exact O2 |]. exists (m ++ map out_vote vs).
  rewrite D2, H3, <- app_assoc. split; [done |]. apply Forall_app. split; [exact H4 |]. apply Forall_map.
  eapply Forall_impl; [exact F2 |]. cbn. intros v (-> & _). right. apply Forall_map. exact K.
Qed.

Lemma answered_put (r : option duty) (b : Block.block) (h : Z) : answered r -> Store.block_get (ae_store AE) h = Some b ->
  answered (option_map (fun d => put_out d [out_block b]) r).
Proof.
  intros (d' & -> & O' & l & E & F) Eb. exists (put_out d' [out_block b]). split; [done |]. split; [exact O' |].
  exists (l ++ [out_block b]). cbn. rewrite E, <- app_assoc. split; [done |]. apply Forall_app. split; [done |].
  constructor; [cbn; eauto | constructor].
Qed.

Lemma confirm_block_answered (b : Block.block) (h : Z) (also : bool) (d' : duty) : extends d d' ->
  Store.block_get (ae_store AE) h = Some b -> answered (confirm_block b also d').
Proof.
  intros E Eb. unfold confirm_block.
  assert (K : known (Block.hash b)).
  { rewrite L.block_get_get in Eb. destruct (Store.block_get_full (ae_store AE) h) as [x |] eqn:Ex; [| done]. injection Eb as <-.
    destruct (L.get_hash _ (L.inv_blocks _ Hinv) _ _ Ex) as [<- _]. apply known_get. eauto. }
  set (r := if (length (VC.votes_find (Block.hash b) (d_cache d')) =? 0)%nat then votes_to_peer [Block.hash b] d'
           else Some (put_out d' (map out_vote (VC.votes_find (Block.hash b) (d_cache d'))))).
  assert (A : answered r).
  { subst r. destruct (_ =? 0)%nat; [apply votes_answered; [done | cbn; lia | now repeat constructor] |].
    apply extends_answered, extends_put; [done |]. destruct E as (_ & -> & _). apply cached_ok. }
  destruct also; [now apply (answered_put r b h) |]. now destruct r.
Qed.

Lemma confirm_req_answered (enabled : bool) (r : request) :
  match r with for_roots l => (length l <= 12)%nat | for_block _ => True end -> answered (confirm_req enabled r d).
Proof.
  intros Hr. unfold confirm_req. destruct enabled; [| apply extends_answered, extends_refl].
  destruct r as [b | l].
  - unfold confirm_req_block. pose proof (send_votes_extends (Block.hash b) d d (extends_refl d)) as E1.
    destruct (send_votes_cache (Block.hash b) d) as [sent d1]. cbn [snd] in E1.
    destruct sent; [now apply extends_answered |]. unfold query_on.
    destruct (successor_found (ae_store AE) (Block.previous b) (Block.root b) Hinv) as [E | (h & n & E & En)].
    + rewrite E. now apply extends_answered.
    + rewrite E. now apply (confirm_block_answered n h).
  - destruct l as [| p l]; [apply extends_answered, extends_refl |]. unfold confirm_req_roots.
    destruct (answer_roots_ok (p :: l) d d [] (extends_refl d) ltac:(constructor)) as (d1 & bu & -> & E1 & L1 & K1).
    destruct bu as [| x bu]; [now apply extends_answered |]. apply votes_answered; [done | cbn in *; lia | done].
Qed.


End Answers.

(** A request for a block whose vote is in the cache is answered twice over: the
    votes found under the hash are sent, then the root is looked up as if the block
    were not known, the same votes are sent again, and the block with them. *)
Theorem cached_votes_sent_twice (AE : answer_env) (d : duty) (h root : Z) (b : Block.block) (bundle : list Z)
  (Hv : VC.votes_find h (d_cache d) <> []) (Hz : Numbers.uint256_is_zero h = false)
  (Hs : root_successor AE root = Some h) (Hb : Store.block_get (ae_store AE) h = Some b) :
  let vs := map out_vote (VC.votes_find h (d_cache d)) in
  answer_root AE (h, root) d bundle =
  Some (mk_duty (d_store d) (d_cache d) (d_processor d) (d_out d ++ vs ++ vs ++ [out_block b]), bundle).
Proof.
  intros vs. unfold answer_root, send_votes_cache. cbn [fst snd put_out d_cache]. rewrite Hs, Hz, Hb. fold vs.
  assert (E : (length (VC.votes_find h (d_cache d)) =? 0)%nat = false) by (destruct (VC.votes_find h (d_cache d)); done).
  rewrite E. cbn [negb andb]. unfold put_out. cbn. now rewrite <- !app_assoc.
Qed.

End Operations.

(** ** Applying the theorems *)

#[local] Existing Instance LedgerTheorems.LedgerTheorems.demo_env.
#[local] Existing Instance VP.ET.demo_work.
#[local] Existing Instance VS.demo_signatures.
Import LedgerTheorems.LedgerTheorems.

Definition demo_duty : duty := mk_duty (VS.start ∅) [] (VP.mk_processor [] ∅ ∅ ∅ false 0) [].

Lemma demo_duty_ok : duty_ok demo_duty /\ forall a, VS.current_sequence (d_store demo_duty) a <= 0.
Proof.
  split; [split |].
  - apply VS.start_ok. intros a b. now rewrite lookup_empty.
  - split; [split; constructor |]. split; [cbn; lia | constructor].
  - intros a. unfold VS.current_sequence, VS.current, VS.vote_current, VS.vote_get, VS.snapshot. cbn.
    rewrite !lookup_empty. cbn. lia.
Qed.

Definition demo_wallet : wallet := mk_wallet [5; 6] (fun a => (0 <=? a) && (a <? 2 ^ 256)) true (fun a => Some a).

Lemma demo_wallet_ok : wallet_ok demo_wallet.
Proof.
  intros a _ Ha _. exists a. split; [done |]. cbn in Ha. apply andb_true_iff in Ha as [H1 H2].
  apply Z.leb_le in H1. apply Z.ltb_lt in H2. apply Z.mod_small. lia.
Qed.

Lemma votes_generated_witness :
  exists reps vs d', vote_for_all 0 (fun _ => 0) (fun _ => []) (to_processor 1) [11; 12] reps demo_duty = Some d' /\
    map V.vote_account vs = map fst reps.
Proof.
  destruct (votes_generated 0 (fun _ => 0) (fun _ => []) (to_processor 1) [11; 12] [demo_wallet] (fun _ => 1) true demo_duty 0)
    as (reps & vs & d' & _ & E & _ & _ & A & _).
  - constructor; [apply demo_wallet_ok | constructor].
  - cbn. lia.
  - repeat constructor; unfold word; lia.
  - apply demo_duty_ok.
  - cbn. lia.
  - apply demo_duty_ok.
  - cbn. lia.
  - exists reps, vs, d'. split; [exact E | exact A].
Defined.

Definition demo_answer_env : answer_env := mk_answer_env 0 demo_sent (fun _ => 0) (fun _ => []) [(5, 5)].

Lemma demo_hash_word (b : Block.block) : word 256 (Block.hash b).
Proof.
  unfold word, Block.hash, Ledger.Ledger.env_hash, demo_env.
  pose proof (Z.mod_pos_bound (be_val (preimage b)) (2 ^ 255 - 19) ltac:(lia)). lia.
Qed.


Definition demo_cached : duty :=
  mk_duty (VS.start ∅) [VC.mk_cached 0 (Block.hash demo_send) [V.mk_vote 1 [V.vote_hash_only (Block.hash demo_send)] 5 0]]
    (VP.mk_processor [] ∅ ∅ ∅ false 0) [].

Lemma cached_votes_sent_twice_witness :
  let v := out_vote (V.mk_vote 1 [V.vote_hash_only (Block.hash demo_send)] 5 0) in
  option_map (fun r => d_out (fst r)) (answer_root demo_answer_env (Block.hash demo_send, Block.hash demo_genesis) demo_cached [])
  = Some [v; v; out_block demo_send].
Proof.
  intros v.
  rewrite (cached_votes_sent_twice demo_answer_env demo_cached (Block.hash demo_send) (Block.hash demo_genesis) demo_send []).
  - vm_compute. reflexivity.
  - vm_compute. discriminate.
  - vm_compute. reflexivity.
  - vm_compute. reflexivity.
  - vm_compute. reflexivity.
Defined.

End VoteGenerator.
