(* ===== verification/Unchecked.v ===== *)
(** * Blocks that wait for a block

    Model of [nano::unchecked_info] ([nano/secure/common.hpp]) and of the table
    [unchecked] of the store ([nano/node/lmdb.cpp]).  A block whose predecessor or
    source is not in the ledger waits under the hash of the block it needs.  The keys
    are pairs of hashes, compared as 64 big-endian bytes, and a lookup iterates over
    the keys that begin with a hash: the table is the list of its entries in the order
    of the keys. *)

From stdpp Require Import base gmap list sorting.
From Stdlib Require Import ZArith Lia.
From S2P Require Import Prelude Blocks Store Ledger.
Local Open Scope Z_scope.

Module Unchecked.
Import Ledger.Ledger.

Record info := mk_info {
  i_block : block; i_account : Z; i_modified : Z; i_verified : signature_verification }.

Definition set_verified (i : info) (v : signature_verification) : info :=
  mk_info (i_block i) (i_account i) (i_modified i) v.
Definition set_modified (i : info) (t : Z) : info := mk_info (i_block i) (i_account i) t (i_verified i).

Definition key : Type := Z * Z.
Definition table : Type := list (key * info).

Definition key_lt (a b : key) : bool := (a.1 <? b.1) || ((a.1 =? b.1) && (a.2 <? b.2)).

(** [mdb_put] replaces the value of a key that is there. *)
Fixpoint unchecked_put (k : key) (i : info) (t : table) : table :=
  match t with
  | [] => [(k, i)]
  | x :: t' =>
      if key_lt k x.1 then (k, i) :: t
      else if key_lt x.1 k then x :: unchecked_put k i t'
      else (k, i) :: t'
  end.

(** The overload for a block that was not looked at yet. *)
Definition unchecked_put_block `{BlockHash} (now h : Z) (b : block) (t : table) : table :=
  unchecked_put (h, hash b) (mk_info b (account b) now sv_unknown) t.

Definition unchecked_del (k : key) (t : table) : table :=
  List.filter (fun x => key_lt x.1 k || key_lt k x.1) t.

(** The iterator at the first key that is not less. *)
Fixpoint unchecked_begin (k : key) (t : table) : table :=
  match t with
  | [] => []
  | x :: t' => if key_lt x.1 k then unchecked_begin k t' else t
  end.

(** The loop of [unchecked_get]. *)
Fixpoint run_of (h : Z) (t : table) : list info :=
  match t with
  | [] => []
  | x :: t' => if x.1.1 =? h then x.2 :: run_of h t' else []
  end.

Definition unchecked_get (h : Z) (t : table) : list info := run_of h (unchecked_begin (h, 0) t).

Definition unchecked_exists (k : key) (t : table) : bool :=
  match unchecked_begin k t with x :: _ => bool_decide (x.1 = k) | [] => false end.

Definition unchecked_clear (t : table) : table := [].
Definition unchecked_count (t : table) : nat := length t.

(** ** The order of the keys *)

Definition lt (a b : key) : Prop := key_lt a b = true.

Lemma key_lt_spec (a b : key) : key_lt a b = true <-> a.1 < b.1 \/ a.1 = b.1 /\ a.2 < b.2.
Proof. unfold key_lt. rewrite orb_true_iff, andb_true_iff, Z.eqb_eq, !Z.ltb_lt. done. Qed.

Lemma key_lt_false (a b : key) : key_lt a b = false <-> b.1 < a.1 \/ b.1 = a.1 /\ b.2 <= a.2.
Proof. rewrite <- not_true_iff_false, key_lt_spec. lia. Qed.

Lemma key_eq (a b : key) : key_lt a b = false -> key_lt b a = false -> a = b.
Proof. rewrite !key_lt_false. destruct a, b; cbn. intros ? ?. f_equal; lia. Qed.

Lemma key_lt_irrefl (a : key) : key_lt a a = false.
Proof. apply key_lt_false. lia. Qed.

#[global] Instance lt_trans : Transitive lt.
Proof. intros a b c. unfold lt. rewrite !key_lt_spec. lia. Qed.

(** ** The invariant, and what the operations do *)

Definition ordered (t : table) : Prop := StronglySorted (fun x y => lt x.1 y.1) t.

Lemma unchecked_put_elem (k : key) (i : info) (t : table) (x : key * info) : ordered t ->
  x ∈ unchecked_put k i t <-> x = (k, i) \/ x ∈ t /\ x.1 <> k.
Proof.
  induction t as [| y t IH]; intros O; cbn.
  - rewrite list_elem_of_singleton. set_solver.
  - apply StronglySorted_inv in O as [O Oy]. rewrite Forall_forall in Oy.
    destruct (key_lt k y.1) eqn:L; [| destruct (key_lt y.1 k) eqn:L'].
    + rewrite elem_of_cons. split; [| tauto]. intros [-> | Hx]; [now left | right]. split; [done |]. intros E.
      apply elem_of_cons in Hx as [-> | Hx]; [now rewrite E, key_lt_irrefl in L |].
      pose proof (lt_trans _ _ _ L (Oy _ Hx)) as D. unfold lt in D. now rewrite E, key_lt_irrefl in D.
    + rewrite !elem_of_cons, IH by done. split; [| tauto]. intros [-> | [-> | ?]]; [| tauto | tauto].
      right. split; [tauto |]. intros E. rewrite E, key_lt_irrefl in L'. done.
    + pose proof (key_eq _ _ L L') as ->. rewrite !elem_of_cons. split.
      * intros [-> | Hx]; [now left | right]. split; [tauto |]. intros E.
        specialize (Oy _ Hx). unfold lt in Oy. rewrite E, key_lt_irrefl in Oy. done.
      * intros [-> | [[-> | Hx] N]]; [now left | done | now right].
Qed.

Lemma unchecked_put_ordered (k : key) (i : info) (t : table) : ordered t -> ordered (unchecked_put k i t).
Proof.
  induction t as [| y t IH]; intros O; cbn; [repeat constructor |].
  pose proof O as O'. apply StronglySorted_inv in O' as [O' Oy].
  destruct (key_lt k y.1) eqn:L; [| destruct (key_lt y.1 k) eqn:L'].
  - constructor; [done |]. constructor; [exact L |]. eapply Forall_impl; [exact Oy |]. cbn. intros z. now apply lt_trans.
  - constructor; [now apply IH |]. rewrite Forall_forall in *. intros x [-> | [Hx _]]%unchecked_put_elem; [exact L' | auto | done].
  - pose proof (key_eq _ _ L L') as ->. now constructor.
Qed.

Lemma unchecked_put_length (k : key) (i : info) (t : table) : (length (unchecked_put k i t) <= S (length t))%nat.
Proof. induction t as [| y t IH]; cbn; [lia |]. destruct (key_lt k _); [cbn; lia |]. destruct (key_lt _ k); cbn in *; lia. Qed.

Lemma del_elem (k : key) (t : table) (x : key * info) : x ∈ unchecked_del k t <-> x ∈ t /\ x.1 <> k.
Proof.
  unfold unchecked_del. rewrite !list_elem_of_In, filter_In. split; intros [Hx H]; (split; [done |]).
  - intros E. now rewrite E, key_lt_irrefl in H.
  - destruct (key_lt x.1 k) eqn:L1; [done |]. destruct (key_lt k x.1) eqn:L2; [done |]. now destruct H; apply key_eq.
Qed.

Lemma filter_sorted {A : Type} (R : A -> A -> Prop) (f : A -> bool) (l : list A) :
  StronglySorted R l -> StronglySorted R (List.filter f l).
Proof.
  induction 1 as [| x l S IH F]; cbn; [constructor |]. destruct (f x); [| done]. constructor; [done |].
  rewrite Forall_forall in *. intros y Hy. apply F. rewrite list_elem_of_In in *. now apply filter_In in Hy.
Qed.

Lemma del_ordered (k : key) (t : table) : ordered t -> ordered (unchecked_del k t).
Proof. apply filter_sorted. Qed.

Lemma begin_elem (k : key) (t : table) (x : key * info) : ordered t ->
  x ∈ unchecked_begin k t <-> x ∈ t /\ key_lt x.1 k = false.
Proof.
  induction t as [| y t IH]; intros O; cbn; [set_solver |].
  apply StronglySorted_inv in O as [O Oy]. destruct (key_lt y.1 k) eqn:L.
  - rewrite IH, elem_of_cons by done. split; [tauto |]. intros [[-> | Hx] N]; [congruence | tauto].
  - split; [| tauto]. intros Hx. split; [done |]. apply elem_of_cons in Hx as [-> | Hx]; [done |].
    rewrite Forall_forall in Oy. specialize (Oy _ Hx). unfold lt in Oy.
    rewrite key_lt_spec in Oy. rewrite !key_lt_false in *. lia.
Qed.

Lemma begin_ordered (k : key) (t : table) : ordered t -> ordered (unchecked_begin k t).
Proof.
  induction t as [| y t IH]; intros O; cbn; [done |]. destruct (key_lt y.1 k); [| done].
  apply IH. now apply StronglySorted_inv in O as [? _].
Qed.

(** In a table that begins at the hash or later, the run is all of its entries. *)
Lemma run_elem (h : Z) (t : table) (i : info) : ordered t -> Forall (fun x => h <= x.1.1) t ->
  i ∈ run_of h t <-> exists k, ((h, k), i) ∈ t.
Proof.
  induction t as [| [[a k] j] t IH]; intros O F; cbn.
  - split; [set_solver |]. intros [k Hk]. set_solver.
  - apply StronglySorted_inv in O as [O Oy]. apply Forall_cons in F as [Fy F]. cbn in *.
    destruct (Z.eqb_spec a h) as [-> | N].
    + rewrite elem_of_cons, IH by done. split.
      * intros [-> | [k' Hk]]; [exists k; now left | exists k'; now right].
      * intros [k' [E | Hk]%elem_of_cons]; [injection E as _ ->; now left | right; eauto].
    + split; [set_solver |]. intros [k' [E | Hk]%elem_of_cons]; [injection E; congruence |].
      rewrite Forall_forall in Oy. specialize (Oy _ Hk). unfold lt in Oy. rewrite key_lt_spec in Oy. cbn in Oy. lia.
Qed.

(** A lookup finds the entries that wait for a block, in the order of their hashes. *)
Lemma get_elem (h : Z) (t : table) (i : info) : ordered t -> Forall (fun x => 0 <= x.1.2) t ->
  i ∈ unchecked_get h t <-> exists k, ((h, k), i) ∈ t.
Proof.
  intros O F. unfold unchecked_get. rewrite run_elem.
  - split; intros [k Hk]; exists k; rewrite begin_elem in * by done; [tauto |]. split; [done |].
    rewrite Forall_forall in F. specialize (F _ Hk). cbn in F. apply key_lt_false. cbn. lia.
  - now apply begin_ordered.
  - apply Forall_forall. intros x Hx. apply begin_elem in Hx as [_ Hx]; [| done].
    apply key_lt_false in Hx. destruct x as [[a k] j]. cbn in *. lia.
Qed.

Lemma exists_spec (k : key) (t : table) : ordered t -> unchecked_exists k t = true <-> exists i, (k, i) ∈ t.
Proof.
  intros O. unfold unchecked_exists. pose proof (begin_ordered k t O) as Ob.
  assert (B : forall x, x ∈ unchecked_begin k t <-> x ∈ t /\ key_lt x.1 k = false) by (intros; now apply begin_elem).
  split.
  - destruct (unchecked_begin k t) as [| [k' i] l]; [done |]. rewrite bool_decide_eq_true. cbn. intros ->.
    exists i. apply (B (k, i)). now left.
  - intros [i Hi]. assert (Hb : (k, i) ∈ unchecked_begin k t) by (apply B; split; [done | apply key_lt_irrefl]).
    destruct (unchecked_begin k t) as [| x l]; [set_solver |]. apply bool_decide_eq_true.
    apply elem_of_cons in Hb as [<- | Hb]; [done |]. apply StronglySorted_inv in Ob as [_ Ob].
    rewrite Forall_forall in Ob. specialize (Ob _ Hb). unfold lt in Ob. cbn in Ob.
    destruct (proj1 (B x)) as [_ Hx]; [now left |]. congruence.
Qed.

(** One entry for each key. *)
Lemma ordered_keys (t : table) : ordered t -> NoDup (map fst t).
Proof.
  induction 1 as [| x t S IH F]; cbn; [constructor |]. constructor; [| exact IH].
  intros (y & E & Hy)%list_elem_of_fmap. rewrite Forall_forall in F. specialize (F y Hy). unfold lt in F.
  now rewrite E, key_lt_irrefl in F.
Qed.

Lemma del_length (k : key) (t : table) (i : info) : ordered t -> (k, i) ∈ t ->
  S (length (unchecked_del k t)) = length t.
Proof.
  intros O. apply ordered_keys in O. induction t as [| x t IH]; intros Hi; [now apply not_elem_of_nil in Hi |].
  cbn in O. apply NoDup_cons in O as [N O]. cbn. apply elem_of_cons in Hi as [<- | Hi].
  - cbn. rewrite key_lt_irrefl. cbn. f_equal. clear IH O. induction t as [| y t IH]; [done |]. cbn in *.
    apply not_elem_of_cons in N as [N1 N2]. destruct (key_lt y.1 k || key_lt k y.1) eqn:L; [cbn; f_equal; auto |].
    apply orb_false_iff in L as [L1 L2]. now destruct N1; apply key_eq.
  - assert (D : x.1 <> k) by (intros E; apply N; apply list_elem_of_fmap; exists (k, i); done).
    destruct (key_lt x.1 k || key_lt k x.1) eqn:L; [cbn; f_equal; auto |].
    apply orb_false_iff in L as [L1 L2]. now destruct D; apply key_eq.
Qed.

(** The entries that a lookup returns. *)
Lemma run_entries (h : Z) (t : table) : exists p, p `sublist_of` t /\ run_of h t = map snd p /\ Forall (fun x => x.1.1 = h) p.
Proof.
  induction t as [| x t (p & Sp & Ep & Fp)]; cbn.
  - exists []. split_and!; constructor.
  - destruct (Z.eqb_spec x.1.1 h) as [E | E].
    + exists (x :: p). split; [now constructor |]. split; [cbn; now rewrite Ep | now constructor].
    + exists []. split; [apply sublist_nil_l |]. split; [done | constructor].
Qed.

Lemma begin_sublist (k : key) (t : table) : unchecked_begin k t `sublist_of` t.
Proof. induction t as [| x t IH]; cbn; [constructor |]. destruct (key_lt x.1 k); [now apply sublist_cons | done]. Qed.

Lemma get_entries (h : Z) (t : table) : ordered t ->
  exists p, p `sublist_of` t /\ unchecked_get h t = map snd p /\ NoDup (map (fun x => x.1.2) p).
Proof.
  intros O. destruct (run_entries h (unchecked_begin (h, 0) t)) as (p & Sp & Ep & Fp). exists p.
  split; [etrans; [exact Sp | apply begin_sublist] |]. split; [exact Ep |].
  assert (N : NoDup (map fst p)).
  { eapply sublist_NoDup; [apply (ordered_keys t O) |]. apply fmap_sublist. etrans; [exact Sp | apply begin_sublist]. }
  clear Sp Ep. induction p as [| x p IH]; [constructor |]. cbn in *. apply Forall_cons in Fp as [Fx Fp].
  apply NoDup_cons in N as [Nx N]. constructor; [| auto]. intros (y & E & Hy)%list_elem_of_fmap. apply Nx.
  apply list_elem_of_fmap. exists y. split; [| done]. rewrite Forall_forall in Fp. specialize (Fp y Hy).
  destruct x as [[a b] i], y as [[a' b'] i']. cbn in *. congruence.
Qed.

End Unchecked.
