(* ===== verification/BlockProcessor.v ===== *)
(** * The block processor: definitions

    Model of [nano::block_processor] ([nano/node/blockprocessor.cpp]) and of the
    functions of the node around it ([nano/node/node.cpp]: [process_active],
    [process_fork]).  Blocks from the network and from bootstrapping are queued; a
    thread verifies signatures in batches, hands one block after the other to the
    ledger of [Ledger], and reacts to the result: a block that was accepted starts an
    election and brings back the blocks that waited for it, a block with a gap goes to
    the table of [Unchecked], a fork starts an election, and a block that won an
    election replaces the one in the ledger.  The thread is a machine whose steps are
    the sections between two changes of its lock or its transaction; other threads run
    in between.  [None] is a failed assertion or a null block that is dereferenced. *)

From stdpp Require Import base gmap list.
From Stdlib Require Import ZArith Lia.
From S2P Require Import Prelude Blocks Numbers Store Ledger LedgerInv LedgerProcess Work Votes Elections ElectionInv ElectionTheorems Caches VoteStore OnlineReps VoteProcessor VoteGenerator Unchecked.
Local Open Scope Z_scope.

Module BlockProcessor.
Import Ledger.Ledger Unchecked.Unchecked.
Module E := Elections.Elections.
Module W := Work.Work.
Module G := GapCache.
Module VC := VotesCache.
Module A := BlockArrival.
Module VG := VoteGenerator.VoteGenerator.
Module T := TimeIndex.

(** ** Data *)

Record rolled_hash := mk_rolled { rh_time : Z; rh_hash : Z }.

#[global] Instance rolled_timed : T.Timed rolled_hash := { T.time := rh_time; T.key := rh_hash }.

Definition rolled_back_max : nat := 1024.

Record queue := mk_queue {
  state_blocks : list info; q_blocks : list info; blocks_hashes : gset Z; forced : list block;
  rolled_back : list rolled_hash; q_stopped : bool }.

Definition empty_queue : queue := mk_queue [] [] ∅ [] [] false.

Definition put_queues (q : queue) (s l : list info) (h : gset Z) : queue :=
  mk_queue s l h (forced q) (rolled_back q) (q_stopped q).

(** What the processor hands to the network, and the counter of forks. *)
Inductive out := out_republish (b : block) | out_confirm_req (b : block) | out_fork_counted.

(** Where the thread is: between two batches; in the loop that verifies inside a read
    transaction; in the loop of the write transaction; with a block that it took from
    the queue; after a block. *)
Inductive phase :=
| waiting
| reading (snapshot : store)
| verifying_read (snapshot : store) (items : list info)
| writing
| working (i : info) (force : bool)
| worked
| verifying_write (items : list info).

Record node := mk_node {
  n_store : store; n_unchecked : table; n_queue : queue; n_phase : phase;
  n_gaps : G.gap_cache; n_votes : VC.votes_cache; n_arrival : list A.block_arrival_info;
  n_generator : VG.generator; n_active : E.system; n_alarms : list (Z * block); n_out : list out }.

Definition with_store (n : node) (s : store) : node :=
  mk_node s (n_unchecked n) (n_queue n) (n_phase n) (n_gaps n) (n_votes n) (n_arrival n) (n_generator n)
    (n_active n) (n_alarms n) (n_out n).
Definition with_unchecked (n : node) (t : table) : node :=
  mk_node (n_store n) t (n_queue n) (n_phase n) (n_gaps n) (n_votes n) (n_arrival n) (n_generator n)
    (n_active n) (n_alarms n) (n_out n).
Definition with_queue (n : node) (q : queue) : node :=
  mk_node (n_store n) (n_unchecked n) q (n_phase n) (n_gaps n) (n_votes n) (n_arrival n) (n_generator n)
    (n_active n) (n_alarms n) (n_out n).
Definition with_phase (n : node) (p : phase) : node :=
  mk_node (n_store n) (n_unchecked n) (n_queue n) p (n_gaps n) (n_votes n) (n_arrival n) (n_generator n)
    (n_active n) (n_alarms n) (n_out n).
Definition with_gaps (n : node) (g : G.gap_cache) : node :=
  mk_node (n_store n) (n_unchecked n) (n_queue n) (n_phase n) g (n_votes n) (n_arrival n) (n_generator n)
    (n_active n) (n_alarms n) (n_out n).
Definition with_votes (n : node) (c : VC.votes_cache) : node :=
  mk_node (n_store n) (n_unchecked n) (n_queue n) (n_phase n) (n_gaps n) c (n_arrival n) (n_generator n)
    (n_active n) (n_alarms n) (n_out n).
Definition with_arrival (n : node) (l : list A.block_arrival_info) : node :=
  mk_node (n_store n) (n_unchecked n) (n_queue n) (n_phase n) (n_gaps n) (n_votes n) l (n_generator n)
    (n_active n) (n_alarms n) (n_out n).
Definition with_generator (n : node) (g : VG.generator) : node :=
  mk_node (n_store n) (n_unchecked n) (n_queue n) (n_phase n) (n_gaps n) (n_votes n) (n_arrival n) g
    (n_active n) (n_alarms n) (n_out n).
Definition with_active (n : node) (a : E.active) : node :=
  mk_node (n_store n) (n_unchecked n) (n_queue n) (n_phase n) (n_gaps n) (n_votes n) (n_arrival n) (n_generator n)
    (E.mk_system a (E.sys_inactive (n_active n))) (n_alarms n) (n_out n).
Definition with_alarms (n : node) (l : list (Z * block)) : node :=
  mk_node (n_store n) (n_unchecked n) (n_queue n) (n_phase n) (n_gaps n) (n_votes n) (n_arrival n) (n_generator n)
    (n_active n) l (n_out n).
Definition sends (n : node) (x : out) : node :=
  mk_node (n_store n) (n_unchecked n) (n_queue n) (n_phase n) (n_gaps n) (n_votes n) (n_arrival n) (n_generator n)
    (n_active n) (n_alarms n) (n_out n ++ [x]).

(** The flags and the configuration the processor reads. *)
Record config := mk_config {
  fast_bootstrap : bool; enable_voting : bool; signature_checker_threads : nat; rollback_fuel : nat }.

(** The clocks: seconds since the epoch, and the steady clock in milliseconds. *)
Record clock := mk_clock { seconds : Z; steady : Z }.

(** The signature checker: one verdict for each key, message and signature. *)
Class Verifier := {
  verify : list (Z * Z * Z) -> list Z;
  verify_length (l : list (Z * Z * Z)) : length (verify l) = length l;
  verify_binary (l : list (Z * Z * Z)) : Forall (fun r => r = 0 \/ r = 1) (verify l) }.

(** The environment of the ledger at a time. *)
Definition at_time (LE : Env) (t : Z) : Env := {|
  env_hash := env_hash; validate_message := validate_message; epoch_link := epoch_link;
  epoch_signer := epoch_signer; genesis_account := genesis_account; now := t |}.

Section Operations.

Context `{LE : Env, WE : W.WorkEnv, IT : E.Iteration, CF : E.Config, VR : Verifier} (cfg : config).

(** ** The queue *)

Definition full (q : queue) : bool :=
  let full_size := if fast_bootstrap cfg then 1024 * 1024 else 65536 in
  full_size <? Z.of_nat (length (q_blocks q) + length (state_blocks q)).

(** The blocks whose signature the thread checks in a batch. *)
Definition batched (i : info) : bool :=
  bool_decide (i_verified i = sv_unknown) &&
  (type_eqb (type (i_block i)) bt_state || type_eqb (type (i_block i)) bt_open ||
   negb (Numbers.uint256_is_zero (i_account i))).

Definition enqueue (i : info) (q : queue) : queue :=
  let h := hash (i_block i) in
  if bool_decide (h ∉ blocks_hashes q) && negb (present (T.find h (rolled_back q))) then
    if batched i
    then put_queues q (state_blocks q ++ [i]) (q_blocks q) ({[ h ]} ∪ blocks_hashes q)
    else put_queues q (state_blocks q) (q_blocks q ++ [i]) ({[ h ]} ∪ blocks_hashes q)
  else q.

Definition add (i : info) (q : queue) : option queue :=
  if negb (fst (W.work_validate (root (i_block i)) (block_work (i_block i)))) then Some (enqueue i q) else None.

Definition add_block (b : block) (origination : Z) (q : queue) : option queue :=
  add (mk_info b 0 origination sv_unknown) q.

Definition force (b : block) (q : queue) : queue :=
  mk_queue (state_blocks q) (q_blocks q) (blocks_hashes q) (forced q ++ [b]) (rolled_back q) (q_stopped q).

Definition have_blocks (q : queue) : bool :=
  negb (length (q_blocks q) =? 0)%nat || negb (length (forced q) =? 0)%nat || negb (length (state_blocks q) =? 0)%nat.

(** ** [verify_state_blocks] *)

(** The loop that takes blocks from [state_blocks] ([None]: no limit): the ones that
    are not in the ledger, and the rest of the queue. *)
Fixpoint take_items (room : option nat) (s : store) (l : list info) : list info * list info :=
  match room, l with
  | Some O, _ | _, [] => ([], l)
  | _, i :: l' =>
      let (items, rest) := take_items (option_map pred room) s l' in
      (if block_exists_type s (type (i_block i)) (hash (i_block i)) then items else i :: items, rest)
  end.

Definition take_state_blocks (room : option nat) (s : store) (q : queue) : list info * queue :=
  let (items, rest) := take_items room s (state_blocks q) in
  (items, put_queues q rest (q_blocks q) (blocks_hashes q)).

(** [!link.is_zero () && is_epoch_link (link)]. *)
Definition epoch_linked (b : block) : bool :=
  negb (Numbers.uint256_is_zero (link b)) && is_epoch_link (link b).

(** What is checked: the account of the block, the epoch's signer, or the account that
    came with the block. *)
Definition check_of (i : info) : Z * Z * Z :=
  let a := if epoch_linked (i_block i) then epoch_signer
           else if negb (Numbers.uint256_is_zero (i_account i)) then i_account i
           else account (i_block i) in
  (a, hash (i_block i), block_signature (i_block i)).

(** The body of the last loop. *)
Definition judge (i : info) (verdict : Z) : list info :=
  if epoch_linked (i_block i)
  then [set_verified i (if verdict =? 1 then sv_valid_epoch else sv_unknown)]
  else if verdict =? 1 then [set_verified i sv_valid] else [].

Fixpoint judge_all (items : list info) (verdicts : list Z) : option (list info) :=
  match items, verdicts with
  | [], _ => Some []
  | i :: items', v :: verdicts' =>
      if (v =? 1) || (v =? 0) then option_map (app (judge i v)) (judge_all items' verdicts') else None
  | _ :: _, [] => None
  end.

Definition finish_state_blocks (items : list info) (q : queue) : option queue :=
  option_map (fun l => put_queues q (state_blocks q) (q_blocks q ++ l) (blocks_hashes q))
    (judge_all items (verify (map check_of items))).

Definition max_verification_batch : option nat :=
  if fast_bootstrap cfg then None else Some (2048 * (signature_checker_threads cfg + 1))%nat.

Definition write_verification_batch : option nat := Some (256 * (signature_checker_threads cfg + 1))%nat.

(** ** Reactions *)

(** [queue_unchecked]. *)
Fixpoint requeue (h : Z) (l : list info) (t : table) (q : queue) : option (table * queue) :=
  match l with
  | [] => Some (t, q)
  | i :: l' =>
      let t := if negb (fast_bootstrap cfg) then unchecked_del (h, hash (i_block i)) t else t in
      match add i q with Some q => requeue h l' t q | None => None end
  end.

Definition queue_unchecked (h : Z) (n : node) : option node :=
  match requeue h (unchecked_get h (n_unchecked n)) (n_unchecked n) (n_queue n) with
  | Some (t, q) => Some (with_gaps (with_queue (with_unchecked n t) q) (G.gap_erase h (n_gaps n)))
  | None => None
  end.

Definition confirmation_request_delay : Z := 1500.

Section WithEnv.

Context `{VE : E.VoteEnv}.

Definition process_live (c : clock) (h : Z) (b : block) (n : node) : option node :=
  match E.active_add (E.sys_active (n_active n)) b with
  | Some (_, a) =>
      let n := sends (with_active n a) (out_republish b) in
      let n := if enable_voting cfg then with_generator n (VG.generator_add h (n_generator n)) else n in
      Some (with_alarms n (n_alarms n ++ [(steady c + confirmation_request_delay, b)]))
  | None => None
  end.

(** The alarm of [process_live]: were votes requested already? *)
Definition alarm_requests (a : E.active) (b : block) : bool :=
  match E.blocks a !! hash b with
  | Some i =>
      match E.elections a !! i with
      | Some e => negb (E.confirmed e) && negb (E.stopped e) && (E.announcements e =? 0)
      | None => false
      end
  | None => false
  end.

Definition on_store {X : Type} (s : store) (m : M X) : option X :=
  match m (mk_lstate s [] (initial_result sv_unknown) []) with Done (x, _) => Some x | _ => None end.

Definition root_exists (s : store) (r : Z) : bool := block_exists s r || account_exists s r.

(** [node::process_fork]; what the election does for a bootstrap attempt when it is
    confirmed is not modelled. *)
Definition process_fork (b : block) (n : node) : option node :=
  let s := n_store n in
  if negb (block_exists_type s (type b) (hash b)) && root_exists s (root b) then
    match on_store s (forked_block b) with
    | Some ledger_block =>
        match E.active_add (E.sys_active (n_active n)) ledger_block with
        | Some (error, a) =>
            Some (if error : bool then with_active n a else sends (with_active n a) (out_confirm_req ledger_block))
        | None => None
        end
    | None => None
    end
  else Some n.

(** A block with a gap: it waits under the key, with the status of its signature. *)
Definition keep_unchecked (c : clock) (r : process_return) (k : Z) (i : info) (n : node) : node :=
  let h := hash (i_block i) in
  let i := set_verified i (verified r) in
  let i := if i_modified i =? 0 then set_modified i (seconds c) else i in
  with_gaps (with_unchecked n (unchecked_put (k, h) i (n_unchecked n))) (G.gap_add h (steady c) (n_gaps n)).

(** [block_arrival.recent], asked only for a block of the last 300 seconds. *)
Definition is_live (c : clock) (i : info) (n : node) : bool * node :=
  if u64 (seconds c - 300) <? i_modified i then
    let (r, l) := A.arrival_recent (steady c) (hash (i_block i)) (n_arrival n) in (r, with_arrival n l)
  else (false, n).

(** [process_one]. *)
Definition process_one (c : clock) (i : info) (n : node) : option (process_return * node) :=
  let b := i_block i in
  let h := hash b in
  match process (H := at_time LE (seconds c)) (n_store n) b (i_verified i) with
  | Done (r, s) =>
      let n := with_store n s in
      option_map (pair r)
        match code r with
        | progress =>
            if Numbers.uint256_is_zero (i_account i) || (i_account i =? r_account r) then
              let (live, n) := is_live c i n in
              match (if live then process_live c h b n else Some n) with
              | Some n => queue_unchecked h n
              | None => None
              end
            else None
        | gap_previous => Some (keep_unchecked c r (previous b) i n)
        | gap_source =>
            match on_store s (block_source b) with
            | Some k => Some (keep_unchecked c r k i n)
            | None => None
            end
        | old =>
            match (if negb (fast_bootstrap cfg) then queue_unchecked h n else Some n) with
            | Some n => option_map (with_active n) (E.update_difficulty (E.sys_active (n_active n)) b)
            | None => None
            end
        | fork =>
            if i_modified i <? u64 (seconds c - 15)
            then option_map (fun n => sends n out_fork_counted) (process_fork b n)
            else Some n
        | _ => Some n
        end
  | _ => None
  end.

(** The overload for a block alone. *)
Definition process_one_block (c : clock) (b : block) (n : node) : option (process_return * node) :=
  process_one c (mk_info b (account b) 0 sv_unknown) n.

(** ** Replacing a block *)

Definition remember_rolled (c : clock) (loser winner : Z) (q : queue) : queue :=
  let (inserted, l) := T.insert (mk_rolled (steady c) loser) (rolled_back q) in
  let l := if inserted : bool then
             let l := T.erase winner l in
             if (rolled_back_max <? length l)%nat then T.pop l else l
           else l in
  mk_queue (state_blocks q) (q_blocks q) (blocks_hashes q) (forced q) l (q_stopped q).

(** The part of [process_batch] for a block that was forced. *)
Definition replace_loser (c : clock) (b : block) (n : node) : option node :=
  match on_store (n_store n) (successor (previous b) (root b)) with
  | Some (Some loser) =>
      if negb (hash loser =? hash b) then
        match rollback (H := at_time LE (seconds c)) (rollback_fuel cfg) (hash loser) (mk_lstate (n_store n) [] (initial_result sv_unknown) []) with
        | Done (_, t) =>
            let n := with_queue (with_store n (db t)) (remember_rolled c (hash loser) (hash b) (n_queue n)) in
            Some (with_votes n (fold_left (fun v h => VC.votes_remove h v) (rolled t) (n_votes n)))
        | _ => None
        end
      else Some n
  | Some None => Some n
  | None => None
  end.

End WithEnv.

(** ** The thread among the others *)

Inductive event :=
| ev_add (i : info)                (* bootstrapping *)
| ev_active (b : block)            (* the network: [process_active] *)
| ev_force (b : block)
| ev_one (i : info)                (* [process_one] in a transaction of another thread *)
| ev_begin                         (* a batch begins *)
| ev_verify                        (* takes blocks to verify *)
| ev_checked                       (* the checker has answered *)
| ev_write                         (* opens the write transaction *)
| ev_pop                           (* takes a block *)
| ev_process
| ev_more                          (* after a block: the lock again, more to verify? *)
| ev_end                           (* the batch ends *)
| ev_stop
| ev_election (x : E.event)
| ev_alarm.

Inductive outcome := fine (n : node) | assertion | impossible.

Definition of_option (o : option node) : outcome := match o with Some n => fine n | None => assertion end.

(** Is the thread inside its write transaction?  There is one at a time. *)
Definition in_write (p : phase) : bool :=
  match p with writing | working _ _ | worked | verifying_write _ => true | _ => false end.

(** The blocks an election forces. *)
Definition forces (l : list E.action) : list block :=
  omap (fun x => match x with E.block_force b => Some b | _ => None end) l.

Definition on_queue (n : node) (o : option queue) : outcome := of_option (option_map (with_queue n) o).

(** [node::process_active]. *)
Definition process_active (c : clock) (b : block) (n : node) : outcome :=
  on_queue (with_arrival n (snd (A.arrival_add (steady c) (hash b) (n_arrival n)))) (add_block b (seconds c) (n_queue n)).

(** Does [flush] return?  The thread is active in a batch. *)
Definition flush_returns (n : node) : bool :=
  q_stopped (n_queue n) || negb (have_blocks (n_queue n) || match n_phase n with waiting => false | _ => true end).

(** A block that is taken from the queue. *)
Definition pop (c : clock) (q : queue) : option (info * bool * queue) :=
  match forced q, q_blocks q with
  | b :: l, _ => Some (mk_info b 0 (seconds c) sv_unknown, true,
                       mk_queue (state_blocks q) (q_blocks q) (blocks_hashes q) l (rolled_back q) (q_stopped q))
  | [], i :: l => Some (i, false, put_queues q (state_blocks q) l (blocks_hashes q ∖ {[ hash (i_block i) ]}))
  | [], [] => None
  end.

Definition step (VE : E.VoteEnv) (c : clock) (n : node) (e : event) : outcome :=
  let q := n_queue n in
  match e, n_phase n with
  | ev_add i, _ => on_queue n (add i q)
  | ev_active b, _ => process_active c b n
  | ev_force b, _ => fine (with_queue n (force b q))
  | ev_one i, p => if in_write p then impossible else of_option (option_map snd (process_one c i n))
  | ev_begin, waiting =>
      if negb (q_stopped q) && have_blocks q then fine (with_phase n (reading (n_store n))) else impossible
  | ev_verify, reading s =>
      match state_blocks q with
      | [] => impossible
      | _ => let (items, q) := take_state_blocks max_verification_batch s q in
             fine (with_phase (with_queue n q) (if (length items =? 0)%nat then reading s else verifying_read s items))
      end
  | ev_checked, verifying_read s items =>
      on_queue (with_phase n (reading s)) (finish_state_blocks items q)
  | ev_checked, verifying_write items =>
      on_queue (with_phase n writing) (finish_state_blocks items q)
  | ev_write, reading _ => fine (with_phase n writing)
  | ev_pop, writing =>
      match pop c q with
      | Some (i, f, q) => fine (with_phase (with_queue n q) (working i f))
      | None => impossible
      end
  | ev_process, working i f =>
      match (if f : bool then replace_loser c (i_block i) n else Some n) with
      | Some n => of_option (option_map (fun x => with_phase (snd x) worked) (process_one c i n))
      | None => assertion
      end
  | ev_more, worked =>
      match q_blocks q, state_blocks q with
      | [], _ :: _ =>
          let (items, q) := take_state_blocks write_verification_batch (n_store n) q in
          fine (with_phase (with_queue n q) (if (length items =? 0)%nat then writing else verifying_write items))
      | _, _ => fine (with_phase n writing)
      end
  | ev_end, writing => fine (with_phase n waiting)
  | ev_stop, _ =>
      fine (with_queue n (mk_queue (state_blocks q) (q_blocks q) (blocks_hashes q) (forced q) (rolled_back q) true))
  | ev_election x, _ =>
      match E.event_step VE (n_active n) x with
      | E.ok s =>
          let fresh := drop (length (E.log (E.sys_active (n_active n)))) (E.log (E.sys_active s)) in
          fine (with_queue
                  (mk_node (n_store n) (n_unchecked n) (n_queue n) (n_phase n) (n_gaps n) (n_votes n) (n_arrival n)
                     (n_generator n) s (n_alarms n) (n_out n))
                  (fold_left (fun q b => force b q) (forces fresh) q))
      | E.assertion_failed => assertion
      | E.cannot_happen => impossible
      end
  | ev_alarm, _ =>
      match n_alarms n with
      | (t, b) :: l =>
          if t <=? steady c
          then let n := with_alarms n l in
               fine (if alarm_requests (E.sys_active (n_active n)) b then sends n (out_confirm_req b) else n)
          else impossible
      | [] => impossible
      end
  | _, _ => impossible
  end.

Fixpoint run (n : node) (es : list (E.VoteEnv * clock * event)) : outcome :=
  match es with
  | [] => fine n
  | (VE, c, e) :: es' => match step VE c n e with fine n' => run n' es' | o => o end
  end.

End Operations.

End BlockProcessor.
