(* ===== verification/BlockInv.v ===== *)
(** * The block processor: invariants

    The universe of the blocks a run is about, what the ledger, the queue and the table
    of waiting blocks satisfy between two steps, and the proof that the operations of
    [BlockProcessor] keep it.  [owner] says which account the chain of a block belongs
    to: the older block types do not name it. *)

From stdpp Require Import base gmap list.
From Stdlib Require Import ZArith Lia.
From S2P Require Import Prelude Blocks Numbers Store Ledger LedgerInv LedgerAppend LedgerProcess LedgerTheorems LedgerOutcome Work Votes Elections ElectionInv ElectionTheorems Caches VoteGenerator Unchecked BlockProcessor.
Local Open Scope Z_scope.

Module BlockInv.
Import Ledger.Ledger LedgerInv.LedgerInv LedgerAppend.LedgerAppend LedgerProcess.LedgerProcess LedgerOutcome.LedgerOutcome
  Unchecked.Unchecked BlockProcessor.BlockProcessor.
Module EI := ElectionInv.ElectionInv.
Module ET := ElectionTheorems.ElectionTheorems.
Module LT := LedgerTheorems.LedgerTheorems.

(** A checker that accepts no invalid signature. *)
Class Sound `{LE : Env} (VR : Verifier) : Prop :=
  verify_sound (l : list (Z * Z * Z)) (i : nat) (a m s : Z) :
    nth_error l i = Some (a, m, s) -> nth_error (verify l) i = Some 1 -> validate_message a m s = false.

Section Universe.

Context `{LE : Env, WE : W.WorkEnv}.

(** The blocks of a run: well formed and with work, no two of the same hash with
    different contents, and no chain that passes from one account to another. *)
Record universe (U : block -> Prop) (owner : Z -> Z) : Prop := {
  u_ok (b : block) : U b -> block_ok b;
  u_hash (b : block) : U b -> 0 < hash b;
  u_work (b : block) : U b -> fst (W.work_validate_block b) = false;
  u_collision (b b' : block) : U b -> U b' -> hash b = hash b' -> preimage b = preimage b';
  u_owner (b : block) : U b ->
    match b with
    | open_block f _ _ => owner (hash b) = open_account f
    | state_block f _ _ => owner (hash b) = state_account f /\
        (state_previous f <> 0 -> owner (state_previous f) = state_account f)
    | _ => owner (hash b) = owner (previous b)
    end }.

Context (U : block -> Prop) (owner : Z -> Z) (HU : universe U owner).

Lemma u_word (b : block) : U b -> word 256 (previous b).
Proof.
  intros Hb. destruct (u_ok _ _ HU b Hb) as (Hh & _). destruct b as [[] ? ? | [] ? ? | [] ? ? | [] ? ? | [] ? ?]; cbn in *;
    try apply Hh. unfold word. lia.
Qed.

Lemma u_root (b b' : block) : U b -> U b' -> hash b = hash b' -> E.root_of b = E.root_of b'.
Proof.
  intros Hb Hb' E. pose proof (preimage_inj b b' (u_ok _ _ HU b Hb) (u_ok _ _ HU b' Hb') (u_collision _ _ HU b b' Hb Hb' E)) as S.
  destruct b, b'; cbn in S; try done; try (now subst); destruct S as [S1 S2]; unfold E.root_of; cbn; congruence.
Qed.

Lemma u_owner_account (b : block) : U b -> legacy_type (type b) = false \/ type b = bt_open -> owner (hash b) = account b.
Proof. intros Hb Ht. pose proof (u_owner _ _ HU b Hb) as H. destruct b, Ht; cbn in *; try done; now destruct H. Qed.

(** ** The ledger *)

Record ledger_inv (s : store) : Prop := {
  li_inv : inv s;
  li_known (h : Z) (x : entry) : block_get_full s h = Some x -> U x.1;
  li_owned (h : Z) (x : entry) : block_get_full s h = Some x -> entry_account x = owner h }.

Definition stored (s : store) (h : Z) : Prop := is_Some (block_get_full s h).

Lemma not_foreign (s : store) (b : block) : ledger_inv s -> U b -> ~ foreign s b.
Proof.
  intros Hs Hb (Ht & x & Hx & N). apply N. rewrite (li_owned s Hs _ _ Hx). destruct b; try done.
  destruct (u_owner _ _ HU _ Hb) as [_ H]. apply H. exact (get_nonzero s (li_inv s Hs) _ _ Hx).
Qed.

(** The signature of a block, as the processor keeps it. *)
Definition status_true (b : block) (v : signature_verification) : Prop :=
  (v = sv_valid -> validate_message (owner (hash b)) (hash b) (block_signature b) = false) /\
  (v = sv_valid_epoch -> validate_message epoch_signer (hash b) (block_signature b) = false).

Lemma signer_owner (s : store) (b : block) : ledger_inv s -> U b -> reaches_signature s b = true ->
  signer s b = owner (hash b).
Proof.
  intros Hs Hb Hr. pose proof (u_owner _ _ HU b Hb) as Ho.
  assert (G : frontier_get s (previous b) <> 0 -> owner (previous b) = frontier_get s (previous b)).
  { intros Hf. destruct (frontier_head s _ (li_inv s Hs) Hf) as (i & x & _ & Hi & Hh & _ & Hx & _).
    destruct (head_entry s (li_inv s Hs) _ _ Hi) as (y & Hy & _ & Ey). rewrite Hh in Hy.
    rewrite <- (li_owned s Hs _ _ Hy). exact Ey. }
  destruct b; cbn in *; try (now destruct Ho); rewrite Ho, G; try done; now apply Z.eqb_neq, negb_true_iff.
Qed.

Lemma block_admissible (s : store) (b : block) (v : signature_verification) : ledger_inv s -> U b -> status_true b v ->
  admissible s b v.
Proof.
  intros Hs Hb [Sv Se]. split.
  - exact (u_ok _ _ HU b Hb).
  - pose proof (u_hash _ _ HU b Hb). lia.
  - intros x Hx. destruct (get_hash s (inv_blocks _ (li_inv s Hs)) _ _ Hx) as (Eh & _).
    apply (u_collision _ _ HU); [now apply (li_known s Hs _ _ Hx) | done | done].
  - intros Ev Hr. rewrite (signer_owner s b Hs Hb Hr). auto.
  - exact Se.
  - intros Ht Hl Ha. destruct (Z.eq_dec (previous b) 0) as [| Hp]; [now left | right].
    destruct (block_get_full s (previous b)) as [x |] eqn:Hx; [exfalso | done].
    apply (not_foreign s b Hs Hb). split; [done |]. exists x. split; [done |]. intros Ea.
    destruct (inv_chain _ (li_inv s Hs) _ _ Hx) as [(e & j & Hj & _) _ _]. rewrite Ea in Hj.
    apply (account_get_entry s (li_inv s Hs)) in Hj. congruence.
Qed.

Lemma admissible_at (s : store) (b : block) (v : signature_verification) (t : Z) :
  admissible s b v -> admissible (H := at_time LE t) s b v.
Proof. intros [H1 H2 H3 H4 H5 H6]. split; assumption. Qed.

(** One store follows another: blocks stay, and keep their type. *)
Definition extended (s s' : store) : Prop :=
  forall h x, block_get_full s h = Some x -> exists y, block_get_full s' h = Some y /\ y.1 = x.1.

#[global] Instance extended_preorder : PreOrder extended.
Proof.
  split; [intros s h x; eauto |]. intros s1 s2 s3 H1 H2 h x Hx. destruct (H1 h x Hx) as (y & Hy & <-). eauto.
Qed.

Lemma extended_stored (s s' : store) (h : Z) : extended s s' -> stored s h -> stored s' h.
Proof. intros He [x Hx]. destruct (He h x Hx) as (y & Hy & _). now exists y. Qed.

Section Appended.

Context (s s' : store) (b : block) (sb : sideband) (a : Z) (old : option account_info) (new : account_info)
  (c : pending_change).
Context (Hs : ledger_inv s) (Hb : U b) (Ha : appended s b sb a old new c s') (Hx : explains s b a old c).

Lemma append_owner : a = owner (hash b).
Proof.
  assert (G : (exists i, old = Some i) -> a = owner (previous b)).
  { intros [i Eo]. pose proof (ap_prev _ _ _ _ _ _ _ _ Ha) as Hp. rewrite Eo in Hp.
    destruct (ap_account _ _ _ _ _ _ _ _ Ha) as [_ Ho]. rewrite Eo in Ho.
    destruct (head_entry s (li_inv s Hs) _ _ Ho) as (x & Hh & _ & Ex). rewrite <- Hp in Hh.
    rewrite <- (li_owned s Hs _ _ Hh). now rewrite Ex. }
  pose proof (u_owner _ _ HU b Hb) as Ho.
  destruct b as [f sg w | f sg w | f sg w | f sg w | f sg w]; cbn in Hx, Ho; destruct Hx as [H1 _].
  - rewrite Ho. now apply G.
  - rewrite Ho. now apply G.
  - congruence.
  - rewrite Ho. now apply G.
  - destruct Ho. congruence.
Qed.

Lemma append_extended : extended s s'.
Proof.
  intros h x Hh. destruct (ap_keep _ _ _ _ _ _ _ _ Ha h x Hh) as (n & E). eexists. split; [exact E | done].
Qed.

Lemma append_new (h : Z) (y : entry) : block_get_full s' h = Some y ->
  h = hash b /\ y = (b, sb) \/ h <> hash b /\ exists x, block_get_full s h = Some x /\ y.1 = x.1 /\ entry_account y = entry_account x.
Proof.
  intros Hy. destruct (ap_entry _ _ _ _ _ _ _ _ Ha h y Hy) as [[-> ->] | [[-> (x & Ex & ->)] | (N1 & N2 & Ex)]].
  - now left.
  - right. split; [exact (ap_fresh _ _ _ _ _ _ _ _ Ha _ _ Ex) | now exists x].
  - right. split; [done | now exists y].
Qed.

Lemma append_ledger : ledger_inv s'.
Proof.
  destruct (ap_sideband _ _ _ _ _ _ _ _ Ha) as (_ & Ea & _). split.
  - exact (append_inv _ _ _ _ _ _ _ _ (li_inv s Hs) Ha).
  - intros h y [[-> ->] | (_ & x & Ex & -> & _)]%append_new; [exact Hb | exact (li_known s Hs _ _ Ex)].
  - intros h y [[-> ->] | (_ & x & Ex & _ & ->)]%append_new; [rewrite Ea; exact append_owner | exact (li_owned s Hs _ _ Ex)].
Qed.

Lemma append_stored (h : Z) : stored s' h <-> h = hash b \/ stored s h.
Proof.
  split.
  - intros [y Hy]. destruct (append_new h y Hy) as [[-> _] | (_ & x & Ex & _)]; [now left | right; now exists x].
  - intros [-> | Hh]; [| exact (extended_stored _ _ _ append_extended Hh)].
    exists (b, sb). exact (ap_get_new _ _ _ _ _ _ _ _ Ha).
Qed.

End Appended.

(** A hash is a source if a block that can send has it. *)
Lemma source_exists_get (s : store) (h : Z) : inv s -> source_exists s h = true <->
  exists x, block_get_full s h = Some x /\ (type x.1 = bt_state \/ type x.1 = bt_send).
Proof.
  intros Hs. unfold source_exists. rewrite orb_true_iff, !(exists_type_get s (inv_blocks _ Hs)). naive_solver.
Qed.

Lemma extended_source (s s' : store) (h : Z) : inv s -> inv s' -> (stored s' h -> stored s h) -> extended s s' ->
  source_exists s h = false -> source_exists s' h = false.
Proof.
  intros Hs Hs' Hn He Hf. apply not_true_is_false. intros (y & Hy & Ht)%source_exists_get; [| done].
  destruct (Hn (ex_intro _ y Hy)) as [x Hx]. destruct (He h x Hx) as (y' & Hy' & Ey). rewrite Hy in Hy'. injection Hy' as <-.
  rewrite Ey in Ht. enough (source_exists s h = true) by congruence. apply source_exists_get; eauto.
Qed.

(** ** One block *)

Definition info_ok (i : info) : Prop :=
  U (i_block i) /\ word 256 (i_account i) /\ (i_account i = 0 \/ i_account i = owner (hash (i_block i))) /\
  status_true (i_block i) (i_verified i).

(** What a waiting block waits for: its predecessor is missing, or its source is no
    stored block that can send. *)
Definition waits (s : store) (d : Z) (b : block) : Prop :=
  d = previous b /\ ~ stored s d \/ d = source_of b /\ source_exists s d = false.

Definition final (c : process_result) : bool :=
  match c with progress | old | gap_previous | gap_source => false | _ => true end.

(** What the ledger did with a block. *)
Lemma process_step (s : store) (i : info) (t : Z) : ledger_inv s -> info_ok i ->
  exists r s', process (H := at_time LE t) s (i_block i) (i_verified i) = Done (r, s') /\
    ledger_inv s' /\ extended s s' /\ status_true (i_block i) (verified r) /\
    match code r with
    | progress => r_account r = owner (hash (i_block i)) /\ ~ stored s (hash (i_block i)) /\
        forall h, stored s' h <-> h = hash (i_block i) \/ stored s h
    | gap_previous => s' = s /\ ~ stored s (previous (i_block i))
    | gap_source => s' = s /\ gap_source_ok s (i_block i)
    | fork => s' = s /\ fork_ok s (i_block i)
    | old => s' = s /\ stored s (hash (i_block i))
    | _ => s' = s
    end.
Proof.
  intros Hs (Hb & _ & _ & St). set (b := i_block i) in *. set (v := i_verified i) in *.
  pose proof (admissible_at s b v t (block_admissible s b v Hs Hb St)) as Had.
  destruct (process_settled (H := at_time LE t) s b v (li_inv s Hs) Had) as (r & s' & E & Hc).
  exists r, s'. split; [exact E |].
  pose proof (process_answered (H := at_time LE t) s v (li_inv s Hs) b r s' E) as [[Sv Se] An].
  assert (St' : status_true b (verified r)).
  { destruct St as [St1 St2]. split.
    - intros Ev. destruct (Sv Ev) as [E' | [Hr Hv]]; [auto |]. now rewrite <- (signer_owner s b Hs Hb Hr).
    - intros Ev. destruct (Se Ev) as [E' | Hv]; [auto | exact Hv]. }
  destruct Hc as [[Hc ->] | (Hc & sb & a & o & n & c & Hap & Hex & Ea & _)].
  - split; [done |]. split; [reflexivity |]. split; [exact St' |]. destruct (code r); try done.
    + split; [done |]. apply (exists_type_get s (inv_blocks _ (li_inv s Hs))) in An as (x & Hx & _). now exists x.
    + split; [done |]. destruct An as [An | An]; [intros [x Hx]; congruence | now apply not_foreign in An].
  - rewrite Hc. pose proof (append_owner s s' b sb a o n c Hs Hb Hap Hex) as Eo.
    split; [exact (append_ledger s s' b sb a o n c Hs Hb Hap Hex) |].
    split; [exact (append_extended s s' b sb a o n c Hap) |]. split; [exact St' |]. split; [congruence |].
    split; [intros [x Hx]; destruct (ap_block _ _ _ _ _ _ _ _ Hap) as (_ & _ & F); change (block_get_full s (hash b) = None) in F; congruence |].
    intros h. exact (append_stored s s' b sb a o n c Hap h).
Qed.

(** ** The queue *)

Definition queued (items : list info) (q : queue) : list info := state_blocks q ++ items ++ q_blocks q.

Definition hash_of (i : info) : Z := hash (i_block i).

(** A hash that the processor has seen: it is queued, in the ledger, or refused. *)
Definition seen (s : store) (R : list Z) (items : list info) (q : queue) (h : Z) : Prop :=
  h ∈ map hash_of (queued items q) \/ stored s h \/ h ∈ R.

(** No hash is queued twice, the hashes of queued blocks are in the set, and a hash in
    the set was seen.  [items] are with the checker; [R] are the hashes of blocks that
    were refused so far. *)
Record queue_inv (s : store) (R : list Z) (items : list info) (q : queue) : Prop := {
  qi_infos : Forall info_ok (queued items q);
  qi_batched : Forall (fun i => batched i = true) (state_blocks q ++ items);
  qi_forced : Forall U (forced q);
  qi_nodup : NoDup (map hash_of (queued items q));
  qi_hashes (i : info) : i ∈ queued items q -> hash_of i ∈ blocks_hashes q;
  qi_stale (h : Z) : h ∈ blocks_hashes q -> seen s R items q h;
  qi_rolled : rolled_back q = [] }.

Lemma seen_mono (s s' : store) (R R' items items' : list _) (q q' : queue) (h : Z) :
  (h ∈ map hash_of (queued items q) -> seen s' R' items' q' h) -> extended s s' -> R ⊆ R' ->
  seen s R items q h -> seen s' R' items' q' h.
Proof.
  intros Hq He HR [H | [H | H]]; [auto | right; left; exact (extended_stored _ _ _ He H) | right; right; set_solver].
Qed.

Lemma queue_inv_mono (s s' : store) (R R' : list Z) (items : list info) (q : queue) : extended s s' -> R ⊆ R' ->
  queue_inv s R items q -> queue_inv s' R' items q.
Proof.
  intros He HR [H1 H2 H3 H4 H5 H6 H7]. split; try assumption. intros h Hh.
  apply (seen_mono s s' R R' items items q q); auto. now left.
Qed.

Lemma is_zero_word (x : Z) : word 256 x -> Numbers.uint256_is_zero x = (x =? 0).
Proof. exact (Numbers.Numbers.is_zero_be 4 x). Qed.

(** *** Adding *)

Lemma enqueue_cases (i : info) (q : queue) (items : list info) :
  enqueue i q = q /\ (hash_of i ∈ blocks_hashes q \/ rolled_back q <> []) \/
  hash_of i ∉ blocks_hashes q /\ queued items (enqueue i q) ≡ₚ i :: queued items q /\
  blocks_hashes (enqueue i q) = {[ hash_of i ]} ∪ blocks_hashes q /\
  forced (enqueue i q) = forced q /\ rolled_back (enqueue i q) = rolled_back q /\
  (state_blocks (enqueue i q) = state_blocks q \/
   batched i = true /\ state_blocks (enqueue i q) = state_blocks q ++ [i]).
Proof.
  unfold enqueue, queued. fold (hash_of i).
  destruct (bool_decide_reflect (hash_of i ∉ blocks_hashes q)) as [N | N]; cbn [andb];
    [| left; split; [done | left; now apply dec_stable]].
  destruct (T.find (hash_of i) (rolled_back q)) as [r |] eqn:Er; cbn [present negb].
  { left. split; [done | right]. intros E. rewrite E in Er. done. }
  right. split; [done |]. destruct (batched i) eqn:Eb; cbn; (split; [| split_and!; try done; auto]).
  - rewrite <- app_assoc. cbn. now rewrite <- Permutation_middle.
  - rewrite !app_assoc. rewrite <- Permutation_cons_append. done.
Qed.

Lemma enqueue_inv (s : store) (R : list Z) (items : list info) (i : info) (q : queue) : info_ok i ->
  queue_inv s R items q -> queue_inv s R items (enqueue i q) /\ seen s R items (enqueue i q) (hash_of i) /\
  (forall h, seen s R items q h -> seen s R items (enqueue i q) h) /\
  (length (queued items (enqueue i q)) <= S (length (queued items q)))%nat.
Proof.
  intros Hi [H1 H2 H3 H4 H5 H6 H7]. destruct (enqueue_cases i q items) as [[-> [N | N]] | (N & P & Eh & Ef & Er & Hs)].
  - split; [now split |]. split; [auto |]. split; [done | lia].
  - done.
  - assert (S : forall h, seen s R items q h -> seen s R items (enqueue i q) h).
    { intros h. unfold seen. rewrite P. cbn. rewrite elem_of_cons. tauto. }
    assert (Si : seen s R items (enqueue i q) (hash_of i)) by (left; rewrite P; now left).
    split; [| split; [exact Si | split; [exact S | rewrite P; cbn; lia]]]. split.
    + rewrite P. now constructor.
    + destruct Hs as [-> | [Hb ->]]; [done |]. rewrite <- app_assoc. apply Forall_app in H2 as [? ?].
      apply Forall_app. split; [done |]. now constructor.
    + now rewrite Ef.
    + rewrite P. cbn. constructor; [| done]. intros (j & Ej & Hj)%list_elem_of_fmap. apply N. rewrite Ej. now apply H5.
    + intros j. rewrite P, Eh, elem_of_cons. intros [-> | Hj]; [set_solver |]. apply elem_of_union. right. now apply H5.
    + intros h. rewrite Eh, elem_of_union, elem_of_singleton. intros [-> | Hh]; [exact Si | auto].
    + now rewrite Er.
Qed.

Lemma add_inv (s : store) (R : list Z) (items : list info) (i : info) (q : queue) : info_ok i ->
  queue_inv s R items q -> exists q', add i q = Some q' /\ queue_inv s R items q' /\ seen s R items q' (hash_of i) /\
  (forall h, seen s R items q h -> seen s R items q' h) /\
  (length (queued items q') <= S (length (queued items q)))%nat.
Proof.
  intros Hi Hq. exists (enqueue i q). split; [| now apply enqueue_inv].
  unfold add. destruct Hi as (Hu & _). pose proof (u_work _ _ HU _ Hu) as Hw. unfold W.work_validate_block in Hw.
  now rewrite Hw.
Qed.

(** *** Verifying *)

Lemma take_items_spec (s : store) (l : list info) : forall room,
  let r := take_items room s l in exists dropped,
    r.1 ++ dropped ++ r.2 ≡ₚ l /\
    Forall (fun i => block_exists_type s (type (i_block i)) (hash_of i) = true) dropped /\
    (room <> Some O -> l <> [] -> (length r.2 < length l)%nat).
Proof.
  induction l as [| i l IH]; intros room; cbn.
  { exists []. destruct room as [[] |]; split_and!; try done; constructor. }
  destruct room as [[| n] |].
  - exists []. split_and!; try done; constructor.
  - destruct (IH (Some n)) as (d & P & F & L). cbn in *. destruct (take_items (Some n) s l) as [it rest]. cbn in *.
    assert (Lr : (length rest <= length l)%nat) by (rewrite <- P, !length_app; lia).
    destruct (block_exists_type s _ _) eqn:Ex; cbn.
    + exists (i :: d). cbn. split; [rewrite <- P; symmetry; apply Permutation_middle |]. split; [now constructor | lia].
    + exists d. split; [now rewrite <- P | split; [done | lia]].
  - destruct (IH None) as (d & P & F & L). cbn in *. destruct (take_items None s l) as [it rest]. cbn in *.
    assert (Lr : (length rest <= length l)%nat) by (rewrite <- P, !length_app; lia).
    destruct (block_exists_type s _ _) eqn:Ex; cbn.
    + exists (i :: d). cbn. split; [rewrite <- P; symmetry; apply Permutation_middle |]. split; [now constructor | lia].
    + exists d. split; [now rewrite <- P | split; [done | lia]].
Qed.

Lemma take_state_inv (s : store) (R : list Z) (room : option nat) (snap : store) (q : queue) : inv snap -> extended snap s ->
  queue_inv s R [] q -> let r := take_state_blocks room snap q in
  queue_inv s R r.1 r.2 /\ (forall h, seen s R [] q h -> seen s R r.1 r.2 h) /\
  (length (queued r.1 r.2) <= length (queued [] q))%nat /\ q_blocks r.2 = q_blocks q /\ forced r.2 = forced q /\
  (room <> Some O -> state_blocks q <> [] -> (length (state_blocks r.2) < length (state_blocks q))%nat).
Proof.
  intros Hi He [H1 H2 H3 H4 H5 H6 H7]. unfold take_state_blocks. destruct (take_items_spec snap (state_blocks q) room) as (d & P & F & L).
  destruct (take_items room snap (state_blocks q)) as [it rest]. cbn in *.
  assert (Q : d ++ queued it (put_queues q rest (q_blocks q) (blocks_hashes q)) ≡ₚ queued [] q).
  { unfold queued. cbn. rewrite <- P. rewrite !app_assoc. apply Permutation_app_tail.
    rewrite (Permutation_app_comm d rest). rewrite <- app_assoc, (Permutation_app_comm d it), app_assoc.
    rewrite (Permutation_app_comm rest it). rewrite <- !app_assoc. apply Permutation_app_head, Permutation_app_comm. }
  set (q' := put_queues q rest (q_blocks q) (blocks_hashes q)) in *.
  assert (D : forall h, h ∈ map hash_of d -> stored s h).
  { intros h (i & -> & Hd)%list_elem_of_fmap. rewrite Forall_forall in F. specialize (F i Hd).
    apply (exists_type_get snap (inv_blocks _ Hi)) in F as (x & Hx & _). apply (extended_stored snap); [done | now exists x]. }
  assert (S : forall h, seen s R [] q h -> seen s R it q' h).
  { intros h. apply (seen_mono s s R R [] it q q'); [| reflexivity | done]. rewrite <- Q, map_app, elem_of_app.
    intros [Hh | Hh]; [right; left; now apply D | now left]. }
  split; [| split; [exact S | split; [rewrite <- Q; unfold queued; cbn; rewrite !length_app; lia | split; [done | split; [done | exact L]]]]]. split.
  - rewrite <- Q in H1. now apply Forall_app in H1 as [_ ?].
  - rewrite app_nil_r in H2. rewrite <- P in H2. rewrite !Forall_app in H2. apply Forall_app. cbn. tauto.
  - exact H3.
  - rewrite <- Q, map_app in H4. now apply NoDup_app in H4 as (_ & _ & ?).
  - intros i Hi'. apply H5. rewrite <- Q. now apply elem_of_app; right.
  - intros h Hh. apply S, H6, Hh.
  - exact H7.
Qed.

(** The hashes of the blocks that the verification drops. *)
Fixpoint refused_items (items : list info) (verdicts : list Z) : list Z :=
  match items, verdicts with
  | i :: items', v :: verdicts' =>
      match judge i v with [] => [hash_of i] | _ => [] end ++ refused_items items' verdicts'
  | _, _ => []
  end.

Section Checked.

Context `{VR : Verifier} {SD : Sound VR}.

Lemma type_eqb_true (t u : block_type) : type_eqb t u = true -> t = u.
Proof. unfold type_eqb. rewrite Z.eqb_eq. now destruct t, u. Qed.

(** A verdict of one is about the right key. *)
Lemma judge_ok (i : info) (v : Z) : info_ok i -> batched i = true ->
  (v = 1 -> let '(a, m, s) := check_of i in validate_message a m s = false) ->
  Forall info_ok (judge i v) /\ Forall (fun j => hash_of j = hash_of i) (judge i v) /\ (length (judge i v) <= 1)%nat.
Proof.
  intros (Hu & Hw & Ha & St) Hb Hv. unfold judge, check_of in *.
  assert (K : forall w, status_true (i_block i) w -> info_ok (set_verified i w)) by (intros w Hst; split_and!; done).
  destruct (epoch_linked (i_block i)) eqn:El.
  - cbn. split; [| split; [repeat constructor | lia]]. constructor; [| constructor]. apply K.
    destruct (Z.eqb_spec v 1) as [-> | _]; [| split; done]. split; [done |]. intros _. now apply Hv.
  - destruct (Z.eqb_spec v 1) as [-> | _]; [| split; [constructor | split; [constructor | cbn; lia]]].
    split; [| split; [repeat constructor | cbn; lia]]. constructor; [| constructor]. apply K. split; [| done]. intros _.
    specialize (Hv eq_refl). cbv beta iota zeta in Hv. rewrite (is_zero_word _ Hw) in Hv.
    destruct (Z.eqb_spec (i_account i) 0) as [Ez | Ez]; cbn [negb] in Hv.
    + rewrite u_owner_account; [exact Hv | done |]. unfold batched in Hb. rewrite (is_zero_word _ Hw), Ez in Hb.
      apply andb_true_iff in Hb as [_ Hb]. rewrite orb_false_r in Hb. apply orb_true_iff in Hb as [Hb | Hb]; apply type_eqb_true in Hb.
      * left. now rewrite Hb.
      * now right.
    + destruct Ha as [? | <-]; [done | exact Hv].
Qed.

Lemma judge_all_spec (items : list info) : forall verdicts, length verdicts = length items ->
  Forall (fun r => r = 0 \/ r = 1) verdicts -> Forall info_ok items -> Forall (fun i => batched i = true) items ->
  (forall k i, nth_error items k = Some i -> nth_error verdicts k = Some 1 ->
     let '(a, m, s) := check_of i in validate_message a m s = false) ->
  exists l, judge_all items verdicts = Some l /\ Forall info_ok l /\ map hash_of l `sublist_of` map hash_of items /\
    forall h, h ∈ map hash_of items -> h ∈ map hash_of l \/ h ∈ refused_items items verdicts.
Proof.
  induction items as [| i items IH]; intros [| v verdicts] L B I Bt Hv; try discriminate L.
  - exists []. split_and!; [done | constructor | constructor | cbn; intros h Hh; now left].
  - apply Forall_cons in B as [Bv B]. apply Forall_cons in I as [Ii I]. apply Forall_cons in Bt as [Bi Bt].
    destruct (IH verdicts) as (l & E & Il & Sl & Cl); [now injection L | done | done | done | intros k; exact (Hv (S k)) |].
    destruct (judge_ok i v Ii Bi) as (J1 & J2 & J3); [intros ->; exact (Hv 0%nat i eq_refl eq_refl) |].
    cbn [judge_all refused_items]. replace ((v =? 1) || (v =? 0)) with true by (destruct Bv as [-> | ->]; done).
    rewrite E. cbn [option_map]. eexists. split; [reflexivity |]. split; [apply Forall_app; split; assumption |].
    rewrite map_app. destruct (judge i v) as [| j [| k r]]; [| | cbn in J3; lia].
    + cbn. split; [now apply sublist_cons |]. intros h [-> | Hh]%elem_of_cons; [right; now left |].
      destruct (Cl h Hh); [now left | right; now right].
    + apply Forall_cons in J2 as [Ej _]. cbn. rewrite Ej. split; [now constructor |].
      intros h [-> | Hh]%elem_of_cons; [left; now left |]. destruct (Cl h Hh); [left; now right | now right].
Qed.

Lemma finish_inv (s : store) (R : list Z) (items : list info) (q : queue) : queue_inv s R items q ->
  exists q', finish_state_blocks items q = Some q' /\
    let R' := R ++ refused_items items (verify (map check_of items)) in
    queue_inv s R' [] q' /\ (forall h, seen s R items q h -> seen s R' [] q' h) /\
    (length (queued [] q') <= length (queued items q))%nat /\ state_blocks q' = state_blocks q /\ forced q' = forced q.
Proof.
  intros [H1 H2 H3 H4 H5 H6 H7]. unfold finish_state_blocks. set (vs := verify (map check_of items)).
  apply Forall_app in H2 as [B1 B2]. pose proof H1 as I. unfold queued in I. rewrite !Forall_app in I. destruct I as (I1 & I2 & I3).
  destruct (judge_all_spec items vs) as (l & E & Il & Sl & Cl); [unfold vs; rewrite verify_length; apply length_map | apply verify_binary | done | done | |].
  { intros k i Hk Hv. destruct (check_of i) as [[a m] sg] eqn:Ec. eapply verify_sound; [| exact Hv].
    rewrite <- Ec. now apply map_nth_error. }
  rewrite E. cbn [option_map]. eexists. split; [reflexivity |]. set (q' := put_queues _ _ _ _). set (R' := R ++ _). cbv zeta.
  assert (Sb : map hash_of (queued [] q') ⊆+ map hash_of (queued items q)).
  { unfold queued, q'. cbn. rewrite !map_app. apply submseteq_skips_l. rewrite (Permutation_app_comm (map hash_of (q_blocks q))).
    apply submseteq_skips_r. now apply sublist_submseteq. }
  assert (S : forall h, seen s R items q h -> seen s R' [] q' h).
  { intros h. apply (seen_mono s s R R' items [] q q'); [| reflexivity | set_solver].
    unfold seen, queued, q'. cbn. rewrite !map_app, !elem_of_app. intros [Hh | [Hh | Hh]]; [tauto | | tauto].
    destruct (Cl h Hh); [tauto |]. right. right. unfold R'. set_solver. }
  split; [| split; [exact S | split; [| done]]].
  - split.
    + unfold queued, q'. cbn. rewrite !Forall_app. done.
    + rewrite app_nil_r. exact B1.
    + exact H3.
    + destruct (submseteq_Permutation _ _ Sb) as (m & P). rewrite P in H4. now apply NoDup_app in H4 as (? & _).
    + intros i Hi. assert (Hh : hash_of i ∈ map hash_of (queued items q)).
      { destruct (submseteq_Permutation _ _ Sb) as (m & ->). apply elem_of_app. left. apply list_elem_of_fmap. eauto. }
      apply list_elem_of_fmap in Hh as (j & -> & Hj). now apply H5.
    + intros h Hh. apply S, H6, Hh.
    + exact H7.
  - rewrite <- (length_map hash_of), <- (length_map hash_of (queued items q)). now apply submseteq_length.
Qed.

End Checked.

(** *** Taking a block *)

Lemma pop_inv (s : store) (R : list Z) (c : clock) (q q' : queue) (i : info) (f : bool) : queue_inv s R [] q ->
  pop c q = Some (i, f, q') -> queue_inv s R [] q' /\ info_ok i /\ state_blocks q' = state_blocks q /\
  (forall h, seen s R [] q h -> seen s R [] q' h \/ h = hash_of i) /\
  (length (queued [] q') + length (forced q') < length (queued [] q) + length (forced q))%nat /\
  (length (queued [] q') <= length (queued [] q))%nat.
Proof.
  intros [H1 H2 H3 H4 H5 H6 H7]. unfold pop. destruct (forced q) as [| b l] eqn:Ef.
  - destruct (q_blocks q) as [| j l] eqn:Eb; [done |]. intros [= <- <- <-].
    assert (P : queued [] q ≡ₚ j :: queued [] (put_queues q (state_blocks q) l (blocks_hashes q ∖ {[ hash_of j ]}))).
    { unfold queued. cbn. rewrite Eb. symmetry. apply Permutation_middle. }
    fold (hash_of j). set (q' := put_queues _ _ _ _) in *. rewrite P in H1, H4. apply Forall_cons in H1 as [Hj H1].
    apply NoDup_cons in H4 as [Nj H4]. unfold seen in *.
    assert (S : forall h, seen s R [] q h -> seen s R [] q' h \/ h = hash_of j).
    { intros h. unfold seen. rewrite P. cbn. rewrite elem_of_cons. tauto. }
    split; [| split; [exact Hj | split; [done | split; [exact S | rewrite P; cbn; rewrite Ef; cbn; lia]]]]. split; try done.
    + change (Forall U (forced q)). rewrite Ef. constructor.
    + intros i Hi. cbn. apply elem_of_difference. split; [apply H5; rewrite P; now right |].
      rewrite elem_of_singleton. intros E. apply Nj. rewrite <- E. apply list_elem_of_fmap. eauto.
    + intros h Hh. cbn in Hh. apply elem_of_difference in Hh as [Hh Nh]. rewrite elem_of_singleton in Nh.
      destruct (S h (H6 h Hh)); [done | congruence].
  - intros [= <- <- <-]. rewrite Forall_cons in H3. destruct H3 as [Hb H3]. cbn.
    split; [| split; [split; [exact Hb | split; [unfold word; cbn; lia | split; [now left | split; done]]] | split; [done | split; [intros h Hh; now left | unfold queued; cbn; rewrite ?Ef; cbn; lia]]]].
    split; try done.
Qed.

End Universe.

End BlockInv.
