(* ===== verification/BlockStep.v ===== *)
(** * The block processor: its steps keep the invariant

    The invariant of the whole node of [BlockProcessor], the reactions to the results of
    the ledger ([process_one] with [queue_unchecked], [process_live] and [process_fork]),
    and every step of the thread and of the other threads. *)

From stdpp Require Import base gmap list.
From Stdlib Require Import ZArith Lia.
From S2P Require Import Prelude Blocks Numbers Store Ledger LedgerInv LedgerAppend LedgerProcess LedgerTheorems LedgerOutcome Work Votes Elections ElectionInv ElectionTheorems Caches VoteGenerator Unchecked BlockProcessor BlockInv.
Local Open Scope Z_scope.

Module BlockStep.
Import Ledger.Ledger LedgerInv.LedgerInv LedgerProcess.LedgerProcess LedgerOutcome.LedgerOutcome
  Unchecked.Unchecked BlockProcessor.BlockProcessor BlockInv.BlockInv.

Section Steps.

Context `{LE : Env, WE : W.WorkEnv, IT : E.Iteration, CF : E.Config, VR : Verifier, SD : !Sound VR} (cfg : config).
Context (U : block -> Prop) (owner : Z -> Z) (HU : universe U owner).

Notation info_ok := (info_ok U owner).
Notation ledger_inv := (ledger_inv U owner).
Notation queue_inv := (queue_inv U owner).
Notation fast := (fast_bootstrap cfg).

(** ** The table of waiting blocks *)

(** Every entry is under the hash of its block, and waits for what its key says; [e] is
    a key that is about to be looked up. *)
Definition table_but (e : option Z) (s : store) (t : table) : Prop :=
  ordered t /\ forall k i, (k, i) ∈ t -> info_ok i /\ k.2 = hash_of i /\
    (fast = false -> e <> Some k.1 -> waits s k.1 (i_block i)).

Definition table_inv : store -> table -> Prop := table_but None.

Lemma waits_mono (s s' : store) (d : Z) (b : block) : inv s -> inv s' -> extended s s' -> (stored s' d -> stored s d) ->
  waits s d b -> waits s' d b.
Proof.
  intros Hs Hs' He Hd [[E N] | [E N]]; [left; split; [done |]; intros H; now apply N, Hd | right; split; [done |]].
  exact (extended_source s s' d Hs Hs' Hd He N).
Qed.

(** A new block in the ledger can end the wait of the blocks under its hash only. *)
Lemma table_append (s s' : store) (t : table) (h : Z) : inv s -> inv s' -> extended s s' ->
  (forall k, stored s' k <-> k = h \/ stored s k) -> table_inv s t -> table_but (Some h) s' t.
Proof.
  intros Hs Hs' He Hst [O T]. split; [exact O |]. intros k i Hk. destruct (T k i Hk) as (Hi & Eh & Hw).
  split; [exact Hi |]. split; [exact Eh |]. intros Hf Hn. apply (waits_mono s s' k.1 _ Hs Hs' He); [| now apply Hw].
  intros H. apply Hst in H as [E | H]; [destruct Hn; now rewrite E | exact H].
Qed.

Lemma table_weaken (e : option Z) (s : store) (t : table) : table_inv s t -> table_but e s t.
Proof. intros [O T]. split; [exact O |]. intros k i Hk. destruct (T k i Hk) as (Hi & Eh & Hw). split; [exact Hi |]. split; [exact Eh |]. intros Hf _. now apply Hw. Qed.

Lemma table_put (s : store) (t : table) (d : Z) (i : info) : info_ok i -> waits s d (i_block i) -> table_inv s t ->
  table_inv s (unchecked_put (d, hash_of i) i t).
Proof.
  intros Hi Hw [O T]. split; [now apply unchecked_put_ordered |]. intros k j [E | [Hk _]]%unchecked_put_elem; [| now apply T | done].
  injection E as -> ->. split; [exact Hi |]. split; [done |]. intros _ _. exact Hw.
Qed.

Lemma table_nonneg (e : option Z) (s : store) (t : table) : table_but e s t -> Forall (fun x => 0 <= x.1.2) t.
Proof.
  intros [_ T]. apply Forall_forall. intros [k i] Hk. destruct (T k i Hk) as ((Hu & _) & E & _). cbn. rewrite E.
  pose proof (u_hash _ _ HU _ Hu). unfold hash_of. lia.
Qed.

(** *** [queue_unchecked] *)

Lemma requeue_spec (s : store) (R : list Z) (items : list info) (h : Z) (l : list info) : Forall info_ok l -> forall t q,
  ordered t -> queue_inv s R items q -> exists t' q', requeue cfg h l t q = Some (t', q') /\
    ordered t' /\ queue_inv s R items q' /\ Forall (fun i => seen s R items q' (hash_of i)) l /\
    (forall k, seen s R items q k -> seen s R items q' k) /\
    (forall x, x ∈ t' <-> x ∈ t /\ (fast = true \/ x.1 ∉ map (fun i => (h, hash_of i)) l)) /\
    (fast = false -> NoDup (map hash_of l) -> (forall i, i ∈ l -> exists j, ((h, hash_of i), j) ∈ t) ->
     length t' + length (queued items q') <= length t + length (queued items q))%nat.
Proof.
  induction l as [| i l IH]; intros F t q O Q; cbn [requeue].
  - exists t, q. split; [done |]. split; [exact O |]. split; [exact Q |]. split; [constructor |]. split; [done |].
    split; [| lia]. intros x. split; [| tauto]. intros Hx. split; [done |]. right. apply not_elem_of_nil.
  - apply Forall_cons in F as [Fi F].
    destruct (add_inv U owner HU s R items i q Fi Q) as (q1 & -> & Q1 & S1 & M1 & L1).
    set (t1 := if negb fast then unchecked_del (h, hash (i_block i)) t else t).
    assert (O1 : ordered t1) by (unfold t1; destruct fast; [exact O | now apply del_ordered]).
    assert (E1 : forall x, x ∈ t1 <-> x ∈ t /\ (fast = true \/ x.1 <> (h, hash_of i))).
    { intros x. unfold t1. destruct fast; cbn [negb]; [tauto |]. rewrite del_elem. fold (hash_of i). naive_solver. }
    destruct (IH F t1 q1 O1 Q1) as (t2 & q2 & -> & O2 & Q2 & S2 & M2 & E2 & L2). exists t2, q2. split; [done |].
    split; [exact O2 |]. split; [exact Q2 |]. split; [constructor; [now apply M2 | exact S2] |]. split; [auto |]. split.
    + intros x. rewrite E2, E1. cbn [map]. rewrite not_elem_of_cons. tauto.
    + intros Hf N Hin. cbn in N. apply NoDup_cons in N as [Ni N].
      destruct (Hin i ltac:(now left)) as [j Hj].
      assert (Ht1 : S (length t1) = length t) by (unfold t1; rewrite Hf; exact (del_length _ _ _ O Hj)).
      specialize (L2 Hf N). lapply L2; [lia |]. intros i' Hi'. destruct (Hin i' ltac:(now right)) as [j' Hj'].
      exists j'. apply E1. split; [exact Hj' |]. right. cbn. intros [= E]. apply Ni. rewrite <- E. apply list_elem_of_fmap. eauto.
Qed.

Lemma enqueue_forced (i : info) (q : queue) : forced (enqueue i q) = forced q /\ q_stopped (enqueue i q) = q_stopped q.
Proof. unfold enqueue. destruct (_ && _); [| done]. now destruct (batched i). Qed.

Lemma requeue_forced (h : Z) (l : list info) : forall t q t' q', requeue cfg h l t q = Some (t', q') ->
  forced q' = forced q /\ q_stopped q' = q_stopped q.
Proof.
  induction l as [| i l IH]; intros t q t' q'; cbn [requeue]; [now intros [= _ <-] |].
  unfold add. destruct (negb _); [| done]. intros E. destruct (IH _ _ _ _ E) as [-> ->]. apply enqueue_forced.
Qed.

(** After a lookup nothing waits for the hash. *)
Lemma requeue_all (s : store) (R : list Z) (items : list info) (h : Z) (t : table) (q : queue) :
  table_but (Some h) s t -> queue_inv s R items q -> exists t' q',
    requeue cfg h (unchecked_get h t) t q = Some (t', q') /\ table_inv s t' /\ queue_inv s R items q' /\
    (forall k, seen s R items q k \/ (exists d i, ((d, k), i) ∈ t) ->
       seen s R items q' k \/ (exists d i, ((d, k), i) ∈ t')) /\
    (fast = false -> forall k i, (k, i) ∈ t' -> k.1 <> h) /\
    (fast = false -> length t' + length (queued items q') <= length t + length (queued items q))%nat.
Proof.
  intros [O T] Q. pose proof (table_nonneg _ _ _ (conj O T)) as Nn.
  assert (F : Forall info_ok (unchecked_get h t)).
  { apply Forall_forall. intros i (k & Hk)%get_elem; [| done | done]. exact (proj1 (T _ _ Hk)). }
  destruct (requeue_spec s R items h _ F t q O Q) as (t' & q' & E & O' & Q' & S & M & El & L). exists t', q'. split; [exact E |].
  assert (G : fast = false -> forall k i, (k, i) ∈ t' -> k.1 <> h).
  { intros Hf k i Hk Ek. apply El in Hk as [Hk [? | N]]; [congruence |]. apply N. apply list_elem_of_fmap. exists i.
    destruct (T k i Hk) as (_ & E2 & _). split; [destruct k; cbn in *; congruence |].
    apply get_elem; [done | done |]. exists k.2. destruct k as [a b]; cbn in *; subst. exact Hk. }
  split; [| split; [exact Q' | split; [| split; [exact G |]]]].
  - split; [exact O' |]. intros k i Hk. pose proof Hk as Hk'. apply El in Hk' as [Hk' _]. destruct (T k i Hk') as (Hi & E2 & Hw).
    split; [exact Hi |]. split; [exact E2 |]. intros Hf _. apply Hw; [exact Hf |]. intros [= E3]. now apply (G Hf k i Hk).
  - intros k [Hk | (d & i & Hk)]; [left; auto |]. destruct (T _ _ Hk) as (_ & E2 & _). cbn in E2. subst k.
    destruct (decide ((d, hash_of i) ∈ map (fun i => (h, hash_of i)) (unchecked_get h t))) as [D | D].
    + left. apply list_elem_of_fmap in D as (j & [= _ ->] & Hj). rewrite Forall_forall in S. exact (S j Hj).
    + right. exists d, i. apply El. split; [exact Hk | now right].
  - intros Hf. apply L; [exact Hf | |].
    + destruct (get_entries h t O) as (p & Sp & -> & Np). rewrite map_map.
      replace (map (fun x => hash_of x.2) p) with (map (fun x : key * info => x.1.2) p); [exact Np |].
      apply map_ext_in. intros [k i] Hk%list_elem_of_In. destruct (T k i) as (_ & E2 & _); [| exact E2].
      eapply elem_of_sublist; [exact Hk | exact Sp].
    + intros i Hi. apply get_elem in Hi as (k & Hk); [| done | done]. destruct (T _ _ Hk) as (_ & E2 & _). cbn in E2. subst k. eauto.
Qed.

(** ** The node *)

Definition items_of (p : phase) : list info :=
  match p with verifying_read _ items | verifying_write items => items | _ => [] end.

Definition phase_ok (s : store) (p : phase) : Prop :=
  match p with
  | reading snap | verifying_read snap _ => inv snap /\ extended snap s
  | working i _ => info_ok i
  | _ => True
  end.

Record node_inv (R : list Z) (n : node) : Prop := {
  ni_ledger : ledger_inv (n_store n);
  ni_table : table_inv (n_store n) (n_unchecked n);
  ni_queue : queue_inv (n_store n) R (items_of (n_phase n)) (n_queue n);
  ni_phase : phase_ok (n_store n) (n_phase n);
  ni_system : ET.system_inv U (n_active n);
  ni_gaps : G.gap_ok (fun _ _ => True) (n_gaps n);
  ni_votes : VC.cache_ok (n_votes n) }.

(** Where a hash that was given to the processor can be. *)
Definition waiting_for (n : node) (h d : Z) : Prop := exists i, ((d, h), i) ∈ n_unchecked n.

Definition settled (R : list Z) (n : node) (h : Z) : Prop :=
  seen (n_store n) R (items_of (n_phase n)) (n_queue n) h \/ exists d, waiting_for n h d.

(** The parts of a node that the invariant is about. *)
Definition same_parts (n n' : node) : Prop :=
  n_store n' = n_store n /\ n_unchecked n' = n_unchecked n /\ n_queue n' = n_queue n /\ n_phase n' = n_phase n /\
  n_gaps n' = n_gaps n /\ n_votes n' = n_votes n.

Lemma parts_inv (R : list Z) (n n' : node) : same_parts n n' -> ET.system_inv U (n_active n') -> node_inv R n -> node_inv R n'.
Proof.
  intros (E1 & E2 & E3 & E4 & E5 & E6) Hs [H1 H2 H3 H4 H5 H6 H7]. split; rewrite ?E1, ?E2, ?E3, ?E4, ?E5, ?E6; assumption.
Qed.

Section WithEnv.

Context (VE : E.VoteEnv) (HE : ET.env_ok U VE).

(** An event of the elections that cannot be refused. *)
Lemma event_total (s : E.system) (x : E.event) (o : option E.active) : ET.system_inv U s -> ET.event_fair U s x ->
  E.event_step VE s x = E.on_active s o -> exists a, o = Some a /\ ET.system_inv U (E.mk_system a (E.sys_inactive s)).
Proof.
  intros Hs Hf E. destruct (ET.event_step_inv U (u_root U owner HU) (u_word U owner HU) VE s x HE Hf Hs) as [N K].
  rewrite E in *. destruct o as [a |]; [| done]. exists a. split; [done |]. now apply K.
Qed.

Lemma start_total (s : E.system) (b : block) : ET.system_inv U s -> U b ->
  exists r a, E.active_add (E.sys_active s) b = Some (r, a) /\ ET.system_inv U (E.mk_system a (E.sys_inactive s)).
Proof.
  intros Hs Hb. destruct (event_total s (E.ev_start b) _ Hs (conj Hb (u_work _ _ HU b Hb)) eq_refl) as (a & E & Ha).
  destruct (E.active_add _ b) as [[r a'] |]; [| done]. injection E as <-. eauto.
Qed.

Lemma update_total (s : E.system) (b : block) : ET.system_inv U s -> U b ->
  exists a, E.update_difficulty (E.sys_active s) b = Some a /\ ET.system_inv U (E.mk_system a (E.sys_inactive s)).
Proof. intros Hs Hb. exact (event_total s (E.ev_update b) _ Hs (conj Hb (u_work _ _ HU b Hb)) eq_refl). Qed.

Lemma process_live_inv (c : clock) (h : Z) (b : block) (n : node) : U b -> ET.system_inv U (n_active n) ->
  exists n', process_live cfg c h b n = Some n' /\ same_parts n n' /\ ET.system_inv U (n_active n').
Proof.
  intros Hb Hs. unfold process_live. destruct (start_total _ b Hs Hb) as (r & a & -> & Ha).
  eexists. split; [reflexivity |]. destruct (enable_voting cfg); split; try exact Ha; repeat split.
Qed.

(** The block in the place of a fork is found. *)
Lemma forked_total (s : store) (b : block) : ledger_inv s -> U b -> fork_ok s b -> exists x,
  on_store s (forked_block b) = Some x /\ U x.
Proof.
  intros Hs Hb [He Hf]. pose proof (li_inv _ _ s Hs) as Hi.
  assert (K : forall h y, block_get_full s h = Some y -> U y.1) by exact (li_known _ _ s Hs).
  unfold on_store, forked_block. unfold mbind, M_bind, reads at 1. cbn [db]. rewrite He. cbn [negb assert].
  assert (Hr : block_exists s (root b) || account_exists s (root b) = true /\
    (is_Some (account_get s (root b)) \/ exists y, block_get_full s (block_successor s (root b)) = Some y)).
  { destruct Hf as [Hf | [[i Ei] | (x & y & Hx & Hy)]]; [now apply (not_foreign _ _ HU s b Hs Hb) in Hf | |].
    - split; [| eauto]. apply orb_true_iff. right. unfold account_get, account_exists in *.
      destruct (accounts s !! (epoch_1, root b)); [apply orb_true_r |]. destruct (accounts s !! (epoch_0, root b)); [done | done].
    - split; [apply orb_true_iff; left; apply (exists_get s (inv_blocks _ Hi)); eauto |]. right.
      exists y. rewrite block_successor_get, Hx. exact Hy. }
  destruct Hr as [Hk Hr]. cbn. rewrite Hk. cbn. rewrite block_get_get.
  destruct (block_get_full s (block_successor s (root b))) as [y |] eqn:Ey; cbn; [exists y.1; split; [done | now apply (K _ _ Ey)] |].
  destruct Hr as [[i Ei] | [y Ey']]; [| congruence]. unfold needs, mbind, M_bind, reads, must. cbn. rewrite Ei. cbn.
  apply (account_get_some s Hi) in Ei. destruct (ao_open _ _ _ _ (inv_account _ Hi _ _ _ Ei)) as (z & Hz & _).
  rewrite block_get_get, Hz. cbn. exists z.1. split; [done | now apply (K _ _ Hz)].
Qed.

Lemma process_fork_inv (b : block) (n : node) : U b -> ledger_inv (n_store n) -> fork_ok (n_store n) b ->
  ET.system_inv U (n_active n) ->
  exists n', process_fork b n = Some n' /\ same_parts n n' /\ ET.system_inv U (n_active n').
Proof.
  intros Hb Hl Hf Hs. unfold process_fork. destruct (_ && _); [| exists n; split; [done | split; [repeat split | exact Hs]]].
  destruct (forked_total _ b Hl Hb Hf) as (x & -> & Hx). destruct (start_total _ x Hs Hx) as (r & a & -> & Ha).
  eexists. split; [reflexivity |]. destruct r; split; try exact Ha; repeat split.
Qed.

(** The source of a block with a gap. *)
Lemma source_total (s : store) (b : block) : inv s -> gap_source_ok s b -> on_store s (block_source b) = Some (source_of b).
Proof.
  intros Hs [_ Hp]. unfold on_store, block_source. unfold mbind, M_bind, reads. cbn [db].
  assert (Ha : (previous b =? 0) || block_exists s (previous b) = true).
  { destruct Hp as [-> | (x & Hx & _)]; [done |]. apply orb_true_iff. right. apply (exists_get s (inv_blocks _ Hs)). eauto. }
  rewrite Ha. cbn [assert mret M_ret]. destruct b as [f sg w | f sg w | f sg w | f sg w | f sg w]; try done.
  unfold is_send. cbn in Hp. destruct (Z.eqb_spec (state_previous f) 0) as [Ez | Ez]; [done |]. cbn [negb].
  destruct Hp as [? | (x & Hx & Hb)]; [done |]. unfold ledger_balance. rewrite (proj2 (Z.eqb_neq _ _) Ez).
  unfold needs, mbind, M_bind, reads, must. cbn [db]. rewrite block_balance_get, Hx. cbn [fmap option_fmap option_map mret M_ret].
  specialize (Hb f sg w eq_refl). rewrite (proj2 (Z.ltb_ge _ _)) by lia. done.
Qed.

(** [queue_unchecked], for a node whose table may have entries that no longer wait. *)
Lemma queue_unchecked_inv (R : list Z) (h : Z) (n : node) :
  ledger_inv (n_store n) -> table_but (Some h) (n_store n) (n_unchecked n) ->
  queue_inv (n_store n) R (items_of (n_phase n)) (n_queue n) -> phase_ok (n_store n) (n_phase n) ->
  ET.system_inv U (n_active n) -> G.gap_ok (fun _ _ => True) (n_gaps n) -> VC.cache_ok (n_votes n) ->
  exists n', queue_unchecked cfg h n = Some n' /\ node_inv R n' /\ n_phase n' = n_phase n /\ n_store n' = n_store n /\
    (forced (n_queue n') = forced (n_queue n) /\ q_stopped (n_queue n') = q_stopped (n_queue n)) /\ n_active n' = n_active n /\
    (forall k, settled R n k -> settled R n' k) /\
    (fast = false -> length (n_unchecked n') + length (queued (items_of (n_phase n')) (n_queue n')) <=
       length (n_unchecked n) + length (queued (items_of (n_phase n)) (n_queue n)))%nat.
Proof.
  intros Hl Ht Hq Hp Hs Hg Hv. unfold queue_unchecked.
  destruct (requeue_all (n_store n) R (items_of (n_phase n)) h (n_unchecked n) (n_queue n) Ht Hq)
    as (t' & q' & Er & T' & Q' & S' & _ & L'). rewrite Er. eexists. split; [reflexivity |].
  split; [| split; [done | split; [done | split; [| split; [done | split; [| exact L']]]]]].
  - split; cbn; try assumption. apply (G.gap_step_ok _ _ (G.ev_erase h)); [done | exact Hg].
  - cbn. now apply (requeue_forced _ _ _ _ _ _ Er).
  - intros k [Hk | (d & i & Hk)]; [destruct (S' k (or_introl Hk)) as [? | (d & i & ?)] |
      destruct (S' k (or_intror (ex_intro _ d (ex_intro _ i Hk)))) as [? | (d' & i' & ?)]];
      first [now left | right; eexists _, _; cbn; eassumption].
Qed.

Definition load (n : node) : nat := (length (n_unchecked n) + length (queued (items_of (n_phase n)) (n_queue n)))%nat.

(** What one call of [process_one] does to the node; [R'] are the refusals after it. *)
Record handled (R : list Z) (i : info) (r : process_return) (n n' : node) : Prop := {
  ha_inv : node_inv (R ++ if final (code r) then [hash_of i] else []) n';
  ha_phase : n_phase n' = n_phase n;
  ha_forced : forced (n_queue n') = forced (n_queue n);
  ha_stopped : q_stopped (n_queue n') = q_stopped (n_queue n);
  ha_extended : extended (n_store n) (n_store n');
  ha_settled (h : Z) : settled R n h \/ h = hash_of i ->
    settled (R ++ if final (code r) then [hash_of i] else []) n' h;
  ha_load : fast = false -> (load n' <= load n)%nat \/
    (load n' <= S (load n))%nat /\ n_queue n' = n_queue n }.

Lemma settled_parts (R R' : list Z) (n n' : node) (h : Z) : same_parts n n' -> R ⊆ R' -> settled R n h -> settled R' n' h.
Proof.
  intros (E1 & E2 & E3 & E4 & _) HR. unfold settled, seen, waiting_for. rewrite E1, E2, E3, E4.
  intros [[H | [H | H]] | H]; [tauto | tauto | left; right; right; set_solver | tauto].
Qed.

(** Nothing changed but the elections. *)
Lemma handled_same (R : list Z) (i : info) (r : process_return) (n n' : node) : node_inv R n -> same_parts n n' ->
  ET.system_inv U (n_active n') -> final (code r) = true \/ settled R n (hash_of i) -> handled R i r n n'.
Proof.
  intros Hn Hp Hs Hf. pose proof Hp as (E1 & E2 & E3 & E4 & E5 & E6). set (R' := R ++ if final (code r) then [hash_of i] else []).
  assert (HR : R ⊆ R') by (unfold R'; set_solver).
  split; try congruence; fold R'.
  - pose proof (parts_inv R n n' Hp Hs Hn) as [H1 H2 H3 H4 H5 H6 H7]. split; try assumption.
    now apply (queue_inv_mono U owner HU (n_store n') (n_store n') R R').
  - rewrite E1. reflexivity.
  - intros h [Hh | ->]; [now apply (settled_parts R R' n n') |]. destruct Hf as [Hf | Hf].
    + left. right. right. unfold R'. rewrite Hf. set_solver.
    + now apply (settled_parts R R' n n').
  - intros _. left. unfold load. rewrite E2, E3, E4. lia.
Qed.

Lemma keep_handled (R : list Z) (c : clock) (i : info) (r : process_return) (d : Z) (n : node) : node_inv R n ->
  info_ok i -> status_true owner (i_block i) (verified r) -> waits (n_store n) d (i_block i) -> final (code r) = false ->
  handled R i r n (keep_unchecked c r d i n).
Proof.
  intros [H1 H2 H3 H4 H5 H6 H7] Hi Hst Hw Hf. unfold keep_unchecked.
  set (j := if i_modified (set_verified i (verified r)) =? 0 then _ else _).
  assert (Hj : info_ok j /\ hash_of j = hash_of i /\ i_block j = i_block i).
  { destruct Hi as (Hu & Ha & Ho & _). unfold j. destruct (_ =? _); (split; [split; [exact Hu | split; [exact Ha | split; [exact Ho | exact Hst]]] | done]). }
  destruct Hj as (Hj & Eh & Eb). clearbody j. fold (hash_of i). rewrite <- Eh.
  assert (T : table_inv (n_store n) (unchecked_put (d, hash_of j) j (n_unchecked n))) by (apply table_put; [exact Hj | now rewrite Eb | exact H2]).
  split; cbn; try done.
  - rewrite Hf, app_nil_r. split; cbn; try assumption. now apply G.gap_add_ok.
  - rewrite Hf, app_nil_r. intros h [[Hh | (e & x & Hx)] | ->].
    + now left.
    + right. destruct H2 as [O _]. destruct (decide ((e, h) = (d, hash_of j))) as [[= -> ->] | N].
      * exists d, j. cbn. apply unchecked_put_elem; [exact O | now left].
      * exists e, x. cbn. apply unchecked_put_elem; [exact O | right; split; [exact Hx | exact N]].
    + right. exists d, j. cbn. apply unchecked_put_elem; [apply H2 | left; now rewrite Eh].
  - intros _. right. split; [| done]. unfold load. cbn. pose proof (unchecked_put_length (d, hash_of j) j (n_unchecked n)). lia.
Qed.

Lemma is_live_parts (c : clock) (i : info) (n : node) : same_parts n (is_live c i n).2 /\ n_active (is_live c i n).2 = n_active n.
Proof. unfold is_live. destruct (_ <? _); [| done]. destruct (A.arrival_recent _ _ _). done. Qed.

Lemma parts_trans (n1 n2 n3 : node) : same_parts n1 n2 -> same_parts n2 n3 -> same_parts n1 n3.
Proof. intros (A1 & A2 & A3 & A4 & A5 & A6) (B1 & B2 & B3 & B4 & B5 & B6). repeat split; congruence. Qed.

Lemma with_store_same (n : node) : with_store n (n_store n) = n.
Proof. now destruct n. Qed.

(** The reaction to an accepted block, and to one that is known. *)
Lemma requeue_handled (R : list Z) (i : info) (r : process_return) (n n1 : node) : node_inv R n -> ledger_inv (n_store n1) ->
  extended (n_store n) (n_store n1) -> stored (n_store n1) (hash_of i) ->
  table_but (Some (hash_of i)) (n_store n1) (n_unchecked n1) ->
  same_parts (with_store n (n_store n1)) n1 -> ET.system_inv U (n_active n1) -> final (code r) = false ->
  exists n', queue_unchecked cfg (hash_of i) n1 = Some n' /\ handled R i r n n' /\ n_active n' = n_active n1 /\
    n_store n' = n_store n1.
Proof.
  intros [H1 H2 H3 H4 H5 H6 H7] Hl He Hst Ht Hp Hs Hf. pose proof Hp as (_ & E2 & E3 & E4 & E5 & E6). cbn in *.
  destruct (queue_unchecked_inv R (hash_of i) n1) as (n' & E & Hi & P1 & P2 & [P3 P5] & P4 & S & L); try assumption.
  - rewrite E3, E4. exact (queue_inv_mono U owner HU (n_store n) (n_store n1) R R _ _ He ltac:(done) H3).
  - rewrite E4. destruct (n_phase n); cbn in *; try done; (split; [apply H4 | etrans; [apply H4 | exact He]]).
  - now rewrite E5.
  - now rewrite E6.
  - exists n'. split; [exact E |]. split; [| split; [exact P4 | exact P2]].
    split; rewrite ?Hf, ?app_nil_r; try congruence.
    + now rewrite P2.
    + intros h Hh. apply S. unfold settled, seen, waiting_for. rewrite E2, E3, E4.
      destruct Hh as [[[Hh | [Hh | Hh]] | Hh] | ->]; [tauto | | tauto | tauto | tauto].
      left. right. left. exact (extended_stored _ _ _ He Hh).
    + intros Hfa. left. specialize (L Hfa). unfold load. rewrite E2, E3, E4 in L. exact L.
Qed.

Lemma process_one_inv (R : list Z) (c : clock) (i : info) (n : node) : node_inv R n -> info_ok i ->
  exists r n', process_one cfg c i n = Some (r, n') /\ handled R i r n n'.
Proof.
  intros Hn Hi. pose proof Hn as [H1 H2 H3 H4 H5 H6 H7]. pose proof Hi as (Hu & Hw & Ho & _).
  destruct (process_step U owner HU (n_store n) i (seconds c) H1 Hi) as (r & s' & E & Hl & He & Hst & Hc).
  unfold process_one. rewrite E. exists r. fold (hash_of i) in *.
  destruct (code r) eqn:Ec; try solve [subst s'; rewrite with_store_same; exists n; split; [done |];
    apply handled_same; [done | repeat split | done | left; now rewrite Ec]].
  - (* progress *)
    destruct Hc as (Ea & Hf & Hsto). rewrite (is_zero_word _ Hw).
    replace ((i_account i =? 0) || (i_account i =? r_account r)) with true
      by (symmetry; apply orb_true_iff; rewrite !Z.eqb_eq, Ea; unfold hash_of in *; destruct Ho; auto).
    destruct (is_live c i (with_store n s')) as [live n1] eqn:Elive.
    destruct (is_live_parts c i (with_store n s')) as [P1 A1]. rewrite Elive in P1, A1. cbn [snd] in P1, A1.
    assert (L : exists n2, (if live then process_live cfg c (hash_of i) (i_block i) n1 else Some n1) = Some n2 /\
      same_parts n1 n2 /\ ET.system_inv U (n_active n2)).
    { destruct live; [| exists n1; split; [done | split; [repeat split | now rewrite A1]]].
      apply process_live_inv; [exact Hu | now rewrite A1]. }
    destruct L as (n2 & -> & P2 & S2). pose proof (parts_trans _ _ _ P1 P2) as P.
    assert (Es : n_store n2 = s') by (destruct P as [Es _]; exact Es).
    destruct (requeue_handled R i r n n2) as (n' & -> & Hh & _); try done; rewrite ?Es; try done.
    + apply Hsto. now left.
    + destruct P as (_ & -> & _). apply (table_append (n_store n)); try done; [apply H1 | apply Hl].
    + now rewrite Ec.
    + eauto.
  - (* old *)
    destruct Hc as [-> Hsto]. rewrite with_store_same. destruct (negb fast) eqn:Ef.
    + destruct (requeue_handled R i r n n) as (n1 & -> & Hh & EA & _); try done; [now apply table_weaken | now rewrite Ec |].
      destruct Hh as [G1 G2 G3 G7 G4 G5 G6].
      destruct (update_total (n_active n1) (i_block i)) as (a & -> & Ha); [apply G1 | exact Hu |].
      eexists. split; [reflexivity |]. split; try done.
      eapply parts_inv; [| exact Ha | exact G1]. repeat split.
    + destruct (update_total (n_active n) (i_block i)) as (a & -> & Ha); [exact H5 | exact Hu |].
      eexists. split; [reflexivity |]. apply handled_same; [done | repeat split | exact Ha |]. right. left. right. now left.
  - (* fork *)
    destruct Hc as [-> Hfk]. rewrite with_store_same. destruct (_ <? _).
    + destruct (process_fork_inv (i_block i) n Hu H1 Hfk H5) as (n1 & -> & P1 & S1). eexists. split; [reflexivity |].
      apply handled_same; [done | eapply parts_trans; [exact P1 | repeat split] | exact S1 | left; now rewrite Ec].
    + exists n. split; [done |]. apply handled_same; [done | repeat split | done | left; now rewrite Ec].
  - (* gap_previous *)
    destruct Hc as [-> Hp]. rewrite with_store_same. eexists. split; [reflexivity |].
    apply keep_handled; try done; [left; done | now rewrite Ec].
  - (* gap_source *)
    destruct Hc as [-> Hg]. rewrite with_store_same. rewrite (source_total _ _ (li_inv _ _ _ H1) Hg). eexists.
    split; [reflexivity |]. apply keep_handled; try done; [right; split; [done | apply Hg] | now rewrite Ec].
Qed.

(** A forced block that replaces nothing. *)
Definition keeps_place (n : node) (i : info) : Prop :=
  forall x, on_store (n_store n) (successor (previous (i_block i)) (root (i_block i))) = Some (Some x) -> hash x = hash_of i.

Lemma replace_none (c : clock) (i : info) (n : node) : inv (n_store n) -> keeps_place n i ->
  replace_loser cfg c (i_block i) n = Some n.
Proof.
  intros Hi Hk. unfold keeps_place, replace_loser, on_store in *.
  destruct (LT.successor_total (mk_lstate (n_store n) [] (initial_result sv_unknown) []) (previous (i_block i)) (root (i_block i)) Hi)
    as (o & E & _). rewrite E in *. destruct o as [x |]; [| done]. rewrite (Hk x eq_refl). fold (hash_of i). now rewrite Z.eqb_refl.
Qed.

End WithEnv.

(** ** Runs *)

(** What the other parts of the node promise: blocks of the universe, with a true
    account; and no block of the ledger is replaced. *)
Definition event_fair (VE : E.VoteEnv) (n : node) (e : event) : Prop :=
  ET.env_ok U VE /\
  match e, n_phase n with
  | ev_add i, _ | ev_one i, _ => info_ok i
  | ev_active b, _ | ev_force b, _ => U b
  | ev_process, working i true => keeps_place n i
  | ev_election x, _ => ET.event_fair U (n_active n) x
  | _, _ => True
  end.

(** The hashes of the blocks a step refuses for good, and of the blocks it is given. *)
Definition refusals (VE : E.VoteEnv) (c : clock) (n : node) (e : event) : list Z :=
  match e, n_phase n with
  | ev_one i, _ | ev_process, working i _ =>
      match process_one cfg c i n with
      | Some (r, _) => if final (code r) then [hash_of i] else []
      | None => []
      end
  | ev_checked, (verifying_read _ items | verifying_write items) => refused_items items (verify (map check_of items))
  | _, _ => []
  end.

Definition given (e : event) : list Z :=
  match e with ev_add i | ev_one i => [hash_of i] | ev_active b | ev_force b => [hash b] | _ => [] end.

Definition in_hand (n : node) (h : Z) : Prop := exists i f, n_phase n = working i f /\ hash_of i = h.

Definition accounted (R : list Z) (n : node) (h : Z) : Prop :=
  settled R n h \/ h ∈ map hash (forced (n_queue n)) \/ in_hand n h.

(** A step that keeps the invariant and loses no hash. *)
Definition step_ok (R R' : list Z) (e : event) (n : node) (o : outcome) : Prop :=
  match o with
  | fine n' => node_inv R' n' /\ extended (n_store n) (n_store n') /\
      forall h, accounted R n h \/ h ∈ given e -> accounted R' n' h
  | assertion => False
  | impossible => True
  end.

(** Only the queue and the phase change. *)
Lemma queue_step (R R' : list Z) (e : event) (n n' : node) :
  node_inv R n -> n_store n' = n_store n -> n_unchecked n' = n_unchecked n -> n_active n' = n_active n ->
  n_gaps n' = n_gaps n -> n_votes n' = n_votes n -> phase_ok (n_store n) (n_phase n') ->
  queue_inv (n_store n) R' (items_of (n_phase n')) (n_queue n') ->
  (forall h, seen (n_store n) R (items_of (n_phase n)) (n_queue n) h \/ h ∈ map hash (forced (n_queue n)) \/ in_hand n h \/
     h ∈ given e -> seen (n_store n) R' (items_of (n_phase n')) (n_queue n') h \/ h ∈ map hash (forced (n_queue n')) \/ in_hand n' h) ->
  step_ok R R' e n (fine n').
Proof.
  intros [H1 H2 H3 H4 H5 H6 H7] E1 E2 E3 E4 E5 Hp Hq Hs. split; [split; rewrite ?E1, ?E2, ?E3, ?E4, ?E5; assumption |].
  split; [rewrite E1; reflexivity |]. intros h Hh. unfold accounted, settled, waiting_for in *. rewrite E1, E2.
  specialize (Hs h). tauto.
Qed.

Lemma queue_add_step (R : list Z) (e : event) (n n1 : node) (i : info) : node_inv R n -> same_parts n n1 ->
  n_active n1 = n_active n -> info_ok i -> given e = [hash_of i] ->
  step_ok R R e n (on_queue n1 (add i (n_queue n))).
Proof.
  intros Hn (E1 & E2 & E3 & E4 & E5 & E6) EA Hi Eg. pose proof Hn as [H1 H2 H3 H4 H5 H6 H7].
  destruct (add_inv U owner HU (n_store n) R (items_of (n_phase n)) i (n_queue n) Hi H3) as (q' & Eq & Q' & S' & M' & _).
  rewrite Eq. apply queue_step; cbn; try congruence; rewrite ?E4; try assumption.
  intros h. rewrite Eg, list_elem_of_singleton. unfold in_hand. cbn. rewrite E4.
  assert (Ef : forced q' = forced (n_queue n)) by (unfold add in Eq; destruct (negb _); [injection Eq as <-; apply (proj1 (enqueue_forced _ _)) | done]).
  rewrite Ef. intros [Hh | [Hh | [Hh | ->]]]; auto.
Qed.

Lemma handled_step (R : list Z) (c : clock) (i : info) (r : process_return) (e : event) (n n' : node) (p : phase) :
  node_inv R n -> handled R i r n n' -> items_of p = items_of (n_phase n) -> (p = n_phase n \/ p = worked) ->
  (forall h, in_hand n h -> h = hash_of i \/ p = n_phase n) -> (forall h, h ∈ given e -> h = hash_of i) ->
  step_ok R (R ++ if final (code r) then [hash_of i] else []) e n (fine (with_phase n' p)).
Proof.
  intros Hn [Hi Hp Hf _ He Hs _] Ep Cp Hh Hg. split; [| split; [exact He |]].
  - destruct Hi as [H1 H2 H3 H4 H5 H6 H7]. split; cbn; try assumption.
    + rewrite Ep, <- Hp. exact H3.
    + destruct Cp as [-> | ->]; [rewrite <- Hp; exact H4 | exact I].
  - intros h Hc.
    assert (K : settled R n h \/ h = hash_of i -> accounted (R ++ if final (code r) then [hash_of i] else []) (with_phase n' p) h).
    { intros Hc'. left. destruct (Hs h Hc') as [Hx | Hx]; [left | right; exact Hx]. cbn. rewrite Ep, <- Hp. exact Hx. }
    destruct Hc as [[Hc | [Hc | Hc]] | Hc]; [apply K; now left | right; left; cbn; now rewrite Hf | | apply K; right; now apply Hg].
    destruct (Hh h Hc) as [Eh | Eh]; [apply K; now right |]. right. right. destruct Hc as (j & f & E1 & E2). exists j, f.
    cbn. split; [congruence | exact E2].
Qed.

Lemma force_fold (l : list block) : forall q, let q' := fold_left (fun q b => force b q) l q in
  state_blocks q' = state_blocks q /\ q_blocks q' = q_blocks q /\ blocks_hashes q' = blocks_hashes q /\
  forced q' = forced q ++ l /\ rolled_back q' = rolled_back q.
Proof.
  induction l as [| b l IH]; intros q; cbn; [now rewrite app_nil_r |].
  destruct (IH (force b q)) as (E1 & E2 & E3 & E4 & E5). cbn in *. rewrite E1, E2, E3, E4, E5, <- app_assoc. done.
Qed.

Lemma forced_queue (s : store) (R : list Z) (items : list info) (q : queue) (l : list block) : Forall U l ->
  queue_inv s R items q -> queue_inv s R items (fold_left (fun q b => force b q) l q) /\
  forall h, seen s R items q h -> seen s R items (fold_left (fun q b => force b q) l q) h.
Proof.
  intros Hl [H1 H2 H3 H4 H5 H6 H7]. destruct (force_fold l q) as (E1 & E2 & E3 & E4 & E5). unfold seen, queued in *.
  split; [| rewrite E1, E2; auto]. split; unfold seen, queued; rewrite ?E1, ?E2, ?E3, ?E4, ?E5; try assumption.
  apply Forall_app. split; assumption.
Qed.

Lemma verify_step (R : list Z) (e : event) (n : node) (room : option nat) (snap : store) (p : phase) (w : list info -> phase) :
  node_inv R n -> inv snap -> extended snap (n_store n) -> items_of (n_phase n) = [] -> (forall h, ~ in_hand n h) ->
  given e = [] -> items_of p = [] -> (forall l, items_of (w l) = l) -> phase_ok (n_store n) p -> (forall l, phase_ok (n_store n) (w l)) ->
  let (items, q) := take_state_blocks room snap (n_queue n) in
  step_ok R R e n (fine (with_phase (with_queue n q) (if (length items =? 0)%nat then p else w items))).
Proof.
  intros Hn Hs He Ei Hh Eg Ep Ew Pp Pw. pose proof (ni_queue R n Hn) as Q. rewrite Ei in Q.
  destruct (take_state_inv U owner HU (n_store n) R room snap (n_queue n) Hs He Q) as (Q' & S' & _ & _ & F' & _).
  destruct (take_state_blocks room snap (n_queue n)) as [items q]. cbn [fst snd] in *.
  assert (Ex : items_of (if (length items =? 0)%nat then p else w items) = items).
  { destruct items; cbn; [exact Ep | apply Ew]. }
  apply queue_step; cbn; try done.
  - destruct (_ =? _)%nat; [exact Pp | apply Pw].
  - now rewrite Ex.
  - intros h. rewrite Eg, Ei, Ex, F'. intros [H | [H | [H | H]]]; [auto | auto | now apply Hh in H | now apply not_elem_of_nil in H].
Qed.

Lemma checked_step (R : list Z) (e : event) (n : node) (items : list info) (p : phase) : node_inv R n ->
  items_of (n_phase n) = items -> (forall h, ~ in_hand n h) -> given e = [] -> items_of p = [] -> phase_ok (n_store n) p ->
  step_ok R (R ++ refused_items items (verify (map check_of items))) e n (on_queue (with_phase n p) (finish_state_blocks items (n_queue n))).
Proof.
  intros Hn Ei Hh Eg Ep Pp. pose proof (ni_queue R n Hn) as Q. rewrite Ei in Q.
  destruct (finish_inv U owner HU (n_store n) R items (n_queue n) Q) as (q' & -> & Q' & S' & _ & _ & F').
  apply queue_step; cbn; try done; [now rewrite Ep |]. intros h. rewrite Eg, Ei, Ep, F'.
  intros [H | [H | [H | H]]]; [auto | auto | now apply Hh in H | now apply not_elem_of_nil in H].
Qed.

Lemma step_keeps_node (VE : E.VoteEnv) (c : clock) (R : list Z) (n : node) (e : event) : node_inv R n -> event_fair VE n e ->
  step_ok R (R ++ refusals VE c n e) e n (step cfg VE c n e).
Proof.
  intros Hn [HE Hf]. pose proof Hn as [H1 H2 H3 H4 H5 H6 H7]. unfold refusals.
  assert (NH : forall p, n_phase n = p -> match p with working _ _ => False | _ => True end -> forall h, ~ in_hand n h).
  { intros p Ep Hp h (i & f & Ei & _). rewrite Ei in Ep. now subst p. }
  destruct e as [i | b | b | i | | | | | | | | | | x |]; cbn [step]; rewrite ?app_nil_r.
  - apply queue_add_step; try done; repeat split.
  - apply (queue_add_step R (ev_active b) n _ (mk_info b 0 (seconds c) sv_unknown)); [done | repeat split | done | | done].
    split; [exact Hf |]. split; [unfold word; cbn; lia |]. split; [now left | split; done].
  - destruct (forced_queue (n_store n) R (items_of (n_phase n)) (n_queue n) [b]) as [Q S]; [constructor; [exact Hf | constructor] | done |].
    apply queue_step; try done. intros h. cbn. rewrite map_app, elem_of_app. cbn. specialize (S h). unfold in_hand. cbn. tauto.
  - destruct (in_write (n_phase n)); [exact I |].
    destruct (process_one_inv VE HE R c i n Hn Hf) as (r & n' & -> & Hh).
    replace (of_option (option_map snd (Some (r, n')))) with (fine (with_phase n' (n_phase n)))
      by (rewrite <- (ha_phase _ _ _ _ _ Hh); cbn; now destruct n').
    apply (handled_step R c i r); [done | done | done | now left | intros; now right | intros h Hg; now apply list_elem_of_singleton in Hg].
  - destruct (n_phase n) eqn:Ep; try exact I. destruct (_ && _); [| exact I].
    apply queue_step; cbn; rewrite ?Ep; try done; [split; [apply H1 | reflexivity] |]. unfold in_hand. cbn. rewrite Ep.
    intros h [H | [H | [(i & f & H & _) | H]]]; [auto | auto | done | now apply not_elem_of_nil in H].
  - destruct (n_phase n) as [| snap | | | | |] eqn:Ep; try exact I. destruct (state_blocks (n_queue n)); [exact I |].
    pose proof (verify_step R ev_verify n (max_verification_batch cfg) snap (reading snap) (verifying_read snap)) as V.
    destruct (take_state_blocks _ _ _). apply V; rewrite ?Ep; try done; try apply H4. now apply (NH _ eq_refl).
  - destruct (n_phase n) as [| | snap items | | | | items] eqn:Ep; rewrite ?app_nil_r; try exact I.
    + apply checked_step; rewrite ?Ep; try done. now apply (NH _ eq_refl).
    + apply checked_step; rewrite ?Ep; try done. now apply (NH _ eq_refl).
  - destruct (n_phase n) as [| snap | | | | |] eqn:Ep; try exact I.
    apply queue_step; cbn; rewrite ?Ep; try done. unfold in_hand. cbn. rewrite Ep.
    intros h [H | [H | [(i & f & H & _) | H]]]; [auto | auto | done | now apply not_elem_of_nil in H].
  - destruct (n_phase n) as [| | | | | |] eqn:Ep; try exact I. destruct (pop c (n_queue n)) as [[[i f] q'] |] eqn:Eq; [| exact I].
    cbn in H3. destruct (pop_inv U owner (n_store n) R c (n_queue n) q' i f H3 Eq) as (Q' & Hi & _ & S' & _).
    apply queue_step; cbn; rewrite ?Ep; try done. intros h [H | [H | [H | H]]].
    + destruct (S' h H) as [H' | ->]; [now left | right; right; exists i, f; done].
    + unfold pop in Eq. destruct (forced (n_queue n)) as [| b l] eqn:Ef; [now apply not_elem_of_nil in H |].
      injection Eq as <- <- <-. cbn in *. apply elem_of_cons in H as [-> | H]; [right; right; eexists _, _; done | auto].
    + destruct H as (j & g & Ej & _). congruence.
    + now apply not_elem_of_nil in H.
  - destruct (n_phase n) as [| | | | i f | |] eqn:Ep; try exact I. cbn in H4.
    assert (Er : (if f then replace_loser cfg c (i_block i) n else Some n) = Some n)
      by (destruct f; [apply (replace_none c i n (li_inv _ _ _ H1) Hf) | done]).
    rewrite Er. destruct (process_one_inv VE HE R c i n Hn H4) as (r & n' & -> & Hh). cbn [option_map of_option snd].
    apply (handled_step R c i r); try done; rewrite ?Ep; [done | now right | |].
    + intros h (j & g & Ej & <-). left. congruence.
    + intros h Hg. now apply not_elem_of_nil in Hg.
  - destruct (n_phase n) as [| | | | | |] eqn:Ep; try exact I.
    assert (W : step_ok R R ev_more n (fine (with_phase n writing))).
    { apply queue_step; cbn; rewrite ?Ep; try done. unfold in_hand. cbn. rewrite Ep.
      intros h [H | [H | [(i & f & H & _) | H]]]; [auto | auto | done | now apply not_elem_of_nil in H]. }
    destruct (q_blocks (n_queue n)); [| exact W]. destruct (state_blocks (n_queue n)); [exact W |].
    pose proof (verify_step R ev_more n (write_verification_batch cfg) (n_store n) writing verifying_write) as V.
    destruct (take_state_blocks _ _ _). apply V; rewrite ?Ep; try done; [apply H1 | now apply (NH _ eq_refl)].
  - destruct (n_phase n) as [| | | | | |] eqn:Ep; try exact I.
    apply queue_step; cbn; rewrite ?Ep; try done. unfold in_hand. cbn. rewrite Ep.
    intros h [H | [H | [(i & f & H & _) | H]]]; [auto | auto | done | now apply not_elem_of_nil in H].
  - destruct H3 as [Q1 Q2 Q3 Q4 Q5 Q6 Q7]. apply queue_step; try done. intros h. unfold in_hand. cbn.
    intros [H | [H | [H | H]]]; [auto | auto | auto | now apply not_elem_of_nil in H].
  - destruct (ET.event_step_inv U (u_root U owner HU) (u_word U owner HU) VE (n_active n) x HE Hf H5) as [N K].
    destruct (E.event_step VE (n_active n) x) as [s | |]; [| done | exact I]. specialize (K s eq_refl).
    set (l := forces _).
    assert (Hl : Forall U l).
    { apply Forall_forall. intros b Hb. unfold l, forces in Hb. apply list_elem_of_omap in Hb as (a & Ha & Eb).
      pose proof (EI.ai_forced _ _ _ (ET.si_active _ _ K)) as FK. rewrite Forall_forall in FK.
      assert (Ha' : a ∈ E.log (E.sys_active s)).
      { rewrite <- (take_drop (length (E.log (E.sys_active (n_active n)))) (E.log (E.sys_active s))). apply elem_of_app. now right. }
      specialize (FK a Ha'). destruct a; try discriminate Eb. injection Eb as <-. exact FK. }
    destruct (forced_queue (n_store n) R (items_of (n_phase n)) (n_queue n) l Hl H3) as [Q S].
    split; [split; assumption |]. split; [reflexivity |]. intros h [[[Hh | Hh] | [Hh | Hh]] | Hh].
    + left. left. exact (S h Hh).
    + left. now right.
    + right. left. cbn. destruct (force_fold l (n_queue n)) as (_ & _ & _ & -> & _). rewrite map_app, elem_of_app. now left.
    + right. now right.
    + now apply not_elem_of_nil in Hh.
  - destruct (n_alarms n) as [| [t b] l]; [exact I |]. destruct (_ <=? _); [| exact I].
    destruct (alarm_requests _ _); apply queue_step; try done; intros h; unfold in_hand; cbn;
      (intros [H | [H | [H | H]]]; [auto | auto | auto | now apply not_elem_of_nil in H]).
Qed.

End Steps.

End BlockStep.
