(* ===== verification/BlockTheorems.v ===== *)
(** * The block processor: theorems

    Runs of the thread of [BlockProcessor] among the other threads: no block is lost and
    no assertion fails; left alone, the thread comes to rest within a bounded number of
    steps; the replacement of a block that lost its election.  Then concrete nodes, where
    the theorems are applied and where the program does what it should not. *)

From stdpp Require Import base gmap list.
From Stdlib Require Import ZArith Lia.
From S2P Require Import Prelude Blocks Numbers Store Ledger LedgerInv LedgerAppend LedgerProcess LedgerRollback LedgerTheorems LedgerOutcome Work Votes Elections ElectionInv ElectionTheorems Caches VoteGenerator Unchecked BlockProcessor BlockInv BlockStep.
Local Open Scope Z_scope.

Module BlockTheorems.
Import Ledger.Ledger LedgerInv.LedgerInv LedgerProcess.LedgerProcess LedgerOutcome.LedgerOutcome
  Unchecked.Unchecked BlockProcessor.BlockProcessor BlockInv.BlockInv BlockStep.BlockStep.

Section Runs.

Context `{LE : Env, WE : W.WorkEnv, IT : E.Iteration, CF : E.Config, VR : Verifier, SD : !Sound VR} (cfg : config).
Context (U : block -> Prop) (owner : Z -> Z) (HU : universe U owner).

Notation fast := (fast_bootstrap cfg).
Notation node_inv := (node_inv cfg U owner).
Notation event_fair := (event_fair U owner).

(** A node that has just started on a ledger. *)
Record start_ok (n : node) : Prop := {
  so_ledger : ledger_inv U owner (n_store n);
  so_unchecked : n_unchecked n = [];
  so_queue : n_queue n = empty_queue;
  so_phase : n_phase n = waiting;
  so_active : n_active n = E.initial_system;
  so_gaps : n_gaps n = [];
  so_votes : n_votes n = [] }.

Lemma started_inv (n : node) : start_ok n -> node_inv [] n.
Proof.
  intros [H1 H2 H3 H4 H5 H6 H7]. split; rewrite ?H2, ?H3, ?H4, ?H5, ?H6, ?H7; cbn.
  - exact H1.
  - split; [constructor | intros k i Hk; now apply not_elem_of_nil in Hk].
  - split; cbn; try constructor; intros *; [intros H; now apply not_elem_of_nil in H | set_solver].
  - exact I.
  - split; [apply EI.initial_inv | done].
  - split; [split; constructor | split; [cbn; lia | intros g a H; now apply not_elem_of_nil in H]].
  - split; [split; constructor | split; [cbn; lia | constructor]].
Qed.

(** ** Runs among the other threads *)

Fixpoint fair_run (n : node) (es : list (E.VoteEnv * clock * event)) : Prop :=
  match es with
  | [] => True
  | (VE, c, e) :: es' => event_fair VE n e /\ match step cfg VE c n e with fine n' => fair_run n' es' | _ => True end
  end.

Definition run_given (es : list (E.VoteEnv * clock * event)) : list Z := concat (map (fun x => given x.2) es).

Fixpoint run_refusals (n : node) (es : list (E.VoteEnv * clock * event)) : list Z :=
  match es with
  | [] => []
  | (VE, c, e) :: es' =>
      refusals cfg VE c n e ++ match step cfg VE c n e with fine n' => run_refusals n' es' | _ => [] end
  end.

Lemma run_keeps (es : list (E.VoteEnv * clock * event)) : forall R n, node_inv R n -> fair_run n es ->
  match run cfg n es with
  | fine n' => node_inv (R ++ run_refusals n es) n' /\
      forall h, accounted R n h \/ h ∈ run_given es -> accounted (R ++ run_refusals n es) n' h
  | assertion => False
  | impossible => True
  end.
Proof.
  induction es as [| [[VE c] e] es IH]; intros R n Hn Hf; cbn [run run_refusals fair_run] in *.
  - rewrite app_nil_r. split; [exact Hn |]. intros h [H | H]; [exact H | now apply not_elem_of_nil in H].
  - destruct Hf as [He Hf]. pose proof (step_keeps_node cfg U owner HU VE c R n e Hn He) as Hs.
    destruct (step cfg VE c n e) as [n1 | |]; [| done | done]. destruct Hs as (N1 & _ & A1).
    specialize (IH _ n1 N1 Hf). rewrite <- app_assoc in IH. destruct (run cfg n1 es) as [n2 | |]; [| done | done].
    destruct IH as [N2 A2]. split; [exact N2 |]. intros h Hh. apply A2. unfold run_given in *. cbn in Hh.
    rewrite elem_of_app in Hh. destruct Hh as [Hh | [Hh | Hh]]; [left; auto | left; auto | now right].
Qed.

(** Where a hash is: its block is in the ledger, was refused, is queued or with the
    checker, was forced, is being processed, or waits for what is not in the ledger. *)
Definition waits_under (n : node) (h : Z) : Prop :=
  exists d i, ((d, h), i) ∈ n_unchecked n /\ hash_of i = h /\ (fast = false -> waits (n_store n) d (i_block i)).

Definition whereabouts (refused : list Z) (n : node) (h : Z) : Prop :=
  stored (n_store n) h \/ h ∈ refused \/ h ∈ map hash_of (queued (items_of (n_phase n)) (n_queue n)) \/
  h ∈ map hash (forced (n_queue n)) \/ in_hand n h \/ waits_under n h.

Lemma accounted_place (R : list Z) (n : node) (h : Z) : node_inv R n -> accounted R n h -> whereabouts R n h.
Proof.
  intros Hn [[[H | [H | H]] | (d & i & H)] | [H | H]]; unfold whereabouts; try tauto.
  right. right. right. right. right. destruct (ni_table _ _ _ _ _ Hn) as [_ T]. destruct (T _ _ H) as (_ & E & W). cbn in *.
  exists d, i. split; [exact H |]. split; [done |]. intros Hf. now apply W.
Qed.


(** ** The thread alone *)

(** What the thread does next when no deadline ends one of its loops. *)
Definition next (n : node) : option event :=
  let q := n_queue n in
  match n_phase n with
  | waiting => if negb (q_stopped q) && have_blocks q then Some ev_begin else None
  | reading _ => Some match state_blocks q with [] => ev_write | _ => ev_verify end
  | verifying_read _ _ | verifying_write _ => Some ev_checked
  | writing => Some match q_blocks q, forced q with [], [] => ev_end | _, _ => ev_pop end
  | working _ _ => Some ev_process
  | worked => Some ev_more
  end.

(** Runs until there is nothing to do: the refusals on the way, and the node. *)
Fixpoint drive (n : node) (cs : list (E.VoteEnv * clock)) : option (list Z * node) :=
  match next n, cs with
  | None, _ => Some ([], n)
  | Some _, [] => None
  | Some e, (VE, c) :: cs' =>
      match step cfg VE c n e with
      | fine n' => match drive n' cs' with Some (l, n'') => Some (refusals cfg VE c n e ++ l, n'') | None => None end
      | _ => None
      end
  end.

(** No block is forced, and the thread is not stopped. *)
Definition quiet (n : node) : Prop :=
  forced (n_queue n) = [] /\ q_stopped (n_queue n) = false /\ match n_phase n with working _ true => False | _ => True end.

(** The blocks that can still be handled. *)
Definition hand (n : node) : nat := match n_phase n with working _ _ => 1 | _ => 0 end.
Definition blocks_left (n : node) : nat := (load n + hand n)%nat.
Definition moves_left (n : node) : nat :=
  (4 * length (state_blocks (n_queue n)) + 3 * length (items_of (n_phase n)) + 2 * length (q_blocks (n_queue n)) + hand n)%nat.

(** The steps before the next move. *)
Definition rank (n : node) : nat :=
  match n_phase n, state_blocks (n_queue n), q_blocks (n_queue n) with
  | waiting, [], [] => 0
  | waiting, [], _ => 2
  | waiting, _, _ => 1
  | reading _, [], [] => 2
  | reading _, [], _ => 1
  | reading _, _, _ => 0
  | writing, [], [] => 1
  | writing, _, [] => 2
  | writing, _, _ => 0
  | _, _, _ => 3
  end%nat.

Definition steps_left (n : node) : nat :=
  (4 * (2 * blocks_left n * blocks_left n + 3 * blocks_left n + moves_left n) + rank n)%nat.

(** Fewer blocks, or as many and fewer moves. *)
Lemma steps_less (n n' : node) :
  (blocks_left n' < blocks_left n \/ (blocks_left n' <= blocks_left n /\ moves_left n' < moves_left n) \/
   blocks_left n' <= blocks_left n /\ moves_left n' <= moves_left n /\ rank n' < rank n)%nat ->
  (steps_left n' < steps_left n)%nat.
Proof.
  intros H. assert (R : (rank n' <= 3)%nat).
  { unfold rank. destruct (n_phase n'), (state_blocks (n_queue n')), (q_blocks (n_queue n')); lia. }
  assert (M : (moves_left n' <= 4 * blocks_left n')%nat).
  { unfold moves_left, blocks_left, load, queued. rewrite !length_app. lia. }
  unfold steps_left. destruct H as [H | [[H1 H2] | (H1 & H2 & H3)]]; nia.
Qed.

(** The part of a verification that takes blocks. *)
Lemma verify_less (R : list Z) (n : node) (room : option nat) (snap : store) (p : phase) (w : list info -> phase) :
  node_inv R n -> quiet n -> inv snap -> extended snap (n_store n) -> items_of (n_phase n) = [] -> hand n = 0%nat ->
  room <> Some 0%nat -> state_blocks (n_queue n) <> [] ->
  (items_of p = [] /\ forall i f, p <> working i f) -> (forall l, items_of (w l) = l /\ forall i f, w l <> working i f) ->
  let (items, q) := take_state_blocks room snap (n_queue n) in
  let n' := with_phase (with_queue n q) (if (length items =? 0)%nat then p else w items) in
  quiet n' /\ (steps_left n' < steps_left n)%nat.
Proof.
  intros Hn [Q1 [Q2 _]] Hs He Ei Eh Hr Ha Hp Hw. pose proof (ni_queue _ _ _ _ _ Hn) as Q. rewrite Ei in Q.
  destruct (take_state_inv U owner HU (n_store n) R room snap (n_queue n) Hs He Q) as (_ & _ & L & Eb & Ef & A).
  assert (Es : q_stopped (take_state_blocks room snap (n_queue n)).2 = q_stopped (n_queue n))
    by (unfold take_state_blocks; now destruct (take_items _ _ _)).
  destruct (take_state_blocks room snap (n_queue n)) as [items q]. cbn [fst snd] in *. specialize (A Hr Ha).
  set (p' := if (length items =? 0)%nat then p else w items).
  assert (Hp' : items_of p' = items /\ forall i f, p' <> working i f)
    by (unfold p'; destruct items; [exact Hp | apply Hw]). clearbody p'. destruct Hp' as [Ep Np].
  assert (Zh : hand (with_phase (with_queue n q) p') = 0%nat) by (unfold hand; cbn; destruct p'; try done; exfalso; eapply Np; reflexivity).
  split; [split; [cbn; congruence | split; [cbn; congruence | cbn; destruct p'; try done; exfalso; eapply Np; reflexivity]] |].
  apply steps_less. right. left. unfold blocks_left, moves_left, load, queued in *. rewrite Zh, Eh, Ei. cbn. rewrite Ep, Eb in *.
  rewrite !length_app in *. cbn in *. lia.
Qed.

Lemma checked_less (R : list Z) (n : node) (items : list info) (p : phase) (q : queue) : node_inv R n -> quiet n ->
  n_phase n = verifying_write items \/ (exists s, n_phase n = verifying_read s items) ->
  p = writing \/ (exists s, p = reading s) -> finish_state_blocks items (n_queue n) = Some q ->
  quiet (with_queue (with_phase n p) q) /\ (steps_left (with_queue (with_phase n p) q) < steps_left n)%nat.
Proof.
  intros Hn [Q1 [Q2 _]] En Ep Eq. assert (Ei : items_of (n_phase n) = items) by (destruct En as [-> | (s & ->)]; done).
  pose proof (ni_queue _ _ _ _ _ Hn) as Q. rewrite Ei in Q.
  destruct (finish_inv U owner HU (n_store n) R items (n_queue n) Q) as (q' & E & _ & _ & L & Ea & Ef).
  rewrite Eq in E. injection E as <-. assert (Es : q_stopped q = q_stopped (n_queue n)).
  { unfold finish_state_blocks in Eq. destruct (judge_all _ _); [| done]. now injection Eq as <-. }
  split; [split; [cbn; congruence | split; [cbn; congruence | cbn; destruct Ep as [-> | (s & ->)]; done]] |].
  assert (Ep' : items_of p = []) by (destruct Ep as [-> | (s & ->)]; done).
  assert (Zh : hand (with_queue (with_phase n p) q) = 0%nat) by (unfold hand; cbn; destruct Ep as [-> | (s & ->)]; done).
  assert (Zn : hand n = 0%nat) by (unfold hand; destruct En as [-> | (s & ->)]; done).
  assert (Rn : rank n = 3%nat) by (unfold rank; destruct En as [-> | (s & ->)]; done).
  assert (Rq : (rank (with_queue (with_phase n p) q) < 3)%nat)
    by (unfold rank; cbn; destruct Ep as [-> | (s & ->)]; destruct (state_blocks q), (q_blocks q); lia).
  apply steps_less. right. unfold blocks_left, moves_left, load, queued in *. rewrite Zh, Zn, Ei, Rn. cbn. rewrite Ep', Ea in *.
  rewrite !length_app in *. cbn in *. destruct items; cbn in *; lia.
Qed.

(** Only the phase changes. *)
Lemma phase_less (n : node) (p : phase) : quiet n -> items_of p = items_of (n_phase n) ->
  hand (with_phase n p) = hand n -> match p with working _ _ => False | _ => True end ->
  (rank (with_phase n p) < rank n)%nat -> quiet (with_phase n p) /\ (steps_left (with_phase n p) < steps_left n)%nat.
Proof.
  intros (Q1 & Q2 & _) Ei Eh Hp Hr. split; [split; [done | split; [done | now destruct p]] |].
  apply steps_less. right. right. unfold blocks_left, moves_left, load. rewrite Eh. cbn. rewrite Ei. lia.
Qed.

Lemma pop_less (R : list Z) (c : clock) (n : node) (i : info) (f : bool) (q : queue) : node_inv R n -> quiet n ->
  n_phase n = writing -> pop c (n_queue n) = Some (i, f, q) ->
  quiet (with_phase (with_queue n q) (working i f)) /\ (steps_left (with_phase (with_queue n q) (working i f)) < steps_left n)%nat.
Proof.
  intros Hn (Q1 & Q2 & _) Ep Eq. unfold pop in Eq. rewrite Q1 in Eq. destruct (q_blocks (n_queue n)) as [| j l] eqn:Eb; [done |].
  injection Eq as <- <- <-. split; [done |]. apply steps_less. right. left.
  unfold blocks_left, moves_left, load, queued, hand. cbn. rewrite Ep. cbn. rewrite !length_app, Eb. cbn. lia.
Qed.

Lemma process_less (R : list Z) (n n' : node) (i : info) (f : bool) (r : process_return) : fast = false -> quiet n ->
  n_phase n = working i f -> handled cfg U owner R i r n n' ->
  quiet (with_phase n' worked) /\ (steps_left (with_phase n' worked) < steps_left n)%nat.
Proof.
  intros Hf (Q1 & Q2 & _) Ep [_ P Ff Fs _ _ L]. split; [split; [cbn; congruence | split; [cbn; congruence | done]] |].
  apply steps_less. assert (Hn : hand n = 1%nat) by (unfold hand; now rewrite Ep).
  assert (El : load (with_phase n' worked) = load n') by (unfold load; cbn; now rewrite P, Ep).
  unfold blocks_left. rewrite El, Hn. cbn [hand with_phase n_phase]. destruct (L Hf) as [L' | [L' E]]; [left; lia | right; left].
  split; [lia |]. unfold moves_left. rewrite Hn. cbn. rewrite E, Ep. cbn. lia.
Qed.

Lemma next_fair (VE : E.VoteEnv) (n : node) (e : event) : ET.env_ok U VE -> quiet n -> next n = Some e -> event_fair VE n e.
Proof.
  intros HE (_ & _ & Q) Hx. split; [exact HE |]. unfold next in Hx. destruct (n_phase n) as [| | | | i [] | |]; try done;
    try (destruct (_ && _); [| done]); injection Hx as <-; try done; [now destruct (state_blocks (n_queue n)) | now destruct (q_blocks (n_queue n)), (forced (n_queue n))].
Qed.

Lemma room_left (k m : nat) : (k <> 0)%nat -> Some (k * (m + 1))%nat <> Some 0%nat.
Proof. intros Hk [= [E | E]%Nat.eq_mul_0]; lia. Qed.

Ltac change_phase E :=
  eexists; split; [reflexivity |]; apply phase_less; try done; rewrite ?E; try done;
    [unfold hand; now rewrite E |]; unfold rank; cbn; rewrite E.

Lemma next_step (VE : E.VoteEnv) (c : clock) (R : list Z) (n : node) (e : event) : fast = false -> ET.env_ok U VE ->
  node_inv R n -> quiet n -> next n = Some e ->
  exists n', step cfg VE c n e = fine n' /\ quiet n' /\ (steps_left n' < steps_left n)%nat.
Proof.
  intros Hf HE Hn Hq Hx. pose proof Hq as (Q1 & Q2 & Q3). pose proof (ni_phase _ _ _ _ _ Hn) as Hp.
  pose proof (step_keeps_node cfg U owner HU VE c R n e Hn (next_fair VE n e HE Hq Hx)) as Hs.
  unfold next in Hx. destruct (n_phase n) as [| snap | snap items | | i f | | items] eqn:Ep; cbn in Hp, Q3.
  - destruct (negb (q_stopped (n_queue n)) && have_blocks (n_queue n)) eqn:Eb; [| done]. injection Hx as <-.
    cbn [step]. rewrite Ep, Eb. change_phase Ep. unfold have_blocks in Eb. rewrite Q1, Q2 in Eb. cbn in Eb.
    destruct (state_blocks (n_queue n)), (q_blocks (n_queue n)); cbn in *; (lia || done).
  - injection Hx as <-. destruct (state_blocks (n_queue n)) eqn:Ea; cbn [step]; rewrite Ep.
    + change_phase Ep. rewrite Ea. destruct (q_blocks _); lia.
    + pose proof (verify_less R n (max_verification_batch cfg) snap (reading snap) (verifying_read snap) Hn Hq) as V. rewrite Ea.
      destruct (take_state_blocks _ _ _) as [items q']. eexists. split; [reflexivity |].
      apply V; rewrite ?Ep; try done; try apply Hp; [unfold hand; now rewrite Ep | | congruence].
      unfold max_verification_batch. rewrite Hf. now apply room_left.
  - injection Hx as <-. revert Hs. cbn [step]. rewrite Ep. destruct (finish_state_blocks items (n_queue n)) as [q' |] eqn:Eq; [| done].
    intros _. eexists. split; [reflexivity |]. apply (checked_less R n items); eauto.
  - injection Hx as <-. destruct (q_blocks (n_queue n)) as [| j l] eqn:Eb.
    + rewrite Q1. cbn [step]. rewrite Ep. change_phase Ep. rewrite Eb. destruct (state_blocks _); lia.
    + cbn [step]. rewrite Ep. destruct (pop c (n_queue n)) as [[[i f] q'] |] eqn:Eq;
        [| unfold pop in Eq; rewrite Q1, Eb in Eq; done].
      eexists. split; [reflexivity |]. now apply (pop_less R c).
  - injection Hx as <-. destruct f; [done |]. cbn [step]. rewrite Ep.
    destruct (process_one_inv cfg U owner HU VE HE R c i n Hn Hp) as (r & n' & -> & Hh). eexists. split; [reflexivity |].
    now apply (process_less R n n' i false r).
  - injection Hx as <-. cbn [step]. rewrite Ep. destruct (q_blocks (n_queue n)) eqn:Eb.
    + destruct (state_blocks (n_queue n)) eqn:Ea; [change_phase Ep; rewrite Eb, Ea; lia |].
      pose proof (verify_less R n (write_verification_batch cfg) (n_store n) writing verifying_write Hn Hq) as V.
      destruct (take_state_blocks _ _ _) as [items q']. eexists. split; [reflexivity |].
      apply V; rewrite ?Ep; try done; [apply Hn | unfold hand; now rewrite Ep | now apply room_left | congruence].
    + change_phase Ep. rewrite Eb. destruct (state_blocks _); lia.
  - injection Hx as <-. revert Hs. cbn [step]. rewrite Ep. destruct (finish_state_blocks items (n_queue n)) as [q' |] eqn:Eq; [| done].
    intros _. eexists. split; [reflexivity |]. apply (checked_less R n items); eauto.
Qed.

Lemma drive_rests (cs : list (E.VoteEnv * clock)) : fast = false -> Forall (fun x => ET.env_ok U x.1) cs -> forall R n,
  node_inv R n -> quiet n -> (steps_left n <= length cs)%nat -> exists l n', drive n cs = Some (l, n') /\
    node_inv (R ++ l) n' /\ quiet n' /\ next n' = None /\ forall h, accounted R n h -> accounted (R ++ l) n' h.
Proof.
  intros Hf. induction 1 as [| [VE c] cs HE _ IH]; intros R n Hn Hq Hl; cbn [drive]; destruct (next n) as [e |] eqn:Hx;
    try (exists [], n; rewrite app_nil_r; done).
  - exfalso. destruct Hq as (Q1 & Q2 & _). cbn [length] in Hl.
    assert (Em : moves_left n = 0%nat /\ rank n = 0%nat) by (unfold steps_left in Hl; lia). clear Hl. destruct Em as [Em Er].
    unfold moves_left, hand, rank, next, have_blocks in *. rewrite Q1, Q2 in Hx. cbn in Hx.
    destruct (n_phase n), (state_blocks (n_queue n)), (q_blocks (n_queue n)); cbn in *; (lia || done).
  - destruct (next_step VE c R n e Hf HE Hn Hq Hx) as (n1 & E & Hq1 & Hl1). cbn in HE.
    pose proof (step_keeps_node cfg U owner HU VE c R n e Hn (next_fair VE n e HE Hq Hx)) as Hs. rewrite E in *. destruct Hs as (N1 & _ & A1).
    destruct (IH _ n1 N1 Hq1 ltac:(cbn [length] in Hl; lia)) as (l & n' & -> & N' & Q' & X' & A'). rewrite <- app_assoc in *.
    exists (refusals cfg VE c n e ++ l), n'. split; [done |]. split; [exact N' |]. split; [exact Q' |]. split; [exact X' |]. auto.
Qed.

(** A node at rest has nothing queued. *)
Lemma rest_empty (n : node) : quiet n -> next n = None -> n_phase n = waiting /\ state_blocks (n_queue n) = [] /\ q_blocks (n_queue n) = [].
Proof.
  intros (Q1 & Q2 & _) Hx. unfold next in Hx. destruct (n_phase n); try done. unfold have_blocks in Hx. rewrite Q1, Q2 in Hx.
  destruct (state_blocks (n_queue n)), (q_blocks (n_queue n)); done.
Qed.


(** ** Replacing a block *)

Lemma remember_spec (c : clock) (loser winner : Z) (q : queue) : T.ok (rolled_back q) ->
  (length (rolled_back q) <= rolled_back_max)%nat -> Forall (fun x => rh_time x <= steady c) (rolled_back q) ->
  T.find loser (rolled_back q) = None -> loser <> winner ->
  let l := rolled_back (remember_rolled c loser winner q) in
  T.ok l /\ (length l <= rolled_back_max)%nat /\ T.find loser l = Some (mk_rolled (steady c) loser) /\ T.find winner l = None.
Proof.
  intros O L F N D. unfold remember_rolled, T.insert. cbn [T.key rolled_timed rh_hash]. rewrite N. cbn [rolled_back].
  set (x := mk_rolled (steady c) loser).
  assert (El : T.link x (rolled_back q) = rolled_back q ++ [x]) by now apply T.link_last.
  pose proof (T.erase_ok winner _ (T.link_ok x _ O N)) as O1. pose proof (proj2 (T.link_ok x _ O N)) as N1.
  pose proof (T.find_erase winner winner _ N1) as Fw. rewrite Z.eqb_refl in Fw.
  pose proof (T.find_erase winner loser _ N1) as Fl. rewrite (proj2 (Z.eqb_neq _ _) D), (T.find_link loser x _ O N) in Fl.
  cbn [T.key rolled_timed rh_hash x] in Fl. rewrite Z.eqb_refl in Fl.
  assert (L1 : (length (T.erase winner (T.link x (rolled_back q))) <= S (length (rolled_back q)))%nat)
    by (etrans; [apply T.erase_length | rewrite El, length_app; cbn; lia]).
  destruct (Nat.ltb_spec rolled_back_max (length (T.erase winner (T.link x (rolled_back q))))) as [G | G]; [| done].
  assert (Ew : T.erase winner (T.link x (rolled_back q)) = T.erase winner (rolled_back q) ++ [x]).
  { rewrite El. unfold T.erase. rewrite List.filter_app. cbn. now rewrite (proj2 (Z.eqb_neq _ _) D). }
  destruct (T.erase winner (T.link x (rolled_back q))) as [| y l] eqn:Ey; [cbn in G; lia |]. unfold T.pop. cbn [tl].
  assert (Hy : T.key y <> loser).
  { intros E. destruct (T.erase winner (rolled_back q)) as [| z r] eqn:Er; cbn in Ew; injection Ew as -> ->; [cbn in G; unfold rolled_back_max in G; lia |].
    apply T.find_None in N. apply N. apply list_elem_of_fmap. exists z. split; [done |].
    assert (Hz : z ∈ T.erase winner (rolled_back q)) by (rewrite Er; now left). now apply T.erase_elem in Hz as [? _]. }
  pose proof (T.pop_ok _ O1) as O2. split; [exact O2 |]. split; [cbn in L1; lia |].
  rewrite (T.find_pop loser y l O1), (proj2 (Z.eqb_neq _ _) Hy). split; [exact Fl |].
  rewrite (T.find_pop winner y l O1). now destruct (_ =? _).
Qed.

(** C10: forcing a block in the place of the one that was accepted last rolls that one
    back without a failed assertion and restores the ledger; the loser's votes leave the
    cache, its hash is remembered, in a list of at most 1024 entries without the winner,
    and a block of that hash is not queued again. *)
Theorem force_replaces (s0 : store) (n : node) (b loser : block) (c : clock) (v : signature_verification) (r : process_return)
  (Hs : inv s0) (Ha : admissible (H := at_time LE (seconds c)) s0 loser v)
  (Ep : process (H := at_time LE (seconds c)) s0 loser v = Done (r, n_store n)) (Hc : code r = progress)
  (Hg : block_get_full s0 genesis_account = None) (He : block_get_full s0 epoch_link = None)
  (Hx : on_store (n_store n) (successor (previous b) (root b)) = Some (Some loser)) (Hd : hash loser <> hash b)
  (Hfuel : (3 <= rollback_fuel cfg)%nat) (Hv : VC.cache_ok (n_votes n)) (Ho : T.ok (rolled_back (n_queue n)))
  (Hl : (length (rolled_back (n_queue n)) <= rolled_back_max)%nat)
  (Ht : Forall (fun x => rh_time x <= steady c) (rolled_back (n_queue n)))
  (Hn : T.find (hash loser) (rolled_back (n_queue n)) = None) :
  exists n', replace_loser cfg c b n = Some n' /\ LedgerRollback.LedgerRollback.restored s0 (n_store n') /\ inv (n_store n') /\
    ~ stored (n_store n') (hash loser) /\ VC.votes_find (hash loser) (n_votes n') = [] /\
    (length (rolled_back (n_queue n')) <= rolled_back_max)%nat /\ T.find (hash b) (rolled_back (n_queue n')) = None /\
    forall i, hash_of i = hash loser -> enqueue i (n_queue n') = n_queue n'.
Proof.
  set (t := mk_lstate (n_store n) [] (initial_result sv_unknown) []).
  destruct (LT.rollback_accepted (H := at_time LE (seconds c)) s0 loser v r t (rollback_fuel cfg - 3) Hs Ha Ep Hc Hg He)
    as (t' & E & Hr & Hi & Er). replace (3 + (rollback_fuel cfg - 3))%nat with (rollback_fuel cfg) in E by lia.
  unfold replace_loser. rewrite Hx, (proj2 (Z.eqb_neq _ _) Hd). cbn [negb].
  fold t. change (@hash (@env_hash (at_time LE (seconds c)))) with (@hash (@env_hash LE)) in *. rewrite E. eexists. split; [reflexivity |].
  destruct (remember_spec c (hash loser) (hash b) (n_queue n) Ho Hl Ht Hn Hd) as (_ & L' & F' & W').
  cbn [n_store with_votes with_queue with_store n_votes n_queue]. split; [exact Hr |]. split; [exact Hi |].
  cbn in Er. rewrite Er. cbn [fold_left].
  assert (Hf : block_get_full s0 (hash loser) = None).
  { destruct (LT.process_cases (H := at_time LE (seconds c)) _ _ _ _ _ Hs Ha Ep) as [[N _] | (_ & sb & o & w & k & Hap & _)]; [done |].
    apply (ap_block _ _ _ _ _ _ _ _ Hap). }
  split; [intros [x Hx']; rewrite (LedgerRollback.LedgerRollback.rs_get _ _ Hr), Hf in Hx'; done |].
  split; [rewrite VC.votes_remove_find by done; now rewrite Z.eqb_refl |]. split; [exact L' |]. split; [exact W' |].
  intros i Ei. unfold enqueue. fold (hash_of i). rewrite Ei, F'. cbn [present negb]. now rewrite andb_false_r.
Qed.

End Runs.

(** ** A concrete node *)

(** A run in which no forced block is in the hand of the thread is fair if its events
    are. *)
Section Plain.

Context `{LE : Env, WE : W.WorkEnv, IT : E.Iteration, CF : E.Config, VR : Verifier} (cfg : config).

Definition forced_in_hand (n : node) : bool := match n_phase n with working _ true => true | _ => false end.

Fixpoint never_forced (n : node) (es : list (E.VoteEnv * clock * event)) : bool :=
  negb (forced_in_hand n) &&
  match es with
  | [] => true
  | (VE, c, e) :: es' => match step cfg VE c n e with fine n' => never_forced n' es' | _ => true end
  end.

Lemma fair_plain (U : block -> Prop) (owner : Z -> Z) (es : list (E.VoteEnv * clock * event)) :
  Forall (fun x => forall n, forced_in_hand n = false -> event_fair U owner x.1.1 n x.2) es -> forall n,
  never_forced n es = true -> fair_run cfg U owner n es.
Proof.
  induction 1 as [| [[VE c] e] es He _ IH]; intros n Hn; cbn [fair_run never_forced] in *; [done |].
  apply andb_true_iff in Hn as [H1 H2]. split; [now apply He, negb_true_iff |]. destruct (step cfg VE c n e); auto.
Qed.

End Plain.

#[local] Existing Instance LT.demo_env.
#[local] Existing Instance ET.demo_work.
#[local] Existing Instance ET.demo_config.
#[local] Existing Instance ET.demo_order.

(** A checker that asks [validate_message] for each signature. *)
Definition honest (LE : Env) : Verifier.
Proof.
  refine {| verify := map (fun x : Z * Z * Z => let '(a, m, s) := x in if validate_message a m s then 0 else 1) |}.
  - intros l. apply length_map.
  - intros l. apply Forall_forall. intros r ([[a m] s] & -> & _)%list_elem_of_fmap. destruct (validate_message a m s); auto.
Defined.

#[local] Existing Instance honest.

#[local] Instance honest_sound (LE : Env) : Sound (honest LE).
Proof.
  intros l i a m s H1 H2. cbn in H2. rewrite (map_nth_error _ _ _ H1) in H2. now destruct (validate_message a m s).
Qed.

Definition plain : config := mk_config false true 0 3.
Definition started (s : store) : node :=
  mk_node s [] empty_queue waiting [] [] [] (VG.mk_generator [] None) E.initial_system [] [].
Definition noon : clock := mk_clock 1000 5.
Definition at_noon (l : list event) : list (E.VoteEnv * clock * event) := map (pair (ET.demo_view 0, noon)) l.
Definition offer (b : block) : event := ev_add (mk_info b 0 0 sv_unknown).
Definition batch : list event := [ev_begin; ev_write; ev_pop; ev_process; ev_more; ev_end].
Definition node_of (o : outcome) (n : node) : node := match o with fine n' => n' | _ => n end.

(** A block after [demo_send], and one whose predecessor nobody has. *)
Definition demo_child : block := send_block (mk_send (hash LT.demo_send) 6 500) 0 0.
Definition demo_orphan : block := send_block (mk_send 12345 6 500) 0 0.

Definition demo_known (b : block) : Prop := List.In b [LT.demo_genesis; LT.demo_send; demo_child; demo_orphan; LT.demo_fork].

Lemma demo_known_universe : universe demo_known (fun _ => 1).
Proof.
  split.
  - intros b H. cbn in H. destruct_or! H; try done; subst b; concrete_block_ok.
  - intros b H. cbn in H. destruct_or! H; try done; subst b; vm_compute; reflexivity.
  - intros b H. cbn in H. destruct_or! H; try done; subst b; vm_compute; reflexivity.
  - intros b b' H1 H2. cbn in H1, H2. destruct_or! H1; destruct_or! H2; try done; subst b b'; try (intros _; reflexivity);
      intros E; exfalso; revert E; vm_compute; discriminate.
  - intros b H. cbn in H. destruct_or! H; try done; subst b; reflexivity.
Qed.

Lemma demo_known_start : ledger_inv demo_known (fun _ => 1) LT.demo_start.
Proof.
  assert (K : forall h x, block_get_full LT.demo_start h = Some x -> x.1 = LT.demo_genesis /\ entry_account x = 1).
  { intros h x Hx. destruct (get_inv _ _ _ Hx) as [d Hd]. unfold found in Hd. apply elem_of_map_to_list, list_elem_of_In in Hd.
    assert (E : forallb (fun p => blocks_equal p.2.1 LT.demo_genesis && (entry_account p.2 =? 1)) (map_to_list (Store.blocks LT.demo_start)) = true)
      by (vm_compute; reflexivity).
    rewrite forallb_forall in E. apply E, andb_true_iff in Hd as [E1 E2]. apply blocks_equal_spec in E1.
    split; [exact E1 | exact (proj1 (Z.eqb_eq _ _) E2)]. }
  split; [exact LT.demo_start_inv | |]; intros h x Hx; destruct (K h x Hx) as [K1 K2]; [rewrite K1; now left | done].
Qed.

Lemma demo_known_view (t : Z) : ET.env_ok demo_known (ET.demo_view t).
Proof.
  destruct (ET.demo_view_ok t) as [H1 H2]. split; [exact H1 |]. intros h b Hb. destruct (H2 h b Hb) as [Hu Hw].
  split; [| exact Hw]. cbn in Hu. cbn. tauto.
Qed.

Lemma demo_started : start_ok demo_known (fun _ => 1) (started LT.demo_start).
Proof. split; try reflexivity. exact demo_known_start. Qed.

(** The child and the orphan come first and wait; then comes the block before the child. *)
Definition demo_arrivals : list (E.VoteEnv * clock * event) :=
  at_noon ([offer demo_child] ++ batch ++ [offer demo_orphan; offer LT.demo_send]).

Lemma demo_arrivals_fair : fair_run plain demo_known (fun _ => 1) (started LT.demo_start) demo_arrivals.
Proof.
  apply fair_plain; [| vm_compute; reflexivity].
  assert (O : forall b, demo_known b -> info_ok demo_known (fun _ => 1) (mk_info b 0 0 sv_unknown)).
  { intros b Hb. split; [exact Hb |]. split; [unfold word; cbn; lia |]. split; [now left | split; done]. }
  repeat (apply List.Forall_cons || apply List.Forall_nil); intros n Hn; (split; [apply demo_known_view |]); cbn; try exact I;
    try (apply O; cbn; tauto).
  unfold forced_in_hand in Hn. destruct (n_phase n) as [| | | | i [] | |]; done.
Qed.

Definition demo_arrived : node := node_of (run plain (started LT.demo_start) demo_arrivals) (started LT.demo_start).

Lemma demo_arrived_run : run plain (started LT.demo_start) demo_arrivals = fine demo_arrived.
Proof. vm_compute. reflexivity. Qed.


Definition demo_steps : list (E.VoteEnv * clock) := repeat (ET.demo_view 0, noon) 200.


(** The node after [demo_send], when [demo_fork] has won. *)
Definition demo_lost : node := started LT.demo_sent.

Lemma force_replaces_witness : exists n', replace_loser plain (mk_clock 0 5) LT.demo_fork demo_lost = Some n' /\
  ~ stored (n_store n') (hash LT.demo_send) /\ VC.votes_find (hash LT.demo_send) (n_votes n') = [].
Proof.
  destruct (force_replaces plain LT.demo_start demo_lost LT.demo_fork LT.demo_send (mk_clock 0 5) sv_unknown
    (LT.result_of LT.demo_start LT.demo_send)) as (n' & E & _ & _ & H1 & H2 & _).
  - exact LT.demo_start_inv.
  - exact LT.demo_send_ok.
  - exact LT.demo_sent_done.
  - vm_compute. reflexivity.
  - vm_compute. reflexivity.
  - vm_compute. reflexivity.
  - vm_compute. reflexivity.
  - vm_compute. discriminate.
  - cbn. lia.
  - split; [split; constructor | split; [cbn; lia | constructor]].
  - split; constructor.
  - cbn. lia.
  - constructor.
  - reflexivity.
  - exists n'. split; [exact E |]. split; [exact H1 | exact H2].
Defined.

(** ** What goes wrong *)

(** Signatures that are the number of the signer. *)
Definition signed_env : Env := {|
  env_hash := fun b => 1 + be_val (preimage b) mod (2 ^ 255 - 19);
  validate_message := fun a _ s => negb (a =? s);
  epoch_link := 7; epoch_signer := 9; genesis_account := 1; now := 0 |}.

(** A payment of the genesis account, with the signature of [a]. *)
Definition payment (a : Z) : block := state_block (mk_state 1 (hash LT.demo_genesis) 1 1000 5) a 0.
Definition verify_batch : list event := [ev_begin; ev_verify; ev_checked; ev_write].

Definition signed_run (l : list event) : outcome :=
  run (LE := signed_env) (VR := honest signed_env) plain (started LT.demo_start) (at_noon l).

(** A block with a wrong signature keeps the right one out.  The verification drops
    it without removing its hash from the set of queued hashes, so the block with the
    right signature, which has the same hash and is accepted by a fresh node, is
    ignored: the thread is idle and the ledger is as it was. *)
Theorem bad_copy_blocks_good :
  block_exists (n_store (node_of (signed_run ([ev_active (payment 1)] ++ verify_batch ++ [ev_pop; ev_process])) (started LT.demo_start)))
    (hash (payment 1)) = true /\
  hash (payment 2) = hash (payment 1) /\
  let n := node_of (signed_run ([ev_active (payment 2)] ++ verify_batch ++ [ev_end; ev_active (payment 1)])) (started LT.demo_sent) in
    n_store n = LT.demo_start /\ n_phase n = waiting /\ have_blocks (n_queue n) = false /\ n_unchecked n = [] /\
    hash (payment 1) ∈ blocks_hashes (n_queue n).
Proof.
  split; [vm_compute; reflexivity |]. split; [vm_compute; reflexivity |].
  repeat split; vm_compute; reflexivity.
Qed.

(** The account 5 opens with what it was sent; then a block of it names the head of the
    account 1 as its predecessor. *)
Definition demo_opening : block := open_block (mk_open (hash LT.demo_send) 1 5) 0 0.
Definition demo_foreign : block := state_block (mk_state 5 (hash LT.demo_send) 1 0 0) 0 0.

Definition demo_opened : node :=
  node_of (run plain (started LT.demo_sent) (at_noon ([offer demo_opening] ++ verify_batch ++ [ev_pop; ev_process; ev_more; ev_end])))
    (started LT.demo_start).


End BlockTheorems.
