(* ===== verification/Peers.v ===== *)
(** * Peers: definitions

    Model of [nano::peer_container] ([nano/node/peers.cpp]), of
    [nano::reserved_address], and of the handlers of [keepalive] and
    [node_id_handshake] messages ([nano/node/node.cpp]).  The container has seven
    indices; the list of the peers is the one in order of insertion, and a traversal
    of an ordered index is a permutation of it that is sorted by the key, in any order
    among equal keys.  What changes from call to call (the clock, the random words and
    the orders) is the class [PeerEnv].  [None] is a failed assertion, or the exception
    of a conversion from an IPv4 address.  The parts of IPv6 endpoints that are compared
    beside address and port (the scope) are left out. *)

From stdpp Require Import base gmap list sorting.
From Stdlib Require Import ZArith Lia.
From S2P Require Import Prelude Blocks Store.
Local Open Scope Z_scope.

Module Peers.
Notation present := Store.present (only parsing).

(** ** Data *)

Inductive address := v4 (a : Z) | v6 (a : Z).

#[global] Instance address_eq_dec : EqDecision address.
Proof. solve_decision. Defined.

#[global] Instance address_countable : Countable address.
Proof.
  refine (inj_countable' (fun a => match a with v4 x => inl x | v6 x => inr x end)
    (fun s => match s with inl x => v4 x | inr x => v6 x end) _); by intros [].
Defined.

Record endpoint := mk_endpoint { ep_address : address; ep_port : Z }.

#[global] Instance endpoint_eq_dec : EqDecision endpoint.
Proof. solve_decision. Defined.

#[global] Instance endpoint_countable : Countable endpoint.
Proof.
  refine (inj_countable' (fun e => (ep_address e, ep_port e)) (fun p => mk_endpoint p.1 p.2) _); by intros [].
Defined.

Definition is_v6 (e : endpoint) : bool := match ep_address e with v6 _ => true | v4 _ => false end.

Definition v4_mapped (a : Z) : Z := 0xffff * 2 ^ 32 + a.

Definition map_endpoint_to_v6 (e : endpoint) : endpoint :=
  match ep_address e with v4 a => mk_endpoint (v6 (v4_mapped a)) (ep_port e) | v6 _ => e end.

(** [endpoint (address_v6 {}, 0)]. *)
Definition no_endpoint : endpoint := mk_endpoint (v6 0) 0.

Record peer_information := mk_peer {
  pe_endpoint : endpoint; ip_address : address; last_contact : Z; last_attempt : Z; last_bootstrap_attempt : Z;
  last_rep_request : Z; last_rep_response : Z; rep_weight : Z; probable_rep_account : Z; network_version : Z;
  node_id : option Z }.

Definition set_last_contact (t : Z) (p : peer_information) : peer_information :=
  mk_peer (pe_endpoint p) (ip_address p) t (last_attempt p) (last_bootstrap_attempt p) (last_rep_request p)
    (last_rep_response p) (rep_weight p) (probable_rep_account p) (network_version p) (node_id p).
Definition set_last_attempt (t : Z) (p : peer_information) : peer_information :=
  mk_peer (pe_endpoint p) (ip_address p) (last_contact p) t (last_bootstrap_attempt p) (last_rep_request p)
    (last_rep_response p) (rep_weight p) (probable_rep_account p) (network_version p) (node_id p).
Definition set_last_bootstrap_attempt (t : Z) (p : peer_information) : peer_information :=
  mk_peer (pe_endpoint p) (ip_address p) (last_contact p) (last_attempt p) t (last_rep_request p)
    (last_rep_response p) (rep_weight p) (probable_rep_account p) (network_version p) (node_id p).
Definition set_last_rep_request (t : Z) (p : peer_information) : peer_information :=
  mk_peer (pe_endpoint p) (ip_address p) (last_contact p) (last_attempt p) (last_bootstrap_attempt p) t
    (last_rep_response p) (rep_weight p) (probable_rep_account p) (network_version p) (node_id p).
Definition set_last_rep_response (t : Z) (p : peer_information) : peer_information :=
  mk_peer (pe_endpoint p) (ip_address p) (last_contact p) (last_attempt p) (last_bootstrap_attempt p)
    (last_rep_request p) t (rep_weight p) (probable_rep_account p) (network_version p) (node_id p).
Definition set_rep (a w : Z) (p : peer_information) : peer_information :=
  mk_peer (pe_endpoint p) (ip_address p) (last_contact p) (last_attempt p) (last_bootstrap_attempt p)
    (last_rep_request p) (last_rep_response p) w a (network_version p) (node_id p).
Definition set_node_id (n : option Z) (p : peer_information) : peer_information :=
  mk_peer (pe_endpoint p) (ip_address p) (last_contact p) (last_attempt p) (last_bootstrap_attempt p)
    (last_rep_request p) (last_rep_response p) (rep_weight p) (probable_rep_account p) (network_version p) n.

Record peer_attempt := mk_attempt { at_endpoint : endpoint; at_last_attempt : Z }.
Record syn_cookie_info := mk_cookie { cookie : Z; created_at : Z }.

(** [observed] and [disconnected] are the calls of the two observers. *)
Record container := mk_container {
  peers : list peer_information; attempts : list peer_attempt; syn_cookies : gmap endpoint syn_cookie_info;
  syn_cookies_per_ip : gmap address Z; observed : list endpoint; disconnected : nat }.

Definition empty_container : container := mk_container [] [] ∅ ∅ [] 0.

Definition with_peers (c : container) (l : list peer_information) : container :=
  mk_container l (attempts c) (syn_cookies c) (syn_cookies_per_ip c) (observed c) (disconnected c).
Definition with_attempts (c : container) (l : list peer_attempt) : container :=
  mk_container (peers c) l (syn_cookies c) (syn_cookies_per_ip c) (observed c) (disconnected c).
Definition with_cookies (c : container) (m : gmap endpoint syn_cookie_info) (n : gmap address Z) : container :=
  mk_container (peers c) (attempts c) m n (observed c) (disconnected c).
Definition observe (c : container) (e : endpoint) : container :=
  mk_container (peers c) (attempts c) (syn_cookies c) (syn_cookies_per_ip c) (observed c ++ [e]) (disconnected c).
Definition disconnect (c : container) : container :=
  mk_container (peers c) (attempts c) (syn_cookies c) (syn_cookies_per_ip c) (observed c) (S (disconnected c)).

Definition max_peers_per_ip : Z := 10.
Definition protocol_version : Z := 0x10.
Definition protocol_version_min : Z := 0x0d.
Definition node_id_version : Z := 0x0c.
Definition protocol_version_reasonable_min : Z := 0x0d.

(** The node: its endpoint, its key, the network, and the check of a signature (an
    error is [true]). *)
Class PeerConfig := {
  self : endpoint; own_id : Z; is_live_network : bool; is_test_network : bool; online_weight_minimum : Z;
  validate_message : Z -> Z -> Z -> bool }.

(** What one call sees. *)
Class PeerEnv := {
  steady_now : Z;
  index_by : (peer_information -> Z) -> list peer_information -> list peer_information;
  index_perm (f : peer_information -> Z) (l : list peer_information) : index_by f l ≡ₚ l;
  index_sorted (f : peer_information -> Z) (l : list peer_information) :
    StronglySorted (fun p q => f p <= f q) (index_by f l);
  any_order {A : Type} : list A -> list A;
  any_perm {A : Type} (l : list A) : any_order l ≡ₚ l;
  random_word : nat -> Z -> Z;
  random_range (i : nat) (n : Z) : 0 <= n -> 0 <= random_word i n <= n;
  random_block : Z }.

Section Container.

Context `{PC : PeerConfig}.

(** ** Addresses *)

Definition between (a lo hi : Z) : bool := (lo <=? a) && (a <=? hi).
Definition between_v4 (a lo hi : Z) : bool := between a (v4_mapped lo) (v4_mapped hi).

Definition reserved (a : Z) (blacklist_loopback : bool) : bool :=
  between_v4 a 0x00000000 0x00ffffff || between_v4 a 0xc0000200 0xc00002ff || between_v4 a 0xc6336400 0xc63364ff ||
  between_v4 a 0xcb007100 0xcb0071ff || between_v4 a 0xe0000000 0xefffffff || between_v4 a 0xf0000000 0xffffffff ||
  between a 0x01000000000000000000000000000000 0x0100000000000000ffffffffffffffff ||
  between a 0x20010db8000000000000000000000000 0x20010db8ffffffffffffffffffffffff ||
  between a 0xff000000000000000000000000000000 0xff00ffffffffffffffffffffffffffff ||
  (blacklist_loopback && (a =? 1)) || (blacklist_loopback && between_v4 a 0x7f000000 0x7fffffff) ||
  (is_live_network &&
   (between_v4 a 0x0a000000 0x0affffff || between_v4 a 0xac100000 0xac1fffff || between_v4 a 0xc0a80000 0xc0a8ffff ||
    between_v4 a 0x64400000 0x647fffff ||
    between a 0xfc000000000000000000000000000000 0xfd00ffffffffffffffffffffffffffff)).

Definition reserved_address (e : endpoint) (blacklist_loopback : bool) : option bool :=
  match ep_address e with v6 a => Some (reserved a blacklist_loopback) | v4 _ => None end.

Definition not_a_peer (e : endpoint) (blacklist_loopback : bool) : option bool :=
  match ep_address e with
  | v4 _ => None
  | v6 a =>
      if a =? 0 then Some true
      else match reserved_address e blacklist_loopback with
           | Some true => Some true
           | Some false => Some (bool_decide (e = self))
           | None => None
           end
  end.

(** ** The peers *)

Definition find (e : endpoint) (l : list peer_information) : option peer_information :=
  List.find (fun p => bool_decide (pe_endpoint p = e)) l.

(** [modify] of the entry, where it is. *)
Definition modify (e : endpoint) (f : peer_information -> peer_information) (l : list peer_information) : list peer_information :=
  map (fun p => if bool_decide (pe_endpoint p = e) then f p else p) l.

Definition known_peer (e : endpoint) (c : container) : bool := present (find e (peers c)).

Definition ip_count (a : address) (l : list peer_information) : Z :=
  Z.of_nat (length (List.filter (fun p => bool_decide (ip_address p = a)) l)).

Definition peer_size (c : container) : Z := Z.of_nat (length (peers c)).
Definition size_sqrt (c : container) : Z := Z.sqrt_up (peer_size c).
Definition peer_empty (c : container) : bool := peer_size c =? 0.

Section WithEnv.

Context `{PE : PeerEnv}.

(** The constructor. *)
Definition new_peer (e : endpoint) (version : Z) (id : option Z) : peer_information :=
  mk_peer e (ep_address e) steady_now steady_now 0 0 0 0 0 version id.

Definition insert (e : endpoint) (version : Z) (preconfigured : bool) (id : option Z) (c : container) : option (bool * container) :=
  if negb (is_v6 e) then None
  else match (if preconfigured then Some false else not_a_peer e false) with
       | Some true => Some (true, c)
       | Some false =>
           if protocol_version_min <=? version then
             if known_peer e c
             then Some (true, with_peers c (modify e (fun p =>
                    let p := set_last_contact steady_now p in if present id then set_node_id id p else p) (peers c)))
             else if negb is_test_network && (max_peers_per_ip <=? ip_count (ep_address e) (peers c)) then Some (true, c)
             else Some (false, observe (with_peers c (peers c ++ [new_peer e version id])) e)
           else Some (false, c)
       | None => None
       end.

Definition contacted (e : endpoint) (version : Z) (c : container) : option (bool * container) :=
  let e' := map_endpoint_to_v6 e in
  if version <? node_id_version then option_map (fun r => (false, r.2)) (insert e' version false None c)
  else if negb (known_peer e' c) then Some (ip_count (ep_address e') (peers c) <? max_peers_per_ip, c)
  else Some (false, with_peers c (modify e (set_last_contact steady_now) (peers c))).

Definition rep_response (e : endpoint) (account weight : Z) (c : container) : option (bool * container) :=
  if negb (is_v6 e) then None
  else match find e (peers c) with
       | Some p =>
           let updated := rep_weight p <? weight in
           Some (updated, with_peers c (modify e (fun p =>
             let p := set_last_rep_response steady_now p in if updated then set_rep account weight p else p) (peers c)))
       | None => Some (false, c)
       end.

Definition rep_request (e : endpoint) (c : container) : container :=
  with_peers c (modify e (set_last_rep_request steady_now) (peers c)).

Definition attempted (e : endpoint) (l : list peer_attempt) : bool := existsb (fun x => bool_decide (at_endpoint x = e)) l.

Definition reachout (e : endpoint) (c : container) : option (bool * container) :=
  match not_a_peer e false with
  | Some true => Some (true, c)
  | Some false =>
      let e' := map_endpoint_to_v6 e in
      let tried := attempted e' (attempts c) in
      Some (known_peer e' c || tried,
            with_attempts c (if tried then attempts c else attempts c ++ [mk_attempt e' steady_now]))
  | None => None
  end.

(** What was heard from since the cutoff stays, and is returned as it was. *)
Definition purge_list (cutoff : Z) (c : container) : list peer_information * container :=
  let left_over := List.filter (fun p => cutoff <=? last_contact p) (peers c) in
  let result := List.filter (fun p => cutoff <=? last_contact p) (index_by last_contact (peers c)) in
  let c := with_attempts (with_peers c (map (set_last_attempt steady_now) left_over))
             (List.filter (fun x => cutoff <=? at_last_attempt x) (attempts c)) in
  (result, match result with [] => disconnect c | _ => c end).

(** The first peer in the order of the attempts that is recent enough. *)
Definition bootstrap_peer (c : container) : endpoint * container :=
  match List.find (fun p => protocol_version_reasonable_min <=? network_version p) (index_by last_bootstrap_attempt (peers c)) with
  | Some p => (pe_endpoint p, with_peers c (modify (pe_endpoint p) (set_last_bootstrap_attempt steady_now) (peers c)))
  | None => (no_endpoint, c)
  end.

(** ** Lists of peers *)

Definition peer_list (c : container) : list endpoint := any_order (map pe_endpoint (any_order (peers c))).

Definition list_vector (count : nat) (c : container) : list peer_information := take count (any_order (any_order (peers c))).

Definition add_new (e : endpoint) (l : list endpoint) : list endpoint := if bool_decide (e ∈ l) then l else l ++ [e].

(** The loop that draws; [i] is the number of draws so far. *)
Fixpoint draw (tries i : nat) (count : nat) (l : list peer_information) (result : list endpoint) : list endpoint :=
  match tries with
  | O => result
  | S tries' =>
      if (length result <? count)%nat then
        match nth_error l (Z.to_nat (random_word i (Z.of_nat (length l) - 1))) with
        | Some p => draw tries' (S i) count l (add_new (pe_endpoint p) result)
        | None => result
        end
      else result
  end.

Fixpoint fill (count : nat) (l : list peer_information) (result : list endpoint) : list endpoint :=
  match l with
  | p :: l' => if (length result <? count)%nat then fill count l' (add_new (pe_endpoint p) result) else result
  | [] => result
  end.

Definition random_set (count : nat) (c : container) : list endpoint :=
  let drawn := match peers c with [] => [] | _ => draw (count * 2) 0 count (peers c) [] end in
  any_order (fill count (index_by last_contact (peers c)) drawn).

Definition list_fanout (c : container) : list endpoint := random_set (Z.to_nat (size_sqrt c)) c.

(** The eight endpoints of a keepalive message. *)
Definition random_fill (c : container) : option (list endpoint) :=
  let l := random_set 8 c in
  if (length l <=? 8)%nat && forallb is_v6 l then Some (l ++ repeat no_endpoint (8 - length l)) else None.

Definition heaviest (c : container) : list peer_information := index_by (fun p => - rep_weight p) (peers c).

Definition representatives (count : nat) (c : container) : list peer_information :=
  take count (List.filter (fun p => negb (rep_weight p =? 0)) (heaviest c)).

(** The loop of [list_probable_rep_weights]; [seen] are the accounts so far. *)
Fixpoint probable_reps (seen : list Z) (l : list peer_information) : list peer_information :=
  match l with
  | [] => []
  | p :: l' =>
      if bool_decide (probable_rep_account p ∈ seen) then probable_reps seen l'
      else (if rep_weight p =? 0 then [] else [p]) ++ probable_reps (probable_rep_account p :: seen) l'
  end.

Definition list_probable_rep_weights (c : container) : list peer_information := probable_reps [] (heaviest c).

Definition total_weight (c : container) : Z :=
  fold_left (fun r p => u128 (r + rep_weight p)) (list_probable_rep_weights c) 0.

Definition rep_crawl (c : container) : list endpoint :=
  let max_count := if online_weight_minimum <? total_weight c then 10%nat else 40%nat in
  map pe_endpoint (take max_count (index_by last_rep_request (peers c))).

(** ** Cookies *)

Definition ip_cookies (a : address) (m : gmap address Z) : Z := default 0 (m !! a).

Definition assign_syn_cookie (e : endpoint) (c : container) : option (option Z * container) :=
  if negb (is_v6 e) then None
  else
    let n := ip_cookies (ep_address e) (syn_cookies_per_ip c) in
    Some (if (n <? max_peers_per_ip) && negb (present (syn_cookies c !! e))
          then (Some random_block, with_cookies c (<[e := mk_cookie random_block steady_now]> (syn_cookies c))
                  (<[ep_address e := u32 (n + 1)]> (syn_cookies_per_ip c)))
          else (None, with_cookies c (syn_cookies c) (<[ep_address e := n]> (syn_cookies_per_ip c)))).

(** One cookie less for the address. *)
Definition drop_cookie (e : endpoint) (c : container) : option container :=
  let n := ip_cookies (ep_address e) (syn_cookies_per_ip c) in
  if 0 <? n then Some (with_cookies c (delete e (syn_cookies c)) (<[ep_address e := n - 1]> (syn_cookies_per_ip c))) else None.

Definition validate_syn_cookie (e : endpoint) (id signature : Z) (c : container) : option (bool * container) :=
  if negb (is_v6 e) then None
  else match syn_cookies c !! e with
       | Some k => if negb (validate_message id (cookie k) signature)
                   then option_map (pair false) (drop_cookie e c) else Some (true, c)
       | None => Some (true, c)
       end.

Fixpoint purge_cookies (cutoff : Z) (l : list (endpoint * syn_cookie_info)) (c : container) : option container :=
  match l with
  | [] => Some c
  | (e, k) :: l' =>
      if created_at k <? cutoff
      then match drop_cookie e c with Some c => purge_cookies cutoff l' c | None => None end
      else purge_cookies cutoff l' c
  end.

Definition purge_syn_cookies (cutoff : Z) (c : container) : option container :=
  purge_cookies cutoff (any_order (map_to_list (syn_cookies c))) c.

End WithEnv.

(** ** Messages *)

Inductive out :=
| out_keepalive (e : endpoint) (known : list endpoint)
| out_handshake (e : endpoint) (query respond_to : option Z).

Section Handlers.

Context `{PE : PeerEnv}.

Definition send_keepalive (e : endpoint) (c : container) : option out :=
  if is_v6 e then option_map (out_keepalive e) (random_fill c) else None.

Definition send_node_id_handshake (e : endpoint) (query respond_to : option Z) : option out :=
  if is_v6 e then Some (out_handshake e query respond_to) else None.

Fixpoint merge_peers (l : list endpoint) (c : container) : option (container * list out) :=
  match l with
  | [] => Some (c, [])
  | e :: l' =>
      match reachout e c with
      | Some (error, c) =>
          match (if error : bool then Some [] else option_map (fun x => [x]) (send_keepalive e c)), merge_peers l' c with
          | Some o, Some (c, o') => Some (c, o ++ o')
          | _, _ => None
          end
      | None => None
      end
  end.

Definition on_keepalive (sender : endpoint) (version : Z) (l : list endpoint) (c : container) : option (container * list out) :=
  match contacted sender version c with
  | Some (handshake, c) =>
      let greeted :=
        if handshake : bool then
          let e := map_endpoint_to_v6 sender in
          match assign_syn_cookie e c with
          | Some (Some q, c) => option_map (fun o => (c, [o])) (send_node_id_handshake e (Some q) None)
          | Some (None, c) => Some (c, [])
          | None => None
          end
        else Some (c, []) in
      match greeted with
      | Some (c, o) => match merge_peers l c with Some (c, o') => Some (c, o ++ o') | None => None end
      | None => None
      end
  | None => None
  end.

(** [response] is the id of the sender and its signature of our cookie. *)
Definition on_node_id_handshake (sender : endpoint) (version : Z) (query : option Z) (response : option (Z * Z)) (c : container) :
    option (container * list out) :=
  let e := map_endpoint_to_v6 sender in
  let answered :=
    match response with
    | Some (id, signature) =>
        match validate_syn_cookie e id signature c with
        | Some (true, c) => Some (false, c)
        | Some (false, c) =>
            if negb (id =? own_id) then option_map (fun r => (true, r.2)) (insert e version false (Some id) c) else Some (true, c)
        | None => None
        end
    | None => Some (false, c)
    end in
  match answered with
  | Some (validated, c) =>
      match (if negb validated && negb (known_peer e c) then assign_syn_cookie e c else Some (None, c)) with
      | Some (out_query, c) =>
          if present out_query || present query
          then option_map (fun o => (c, [o])) (send_node_id_handshake sender out_query query) else Some (c, [])
      | None => None
      end
  | None => None
  end.

(** [node::keepalive], for one endpoint of the name that was resolved. *)
Definition keepalive (e : endpoint) (preconfigured : bool) (c : container) : option (container * list out) :=
  let e := map_endpoint_to_v6 e in
  match send_keepalive e c with
  | Some o =>
      if preconfigured
      then match insert e protocol_version true None c with Some (_, c) => Some (c, [o]) | None => None end
      else Some (c, [o])
  | None => None
  end.

(** ** Tasks, with times in milliseconds *)

Definition period : Z := if is_test_network then 1000 else 60000.
Definition cutoff : Z := period * 5.
Definition syn_cookie_cutoff : Z := 5000.

(** Keepalives to the peers that are left, up to the first that was tried lately. *)
Fixpoint keepalives (l : list peer_information) (c : container) : option (list out) :=
  match l with
  | p :: l' =>
      if period <? steady_now - last_attempt p then
        match send_keepalive (pe_endpoint p) c, keepalives l' c with
        | Some o, Some o' => Some (o :: o')
        | _, _ => None
        end
      else Some []
  | [] => Some []
  end.

Definition ongoing_keepalive (c : container) : option (container * list out) :=
  let (l, c) := purge_list (steady_now - cutoff) c in option_map (pair c) (keepalives l c).

Definition ongoing_syn_cookie_cleanup (c : container) : option container := purge_syn_cookies (steady_now - syn_cookie_cutoff) c.

(** The peers that are asked for votes. *)
Definition ongoing_rep_crawl (c : container) : container := fold_left (fun c e => rep_request e c) (rep_crawl c) c.

End Handlers.

(** ** Runs *)

Inductive op :=
| op_keepalive (sender : endpoint) (version : Z) (l : list endpoint)
| op_handshake (sender : endpoint) (version : Z) (query : option Z) (response : option (Z * Z))
| op_contact (sender : endpoint) (version : Z)         (* another message *)
| op_resolved (e : endpoint) (preconfigured : bool)
| op_initial (l : list endpoint)                       (* [add_initial_peers] *)
| op_vote (e : endpoint) (account weight : Z)          (* a vote that was asked for *)
| op_crawl
| op_bootstrap
| op_ongoing_keepalive
| op_cookie_cleanup.

Definition step (PE : PeerEnv) (c : container) (o : op) : option (container * list out) :=
  match o with
  | op_keepalive sender version l => on_keepalive sender version l c
  | op_handshake sender version query response => on_node_id_handshake sender version query response c
  | op_contact sender version => option_map (fun r => (r.2, [])) (contacted sender version c)
  | op_resolved e preconfigured => keepalive e preconfigured c
  | op_initial l => merge_peers l c
  | op_vote e account weight => option_map (fun r => (r.2, [])) (rep_response e account weight c)
  | op_crawl => Some (ongoing_rep_crawl c, [])
  | op_bootstrap => Some ((bootstrap_peer c).2, [])
  | op_ongoing_keepalive => ongoing_keepalive c
  | op_cookie_cleanup => option_map (fun c => (c, [])) (ongoing_syn_cookie_cleanup c)
  end.

Fixpoint run (c : container) (l : list (PeerEnv * op)) : option container :=
  match l with
  | [] => Some c
  | (PE, o) :: l' => match step PE c o with Some (c, _) => run c l' | None => None end
  end.

End Container.

End Peers.
