(* ===== verification/PeerTheorems.v ===== *)
(** * Peers: theorems

    The invariant of the container of [Peers] and its preservation by every message and
    task; who can become a peer; the samples and lists that are drawn from the peers; the
    rotation of the peers for bootstrapping. *)

From stdpp Require Import base gmap list sorting.
From Stdlib Require Import ZArith Lia.
From S2P Require Import Prelude Blocks Store Peers.
Local Open Scope Z_scope.

Module PeerTheorems.
Import Peers.Peers.

(** ** Lists *)

(** Where a peer is: what the bounds and the uniqueness are about. *)
Definition place (p : peer_information) : endpoint * address := (pe_endpoint p, ip_address p).

Definition keeps_place (f : peer_information -> peer_information) : Prop := forall p, place (f p) = place p.

Lemma modify_place (e : endpoint) (f : peer_information -> peer_information) (l : list peer_information) :
  keeps_place f -> map place (modify e f l) = map place l.
Proof.
  intros Hf. unfold modify. rewrite map_map. apply map_ext. intros p. now destruct (bool_decide _).
Qed.

Lemma endpoints_place (l : list peer_information) : map pe_endpoint l = map fst (map place l).
Proof. rewrite map_map. now apply map_ext. Qed.

Lemma ip_count_place (a : address) (l l' : list peer_information) : map place l = map place l' -> ip_count a l = ip_count a l'.
Proof.
  unfold ip_count. intros E. f_equal. revert l' E. induction l as [| p l IH]; intros [| q l'] E; try discriminate E; [done |].
  cbn in E. injection E as E1 E2 E. cbn. rewrite E2. destruct (bool_decide _); cbn; now rewrite (IH l' E).
Qed.

Lemma ip_count_app (a : address) (l l' : list peer_information) : ip_count a (l ++ l') = ip_count a l + ip_count a l'.
Proof. unfold ip_count. rewrite List.filter_app, length_app. lia. Qed.

Lemma ip_count_sublist (a : address) (l l' : list peer_information) : l `sublist_of` l' -> ip_count a l <= ip_count a l'.
Proof.
  unfold ip_count. intros S. apply Nat2Z.inj_le. induction S as [| p l l' _ IH | p l l' _ IH]; cbn; [done | |];
    destruct (bool_decide _); cbn; lia.
Qed.

Lemma filter_sublist {A : Type} (f : A -> bool) (l : list A) : List.filter f l `sublist_of` l.
Proof. induction l as [| x l IH]; cbn; [done |]. destruct (f x); now constructor. Qed.

Lemma find_known (e : endpoint) (l : list peer_information) : Store.present (find e l) = true <-> e ∈ map pe_endpoint l.
Proof.
  unfold find. split.
  - destruct (List.find _ l) as [p |] eqn:E; [| done]. intros _. apply List.find_some in E as [Hp Hb].
    apply bool_decide_eq_true in Hb as <-. apply list_elem_of_In, List.in_map, Hp.
  - intros (p & -> & Hp)%list_elem_of_fmap. destruct (List.find _ l) eqn:E; [done |].
    apply list_elem_of_In in Hp. apply (List.find_none _ _ E) in Hp. now rewrite bool_decide_eq_true_2 in Hp.
Qed.

Section Container.

Context `{PC : PeerConfig}.

(** *** Samples *)

Section Samples.

Context `{PE : PeerEnv}.

Lemma add_new_spec (e : endpoint) (l : list endpoint) : NoDup l -> NoDup (add_new e l) /\ (forall x, x ∈ add_new e l <-> x ∈ l \/ x = e) /\
  length (add_new e l) = (if bool_decide (e ∈ l) then length l else S (length l)).
Proof.
  intros N. unfold add_new. case_bool_decide as H.
  - split; [exact N |]. split; [| done]. intros x. split; [auto |]. now intros [? | ->].
  - split; [| split; [intros x; rewrite elem_of_app, list_elem_of_singleton; done | rewrite length_app; cbn; lia]].
    apply NoDup_app. split; [exact N |]. split; [| repeat constructor; apply not_elem_of_nil].
    intros x Hx ->%list_elem_of_singleton. now apply H.
Qed.

Definition sampled (count : nat) (l : list peer_information) (r : list endpoint) : Prop :=
  NoDup r /\ (length r <= count)%nat /\ r ⊆ map pe_endpoint l.

Lemma add_new_sampled (count : nat) (l : list peer_information) (p : peer_information) (r : list endpoint) :
  p ∈ l -> (length r < count)%nat -> sampled count l r -> sampled count l (add_new (pe_endpoint p) r).
Proof.
  intros Hp Hl (N & _ & S). destruct (add_new_spec (pe_endpoint p) r N) as (N' & E & L). split; [exact N' |].
  split; [rewrite L; destruct (bool_decide _); lia |]. intros x Hx%E. destruct Hx as [Hx | ->]; [auto |].
  apply list_elem_of_fmap. eauto.
Qed.

Lemma draw_sampled (count : nat) (l : list peer_information) (tries : nat) : forall i r,
  sampled count l r -> sampled count l (draw tries i count l r).
Proof.
  induction tries as [| tries IH]; intros i r Hr; cbn [draw]; [done |].
  destruct (Nat.ltb_spec (length r) count) as [L | L]; [| done].
  destruct (nth_error l _) as [p |] eqn:E; [| done]. apply IH, add_new_sampled; [| done | done].
  apply list_elem_of_In. exact (nth_error_In _ _ E).
Qed.

(** The second loop takes what the first left, up to the count. *)
Lemma fill_sampled (count : nat) (l : list peer_information) : forall l' r, (forall p, p ∈ l' -> p ∈ l) -> sampled count l r ->
  sampled count l (fill count l' r) /\
  ((length (fill count l' r) < count)%nat -> r ⊆ fill count l' r /\ forall p, p ∈ l' -> pe_endpoint p ∈ fill count l' r).
Proof.
  induction l' as [| p l' IH]; intros r Hl Hr; cbn [fill].
  - split; [exact Hr |]. intros _. split; [done |]. intros p Hp. now apply not_elem_of_nil in Hp.
  - destruct (Nat.ltb_spec (length r) count) as [L | L]; [| split; [exact Hr | lia]].
    assert (Hp : p ∈ l) by (apply Hl; now left).
    destruct (IH (add_new (pe_endpoint p) r)) as [S F]; [intros q Hq; apply Hl; now right | now apply add_new_sampled |].
    split; [exact S |]. intros L'. destruct (F L') as [F1 F2]. destruct (add_new_spec (pe_endpoint p) r (proj1 Hr)) as (_ & E & _).
    split; [intros x Hx; apply F1, E; now left |]. intros q [-> | Hq]%elem_of_cons; [apply F1, E; now right | auto].
Qed.

Lemma random_set_spec (count : nat) (c : container) : NoDup (map pe_endpoint (peers c)) ->
  NoDup (random_set count c) /\ random_set count c ⊆ map pe_endpoint (peers c) /\
  length (random_set count c) = Nat.min count (length (peers c)).
Proof.
  intros N. unfold random_set. set (drawn := match peers c with [] => [] | _ => _ end).
  assert (D : sampled count (peers c) drawn).
  { assert (Z : sampled count (peers c) []) by (split; [constructor | split; [cbn; lia | intros x Hx; now apply not_elem_of_nil in Hx]]).
    unfold drawn. destruct (peers c) eqn:E; [exact Z |]. rewrite <- E. rewrite <- E in Z. now apply draw_sampled. }
  destruct (fill_sampled count (peers c) (index_by last_contact (peers c)) drawn) as [(F1 & F2 & F3) F];
    [intros p; now rewrite index_perm | exact D |].
  set (r := fill _ _ _) in *. rewrite any_perm. split; [exact F1 |]. split; [exact F3 |].
  assert (L : (length r <= length (peers c))%nat).
  { rewrite <- (length_map pe_endpoint (peers c)). now apply submseteq_length, NoDup_submseteq. }
  destruct (Nat.lt_ge_cases (length r) count) as [Lt | Ge]; [| lia]. destruct (F Lt) as [_ G].
  enough (length (peers c) <= length r)%nat by lia. rewrite <- (length_map pe_endpoint (peers c)).
  apply submseteq_length, NoDup_submseteq; [exact N |]. intros x (p & -> & Hp)%list_elem_of_fmap. apply G. now rewrite index_perm.
Qed.

End Samples.

(** ** The invariant *)

(** Endpoints are unique and of version 6; off the test network an address has at most
    ten peers; a peer was preconfigured ([pre]) or may be a peer. *)
Record peers_ok (pre : list endpoint) (l : list peer_information) : Prop := {
  po_unique : NoDup (map pe_endpoint l);
  po_v6 : Forall (fun p => is_v6 p.1 = true /\ p.2 = ep_address p.1) (map place l);
  po_bound : is_test_network = false -> forall a, ip_count a l <= max_peers_per_ip;
  po_allowed (e : endpoint) : e ∈ map pe_endpoint l -> e ∈ pre \/ not_a_peer e false = Some false }.

Lemma peers_ok_place (pre : list endpoint) (l l' : list peer_information) : map place l' = map place l -> peers_ok pre l -> peers_ok pre l'.
Proof.
  intros E [H1 H2 H3 H4]. split; rewrite ?endpoints_place, ?E, <- ?endpoints_place; try assumption.
  intros Ht a. rewrite (ip_count_place a l' l E). auto.
Qed.

Lemma peers_ok_sub (pre : list endpoint) (l l' : list peer_information) : l' `sublist_of` l -> peers_ok pre l -> peers_ok pre l'.
Proof.
  intros S [H1 H2 H3 H4].
  assert (Se : map pe_endpoint l' `sublist_of` map pe_endpoint l) by now apply fmap_sublist.
  assert (Sp : map place l' `sublist_of` map place l) by now apply fmap_sublist.
  split.
  - exact (sublist_NoDup _ _ H1 Se).
  - rewrite Forall_forall in *. intros x Hx. apply H2. exact (elem_of_sublist _ _ _ Hx Sp).
  - intros Ht a. etrans; [exact (ip_count_sublist a _ _ S) | auto].
  - intros e He. apply H4. exact (elem_of_sublist _ _ _ He Se).
Qed.

Lemma peers_ok_pre (pre pre' : list endpoint) (l : list peer_information) : pre ⊆ pre' -> peers_ok pre l -> peers_ok pre' l.
Proof. intros S [H1 H2 H3 H4]. split; try assumption. intros e He. destruct (H4 e He); auto. Qed.

(** The counters of cookies are exact. *)
Definition cookies_at (a : address) (m : gmap endpoint syn_cookie_info) : Z :=
  Z.of_nat (base.size (filter (fun x : endpoint * syn_cookie_info => ep_address x.1 = a) m)).

Definition cookies_ok (c : container) : Prop :=
  forall a, ip_cookies a (syn_cookies_per_ip c) = cookies_at a (syn_cookies c) /\ cookies_at a (syn_cookies c) <= max_peers_per_ip.

Lemma cookies_insert (a : address) (e : endpoint) (k : syn_cookie_info) (m : gmap endpoint syn_cookie_info) : m !! e = None ->
  cookies_at a (<[e := k]> m) = cookies_at a m + (if decide (ep_address e = a) then 1 else 0).
Proof.
  intros E. unfold cookies_at. destruct (decide (ep_address e = a)) as [D | D].
  - rewrite map_filter_insert_True by done. rewrite map_size_insert_None; [lia |]. apply map_lookup_filter_None. now left.
  - rewrite map_filter_insert_False by done. rewrite delete_id by done. lia.
Qed.

Lemma cookies_delete (a : address) (e : endpoint) (k : syn_cookie_info) (m : gmap endpoint syn_cookie_info) : m !! e = Some k ->
  cookies_at a (delete e m) = cookies_at a m - (if decide (ep_address e = a) then 1 else 0).
Proof.
  intros E. rewrite <- (insert_delete_id m e k E) at 2. rewrite cookies_insert by apply lookup_delete_eq. lia.
Qed.

Lemma ip_cookies_insert (a b : address) (n : Z) (m : gmap address Z) :
  ip_cookies a (<[b := n]> m) = if decide (b = a) then n else ip_cookies a m.
Proof.
  unfold ip_cookies. destruct (decide (b = a)) as [-> | D]; [now rewrite lookup_insert_eq | now rewrite lookup_insert_ne].
Qed.

Lemma cookies_pos (a : address) (m : gmap endpoint syn_cookie_info) : 0 <= cookies_at a m.
Proof. unfold cookies_at. lia. Qed.

(** A cookie is dropped: its counter is positive. *)
Lemma drop_cookie_ok (e : endpoint) (k : syn_cookie_info) (c : container) : cookies_ok c -> syn_cookies c !! e = Some k ->
  exists c', drop_cookie e c = Some c' /\ cookies_ok c' /\ syn_cookies c' = delete e (syn_cookies c) /\
    peers c' = peers c /\ attempts c' = attempts c.
Proof.
  intros Hc E. unfold drop_cookie. destruct (Hc (ep_address e)) as [-> B].
  pose proof (cookies_delete (ep_address e) e k _ E) as D. rewrite decide_True in D by done.
  pose proof (cookies_pos (ep_address e) (delete e (syn_cookies c))).
  rewrite (proj2 (Z.ltb_lt 0 _)) by lia. eexists. split; [reflexivity |]. split; [| done]. intros a. cbn.
  rewrite ip_cookies_insert, (cookies_delete a e k _ E). destruct (Hc a) as [Ea Ba]. destruct (decide (ep_address e = a)) as [<- |]; lia.
Qed.

Section Steps.

Context `{PE : PeerEnv}.

Lemma assign_ok (e : endpoint) (c : container) : is_v6 e = true -> cookies_ok c -> exists q c', assign_syn_cookie e c = Some (q, c') /\
  cookies_ok c' /\ peers c' = peers c /\ attempts c' = attempts c /\
  match q with
  | Some q => syn_cookies c !! e = None /\ exists t, syn_cookies c' = <[e := mk_cookie q t]> (syn_cookies c)
  | None => syn_cookies c' = syn_cookies c
  end.
Proof.
  intros Hv Hc. unfold assign_syn_cookie. rewrite Hv. cbn [negb]. destruct (Hc (ep_address e)) as [En Bn].
  destruct (_ && _) eqn:Eb; (eexists _, _; split; [reflexivity |]).
  - apply andb_true_iff in Eb as [L E]. apply Z.ltb_lt in L. destruct (syn_cookies c !! e) eqn:Ee; [done |].
    split; [| cbn; split; [done | split; [done | split; [done | eauto]]]]. intros a. cbn. rewrite ip_cookies_insert, (cookies_insert a e _ _ Ee).
    pose proof (cookies_pos (ep_address e) (syn_cookies c)). unfold max_peers_per_ip in *. destruct (Hc a) as [Ea Ba].
    destruct (decide (ep_address e = a)) as [<- |]; [rewrite u32_small by lia; lia | unfold max_peers_per_ip in *; lia].
  - split; [| done]. intros a. cbn. rewrite ip_cookies_insert. destruct (decide _) as [<- |]; [split; [exact En | exact Bn] | apply Hc].
Qed.

Lemma purge_cookies_ok (t : Z) (l : list (endpoint * syn_cookie_info)) : forall c, NoDup l.*1 ->
  (forall e k, (e, k) ∈ l -> syn_cookies c !! e = Some k) -> cookies_ok c ->
  exists c', purge_cookies t l c = Some c' /\ cookies_ok c' /\ syn_cookies c' ⊆ syn_cookies c /\
    peers c' = peers c /\ attempts c' = attempts c.
Proof.
  induction l as [| [e k] l IH]; intros c N Hl Hc; cbn [purge_cookies]; [now exists c |]. cbn in N. apply NoDup_cons in N as [Ne N].
  destruct (_ <? _).
  - destruct (drop_cookie_ok e k c Hc (Hl e k ltac:(now left))) as (c1 & -> & Hc1 & E1 & P1 & A1).
    destruct (IH c1 N) as (c2 & -> & Hc2 & S2 & P2 & A2); [| exact Hc1 |].
    + intros e' k' H'. rewrite E1, lookup_delete_ne; [apply Hl; now right |]. intros ->. apply Ne. apply list_elem_of_fmap. now exists (e', k').
    + exists c2. split; [done |]. split; [exact Hc2 |]. split; [etrans; [exact S2 | rewrite E1; apply delete_subseteq] | split; congruence].
  - apply IH; [exact N | | exact Hc]. intros e' k' H'. apply Hl. now right.
Qed.

(** *** Peers *)

(** Who a peer claims to be. *)
Definition identity (p : peer_information) : endpoint * option Z := (pe_endpoint p, node_id p).

Lemma modify_identity (e : endpoint) (f : peer_information -> peer_information) (l : list peer_information) :
  (forall p, identity (f p) = identity p) -> map identity (modify e f l) = map identity l.
Proof. intros Hf. unfold modify. rewrite map_map. apply map_ext. intros p. now destruct (bool_decide _). Qed.

Lemma not_a_peer_v6 (e : endpoint) : is_v6 e = true -> exists r, not_a_peer e false = Some r.
Proof.
  unfold is_v6, not_a_peer, reserved_address. destruct (ep_address e) as [a | a]; [done |]. intros _.
  destruct (a =? 0); [eauto |]. destruct (reserved a false); eauto.
Qed.

(** A new peer is unique, and its address has room. *)
Lemma peers_ok_new (pre : list endpoint) (l : list peer_information) (e : endpoint) (v : Z) (id : option Z) :
  is_v6 e = true -> e ∉ map pe_endpoint l -> (is_test_network = false -> ip_count (ep_address e) l < max_peers_per_ip) ->
  e ∈ pre \/ not_a_peer e false = Some false -> peers_ok pre l -> peers_ok pre (l ++ [new_peer e v id]).
Proof.
  intros Hv Hn Hb Ha [H1 H2 H3 H4]. split.
  - rewrite map_app. apply NoDup_app. split; [exact H1 |]. split; [| repeat constructor; apply not_elem_of_nil].
    intros x Hx ->%list_elem_of_singleton. now apply Hn.
  - rewrite map_app. apply Forall_app. split; [exact H2 | now repeat constructor].
  - intros Ht a. rewrite ip_count_app. specialize (H3 Ht a). specialize (Hb Ht). unfold ip_count at 2. cbn.
    destruct (bool_decide_reflect (ep_address e = a)) as [<- |]; cbn; lia.
  - intros x. rewrite map_app, elem_of_app. cbn. rewrite list_elem_of_singleton. intros [Hx | ->]; auto.
Qed.

Lemma peer_insert_ok (pre : list endpoint) (e : endpoint) (v : Z) (b : bool) (id : option Z) (c : container) : is_v6 e = true ->
  (b = true -> e ∈ pre) -> peers_ok pre (peers c) -> exists r c', insert e v b id c = Some (r, c') /\
    peers_ok pre (peers c') /\ attempts c' = attempts c /\ syn_cookies c' = syn_cookies c /\
    syn_cookies_per_ip c' = syn_cookies_per_ip c /\
    (map identity (peers c') ⊆ map identity (peers c) \/
     protocol_version_min <= v /\ map identity (peers c') ⊆ (e, id) :: map identity (peers c)).
Proof.
  intros Hv Hb Hp. unfold insert. rewrite Hv. cbn [negb].
  assert (Hx : exists x, (if b then Some false else not_a_peer e false) = Some x /\ (x = false -> e ∈ pre \/ not_a_peer e false = Some false)).
  { destruct b; [eauto |]. destruct (not_a_peer_v6 e Hv) as [x Ex]. rewrite Ex. exists x. split; [done |]. intros ->. now right. }
  destruct Hx as (x & -> & Ha). destruct x.
  { eexists _, _. split; [reflexivity |]. split; [exact Hp |]. repeat (split; [done |]). now left. }
  destruct (Z.leb_spec protocol_version_min v) as [Lv | Lv];
    [| eexists _, _; split; [reflexivity |]; split; [exact Hp |]; repeat (split; [done |]); now left].
  destruct (known_peer e c) eqn:Ek.
  - eexists _, _. split; [reflexivity |]. split; [apply (peers_ok_place pre (peers c)); [apply modify_place; intros p; now destruct (Store.present id) | exact Hp] |].
    repeat (split; [done |]). right. split; [exact Lv |]. cbn. intros x (p & -> & Hx)%list_elem_of_fmap.
    apply list_elem_of_fmap in Hx as (q & -> & Hq). case_bool_decide as De; [| right; now apply list_elem_of_fmap; exists q].
    destruct id as [i |]; cbn; [apply elem_of_cons; left; unfold identity; cbn; now rewrite De | right; apply list_elem_of_fmap; now exists q].
  - assert (Hn : e ∉ map pe_endpoint (peers c)) by (intros He; apply find_known in He; unfold known_peer in Ek; congruence).
    destruct (negb is_test_network && _) eqn:Ec.
    { eexists _, _. split; [reflexivity |]. split; [exact Hp |]. repeat (split; [done |]). now left. }
    eexists _, _. split; [reflexivity |]. split.
    + apply peers_ok_new; auto. intros Ht. rewrite Ht in Ec. apply Z.leb_gt in Ec. exact Ec.
    + repeat (split; [done |]). right. split; [exact Lv |]. cbn. rewrite map_app. intros x [Hx | Hx%list_elem_of_singleton]%elem_of_app; [now right |].
      subst x. now left.
Qed.

(** Peers change in nothing that matters. *)
Record same_peers (c c' : container) : Prop := {
  sp_place : map place (peers c') = map place (peers c);
  sp_identity : map identity (peers c') = map identity (peers c) }.

Lemma modify_same (e : endpoint) (f : peer_information -> peer_information) (c : container) : keeps_place f ->
  (forall p, identity (f p) = identity p) -> same_peers c (with_peers c (modify e f (peers c))).
Proof. intros H1 H2. split; cbn; [now apply modify_place | now apply modify_identity]. Qed.

Lemma map_v6 (e : endpoint) : is_v6 (map_endpoint_to_v6 e) = true.
Proof. unfold is_v6, map_endpoint_to_v6. destruct e as [[] ]; done. Qed.

(** Contact never makes a peer: a version that is too old for a handshake is too old for
    a peer. *)
Lemma contacted_ok (pre : list endpoint) (e : endpoint) (v : Z) (c : container) : peers_ok pre (peers c) -> exists r c',
  contacted e v c = Some (r, c') /\ same_peers c c' /\ attempts c' = attempts c /\ syn_cookies c' = syn_cookies c /\
  syn_cookies_per_ip c' = syn_cookies_per_ip c.
Proof.
  intros Hp. unfold contacted. destruct (Z.ltb_spec v node_id_version) as [L | L].
  - unfold insert. rewrite map_v6. cbn [negb]. destruct (not_a_peer_v6 _ (map_v6 e)) as [r ->].
    rewrite (proj2 (Z.leb_gt protocol_version_min v)) by (unfold node_id_version, protocol_version_min in *; lia).
    destruct r; (eexists _, _; split; [reflexivity |]; done).
  - destruct (negb (known_peer _ c)); [eexists _, _; split; [reflexivity | done] |]. eexists _, _. split; [reflexivity |].
    split; [apply modify_same; done | done].
Qed.

Lemma reachout_ok (e : endpoint) (c : container) : is_v6 e = true -> NoDup (map at_endpoint (attempts c)) -> exists r c',
  reachout e c = Some (r, c') /\ NoDup (map at_endpoint (attempts c')) /\ peers c' = peers c /\ syn_cookies c' = syn_cookies c /\
  syn_cookies_per_ip c' = syn_cookies_per_ip c.
Proof.
  intros Hv N. unfold reachout. destruct (not_a_peer_v6 e Hv) as [r ->]. destruct r; [eexists _, _; split; [reflexivity | done] |].
  eexists _, _. split; [reflexivity |]. split; [| done]. cbn. destruct (attempted _ _) eqn:Ea; [exact N |].
  rewrite map_app. apply NoDup_app. split; [exact N |]. split; [| repeat constructor; apply not_elem_of_nil].
  intros x Hx ->%list_elem_of_singleton. apply not_true_iff_false in Ea. apply Ea. apply existsb_exists.
  apply list_elem_of_fmap in Hx as (y & Ey & Hy). exists y. split; [now apply list_elem_of_In | now rewrite bool_decide_eq_true_2].
Qed.

(** A keepalive can be written: its endpoints are peers, and at most eight. *)
Lemma send_keepalive_ok (pre : list endpoint) (e : endpoint) (c : container) : is_v6 e = true -> peers_ok pre (peers c) ->
  exists l, send_keepalive e c = Some (out_keepalive e l).
Proof.
  intros Hv [H1 H2 _ _]. unfold send_keepalive, random_fill. rewrite Hv. destruct (random_set_spec 8 c H1) as (_ & S & L).
  rewrite (proj2 (Nat.leb_le _ 8)) by (rewrite L; lia). cbn [andb].
  replace (forallb is_v6 (random_set 8 c)) with true; [eexists; reflexivity |]. symmetry. apply forallb_forall.
  intros x Hx%list_elem_of_In%S. rewrite endpoints_place in Hx. apply list_elem_of_fmap in Hx as (y & -> & Hy).
  rewrite Forall_forall in H2. now apply H2.
Qed.

Lemma merge_ok (pre : list endpoint) (l : list endpoint) : Forall (fun e => is_v6 e = true) l -> forall c, peers_ok pre (peers c) ->
  NoDup (map at_endpoint (attempts c)) -> exists c' o, merge_peers l c = Some (c', o) /\ NoDup (map at_endpoint (attempts c')) /\
  peers c' = peers c /\ syn_cookies c' = syn_cookies c /\ syn_cookies_per_ip c' = syn_cookies_per_ip c.
Proof.
  induction 1 as [| e l He _ IH]; intros c Hp N; cbn [merge_peers]; [eexists _, _; split; [reflexivity | done] |].
  destruct (reachout_ok e c He N) as (r & c1 & -> & N1 & P1 & C1 & I1).
  assert (Ho : exists o, (if r then Some [] else option_map (fun x => [x]) (send_keepalive e c1)) = Some o).
  { destruct r; [eauto |]. destruct (send_keepalive_ok pre e c1 He) as [x ->]; [now rewrite P1 | cbn; eauto]. }
  destruct Ho as [o ->]. destruct (IH c1) as (c2 & o2 & -> & N2 & P2 & C2 & I2); [now rewrite P1 | exact N1 |].
  eexists _, _. split; [reflexivity |]. split; [exact N2 |]. split; [congruence | split; congruence].
Qed.

Lemma keepalives_ok (pre : list endpoint) (c : container) (l : list peer_information) : peers_ok pre (peers c) ->
  Forall (fun p => is_v6 (pe_endpoint p) = true) l -> exists o, keepalives l c = Some o.
Proof.
  intros Hp. induction 1 as [| p l Hv _ [o IH]]; cbn [keepalives]; [eauto |]. destruct (_ <? _); [| eauto].
  destruct (send_keepalive_ok pre _ c Hv Hp) as [x ->]. rewrite IH. eauto.
Qed.

Lemma purge_list_ok (pre : list endpoint) (t : Z) (c : container) : peers_ok pre (peers c) -> NoDup (map at_endpoint (attempts c)) ->
  let c' := (purge_list t c).2 in
  peers_ok pre (peers c') /\ NoDup (map at_endpoint (attempts c')) /\ map identity (peers c') ⊆ map identity (peers c) /\
  syn_cookies c' = syn_cookies c /\ syn_cookies_per_ip c' = syn_cookies_per_ip c /\
  Forall (fun p => is_v6 (pe_endpoint p) = true) (purge_list t c).1.
Proof.
  intros Hp N. unfold purge_list. set (l := List.filter _ (peers c)). set (r := List.filter _ (index_by _ _)).
  assert (Sl : l `sublist_of` peers c) by apply filter_sublist.
  assert (K : peers_ok pre (map (set_last_attempt steady_now) l)).
  { apply (peers_ok_place pre l); [rewrite map_map; now apply map_ext | exact (peers_ok_sub _ _ _ Sl Hp)]. }
  assert (A : NoDup (map at_endpoint (List.filter (fun x => t <=? at_last_attempt x) (attempts c)))).
  { apply (sublist_NoDup _ (map at_endpoint (attempts c))); [exact N | apply fmap_sublist, filter_sublist]. }
  assert (I : map identity (map (set_last_attempt steady_now) l) ⊆ map identity (peers c)).
  { rewrite map_map. intros x (p & -> & Hx)%list_elem_of_fmap. apply list_elem_of_fmap. exists p. split; [done | exact (elem_of_sublist _ _ _ Hx Sl)]. }
  assert (V : Forall (fun p => is_v6 (pe_endpoint p) = true) r).
  { apply Forall_forall. intros p Hx. unfold r in Hx. apply list_elem_of_In, filter_In in Hx as [Hx _]. apply list_elem_of_In in Hx. rewrite index_perm in Hx.
    pose proof (po_v6 _ _ Hp) as F. rewrite Forall_forall in F. apply (F (place p)). now apply list_elem_of_fmap; exists p. }
  cbv zeta. destruct r eqn:Er; cbn; split_and!; try done.
Qed.

End Steps.

(** ** Handshakes *)

(** A cookie was sent to an endpoint; the endpoint answered it with a signature of an id. *)
Inductive fact := issued (e : endpoint) (q : Z) | proved (e : endpoint) (id q signature : Z).

Definition fresh (e : endpoint) (c c' : container) : list fact :=
  match syn_cookies c !! e, syn_cookies c' !! e with None, Some k => [issued e (cookie k)] | _, _ => [] end.

Definition facts (c : container) (o : op) (c' : container) : list fact :=
  match o with
  | op_handshake sender _ _ response =>
      let e := map_endpoint_to_v6 sender in
      match response, syn_cookies c !! e with
      | Some (id, signature), Some k =>
          if validate_message id (cookie k) signature then [] else [proved e id (cookie k) signature]
      | _, _ => []
      end ++ fresh e c c'
  | op_keepalive sender _ _ => fresh (map_endpoint_to_v6 sender) c c'
  | _ => []
  end.

(** The cookie was sent, and is not answered yet. *)
Definition outstanding (log : list fact) (e : endpoint) (q : Z) : Prop :=
  exists l0 l1, log = l0 ++ issued e q :: l1 /\ forall id q' s, proved e id q' s ∉ l1.

(** Every answer is one of an outstanding cookie of the same endpoint. *)
Definition justified (log : list fact) : Prop :=
  forall l0 e id q s l1, log = l0 ++ proved e id q s :: l1 -> outstanding l0 e q /\ validate_message id q s = false.

Definition answers (log : list fact) (e : endpoint) (id : Z) : Prop := exists q s, proved e id q s ∈ log.

Lemma outstanding_app (log l : list fact) (e : endpoint) (q : Z) : (forall id q' s, proved e id q' s ∉ l) ->
  outstanding log e q -> outstanding (log ++ l) e q.
Proof.
  intros Hl (l0 & l1 & -> & H). exists l0, (l1 ++ l). split; [now rewrite <- app_assoc |]. intros id q' s [Hx | Hx]%elem_of_app;
    [exact (H _ _ _ Hx) | exact (Hl _ _ _ Hx)].
Qed.

Lemma justified_snoc (log : list fact) (f : fact) : justified log ->
  match f with proved e id q s => outstanding log e q /\ validate_message id q s = false | issued _ _ => True end ->
  justified (log ++ [f]).
Proof.
  intros Hj Hf l0 e id q s l1 E. destruct l1 as [| x l1 _] using rev_ind.
  - apply app_inj_tail in E as [<- ->]. exact Hf.
  - rewrite app_comm_cons, app_assoc in E. apply app_inj_tail in E as [E _]. exact (Hj _ _ _ _ _ _ E).
Qed.

(** The container, after the facts of [log], with the preconfigured peers [pre]. *)
Record peer_inv (pre : list endpoint) (log : list fact) (c : container) : Prop := {
  pv_peers : peers_ok pre (peers c);
  pv_attempts : NoDup (map at_endpoint (attempts c));
  pv_cookies : cookies_ok c;
  pv_outstanding (e : endpoint) (k : syn_cookie_info) : syn_cookies c !! e = Some k -> outstanding log e (cookie k);
  pv_justified : justified log;
  pv_member (e : endpoint) (n : option Z) : (e, n) ∈ map identity (peers c) -> e ∈ pre \/ exists id, answers log e id;
  pv_identity (e : endpoint) (id : Z) : (e, Some id) ∈ map identity (peers c) -> answers log e id }.

(** Nothing new: the cookies and the identities are among the old ones. *)
Lemma peer_inv_less (pre pre' : list endpoint) (log : list fact) (c c' : container) : peer_inv pre log c -> pre ⊆ pre' ->
  peers_ok pre' (peers c') -> NoDup (map at_endpoint (attempts c')) -> cookies_ok c' -> syn_cookies c' ⊆ syn_cookies c ->
  (forall x, x ∈ map identity (peers c') -> x ∈ map identity (peers c) \/ x.2 = None /\ x.1 ∈ pre') -> peer_inv pre' log c'.
Proof.
  intros [H1 H2 H3 H4 H5 H6 H7] Hpre Hp Ha Hc Hs Hi. split; try assumption.
  - intros e k E. apply H4. exact (lookup_weaken _ _ _ _ E Hs).
  - intros e n Hx. destruct (Hi _ Hx) as [Hx' | [_ Hx']]; [| now left]. destruct (H6 e n Hx'); auto.
  - intros e id Hx. destruct (Hi _ Hx) as [Hx' | [Hx' _]]; [exact (H7 _ _ Hx') | done].
Qed.

Lemma cookies_same (c c' : container) : syn_cookies c' = syn_cookies c -> syn_cookies_per_ip c' = syn_cookies_per_ip c -> cookies_ok c -> cookies_ok c'.
Proof. intros E1 E2 H a. rewrite E1, E2. apply H. Qed.

Lemma peer_inv_same (pre : list endpoint) (log : list fact) (c c' : container) : peer_inv pre log c -> same_peers c c' ->
  NoDup (map at_endpoint (attempts c')) -> syn_cookies c' = syn_cookies c -> syn_cookies_per_ip c' = syn_cookies_per_ip c -> peer_inv pre log c'.
Proof.
  intros H [S1 S2] Ha E1 E2. apply (peer_inv_less pre pre log c); [exact H | done | | exact Ha | | now rewrite E1 | intros x; rewrite S2; auto].
  - exact (peers_ok_place _ _ _ S1 (pv_peers _ _ _ H)).
  - exact (cookies_same _ _ E1 E2 (pv_cookies _ _ _ H)).
Qed.

(** A cookie is sent. *)
Lemma peer_inv_issued (pre : list endpoint) (log : list fact) (c c' : container) (e : endpoint) (q t : Z) : peer_inv pre log c ->
  cookies_ok c' -> peers c' = peers c -> attempts c' = attempts c -> syn_cookies c' = <[e := mk_cookie q t]> (syn_cookies c) ->
  peer_inv pre (log ++ [issued e q]) c'.
Proof.
  intros [H1 H2 H3 H4 H5 H6 H7] Hc Ep Ea Es. unfold answers in *.
  assert (N : forall x id q' s, proved x id q' s ∉ [issued e q]) by (intros x id q' s Hx; now apply list_elem_of_singleton in Hx).
  split; rewrite ?Ep, ?Ea; try assumption.
  - intros x k. rewrite Es. destruct (decide (x = e)) as [-> | D].
    + rewrite lookup_insert_eq. intros [= <-]. exists log, []. split; [done |]. intros id q' s. apply not_elem_of_nil.
    + rewrite lookup_insert_ne by done. intros E. now apply outstanding_app, H4.
  - now apply justified_snoc.
  - intros x n Hx. destruct (H6 x n Hx) as [? | (id & q' & s & Hx')]; [auto |]. right. exists id, q', s. apply elem_of_app. now left.
  - intros x id Hx. destruct (H7 x id Hx) as (q' & s & Hx'). exists q', s. apply elem_of_app. now left.
Qed.

(** A cookie is answered; then the endpoint may be a peer of that id. *)
Lemma peer_inv_proved (pre : list endpoint) (log : list fact) (c c' : container) (e : endpoint) (k : syn_cookie_info) (id s : Z) :
  peer_inv pre log c -> syn_cookies c !! e = Some k -> validate_message id (cookie k) s = false -> cookies_ok c' ->
  syn_cookies c' = delete e (syn_cookies c) -> attempts c' = attempts c -> peers_ok pre (peers c') ->
  map identity (peers c') ⊆ (e, Some id) :: map identity (peers c) -> peer_inv pre (log ++ [proved e id (cookie k) s]) c'.
Proof.
  intros [H1 H2 H3 H4 H5 H6 H7] Ek Hv Hc Es Ea Hp Hi. unfold answers in *.
  assert (Hl : proved e id (cookie k) s ∈ log ++ [proved e id (cookie k) s]) by (apply elem_of_app; right; now left).
  split; rewrite ?Ea; try assumption.
  - intros x k'. rewrite Es. intros [D E]%lookup_delete_Some. apply outstanding_app; [| auto].
    intros id' q' s' Hx%list_elem_of_singleton. congruence.
  - apply justified_snoc; auto.
  - intros x n Hx%Hi. apply elem_of_cons in Hx as [[= -> ->] | Hx]; [right; now exists id, (cookie k), s |].
    destruct (H6 x n Hx) as [? | (id' & q' & s' & Hx')]; [auto |]. right. exists id', q', s'. apply elem_of_app. now left.
  - intros x id' Hx%Hi. apply elem_of_cons in Hx as [[= -> ->] | Hx]; [now exists (cookie k), s |].
    destruct (H7 x id' Hx) as (q' & s' & Hx'). exists q', s'. apply elem_of_app. now left.
Qed.

Section Messages.

Context `{PE : PeerEnv}.

(** A cookie is sent or not; [fresh] tells. *)
Lemma assign_inv (pre : list endpoint) (log : list fact) (e : endpoint) (c : container) : is_v6 e = true -> peer_inv pre log c ->
  exists q c', assign_syn_cookie e c = Some (q, c') /\ peer_inv pre (log ++ fresh e c c') c'.
Proof.
  intros Hv H. destruct (assign_ok e c Hv (pv_cookies _ _ _ H)) as (q & c' & E & Hc & Ep & Ea & Hq). exists q, c'. split; [exact E |].
  unfold fresh. destruct q as [q |].
  - destruct Hq as (En & t & Es). rewrite En, Es, lookup_insert_eq. cbn [cookie]. now apply (peer_inv_issued pre log c c' e q t).
  - rewrite Hq. replace (match syn_cookies c !! e with Some _ => _ | None => _ end) with (@nil fact) by (now destruct (syn_cookies c !! e)).
    rewrite app_nil_r. apply (peer_inv_less pre pre log c); rewrite ?Ep, ?Ea, ?Hq; try done; try apply H. intros x; auto.
Qed.

Lemma no_fresh (e : endpoint) (c c' : container) : syn_cookies c' ⊆ syn_cookies c -> fresh e c c' = [].
Proof.
  intros S. unfold fresh. destruct (syn_cookies c !! e) eqn:E; [done |]. destruct (syn_cookies c' !! e) eqn:E'; [| done].
  rewrite (lookup_weaken _ _ _ _ E' S) in E. done.
Qed.

Lemma fresh_eq (e : endpoint) (c1 c2 c1' c2' : container) : syn_cookies c1 = syn_cookies c1' -> syn_cookies c2 = syn_cookies c2' ->
  fresh e c1 c2 = fresh e c1' c2'.
Proof. unfold fresh. now intros -> ->. Qed.

Lemma on_keepalive_inv (pre : list endpoint) (log : list fact) (sender : endpoint) (v : Z) (l : list endpoint) (c : container) :
  Forall (fun e => is_v6 e = true) l -> peer_inv pre log c ->
  exists c' o, on_keepalive sender v l c = Some (c', o) /\ peer_inv pre (log ++ fresh (map_endpoint_to_v6 sender) c c') c'.
Proof.
  intros Hl H. unfold on_keepalive. set (e := map_endpoint_to_v6 sender).
  destruct (contacted_ok pre sender v c (pv_peers _ _ _ H)) as (r & c1 & -> & S1 & A1 & C1 & I1).
  assert (H1 : peer_inv pre log c1) by (apply (peer_inv_same _ _ c); [done | done | rewrite A1; apply H | done | done]).
  assert (G : exists c2 o, (if r then match assign_syn_cookie e c1 with
      | Some (Some q, c) => option_map (fun o => (c, [o])) (send_node_id_handshake e (Some q) None)
      | Some (None, c) => Some (c, []) | None => None end else Some (c1, [])) = Some (c2, o) /\ peer_inv pre (log ++ fresh e c1 c2) c2).
  { destruct r; [| exists c1, []; split; [done |]; rewrite no_fresh, app_nil_r; done].
    destruct (assign_inv pre log e c1 (map_v6 sender) H1) as (q & c2 & -> & H2). exists c2. unfold send_node_id_handshake.
    unfold e. rewrite map_v6. destruct q; cbn; eauto. }
  destruct G as (c2 & o & -> & H2).
  destruct (merge_ok pre l Hl c2 (pv_peers _ _ _ H2) (pv_attempts _ _ _ H2)) as (c3 & o3 & -> & N3 & P3 & C3 & I3).
  eexists _, _. split; [reflexivity |]. rewrite (fresh_eq e c c3 c1 c2) by congruence.
  apply (peer_inv_same _ _ c2); [exact H2 | split; now rewrite P3 | exact N3 | exact C3 | exact I3].
Qed.

(** The answer of a handshake: the cookie of the endpoint is used up, or nothing happens. *)
Lemma answer_inv (pre : list endpoint) (log : list fact) (e : endpoint) (v id s : Z) (c : container) : is_v6 e = true -> peer_inv pre log c ->
  exists b c', match validate_syn_cookie e id s c with
      | Some (true, c) => Some (false, c)
      | Some (false, c) => if negb (id =? own_id) then option_map (fun r => (true, r.2)) (insert e v false (Some id) c) else Some (true, c)
      | None => None
      end = Some (b, c') /\
    match syn_cookies c !! e with
    | Some k => if validate_message id (cookie k) s then b = false /\ c' = c
                else b = true /\ peer_inv pre (log ++ [proved e id (cookie k) s]) c' /\ syn_cookies c' ⊆ syn_cookies c
    | None => b = false /\ c' = c
    end.
Proof.
  intros Hv H. unfold validate_syn_cookie. rewrite Hv. cbn [negb]. destruct (syn_cookies c !! e) as [k |] eqn:Ek; [| eauto].
  destruct (validate_message id (cookie k) s) eqn:Es; cbn [negb]; [eauto |].
  destruct (drop_cookie_ok e k c (pv_cookies _ _ _ H) Ek) as (c1 & -> & Hc1 & E1 & P1 & A1). cbn [option_map].
  assert (Sb : syn_cookies c1 ⊆ syn_cookies c) by (rewrite E1; apply delete_subseteq).
  assert (Hp1 : peers_ok pre (peers c1)) by (rewrite P1; apply H).
  destruct (negb (id =? own_id)).
  - destruct (peer_insert_ok pre e v false (Some id) c1 Hv ltac:(done) Hp1) as (r & c2 & -> & Hp2 & A2 & C2 & I2 & Id). cbn.
    eexists _, _. split; [reflexivity |]. split; [done |]. split; [| now rewrite C2].
    apply (peer_inv_proved pre log c); try done; try congruence; [exact (cookies_same c1 c2 C2 I2 Hc1) |].
    rewrite <- P1. destruct Id as [Id | [_ Id]]; [| exact Id]. intros x Hx. right. now apply Id.
  - eexists _, _. split; [reflexivity |]. split; [done |]. split; [| exact Sb].
    apply (peer_inv_proved pre log c); try done. rewrite P1. intros x Hx. now right.
Qed.

Lemma on_handshake_inv (pre : list endpoint) (log : list fact) (sender : endpoint) (v : Z) (query : option Z) (response : option (Z * Z))
    (c : container) : is_v6 sender = true -> peer_inv pre log c ->
  exists c' o, on_node_id_handshake sender v query response c = Some (c', o) /\
    peer_inv pre (log ++ facts c (op_handshake sender v query response) c') c'.
Proof.
  intros Hv H. unfold on_node_id_handshake. cbn [facts]. set (e := map_endpoint_to_v6 sender).
  assert (He : is_v6 e = true) by apply map_v6.
  set (answered := match response with Some _ => _ | None => Some (false, c) end).
  assert (G : exists b c1, answered = Some (b, c1) /\ peer_inv pre (log ++ match response, syn_cookies c !! e with
      | Some (id, s), Some k => if validate_message id (cookie k) s then [] else [proved e id (cookie k) s] | _, _ => [] end) c1 /\
    (if b then syn_cookies c1 ⊆ syn_cookies c else c1 = c)).
  { unfold answered. destruct response as [[id s] |]; [| exists false, c; rewrite app_nil_r; done].
    destruct (answer_inv pre log e v id s c He H) as (b & c1 & -> & Hx). exists b, c1. split; [done |].
    destruct (syn_cookies c !! e) as [k |]; [destruct (validate_message id (cookie k) s) |].
    - destruct Hx as [-> ->]. rewrite app_nil_r. done.
    - now destruct Hx as (-> & Hx & ?).
    - destruct Hx as [-> ->]. rewrite app_nil_r. done. }
  destruct G as (b & c1 & -> & H1 & Hb). set (l := match response with Some _ => _ | None => _ end) in *. clearbody l.
  assert (G : exists q c2, (if negb b && negb (known_peer e c1) then assign_syn_cookie e c1 else Some (None, c1)) = Some (q, c2) /\
    peer_inv pre (log ++ l ++ fresh e c c2) c2).
  { destruct b; cbn [negb andb]; [exists None, c1; split; [done |]; rewrite (no_fresh _ _ _ Hb), app_nil_r; exact H1 |].
    subst c1. destruct (known_peer e c); cbn [negb]; [exists None, c; split; [done |]; rewrite (no_fresh e c c), app_nil_r; done |].
    destruct (assign_inv pre (log ++ l) e c He H1) as (q & c2 & E & H2). exists q, c2. now rewrite app_assoc. }
  destruct G as (q & c2 & -> & H2). unfold send_node_id_handshake. rewrite Hv. destruct (_ || _); cbn; eauto.
Qed.

End Messages.

(** ** Runs *)

(** Endpoints of messages and of the store are of version 6. *)
Definition op_fair (o : op) : Prop :=
  match o with
  | op_keepalive _ _ l | op_initial l => Forall (fun e => is_v6 e = true) l
  | op_handshake e _ _ _ | op_vote e _ _ => is_v6 e = true
  | _ => True
  end.

Definition op_pre (o : op) : list endpoint := match o with op_resolved e true => [map_endpoint_to_v6 e] | _ => [] end.

Lemma crawl_same (PE : PeerEnv) (l : list endpoint) : forall c, let c' := fold_left (fun c e => rep_request e c) l c in
  same_peers c c' /\ attempts c' = attempts c /\ syn_cookies c' = syn_cookies c /\ syn_cookies_per_ip c' = syn_cookies_per_ip c.
Proof.
  induction l as [| e l IH]; intros c; cbn [fold_left]; [done |]. destruct (IH (rep_request e c)) as ([S1 S2] & A & C & I).
  assert (M : same_peers c (rep_request e c)) by (apply modify_same; done). destruct M as [M1 M2].
  split; [split; congruence | done].
Qed.

Lemma peer_step_inv (PE : PeerEnv) (pre : list endpoint) (log : list fact) (c : container) (o : op) : op_fair o -> peer_inv pre log c ->
  exists c' out, step PE c o = Some (c', out) /\ peer_inv (pre ++ op_pre o) (log ++ facts c o c') c'.
Proof.
  intros Hf H. destruct o as [sender v l | sender v q r | sender v | e b | l | e a w | | | |]; cbn [step op_pre]; rewrite ?app_nil_r.
  - now apply on_keepalive_inv.
  - now apply on_handshake_inv.
  - destruct (contacted_ok pre sender v c (pv_peers _ _ _ H)) as (r & c1 & -> & S1 & A1 & C1 & I1). eexists _, _. split; [reflexivity |].
    cbn [facts snd]. rewrite app_nil_r. apply (peer_inv_same _ _ c); [done | done | rewrite A1; apply H | done | done].
  - unfold keepalive. destruct (send_keepalive_ok pre _ c (map_v6 e) (pv_peers _ _ _ H)) as [l ->]. cbn [facts]. rewrite app_nil_r.
    destruct b; [| eexists _, _; split; [reflexivity |]; now rewrite app_nil_r]. set (e' := map_endpoint_to_v6 e).
    assert (S : pre ⊆ pre ++ [e']) by (intros x Hx; apply elem_of_app; now left).
    destruct (peer_insert_ok (pre ++ [e']) e' protocol_version true None c (map_v6 e)) as (r & c1 & -> & P1 & A1 & C1 & I1 & Id);
      [intros _; apply elem_of_app; right; now left | exact (peers_ok_pre _ _ _ S (pv_peers _ _ _ H)) |].
    eexists _, _. split; [reflexivity |]. apply (peer_inv_less pre _ log c); [exact H | exact S | exact P1 | rewrite A1; apply H | | now rewrite C1 |].
    + exact (cookies_same _ _ C1 I1 (pv_cookies _ _ _ H)).
    + intros x Hx. destruct Id as [Id | [_ Id]]; [left; auto |]. apply Id, elem_of_cons in Hx as [-> | Hx]; [right | now left].
      split; [done |]. apply elem_of_app. right. now left.
  - destruct (merge_ok pre l Hf c (pv_peers _ _ _ H) (pv_attempts _ _ _ H)) as (c3 & o3 & -> & N3 & P3 & C3 & I3).
    eexists _, _. split; [reflexivity |]. cbn [facts]. rewrite app_nil_r.
    apply (peer_inv_same _ _ c); [done | split; now rewrite P3 | exact N3 | exact C3 | exact I3].
  - unfold rep_response. cbn in Hf. rewrite Hf. cbn [negb facts]. rewrite app_nil_r.
    destruct (find e (peers c)) as [p |]; (eexists _, _; split; [reflexivity |]); [| exact H]. cbn [snd].
    apply (peer_inv_same _ _ c); [exact H | | apply H | done | done]. apply modify_same; intros x; now destruct (_ <? _).
  - eexists _, _. split; [reflexivity |]. cbn [facts]. rewrite app_nil_r. unfold ongoing_rep_crawl.
    destruct (crawl_same PE (rep_crawl c) c) as (S & A & C & I). apply (peer_inv_same _ _ c); [exact H | exact S | rewrite A; apply H | exact C | exact I].
  - eexists _, _. split; [reflexivity |]. cbn [facts]. rewrite app_nil_r. unfold bootstrap_peer.
    destruct (List.find _ _) as [p |]; [| exact H]. apply (peer_inv_same _ _ c); [exact H | | apply H | done | done]. now apply modify_same.
  - unfold ongoing_keepalive. destruct (purge_list_ok pre (steady_now - cutoff) c (pv_peers _ _ _ H) (pv_attempts _ _ _ H)) as (P & A & Id & C & I & V).
    destruct (purge_list _ c) as [l c1]. cbn [fst snd] in *. destruct (keepalives_ok pre c1 l P V) as [o ->].
    eexists _, _. split; [reflexivity |]. cbn [facts]. rewrite app_nil_r.
    apply (peer_inv_less pre pre log c); [exact H | done | exact P | exact A | exact (cookies_same _ _ C I (pv_cookies _ _ _ H)) | now rewrite C | auto].
  - unfold ongoing_syn_cookie_cleanup, purge_syn_cookies.
    destruct (purge_cookies_ok (steady_now - syn_cookie_cutoff) (any_order (map_to_list (syn_cookies c))) c) as (c1 & -> & Hc & S & P & A).
    + rewrite any_perm. apply NoDup_fst_map_to_list.
    + intros e k. rewrite any_perm. apply elem_of_map_to_list.
    + apply H.
    + eexists _, _. split; [reflexivity |]. cbn [facts]. rewrite app_nil_r.
      apply (peer_inv_less pre pre log c); rewrite ?P, ?A; try done; try apply H. intros x; auto.
Qed.

Fixpoint run_facts (c : container) (l : list (PeerEnv * op)) : list fact :=
  match l with
  | [] => []
  | (PE, o) :: l' => match step PE c o with Some (c', _) => facts c o c' ++ run_facts c' l' | None => [] end
  end.

Definition run_pre (l : list (PeerEnv * op)) : list endpoint := concat (map (fun x => op_pre x.2) l).

Lemma peer_run_inv (l : list (PeerEnv * op)) : Forall (fun x => op_fair x.2) l -> forall pre log c, peer_inv pre log c ->
  exists c', run c l = Some c' /\ peer_inv (pre ++ run_pre l) (log ++ run_facts c l) c'.
Proof.
  induction 1 as [| [PE o] l Ho _ IH]; intros pre log c H; cbn [run run_facts run_pre map concat]; [exists c; now rewrite !app_nil_r |].
  destruct (peer_step_inv PE pre log c o Ho H) as (c1 & out & E & H1). cbn [snd]. rewrite E. destruct (IH _ _ _ H1) as (c' & E' & H').
  exists c'. rewrite !app_assoc. done.
Qed.

Lemma empty_inv : peer_inv [] [] empty_container.
Proof.
  split.
  - split; cbn; [constructor | constructor | unfold ip_count; cbn; unfold max_peers_per_ip; lia | intros e He; now apply not_elem_of_nil in He].
  - constructor.
  - intros a. unfold cookies_at, ip_cookies. cbn. rewrite lookup_empty, map_filter_empty, map_size_empty. unfold max_peers_per_ip. cbn. lia.
  - intros e k. cbn. now rewrite lookup_empty.
  - intros l0 e id q s l1 E. now destruct l0.
  - intros e n He. now apply not_elem_of_nil in He.
  - intros e id He. now apply not_elem_of_nil in He.
Qed.

(** C31: whatever messages and tasks come, in any order, no assertion fails; endpoints are
    unique; off the test network an address has at most ten peers; every peer was
    preconfigured or is no unspecified, reserved or own address; and the counter of
    cookies of every address is exact and at most ten. *)
Theorem peers_bounded (l : list (PeerEnv * op)) (Hl : Forall (fun x => op_fair x.2) l) : exists c, run empty_container l = Some c /\
  NoDup (map pe_endpoint (peers c)) /\ (is_test_network = false -> forall a, ip_count a (peers c) <= max_peers_per_ip) /\
  (forall e, e ∈ map pe_endpoint (peers c) -> e ∈ run_pre l \/ not_a_peer e false = Some false) /\
  (forall a, ip_cookies a (syn_cookies_per_ip c) = cookies_at a (syn_cookies c) /\ cookies_at a (syn_cookies c) <= max_peers_per_ip).
Proof.
  destruct (peer_run_inv l Hl [] [] empty_container empty_inv) as (c & E & [[H1 _ H2 H3] _ H4 _ _ _ _]). exists c. done.
Qed.

(** C32: a peer that was not preconfigured has answered a handshake: with the key of its
    id it signed a cookie that the node had sent to that very endpoint, and every cookie
    is answered at most once. *)
Theorem peers_authenticated (l : list (PeerEnv * op)) (c : container) (Hl : Forall (fun x => op_fair x.2) l)
  (E : run empty_container l = Some c) :
  (forall p, p ∈ peers c -> pe_endpoint p ∈ run_pre l \/ exists id, answers (run_facts empty_container l) (pe_endpoint p) id) /\
  (forall p id, p ∈ peers c -> node_id p = Some id -> answers (run_facts empty_container l) (pe_endpoint p) id) /\
  forall l0 e id q s l1, run_facts empty_container l = l0 ++ proved e id q s :: l1 ->
    validate_message id q s = false /\
    exists l2 l3, l0 = l2 ++ issued e q :: l3 /\ forall id' q' s', proved e id' q' s' ∉ l3.
Proof.
  destruct (peer_run_inv l Hl [] [] empty_container empty_inv) as (c' & E' & [_ _ _ _ H1 H2 H3]). rewrite E in E'. injection E' as <-.
  split; [| split].
  - intros p Hp. apply (H2 _ (node_id p)). apply list_elem_of_fmap. now exists p.
  - intros p id Hp Hn. apply H3. apply list_elem_of_fmap. exists p. split; [unfold identity; now rewrite Hn | done].
  - intros l0 e id q s l1 El. destruct (H1 _ _ _ _ _ _ El) as [Ho Hv]. done.
Qed.

(** ** Representatives *)

Section Weights.

Context `{PE : PeerEnv}.

Lemma probable_spec (l : list peer_information) : StronglySorted (fun p q => - rep_weight p <= - rep_weight q) l -> forall seen,
  let r := probable_reps seen l in
  r `sublist_of` l /\ NoDup (map probable_rep_account r) /\
  (forall p, p ∈ r -> rep_weight p <> 0 /\ probable_rep_account p ∉ seen /\
     forall q, q ∈ l -> probable_rep_account q = probable_rep_account p -> rep_weight q <= rep_weight p) /\
  (Forall (fun p => 0 <= rep_weight p) l -> forall q, q ∈ l -> rep_weight q <> 0 -> probable_rep_account q ∉ seen ->
     exists p, p ∈ r /\ probable_rep_account p = probable_rep_account q).
Proof.
  induction 1 as [| p l Hs IH Hp]; intros seen; cbn [probable_reps].
  { split; [constructor |]. split; [constructor |]. split; [intros p Hp; now apply not_elem_of_nil in Hp | intros _ q Hq; now apply not_elem_of_nil in Hq]. }
  rewrite Forall_forall in Hp. case_bool_decide as D.
  - destruct (IH seen) as (S & N & M & C). split; [now constructor |]. split; [exact N |]. split.
    + intros x Hx. destruct (M x Hx) as (M1 & M2 & M3). split; [exact M1 |]. split; [exact M2 |].
      intros q [-> | Hq]%elem_of_cons Eq; [rewrite Eq in D; done | auto].
    + intros Hw q [-> | Hq]%elem_of_cons Nz Ns; [done |]. apply Forall_cons in Hw as [_ Hw]. auto.
  - destruct (IH (probable_rep_account p :: seen)) as (S & N & M & C).
    assert (M' : forall x, x ∈ probable_reps (probable_rep_account p :: seen) l -> rep_weight x <> 0 /\ probable_rep_account x ∉ seen /\
      forall q, q ∈ p :: l -> probable_rep_account q = probable_rep_account x -> rep_weight q <= rep_weight x).
    { intros x Hx. destruct (M x Hx) as (M1 & M2 & M3). rewrite not_elem_of_cons in M2. destruct M2 as [M2 M4].
      split; [exact M1 |]. split; [exact M4 |]. intros q [-> | Hq]%elem_of_cons Eq; [congruence | auto]. }
    destruct (Z.eqb_spec (rep_weight p) 0) as [Z0 | Z0]; cbn [app].
    + split; [now constructor |]. split; [exact N |]. split; [exact M' |].
      intros Hw q Hq Nz Ns. apply Forall_cons in Hw as [_ Hw]. apply elem_of_cons in Hq as [-> | Hq]; [done |].
      destruct (decide (probable_rep_account q = probable_rep_account p)) as [Ea | Na];
        [| apply C; auto; rewrite not_elem_of_cons; auto].
      rewrite Forall_forall in Hw. specialize (Hw q Hq). specialize (Hp q Hq). lia.
    + split; [now constructor |]. split; [| split].
      * cbn. constructor; [| exact N]. intros (x & Ex & Hx)%list_elem_of_fmap. destruct (M x Hx) as (_ & M2 & _). apply M2. rewrite <- Ex. now left.
      * intros x [-> | Hx]%elem_of_cons; [| auto]. split; [exact Z0 |]. split; [exact D |].
        intros q [-> | Hq]%elem_of_cons _; [lia |]. specialize (Hp q Hq). lia.
      * intros Hw q Hq Nz Ns. apply Forall_cons in Hw as [_ Hw]. destruct (decide (probable_rep_account q = probable_rep_account p)) as [Ea | Na];
          [exists p; split; [now left | done] |]. apply elem_of_cons in Hq as [-> | Hq]; [done |].
        destruct (C Hw q Hq Nz) as (x & Hx & Ex); [rewrite not_elem_of_cons; auto |]. exists x. split; [now right | done].
Qed.

(** The weight of a representative that was seen at several endpoints counts once,
    with the most that was seen: the list has each account with weight once, with a peer
    of the most weight, and the total is the sum over the list, modulo [2^128]. *)
Theorem representatives_counted_once (c : container) (Hw : Forall (fun p => 0 <= rep_weight p) (peers c)) :
  let r := list_probable_rep_weights c in
  NoDup (map probable_rep_account r) /\
  (forall p, p ∈ r -> p ∈ peers c /\ rep_weight p <> 0 /\
     forall q, q ∈ peers c -> probable_rep_account q = probable_rep_account p -> rep_weight q <= rep_weight p) /\
  (forall q, q ∈ peers c -> rep_weight q <> 0 -> exists p, p ∈ r /\ probable_rep_account p = probable_rep_account q) /\
  total_weight c = u128 (foldr Z.add 0 (map rep_weight r)).
Proof.
  destruct (probable_spec _ (index_sorted (fun p => - rep_weight p) (peers c)) []) as (S & N & M & C).
  fold (heaviest c) in *. fold (list_probable_rep_weights c) in *.
  assert (P : forall q, q ∈ heaviest c <-> q ∈ peers c) by (intros q; unfold heaviest; now rewrite index_perm).
  cbv zeta. split; [exact N |]. split; [| split].
  - intros p Hp. destruct (M p Hp) as (M1 & _ & M3). split; [apply P; exact (elem_of_sublist _ _ _ Hp S) |]. split; [exact M1 |].
    intros q Hq. apply M3. now apply P.
  - intros q Hq Nz. apply C; [| now apply P | exact Nz | apply not_elem_of_nil]. unfold heaviest. now rewrite index_perm.
  - unfold total_weight. generalize (list_probable_rep_weights c). intros r.
    assert (G : forall r x, fold_left (fun r p => u128 (r + rep_weight p)) r (u128 x) = u128 (x + foldr Z.add 0 (map rep_weight r))).
    { clear. induction r as [| p r IH]; intros x; cbn; [now rewrite Z.add_0_r |].
      replace (u128 (u128 x + rep_weight p)) with (u128 (x + rep_weight p)); [rewrite IH; f_equal; lia |].
      unfold u128. now rewrite Zplus_mod_idemp_l. }
    exact (G r 0).
Qed.

End Weights.

(** ** Bootstrapping *)

Definition eligible (p : peer_information) : bool := protocol_version_reasonable_min <=? network_version p.

(** The peers whose turn it is: not chosen since [t]. *)
Definition turns (t : Z) (c : container) : list peer_information :=
  List.filter (fun p => eligible p && (last_bootstrap_attempt p <? t)) (peers c).

Lemma find_sorted (f : peer_information -> Z) (g : peer_information -> bool) (l : list peer_information) :
  StronglySorted (fun p q => f p <= f q) l -> forall q, q ∈ l -> g q = true -> exists p, List.find g l = Some p /\ g p = true /\ p ∈ l /\ f p <= f q.
Proof.
  induction 1 as [| x l Hs IH Hx]; intros q Hq Gq; [now apply not_elem_of_nil in Hq |]. cbn. destruct (g x) eqn:Gx.
  - exists x. split; [done |]. split; [done |]. split; [now left |]. apply elem_of_cons in Hq as [-> | Hq]; [lia |].
    rewrite Forall_forall in Hx. now apply Hx.
  - apply elem_of_cons in Hq as [-> | Hq]; [congruence |]. destruct (IH q Hq Gq) as (p & E1 & E2 & E3 & E4). exists p.
    split; [done |]. split; [done |]. split; [now right | done].
Qed.

Lemma turns_modify (t now : Z) (p : peer_information) (l : list peer_information) : t <= now -> NoDup (map pe_endpoint l) -> p ∈ l ->
  eligible p && (last_bootstrap_attempt p <? t) = true ->
  let g := fun p => eligible p && (last_bootstrap_attempt p <? t) in
  List.filter g l ≡ₚ p :: List.filter g (modify (pe_endpoint p) (set_last_bootstrap_attempt now) l).
Proof.
  intros Ht. induction l as [| x l IH]; intros N Hp Gp g; [now apply not_elem_of_nil in Hp |].
  cbn in N. apply NoDup_cons in N as [Nx N]. cbn [modify map]. apply elem_of_cons in Hp as [<- | Hp].
  - rewrite bool_decide_eq_true_2 by done. cbn [List.filter]. unfold g at 1. rewrite Gp.
    replace (g (set_last_bootstrap_attempt now p)) with false by (unfold g; cbn; rewrite (proj2 (Z.ltb_ge now t)) by lia; now rewrite andb_false_r).
    replace (map _ l) with l; [done |]. symmetry. rewrite <- (map_id l) at 2. apply map_ext_in. intros q Hq.
    rewrite bool_decide_eq_false_2; [done |]. intros E. apply Nx. rewrite <- E. apply list_elem_of_fmap. exists q. split; [done | now apply list_elem_of_In].
  - rewrite bool_decide_eq_false_2 by (intros E; apply Nx; rewrite E; apply list_elem_of_fmap; eauto).
    cbn [List.filter]. pose proof (IH N Hp Gp) as P. cbv zeta in P. fold g in P. destruct (g x); [| exact P].
    etrans; [constructor; exact P | constructor].
Qed.

Fixpoint bootstraps (l : list PeerEnv) (c : container) : list endpoint :=
  match l with
  | [] => []
  | PE :: l' => let (e, c') := bootstrap_peer c in e :: bootstraps l' c'
  end.

(** C33: bootstrapping takes turns.  From any time [t] on, as many calls as there are peers
    of a version that is recent enough, and were not chosen since [t], choose each of them
    once. *)
Theorem bootstrap_rotation (t : Z) (l : list PeerEnv) (c : container) (Hn : NoDup (map pe_endpoint (peers c)))
  (Ht : Forall (fun PE => t <= @steady_now PE) l) (Hl : length l = length (turns t c)) :
  bootstraps l c ≡ₚ map pe_endpoint (turns t c).
Proof.
  revert c Hn Hl. induction Ht as [| PE l Ht _ IH]; intros c Hn Hl; cbn [bootstraps].
  { symmetry in Hl. apply nil_length_inv in Hl. now rewrite Hl. }
  destruct (turns t c) as [| q r] eqn:Er; [done |]. assert (Hq : q ∈ turns t c) by (rewrite Er; now left).
  unfold turns in Hq. apply list_elem_of_In, filter_In in Hq as [Hq Gq]. apply andb_true_iff in Gq as [Gq Lq]. apply Z.ltb_lt in Lq.
  apply list_elem_of_In in Hq. destruct (find_sorted last_bootstrap_attempt eligible _ (index_sorted last_bootstrap_attempt (peers c)) q)
    as (p & E & Gp & Hp & Lp); [now rewrite index_perm | exact Gq |]. rewrite index_perm in Hp.
  unfold bootstrap_peer. unfold eligible in E. rewrite E.
  set (c' := with_peers c _). assert (P : turns t c ≡ₚ p :: turns t c').
  { apply turns_modify; [exact Ht | exact Hn | exact Hp |]. rewrite Gp. apply Z.ltb_lt. lia. }
  rewrite (IH c').
  - rewrite <- Er, P. done.
  - cbn. rewrite endpoints_place, modify_place, <- endpoints_place; done.
  - assert (L : length (turns t c) = S (length (turns t c'))) by now rewrite P. rewrite Er in L. cbn in *. lia.
Qed.

End Container.

(** ** A concrete node *)

Fixpoint sort_in (f : peer_information -> Z) (p : peer_information) (l : list peer_information) : list peer_information :=
  match l with
  | [] => [p]
  | q :: l' => if f p <? f q then p :: l else q :: sort_in f p l'
  end.

Lemma sort_in_perm (f : peer_information -> Z) (p : peer_information) (l : list peer_information) : sort_in f p l ≡ₚ p :: l.
Proof. induction l as [| q l IH]; cbn; [done |]. destruct (_ <? _); [done |]. rewrite IH. constructor. Qed.

Lemma sort_in_sorted (f : peer_information -> Z) (p : peer_information) (l : list peer_information) :
  StronglySorted (fun p q => f p <= f q) l -> StronglySorted (fun p q => f p <= f q) (sort_in f p l).
Proof.
  induction 1 as [| q l Hs IH Hq]; cbn; [repeat constructor |]. destruct (Z.ltb_spec (f p) (f q)) as [L | L].
  - constructor; [now constructor |]. constructor; [lia |]. eapply Forall_impl; [exact Hq |]. cbn. lia.
  - constructor; [exact IH |]. rewrite sort_in_perm. now constructor.
Qed.

Definition plain_env (t q : Z) : PeerEnv.
Proof.
  refine {| steady_now := t; index_by := fun f => fold_right (sort_in f) []; any_order := fun A l => l;
            random_word := fun _ _ => 0; random_block := q |}.
  - intros f l. induction l as [| p l IH]; cbn; [done |]. rewrite sort_in_perm. now rewrite IH.
  - intros f l. induction l as [| p l IH]; cbn; [constructor | now apply sort_in_sorted].
  - done.
  - intros i n Hn. lia.
Defined.

(** A signature is the sum of the id and the message. *)
Definition demo_config : PeerConfig := {|
  self := mk_endpoint (v6 (v4_mapped 0x01020304)) 7075; own_id := 7; is_live_network := true; is_test_network := false;
  online_weight_minimum := 100; validate_message := fun id q s => negb (s =? id + q) |}.

#[local] Existing Instance demo_config.

Definition demo_v4 : endpoint := mk_endpoint (v4 0x08080808) 7075.
Definition demo_peer : endpoint := map_endpoint_to_v6 demo_v4.

(** A keepalive, the answer to the cookie 42, and a preconfigured peer. *)
Definition demo_ops : list (PeerEnv * op) :=
  [(plain_env 10 42, op_keepalive demo_peer protocol_version [no_endpoint; demo_peer]);
   (plain_env 20 0, op_handshake demo_peer protocol_version (Some 3) (Some (5, 47)));
   (plain_env 30 0, op_resolved (mk_endpoint (v6 1) 7075) true);
   (plain_env 40 0, op_vote demo_peer 9 1000)].

Definition demo_container : container := default empty_container (run empty_container demo_ops).

Lemma demo_ops_fair : Forall (fun x => op_fair x.2) demo_ops.
Proof. repeat constructor. Qed.

Lemma demo_ops_run : run empty_container demo_ops = Some demo_container.
Proof. vm_compute. reflexivity. Qed.

Lemma peers_bounded_witness : exists c, run empty_container demo_ops = Some c /\ NoDup (map pe_endpoint (peers c)) /\
  forall a, ip_count a (peers c) <= max_peers_per_ip.
Proof. destruct (peers_bounded demo_ops demo_ops_fair) as (c & E & N & B & _). exists c. split; [exact E |]. split; [exact N | now apply B]. Defined.

Lemma peers_authenticated_witness : map pe_endpoint (peers demo_container) = [demo_peer; mk_endpoint (v6 1) 7075] /\
  forall p id, p ∈ peers demo_container -> node_id p = Some id -> answers (run_facts empty_container demo_ops) (pe_endpoint p) id.
Proof.
  split; [vm_compute; reflexivity |].
  exact (proj1 (proj2 (peers_authenticated demo_ops demo_container demo_ops_fair demo_ops_run))).
Defined.

Lemma representatives_counted_once_witness :
  let r := list_probable_rep_weights (PE := plain_env 50 0) demo_container in
  NoDup (map probable_rep_account r) /\ total_weight (PE := plain_env 50 0) demo_container = 1000.
Proof.
  destruct (representatives_counted_once (PE := plain_env 50 0) demo_container) as (N & _ & _ & E).
  - vm_compute. repeat constructor; discriminate.
  - split; [exact N |]. rewrite E. vm_compute. reflexivity.
Defined.

Lemma bootstrap_rotation_witness :
  bootstraps [plain_env 50 0; plain_env 60 0] demo_container ≡ₚ map pe_endpoint (turns 45 demo_container) /\
  length (turns 45 demo_container) = 2%nat.
Proof.
  split; [| vm_compute; reflexivity]. apply bootstrap_rotation.
  - apply (bool_decide_unpack _). vm_compute. exact I.
  - repeat constructor; vm_compute; discriminate.
  - vm_compute. reflexivity.
Defined.

(** Two lapses.  The ranges of multicast and of unique local addresses end too early,
    so [ff02::1] and [fd01::1] can be peers of the live network.  And a message from a
    known peer whose endpoint is given as an IPv4 address does not count as contact: the
    container is looked up with the address that was not mapped. *)
Theorem peer_lapses :
  not_a_peer (mk_endpoint (v6 (0xff02 * 2 ^ 112 + 1)) 7075) true = Some false /\
  not_a_peer (mk_endpoint (v6 (0xfd01 * 2 ^ 112 + 1)) 7075) true = Some false /\
  known_peer (map_endpoint_to_v6 demo_v4) demo_container = true /\
  contacted (PE := plain_env 500000 0) demo_v4 protocol_version demo_container = Some (false, demo_container) /\
  (exists c, contacted (PE := plain_env 500000 0) demo_peer protocol_version demo_container = Some (false, c) /\
     map last_contact (peers c) = [500000; 30]).
Proof. repeat split; try (vm_compute; reflexivity). eexists. split; vm_compute; reflexivity. Qed.

End PeerTheorems.
