(* ===== verification/SignatureChecker.v ===== *)
(** * The signature checker

    Model of [nano::signature_checker] ([nano/node/signatures.cpp]).  A large set of
    signatures is split between the calling thread and a pool: the pool gets batches of
    256 from the beginning, the caller the rest.  The tasks of the pool and the caller
    run in any order; each writes its part of the results.  [None] is a failed assertion,
    or a wait that does not end.  The verification of one batch
    ([validate_message_batch]) is a parameter. *)

From stdpp Require Import base list.
From Stdlib Require Import ZArith Lia.
From S2P Require Import Prelude Blocks Store Ledger BlockProcessor BlockInv.
Local Open Scope nat_scope.

Module SignatureChecker.

(** The key, the message and the signature; and one verdict for each. *)
Class BatchVerify := {
  validate_message_batch : list (Z * Z * Z) -> list Z;
  batch_length (l : list (Z * Z * Z)) : length (validate_message_batch l) = length l;
  batch_binary (l : list (Z * Z * Z)) : Forall (fun r => r = 0%Z \/ r = 1%Z) (validate_message_batch l) }.

Definition multithreaded_cutoff : nat := 513.
Definition batch_size : nat := 256.

Section Checker.

Context `{BV : BatchVerify} (num_threads : nat) (l : list (Z * Z * Z)).

Definition write_at (start : nat) (r v : list Z) : list Z := take start v ++ r ++ drop (start + length r) v.

(** The results of a part, and their test. *)
Definition verify_batch (start size : nat) (v : list Z) : option (list Z) :=
  let r := validate_message_batch (take size (drop start l)) in
  if forallb (fun x => (x =? 0)%Z || (x =? 1)%Z) r then Some (write_at start r v) else None.

(** The batches of the pool and the size of the caller's part. *)
Definition split : nat * nat :=
  let overflow_size := length l mod batch_size in
  let num_full_batches := length l / batch_size in
  let total_threads_to_split_over := num_threads + 1 in
  let num_base_batches_each := num_full_batches / total_threads_to_split_over in
  let num_full_overflow_batches := num_full_batches mod total_threads_to_split_over in
  let size_calling_thread := num_base_batches_each * batch_size + overflow_size in
  let num_full_batches_thread := num_base_batches_each * num_threads in
  if 0 <? num_full_overflow_batches
  then (num_full_batches_thread + (num_full_overflow_batches - 1), size_calling_thread + batch_size)
  else (num_full_batches_thread, size_calling_thread).

(** The tasks that wait, the counter of the task object, the calls of the promise's
    [set_value], and whether the caller has done its part. *)
Record state := mk_state { verifications : list Z; posted : list nat; pending : nat; promised : nat; called : bool }.

Inductive event := ev_task (batch : nat) | ev_call.

(** [verify_async], and the two kinds of work. *)
Definition verify_async (num_batches : nat) (v : list Z) : state := mk_state v (seq 0 num_batches) num_batches 0 false.

Definition step (s : state) (e : event) : option state :=
  match e with
  | ev_task batch =>
      if bool_decide (batch ∈ posted s) then
        match verify_batch (batch * batch_size) batch_size (verifications s) with
        | Some v =>
            let pending := pending s - 1 in
            Some (mk_state v (List.filter (fun b => negb (b =? batch)) (posted s)) pending
                    (if pending =? 0 then S (promised s) else promised s) (called s))
        | None => None
        end
      else None
  | ev_call =>
      let size := snd split in
      match verify_batch (length l - size) size (verifications s) with
      | Some v => Some (mk_state v (posted s) (pending s) (promised s) true)
      | None => None
      end
  end.

Fixpoint run (s : state) (es : list event) : option state :=
  match es with
  | [] => Some s
  | e :: es' => match step s e with Some s' => run s' es' | None => None end
  end.

(** [verify], with the order in which the parts are done; [v] are the verdicts before. *)
Definition verify (stopped : bool) (order : list event) (v : list Z) : option (list Z) :=
  if stopped then Some v
  else if (length l <? multithreaded_cutoff) || (num_threads =? 0) then verify_batch 0 (length l) v
  else
    let (num_batches, size_calling) := split in
    if length l =? num_batches * batch_size + size_calling then
      match run (verify_async num_batches v) order with
      | Some s => if called s && (promised s =? 1) then Some (verifications s) else None
      | None => None
      end
    else None.

(** ** The split *)

Lemma split_size : length l = fst split * batch_size + snd split.
Proof.
  unfold split. set (n := length l). set (t := num_threads + 1).
  pose proof (Nat.div_mod_eq n batch_size) as E1. pose proof (Nat.div_mod_eq (n / batch_size) t) as E2.
  set (f := n / batch_size) in *. set (b := f / t) in *. set (o := f mod t) in *.
  assert (E3 : f = b * num_threads + b + o) by (unfold t in E2; lia). clear E2.
  destruct (Nat.ltb_spec 0 o) as [L | L]; cbn [fst snd]; unfold batch_size in *; lia.
Qed.

(** The pool has something to do, so that the promise is set. *)
Lemma split_pool : multithreaded_cutoff <= length l -> num_threads <> 0 -> 0 < fst split.
Proof.
  intros Hn Ht. unfold split. set (n := length l) in *. set (t := num_threads + 1).
  assert (F : 2 <= n / batch_size).
  { apply Nat.div_le_lower_bound; unfold batch_size, multithreaded_cutoff in *; lia. }
  pose proof (Nat.div_mod_eq (n / batch_size) t) as E2. pose proof (Nat.mod_upper_bound (n / batch_size) t) as U.
  set (f := n / batch_size) in *. set (b := f / t) in *. set (o := f mod t) in *.
  destruct (Nat.ltb_spec 0 o) as [L | L]; cbn [fst]; destruct b; unfold t in *; nia.
Qed.

(** ** The results *)

Lemma write_lookup (start : nat) (r v : list Z) (i : nat) : start + length r <= length v ->
  write_at start r v !! i = if (start <=? i) && (i <? start + length r) then r !! (i - start) else v !! i.
Proof.
  intros H. unfold write_at. destruct (Nat.leb_spec start i) as [L | L]; cbn [andb].
  - rewrite lookup_app_r by (rewrite length_take; lia). rewrite length_take, Nat.min_l by lia.
    destruct (Nat.ltb_spec i (start + length r)) as [U | U]; [now rewrite lookup_app_l by lia |].
    rewrite lookup_app_r by lia. rewrite lookup_drop. f_equal. lia.
  - rewrite lookup_app_l by (rewrite length_take; lia). now apply lookup_take_lt.
Qed.

Lemma write_length (start : nat) (r v : list Z) : start + length r <= length v -> length (write_at start r v) = length v.
Proof. intros H. unfold write_at. rewrite !length_app, length_take, length_drop. lia. Qed.

Definition part (start size : nat) : list Z := validate_message_batch (take size (drop start l)).

Lemma part_length (start size : nat) : start + size <= length l -> length (part start size) = size.
Proof. intros H. unfold part. rewrite batch_length, length_take, length_drop. lia. Qed.

Lemma verify_batch_part (start size : nat) (v : list Z) : verify_batch start size v = Some (write_at start (part start size) v).
Proof.
  unfold verify_batch, part. replace (forallb _ _) with true; [done |]. symmetry. apply forallb_forall. intros x Hx%list_elem_of_In.
  pose proof (batch_binary (take size (drop start l))) as B. rewrite Forall_forall in B. destruct (B x Hx) as [-> | ->]; done.
Qed.

(** The range of an event, and the verdict of a signature in it. *)
Definition range (e : event) : nat * nat :=
  match e with ev_task b => (b * batch_size, batch_size) | ev_call => (fst split * batch_size, snd split) end.

Definition inside (e : event) (i : nat) : bool := (fst (range e) <=? i) && (i <? fst (range e) + snd (range e)).

Definition verdict (i : nat) : option Z :=
  if i <? fst split * batch_size
  then part (i / batch_size * batch_size) batch_size !! (i mod batch_size)
  else part (fst split * batch_size) (snd split) !! (i - fst split * batch_size).

Definition valid_event (e : event) : Prop := match e with ev_task b => b < fst split | ev_call => True end.

Lemma verdict_inside (e : event) (i : nat) : valid_event e -> inside e i = true ->
  part (fst (range e)) (snd (range e)) !! (i - fst (range e)) = verdict i.
Proof.
  unfold inside, verdict. destruct e as [b |]; cbn [range fst snd valid_event]; intros Hv [H1 H2]%andb_true_iff;
    apply Nat.leb_le in H1; apply Nat.ltb_lt in H2.
  - assert (Lb : b * batch_size + batch_size <= fst split * batch_size) by nia. rewrite (proj2 (Nat.ltb_lt _ _)) by lia.
    assert (E : i / batch_size = b) by (symmetry; apply (Nat.div_unique i batch_size b (i - b * batch_size)); unfold batch_size in *; lia).
    rewrite E. f_equal. pose proof (Nat.div_mod_eq i batch_size) as D. rewrite E in D. lia.
  - rewrite (proj2 (Nat.ltb_ge _ _)) by lia. done.
Qed.

(** What the events so far ([done]) have written, and what is left of the pool. *)
Record progress (v0 : list Z) (done : list event) (s : state) : Prop := {
  pg_length : length (verifications s) = length l;
  pg_lookup (i : nat) : i < length l ->
    verifications s !! i = if existsb (fun e => inside e i) done then verdict i else v0 !! i;
  pg_posted (b : nat) : b ∈ posted s <-> b < fst split /\ ev_task b ∉ done;
  pg_nodup : NoDup (posted s);
  pg_pending : pending s = length (posted s);
  pg_promised : promised s = if pending s =? 0 then 1 else 0;
  pg_called : called s = true <-> ev_call ∈ done }.

Lemma step_progress (v0 : list Z) (done : list event) (s : state) (e : event) : valid_event e -> e ∉ done -> progress v0 done s ->
  exists s', step s e = Some s' /\ progress v0 (done ++ [e]) s'.
Proof.
  intros Hv Hn [P1 P2 P3 P4 P5 P6 P7]. pose proof split_size as Es.
  assert (R : fst (range e) + snd (range e) <= length l).
  { destruct e as [b |]; cbn [range fst snd] in *; [| lia]. cbn in Hv. nia. }
  set (v := write_at (fst (range e)) (part (fst (range e)) (snd (range e))) (verifications s)).
  assert (V1 : length v = length l) by (unfold v; rewrite write_length; rewrite ?part_length; lia).
  assert (V2 : forall i, i < length l -> v !! i = if existsb (fun e => inside e i) (done ++ [e]) then verdict i else v0 !! i).
  { intros i Hi. unfold v. rewrite write_lookup by (rewrite part_length; lia). rewrite part_length by lia. fold (inside e i).
    rewrite existsb_app. cbn [existsb]. rewrite orb_false_r. destruct (inside e i) eqn:Ei; [rewrite orb_true_r; now apply verdict_inside |].
    rewrite orb_false_r. auto. }
  destruct e as [b |]; cbn [step range fst snd valid_event] in *.
  - assert (Hb : b ∈ posted s) by (apply P3; done). rewrite bool_decide_eq_true_2 by done. rewrite verify_batch_part. fold v.
    eexists. split; [reflexivity |]. set (rest := List.filter _ (posted s)).
    assert (Hr : posted s ≡ₚ b :: rest).
    { apply NoDup_Permutation; [exact P4 | constructor; [| apply NoDup_ListNoDup, List.NoDup_filter, NoDup_ListNoDup, P4] |].
      - intros Hx. apply list_elem_of_In, filter_In in Hx as [_ Hx]. now rewrite Nat.eqb_refl in Hx.
      - intros x. rewrite elem_of_cons. unfold rest. rewrite !list_elem_of_In, filter_In, negb_true_iff, Nat.eqb_neq.
        destruct (decide (x = b)) as [-> | D]; [rewrite <- !list_elem_of_In; tauto | tauto]. }
    assert (Lr : pending s = S (length rest)) by (rewrite P5, Hr; done).
    split; cbn [verifications posted pending promised called]; try assumption.
    + intros x. rewrite elem_of_app, list_elem_of_singleton. transitivity (x ∈ posted s /\ x <> b).
      * unfold rest. rewrite !list_elem_of_In, filter_In, negb_true_iff, Nat.eqb_neq. done.
      * rewrite P3. split; [intros [[H1 H2] H3]; split; [done |]; intros [H4 | [= ->]]; done |].
        intros [H1 H2]. split; [split; [done | tauto] |]. intros ->. tauto.
    + rewrite Hr in P4. now apply NoDup_cons in P4 as [_ ?].
    + lia.
    + rewrite Lr. cbn [Nat.sub]. rewrite Nat.sub_0_r. rewrite P6, Lr. cbn. done.
    + rewrite P7, elem_of_app, list_elem_of_singleton. split; [auto | intros [H | H]; [done | discriminate H]].
  - replace (length l - snd split) with (fst split * batch_size) by lia. rewrite verify_batch_part. fold v.
    eexists. split; [reflexivity |]. split; cbn [verifications posted pending promised called]; try assumption.
    + intros x. rewrite P3, elem_of_app, list_elem_of_singleton. split; [intros [H1 H2]; split; [done |]; intros [H | H]; [done | discriminate H] |].
      intros [H1 H2]. split; [done | tauto].
    + split; [intros _; apply elem_of_app; right; now left | done].
Qed.

Lemma run_progress (v0 : list Z) (es : list event) : forall done s, Forall valid_event es -> NoDup (done ++ es) -> progress v0 done s ->
  exists s', run s es = Some s' /\ progress v0 (done ++ es) s'.
Proof.
  induction es as [| e es IH]; intros done s Hv Hn H; cbn [run]; [exists s; now rewrite app_nil_r |].
  apply Forall_cons in Hv as [He Hv]. destruct (step_progress v0 done s e He) as (s1 & -> & H1); [| exact H |].
  - intros Hx. apply NoDup_app in Hn as (_ & Hd & _). apply (Hd e Hx). now left.
  - replace (done ++ e :: es) with ((done ++ [e]) ++ es) in * by now rewrite <- app_assoc. now apply IH.
Qed.

Lemma start_progress (v0 : list Z) : length v0 = length l -> 0 < fst split -> progress v0 [] (verify_async (fst split) v0).
Proof.
  intros Hv Hp. split; cbn; try done.
  - intros b. rewrite elem_of_seq. split; [intros H; split; [lia | apply not_elem_of_nil] | lia].
  - apply NoDup_seq.
  - now rewrite length_seq.
  - destruct (fst split); [lia | done].
  - split; [done | intros H; now apply not_elem_of_nil in H].
Qed.

(** The parts, in any order. *)
Definition schedule (order : list event) : Prop := order ≡ₚ ev_call :: map ev_task (seq 0 (fst split)).

Lemma every_index (order : list event) (i : nat) : schedule order -> i < length l -> existsb (fun e => inside e i) order = true.
Proof.
  intros Ho Hi. pose proof split_size as Es. apply existsb_exists. destruct (Nat.lt_ge_cases i (fst split * batch_size)) as [L | L].
  - assert (B : i / batch_size < fst split) by (apply Nat.div_lt_upper_bound; [unfold batch_size; lia | lia]).
    exists (ev_task (i / batch_size)). split.
    + apply list_elem_of_In. unfold schedule in Ho. rewrite Ho. right. apply list_elem_of_fmap. exists (i / batch_size).
      split; [done | apply elem_of_seq; lia].
    + unfold inside. cbn [range fst snd]. pose proof (Nat.div_mod_eq i batch_size) as D.
      pose proof (Nat.mod_upper_bound i batch_size ltac:(unfold batch_size; lia)) as U.
      apply andb_true_iff. rewrite Nat.leb_le, Nat.ltb_lt. lia.
  - exists ev_call. split; [apply list_elem_of_In; unfold schedule in Ho; rewrite Ho; now left |].
    unfold inside. cbn [range fst snd]. apply andb_true_iff. rewrite Nat.leb_le, Nat.ltb_lt. lia.
Qed.

Lemma checker_result (order : list event) (v : list Z) (Hv : length v = length l) (Ho : schedule order) : exists r,
  verify false order v = Some r /\ length r = length l /\
  if (length l <? multithreaded_cutoff) || (num_threads =? 0) then r = validate_message_batch l
  else forall i, i < length l -> r !! i = verdict i.
Proof.
  unfold verify. destruct (_ || _) eqn:Eb.
  - rewrite verify_batch_part. eexists. split; [reflexivity |].
    assert (Lp : length (part 0 (length l)) = length l) by (apply part_length; lia).
    split; [rewrite write_length; lia |]. unfold write_at. rewrite drop_ge by lia. rewrite app_nil_r. cbn.
    unfold part. rewrite take_0, drop_0, (take_ge l) by lia. done.
  - apply orb_false_iff in Eb as [E1 E2]. apply Nat.ltb_ge in E1. apply Nat.eqb_neq in E2. pose proof split_size as Es.
    pose proof (split_pool E1 E2) as Hp.
    assert (Nd : NoDup order).
    { unfold schedule in Ho. rewrite Ho. constructor; [intros (b & Hb & _)%list_elem_of_fmap; done |]. apply NoDup_fmap_2; [intros x y [= E]; exact E | apply NoDup_seq]. }
    assert (Va : Forall valid_event order).
    { unfold schedule in Ho. rewrite Ho. constructor; [done |]. apply Forall_forall. intros e (b & -> & Hb)%list_elem_of_fmap. apply elem_of_seq in Hb. cbn. lia. }
    destruct (run_progress v order [] _ Va Nd (start_progress v Hv Hp)) as (s & Er & [P1 P2 P3 P4 P5 P6 P7]). cbn [app] in *.
    destruct split as [nb sc] eqn:Esp. cbn [fst snd] in *. rewrite (proj2 (Nat.eqb_eq _ _) Es), Er.
    assert (Hc : called s = true) by (apply P7; unfold schedule in Ho; rewrite Ho; now left).
    assert (Hz : pending s = 0).
    { rewrite P5. destruct (posted s) as [| b r] eqn:Epo; [done |]. exfalso. destruct (proj1 (P3 b) ltac:(now left)) as [Hb Nb]. apply Nb.
      unfold schedule in Ho. rewrite Ho, Esp. right. apply list_elem_of_fmap. exists b. split; [done | apply elem_of_seq; cbn; lia]. }
    rewrite Hc, P6, Hz. cbn. eexists. split; [reflexivity |]. split; [exact P1 |]. intros i Hi. rewrite (P2 i Hi).
    now rewrite (every_index order i Ho Hi).
Qed.

(** C34: in whatever order the threads of the pool and the calling thread do their parts, no
    assertion fails, the wait for the pool ends, and every signature has exactly the
    verdict of the one batch it is in; a small set, or a checker without threads, is one
    batch. *)
Theorem checker_exact (order : list event) (v : list Z) (Hv : length v = length l) (Ho : schedule order) : exists r,
  verify false order v = Some r /\ length r = length l /\
  if (length l <? multithreaded_cutoff) || (num_threads =? 0) then r = validate_message_batch l
  else forall i, i < length l -> r !! i = verdict i.
Proof. exact (checker_result order v Hv Ho). Qed.

(** The verdict of a batch on one of its signatures. *)
Lemma part_verdict (start size k : nat) (x : Z) : part start size !! k = Some x ->
  exists j, validate_message_batch j !! k = Some x /\ forall t, l !! (start + k) = Some t -> j !! k = Some t.
Proof.
  intros E. exists (take size (drop start l)). split; [exact E |]. intros t Ht.
  assert (Lk : k < length (take size (drop start l))) by (rewrite <- batch_length; now apply lookup_lt_Some in E).
  rewrite length_take, length_drop in Lk. rewrite lookup_take_lt by lia. now rewrite lookup_drop.
Qed.

Lemma verdict_batch (i : nat) (x : Z) : verdict i = Some x ->
  exists j k, validate_message_batch j !! k = Some x /\ forall t, l !! i = Some t -> j !! k = Some t.
Proof.
  unfold verdict. destruct (Nat.ltb_spec i (fst split * batch_size)) as [L | L]; intros E;
    apply part_verdict in E as (j & E1 & E2); eexists j, _; (split; [exact E1 |]); intros t Ht; apply E2; rewrite <- Ht; f_equal.
  - pose proof (Nat.div_mod_eq i batch_size). lia.
  - lia.
Qed.

Lemma result_batch (order : list event) (v r : list Z) (i : nat) (x : Z) : length v = length l -> schedule order ->
  verify false order v = Some r -> r !! i = Some x ->
  exists j k, validate_message_batch j !! k = Some x /\ forall t, l !! i = Some t -> j !! k = Some t.
Proof.
  intros Hv Ho E Ei. destruct (checker_result order v Hv Ho) as (r' & E' & L & V). rewrite E in E'. injection E' as <-.
  destruct (_ || _); [subst r; exists l, i; done |]. apply verdict_batch. rewrite <- V; [exact Ei |].
  rewrite <- L. now apply lookup_lt_Some in Ei.
Qed.

End Checker.

(** ** The interface *)

Section Interface.

Context `{BV : BatchVerify} (num_threads : nat).

Definition in_turn (l : list (Z * Z * Z)) : list event := ev_call :: map ev_task (seq 0 (fst (split num_threads l))).

Definition checked (l : list (Z * Z * Z)) : list Z := default [] (verify num_threads l false (in_turn l) (repeat 0%Z (length l))).

Lemma checked_verify (l : list (Z * Z * Z)) : verify num_threads l false (in_turn l) (repeat 0%Z (length l)) = Some (checked l) /\
  length (checked l) = length l.
Proof.
  destruct (checker_result num_threads l (in_turn l) (repeat 0%Z (length l))) as (r & E & L & _); [apply repeat_length | unfold schedule; reflexivity |].
  unfold checked. rewrite E. done.
Qed.

Lemma checked_batch (l : list (Z * Z * Z)) (i : nat) (x : Z) : checked l !! i = Some x ->
  exists j k, validate_message_batch j !! k = Some x /\ forall t, l !! i = Some t -> j !! k = Some t.
Proof.
  destruct (checked_verify l) as [E _]. apply (result_batch num_threads l (in_turn l) (repeat 0%Z (length l))); [apply repeat_length | unfold schedule; reflexivity | exact E].
Qed.

(** The checker is the one the block processor asks for. *)
#[export] Instance checker : BlockProcessor.BlockProcessor.Verifier.
Proof.
  refine {| BlockProcessor.BlockProcessor.verify := checked |}.
  - intros l. apply checked_verify.
  - intros l. apply Forall_lookup. intros i x (j & k & E & _)%checked_batch. pose proof (batch_binary j) as B.
    rewrite Forall_lookup in B. exact (B k x E).
Defined.

Lemma nth_error_lookup {A : Type} (l : list A) : forall i, nth_error l i = l !! i.
Proof. induction l as [| x l IH]; intros [| i]; cbn; auto. Qed.

(** A batch that accepts no invalid signature makes a checker that accepts none. *)
#[export] Instance checker_sound `{LE : Ledger.Ledger.Env}
  (HB : forall l i a m s, l !! i = Some (a, m, s) -> validate_message_batch l !! i = Some 1%Z -> Ledger.Ledger.validate_message a m s = false) :
  BlockInv.BlockInv.Sound checker.
Proof.
  intros l i a m s H1 H2. change (nth_error (checked l) i = Some 1%Z) in H2. rewrite nth_error_lookup in H1. rewrite nth_error_lookup in H2. destruct (checked_batch l i 1%Z H2) as (j & k & E1 & E2).
  exact (HB j k a m s (E2 _ H1) E1).
Qed.

End Interface.

(** ** A concrete checker *)

Definition parity : BatchVerify.
Proof.
  refine {| validate_message_batch := map (fun t => (t.2 mod 2)%Z) |}.
  - intros l. apply length_map.
  - intros l. apply Forall_forall. intros r (t & -> & _)%list_elem_of_fmap.
    pose proof (Z.mod_pos_bound t.2 2). lia.
Defined.

Definition demo_set : list (Z * Z * Z) := map (fun i => (0%Z, 0%Z, Z.of_nat i)) (seq 0 600).

(** Two threads: one batch for the pool, and the caller first. *)
Lemma checker_exact_witness : exists r, verify (BV := parity) 2 demo_set false [ev_call; ev_task 0] (repeat 0%Z 600) = Some r /\ length r = 600%nat.
Proof.
  destruct (checker_exact (BV := parity) 2 demo_set [ev_call; ev_task 0] (repeat 0%Z 600)) as (r & E & L & _).
  - vm_compute. reflexivity.
  - vm_compute. reflexivity.
  - exists r. split; [exact E |]. rewrite L. vm_compute. reflexivity.
Defined.

End SignatureChecker.
