(* ===== verification/Wallet.v ===== *)
(** * The keys of a wallet

    Model of [nano::fan] and [nano::wallet_store] ([nano/node/wallet.cpp]).  A wallet is
    a table from account to encrypted key.  The keys are encrypted by the wallet key,
    the wallet key by a key derived from the password; seven small numbers name the
    special entries.  Password key and encrypted wallet key are kept in memory, each
    spread over a [fan].

    The cipher (AES in counter mode, Crypto++) and the password hash (argon2) are the
    class [Cipher], what is asked of them the class [CipherLaws].  [None] is a failed
    assertion, or a loop that runs out of fuel; the theorems exclude both.  A cursor of
    the table is the least key it may still stand at: [begin] seeks it and an increment
    moves it past the entry it is at, whatever was erased or written meanwhile. *)

From stdpp Require Import base gmap list.
From Stdlib Require Import ZArith Lia.
From S2P Require Import Prelude Blake2b Blocks Numbers Signing VoteStore.
Local Open Scope Z_scope.

Module Wallet.
Module VS := VoteStore.VoteStore.

(** ** The fan *)

(** [values] is never empty: the constructor pushes at least the last of them. *)
Record fan := mk_fan { values_first : Z; values_rest : list Z }.

Definition xor_all (l : list Z) (x : Z) : Z := fold_left Numbers.uint256_xor l x.

(** [entries] are the blocks drawn from the random pool, [count_a - 1] of them. *)
Definition fan_new (key : Z) (entries : list Z) : fan :=
  let first := xor_all entries key in
  match entries with
  | [] => mk_fan first []
  | e :: es => mk_fan e (es ++ [first])
  end.

Definition fan_value (f : fan) : Z := xor_all (values_first f :: values_rest f) 0.

Definition fan_value_set (value_a : Z) (f : fan) : fan :=
  let value_l := fan_value f in
  mk_fan (Numbers.uint256_xor (Numbers.uint256_xor (values_first f) value_l) value_a) (values_rest f).

(** ** The table *)

Record wallet_value := mk_value { wv_key : Z; wv_work : Z }.

Inductive key_kind := kt_not_a_type | kt_unknown | kt_adhoc | kt_deterministic.

Definition version_special : Z := 0.
Definition salt_special : Z := 1.
Definition wallet_key_special : Z := 2.
Definition check_special : Z := 3.
Definition representative_special : Z := 4.
Definition seed_special : Z := 5.
Definition deterministic_index_special : Z := 6.
Definition special_count : Z := 7.

Definition version_1 : Z := 1.
Definition version_2 : Z := 2.
Definition version_3 : Z := 3.
Definition version_4 : Z := 4.
Definition version_current : Z := version_4.

Notation table := (gmap Z wallet_value).

Record wallet_store := mk_wallet { entries : table; password : fan; wallet_key_mem : fan }.

Definition set_entries (w : wallet_store) (t : table) : wallet_store :=
  mk_wallet t (password w) (wallet_key_mem w).
Definition set_password (w : wallet_store) (f : fan) : wallet_store :=
  mk_wallet (entries w) f (wallet_key_mem w).
Definition set_key_mem (w : wallet_store) (f : fan) : wallet_store :=
  mk_wallet (entries w) (password w) f.

(** The first two 128-bit halves of a union: [owords]. *)
Definition oword (i x : Z) : Z := if i =? 0 then x / 2 ^ 128 else x mod 2 ^ 128.
Definition check_iv_index : Z := 0.
Definition seed_iv_index : Z := 1.

Definition entry_get_raw (w : wallet_store) (pub : Z) : wallet_value :=
  match entries w !! pub with Some v => v | None => mk_value 0 0 end.

Definition entry_put_raw (w : wallet_store) (pub : Z) (v : wallet_value) : wallet_store :=
  set_entries w (<[pub := v]> (entries w)).

(** The assertion: there is such an entry. *)
Definition erase (w : wallet_store) (pub : Z) : option wallet_store :=
  match entries w !! pub with
  | Some _ => Some (set_entries w (delete pub (entries w)))
  | None => None
  end.

(** The entry with the least key from [lo] on. *)
Definition seek (lo : Z) (t : table) : option (Z * wallet_value) :=
  map_fold (fun k v found =>
    if lo <=? k then
      match found with
      | Some (k', _) => if k <? k' then Some (k, v) else found
      | None => Some (k, v)
      end
    else found) None t.

(** [begin (transaction, key)]; [begin (transaction)] is at [special_count]. *)
Definition begin_at (w : wallet_store) (key : Z) : option (Z * wallet_value) := seek key (entries w).

Definition find (w : wallet_store) (key : Z) : option wallet_value :=
  match begin_at w key with
  | Some (k, v) => if k =? key then Some v else None
  | None => None
  end.

Definition is_some {A : Type} (o : option A) : bool := match o with Some _ => true | None => false end.

Definition exists_account (w : wallet_store) (pub : Z) : bool := negb (pub =? 0) && is_some (find w pub).

(** A loop over the accounts of a store that is part of the state: the body gives the
    place to go on from. *)
Fixpoint walk {S : Type} (view : S -> wallet_store) (body : Z -> wallet_value -> S -> option (Z * S))
    (fuel : nat) (at_ : Z) (s : S) : option S :=
  match fuel with
  | O => None
  | Datatypes.S n =>
      match begin_at (view s) at_ with
      | None => Some s
      | Some (k, v) =>
          match body k v s with
          | Some (next, s') => walk view body n next s'
          | None => None
          end
      end
  end.

Definition walk_fuel (w : wallet_store) : nat := Datatypes.S (base.size (entries w)).

Definition accounts_body (k : Z) (v : wallet_value) (s : wallet_store * list Z) : option (Z * (wallet_store * list Z)) :=
  Some (k + 1, (s.1, s.2 ++ [k])).

Definition accounts (w : wallet_store) : option (list Z) :=
  option_map snd (walk fst accounts_body (walk_fuel w) special_count (w, [])).

Definition key_type (v : wallet_value) : key_kind :=
  if 2 ^ 64 - 1 <? wv_key v then kt_adhoc
  else if u32 (Z.shiftr (wv_key v) 32) =? 1 then kt_deterministic
  else kt_unknown.

Definition deterministic_index_get (w : wallet_store) : Z :=
  u32 (wv_key (entry_get_raw w deterministic_index_special)).

Definition deterministic_index_set (w : wallet_store) (index : Z) : wallet_store :=
  entry_put_raw w deterministic_index_special (mk_value index 0).

Definition clear_body (k : Z) (v : wallet_value) (w : wallet_store) : option (Z * wallet_store) :=
  match key_type v with
  | kt_deterministic => option_map (pair k) (erase w k)
  | _ => Some (k + 1, w)
  end.

Definition deterministic_clear (w : wallet_store) : option wallet_store :=
  match walk id clear_body (walk_fuel w) special_count w with
  | Some w => Some (deterministic_index_set w 0)
  | None => None
  end.

Definition check (w : wallet_store) : Z := wv_key (entry_get_raw w check_special).
Definition salt (w : wallet_store) : Z := wv_key (entry_get_raw w salt_special).

(** The lowest byte of the union: [bytes[31]]. *)
Definition version (w : wallet_store) : Z := u8 (wv_key (entry_get_raw w version_special)).
Definition version_put (w : wallet_store) (v : Z) : wallet_store :=
  entry_put_raw w version_special (mk_value v 0).

Definition representative (w : wallet_store) : Z := wv_key (entry_get_raw w representative_special).
Definition representative_set (w : wallet_store) (a : Z) : wallet_store :=
  entry_put_raw w representative_special (mk_value a 0).
Definition is_representative (w : wallet_store) : bool := exists_account w (representative w).

Definition insert_watch (w : wallet_store) (pub : Z) : wallet_store := entry_put_raw w pub (mk_value 0 0).

(** [None]: the function returns [true]. *)
Definition work_get (w : wallet_store) (pub : Z) : option Z :=
  let e := entry_get_raw w pub in
  if negb (wv_key e =? 0) then Some (wv_work e) else None.

Definition work_put (w : wallet_store) (pub work : Z) : option wallet_store :=
  let e := entry_get_raw w pub in
  if negb (wv_key e =? 0) then Some (entry_put_raw w pub (mk_value (wv_key e) work)) else None.

(** ** Keys *)

(** [encrypt cleartext key iv], [decrypt ciphertext key iv], [phs password salt]. *)
Class Cipher := {
  encrypt : Z -> Z -> Z -> Z;
  decrypt : Z -> Z -> Z -> Z;
  phs : list Z -> Z -> Z }.

(** [nano::deterministic_key], which is total ([derive_total]). *)
Definition derive (seed index : Z) : Z :=
  match Numbers.deterministic_key seed index with Some k => k | None => 0 end.

Section Keys.

Context `{Cipher} `{VS.Signatures}.

Definition wallet_key (w : wallet_store) : Z :=
  decrypt (fan_value (wallet_key_mem w)) (fan_value (password w)) (oword 0 (salt w)).

Definition seed (w : wallet_store) : Z :=
  decrypt (wv_key (entry_get_raw w seed_special)) (wallet_key w) (oword seed_iv_index (salt w)).

Definition seed_set (w : wallet_store) (prv : Z) : option wallet_store :=
  let ciphertext := encrypt prv (wallet_key w) (oword seed_iv_index (salt w)) in
  deterministic_clear (entry_put_raw w seed_special (mk_value ciphertext 0)).

Definition valid_password (w : wallet_store) : bool :=
  check w =? encrypt 0 (wallet_key w) (oword check_iv_index (salt w)).

Definition deterministic_key (w : wallet_store) (index : Z) : option Z :=
  if valid_password w then Some (derive (seed w) index) else None.

Fixpoint unused_index (fuel : nat) (w : wallet_store) (index : Z) : option (Z * Z) :=
  match fuel with
  | O => None
  | S n =>
      match deterministic_key w index with
      | Some prv =>
          let result := VS.pub_key prv in
          if exists_account w result then unused_index n w (u32 (index + 1)) else Some (result, index)
      | None => None
      end
  end.

Definition marker (index : Z) : Z := Z.lor (Z.shiftl 1 32) index.

Definition deterministic_insert (w : wallet_store) : option (Z * wallet_store) :=
  match unused_index (walk_fuel w) w (deterministic_index_get w) with
  | Some (result, index) =>
      let w := entry_put_raw w result (mk_value (marker index) 0) in
      Some (result, deterministic_index_set w (u32 (index + 1)))
  | None => None
  end.

Definition deterministic_insert_at (w : wallet_store) (index : Z) : option (Z * wallet_store) :=
  match deterministic_key w index with
  | Some prv => let result := VS.pub_key prv in
      Some (result, entry_put_raw w result (mk_value (marker index) 0))
  | None => None
  end.

Definition insert_adhoc (w : wallet_store) (prv : Z) : option (Z * wallet_store) :=
  if valid_password w then
    let pub := VS.pub_key prv in
    let ciphertext := encrypt prv (wallet_key w) (oword 0 pub) in
    Some (pub, entry_put_raw w pub (mk_value ciphertext 0))
  else None.

(** The switch of [fetch]; the assertion of [deterministic_key] was just tested. *)
Definition entry_key (w : wallet_store) (pub : Z) (v : wallet_value) : option Z :=
  match key_type v with
  | kt_deterministic => Some (derive (seed w) (u32 (wv_key v)))
  | kt_adhoc => Some (decrypt (wv_key v) (wallet_key w) (oword 0 pub))
  | kt_unknown | kt_not_a_type => None
  end.

(** [None]: the function returns [true]. *)
Definition fetch (w : wallet_store) (pub : Z) : option Z :=
  if valid_password w then
    let v := entry_get_raw w pub in
    if negb (wv_key v =? 0) then
      match entry_key w pub v with
      | Some prv => if pub =? VS.pub_key prv then Some prv else None
      | None => None
      end
    else None
  else None.

(** ** Passwords *)

Definition derive_key (w : wallet_store) (password_a : list Z) : Z := phs password_a (salt w).

Definition rekey (w : wallet_store) (password_a : list Z) : bool * wallet_store :=
  if valid_password w then
    let password_new := derive_key w password_a in
    let wallet_key_l := wallet_key w in
    let w := set_password w (fan_value_set password_new (password w)) in
    let encrypted := encrypt wallet_key_l password_new (oword 0 (salt w)) in
    let w := set_key_mem w (fan_value_set encrypted (wallet_key_mem w)) in
    (false, entry_put_raw w wallet_key_special (mk_value encrypted 0))
  else (true, w).

(** Rewrite the key with the wallet key if [prv] is the key of the account. *)
Definition rewrite_key (w : wallet_store) (key prv : Z) : option (option wallet_store) :=
  if VS.pub_key prv =? key then option_map (fun r => Some r.2) (insert_adhoc w prv) else Some None.

Definition upgrade_v1_body (zero_password empty_password : Z) (key : Z) (_ : wallet_value) (w : wallet_store)
    : option (Z * wallet_store) :=
  match fetch w key with
  | Some _ => Some (key + 1, w)
  | None =>
      let iv := oword 0 (salt w) in
      match rewrite_key w key (decrypt (wv_key (entry_get_raw w key)) zero_password iv) with
      | None => None
      | Some (Some w) => Some (key + 1, w)
      | Some None =>
          match rewrite_key w key (decrypt (wv_key (entry_get_raw w key)) empty_password iv) with
          | None => None
          | Some (Some w) => Some (key + 1, w)
          | Some None => Some (key + 1, w)
          end
      end
  end.

Definition upgrade_v1_v2 (w : wallet_store) : option wallet_store :=
  if version w =? 1 then
    let value := wv_key (entry_get_raw w wallet_key_special) in
    let zero_password := decrypt value 0 (oword 0 (salt w)) in
    let empty_password := decrypt value (derive_key w []) (oword 0 (salt w)) in
    match walk id (upgrade_v1_body zero_password empty_password) (walk_fuel w) special_count w with
    | Some w => Some (version_put w 2)
    | None => None
    end
  else None.

(** [random]: the block drawn from the random pool. *)
Definition upgrade_v2_v3 (random : Z) (w : wallet_store) : option wallet_store :=
  if version w =? 2 then
    match seed_set w random with
    | Some w => Some (version_put (entry_put_raw w deterministic_index_special (mk_value 0 0)) 3)
    | None => None
    end
  else None.

Definition upgrade_v3_body (password_l : Z) (k : Z) (v : wallet_value) (w : wallet_store) : option (Z * wallet_store) :=
  if negb (wv_key v =? 0) then
    match key_type v with
    | kt_adhoc =>
        match fetch w k with
        | Some _ => Some (k + 1, w)
        | None =>
            let key := decrypt (wv_key v) password_l (oword 0 (salt w)) in
            let ciphertext := encrypt key password_l (oword 0 k) in
            option_map (fun w => (k + 1, entry_put_raw w k (mk_value ciphertext (wv_work v)))) (erase w k)
        end
    | kt_deterministic => Some (k + 1, w)
    | kt_unknown | kt_not_a_type => None
    end
  else Some (k + 1, w).

Definition upgrade_v3_v4 (w : wallet_store) : option wallet_store :=
  if version w =? 3 then
    let w := version_put w 4 in
    if valid_password w then
      let password_l := wallet_key w in
      let value := wv_key (entry_get_raw w seed_special) in
      let seed := decrypt value password_l (oword 0 (salt w)) in
      let ciphertext := encrypt seed password_l (oword seed_iv_index (salt w)) in
      let w := entry_put_raw w seed_special (mk_value ciphertext 0) in
      walk id (upgrade_v3_body password_l) (walk_fuel w) special_count w
    else None
  else None.

(** The switch falls through from case to case. *)
Definition upgrade (random : Z) (w : wallet_store) : option wallet_store :=
  let v := version w in
  if v =? version_1 then
    match upgrade_v1_v2 w with
    | Some w => match upgrade_v2_v3 random w with Some w => upgrade_v3_v4 w | None => None end
    | None => None
    end
  else if v =? version_2 then
    match upgrade_v2_v3 random w with Some w => upgrade_v3_v4 w | None => None end
  else if v =? version_3 then upgrade_v3_v4 w
  else if v =? version_4 then Some w
  else None.

(** [true]: the password is wrong. *)
Definition attempt_password (random : Z) (w : wallet_store) (password_a : list Z) : option (bool * wallet_store) :=
  let w := set_password w (fan_value_set (derive_key w password_a) (password w)) in
  if valid_password w then option_map (pair false) (upgrade random w) else Some (true, w).

(** ** Opening *)

(** What the constructor draws from the random pool: the entries of the two fans, the
    salt, the wallet key and the seed. *)
Record draws := mk_draws { d_password : list Z; d_key_mem : list Z; d_salt : Z; d_wallet_key : Z; d_seed : Z }.

(** A new table is filled; the wallet key in memory is that of the table. *)
Definition wallet_fill (d : draws) (representative_a : Z) (w : wallet_store) : option wallet_store :=
  let w := version_put w version_current in
  let salt_l := d_salt d in
  let w := entry_put_raw w salt_special (mk_value salt_l 0) in
  let w := set_password w (fan_value_set 0 (password w)) in
  let encrypted := encrypt (d_wallet_key d) 0 (oword 0 salt_l) in
  let w := entry_put_raw w wallet_key_special (mk_value encrypted 0) in
  let w := set_key_mem w (fan_value_set encrypted (wallet_key_mem w)) in
  let w := entry_put_raw w check_special (mk_value (encrypt 0 (d_wallet_key d) (oword check_iv_index salt_l)) 0) in
  let w := entry_put_raw w representative_special (mk_value representative_a 0) in
  match seed_set w (d_seed d) with
  | Some w => Some (entry_put_raw w deterministic_index_special (mk_value 0 0))
  | None => None
  end.

Definition wallet_open (d : draws) (representative_a : Z) (t : table) : option wallet_store :=
  let w := mk_wallet t (fan_new 0 (d_password d)) (fan_new 0 (d_key_mem d)) in
  let filled := if is_some (t !! version_special) then Some w else wallet_fill d representative_a w in
  match filled with
  | Some w => Some (set_key_mem w (fan_value_set (wv_key (entry_get_raw w wallet_key_special)) (wallet_key_mem w)))
  | None => None
  end.

(** ** Two wallets *)

(** The loop of [move]: the flag, this wallet and the other. *)
Fixpoint move_keys (keys : list Z) (result : bool) (w other : wallet_store)
    : option (bool * wallet_store * wallet_store) :=
  match keys with
  | [] => Some (result, w, other)
  | k :: keys' =>
      let prv := fetch other k in
      let result := result || negb (is_some prv) in
      match prv with
      | Some prv =>
          if negb result then
            match insert_adhoc w prv, erase other k with
            | Some (_, w), Some other => move_keys keys' result w other
            | _, _ => None
            end
          else move_keys keys' result w other
      | None => move_keys keys' result w other
      end
  end.

Definition move (w other : wallet_store) (keys : list Z) : option (bool * wallet_store * wallet_store) :=
  if valid_password w && valid_password other then move_keys keys false w other else None.

Definition import_body (k : Z) (_ : wallet_value) (s : bool * wallet_store * wallet_store)
    : option (Z * (bool * wallet_store * wallet_store)) :=
  let '(result, w, other) := s in
  let prv := fetch other k in
  let result := result || negb (is_some prv) in
  match prv with
  | Some prv =>
      if negb result then
        let inserted := if negb (prv =? 0) then option_map snd (insert_adhoc w prv) else Some (insert_watch w k) in
        match inserted, erase other k with
        | Some w, Some other => Some (k + 1, (result, w, other))
        | _, _ => None
        end
      else Some (k + 1, (result, w, other))
  | None => Some (k + 1, (result, w, other))
  end.

Definition import (w other : wallet_store) : option (bool * wallet_store * wallet_store) :=
  if valid_password w && valid_password other then
    walk snd import_body (walk_fuel other) special_count (false, w, other)
  else None.

End Keys.

End Wallet.
