(* ===== verification/WalletTheorems.v ===== *)
(** * The keys of a wallet: theorems

    Passwords, keys and seeds of [Wallet]: what is stored is found again, under the
    password that was set, across wrong attempts, restarts and moves between wallets. *)

From stdpp Require Import base gmap list.
From Stdlib Require Import ZArith Lia.
From S2P Require Import Prelude Blake2b Blocks Numbers Signing VoteStore Wallet.
Local Open Scope Z_scope.

Module WalletTheorems.
Import Wallet.Wallet.

#[local] Opaque Numbers.uint256_xor derive.

(** ** What is asked of the cipher and of the password hash *)

Class CipherLaws `{Cipher} := {
  encrypt_word (x k iv : Z) : word 256 x -> word 256 (encrypt x k iv);
  decrypt_word (x k iv : Z) : word 256 x -> word 256 (decrypt x k iv);
  decrypt_encrypt (x k iv : Z) : word 256 x -> decrypt (encrypt x k iv) k iv = x;
  phs_word (p : list Z) (s : Z) : word 256 (phs p s) }.

Lemma word_zero (n : Z) : word n 0 <-> 0 <= n.
Proof.
  unfold word. split; intros Hn; [| lia]. destruct (Z.le_gt_cases 0 n) as [| Hlt]; [done |].
  rewrite Z.pow_neg_r in Hn; lia.
Qed.

Lemma derive_total (s i : Z) : Numbers.deterministic_key s i = Some (derive s i) /\ word 256 (derive s i).
Proof.
  Transparent derive. unfold derive, Numbers.deterministic_key. rewrite Block.digest_of_spec by lia. split; [done |].
  destruct (Numbers.spec_blake2b_ok 32 (concat [be_bytes 32 s; be_bytes 4 i]) []) as [Hb Hl].
  pose proof (be_val_range _ Hb) as R. unfold word.
  pose proof (Z.pow_le_mono_r 2 (8 * Z.of_nat (length (Blake2bRef.spec_blake2b 32 (concat [be_bytes 32 s; be_bytes 4 i]) []))) 256
    ltac:(lia) ltac:(lia)). lia.
Qed.

#[local] Opaque derive.

(** ** The fan *)

Definition fan_ok (f : fan) : Prop := word 256 (values_first f) /\ Forall (word 256) (values_rest f).

Lemma xor_spec (x y : Z) : word 256 x -> word 256 y ->
  Numbers.uint256_xor x y = Z.lxor x y /\ word 256 (Z.lxor x y).
Proof.
  intros Hx Hy. split; [| apply lxor_range; [lia | exact Hx | exact Hy]].
  apply (Numbers.union_operators 0 0); unfold word in *; lia.
Qed.

Lemma fold_left_cons {A B : Type} (f : A -> B -> A) (y : B) (l : list B) (x : A) :
  fold_left f (y :: l) x = fold_left f l (f x y).
Proof. done. Qed.

Lemma xor_all_cons (y : Z) (l : list Z) (x : Z) : xor_all (y :: l) x = xor_all l (Numbers.uint256_xor x y).
Proof. exact (fold_left_cons Numbers.uint256_xor y l x). Qed.

Lemma xor_all_spec (l : list Z) (x : Z) : Forall (word 256) l -> word 256 x ->
  word 256 (xor_all l x) /\ xor_all l x = Z.lxor x (xor_all l 0).
Proof.
  intros Hl. revert x. induction Hl as [| y l Hy Hl IH]; intros x Hx; rewrite ?xor_all_cons.
  - split; [exact Hx |]. cbn. now rewrite Z.lxor_0_r.
  - destruct (xor_spec x y Hx Hy) as [-> W]. destruct (xor_spec 0 y) as [-> W0]; [now apply word_zero | done |].
    destruct (IH (Z.lxor x y) W) as [W' ->]. destruct (IH (Z.lxor 0 y) W0) as [_ ->]. split.
    + apply lxor_range; [lia | exact W | apply IH; now apply word_zero].
    + rewrite Z.lxor_0_l. apply Z.lxor_assoc.
Qed.

Lemma fan_value_word (f : fan) : fan_ok f -> word 256 (fan_value f).
Proof. intros [H1 H2]. apply xor_all_spec; [now constructor | now apply word_zero]. Qed.

Lemma fan_set_spec (f : fan) (v : Z) : fan_ok f -> word 256 v ->
  fan_ok (fan_value_set v f) /\ fan_value (fan_value_set v f) = v.
Proof.
  intros Hf Hv. pose proof (fan_value_word f Hf) as W. destruct Hf as [H1 H2].
  assert (E : fan_value f = Z.lxor (values_first f) (xor_all (values_rest f) 0)).
  { unfold fan_value. rewrite xor_all_cons. destruct (xor_spec 0 (values_first f)) as [-> _]; [now apply word_zero | done |].
    rewrite Z.lxor_0_l. now apply xor_all_spec. }
  unfold fan_value_set. destruct (xor_spec _ _ H1 W) as [-> W1]. destruct (xor_spec _ _ W1 Hv) as [-> W2].
  split; [split; [exact W2 | exact H2] |]. unfold fan_value at 1. rewrite xor_all_cons. cbn [values_first values_rest].
  destruct (xor_spec 0 _ (proj2 (word_zero 256) ltac:(lia)) W2) as [-> _]. rewrite Z.lxor_0_l.
  destruct (xor_all_spec _ _ H2 W2) as [_ ->]. rewrite E.
  rewrite <- (Z.lxor_assoc (values_first f)), Z.lxor_nilpotent, Z.lxor_0_l.
  now rewrite (Z.lxor_comm (xor_all _ 0) v), Z.lxor_assoc, Z.lxor_nilpotent, Z.lxor_0_r.
Qed.

(** A key that is spread over any number of values is put together again. *)
Lemma fan_new_spec (key : Z) (l : list Z) : word 256 key -> Forall (word 256) l ->
  fan_ok (fan_new key l) /\ fan_value (fan_new key l) = key.
Proof.
  intros Hk Hl. destruct (xor_all_spec l key Hl Hk) as [W E].
  assert (A : xor_all (l ++ [xor_all l key]) 0 = key).
  { unfold xor_all. rewrite fold_left_app. cbn. fold (xor_all l 0). fold (xor_all l key).
    destruct (xor_all_spec l 0 Hl) as [W0 _]; [now apply word_zero |].
    destruct (xor_spec _ _ W0 W) as [-> _]. rewrite E, (Z.lxor_comm key), <- Z.lxor_assoc, Z.lxor_nilpotent. apply Z.lxor_0_l. }
  unfold fan_new. set (first := xor_all l key) in *. clearbody first.
  destruct Hl as [| e es He Hes]; unfold fan_value, fan_ok; cbn [values_first values_rest app] in *.
  - split; [split; [exact W | constructor] |]. exact A.
  - split; [split; [exact He | apply Forall_app; split; [exact Hes |]] |]; [constructor; [exact W | constructor] |]. exact A.
Qed.

(** ** Cursors *)

Lemma seek_spec (lo : Z) (t : table) :
  match seek lo t with
  | Some (k, v) => t !! k = Some v /\ lo <= k /\ forall k', lo <= k' -> is_Some (t !! k') -> k <= k'
  | None => forall k, lo <= k -> t !! k = None
  end.
Proof.
  unfold seek. apply (map_fold_weak_ind (fun r (t : table) => match r with
    | Some (k, v) => t !! k = Some v /\ lo <= k /\ forall k', lo <= k' -> is_Some (t !! k') -> k <= k'
    | None => forall k, lo <= k -> t !! k = None end)).
  - intros k _. apply lookup_empty.
  - intros k v t' r Hn IH. destruct (Z.leb_spec lo k) as [Hk | Hk].
    + destruct r as [[k1 v1] |].
      * destruct IH as (I1 & I2 & I3). assert (k1 <> k) by congruence. destruct (Z.ltb_spec k k1).
        -- rewrite lookup_insert_eq. split_and!; [done | done |]. intros k' Hk' [-> | [_ Hs]]%lookup_insert_is_Some; [lia |].
           specialize (I3 k' Hk' Hs). lia.
        -- rewrite lookup_insert_ne by done. split_and!; [done | done |].
           intros k' Hk' [<- | [_ Hs]]%lookup_insert_is_Some; [lia | auto].
      * rewrite lookup_insert_eq. split_and!; [done | done |]. intros k' Hk' [-> | [Hne [x Hs]]]%lookup_insert_is_Some; [lia |].
        now rewrite IH in Hs.
    + destruct r as [[k1 v1] |].
      * destruct IH as (I1 & I2 & I3). rewrite lookup_insert_ne by lia. split_and!; [done | done |].
        intros k' Hk' [<- | [_ Hs]]%lookup_insert_is_Some; [lia | auto].
      * intros k' Hk'. rewrite lookup_insert_ne by lia. auto.
Qed.

Lemma find_lookup (w : wallet_store) (k : Z) : find w k = entries w !! k.
Proof.
  unfold find, begin_at. pose proof (seek_spec k (entries w)) as Hs. destruct (seek k (entries w)) as [[k1 v] |].
  - destruct Hs as (S1 & S2 & S3). destruct (Z.eqb_spec k1 k) as [-> | Hne]; [done |].
    destruct (entries w !! k) as [x |] eqn:E; [| done]. specialize (S3 k (Z.le_refl k) ltac:(eauto)). lia.
  - now rewrite Hs by lia.
Qed.

Lemma account_exists_spec (w : wallet_store) (a : Z) :
  exists_account w a = true <-> a <> 0 /\ is_Some (entries w !! a).
Proof.
  unfold exists_account. rewrite find_lookup, andb_true_iff, negb_true_iff, Z.eqb_neq.
  destruct (entries w !! a); cbn; split; intros [? ?]; split; try done; eauto.
Qed.

(** The entries from a place on. *)
Definition ahead (lo : Z) (t : table) : nat := base.size (filter (fun kv : Z * wallet_value => lo <= kv.1) t).

Lemma ahead_size (lo : Z) (t : table) : (ahead lo t <= base.size t)%nat.
Proof. apply map_size_filter. Qed.

(** An iteration leaves fewer entries ahead if it changes no entry ahead of the next
    place, and either passes or erases the entry it was at. *)
Lemma ahead_less (lo next k : Z) (v : wallet_value) (t t' : table) : seek lo t = Some (k, v) -> k <= next ->
  (forall k', next <= k' -> t' !! k' = if k' =? k then None else t !! k') -> (ahead next t' < ahead lo t)%nat.
Proof.
  intros E Hk Ht. pose proof (seek_spec lo t) as Hs. rewrite E in Hs. destruct Hs as (S1 & S2 & _).
  unfold ahead. apply map_subset_size. apply map_subset_alt. split.
  - apply map_subseteq_spec. intros k' v' [H1 H2]%map_lookup_filter_Some. cbn in H2. rewrite Ht in H1 by done.
    destruct (Z.eqb_spec k' k); [done |]. apply map_lookup_filter_Some. split; [exact H1 | cbn; lia].
  - exists k. split.
    + apply map_lookup_filter_None. destruct (Z.le_gt_cases next k); [left | right; cbn; intros; lia].
      now rewrite Ht, Z.eqb_refl.
    + exists v. apply map_lookup_filter_Some. split; [done | cbn; lia].
Qed.

(** Total correctness of a loop over a table: an invariant, and fuel for every entry. *)
Lemma walk_rule {S : Type} (view : S -> wallet_store) (body : Z -> wallet_value -> S -> option (Z * S))
  (I : Z -> S -> Prop) :
  (forall lo k v s, I lo s -> seek lo (entries (view s)) = Some (k, v) ->
     exists next s', body k v s = Some (next, s') /\ I next s' /\
       (ahead next (entries (view s')) < ahead lo (entries (view s)))%nat) ->
  forall fuel lo s, I lo s -> (ahead lo (entries (view s)) < fuel)%nat ->
  exists lo' s', walk view body fuel lo s = Some s' /\ I lo' s' /\ forall k, lo' <= k -> entries (view s') !! k = None.
Proof.
  intros Hstep. induction fuel as [| n IH]; intros lo s Hi Hf; [lia |]. cbn [walk]. unfold begin_at.
  destruct (seek lo (entries (view s))) as [[k v] |] eqn:E.
  - destruct (Hstep _ _ _ _ Hi E) as (next & s' & -> & Hi' & Hl). apply (IH next s'); [done | lia].
  - exists lo, s. split; [done |]. split; [done |]. pose proof (seek_spec lo (entries (view s))) as Hs. now rewrite E in Hs.
Qed.

Lemma walk_fuel_enough (lo : Z) (w : wallet_store) : (ahead lo (entries w) < walk_fuel w)%nat.
Proof. unfold walk_fuel. pose proof (ahead_size lo (entries w)). lia. Qed.

(** ** Keys *)

Section Keys.

Context {CI : Cipher} {CL : CipherLaws} {SG : VS.Signatures}.

Implicit Types (w other : wallet_store) (a prv : Z).

(** The wallet key in memory is that of the table. *)
Record wallet_ok w : Prop := {
  wk_words (k : Z) (v : wallet_value) : entries w !! k = Some v -> word 256 k /\ word 256 (wv_key v);
  wk_password : fan_ok (password w);
  wk_mem : fan_ok (wallet_key_mem w);
  wk_same : fan_value (wallet_key_mem w) = wv_key (entry_get_raw w wallet_key_special) }.

(** Two wallets that decrypt alike. *)
Record same_keys w w' : Prop := {
  sk_key : wallet_key w' = wallet_key w;
  sk_salt : salt w' = salt w;
  sk_check : check w' = check w;
  sk_seed : entry_get_raw w' seed_special = entry_get_raw w seed_special }.

#[local] Instance same_keys_preorder : PreOrder same_keys.
Proof. split; [done |]. intros x y z [] []. split; congruence. Qed.

Lemma same_valid w w' : same_keys w w' -> valid_password w' = valid_password w.
Proof. intros []. unfold valid_password. congruence. Qed.

Lemma same_seed w w' : same_keys w w' -> seed w' = seed w.
Proof. intros []. unfold seed. congruence. Qed.

Lemma same_fetch w w' a : same_keys w w' -> entry_get_raw w' a = entry_get_raw w a -> fetch w' a = fetch w a.
Proof.
  intros Hs E. unfold fetch, entry_key. rewrite E, (same_valid w w' Hs), (same_seed w w' Hs). destruct Hs as [-> _ _ _].
  reflexivity.
Qed.

Lemma get_put w (k : Z) (v : wallet_value) a :
  entry_get_raw (entry_put_raw w k v) a = if a =? k then v else entry_get_raw w a.
Proof.
  unfold entry_get_raw, entry_put_raw. cbn [entries set_entries]. destruct (Z.eqb_spec a k) as [-> | Hne].
  - now rewrite lookup_insert_eq.
  - now rewrite lookup_insert_ne by congruence.
Qed.

Lemma put_same w (k : Z) (v : wallet_value) : k <> salt_special -> k <> check_special -> k <> seed_special ->
  same_keys w (entry_put_raw w k v).
Proof.
  intros H1 H2 H3. assert (E : forall a, a <> k -> entry_get_raw (entry_put_raw w k v) a = entry_get_raw w a).
  { intros a Ha. rewrite get_put. now apply Z.eqb_neq in Ha as ->. }
  split; unfold wallet_key, salt, check; rewrite ?E by congruence; done.
Qed.

Lemma entry_put_ok w (k : Z) (v : wallet_value) : wallet_ok w -> k <> wallet_key_special -> word 256 k -> word 256 (wv_key v) ->
  wallet_ok (entry_put_raw w k v).
Proof.
  intros [O1 O2 O3 O4] Hk Wk Wv. split; [| done | done |].
  - intros k' v'. cbn [entries entry_put_raw set_entries]. intros [[<- <-] | [_ E]]%lookup_insert_Some; [done | eauto].
  - rewrite get_put. apply not_eq_sym, Z.eqb_neq in Hk. rewrite Hk. exact O4.
Qed.

Lemma get_word w a : wallet_ok w -> word 256 (wv_key (entry_get_raw w a)).
Proof.
  intros [O1 _ _ _]. unfold entry_get_raw. destruct (entries w !! a) as [v |] eqn:E; [now apply (O1 a) | now apply word_zero].
Qed.

Lemma wallet_key_word w : wallet_ok w -> word 256 (wallet_key w).
Proof. intros O. apply decrypt_word, fan_value_word, O. Qed.

Lemma fetch_inv w a prv : fetch w a = Some prv <->
  valid_password w = true /\ wv_key (entry_get_raw w a) <> 0 /\ entry_key w a (entry_get_raw w a) = Some prv /\
  VS.pub_key prv = a.
Proof.
  unfold fetch. destruct (valid_password w); [| now split; [| intros [? _]]].
  destruct (Z.eqb_spec (wv_key (entry_get_raw w a)) 0) as [E | E]; cbn [negb]; [now split; [| intros (_ & ? & _)] |].
  destruct (entry_key w a (entry_get_raw w a)) as [p |]; [| now split; [| intros (_ & _ & ? & _)]].
  destruct (Z.eqb_spec a (VS.pub_key p)) as [Ea | Ea].
  - split; [intros [= <-] | intros (_ & _ & [= ->] & _)]; auto.
  - split; [discriminate | intros (_ & _ & [= ->] & Ep); congruence].
Qed.

Lemma fetch_pub w a prv : fetch w a = Some prv -> VS.pub_key prv = a /\ valid_password w = true.
Proof. intros (V & _ & _ & E)%fetch_inv. auto. Qed.

Lemma fetch_word w a prv : wallet_ok w -> fetch w a = Some prv -> word 256 prv.
Proof.
  intros O (_ & _ & E & _)%fetch_inv. unfold entry_key in E.
  destruct (key_type _); [discriminate E | discriminate E | apply (inj Some) in E; subst prv ..]; [apply decrypt_word, get_word, O | apply derive_total].
Qed.

(** An account of which the wallet has the key has an entry. *)
Lemma fetch_entry w a prv : fetch w a = Some prv -> is_Some (entries w !! a).
Proof.
  intros (_ & E & _)%fetch_inv. unfold entry_get_raw in E. destruct (entries w !! a); [eauto | done].
Qed.

(** ** Single keys *)

(** A private key that can be kept: its account is not one of the special numbers, and
    its ciphertext is not one of the small numbers that mark the other kinds. *)
Definition storable w prv : Prop :=
  word 256 prv /\ special_count <= VS.pub_key prv /\
  2 ^ 64 <= encrypt prv (wallet_key w) (oword 0 (VS.pub_key prv)).

Lemma same_storable w w' prv : same_keys w w' -> storable w prv -> storable w' prv.
Proof. intros [E _ _ _]. unfold storable. now rewrite E. Qed.

Lemma insert_adhoc_spec w prv : wallet_ok w -> valid_password w = true -> storable w prv ->
  exists w', insert_adhoc w prv = Some (VS.pub_key prv, w') /\ wallet_ok w' /\ same_keys w w' /\
    fetch w' (VS.pub_key prv) = Some prv /\
    (forall a, a <> VS.pub_key prv -> entries w' !! a = entries w !! a) /\
    is_Some (entries w' !! VS.pub_key prv).
Proof.
  intros O V (W & S & C). unfold insert_adhoc. rewrite V. eexists. split; [done |].
  set (pub := VS.pub_key prv) in *. set (c := encrypt _ _ _) in *. unfold special_count in S.
  assert (Hs : same_keys w (entry_put_raw w pub (mk_value c 0))).
  { apply put_same; unfold salt_special, check_special, seed_special; lia. }
  split_and!.
  - apply entry_put_ok; [done | unfold wallet_key_special; lia | apply VS.pub_key_word | now apply encrypt_word].
  - exact Hs.
  - apply fetch_inv. rewrite (same_valid _ _ Hs), get_put, Z.eqb_refl. cbn [wv_key].
    split; [exact V |]. split; [lia |]. split; [| reflexivity]. unfold entry_key, key_type. cbn [wv_key].
    assert (2 ^ 64 - 1 < c) as ->%Z.ltb_lt by lia. destruct Hs as [-> _ _ _]. f_equal. now apply decrypt_encrypt.
  - intros a Ha. cbn. now rewrite lookup_insert_ne by congruence.
  - cbn. rewrite lookup_insert_eq. eauto.
Qed.

(** ** Derived keys *)

Lemma marker_spec (i : Z) : word 32 i -> marker i = 2 ^ 32 + i /\ u32 (marker i) = i.
Proof.
  intros Hi. unfold marker, word in *. rewrite Z.lor_comm, lor_shiftl by lia. split; [lia |].
  unfold u32. rewrite Z_mod_plus_full. now apply Z.mod_small.
Qed.

Lemma marker_kind (i work : Z) : word 32 i -> key_type (mk_value (marker i) work) = kt_deterministic.
Proof.
  intros Hi. destruct (marker_spec i Hi) as [E _]. unfold key_type, word in *. cbn [wv_key]. rewrite E.
  rewrite (proj2 (Z.ltb_ge _ _)) by lia. rewrite Z.shiftr_div_pow2 by lia.
  replace ((2 ^ 32 + i) / 2 ^ 32) with 1; [reflexivity |]. apply Z.div_unique with i; lia.
Qed.

Definition derived w (index : Z) : Z := VS.pub_key (derive (seed w) index).

(** The index [j] places after [i], which wraps around. *)
Definition place (i : Z) (j : nat) : Z := u32 (i + Z.of_nat j).

Lemma place_succ (i : Z) (j : nat) : place (u32 (i + 1)) j = place i (S j).
Proof. unfold place, u32. rewrite Zplus_mod_idemp_l. f_equal. lia. Qed.

Lemma unused_index_spec (fuel : nat) w (i : Z) : valid_password w = true -> word 32 i ->
  match unused_index fuel w i with
  | Some (a, k) => exists j, (j < fuel)%nat /\ k = place i j /\ a = derived w k /\ exists_account w a = false /\
      forall j', (j' < j)%nat -> exists_account w (derived w (place i j')) = true
  | None => forall j, (j < fuel)%nat -> exists_account w (derived w (place i j)) = true
  end.
Proof.
  intros V. revert i. induction fuel as [| n IH]; intros i Hi; [intros j Hj; lia |].
  cbn [unused_index]. unfold deterministic_key. rewrite V. fold (derived w i).
  assert (E0 : place i 0 = i) by (unfold place; change (Z.of_nat 0) with 0; rewrite Z.add_0_r; apply u32_small, Hi).
  destruct (exists_account w (derived w i)) eqn:Ex.
  - specialize (IH (u32 (i + 1)) (u32_range _)). destruct (unused_index n w (u32 (i + 1))) as [[a k] |].
    + destruct IH as (j & Hj & -> & -> & Hn & Hb). exists (S j). rewrite place_succ in *.
      split_and!; [lia | reflexivity | reflexivity | exact Hn |].
      intros [| j'] Hj'; [rewrite E0; exact Ex |]. rewrite <- place_succ. apply Hb. lia.
    + intros [| j] Hj; [rewrite E0; exact Ex |]. rewrite <- place_succ. apply IH. lia.
  - exists 0%nat. rewrite E0. split_and!; [lia | reflexivity | reflexivity | exact Ex |]. intros j' Hj'. lia.
Qed.

(** No two of the 2^32 derived accounts are equal, and none is a special number. *)
Definition distinct w : Prop :=
  (forall i j, word 32 i -> word 32 j -> derived w i = derived w j -> i = j) /\
  forall i, word 32 i -> special_count <= derived w i.

Lemma place_inj (i : Z) (j k : nat) : Z.of_nat j < 2 ^ 32 -> Z.of_nat k < 2 ^ 32 -> place i j = place i k -> j = k.
Proof.
  intros Hj Hk E. unfold place, u32 in E.
  assert (D : (Z.of_nat j - Z.of_nat k) mod 2 ^ 32 = 0).
  { replace (Z.of_nat j - Z.of_nat k) with ((i + Z.of_nat j) - (i + Z.of_nat k)) by lia.
    rewrite Zminus_mod, E, Z.sub_diag. reflexivity. }
  apply Z.mod_divide in D as [q D]; [| lia]. nia.
Qed.

(** More places than accounts: one of them is free. *)
Lemma some_free w (i : Z) : distinct w -> Z.of_nat (walk_fuel w) <= 2 ^ 32 ->
  ~ (forall j, (j < walk_fuel w)%nat -> exists_account w (derived w (place i j)) = true).
Proof.
  intros [Hd _] Hf Hall. set (l := (fun j => derived w (place i j)) <$> seq 0 (walk_fuel w)).
  assert (ND : NoDup l).
  { apply NoDup_fmap_2_strong; [| apply NoDup_ListNoDup, seq_NoDup]. intros j k Hj%elem_of_seq Hk%elem_of_seq E.
    apply (place_inj i); [lia | lia |]. apply Hd; [apply u32_range | apply u32_range | exact E]. }
  assert (Hs : (list_to_set l : gset Z) ⊆ dom (entries w)).
  { intros a [j [-> Hj%elem_of_seq]]%elem_of_list_to_set%list_elem_of_fmap. apply elem_of_dom.
    apply account_exists_spec, Hall. lia. }
  apply subseteq_size in Hs. rewrite size_list_to_set, size_dom in Hs by exact ND.
  unfold l in Hs. rewrite length_fmap, length_seq in Hs. unfold walk_fuel in Hs. lia.
Qed.

(** The index an insertion takes: the first, from the stored one on, whose account the
    wallet does not have. *)
Definition first_free w (k : Z) : Prop :=
  exists j : nat, k = place (deterministic_index_get w) j /\ exists_account w (derived w k) = false /\
    forall j', (j' < j)%nat -> exists_account w (derived w (place (deterministic_index_get w) j')) = true.

Lemma deterministic_insert_spec w : wallet_ok w -> valid_password w = true -> distinct w ->
  Z.of_nat (walk_fuel w) <= 2 ^ 32 ->
  exists k w', first_free w k /\ word 32 k /\ deterministic_insert w = Some (derived w k, w') /\
    wallet_ok w' /\ same_keys w w' /\ fetch w' (derived w k) = Some (derive (seed w) k) /\
    deterministic_index_get w' = u32 (k + 1) /\
    forall a, a <> derived w k -> a <> deterministic_index_special -> entries w' !! a = entries w !! a.
Proof.
  intros O V D F. unfold deterministic_insert. pose proof (unused_index_spec (walk_fuel w) w (deterministic_index_get w) V (u32_range _)) as Hu.
  destruct (unused_index _ _ _) as [[a k] |]; [| now apply (some_free w) in Hu].
  destruct Hu as (j & _ & Ek & -> & Hn & Hb). assert (Wk : word 32 k) by (rewrite Ek; apply u32_range).
  pose proof (proj2 D k Wk) as Hsp. unfold special_count in Hsp. set (a := derived w k) in *.
  destruct (marker_spec k Wk) as [Em Eu]. pose proof (u32_range (k + 1)) as Rk. unfold word in Wk.
  set (w1 := entry_put_raw w a (mk_value (marker k) 0)).
  assert (S1 : same_keys w w1) by (apply put_same; unfold salt_special, check_special, seed_special; lia).
  assert (S2 : same_keys w1 (deterministic_index_set w1 (u32 (k + 1)))) by (apply put_same; discriminate).
  exists k, (deterministic_index_set w1 (u32 (k + 1))). split; [exists j; auto |]. split; [exact Wk |]. split; [reflexivity |].
  split_and!.
  - apply entry_put_ok; [apply entry_put_ok; [done | unfold wallet_key_special; lia | apply VS.pub_key_word | unfold word; cbn [wv_key]; lia] |
      discriminate | unfold word, deterministic_index_special; lia | unfold word; cbn [wv_key]; lia].
  - now transitivity w1.
  - apply fetch_inv. rewrite (same_valid _ _ S2), (same_valid _ _ S1). unfold deterministic_index_set, w1. rewrite !get_put, Z.eqb_refl.
    fold a. assert (a <> deterministic_index_special) as ->%Z.eqb_neq by (unfold deterministic_index_special; lia). cbn [wv_key].
    split; [exact V |]. split; [lia |]. split; [| reflexivity]. unfold entry_key. rewrite marker_kind by exact Wk. cbn [wv_key].
    rewrite Eu. fold w1. fold (deterministic_index_set w1 (u32 (k + 1))). rewrite (same_seed _ _ S2), (same_seed _ _ S1). reflexivity.
  - unfold deterministic_index_get, deterministic_index_set. rewrite get_put, Z.eqb_refl. cbn [wv_key]. apply u32_small. lia.
  - intros b Hb1 Hb2. cbn [entries deterministic_index_set entry_put_raw set_entries w1].
    rewrite lookup_insert_ne by (intros E; exact (Hb2 (eq_sym E))).
    rewrite lookup_insert_ne by (intros E; exact (Hb1 (eq_sym E))). reflexivity.
Qed.

(** ** Seeds *)

Definition kept (v : wallet_value) : option wallet_value :=
  match key_type v with kt_deterministic => None | _ => Some v end.

(** The state of the loop at [lo]: an entry below was looked at, one above may have been
    erased. *)
Definition cleared w (lo : Z) w' : Prop :=
  password w' = password w /\ wallet_key_mem w' = wallet_key_mem w /\ special_count <= lo /\
  forall k, (k < special_count -> entries w' !! k = entries w !! k) /\
    (special_count <= k < lo -> entries w' !! k = entries w !! k ≫= kept) /\
    (entries w' !! k = entries w !! k \/ entries w' !! k = entries w !! k ≫= kept).

Lemma kept_spec (v : wallet_value) : key_type v <> kt_deterministic -> kept v = Some v.
Proof. unfold kept. now destruct (key_type v). Qed.

Lemma clear_step w (lo k : Z) (v : wallet_value) w' : cleared w lo w' -> seek lo (entries w') = Some (k, v) ->
  exists next s, clear_body k v w' = Some (next, s) /\ cleared w next s /\
    (ahead next (entries s) < ahead lo (entries w'))%nat.
Proof.
  intros (E1 & E2 & L & E) Hs. pose proof (seek_spec lo (entries w')) as Hk. rewrite Hs in Hk. destruct Hk as (K1 & K2 & K3).
  assert (Hgap : forall k', lo <= k' < k -> entries w' !! k' = entries w !! k' ≫= kept).
  { intros k' Hk'. assert (N : entries w' !! k' = None).
    { apply eq_None_not_Some. intros Hx. specialize (K3 k' ltac:(lia) Hx). lia. }
    destruct (E k') as (_ & _ & [F | F]); [| exact F]. rewrite <- F, N. done. }
  assert (Hv : entries w !! k = Some v).
  { destruct (E k) as (_ & _ & [F | F]); [congruence |]. rewrite K1 in F. destruct (entries w !! k) as [v' |]; [| done].
    cbn in F. unfold kept in F. destruct (key_type v'); congruence. }
  unfold clear_body. destruct (key_type v) eqn:Kt.
  1, 2, 3: exists (k + 1), w'; split; [done |]; split;
    [| apply (ahead_less lo (k + 1) k v); [done | lia |]; intros k' Hk'; now rewrite (proj2 (Z.eqb_neq k' k)) by lia];
    split_and!; [done | done | lia |]; intros k'; destruct (E k') as (F1 & F2 & F3); split_and!; [done | | done]; intros Hk';
    (destruct (Z.lt_trichotomy k' k) as [Hlt | [-> | Hgt]]; [| | lia]);
    [destruct (Z.lt_ge_cases k' lo); [apply F2; lia | apply Hgap; lia] |
     rewrite K1, Hv; cbn; symmetry; apply kept_spec; congruence].
  unfold erase. rewrite K1. cbn [option_map]. eexists k, _. split; [reflexivity |]. split.
  - split_and!; [done | done | lia |]. cbn [entries set_entries]. intros k'. destruct (E k') as (F1 & F2 & F3).
    destruct (Z.eq_dec k' k) as [-> | Hne].
    + rewrite lookup_delete_eq, Hv. cbn. unfold kept. rewrite Kt. split_and!; [lia | done | now right].
    + rewrite lookup_delete_ne by done. split_and!; [done | | done]. intros Hk'.
      destruct (Z.lt_ge_cases k' lo); [apply F2; lia | apply Hgap; lia].
  - apply (ahead_less lo k k v); [done | lia |]. cbn [entries set_entries]. intros k' Hk'.
    destruct (Z.eqb_spec k' k) as [-> |]; [apply lookup_delete_eq | now apply lookup_delete_ne].
Qed.

Lemma deterministic_clear_spec w : exists w', deterministic_clear w = Some (deterministic_index_set w' 0) /\
  password w' = password w /\ wallet_key_mem w' = wallet_key_mem w /\
  forall k, entries w' !! k = if special_count <=? k then entries w !! k ≫= kept else entries w !! k.
Proof.
  unfold deterministic_clear. destruct (walk_rule id clear_body (cleared w) (clear_step w) (walk_fuel w) special_count w) as
    (lo & w' & -> & (E1 & E2 & L & E) & Hend).
  - split_and!; [done | done | done |]. intros k. split_and!; [done | lia | now left].
  - apply walk_fuel_enough.
  - exists w'. split_and!; [done | done | done |]. intros k. destruct (E k) as (F1 & F2 & F3).
    destruct (Z.leb_spec special_count k); [| now apply F1]. destruct (Z.lt_ge_cases k lo) as [| Hk]; [now apply F2 |].
    destruct F3 as [F3 | F3]; [| done]. rewrite <- F3. pose proof (Hend k Hk) as N. cbn in N. now rewrite N.
Qed.

End Keys.

End WalletTheorems.
