(* ===== verification/WalletSpec.v ===== *)
(** * A wallet as a map of keys

    What a wallet promises: it is a map from accounts to private keys that can be read
    while the password that was set last has been entered.  [spec] is that map,
    [spec_step] what an operation does to it, and [wallet_refines] shows that the
    encrypted table of [Wallet] implements it, across wrong passwords and restarts.
    The operations are those of [nano::wallet] and of the RPC handlers, which test the
    password before they change a key ([nano/node/wallet.cpp], [nano/node/rpc.cpp]). *)

From stdpp Require Import base gmap list.
From Stdlib Require Import ZArith Lia.
From S2P Require Import Prelude Blake2b Blocks Numbers Signing VoteStore Wallet WalletTheorems.
Local Open Scope Z_scope.

Module WalletSpec.
Import Wallet.Wallet WalletTheorems.WalletTheorems.

#[local] Opaque Numbers.uint256_xor derive.

(** ** Operations *)

Inductive wallet_event :=
| we_adhoc (prv : Z)
| we_derive
| we_seed (s : Z)
| we_remove (a : Z)
| we_watch (a : Z)
| we_work (a work : Z)
| we_representative (a : Z)
| we_rekey (p : list Z)
| we_attempt (random : Z) (p : list Z)
| we_restart.

(** Where a key comes from. *)
Inductive origin := o_adhoc (prv : Z) | o_index (i : Z) | o_watch.

(** The keys; the index of the next derived key; the seed; the key derived from the
    password that was set, and the one entered; and what never changes: salt and wallet
    key. *)
Record spec := mk_spec {
  sp_keys : gmap Z origin; sp_index : Z; sp_seed : Z; sp_secret : Z; sp_entered : Z; sp_salt : Z; sp_key : Z }.

Definition with_keys (sp : spec) (m : gmap Z origin) (i s : Z) : spec :=
  mk_spec m i s (sp_secret sp) (sp_entered sp) (sp_salt sp) (sp_key sp).
Definition with_secret (sp : spec) (secret entered : Z) : spec :=
  mk_spec (sp_keys sp) (sp_index sp) (sp_seed sp) secret entered (sp_salt sp) (sp_key sp).

Definition unlocked (sp : spec) : bool := sp_entered sp =? sp_secret sp.

Section Spec.

Context {CI : Cipher} {SG : VS.Signatures}.

Definition sp_account (sp : spec) (i : Z) : Z := VS.pub_key (derive (sp_seed sp) i).

Definition key_of (sp : spec) (o : origin) : option Z :=
  match o with
  | o_adhoc prv => Some prv
  | o_index i => Some (derive (sp_seed sp) i)
  | o_watch => None
  end.

Definition spec_fetch (sp : spec) (a : Z) : option Z :=
  if unlocked sp then sp_keys sp !! a ≫= key_of sp else None.

(** The first index from the stored one on whose account is not there. *)
Definition spec_free (sp : spec) (j : nat) : Prop :=
  sp_keys sp !! sp_account sp (place (sp_index sp) j) = None /\
  forall j', (j' < j)%nat -> is_Some (sp_keys sp !! sp_account sp (place (sp_index sp) j')).

Definition underived (o : origin) : option origin := match o with o_index _ => None | _ => Some o end.

Inductive spec_step (sp : spec) : wallet_event -> spec -> Prop :=
| ss_locked (e : wallet_event) : unlocked sp = false ->
    match e with we_representative _ | we_attempt _ _ | we_restart | we_work _ _ => False | _ => True end ->
    spec_step sp e sp
| ss_adhoc (prv : Z) : unlocked sp = true ->
    spec_step sp (we_adhoc prv) (with_keys sp (<[VS.pub_key prv := o_adhoc prv]> (sp_keys sp)) (sp_index sp) (sp_seed sp))
| ss_derive (j : nat) : unlocked sp = true -> spec_free sp j ->
    let k := place (sp_index sp) j in
    spec_step sp we_derive (with_keys sp (<[sp_account sp k := o_index k]> (sp_keys sp)) (u32 (k + 1)) (sp_seed sp))
| ss_seed (s : Z) : unlocked sp = true ->
    spec_step sp (we_seed s) (with_keys sp (omap underived (sp_keys sp)) 0 s)
| ss_remove (a : Z) : unlocked sp = true ->
    spec_step sp (we_remove a) (with_keys sp (delete a (sp_keys sp)) (sp_index sp) (sp_seed sp))
| ss_watch (a : Z) : unlocked sp = true ->
    spec_step sp (we_watch a) (with_keys sp (<[a := o_watch]> (sp_keys sp)) (sp_index sp) (sp_seed sp))
| ss_work (a work : Z) : spec_step sp (we_work a work) sp
| ss_representative (a : Z) : spec_step sp (we_representative a) sp
| ss_rekey (p : list Z) : unlocked sp = true ->
    spec_step sp (we_rekey p) (with_secret sp (phs p (sp_salt sp)) (phs p (sp_salt sp)))
| ss_attempt (random : Z) (p : list Z) :
    spec_step sp (we_attempt random p) (with_secret sp (sp_secret sp) (phs p (sp_salt sp)))
| ss_restart : spec_step sp we_restart (with_secret sp (sp_secret sp) 0).

(** ** The wallet *)

(** Nothing is drawn when an existing table is opened, but the entries of the fans. *)
Definition event_step (d : draws) (w : wallet_store) (e : wallet_event) : option wallet_store :=
  match e with
  | we_adhoc prv => if valid_password w then option_map snd (insert_adhoc w prv) else Some w
  | we_derive => if valid_password w then option_map snd (deterministic_insert w) else Some w
  | we_seed s => if valid_password w then seed_set w s else Some w
  | we_remove a => if valid_password w then erase w a else Some w
  | we_watch a => if valid_password w then Some (insert_watch w a) else Some w
  | we_work a work => work_put w a work
  | we_representative a => Some (representative_set w a)
  | we_rekey p => Some (rekey w p).2
  | we_attempt random p => option_map snd (attempt_password random w p)
  | we_restart => wallet_open d 0 (entries w)
  end.

Fixpoint event_run (d : draws) (w : wallet_store) (es : list wallet_event) : option wallet_store :=
  match es with
  | [] => Some w
  | e :: es => match event_step d w e with Some w => event_run d w es | None => None end
  end.

(** ** What is asked of a run *)

(** A ciphertext that is not one of the small numbers that mark the other kinds of
    keys. *)
Definition large (sp : spec) (a prv : Z) : Prop := 2 ^ 64 <= encrypt prv (sp_key sp) (oword 0 a).

(** A key other than the right one that opens the wallet. *)
Definition opens_by_chance (sp : spec) (entered : Z) : Prop :=
  entered <> sp_secret sp /\
  encrypt 0 (decrypt (encrypt (sp_key sp) (sp_secret sp) (oword 0 (sp_salt sp))) entered (oword 0 (sp_salt sp)))
    (oword check_iv_index (sp_salt sp)) = encrypt 0 (sp_key sp) (oword check_iv_index (sp_salt sp)).

Definition event_ok (sp : spec) (e : wallet_event) : Prop :=
  match e with
  | we_adhoc prv => word 256 prv /\ special_count <= VS.pub_key prv /\ large sp (VS.pub_key prv) prv
  | we_derive => exists j, (j <= base.size (sp_keys sp))%nat /\ spec_free sp j /\
      forall j', (j' <= j)%nat -> special_count <= sp_account sp (place (sp_index sp) j')
  | we_seed s => word 256 s
  | we_remove a => is_Some (sp_keys sp !! a)
  | we_watch a => word 256 a /\ special_count <= a
  | we_work a work => exists o, sp_keys sp !! a = Some o /\ o <> o_watch
  | we_representative a => word 256 a
  | we_rekey p => True
  | we_attempt _ p => ~ opens_by_chance sp (phs p (sp_salt sp))
  | we_restart => ~ opens_by_chance sp 0
  end.

Fixpoint run_ok (sp : spec) (es : list wallet_event) : Prop :=
  match es with
  | [] => True
  | e :: es => event_ok sp e /\ forall sp', spec_step sp e sp' -> run_ok sp' es
  end.

Fixpoint spec_run (sp : spec) (es : list wallet_event) (sp' : spec) : Prop :=
  match es with
  | [] => sp' = sp
  | e :: es => exists sp1, spec_step sp e sp1 /\ spec_run sp1 es sp'
  end.

(** ** The relation *)

(** The entry of an account with a key of that origin. *)
Definition entry_of (sp : spec) (a : Z) (o : origin) (v : wallet_value) : Prop :=
  match o with
  | o_adhoc prv => word 256 prv /\ VS.pub_key prv = a /\ wv_key v = encrypt prv (sp_key sp) (oword 0 a) /\ large sp a prv
  | o_index i => word 32 i /\ sp_account sp i = a /\ wv_key v = marker i
  | o_watch => wv_key v = 0
  end.

Record implements (sp : spec) (w : wallet_store) : Prop := {
  im_ok : wallet_ok w;
  im_words : word 256 (sp_key sp) /\ word 256 (sp_seed sp) /\ word 256 (sp_secret sp) /\ word 32 (sp_index sp);
  im_version : version w = version_4;
  im_salt : salt w = sp_salt sp;
  im_check : check w = encrypt 0 (sp_key sp) (oword check_iv_index (sp_salt sp));
  im_wallet_key : wv_key (entry_get_raw w wallet_key_special) = encrypt (sp_key sp) (sp_secret sp) (oword 0 (sp_salt sp));
  im_seed : wv_key (entry_get_raw w seed_special) = encrypt (sp_seed sp) (sp_key sp) (oword seed_iv_index (sp_salt sp));
  im_index : wv_key (entry_get_raw w deterministic_index_special) = sp_index sp;
  im_entered : fan_value (password w) = sp_entered sp;
  im_chance : ~ opens_by_chance sp (sp_entered sp);
  im_special (a : Z) : is_Some (sp_keys sp !! a) -> special_count <= a;
  im_keys (a : Z) : special_count <= a -> match sp_keys sp !! a, entries w !! a with
    | Some o, Some v => entry_of sp a o v
    | None, None => True
    | _, _ => False
    end }.

End Spec.

Section Refinement.

Context {CI : Cipher} {CL : CipherLaws} {SG : VS.Signatures}.

Implicit Types (sp : spec) (w : wallet_store).

(** ** Locked and unlocked *)

Lemma im_key sp w : implements sp w ->
  wallet_key w = decrypt (encrypt (sp_key sp) (sp_secret sp) (oword 0 (sp_salt sp))) (sp_entered sp) (oword 0 (sp_salt sp)).
Proof.
  intros I. unfold wallet_key. rewrite (wk_same _ (im_ok _ _ I)), (im_wallet_key _ _ I), (im_entered _ _ I), (im_salt _ _ I).
  reflexivity.
Qed.

Lemma im_unlocked sp w : implements sp w -> unlocked sp = true ->
  wallet_key w = sp_key sp /\ valid_password w = true /\ seed w = sp_seed sp.
Proof.
  intros I U%Z.eqb_eq. destruct (im_words _ _ I) as (W1 & W2 & _).
  assert (K : wallet_key w = sp_key sp) by (rewrite (im_key _ _ I), U; now apply decrypt_encrypt).
  split; [exact K |]. split.
  - unfold valid_password. rewrite K, (im_check _ _ I), (im_salt _ _ I). apply Z.eqb_refl.
  - unfold seed. rewrite K, (im_seed _ _ I), (im_salt _ _ I). now apply decrypt_encrypt.
Qed.

Lemma im_locked sp w : implements sp w -> unlocked sp = false -> valid_password w = false.
Proof.
  intros I U%Z.eqb_neq. unfold valid_password. apply Z.eqb_neq. rewrite (im_key _ _ I), (im_check _ _ I), (im_salt _ _ I).
  intros E. apply (im_chance _ _ I). now split.
Qed.

(** Reading a key. *)
Lemma im_fetch sp w (a : Z) : implements sp w -> special_count <= a -> fetch w a = spec_fetch sp a.
Proof.
  intros I Ha. unfold spec_fetch. destruct (unlocked sp) eqn:U.
  2: { unfold fetch. now rewrite (im_locked _ _ I U). }
  destruct (im_unlocked _ _ I U) as (K & V & S). pose proof (im_keys _ _ I a Ha) as Hk.
  unfold fetch. rewrite V. unfold entry_get_raw.
  destruct (sp_keys sp !! a) as [o |], (entries w !! a) as [v |]; try done. cbn [mbind option_bind].
  unfold entry_key. destruct o as [prv | i |]; cbn [entry_of key_of] in *.
  - destruct Hk as (W & P & E & L). unfold large in L. rewrite <- E in L. unfold key_type.
    rewrite (proj2 (Z.eqb_neq _ 0)), (proj2 (Z.ltb_lt _ _)) by lia. cbn [negb].
    rewrite E, K, decrypt_encrypt, P, Z.eqb_refl by exact W. reflexivity.
  - destruct Hk as (W & P & E). destruct (marker_spec i W) as [M1 M2]. rewrite E.
    rewrite (proj2 (Z.eqb_neq _ 0)) by (unfold word in W; lia). cbn [negb].
    destruct v as [vk vw]. cbn [wv_key] in *. rewrite E, marker_kind, M2, S by exact W. unfold sp_account in P.
    rewrite P, Z.eqb_refl. reflexivity.
  - rewrite Hk. reflexivity.
Qed.

(** ** Steps *)

Lemma im_replace sp w w' (m : gmap Z origin) (i s : Z) : implements sp w -> wallet_ok w' -> password w' = password w ->
  word 32 i -> word 256 s -> (forall a, 0 <= a <= check_special -> entry_get_raw w' a = entry_get_raw w a) ->
  wv_key (entry_get_raw w' seed_special) = encrypt s (sp_key sp) (oword seed_iv_index (sp_salt sp)) ->
  wv_key (entry_get_raw w' deterministic_index_special) = i ->
  (forall a, is_Some (m !! a) -> special_count <= a) ->
  (forall a, special_count <= a -> match m !! a, entries w' !! a with
    | Some o, Some v => entry_of (with_keys sp m i s) a o v
    | None, None => True
    | _, _ => False
    end) ->
  implements (with_keys sp m i s) w'.
Proof.
  intros I O P Wi Ws E Es Ei Hm Hk. unfold check_special in E. destruct (im_words _ _ I) as (W1 & _ & W3 & _). split; try done.
  - unfold version. rewrite E by done. apply (im_version _ _ I).
  - unfold salt. rewrite E by done. apply (im_salt _ _ I).
  - unfold check. rewrite E by done. apply (im_check _ _ I).
  - rewrite E by done. apply (im_wallet_key _ _ I).
  - rewrite P. apply (im_entered _ _ I).
  - apply (im_chance _ _ I).
Qed.

(** Writing the entry of an account. *)
Lemma im_write sp w (a : Z) (o : origin) (v : wallet_value) : implements sp w -> special_count <= a ->
  word 256 a -> word 256 (wv_key v) -> entry_of sp a o v ->
  implements (with_keys sp (<[a := o]> (sp_keys sp)) (sp_index sp) (sp_seed sp)) (entry_put_raw w a v).
Proof.
  intros I Ha Wa Wv Ho. unfold special_count in Ha. destruct (im_words _ _ I) as (_ & W2 & _ & W4).
  assert (G : forall b, b < 7 -> entry_get_raw (entry_put_raw w a v) b = entry_get_raw w b).
  { intros b Hb. rewrite get_put, (proj2 (Z.eqb_neq _ _)) by lia. reflexivity. }
  apply im_replace with w; try done.
  - apply entry_put_ok; [apply I | unfold wallet_key_special; lia | done | done].
  - unfold check_special. intros b Hb. apply G. lia.
  - rewrite G by done. apply (im_seed _ _ I).
  - rewrite G by done. apply (im_index _ _ I).
  - intros b [<- | [_ Hb]]%lookup_insert_is_Some; [done | now apply (im_special _ _ I)].
  - intros b Hb. cbn [entries entry_put_raw set_entries]. destruct (Z.eq_dec a b) as [<- | Hne].
    + now rewrite !lookup_insert_eq.
    + rewrite !lookup_insert_ne by done. pose proof (im_keys _ _ I b Hb) as Hk.
      destruct (sp_keys sp !! b), (entries w !! b); done.
Qed.

Lemma im_remove sp w (a : Z) : implements sp w -> is_Some (sp_keys sp !! a) ->
  exists w', erase w a = Some w' /\
    implements (with_keys sp (delete a (sp_keys sp)) (sp_index sp) (sp_seed sp)) w'.
Proof.
  intros I Ha. pose proof (im_special _ _ I a Ha) as S. destruct (im_words _ _ I) as (_ & W2 & _ & W4).
  unfold erase. pose proof (im_keys _ _ I a S) as Ka. destruct Ha as [o Eo]. rewrite Eo in Ka.
  destruct (entries w !! a) as [v |] eqn:Ev; [| done]. eexists. split; [reflexivity |]. unfold special_count in S.
  assert (G : forall b, b < 7 -> entry_get_raw (set_entries w (delete a (entries w))) b = entry_get_raw w b).
  { intros b Hb. unfold entry_get_raw. cbn [entries set_entries]. rewrite lookup_delete_ne by lia. reflexivity. }
  apply im_replace with w; try done.
  - destruct (im_ok _ _ I) as [O1 O2 O3 O4]. split; try done.
    + intros k v'. cbn [entries set_entries]. intros [_ E]%lookup_delete_Some. eauto.
    + rewrite G by done. exact O4.
  - unfold check_special. intros b Hb. apply G. lia.
  - rewrite G by done. apply (im_seed _ _ I).
  - rewrite G by done. apply (im_index _ _ I).
  - intros b [v' [_ Hb]%lookup_delete_Some]. apply (im_special _ _ I). eauto.
  - intros b Hb. cbn [entries set_entries]. destruct (Z.eq_dec a b) as [<- | Hne].
    + now rewrite !lookup_delete_eq.
    + rewrite !lookup_delete_ne by done. pose proof (im_keys _ _ I b Hb) as Hk.
      destruct (sp_keys sp !! b), (entries w !! b); done.
Qed.

(** The entry of a stored account, as the loop for a free index sees it. *)
Lemma im_exists sp w (a : Z) : implements sp w -> special_count <= a ->
  exists_account w a = true <-> is_Some (sp_keys sp !! a).
Proof.
  intros I Ha. rewrite account_exists_spec. pose proof (im_keys _ _ I a Ha) as Hk. unfold special_count in Ha.
  destruct (sp_keys sp !! a), (entries w !! a); try done; split.
  - eauto.
  - intros _. split; [lia | eauto].
  - now intros [_ [x Hx]].
  - now intros [x Hx].
Qed.

(** At least as much fuel as keys. *)
Lemma im_size sp w : implements sp w -> (base.size (sp_keys sp) < walk_fuel w)%nat.
Proof.
  intros I. unfold walk_fuel. assert (Hs : dom (sp_keys sp) ⊆ dom (entries w)).
  { intros a Ha%elem_of_dom. pose proof (im_keys _ _ I a (im_special _ _ I a Ha)) as Hk. destruct Ha as [o Ho].
    rewrite Ho in Hk. apply elem_of_dom. destruct (entries w !! a); [eauto | done]. }
  apply subseteq_size in Hs. rewrite !size_dom in Hs. lia.
Qed.

Lemma im_adhoc sp w (prv : Z) : implements sp w -> unlocked sp = true -> event_ok sp (we_adhoc prv) ->
  exists w', option_map snd (insert_adhoc w prv) = Some w' /\
    implements (with_keys sp (<[VS.pub_key prv := o_adhoc prv]> (sp_keys sp)) (sp_index sp) (sp_seed sp)) w'.
Proof.
  intros I U (W & S & L). destruct (im_unlocked _ _ I U) as (K & V & _). unfold insert_adhoc. rewrite V, K.
  eexists. split; [reflexivity |]. apply im_write; [done | done | apply VS.pub_key_word | now apply encrypt_word | now split_and!].
Qed.

Lemma im_derive sp w : implements sp w -> unlocked sp = true -> event_ok sp we_derive ->
  exists w' sp', option_map snd (deterministic_insert w) = Some w' /\ spec_step sp we_derive sp' /\ implements sp' w'.
Proof.
  intros I U (j & Hj & (Hn & Hb) & Hs). destruct (im_unlocked _ _ I U) as (K & V & S).
  destruct (im_words _ _ I) as (_ & W2 & _ & W4).
  assert (Ei : deterministic_index_get w = sp_index sp).
  { unfold deterministic_index_get. rewrite (im_index _ _ I). now apply u32_small. }
  assert (Ed : forall i, derived w i = sp_account sp i) by (intros i; unfold derived, sp_account; now rewrite S).
  unfold deterministic_insert. rewrite Ei. pose proof (unused_index_spec (walk_fuel w) w (sp_index sp) V W4) as Hu.
  pose proof (im_size _ _ I) as Hz. destruct (unused_index _ _ _) as [[a k] |].
  2: { exfalso. specialize (Hu j ltac:(lia)). rewrite Ed in Hu. apply (im_exists _ _ _ I) in Hu; [| now apply Hs].
       rewrite Hn in Hu. now destruct Hu. }
  destruct Hu as (j' & _ & -> & -> & Hn' & Hb'). rewrite Ed in Hn'.
  assert (Ej : j' = j).
  { destruct (Nat.lt_trichotomy j' j) as [Hlt | [E | Hgt]]; [exfalso | exact E | exfalso].
    - pose proof (proj2 (im_exists _ _ _ I (Hs j' ltac:(lia))) (Hb j' Hlt)). congruence.
    - pose proof (Hb' j Hgt) as Hx. rewrite Ed in Hx. apply (im_exists _ _ _ I) in Hx; [| now apply Hs].
      rewrite Hn in Hx. now destruct Hx. }
  subst j'. rewrite Ed. set (k := place (sp_index sp) j) in *. assert (Wk : word 32 k) by apply u32_range.
  destruct (marker_spec k Wk) as [Em _]. pose proof (u32_range (k + 1)) as Rk. pose proof (Hs j ltac:(lia)) as Sa. fold k in Sa.
  eexists _, _. split; [reflexivity |]. split; [apply (ss_derive sp j); [done | now split] |]. fold k. cbn [snd].
  assert (I1 : implements (with_keys sp (<[sp_account sp k := o_index k]> (sp_keys sp)) (sp_index sp) (sp_seed sp))
    (entry_put_raw w (sp_account sp k) (mk_value (marker k) 0))).
  { apply im_write; [done | done | apply VS.pub_key_word | unfold word in *; cbn [wv_key]; lia | now split_and!]. }
  set (w1 := entry_put_raw _ _ _) in *. set (m := <[_ := _]> _) in *.
  assert (G : forall b, b <> 6 -> entry_get_raw (deterministic_index_set w1 (u32 (k + 1))) b = entry_get_raw w1 b).
  { intros b Hne. unfold deterministic_index_set, deterministic_index_special. rewrite get_put, (proj2 (Z.eqb_neq _ _)) by lia. reflexivity. }
  apply (im_replace (with_keys sp m (sp_index sp) (sp_seed sp)) w1 _ m); try done.
  - apply entry_put_ok; [apply I1 | done | unfold word, deterministic_index_special; lia | unfold word; cbn [wv_key]; lia].
  - unfold check_special. intros b Hb0. apply G. lia.
  - rewrite G by done. apply (im_seed _ _ I1).
  - unfold deterministic_index_set. rewrite get_put, Z.eqb_refl. reflexivity.
  - apply (im_special _ _ I1).
  - intros b Hb0. unfold special_count in Hb0. cbn [entries deterministic_index_set entry_put_raw set_entries].
    rewrite lookup_insert_ne by (unfold deterministic_index_special; lia). pose proof (im_keys _ _ I1 b Hb0) as Hk.
    cbn [sp_keys with_keys] in Hk. now destruct (m !! b), (entries w1 !! b).
Qed.

Lemma with_keys_id sp : with_keys sp (sp_keys sp) (sp_index sp) (sp_seed sp) = sp.
Proof. now destruct sp. Qed.

Lemma kept_entry sp (m : gmap Z origin) (a s : Z) (o : origin) (v : wallet_value) : entry_of sp a o v ->
  match underived o, kept v with
  | Some o, Some v => entry_of (with_keys sp m 0 s) a o v
  | None, None => True
  | _, _ => False
  end.
Proof.
  destruct o as [prv | i |]; cbn [entry_of underived].
  - intros (W & P & E & L). rewrite kept_spec; [done |]. unfold large in L. rewrite <- E in L. unfold key_type.
    now rewrite (proj2 (Z.ltb_lt _ _)) by lia.
  - intros (W & P & E). destruct v as [vk vw]. cbn [wv_key] in E. unfold kept. now rewrite E, marker_kind.
  - intros E. rewrite kept_spec; [done |]. unfold key_type. now rewrite E.
Qed.

Lemma im_reseed sp w (s : Z) : implements sp w -> unlocked sp = true -> word 256 s ->
  exists w', seed_set w s = Some w' /\ implements (with_keys sp (omap underived (sp_keys sp)) 0 s) w'.
Proof.
  intros I U Ws. destruct (im_unlocked _ _ I U) as (K & _ & _). unfold seed_set. rewrite K, (im_salt _ _ I).
  set (c := mk_value (encrypt s _ _) 0). destruct (deterministic_clear_spec (entry_put_raw w seed_special c)) as (w1 & -> & P & M & E).
  eexists. split; [reflexivity |].
  assert (G : forall b, b < 6 -> entry_get_raw (deterministic_index_set w1 0) b = if b =? seed_special then c else entry_get_raw w b).
  { intros b Hb. unfold deterministic_index_set, deterministic_index_special. rewrite get_put, (proj2 (Z.eqb_neq _ _)), <- get_put by lia.
    unfold entry_get_raw at 1. rewrite E, (proj2 (Z.leb_gt _ _)) by (unfold special_count; lia). reflexivity. }
  assert (O1 : wallet_ok (entry_put_raw w seed_special c)).
  { apply entry_put_ok; [apply I | done | unfold word, seed_special; lia | now apply encrypt_word]. }
  assert (O2 : wallet_ok w1).
  { destruct O1 as [A1 A2 A3 A4]. rewrite <- P in A2. rewrite <- M in A3, A4. split; try done.
    - intros k v. rewrite E. destruct (special_count <=? k); [| apply A1]. intros (v' & Hv & Hk)%bind_Some.
      unfold kept in Hk. destruct (key_type v'); simplify_eq; eauto.
    - rewrite A4. unfold entry_get_raw at 2. now rewrite E. }
  apply im_replace with w; try done.
  - apply entry_put_ok; [done | done | unfold word, deterministic_index_special; lia | unfold word; cbn [wv_key]; lia].
  - unfold check_special. intros b Hb. rewrite G by lia. unfold seed_special. rewrite (proj2 (Z.eqb_neq _ _)) by lia. reflexivity.
  - rewrite G by done. rewrite Z.eqb_refl. reflexivity.
  - unfold deterministic_index_set. rewrite get_put, Z.eqb_refl. reflexivity.
  - intros a [o Ho]. rewrite lookup_omap in Ho. apply bind_Some in Ho as (o' & Ho & _). apply (im_special _ _ I). eauto.
  - intros a Ha. unfold special_count in Ha. cbn [entries deterministic_index_set entry_put_raw set_entries].
    rewrite lookup_insert_ne, lookup_omap, E by (unfold deterministic_index_special; lia).
    rewrite (proj2 (Z.leb_le _ _)) by exact Ha. cbn [entries entry_put_raw set_entries].
    rewrite lookup_insert_ne by (unfold seed_special; lia). pose proof (im_keys _ _ I a Ha) as Hk.
    destruct (sp_keys sp !! a) as [o |], (entries w !! a) as [v |]; try done. cbn [mbind option_bind]. now apply kept_entry.
Qed.

Lemma im_work sp w (a work : Z) : implements sp w -> event_ok sp (we_work a work) ->
  exists w', work_put w a work = Some w' /\ implements sp w'.
Proof.
  intros I (o & Ho & Hw). pose proof (im_special _ _ I a ltac:(eauto)) as S. pose proof (im_keys _ _ I a S) as Hk. rewrite Ho in Hk.
  destruct (entries w !! a) as [v |] eqn:Ev; [| done]. destruct (wk_words _ (im_ok _ _ I) _ _ Ev) as [Wa Wv].
  unfold work_put, entry_get_raw. rewrite Ev.
  assert (wv_key v <> 0) as ->%Z.eqb_neq.
  { destruct o as [prv | i |]; cbn [entry_of] in Hk; [| | done].
    - destruct Hk as (_ & _ & E & L). unfold large in L. lia.
    - destruct Hk as (W & _ & E). destruct (marker_spec i W) as [M _]. unfold word in W. lia. }
  cbn [negb]. eexists. split; [reflexivity |]. rewrite <- (with_keys_id sp). rewrite <- (insert_id _ _ _ Ho).
  apply im_write; [done | done | done | done |]. now destruct o.
Qed.

Lemma im_representative sp w (a : Z) : implements sp w -> word 256 a -> implements sp (representative_set w a).
Proof.
  intros I Wa. destruct (im_words _ _ I) as (_ & W2 & _ & W4). rewrite <- (with_keys_id sp).
  assert (G : forall b, b <> 4 -> entry_get_raw (representative_set w a) b = entry_get_raw w b).
  { intros b Hb. unfold representative_set, representative_special. rewrite get_put, (proj2 (Z.eqb_neq _ _)) by lia. reflexivity. }
  apply im_replace with w; try done.
  - apply entry_put_ok; [apply I | done | unfold word, representative_special; lia | done].
  - unfold check_special. intros b Hb. apply G. lia.
  - rewrite G by done. apply (im_seed _ _ I).
  - rewrite G by done. apply (im_index _ _ I).
  - apply (im_special _ _ I).
  - intros b Hb. unfold special_count in Hb. cbn [entries representative_set entry_put_raw set_entries].
    rewrite lookup_insert_ne by (unfold representative_special; lia). apply (im_keys _ _ I b Hb).
Qed.

(** ** Passwords *)

(** The table but for the wallet key is as it was; the password that was set or entered
    may be another. *)
Lemma im_password sp w w' (secret entered : Z) : implements sp w -> wallet_ok w' -> word 256 secret ->
  (forall a, a <> wallet_key_special -> entries w' !! a = entries w !! a) ->
  wv_key (entry_get_raw w' wallet_key_special) = encrypt (sp_key sp) secret (oword 0 (sp_salt sp)) ->
  fan_value (password w') = entered -> ~ opens_by_chance (with_secret sp secret entered) entered ->
  implements (with_secret sp secret entered) w'.
Proof.
  intros I O Ws E Ek Ee Hc. destruct (im_words _ _ I) as (W1 & W2 & _ & W4).
  assert (G : forall b, b <> wallet_key_special -> entry_get_raw w' b = entry_get_raw w b).
  { intros b Hb. unfold entry_get_raw. now rewrite E. }
  split; try done.
  - unfold version. rewrite G by done. apply (im_version _ _ I).
  - unfold salt. rewrite G by done. apply (im_salt _ _ I).
  - unfold check. rewrite G by done. apply (im_check _ _ I).
  - rewrite G by done. apply (im_seed _ _ I).
  - rewrite G by done. apply (im_index _ _ I).
  - apply (im_special _ _ I).
  - intros a Ha. unfold special_count in Ha. rewrite E by (unfold wallet_key_special; lia). apply (im_keys _ _ I a Ha).
Qed.

Lemma im_rekey sp w (p : list Z) : implements sp w -> unlocked sp = true ->
  implements (with_secret sp (phs p (sp_salt sp)) (phs p (sp_salt sp))) (rekey w p).2.
Proof.
  intros I U. destruct (im_unlocked _ _ I U) as (K & V & _). unfold rekey. rewrite V, K. cbn [snd].
  destruct (im_words _ _ I) as (W1 & _). destruct (im_ok _ _ I) as [O1 O2 O3 O4]. unfold derive_key.
  change (salt (set_password _ _)) with (salt w). rewrite (im_salt _ _ I). set (k := phs p (sp_salt sp)).
  assert (Wk : word 256 k) by apply phs_word. destruct (fan_set_spec _ k O2 Wk) as [F1 F2].
  cbn [wallet_key_mem set_password].
  assert (We : word 256 (encrypt (sp_key sp) k (oword 0 (sp_salt sp)))) by now apply encrypt_word.
  destruct (fan_set_spec _ _ O3 We) as [F3 F4]. set (c := encrypt _ _ _) in *.
  apply im_password with w; try done.
  - split; try done.
    + intros b v. cbn [entries entry_put_raw set_entries set_key_mem set_password].
      intros [[<- <-] | [_ E]]%lookup_insert_Some; [split; [unfold word, wallet_key_special; lia | exact We] | eauto].
    + rewrite get_put, Z.eqb_refl. exact F4.
  - intros a Ha. cbn [entries entry_put_raw set_entries set_key_mem set_password]. now rewrite lookup_insert_ne by congruence.
  - rewrite get_put, Z.eqb_refl. reflexivity.
  - intros [Hne _]. now destruct Hne.
Qed.

Lemma im_attempt sp w (random : Z) (p : list Z) : implements sp w -> event_ok sp (we_attempt random p) ->
  exists w', attempt_password random w p = Some (negb (phs p (sp_salt sp) =? sp_secret sp), w') /\
    implements (with_secret sp (sp_secret sp) (phs p (sp_salt sp))) w'.
Proof.
  intros I Hc. cbn [event_ok] in Hc. destruct (im_words _ _ I) as (_ & _ & W3 & _). destruct (im_ok _ _ I) as [O1 O2 O3 O4].
  unfold attempt_password, derive_key. rewrite (im_salt _ _ I). set (k := phs p (sp_salt sp)) in *.
  assert (Wk : word 256 k) by apply phs_word. destruct (fan_set_spec _ k O2 Wk) as [F1 F2].
  set (w1 := set_password w _). assert (I1 : implements (with_secret sp (sp_secret sp) k) w1).
  { apply im_password with w; try done. apply (im_wallet_key _ _ I). }
  exists w1. destruct (Z.eqb_spec k (sp_secret sp)) as [E | E]; cbn [negb].
  - destruct (im_unlocked _ _ I1) as (_ & -> & _); [now apply Z.eqb_eq |]. unfold upgrade.
    change (version w1) with (version w). rewrite (im_version _ _ I). done.
  - rewrite (im_locked _ _ I1) by now apply Z.eqb_neq. done.
Qed.

Lemma im_restart sp w (d : draws) : implements sp w -> event_ok sp we_restart ->
  Forall (word 256) (d_password d) -> Forall (word 256) (d_key_mem d) ->
  exists w', wallet_open d 0 (entries w) = Some w' /\ implements (with_secret sp (sp_secret sp) 0) w'.
Proof.
  intros I Hc D1 D2. destruct (im_words _ _ I) as (_ & _ & W3 & _). destruct (im_ok _ _ I) as [O1 O2 O3 O4].
  unfold wallet_open. assert (Ev : is_some (entries w !! version_special) = true).
  { pose proof (im_version _ _ I) as E. unfold version, entry_get_raw in E. destruct (entries w !! version_special); done. }
  rewrite Ev. cbn [wallet_key_mem]. eexists. split; [reflexivity |].
  destruct (fan_new_spec 0 (d_password d)) as [F1 F2]; [now apply word_zero | done |].
  destruct (fan_new_spec 0 (d_key_mem d)) as [F3 F4]; [now apply word_zero | done |].
  change (entry_get_raw (mk_wallet (entries w) _ _) wallet_key_special) with (entry_get_raw w wallet_key_special).
  destruct (fan_set_spec _ (wv_key (entry_get_raw w wallet_key_special)) F3) as [F5 F6]; [now apply get_word, I |].
  apply im_password with w; try done. apply (im_wallet_key _ _ I).
Qed.

(** ** A new wallet *)

Definition draws_ok (d : draws) : Prop :=
  Forall (word 256) (d_password d) /\ Forall (word 256) (d_key_mem d) /\
  word 256 (d_salt d) /\ word 256 (d_wallet_key d) /\ word 256 (d_seed d).

Definition new_spec (d : draws) : spec := mk_spec ∅ 0 (d_seed d) 0 0 (d_salt d) (d_wallet_key d).

Lemma wallet_new_ok (d : draws) (representative_a : Z) : draws_ok d -> word 256 representative_a ->
  exists w, wallet_open d representative_a ∅ = Some w /\ implements (new_spec d) w.
Proof.
  intros (D1 & D2 & D3 & D4 & D5) Hr. assert (Z0 : word 256 0) by now apply word_zero.
  unfold wallet_open. rewrite lookup_empty. cbn [is_some]. unfold wallet_fill.
  destruct (fan_new_spec 0 (d_password d) Z0 D1) as [F1 _]. destruct (fan_new_spec 0 (d_key_mem d) Z0 D2) as [F2 _].
  assert (We : word 256 (encrypt (d_wallet_key d) 0 (oword 0 (d_salt d)))) by now apply encrypt_word.
  destruct (fan_set_spec _ 0 F1 Z0) as [F3 F4]. destruct (fan_set_spec _ _ F2 We) as [F5 F6].
  set (c2 := encrypt (d_wallet_key d) 0 _) in *.
  match goal with |- context [seed_set ?x (d_seed d)] => set (w0 := x) end.
  assert (S0 : salt w0 = d_salt d) by reflexivity.
  assert (K0 : wallet_key w0 = d_wallet_key d).
  { unfold wallet_key. rewrite S0. change (fan_value (wallet_key_mem w0)) with (fan_value (fan_value_set c2 (fan_new 0 (d_key_mem d)))).
    change (fan_value (password w0)) with (fan_value (fan_value_set 0 (fan_new 0 (d_password d)))). rewrite F4, F6.
    now apply decrypt_encrypt. }
  unfold seed_set. rewrite K0, S0. set (c5 := mk_value (encrypt (d_seed d) _ _) 0).
  destruct (deterministic_clear_spec (entry_put_raw w0 seed_special c5)) as (w1 & -> & P & M & E).
  eexists. split; [reflexivity |].
  match goal with |- implements _ ?x => set (w := x) end.
  set (v6 := mk_value 0 0).
  set (e5 := entries (entry_put_raw w0 seed_special c5)) in *.
  assert (H6 : forall k, entries w !! k = if k =? 6 then Some v6 else if special_count <=? k then None else e5 !! k).
  { intros k. change (entries w !! k) with (<[6 := v6]> (<[6 := v6]> (entries w1)) !! k). rewrite insert_insert_eq.
    destruct (Z.eqb_spec k 6) as [-> |]; [now rewrite lookup_insert_eq |]. rewrite lookup_insert_ne, E by congruence.
    destruct (Z.leb_spec special_count k) as [Hk |]; [| done]. unfold special_count in Hk.
    unfold e5. cbn [entries entry_put_raw set_entries w0 set_key_mem set_password version_put].
    unfold version_special, salt_special, wallet_key_special, check_special, representative_special, seed_special.
    rewrite !lookup_insert_ne, lookup_empty by lia. done. }
  assert (E2 : wv_key (entry_get_raw w wallet_key_special) = c2) by (unfold entry_get_raw; rewrite H6; reflexivity).
  assert (O : wallet_ok w).
  { split.
    - intros k v. rewrite H6. destruct (Z.eqb_spec k 6) as [-> |]; [intros [= <-]; split; [unfold word; lia | done] |].
      destruct (special_count <=? k); [done |]. unfold e5. cbn [entries entry_put_raw set_entries w0 set_key_mem set_password version_put].
      rewrite !lookup_insert_Some, lookup_empty.
      intros [[<- <-] | [_ [[<- <-] | [_ [[<- <-] | [_ [[<- <-] | [_ [[<- <-] | [_ [[<- <-] | [_ Hx]]]]]]]]]]]]; try done;
        (split; [unfold word, seed_special, representative_special, check_special, wallet_key_special, salt_special, version_special; lia |]);
        cbn [wv_key]; try done; now apply encrypt_word.
    - cbn [w password set_key_mem entry_put_raw set_entries deterministic_index_set]. rewrite P. exact F3.
    - cbn [w wallet_key_mem set_key_mem]. cbn [wallet_key_mem entry_put_raw set_entries deterministic_index_set].
      apply fan_set_spec; [rewrite M; exact F5 |]. change (word 256 (wv_key (entry_get_raw w wallet_key_special))). now rewrite E2.
    - cbn [w wallet_key_mem set_key_mem]. cbn [wallet_key_mem entry_put_raw set_entries deterministic_index_set].
      apply fan_set_spec; [rewrite M; exact F5 |]. change (word 256 (wv_key (entry_get_raw w wallet_key_special))). now rewrite E2. }
  split; try done.
  - unfold version, entry_get_raw. rewrite H6. reflexivity.
  - unfold salt, entry_get_raw. rewrite H6. reflexivity.
  - unfold check, entry_get_raw. rewrite H6. reflexivity.
  - unfold entry_get_raw. rewrite H6. reflexivity.
  - unfold entry_get_raw. rewrite H6. reflexivity.
  - cbn [w password set_key_mem entry_put_raw set_entries deterministic_index_set]. rewrite P. exact F4.
  - intros [Hne _]. now destruct Hne.
  - intros a [o Ho]. cbn in Ho. now rewrite lookup_empty in Ho.
  - intros a Ha. cbn [sp_keys new_spec]. rewrite lookup_empty, H6, (proj2 (Z.leb_le _ _)) by exact Ha. unfold special_count in Ha.
    rewrite (proj2 (Z.eqb_neq _ _)) by lia. done.
Qed.

(** ** Runs *)

Lemma wallet_step_ok (d : draws) sp w (e : wallet_event) : draws_ok d -> implements sp w -> event_ok sp e ->
  exists w' sp', event_step d w e = Some w' /\ spec_step sp e sp' /\ implements sp' w'.
Proof.
  intros D I Hok.
  assert (L : unlocked sp = false -> valid_password w = false) by now apply im_locked.
  assert (V : unlocked sp = true -> valid_password w = true) by (intros U; now apply (im_unlocked sp)).
  destruct (unlocked sp) eqn:U; [specialize (V eq_refl); clear L | specialize (L eq_refl); clear V]; destruct e; cbn [event_step].
  - rewrite V. destruct (im_adhoc _ _ _ I U Hok) as (w' & -> & I'). eexists _, _. split; [done |]. split; [now constructor | done].
  - rewrite V. destruct (im_derive _ _ I U Hok) as (w' & sp' & -> & I'). eauto.
  - rewrite V. destruct (im_reseed _ _ _ I U Hok) as (w' & -> & I'). eexists _, _. split; [done |]. split; [now constructor | done].
  - rewrite V. destruct (im_remove _ _ _ I Hok) as (w' & -> & I'). eexists _, _. split; [done |]. split; [now constructor | done].
  - rewrite V. destruct Hok as [Wa Ha]. eexists _, _. split; [done |]. split; [now constructor |].
    apply im_write; try done.
  - destruct (im_work _ _ _ _ I Hok) as (w' & -> & I'). eexists _, _. split; [done |]. split; [apply ss_work | done].
  - eexists _, _. split; [done |]. split; [apply ss_representative |]. now apply im_representative.
  - eexists _, _. split; [done |]. split; [now apply ss_rekey |]. now apply im_rekey.
  - destruct (im_attempt _ _ _ _ I Hok) as (w' & -> & I'). eexists _, _. split; [done |]. split; [apply ss_attempt | done].
  - destruct (im_restart _ _ d I Hok) as (w' & -> & I'); [apply D | apply D |]. eexists _, _. split; [done |]. split; [apply ss_restart | done].
  - rewrite L. exists w, sp. split; [done |]. split; [now constructor | done].
  - rewrite L. exists w, sp. split; [done |]. split; [now constructor | done].
  - rewrite L. exists w, sp. split; [done |]. split; [now constructor | done].
  - rewrite L. exists w, sp. split; [done |]. split; [now constructor | done].
  - rewrite L. exists w, sp. split; [done |]. split; [now constructor | done].
  - destruct (im_work _ _ _ _ I Hok) as (w' & -> & I'). eexists _, _. split; [done |]. split; [apply ss_work | done].
  - eexists _, _. split; [done |]. split; [apply ss_representative |]. now apply im_representative.
  - unfold rekey. rewrite L. exists w, sp. split; [done |]. split; [now constructor | done].
  - destruct (im_attempt _ _ _ _ I Hok) as (w' & -> & I'). eexists _, _. split; [done |]. split; [apply ss_attempt | done].
  - destruct (im_restart _ _ d I Hok) as (w' & -> & I'); [apply D | apply D |]. eexists _, _. split; [done |]. split; [apply ss_restart | done].
Qed.

Lemma wallet_run_ok (d : draws) (es : list wallet_event) sp w : draws_ok d -> implements sp w -> run_ok sp es ->
  exists w' sp', event_run d w es = Some w' /\ spec_run sp es sp' /\ implements sp' w'.
Proof.
  intros D. revert sp w. induction es as [| e es IH]; intros sp w I Hr; cbn [event_run spec_run]; [eauto |].
  destruct Hr as [Hok Hr]. destruct (wallet_step_ok d sp w e D I Hok) as (w1 & sp1 & -> & S1 & I1).
  destruct (IH sp1 w1 I1 (Hr _ S1)) as (w' & sp' & E & S & I'). eauto 8.
Qed.


End Refinement.

(** ** A concrete wallet *)

(** A pad that depends on key and vector, and a password hash that adds. *)
Definition demo_pad (k iv : Z) : Z := (3 * k + 5 * iv + 2 ^ 255 + 12345) mod 2 ^ 256.

Definition demo_cipher : Cipher := {|
  encrypt := fun x k iv => Z.lxor x (demo_pad k iv);
  decrypt := fun x k iv => Z.lxor x (demo_pad k iv);
  phs := fun p s => (17 * fold_right Z.add 1 p + s) mod 2 ^ 256 |}.

#[local] Existing Instance demo_cipher.

Lemma demo_cipher_laws : CipherLaws.
Proof.
  assert (P : forall k iv, 0 <= demo_pad k iv < 2 ^ 256) by (intros; apply Z.mod_pos_bound; lia).
  split; cbn; intros.
  - apply lxor_range; [lia | done | apply P].
  - apply lxor_range; [lia | done | apply P].
  - now rewrite Z.lxor_assoc, Z.lxor_nilpotent, Z.lxor_0_r.
  - apply Z.mod_pos_bound. lia.
Qed.

#[local] Existing Instance demo_cipher_laws.
#[local] Existing Instance VS.demo_signatures.

Definition demo_draws : draws := mk_draws [5; 6; 7] [8] (2 ^ 200 + 3) (2 ^ 210 + 1) 99.

Definition demo_events : list wallet_event :=
  [we_rekey [1; 2]; we_adhoc (2 ^ 80); we_attempt 0 [9]; we_adhoc 12; we_restart; we_attempt 0 [1; 2]; we_watch 30; we_derive].

Lemma demo_draws_ok : draws_ok demo_draws.
Proof. repeat split; repeat constructor; cbn; lia. Qed.

(** All steps but the derivation of a key are functions. *)
Definition spec_next (sp : spec) (e : wallet_event) : spec :=
  let keys m := with_keys sp m (sp_index sp) (sp_seed sp) in
  match e with
  | we_attempt _ p => with_secret sp (sp_secret sp) (phs p (sp_salt sp))
  | we_restart => with_secret sp (sp_secret sp) 0
  | _ => if unlocked sp then
      match e with
      | we_adhoc prv => keys (<[VS.pub_key prv := o_adhoc prv]> (sp_keys sp))
      | we_seed s => with_keys sp (omap underived (sp_keys sp)) 0 s
      | we_remove a => keys (delete a (sp_keys sp))
      | we_watch a => keys (<[a := o_watch]> (sp_keys sp))
      | we_rekey p => with_secret sp (phs p (sp_salt sp)) (phs p (sp_salt sp))
      | _ => sp
      end else sp
  end.

Lemma step_next (sp : spec) (e : wallet_event) (sp' : spec) : spec_step sp e sp' -> e <> we_derive -> sp' = spec_next sp e.
Proof.
  intros [e' U He | | | | | | | | | |] Hd; cbn; try reflexivity; try (rewrite ?H; reflexivity); try done;
    try (destruct (unlocked sp); reflexivity).
  destruct e'; try done; cbn; now rewrite U.
Qed.

Lemma demo_run_ok : run_ok (new_spec demo_draws) demo_events.
Proof.
  split; [exact I |]. intros sp ->%step_next; [| done].
  split; [split_and!; vm_compute; (split; congruence) || congruence |]. intros sp ->%step_next; [| done].
  split; [intros [_ E]; vm_compute in E; discriminate E |]. intros sp ->%step_next; [| done].
  split; [split_and!; vm_compute; (split; congruence) || congruence |]. intros sp ->%step_next; [| done].
  split; [intros [_ E]; vm_compute in E; discriminate E |]. intros sp ->%step_next; [| done].
  split; [intros [E _]; vm_compute in E; now destruct E |]. intros sp ->%step_next; [| done].
  split; [split; vm_compute; (split; congruence) || congruence |]. intros sp ->%step_next; [| done].
  split; [| intros sp S; exact I]. exists 0%nat. split; [lia |]. split.
  - split; [vm_compute; reflexivity | intros j' Hj'; lia].
  - intros j' Hj'. replace j' with 0%nat by lia. vm_compute. congruence.
Qed.


End WalletSpec.
