(* ===== verification/WalletMove.v ===== *)
(** * Moving keys between wallets

    [wallet_store::move] and [wallet_store::import] of [Wallet]: no key is lost, whatever
    fails on the way. *)

From stdpp Require Import base gmap list.
From Stdlib Require Import ZArith Lia.
From S2P Require Import Prelude Blake2b Blocks Numbers Signing VoteStore Wallet WalletTheorems WalletSpec.
Local Open Scope Z_scope.

Module WalletMove.
Import Wallet.Wallet WalletTheorems.WalletTheorems.

#[local] Opaque Numbers.uint256_xor derive.

Section Move.

Context {CI : Cipher} {CL : CipherLaws} {SG : VS.Signatures}.

Implicit Types (w other : wallet_store) (a prv : Z).

#[local] Existing Instance same_keys_preorder.

(** Every key of the other wallet can be kept in this one. *)
Definition movable w other : Prop := forall a prv, fetch other a = Some prv -> storable w prv.

Lemma delete_same other a : special_count <= a -> same_keys other (set_entries other (delete a (entries other))).
Proof.
  intros Ha. unfold special_count in Ha.
  assert (E : forall b, b < 7 -> entry_get_raw (set_entries other (delete a (entries other))) b = entry_get_raw other b).
  { intros b Hb. unfold entry_get_raw. cbn [entries set_entries]. now rewrite lookup_delete_ne by lia. }
  split; unfold wallet_key, salt, check; rewrite ?E by done; done.
Qed.

Lemma delete_ok other a : wallet_ok other -> special_count <= a -> wallet_ok (set_entries other (delete a (entries other))).
Proof.
  intros [O1 O2 O3 O4] Ha. unfold special_count in Ha. split; try done.
  - intros k v. cbn [entries set_entries]. intros [_ E]%lookup_delete_Some. eauto.
  - etransitivity; [exact O4 |]. unfold entry_get_raw. cbn [entries set_entries]. now rewrite lookup_delete_ne by (unfold wallet_key_special; lia).
Qed.

(** The two wallets of a move, and how they came from those it began with: an account is
    as it was in both, or its key is now in this one and no more in the other. *)
Record moving w other w' other' : Prop := {
  mv_ok : wallet_ok w' /\ wallet_ok other';
  mv_same : same_keys w w' /\ same_keys other other';
  mv_account a : entries w' !! a = entries w !! a /\ entries other' !! a = entries other !! a \/
    special_count <= a /\ is_Some (fetch other a) /\ is_Some (fetch w' a) /\ entries other' !! a = None }.

Lemma moving_refl w other : wallet_ok w -> wallet_ok other -> moving w other w other.
Proof. intros O1 O2. split; [done | done |]. intros a. now left. Qed.

Lemma same_entry_fetch w w' a : same_keys w w' -> entries w' !! a = entries w !! a -> fetch w' a = fetch w a.
Proof. intros S E. apply same_fetch; [done |]. unfold entry_get_raw. now rewrite E. Qed.

(** One key. *)
Lemma move_one w other w' other' a prv : valid_password w = true -> movable w other -> moving w other w' other' ->
  fetch other' a = Some prv ->
  exists w2 other2, insert_adhoc w' prv = Some (a, w2) /\ erase other' a = Some other2 /\
    moving w other w2 other2 /\ entries other2 = delete a (entries other') /\ is_Some (fetch w2 a) /\
    (forall b, b <> a -> entries w2 !! b = entries w' !! b) /\ special_count <= a /\ fetch other a = Some prv.
Proof.
  intros V Hm [[O1 O2] [S1 S2] M] F. destruct (fetch_pub _ _ _ F) as [P _]. pose proof (fetch_entry _ _ _ F) as [v Ev].
  assert (F0 : fetch other a = Some prv).
  { destruct (M a) as [[_ E] | (_ & _ & _ & E)]; [| congruence]. now rewrite <- (same_entry_fetch _ _ _ S2 E). }
  pose proof (same_storable _ _ _ S1 (Hm _ _ F0)) as St. pose proof (proj1 (proj2 St)) as Sp. rewrite P in Sp.
  destruct (insert_adhoc_spec w' prv O1) as (w2 & Ei & O3 & S3 & F3 & E3 & _); [now rewrite (same_valid _ _ S1) | exact St |].
  rewrite P in *. exists w2, (set_entries other' (delete a (entries other'))). split; [exact Ei |].
  split; [unfold erase; now rewrite Ev |]. split; [| split_and!; [done | eauto | done | done | done]].
  split; [split; [done | now apply delete_ok] | split; [now transitivity w' | transitivity other'; [done | now apply delete_same]] |].
  intros b. cbn [entries set_entries]. destruct (Z.eq_dec b a) as [-> | Hne].
  - right. rewrite lookup_delete_eq. split_and!; eauto.
  - rewrite (lookup_delete_ne _ a b), (E3 b) by congruence. destruct (M b) as [L | (L1 & L2 & L3 & L4)]; [now left | right].
    split_and!; try done. now rewrite (same_entry_fetch _ _ _ S3 (E3 b Hne)).
Qed.

(** The loop of [move]: once the flag is set, nothing more happens. *)
Lemma move_keys_failed (keys : list Z) w other : move_keys keys true w other = Some (true, w, other).
Proof. induction keys as [| k keys IH]; [done |]. cbn [move_keys orb]. destruct (fetch other k); exact IH. Qed.

Lemma move_keys_ok (keys : list Z) w other w' other' : valid_password w = true -> movable w other -> moving w other w' other' ->
  exists r w2 other2 done_ rest, move_keys keys false w' other' = Some (r, w2, other2) /\ moving w other w2 other2 /\
    keys = done_ ++ rest /\ (r = false <-> rest = []) /\
    (forall a, a ∈ done_ -> is_Some (fetch other a) /\ is_Some (fetch w2 a) /\ entries other2 !! a = None) /\
    forall a, a ∉ done_ -> entries w2 !! a = entries w' !! a /\ entries other2 !! a = entries other' !! a.
Proof.
  intros V Hm. revert w' other'. induction keys as [| k keys IH]; intros w' other' M; cbn [move_keys orb].
  - exists false, w', other', [], []. split_and!; try done. intros a Ha. now apply not_elem_of_nil in Ha.
  - destruct (fetch other' k) as [prv |] eqn:F; cbn [is_some negb].
    + destruct (move_one _ _ _ _ _ _ V Hm M F) as (w1 & other1 & -> & -> & M1 & E1 & F1 & E2 & _ & F2).
      destruct (IH _ _ M1) as (r & w2 & other2 & d & rest & -> & M2 & -> & Hr & Hd & Hn).
      exists r, w2, other2, (k :: d), rest. split_and!; try done.
      * intros a [-> | Ha]%elem_of_cons; [| auto]. destruct (decide (k ∈ d)) as [Hk | Hk]; [auto |].
        destruct (Hn k Hk) as [H1 H2]. rewrite H2, E1, lookup_delete_eq. split; [eauto |]. split; [| done].
        destruct M1 as [_ [S1 _] _], M2 as [_ [S2 _] _].
        assert (S : same_keys w1 w2).
        { destruct S1, S2. split; congruence. }
        now rewrite (same_entry_fetch _ _ _ S H1).
      * intros a [Hne Ha]%not_elem_of_cons. destruct (Hn a Ha) as [-> ->]. rewrite E1, lookup_delete_ne by congruence. auto.
    + rewrite move_keys_failed. exists true, w', other', [], (k :: keys). split_and!; try done.
      intros a Ha. now apply not_elem_of_nil in Ha.
Qed.


(** ** Importing *)

(** The state of the loop of [import] at [lo]. *)
Definition importing w other (lo : Z) (s : bool * wallet_store * wallet_store) : Prop :=
  let '(r, w', other') := s in
  moving w other w' other' /\ special_count <= lo /\
  (forall k, lo <= k -> entries other' !! k = entries other !! k) /\
  (if r then exists k, special_count <= k /\ is_Some (entries other !! k) /\ fetch other k = None
   else forall k, special_count <= k < lo -> is_Some (entries other !! k) ->
     is_Some (fetch other k) /\ entries other' !! k = None).

Lemma import_step w other : valid_password w = true -> movable w other -> (forall a, fetch other a <> Some 0) ->
  forall lo k v s, importing w other lo s -> seek lo (entries s.2) = Some (k, v) ->
  exists next s', import_body k v s = Some (next, s') /\ importing w other next s' /\
    (ahead next (entries s'.2) < ahead lo (entries s.2))%nat.
Proof.
  intros V Hm Hz lo k v [[r w'] other'] (M & L & E & Hr) Hs. cbn [snd] in Hs. pose proof (seek_spec lo (entries other')) as Hk.
  rewrite Hs in Hk. destruct Hk as (K1 & K2 & K3). pose proof (E k K2) as Ek. rewrite K1 in Ek. symmetry in Ek.
  assert (Fk : fetch other' k = fetch other k) by (apply same_entry_fetch; [apply M | now rewrite K1]).
  assert (Hskip : forall r' : bool, (if r' then exists k, special_count <= k /\ is_Some (entries other !! k) /\ fetch other k = None else False) ->
    importing w other (k + 1) (r', w', other') /\ (ahead (k + 1) (entries other') < ahead lo (entries other'))%nat).
  { intros r' Hr'. split.
    - split_and!; [done | lia | intros k' Hk'; apply E; lia |]. now destruct r'.
    - apply (ahead_less lo (k + 1) k v); [done | lia |]. intros k' Hk'. now rewrite (proj2 (Z.eqb_neq _ _)) by lia. }
  unfold import_body. rewrite Fk. destruct (fetch other k) as [prv |] eqn:F; cbn [is_some negb].
  2: { rewrite orb_true_r. eexists (k + 1), _. split; [reflexivity |]. apply (Hskip true). exists k. split; [lia | eauto]. }
  rewrite orb_false_r. destruct r; cbn [negb]; [eexists (k + 1), _; split; [reflexivity |]; now apply (Hskip true) |].
  assert (prv <> 0) as ->%Z.eqb_neq by (intros ->; now apply (Hz k)). cbn [negb].
  destruct (move_one _ _ _ _ _ _ V Hm M Fk) as (w2 & other2 & -> & -> & M2 & E2 & F2 & _ & _ & _). cbn [option_map snd].
  eexists (k + 1), _. split; [reflexivity |]. cbn [snd]. rewrite E2. split.
  - split_and!; [done | lia | |].
    + intros k' Hk'. rewrite E2, lookup_delete_ne by lia. apply E. lia.
    + intros k' Hk' Hin. rewrite E2. destruct (Z.eq_dec k' k) as [-> | Hne]; [rewrite lookup_delete_eq; eauto |].
      rewrite lookup_delete_ne by congruence. destruct (Z.lt_ge_cases k' lo) as [Hlt | Hge]; [apply Hr; [lia | done] |].
      exfalso. rewrite <- (E k' Hge) in Hin. specialize (K3 k' Hge Hin). lia.
  - apply (ahead_less lo (k + 1) k v); [done | lia |]. intros k' Hk'. rewrite lookup_delete_ne, (proj2 (Z.eqb_neq _ _)) by lia. done.
Qed.

(** Importing a wallet ends, fails no assertion and loses no key: what could be read from
    either wallet can be read from one of them.  It reports an error exactly when the
    other wallet has an account whose key cannot be read (one that is only watched is
    enough), and if it reports none, every key is now in this wallet. *)
Theorem import_conserves w other (O : wallet_ok w) (O' : wallet_ok other)
  (V : valid_password w = true) (V' : valid_password other = true) (Hm : movable w other)
  (Hz : forall a, fetch other a <> Some 0) :
  exists r w' other', import w other = Some (r, w', other') /\ wallet_ok w' /\ wallet_ok other' /\
    (forall a, is_Some (fetch w a) -> is_Some (fetch w' a)) /\
    (forall a, is_Some (fetch other a) -> is_Some (fetch w' a) \/ fetch other' a = fetch other a) /\
    (r = false <-> forall a, special_count <= a -> is_Some (entries other !! a) -> is_Some (fetch other a)) /\
    (r = false -> forall a, is_Some (fetch other a) -> is_Some (fetch w' a)).
Proof.
  unfold import. rewrite V, V'. cbn [andb].
  destruct (walk_rule snd import_body (importing w other) (import_step w other V Hm Hz) (walk_fuel other) special_count (false, w, other))
    as (lo & [[r w'] other'] & E & (M & L & Eo & Hr) & Hend).
  - split_and!; [now apply moving_refl | done | done |]. intros k Hk. lia.
  - apply walk_fuel_enough.
  - exists r, w', other'. destruct M as [[O1 O2] [S1 S2] M]. cbn [snd] in Hend.
    assert (Hempty : r = false -> forall a, special_count <= a -> is_Some (entries other !! a) ->
      is_Some (fetch other a) /\ entries other' !! a = None).
    { intros -> a Ha Hin. destruct (Z.lt_ge_cases a lo) as [Hlt | Hge]; [now apply Hr |].
      rewrite <- (Eo a Hge), (Hend a Hge) in Hin. now destruct Hin. }
    split_and!; try done.
    + intros a Fa. destruct (M a) as [[E1 _] | (_ & _ & ? & _)]; [| done]. now rewrite (same_entry_fetch _ _ _ S1 E1).
    + intros a Fa. destruct (M a) as [[_ E2] | (_ & _ & ? & _)]; [right | now left]. now apply same_entry_fetch.
    + split; [intros E0 a Ha Hin; now apply Hempty |]. intros Hall. destruct r; [exfalso | done].
      destruct Hr as (k & Hk & Hin & Fn). destruct (Hall k Hk Hin). congruence.
    + intros E0 a [prv Fa]. destruct (fetch_pub _ _ _ Fa) as [P _]. pose proof (proj1 (proj2 (Hm _ _ Fa))) as Sa. rewrite P in Sa.
      pose proof (fetch_entry _ _ _ Fa) as Hin. destruct (Hempty E0 a Sa Hin) as [_ En].
      destruct (M a) as [[_ E2] | (_ & _ & ? & _)]; [| done]. rewrite En in E2. rewrite <- E2 in Hin. now destruct Hin.
Qed.

End Move.

(** ** Concrete wallets *)

Import WalletSpec.WalletSpec.

#[local] Existing Instance demo_cipher.
#[local] Existing Instance demo_cipher_laws.
#[local] Existing Instance VS.demo_signatures.

Definition opened (d : draws) (es : list wallet_event) : wallet_store :=
  match wallet_open d 4 ∅ with
  | Some w => match event_run d w es with Some w => w | None => w end
  | None => mk_wallet ∅ (mk_fan 0 []) (mk_fan 0 [])
  end.

(** The first wallet has no keys, the second two and an account it only watches. *)
Definition demo_here : wallet_store := opened demo_draws [].
Definition demo_there : wallet_store :=
  opened (mk_draws [] [1; 2] 77 (2 ^ 220) 5) [we_adhoc (2 ^ 90); we_adhoc (2 ^ 91); we_watch (2 ^ 92)].

Definition wordb (x : Z) : bool := (0 <=? x) && (x <? 2 ^ 256).

Lemma wordb_spec (x : Z) : wordb x = true -> word 256 x.
Proof. unfold wordb, word. rewrite andb_true_iff, Z.leb_le, Z.ltb_lt. done. Qed.

Definition fan_okb (f : fan) : bool := forallb wordb (values_first f :: values_rest f).

Lemma fan_okb_spec (f : fan) : fan_okb f = true -> fan_ok f.
Proof.
  unfold fan_okb. cbn [forallb]. rewrite andb_true_iff, forallb_forall. intros [H1 H2]. split; [now apply wordb_spec |].
  apply Forall_forall. intros x Hx%list_elem_of_In. now apply wordb_spec, H2.
Qed.

Definition wallet_okb (w : wallet_store) : bool :=
  forallb (fun kv => wordb kv.1 && wordb (wv_key kv.2)) (map_to_list (entries w)) &&
  fan_okb (password w) && fan_okb (wallet_key_mem w) &&
  (fan_value (wallet_key_mem w) =? wv_key (entry_get_raw w wallet_key_special)).

Lemma wallet_okb_spec (w : wallet_store) : wallet_okb w = true -> wallet_ok w.
Proof.
  unfold wallet_okb. rewrite !andb_true_iff. intros [[[H1 H2] H3] H4]. split; [| now apply fan_okb_spec .. | now apply Z.eqb_eq].
  intros k v E%elem_of_map_to_list. rewrite forallb_forall in H1.
  specialize (H1 _ (proj1 (list_elem_of_In _ _) E)). apply andb_true_iff in H1 as [? ?]. split; now apply wordb_spec.
Qed.

Definition movableb (w other : wallet_store) : bool :=
  forallb (fun kv => match fetch other kv.1 with
    | Some prv => wordb prv && (special_count <=? VS.pub_key prv) && (2 ^ 64 <=? encrypt prv (wallet_key w) (oword 0 (VS.pub_key prv)))
    | None => true
    end) (map_to_list (entries other)).

Lemma movableb_spec (w other : wallet_store) : movableb w other = true -> movable w other.
Proof.
  unfold movableb. rewrite forallb_forall. intros Hb a prv F. destruct (fetch_entry _ _ _ F) as [v E%elem_of_map_to_list].
  specialize (Hb _ (proj1 (list_elem_of_In _ _) E)). cbn [fst] in Hb. rewrite F in Hb.
  rewrite !andb_true_iff, !Z.leb_le in Hb. destruct Hb as [[H1 H2] H3]. split; [now apply wordb_spec | done].
Qed.


(** Adding an account to watch erases the key of the account, if the wallet has it, and
    the entries of the wallet itself, if the account is one of their numbers: a wallet
    that watches account 2 loses its wallet key at the next start. *)
Theorem watch_erases : exists d w,
  wallet_open d 4 ∅ = Some w /\
  (exists w', event_run d w [we_adhoc (2 ^ 90); we_watch (2 ^ 90)] = Some w' /\ valid_password w' = true /\ fetch w' (2 ^ 90) = None) /\
  (exists w', event_run d w [we_rekey [1]; we_adhoc (2 ^ 90); we_watch 2; we_restart; we_attempt 0 [1]] = Some w' /\
     valid_password w' = false /\ fetch w' (2 ^ 90) = None).
Proof.
  exists demo_draws. pose (w := opened demo_draws []). exists w. split; [vm_compute; reflexivity |]. split.
  - exists (opened demo_draws [we_adhoc (2 ^ 90); we_watch (2 ^ 90)]). split; [vm_compute; reflexivity |]. split; vm_compute; reflexivity.
  - exists (opened demo_draws [we_rekey [1]; we_adhoc (2 ^ 90); we_watch 2; we_restart; we_attempt 0 [1]]).
    split; [vm_compute; reflexivity |]. split; vm_compute; reflexivity.
Qed.

End WalletMove.
