(* ===== verification/WalletActions.v ===== *)
(** * What a wallet does

    Model of [nano::wallet] and [nano::wallets] ([nano/node/wallet.cpp]): making send,
    receive and change blocks over the ledger, the queue of actions, the derivation of
    keys with the search for used accounts, and the set of wallets.

    An action reads the ledger and the keys and hands the block it makes to the node;
    what it asks of the node is a list of outputs.  [None] is a failed assertion (or a
    null block that is dereferenced), or a loop that runs out of fuel. *)

From stdpp Require Import base gmap list sorting.
From Stdlib Require Import ZArith Lia.
From S2P Require Import Prelude Blake2b Blocks Store Ledger Numbers Work Signing VoteStore Wallet.
Local Open Scope Z_scope.

Module WalletActions.
Import Ledger.Ledger.
Module WS := Wallet.Wallet.
Module VS := VoteStore.VoteStore.
Module W := Work.Work.

(** ** Making blocks *)

(** What an action asks of the node, in order. *)
Inductive output :=
| out_process_active (b : block)
| out_flush
| out_work_ensure (account root : Z)
| out_republish (b : block)
| out_confirm (b : block)
| out_search_pending
| out_lock_observer (invalid vulnerable : bool).

Definition set_work (b : block) (work : Z) : block :=
  match b with
  | send_block f s _ => send_block f s work
  | receive_block f s _ => receive_block f s work
  | open_block f s _ => open_block f s work
  | change_block f s _ => change_block f s work
  | state_block f s _ => state_block f s work
  end.

(** The table [send_action_ids]: the hash of the block an identifier stands for. *)
Notation send_ids := (gmap (list Z) Z).

Section Actions.

Context {EN : Env} {CI : WS.Cipher} {SG : VS.Signatures} {WE : W.WorkEnv}.

(** [work_generate_blocking], and the random bytes of the signature. *)
Context (work_generate : Z -> Z) (rnd : list Z).

(** The constructor: the hash does not depend on the signature and the work. *)
Definition new_block (f : state_hashables) (prv pub work : Z) : block :=
  state_block f (VS.sign_message prv pub (hash (state_block f 0 0)) rnd) work.

(** [if (work_a == 0) store.work_get (..., work_a)]. *)
Definition cached_work (w : WS.wallet_store) (a work : Z) : Z :=
  if work =? 0 then match WS.work_get w a with Some x => x | None => work end else work.

(** The part of the three actions after the transactions. *)
Definition launch (b : block) (a : Z) (generate_work : bool) : block * list output :=
  let b := if (W.work_validate_block b).1 then set_work b (work_generate (root b)) else b in
  (b, [out_process_active b; out_flush] ++ (if generate_work then [out_work_ensure a (hash b)] else [])).

Definition launched (b : block) (a : Z) (generate_work : bool) : option block * list output :=
  let (b, o) := launch b a generate_work in (Some b, o).

(** A query of the ledger. *)
Definition query {A : Type} (m : M A) (s : store) : option A :=
  match m (mk_lstate s [] (initial_result sv_unknown) []) with Done (x, _) => Some x | _ => None end.

Definition receive_action (receive_minimum : Z) (s : store) (w : WS.wallet_store) (send : block)
    (representative_a amount_a work : Z) (generate_work : bool) : option (option block * list output) :=
  let h := hash send in
  if receive_minimum <=? amount_a then
    if block_exists s h then
      match query (block_destination send) s with
      | None => None
      | Some account =>
          match pending_get s (account, h) with
          | None => Some (None, [])
          | Some pd =>
              match WS.fetch w account with
              | None => Some (None, [])
              | Some prv =>
                  let work := cached_work w account work in
                  match account_get s account with
                  | Some info =>
                      match block_get s (rep_block info) with
                      | None => None
                      | Some rep =>
                          let f := mk_state account (head info) (representative rep) (u128 (balance info + pi_amount pd)) h in
                          Some (launched (new_block f prv account work) account generate_work)
                      end
                  | None =>
                      let f := mk_state account 0 representative_a (pi_amount pd) h in
                      Some (launched (new_block f prv account work) account generate_work)
                  end
              end
          end
      end
    else Some (None, [])
  else Some (None, []).

Definition change_action (s : store) (w : WS.wallet_store) (source_a representative_a work : Z) (generate_work : bool)
    : option (option block * list output) :=
  if WS.valid_password w then
    if WS.is_some (WS.find w source_a) && negb (latest s source_a =? 0) then
      match account_get s source_a, WS.fetch w source_a with
      | Some info, Some prv =>
          let work := cached_work w source_a work in
          let f := mk_state source_a (head info) representative_a (balance info) 0 in
          Some (launched (new_block f prv source_a work) source_a generate_work)
      | _, _ => None
      end
    else Some (None, [])
  else Some (None, []).

(** Whether LMDB reports an error other than a missing key when the table is read or
    written. *)
Record faults := mk_faults { get_fails : bool; put_fails : bool }.
Definition no_faults : faults := mk_faults false false.

(** The block, if one can be made. *)
Definition send_block_for (s : store) (w : WS.wallet_store) (source_a account_a amount_a work : Z) : option (option block) :=
  if WS.valid_password w then
    if WS.is_some (WS.find w source_a) then
      let bal := account_balance s source_a in
      if negb (bal =? 0) && (amount_a <=? bal) then
        match account_get s source_a, WS.fetch w source_a with
        | Some info, Some prv =>
            match block_get s (rep_block info) with
            | None => None
            | Some rep =>
                let work := cached_work w source_a work in
                let f := mk_state source_a (head info) (representative rep) (bal - amount_a) account_a in
                Some (Some (new_block f prv source_a work))
            end
        | _, _ => None
        end
      else Some None
    else Some None
  else Some None.

(** The block that an identifier stands for: [None] if it is not known or its block is
    not in the ledger. *)
Definition cached_block (s : store) (ids : send_ids) (id : option (list Z)) : option block :=
  match id with
  | Some i => match ids !! i with Some h => block_get s h | None => None end
  | None => None
  end.

Definition send_action (x : faults) (s : store) (w : WS.wallet_store) (ids : send_ids)
    (source_a account_a amount_a work : Z) (generate_work : bool) (id : option (list Z))
    : option (option block * send_ids * list output) :=
  if WS.is_some id && get_fails x then Some (None, ids, [])
  else match cached_block s ids id with
  | Some b => Some (Some b, ids, [out_republish b])
  | None =>
      match send_block_for s w source_a account_a amount_a work with
      | None => None
      | Some None => Some (None, ids, [])
      | Some (Some b) =>
          let done ids := let (b, o) := launch b source_a generate_work in Some (Some b, ids, o) in
          match id with
          | Some i => if put_fails x then Some (None, ids, []) else done (<[i := hash b]> ids)
          | None => done ids
          end
      end
  end.

(** ** One wallet *)

Record wallet := mk_w { w_store : WS.wallet_store; w_live : bool; w_representatives : gset Z; w_free : list Z }.

(** A wallet with the counter of representatives that all wallets share. *)
Record wstate := mk_ws { ws_wallet : wallet; ws_reps_count : Z; ws_out : list output }.

Definition with_store (w : wallet) (t : WS.wallet_store) : wallet :=
  mk_w t (w_live w) (w_representatives w) (w_free w).
Definition emit (st : wstate) (o : list output) : wstate := mk_ws (ws_wallet st) (ws_reps_count st) (ws_out st ++ o).
Definition put_store (st : wstate) (t : WS.wallet_store) : wstate :=
  mk_ws (with_store (ws_wallet st) t) (ws_reps_count st) (ws_out st).

Context (vote_minimum receive_minimum : Z) (weight : Z -> Z).

(** A new account that has the weight of a representative. *)
Definition note_representative (key : Z) (st : wstate) : wstate :=
  if vote_minimum <=? weight key then
    let w := ws_wallet st in
    mk_ws (mk_w (w_store w) (w_live w) ({[ key ]} ∪ w_representatives w) (w_free w)) (u64 (ws_reps_count st + 1)) (ws_out st)
  else st.

Definition wallet_deterministic_insert (generate_work : bool) (st : wstate) : option (Z * wstate) :=
  if WS.valid_password (w_store (ws_wallet st)) then
    match WS.deterministic_insert (w_store (ws_wallet st)) with
    | Some (key, t) =>
        let st := put_store st t in
        let st := if generate_work then emit st [out_work_ensure key key] else st in
        Some (key, note_representative key st)
    | None => None
    end
  else Some (0, st).

Definition wallet_deterministic_insert_at (index : Z) (generate_work : bool) (st : wstate) : option (Z * wstate) :=
  if WS.valid_password (w_store (ws_wallet st)) then
    match WS.deterministic_insert_at (w_store (ws_wallet st)) index with
    | Some (key, t) =>
        let st := put_store st t in
        Some (key, if generate_work then emit st [out_work_ensure key key] else st)
    | None => None
    end
  else Some (0, st).

Definition wallet_insert_adhoc (s : store) (prv : Z) (generate_work : bool) (st : wstate) : option (Z * wstate) :=
  if WS.valid_password (w_store (ws_wallet st)) then
    match WS.insert_adhoc (w_store (ws_wallet st)) prv with
    | Some (key, t) =>
        let st := put_store st t in
        let st := if generate_work then emit st [out_work_ensure key (latest_root s key)] else st in
        Some (key, note_representative key st)
    | None => None
    end
  else Some (0, st).

Definition enter_password (random : Z) (p : list Z) (st : wstate) : option (bool * wstate) :=
  match WS.attempt_password random (w_store (ws_wallet st)) p with
  | Some (result, t) =>
      let st := put_store st t in
      let st := if negb result then emit st [out_search_pending] else st in
      Some (result, emit st [out_lock_observer result (length p =? 0)%nat])
  | None => None
  end.

Definition enter_initial_password (random : Z) (st : wstate) : option wstate :=
  let t := w_store (ws_wallet st) in
  if WS.fan_value (WS.password t) =? 0 then
    if WS.valid_password t then Some (put_store st (WS.rekey t []).2)
    else option_map snd (enter_password random [] st)
  else Some st.

(** Work that was made for [root] is kept if the account still needs it. *)
Definition work_update (s : store) (w : WS.wallet_store) (a root work : Z) : option WS.wallet_store :=
  if (W.work_validate root work).1 || negb (WS.exists_account w a) then None
  else if latest_root s a =? root then WS.work_put w a work else Some w.

Definition work_cache_blocking (s : store) (w : wallet) (a root : Z) : option wallet :=
  let work := work_generate root in
  if w_live w && WS.exists_account (w_store w) a then option_map (with_store w) (work_update s (w_store w) a root work)
  else Some w.

Definition hash_le (x y : Z * pending_info) : Prop := x.1 <= y.1.

#[local] Instance hash_le_dec : RelDecision hash_le := fun x y => Z.le_dec x.1 y.1.

(** The pending entries of an account, in the order of their hashes. *)
Definition pending_of (s : store) (a : Z) : list (Z * pending_info) :=
  merge_sort hash_le
    (omap (fun kv : (epoch * (Z * Z)) * pending_info => if kv.1.2.1 =? a then Some (kv.1.2.2, kv.2) else None)
      (map_to_list (pending s))).

Fixpoint confirm_pending (s : store) (l : list (Z * pending_info)) : option (list output) :=
  match l with
  | [] => Some []
  | (h, p) :: l' =>
      match confirm_pending s l' with
      | None => None
      | Some o =>
          if receive_minimum <=? pi_amount p then
            match block_get s h with Some b => Some (out_confirm b :: o) | None => None end
          else Some o
      end
  end.

Definition search_body (s : store) (k : Z) (v : WS.wallet_value) (x : WS.wallet_store * list output)
    : option (Z * (WS.wallet_store * list output)) :=
  if negb (WS.wv_key v =? 0) then
    match confirm_pending s (pending_of s k) with
    | Some o => Some (k + 1, (x.1, x.2 ++ o))
    | None => None
    end
  else Some (k + 1, x).

(** [true]: the wallet is locked. *)
Definition search_pending (s : store) (w : WS.wallet_store) : option (bool * list output) :=
  if WS.valid_password w then
    option_map (fun x => (false, x.2)) (WS.walk fst (search_body s) (WS.walk_fuel w) WS.special_count (w, []))
  else Some (true, []).

Definition init_free_accounts (w : wallet) : option wallet :=
  option_map (mk_w (w_store w) (w_live w) (w_representatives w)) (WS.accounts (w_store w)).

(** ** Looking for used accounts *)

Definition has_pending (s : store) (a : Z) : bool :=
  existsb (fun kv : (epoch * (Z * Z)) * pending_info => kv.1.2.1 =? a) (map_to_list (pending s)).

Definition used (s : store) (a : Z) : bool := negb (latest s a =? 0) || has_pending s a.

(** The loop: [i] is looked at, [n] is where it ends. *)
Fixpoint check_loop (fuel : nat) (s : store) (w : WS.wallet_store) (index i n : Z) : option Z :=
  if i <? n then
    match fuel with
    | O => None
    | S fuel =>
        match WS.deterministic_key w i with
        | None => None
        | Some prv =>
            if used s (VS.pub_key prv) then check_loop fuel s w i (u32 (i + 1)) (u32 (i + 64 + i / 64))
            else check_loop fuel s w index (u32 (i + 1)) n
        end
    end
  else Some index.

Definition deterministic_check (fuel : nat) (s : store) (w : WS.wallet_store) (index : Z) : option Z :=
  check_loop fuel s w index (u32 (index + 1)) (u32 (index + 64)).

Fixpoint insert_many (n : nat) (account : Z) (st : wstate) : option (Z * wstate) :=
  match n with
  | O => Some (account, st)
  | S n =>
      match wallet_deterministic_insert false st with
      | Some (account, st) => insert_many n account st
      | None => None
      end
  end.

Definition change_seed (fuel : nat) (s : store) (prv count : Z) (st : wstate) : option (Z * wstate) :=
  match WS.seed_set (w_store (ws_wallet st)) prv with
  | None => None
  | Some t =>
      match wallet_deterministic_insert true (put_store st t) with
      | None => None
      | Some (account, st) =>
          match (if count =? 0 then deterministic_check fuel s (w_store (ws_wallet st)) 0 else Some count) with
          | None => None
          | Some count => insert_many (Z.to_nat count) account st
          end
      end
  end.

Definition deterministic_restore (fuel : nat) (s : store) (st : wstate) : option wstate :=
  let index := WS.deterministic_index_get (w_store (ws_wallet st)) in
  match deterministic_check fuel s (w_store (ws_wallet st)) index with
  | None => None
  | Some new_index =>
      if index =? new_index then Some st
      else option_map snd (insert_many (Z.to_nat (new_index - index + 1)) 0 st)
  end.

End Actions.

(** ** The queue of actions *)

(** The actions a wallet queues. *)
Inductive action :=
| act_change (source_a representative_a work : Z) (generate_work : bool)
| act_receive (send : block) (representative_a amount_a work : Z) (generate_work : bool)
| act_send (source_a account_a amount_a work : Z) (generate_work : bool) (id : option (list Z))
| act_work (account root : Z).

Definition generate_priority : Z := 2 ^ 128 - 1.
Definition high_priority : Z := 2 ^ 128 - 1 - 1.

(** A multimap, the greatest priority first, equal ones in the order of insertion; an
    action goes with the wallet it is for. *)
Definition actions : Type := list (Z * (Z * action)).

Fixpoint queue_wallet_action (p wid : Z) (a : action) (l : actions) : actions :=
  match l with
  | [] => [(p, (wid, a))]
  | x :: l' => if x.1 <? p then (p, (wid, a)) :: l else x :: queue_wallet_action p wid a l'
  end.

Definition change_async (wid source_a representative_a work : Z) (generate_work : bool) : actions -> actions :=
  queue_wallet_action high_priority wid (act_change source_a representative_a work generate_work).
Definition receive_async (wid : Z) (b : block) (representative_a amount_a work : Z) (generate_work : bool) : actions -> actions :=
  queue_wallet_action amount_a wid (act_receive b representative_a amount_a work generate_work).
Definition send_async (wid source_a account_a amount_a work : Z) (generate_work : bool) (id : option (list Z)) : actions -> actions :=
  queue_wallet_action high_priority wid (act_send source_a account_a amount_a work generate_work id).
Definition work_ensure (wid account root : Z) : actions -> actions :=
  queue_wallet_action generate_priority wid (act_work account root).

(** The synchronous forms pass [true] in the place of the work. *)
Definition change_sync (wid source_a representative_a : Z) : actions -> actions :=
  change_async wid source_a representative_a 1 true.
Definition receive_sync (wid : Z) (b : block) (representative_a amount_a : Z) : actions -> actions :=
  receive_async wid b representative_a amount_a 1 true.
Definition send_sync (wid source_a account_a amount_a : Z) : actions -> actions :=
  send_async wid source_a account_a amount_a 1 true None.

(** One turn of [do_wallet_actions]: the action to run, if its wallet is still there. *)
Definition next_action (live : Z -> bool) (l : actions) : option ((Z * action) * bool * actions) :=
  match l with
  | [] => None
  | (_, (wid, a)) :: l' => Some ((wid, a), live wid, l')
  end.

(** ** All wallets *)

Definition compute_body (vote_minimum : Z) (weight : Z -> Z) (k : Z) (_ : WS.wallet_value) (x : WS.wallet_store * (gset Z * Z))
    : option (Z * (WS.wallet_store * (gset Z * Z))) :=
  Some (k + 1, if vote_minimum <=? weight k then (x.1, ({[ k ]} ∪ x.2.1, u64 (x.2.2 + 1))) else x).

(** The wallets in the order of the iteration, and the count so far. *)
Fixpoint compute_reps (vote_minimum : Z) (weight : Z -> Z) (l : list wallet) (count : Z) : option (list wallet * Z) :=
  match l with
  | [] => Some ([], count)
  | w :: l' =>
      match WS.walk fst (compute_body vote_minimum weight) (WS.walk_fuel (w_store w)) WS.special_count (w_store w, (∅, count)) with
      | None => None
      | Some (_, (reps, count)) =>
          match compute_reps vote_minimum weight l' count with
          | Some (ws, count) => Some (mk_w (w_store w) (w_live w) reps (w_free w) :: ws, count)
          | None => None
          end
      end
  end.

Definition exists_in (l : list WS.wallet_store) (a : Z) : bool := existsb (fun w => WS.exists_account w a) l.

(** [reload]: wallets whose table is new are opened; for one whose table is gone the code
    asserts that it is not among the wallets. *)
Definition reload (open : Z -> wallet) (stored : list Z) (items : gmap Z wallet) : option (gmap Z wallet) :=
  let items := foldl (fun m id => if WS.is_some (m !! id) then m else <[id := open id]> m) items stored in
  let deleted := List.filter (fun id => negb (existsb (Z.eqb id) stored)) (elements (dom items)) in
  foldl (fun m id => match m with
    | Some m => if WS.is_some (m !! id) then None else Some (delete id m)
    | None => None
    end) (Some items) deleted.

Definition clear_send_ids (ids : send_ids) : send_ids := ∅.

End WalletActions.
