(* ===== verification/WalletLedger.v ===== *)
(** * The blocks a wallet makes

    The composition of [WalletActions] with the ledger: the blocks that the actions make
    are accepted and do what was asked. *)

From stdpp Require Import base gmap list.
From Stdlib Require Import ZArith Lia.
From S2P Require Import Prelude Blake2b Blocks Store Ledger LedgerInv LedgerAppend LedgerProcess LedgerUndo LedgerTheorems LedgerOutcome Numbers Work Signing VoteStore Wallet WalletTheorems WalletSpec WalletActions.
Local Open Scope Z_scope.

Module WalletLedger.
Import Ledger.Ledger LedgerInv.LedgerInv LedgerAppend.LedgerAppend LedgerProcess.LedgerProcess LedgerOutcome.LedgerOutcome WalletActions.WalletActions.
Module LU := LedgerUndo.LedgerUndo.
Module WT := WalletTheorems.WalletTheorems.

#[local] Opaque WS.derive.

(** What ties the ledger's signature check and hash to the wallet's keys: they check the
    signatures that are made, the hash of a state block depends on its fields alone, and
    a hash has 256 bits. *)
Class SignedLedger {EN : Env} {SG : VS.Signatures} : Prop := {
  sl_validate (a h sg : Z) : validate_message a h sg = VS.validate_message a h sg;
  sl_hash (f : state_hashables) (sg w : Z) : hash (state_block f sg w) = hash (state_block f 0 0);
  sl_word (b : block) : word 256 (hash b) }.

(** The node's environment has these properties. *)
Definition node_env (link signer genesis t : Z) : Env := {|
  env_hash := node_hash; validate_message := Signing.validate_message;
  epoch_link := link; epoch_signer := signer; genesis_account := genesis; now := t |}.

Lemma node_signed (link signer genesis t : Z) :
  SignedLedger (EN := node_env link signer genesis t) (SG := VS.node_signatures).
Proof.
  split; [reflexivity | |].
  - intros f sg w. unfold hash, node_env, env_hash, node_hash. rewrite !Block.block_hash_spec. reflexivity.
  - intros b. unfold hash, node_env, env_hash, node_hash. rewrite Block.block_hash_spec.
    destruct (Numbers.spec_blake2b_ok 32 (preimage b) []) as [Hb Hl]. pose proof (be_val_range _ Hb) as R. unfold word.
    pose proof (Z.pow_le_mono_r 2 (8 * Z.of_nat (length (Blake2bRef.spec_blake2b 32 (preimage b) []))) 256 ltac:(lia) ltac:(lia)). lia.
Qed.

Section Accept.

Context {EN : Env} {SG : VS.Signatures} {SL : SignedLedger}.

(** The hash of a block is not zero and is no stored block's with other contents. *)
Definition collision_free (s : store) (b : block) : Prop :=
  hash b <> 0 /\ forall x, block_get_full s (hash b) = Some x -> preimage x.1 = preimage b.

(** A state block that fits its account: it sends, changes the representative or takes a
    pending amount. *)
Definition fits (s : store) (f : state_hashables) : Prop :=
  let takes i := exists pd, pending_get s (state_account f, state_link f) = Some pd /\ state_balance f = i + pi_amount pd in
  match account_get s (state_account f) with
  | Some i => state_previous f = head i /\
      (state_balance f < balance i \/ state_link f = 0 /\ state_balance f = balance i \/ takes (balance i))
  | None => state_previous f = 0 /\ takes 0
  end.

Definition old_of (s : store) (f : state_hashables) : Z := old_balance (account_get s (state_account f)).

(** A pending amount comes from a stored block that can be received. *)
Lemma pending_source (s : store) (a h : Z) (pd : pending_info) : inv s -> pending_get s (a, h) = Some pd ->
  source_exists s h = true /\ h <> 0 /\ 0 <= pi_amount pd.
Proof.
  intros Hs (Hp & _)%(pending_facts s _ _ Hs). destruct (inv_pending _ Hs _ _ _ _ Hp) as [_ Ha (x & y & Hx & _ & Hsend & _) _].
  split; [| split; [eapply get_nonzero; eauto | exact Ha]]. unfold source_exists. apply orb_true_iff.
  destruct x.1 eqn:Ex; try done; [right | left]; apply (exists_type_get s (inv_blocks _ Hs)); exists x; now rewrite Ex.
Qed.

Section Block.

Context (s : store) (Hs : inv s) (f : state_hashables) (sg w : Z) (b := state_block f sg w).
Context (Hok : block_ok b) (Hcf : collision_free s b) (Hfit : fits s f) (Hz : state_account f <> 0).
Context (Hsig : validate_message (state_account f) (hash b) sg = false).
Context (Hepoch : state_link f = epoch_link -> state_balance f <> old_of s f).

Lemma made_admissible : admissible s b sv_unknown.
Proof.
  destruct Hcf as [H1 H2]. split; try done. intros _ _ Hn. left. unfold fits in Hfit. change (account b) with (state_account f) in Hn.
  rewrite Hn in Hfit. apply Hfit.
Qed.

(** The place of the block is free. *)
Lemma block_new : block_exists_type s (type b) (hash b) = false.
Proof.
  apply not_true_is_false. intros (x & Hx & Ht)%(exists_type_get s (inv_blocks _ Hs)).
  pose proof (get_hash s (inv_blocks _ Hs) _ _ Hx) as (_ & _ & Hxok).
  pose proof (preimage_inj _ _ Hxok Hok (proj2 Hcf _ Hx)) as Hsame.
  assert (Ex : exists sg' w', x.1 = state_block f sg' w').
  { destruct x.1; try discriminate Ht. cbn in Hsame. subst. eauto. }
  destruct Ex as (sg' & w' & Ex). destruct (inv_chain _ Hs _ _ Hx) as [(e & i & Hi & _) Hprev _].
  assert (Ea : entry_account x = state_account f).
  { unfold entry_account. rewrite Ex. cbn. now apply Z.eqb_neq in Hz as ->. }
  rewrite Ea in Hi. apply (account_get_entry s Hs) in Hi. unfold fits in Hfit. rewrite Hi in Hfit. destruct Hfit as [Ep _].
  rewrite Ex in Hprev. cbn [previous] in Hprev. rewrite Ep in Hprev.
  destruct (ao_head _ _ _ _ (inv_account _ Hs _ _ _ (proj1 (account_get_some s Hs _ _) Hi))) as (y & Hy & _ & _ & Sy & _).
  destruct Hprev as (y' & Hy' & Sy' & _); [eapply get_nonzero; eauto |]. destruct Hcf as [Hnz _]. congruence.
Qed.

Notation accepts m t := (post m t (fun c _ => c = progress)).

Lemma accepts_check (c : bool) (o : process_result) (k : M unit) (t : lstate) : c = true ->
  (forall r, code r = progress -> accepts k (set_result t r)) -> accepts (check c o k) t.
Proof. intros -> Hk. apply post_check; [done |]. intros _ r Hr _. now apply Hk. Qed.

Lemma accepts_signature (k : M unit) (t : lstate) :
  (forall r, code r = progress -> accepts k (set_result t r)) ->
  accepts (check_signature sv_valid (state_account f) (hash b) sg k) t.
Proof.
  intros Hk. unfold check_signature. change (get_result ≫= ?k) with (fun s => k (result s) s). cbv beta zeta.
  unfold post. rewrite Hsig, andb_false_r.
  change (accepts (set_code progress ≫= fun _ => assert (negb false) ≫= fun _ => set_verified sv_valid ≫= fun _ => k) t).
  apply post_modify, post_assert. intros _. apply post_modify. now apply Hk.
Qed.

Lemma accepts_commit (i : account_info) (is_send : bool) (amt : Z) (e : epoch) (t : lstate) : code (result t) = progress ->
  accepts (state_commit f sg w i is_send amt e) t.
Proof. intros Hc. apply post_keeps; [apply keeps_state_commit | exact Hc]. Qed.

Lemma accepts_source (i : Z) (is_send : bool) (amt : Z) (e : epoch) (k : epoch -> M unit) (t : lstate) : db t = s ->
  (is_send = false -> amt = state_balance f - i /\
    (state_link f = 0 /\ state_balance f = i \/
     exists pd, pending_get s (state_account f, state_link f) = Some pd /\ state_balance f = i + pi_amount pd)) ->
  code (result t) = progress ->
  (forall e t, code (result t) = progress -> accepts (k e) t) -> accepts (state_check_source f is_send amt e k) t.
Proof.
  intros Et Hc Hpr Hk. unfold state_check_source. destruct is_send; cbn [negb]; [now apply Hk |].
  destruct (Hc eq_refl) as [-> [[El Eb] | (pd & Hp & Eb)]].
  - rewrite El. cbn [Z.eqb negb]. apply accepts_check; [apply Z.eqb_eq; lia |]. intros r Hr. now apply Hk.
  - destruct (pending_source _ _ _ _ Hs Hp) as (Hsrc & Hl & _). apply Z.eqb_neq in Hl as ->. cbn [negb].
    apply post_reads. rewrite Et, Hsrc. apply accepts_check; [done |]. intros r Hr. apply post_reads.
    change (db (set_result t r)) with (db t). rewrite Et, Hp. apply accepts_check; [done |]. intros r' Hr'.
    apply post_must. intros pd' [= <-]. apply accepts_check; [apply Z.eqb_eq; lia |]. intros r2 Hr2. now apply Hk.
Qed.

Lemma accepts_impl (t : lstate) : db t = s -> accepts (state_block_impl f sg w) t.
Proof.
  intros Et. unfold state_block_impl. fold b. apply post_reads. rewrite Et, block_new. apply accepts_check; [done |]. intros r1 _.
  apply accepts_signature. intros r2 _. apply accepts_check; [now apply negb_true_iff, Z.eqb_neq |]. intros r3 Hr3.
  apply post_modify, post_reads. cbn [db set_result]. rewrite Et. unfold fits in Hfit.
  destruct (account_get s (state_account f)) as [i |] eqn:Hi.
  - destruct Hfit as [Ep Hc]. destruct (ao_head _ _ _ _ (inv_account _ Hs _ _ _ (proj1 (account_get_some s Hs _ _) Hi))) as (x & Hx & _).
    pose proof (get_nonzero s Hs _ _ Hx) as Hn. apply accepts_check; [rewrite Ep; now apply negb_true_iff, Z.eqb_neq |]. intros r4 _.
    apply post_reads. cbn [db set_result]. rewrite Et. apply accepts_check; [rewrite Ep; apply (exists_get s (inv_blocks _ Hs)); eauto |].
    intros r5 _. apply post_modify. apply accepts_check; [rewrite Ep; apply Z.eqb_refl |]. intros r6 Hr6.
    apply (accepts_source (balance i)); [exact Et | | exact Hr6 | intros; now apply accepts_commit].
    destruct (Z.ltb_spec (state_balance f) (balance i)); [done |]. intros _. split; [done |]. destruct Hc as [? | Hc]; [lia | exact Hc].
  - destruct Hfit as [Ep (pd & Hp & Eb)]. destruct (pending_source _ _ _ _ Hs Hp) as (_ & Hl & _).
    apply accepts_check; [rewrite Ep; done |]. intros r4 _. apply accepts_check; [now apply negb_true_iff, Z.eqb_neq |]. intros r5 Hr5.
    apply (accepts_source 0); [exact Et | | exact Hr5 | intros; now apply accepts_commit].
    intros _. split; [lia |]. right. eauto.
Qed.

(** It is not taken for an epoch block. *)
Lemma not_epoch (t : lstate) : db t = s -> code (result t) = progress ->
  wp (if negb (epoch_link =? 0) && is_epoch_link (state_link f) then
       prev_balance ←
         (if negb (state_previous f =? 0) then
            pe ← reads (fun s => block_exists s (state_previous f));
            set_code (if pe : bool then progress else gap_previous);;
            if pe : bool then ledger_balance (state_previous f)
            else check_gap_signature f (hash b) sg;; mret 0
          else mret 0);
       mret (state_balance f =? prev_balance)
     else mret false) t (fun ie t' => ie = false /\ db t' = s /\ code (result t') = progress).
Proof.
  intros Et Hc. destruct (negb (epoch_link =? 0) && is_epoch_link (state_link f)) eqn:El; [| now apply wp_ret].
  apply andb_true_iff in El as [_ El%Z.eqb_eq]. specialize (Hepoch El). unfold old_of in Hepoch. unfold fits in Hfit. apply wp_bind.
  destruct (account_get s (state_account f)) as [i |] eqn:Hi.
  - destruct Hfit as [Ep _]. destruct (ao_head _ _ _ _ (inv_account _ Hs _ _ _ (proj1 (account_get_some s Hs _ _) Hi))) as (x & Hx & Bx & _).
    pose proof (get_nonzero s Hs _ _ Hx) as Hn. rewrite Ep, (proj2 (Z.eqb_neq _ _) Hn). cbn [negb]. apply wp_bind, wp_reads. rewrite Et.
    rewrite (proj2 (exists_get s (inv_blocks _ Hs) _)) by eauto. apply wp_bind, wp_modify.
    eapply wp_ledger_balance; [exact Hn | cbn [db set_result]; rewrite Et, block_balance_get, Hx; reflexivity |].
    apply wp_ret. split; [| done]. apply Z.eqb_neq. now rewrite Bx.
  - destruct Hfit as [Ep _]. rewrite Ep. cbn [Z.eqb negb]. apply wp_ret, wp_ret. split; [| done]. now apply Z.eqb_neq.
Qed.

(** A state block that fits is accepted. *)
Lemma block_accepted : exists r s' sb new c, process s b sv_unknown = Done (r, s') /\ code r = progress /\
  appended s b sb (state_account f) (account_get s (state_account f)) new c s' /\
  explains s b (state_account f) (account_get s (state_account f)) c /\ inv s'.
Proof.
  destruct (process_settled s b sv_unknown Hs made_admissible) as (r & s' & E & Hc).
  assert (A : code r = progress).
  { unfold process in E. cbn [process_block b] in E. unfold process_state in E. fold b in E.
    set (t := mk_lstate s [] (initial_result sv_unknown) []) in *.
    match type of E with match ?m with _ => _ end = _ => destruct m as [[[] t'] | |] eqn:Em; [| done | done] end.
    injection E as <- <-. revert Em. unfold mbind at 1, M_bind at 1. cbn [set_code modify].
    set (t1 := mk_lstate _ _ _ _). pose proof (not_epoch t1 eq_refl eq_refl) as Hw. unfold wp in Hw. unfold mbind at 1, M_bind at 1.
    match type of Hw with match ?m with _ => _ end => destruct m as [[ie t2] | |]; [| done | done] end.
    destruct Hw as (-> & Ed & Ec). change (get_result ≫= ?k) with (fun s => k (result s) s). cbv beta.
    rewrite bool_decide_eq_true_2 by exact Ec. intros Em. exact (accepts_impl t2 Ed _ _ Em). }
  destruct Hc as [[Hn _] | (_ & sb & a & old & new & c & Hap & Hex & _)]; [done |].
  assert (Ea : a = state_account f) by (destruct Hex as [-> _]; done). subst a.
  destruct (ap_account _ _ _ _ _ _ _ _ Hap) as [_ Ho]. rewrite Ho. exists r, s', sb, new, c.
  split_and!; try done. exact (append_inv _ _ _ _ _ _ _ _ Hs Hap).
Qed.

End Block.

End Accept.

Section Actions.

Context {EN : Env} {CI : WS.Cipher} {SG : VS.Signatures} {SL : SignedLedger} {WE : W.WorkEnv}.
Context (work_generate : Z -> Z) (rnd : list Z) (Hgen : forall r, word 64 (work_generate r)).

Notation launch := (launch work_generate).
Notation new_block := (new_block rnd).

(** What is asked of the node for a block: it is processed, and work for the next one is
    looked for. *)
Definition handed (b : block) (a : Z) (generate_work : bool) : list output :=
  [out_process_active b; out_flush] ++ (if generate_work then [out_work_ensure a (hash b)] else []).

(** The block that leaves an action: the fields it was made with, a signature of the
    account and, if the generator finds work, enough of it. *)
Lemma launch_spec (f : state_hashables) (prv a work : Z) (gen : bool) : word 64 work -> VS.pub_key prv = a ->
  exists sg wk, launch (new_block f prv a work) a gen = (state_block f sg wk, handed (state_block f sg wk) a gen) /\
    word 512 sg /\ word 64 wk /\ validate_message a (hash (state_block f sg wk)) sg = false /\
    hash (new_block f prv a work) = hash (state_block f sg wk) /\
    ((forall r, (W.work_validate r (work_generate r)).1 = false) -> (W.work_validate_block (state_block f sg wk)).1 = false).
Proof.
  intros Ww <-. unfold WalletActions.launch, WalletActions.new_block. set (sg := VS.sign_message _ _ _ _).
  assert (Hv : forall wk, validate_message (VS.pub_key prv) (hash (state_block f sg wk)) sg = false).
  { intros wk. rewrite sl_validate, sl_hash. apply VS.sign_valid. }
  destruct (W.work_validate_block (state_block f sg work)).1 eqn:E.
  - exists sg, (work_generate (root (state_block f sg work))). split_and!; try done; [apply VS.sign_word | now rewrite !(sl_hash f sg) |].
    intros Hw. apply Hw.
  - exists sg, work. split_and!; try done. apply VS.sign_word.
Qed.

Lemma representative_word (b : block) : block_ok b -> word 256 (representative b).
Proof.
  intros [Hb _]. destruct b; cbn in *; try (apply WT.word_zero; lia); apply Hb.
Qed.

Lemma stored_word (s : store) (h : Z) (x : entry) : inv s -> block_get_full s h = Some x ->
  word 256 h /\ block_ok x.1.
Proof. intros Hs Hx. destruct (get_hash s (inv_blocks _ Hs) _ _ Hx) as (-> & _ & Hb). split; [apply sl_word | exact Hb]. Qed.

Lemma found_entry (w : WS.wallet_store) (a prv : Z) : WS.fetch w a = Some prv -> WS.is_some (WS.find w a) = true.
Proof. intros [v E]%WT.fetch_entry. rewrite WT.find_lookup, E. done. Qed.

(** An open account: its head and its representative. *)
Lemma account_words (s : store) (a : Z) (i : account_info) : inv s -> account_get s a = Some i ->
  word 256 (head i) /\ 0 <= balance i < 2 ^ 128 /\ a <> 0 /\
  exists rep, block_get s (rep_block i) = Some rep /\ word 256 (representative rep).
Proof.
  intros Hs Hi. destruct (account_facts _ _ _ Hs Hi) as (Hb & rep & Hr). pose proof (proj1 (account_get_some s Hs _ _) Hi) as He.
  destruct (inv_account _ Hs _ _ _ He) as [_ Ha _ _ (x & Hx & _) _ _ _]. split_and!; [now apply (stored_word s _ x) | apply Hb | apply Hb | done |].
  exists rep. split; [done |]. apply block_get_some in Hr as (y & Hy & <-). now apply representative_word, (stored_word s (rep_block i)).
Qed.

(** A block made for a stored account or a pending amount, as the three actions make it. *)
Lemma made_accepted (s : store) (f : state_hashables) (sg wk : Z) : let b := state_block f sg wk in
  inv s -> fits s f -> state_account f <> 0 ->
  word 256 (state_account f) -> word 256 (state_previous f) -> word 256 (state_representative f) ->
  0 <= state_balance f < 2 ^ 128 -> word 256 (state_link f) -> word 512 sg -> word 64 wk ->
  validate_message (state_account f) (hash b) sg = false ->
  (state_link f = epoch_link -> state_balance f <> old_of s f) -> collision_free s b ->
  exists r s' sb new c, process s b sv_unknown = Done (r, s') /\ code r = progress /\
    appended s b sb (state_account f) (account_get s (state_account f)) new c s' /\
    explains s b (state_account f) (account_get s (state_account f)) c /\ inv s' /\
    account_balance s' (state_account f) = state_balance f.
Proof.
  intros b Hs Hf Hz W1 W2 W3 W4 W5 W6 W7 Hsig He Hc.
  destruct (block_accepted s Hs f sg wk) as (r & s' & sb & new & c & E & Hp & Hap & Hex & Hs'); try done.
  exists r, s', sb, new, c. split_and!; try done. unfold account_balance.
  rewrite (account_get_entry s' Hs' _ _ _ (ap_account_new _ _ _ _ _ _ _ _ Hap)).
  destruct (ap_sideband _ _ _ _ _ _ _ _ Hap) as (_ & _ & Eb & _). rewrite <- Eb. reflexivity.
Qed.

(** The pending amount a sending block leaves. *)
Lemma sent_pending (s : store) (f : state_hashables) (sg wk : Z) (i : account_info) sb new c s' : let b := state_block f sg wk in
  appended s b sb (state_account f) (Some i) new c s' -> explains s b (state_account f) (Some i) c -> inv s' ->
  state_balance f < balance i ->
  pending_get s' (state_link f, hash b) = Some (mk_pending_info (state_account f) (balance i - state_balance f) (ai_epoch new)).
Proof.
  intros b Hap [_ Hex] Hs' Hlt. cbn [old_balance] in Hex. rewrite (proj2 (Z.ltb_lt _ _)) in Hex by exact Hlt. destruct Hex as [p ->].
  pose proof (ap_change _ _ _ _ _ _ _ _ Hap) as (_ & E1 & E2 & _). pose proof (ap_money _ _ _ _ _ _ _ _ Hap) as E3.
  destruct (ap_sideband _ _ _ _ _ _ _ _ Hap) as (_ & _ & E4 & _). cbn [pending_delta old_balance] in E3. cbn in E4.
  apply (LU.pending_get_entry s' (pi_epoch p)); [exact Hs' |]. rewrite (ap_pending _ _ _ _ _ _ _ _ Hap). cbn [apply_pending].
  rewrite lookup_insert_eq. f_equal. destruct p as [ps pa pe]. cbn in *. f_equal; [exact E1 | lia | exact E2].
Qed.

(** C17: sending from an account whose key an unlocked wallet has, an amount that is not
    zero and that the account has, makes a block (no assertion fails) that is handed to
    the node with enough work, and that the ledger accepts: the sender's balance falls
    by the amount, and the receiver can receive it. *)
Theorem send_accepted (s : store) (w : WS.wallet_store) (ids : send_ids) (source dest amount work prv : Z) (gen : bool)
  (Hs : inv s) (Hk : WS.fetch w source = Some prv) (Ha : 0 < amount <= account_balance s source)
  (Hd : word 256 dest) (Hw : word 64 (cached_work w source work))
  (Hwork : forall r, (W.work_validate r (work_generate r)).1 = false) :
  exists b, send_action work_generate rnd no_faults s w ids source dest amount work gen None = Some (Some b, ids, handed b source gen) /\
    (W.work_validate_block b).1 = false /\
    (collision_free s b -> exists r s' e, process s b sv_unknown = Done (r, s') /\ code r = progress /\ inv s' /\
      account_balance s' source = account_balance s source - amount /\
      pending_get s' (dest, hash b) = Some (mk_pending_info source amount e)).
Proof.
  destruct (WT.fetch_pub _ _ _ Hk) as [Hp V]. unfold account_balance in Ha. destruct (account_get s source) as [i |] eqn:Hi; [| lia].
  destruct (account_words _ _ _ Hs Hi) as (W1 & W2 & Hz & rep & Hr & W3).
  set (f := mk_state source (head i) (representative rep) (balance i - amount) dest).
  destruct (launch_spec f prv source (cached_work w source work) gen Hw Hp) as (sg & wk & El & S1 & S2 & S3 & _ & S4).
  exists (state_block f sg wk). split; [| split; [now apply S4 |]].
  - unfold send_action. cbn [WS.is_some andb cached_block]. unfold send_block_for. rewrite V, (found_entry _ _ _ Hk).
    unfold account_balance. rewrite Hi, Hk, Hr, (proj2 (Z.eqb_neq _ _)), (proj2 (Z.leb_le _ _)) by lia. cbn [negb andb]. fold f.
    rewrite El. reflexivity.
  - intros Hc. destruct (made_accepted s f sg wk) as (r & s' & sb & new & c & E & Hpr & Hap & Hex & Hs' & Eb); try done.
    + unfold fits. cbn [state_account f]. rewrite Hi. split; [done |]. left. cbn [state_balance f]. lia.
    + cbn [state_account f]. rewrite <- Hp. apply VS.pub_key_word.
    + cbn [state_balance f]. lia.
    + intros _. unfold old_of. cbn [state_account state_balance f]. rewrite Hi. cbn [old_balance]. lia.
    + cbn [state_account f] in *. rewrite Hi in Hap, Hex. exists r, s', (ai_epoch new). split_and!; try done.
      * rewrite Eb. unfold account_balance. rewrite Hi. reflexivity.
      * pose proof (sent_pending s f sg wk i sb new c s' Hap Hex Hs') as Hpd. cbn [state_balance state_link state_account f] in Hpd.
        rewrite Hpd by lia. do 2 f_equal. lia.
Qed.

(** The account a stored block with a pending amount sends to. *)
Lemma destination_known (s : store) (send : block) (a : Z) (pd : pending_info) : inv s -> block_get s (hash send) = Some send ->
  pending_get s (a, hash send) = Some pd -> 0 < pi_amount pd -> query (block_destination send) s = Some a.
Proof.
  intros Hs (x & Hx & Ex)%block_get_some (Hp & _)%(pending_facts s _ _ Hs) Hpos.
  destruct (inv_pending _ Hs _ _ _ _ Hp) as [_ _ (x' & y & Hx' & _ & Hsend & Hy & Eb) _]. rewrite Hx in Hx'. injection Hx' as <-.
  destruct x as [xb xs]. cbn [fst] in Ex. subst xb. cbn [fst] in *.
  destruct send as [g sg wk | | | | g sg wk]; try done; cbn [sends_to] in Hsend.
  - cbn. now rewrite Hsend.
  - unfold query, block_destination, is_send, mbind, M_bind. cbn [previous] in Hy. pose proof (get_nonzero s Hs _ _ Hy) as Hn.
    rewrite (proj2 (Z.eqb_neq _ _) Hn). cbn [negb]. unfold ledger_balance. rewrite (proj2 (Z.eqb_neq _ _) Hn).
    unfold needs, mbind, M_bind, reads, must. cbn [db]. rewrite block_balance_get, Hy. cbn [fmap option_fmap option_map].
    cbn [entry_balance fst] in Eb. unfold mret, M_ret.
    change (entry_balance (state_block g sg wk, xs)) with (state_balance g) in Eb.
    rewrite (proj2 (Z.ltb_lt _ _)) by lia. now rewrite Hsend.
Qed.

(** C18: receiving an amount that is pending for an account whose key an unlocked wallet
    has makes a block that is handed to the node with enough work and that the ledger
    accepts: the balance rises by the amount, and the amount is not pending any more.
    The account may have been opened before or not. *)
Theorem receive_accepted (minimum : Z) (s : store) (w : WS.wallet_store) (send : block) (a rep amount work prv : Z) (gen : bool)
  (pd : pending_info) (Hs : inv s) (Hst : block_get s (hash send) = Some send)
  (Hpd : pending_get s (a, hash send) = Some pd) (Hpos : 0 < pi_amount pd) (Hmin : minimum <= amount)
  (Hk : WS.fetch w a = Some prv) (Hz : a <> 0) (Hrep : word 256 rep) (He : hash send <> epoch_link)
  (Hw : word 64 (cached_work w a work)) (Hwork : forall r, (W.work_validate r (work_generate r)).1 = false) :
  exists b, receive_action work_generate rnd minimum s w send rep amount work gen = Some (Some b, handed b a gen) /\
    (W.work_validate_block b).1 = false /\
    (collision_free s b -> exists r s', process s b sv_unknown = Done (r, s') /\ code r = progress /\ inv s' /\
      account_balance s' a = account_balance s a + pi_amount pd /\ pending_get s' (a, hash send) = None).
Proof.
  destruct (WT.fetch_pub _ _ _ Hk) as [Hp V]. assert (Wa : word 256 a) by (rewrite <- Hp; apply VS.pub_key_word).
  pose proof (destination_known _ _ _ _ Hs Hst Hpd Hpos) as Hdest. apply block_get_some in Hst as (x & Hx & _).
  assert (Hex : block_exists s (hash send) = true) by (apply (exists_get s (inv_blocks _ Hs)); eauto).
  destruct (pending_facts s _ _ Hs Hpd) as (Hpe & _).
  set (f := match account_get s a with
            | Some i => mk_state a (head i) (rep_of s i) (balance i + pi_amount pd) (hash send)
            | None => mk_state a 0 rep (pi_amount pd) (hash send)
            end).
  assert (F : state_account f = a /\ state_link f = hash send /\ state_balance f = account_balance s a + pi_amount pd /\
    0 <= state_balance f < 2 ^ 128 /\ word 256 (state_previous f) /\ word 256 (state_representative f) /\ fits s f /\
    exists sg wk, receive_action work_generate rnd minimum s w send rep amount work gen =
        Some (Some (state_block f sg wk), handed (state_block f sg wk) a gen) /\
      word 512 sg /\ word 64 wk /\ validate_message a (hash (state_block f sg wk)) sg = false /\
      (W.work_validate_block (state_block f sg wk)).1 = false).
  { unfold receive_action. rewrite (proj2 (Z.leb_le _ _)), Hex, Hdest, Hpd, Hk by exact Hmin. unfold account_balance, fits.
    destruct (account_get s a) as [i |] eqn:Hi.
    - destruct (account_words _ _ _ Hs Hi) as (W1 & W2 & _ & rb & Hr & W3). pose proof (receive_fits _ _ _ _ _ Hs Hi Hpe) as Hfit.
      assert (Ef : f = mk_state a (head i) (representative rb) (balance i + pi_amount pd) (hash send)).
      { unfold f, rep_of. now rewrite Hr. }
      rewrite Ef. cbn [state_account state_link state_balance state_previous state_representative]. rewrite Hi, Hr, u128_small by lia.
      split_and!; try done; try lia; [right; right; exists pd; auto |].
      destruct (launch_spec (mk_state a (head i) (representative rb) (balance i + pi_amount pd) (hash send)) prv a _ gen Hw Hp)
        as (sg & wk & El & S1 & S2 & S3 & _ & S4). exists sg, wk. unfold launched. rewrite El.
      split_and!; try done. now apply S4.
    - assert (Hb : pi_amount pd < 2 ^ 128).
      { pose proof (inv_supply _ Hs) as Es. unfold supply, genesis_amount in Es.
        pose proof (map_sum_member pi_amount _ _ _ (pending_nonneg s Hs) Hpe).
        pose proof (map_sum_nonneg balance _ (balance_nonneg s Hs)). lia. }
      unfold f. cbn [state_account state_link state_balance state_previous state_representative]. rewrite Hi.
      split_and!; try done; try lia; [exists pd; auto |].
      destruct (launch_spec (mk_state a 0 rep (pi_amount pd) (hash send)) prv a _ gen Hw Hp)
        as (sg & wk & El & S1 & S2 & S3 & _ & S4). exists sg, wk. unfold launched. rewrite El.
      split_and!; try done. now apply S4. }
  clearbody f. destruct F as (Fa & Fl & Fb & Fr & Fp & Fq & Ff & sg & wk & E & S1 & S2 & S3 & S4).
  exists (state_block f sg wk). split; [exact E |]. split; [exact S4 |]. intros Hc.
  destruct (made_accepted s f sg wk) as (r & s' & sb & new & c & Er & Hpr & Hap & Hexp & Hs' & Eb); try done; try congruence.
  - rewrite Fl. apply sl_word.
  - exists r, s'. rewrite Fa in *. split_and!; try done; [congruence |].
    destruct Hexp as [_ Hexp]. rewrite (proj2 (Z.ltb_ge _ _)), Fl in Hexp.
    2: { unfold account_balance in Fb. destruct (account_get s a); cbn [old_balance]; lia. }
    destruct Hexp as [[_ [H0 | H0]] | (_ & p & ->)]; [now apply (get_nonzero s Hs) in Hx | done |].
    unfold pending_get. rewrite (ap_pending _ _ _ _ _ _ _ _ Hap). cbn [apply_pending].
    pose proof (ap_change _ _ _ _ _ _ _ _ Hap) as Hpp. cbn [pending_change_ok] in Hpp.
    assert (N : forall e, delete (pi_epoch p, (a, hash send)) (pending s) !! (e, (a, hash send)) = None).
    { intros e. destruct (decide (e = pi_epoch p)) as [-> | Hne]; [apply lookup_delete_eq |]. rewrite lookup_delete_ne by congruence.
      destruct (pending s !! (e, (a, hash send))) as [q |] eqn:Eq; [| done].
      now destruct (Hne (inv_pending_unique _ Hs _ _ _ _ _ Eq Hpp)). }
    now rewrite !N.
Qed.

(** Changing the representative of an open account whose key an unlocked wallet has makes
    a block that the ledger accepts; the balance stays. *)
Theorem change_accepted (s : store) (w : WS.wallet_store) (source rep work prv : Z) (gen : bool)
  (Hs : inv s) (Hk : WS.fetch w source = Some prv) (Ho : is_Some (account_get s source)) (Hrep : word 256 rep)
  (He : epoch_link <> 0) (Hw : word 64 (cached_work w source work))
  (Hwork : forall r, (W.work_validate r (work_generate r)).1 = false) :
  exists b, change_action work_generate rnd s w source rep work gen = Some (Some b, handed b source gen) /\
    (W.work_validate_block b).1 = false /\ representative b = rep /\
    (collision_free s b -> exists r s', process s b sv_unknown = Done (r, s') /\ code r = progress /\ inv s' /\
      account_balance s' source = account_balance s source /\ exists i, account_get s' source = Some i /\ rep_block i = hash b).
Proof.
  destruct (WT.fetch_pub _ _ _ Hk) as [Hp V]. destruct Ho as [i Hi].
  destruct (account_words _ _ _ Hs Hi) as (W1 & W2 & Hz & _). set (f := mk_state source (head i) rep (balance i) 0).
  destruct (launch_spec f prv source (cached_work w source work) gen Hw Hp) as (sg & wk & El & S1 & S2 & S3 & _ & S4).
  exists (state_block f sg wk). split; [| split; [now apply S4 | split; [done |]]].
  - unfold change_action. rewrite V, (found_entry _ _ _ Hk). unfold latest. rewrite Hi.
    destruct (ao_head _ _ _ _ (inv_account _ Hs _ _ _ (proj1 (account_get_some s Hs _ _) Hi))) as (x & Hx & _).
    rewrite (proj2 (Z.eqb_neq _ _) (get_nonzero s Hs _ _ Hx)), Hk. cbn [negb andb]. fold f. unfold launched. now rewrite El.
  - intros Hc. destruct (made_accepted s f sg wk) as (r & s' & sb & new & c & E & Hpr & Hap & Hex & Hs' & Eb); try done.
    + unfold fits. cbn [state_account f]. rewrite Hi. split; [done |]. right. now left.
    + cbn [state_account f]. rewrite <- Hp. apply VS.pub_key_word.
    + cbn [state_account state_balance f] in *. rewrite Hi in Hap. exists r, s'. split_and!; try done.
      * rewrite Eb. unfold account_balance. now rewrite Hi.
      * exists new. split; [apply (account_get_entry s' Hs' _ _ _ (ap_account_new _ _ _ _ _ _ _ _ Hap)) | apply (ap_rep _ _ _ _ _ _ _ _ Hap)].
Qed.

(** ** Sending once *)

Lemma send_block_state (s : store) (w : WS.wallet_store) (source dest amount work : Z) (b : block) :
  send_block_for rnd s w source dest amount work = Some (Some b) -> exists f sg wk, b = state_block f sg wk.
Proof.
  unfold send_block_for, WalletActions.new_block. intros E. repeat case_match; try done. injection E as <-. eauto.
Qed.

Lemma launch_hash (f : state_hashables) (sg wk a : Z) (gen : bool) :
  hash (launch (state_block f sg wk) a gen).1 = hash (state_block f sg wk).
Proof.
  unfold WalletActions.launch. destruct (W.work_validate_block _).1; [| done]. cbn [fst set_work]. rewrite sl_hash. symmetry. apply sl_hash.
Qed.

(** C19: an identifier sends once: after a call with an identifier returned a block, every
    call with that identifier in a ledger that has the block returns that block again,
    whatever else it is given; it hands no block to the node and changes nothing. *)
Theorem send_once (x x' : faults) (s s' : store) (w w' : WS.wallet_store) (ids ids' : send_ids) (i : list Z)
  (source dest amount work source' dest' amount' work' : Z) (gen gen' : bool) (b : block) (o : list output)
  (Hs : inv s) (E : send_action work_generate rnd x s w ids source dest amount work gen (Some i) = Some (Some b, ids', o))
  (Hb : block_get s' (hash b) = Some b) (Hf : get_fails x' = false) :
  send_action work_generate rnd x' s' w' ids' source' dest' amount' work' gen' (Some i) = Some (Some b, ids', [out_republish b]).
Proof.
  assert (Hi : ids' !! i = Some (hash b)).
  { unfold send_action in E. destruct (WS.is_some (Some i) && get_fails x); [done |]. destruct (cached_block s ids (Some i)) as [b0 |] eqn:Ec.
    - injection E as <- <- _. unfold cached_block in Ec. destruct (ids !! i) as [h |]; [| done].
      apply block_get_some in Ec as (y & Hy & <-). destruct (get_hash s (inv_blocks _ Hs) _ _ Hy) as (-> & _). done.
    - destruct (send_block_for rnd s w source dest amount work) as [[b0 |] |] eqn:Eb; try done.
      destruct (send_block_state _ _ _ _ _ _ _ Eb) as (f & sg & wk & ->). pose proof (launch_hash f sg wk source gen) as Hh.
      destruct (put_fails x); [done |]. destruct (launch (state_block f sg wk) source gen) as [b1 o1].
      injection E as -> <- _. rewrite lookup_insert_eq. f_equal. symmetry. exact Hh. }
  unfold send_action. cbn [WS.is_some andb cached_block]. rewrite Hf, Hi, Hb. reflexivity.
Qed.

(** ** What the actions do not check *)

(** C20: an account that is only watched passes the tests of sending and of changing the
    representative, which then fail the assertion that its key can be read. *)
Theorem watched_account_aborts (s : store) (w : WS.wallet_store) (ids : send_ids) (a dest amount work : Z) (gen : bool)
  (v : WS.wallet_value) (i : account_info) (Hs : inv s) (V : WS.valid_password w = true) (Hv : WS.entries w !! a = Some v)
  (H0 : WS.wv_key v = 0) (Hi : account_get s a = Some i) (Ha : 0 < balance i) (Hamt : amount <= balance i) :
  send_action work_generate rnd no_faults s w ids a dest amount work gen None = None /\
  change_action work_generate rnd s w a dest work gen = None.
Proof.
  assert (Hf : WS.find w a = Some v) by now rewrite WT.find_lookup.
  assert (Hk : WS.fetch w a = None).
  { unfold WS.fetch, WS.entry_get_raw. now rewrite V, Hv, H0. }
  split.
  - unfold send_action. cbn [WS.is_some andb cached_block]. unfold send_block_for, account_balance.
    rewrite V, Hf, Hi, Hk, (proj2 (Z.eqb_neq _ _)), (proj2 (Z.leb_le _ _)) by lia. reflexivity.
  - unfold change_action, latest. rewrite V, Hf, Hi, Hk.
    destruct (ao_head _ _ _ _ (inv_account _ Hs _ _ _ (proj1 (account_get_some s Hs _ _) Hi))) as (x & Hx & _).
    rewrite (proj2 (Z.eqb_neq _ _) (get_nonzero s Hs _ _ Hx)). reflexivity.
Qed.

(** Sending nothing is not refused: the action makes a block that reports success, and
    the ledger rejects it, since a block that leaves the balance alone does not send. *)
Theorem zero_send_rejected (s : store) (w : WS.wallet_store) (ids : send_ids) (source dest work prv : Z) (gen : bool)
  (Hs : inv s) (Hk : WS.fetch w source = Some prv) (Ha : 0 < account_balance s source)
  (Hd : word 256 dest) (Hw : word 64 (cached_work w source work)) (Hz : dest <> 0) (He : dest <> epoch_link)
  (Hn : pending_get s (source, dest) = None) :
  exists b, send_action work_generate rnd no_faults s w ids source dest 0 work gen None = Some (Some b, ids, handed b source gen) /\
    (collision_free s b -> exists r, process s b sv_unknown = Done (r, s) /\ code r <> progress).
Proof.
  destruct (WT.fetch_pub _ _ _ Hk) as [Hp V]. unfold account_balance in Ha. destruct (account_get s source) as [i |] eqn:Hi; [| lia].
  destruct (account_words _ _ _ Hs Hi) as (W1 & W2 & Hz' & rep & Hr & W3).
  set (f := mk_state source (head i) (representative rep) (balance i - 0) dest).
  destruct (launch_spec f prv source (cached_work w source work) gen Hw Hp) as (sg & wk & El & S1 & S2 & S3 & _ & S4).
  exists (state_block f sg wk). split.
  - unfold send_action. cbn [WS.is_some andb cached_block]. unfold send_block_for. rewrite V, (found_entry _ _ _ Hk).
    unfold account_balance. rewrite Hi, Hk, Hr, (proj2 (Z.eqb_neq _ _)), (proj2 (Z.leb_le _ _)) by lia. cbn [negb andb]. fold f.
    rewrite El. reflexivity.
  - intros [Hc1 Hc2]. assert (Had : admissible s (state_block f sg wk) sv_unknown).
    { split; try done. split; [| done]. cbn [hashables_ok f state_account state_previous state_representative state_balance state_link].
      split_and!; try done; rewrite ?Z.sub_0_r; try done. rewrite <- Hp. apply VS.pub_key_word. }
    destruct (process_settled s _ sv_unknown Hs Had) as (r & s' & E & [[Hc ->] | (_ & sb & a & old & new & c & Hap & [Ea Hex] & _)]); [eauto |].
    exfalso. cbn [state_account f] in Ea. subst a. destruct (ap_account _ _ _ _ _ _ _ _ Hap) as [_ Ho]. rewrite Hi in Ho. subst old.
    cbn [old_balance state_balance state_link f] in Hex. rewrite (proj2 (Z.ltb_ge _ _)) in Hex by lia.
    destruct Hex as [[_ [? | ?]] | (_ & p & ->)]; [done | done |]. pose proof (ap_change _ _ _ _ _ _ _ _ Hap) as Hpp. cbn [pending_change_ok] in Hpp.
    rewrite (LU.pending_get_entry s _ _ _ Hs Hpp) in Hn. done.
Qed.

End Actions.

(** ** A concrete ledger and wallet *)

Import WalletSpec.WalletSpec.
Module LT := LedgerTheorems.LedgerTheorems.

#[local] Existing Instance demo_cipher.
#[local] Existing Instance VS.demo_signatures.

(** The ledger of [LedgerTheorems] with the signatures of the example, opened by an
    account whose key a wallet can keep. *)
Definition demo_env : Env := {|
  env_hash := fun b => 1 + be_val (preimage b) mod (2 ^ 255 - 19);
  validate_message := VS.validate_message;
  epoch_link := 7; epoch_signer := 9; genesis_account := 2 ^ 90; now := 0 |}.

#[local] Existing Instance demo_env.

Lemma demo_signed : SignedLedger.
Proof.
  split; [reflexivity | reflexivity |]. intros b. unfold hash, demo_env, env_hash, word.
  pose proof (Z.mod_pos_bound (be_val (preimage b)) (2 ^ 255 - 19) ltac:(lia)). lia.
Qed.

#[local] Existing Instance demo_signed.

Definition demo_work : W.WorkEnv := {| W.work_value := fun _ _ => 2 ^ 64 - 1; W.is_test_network := true |}.

#[local] Existing Instance demo_work.

Definition demo_generate (root : Z) : Z := 5.

Lemma demo_generate_word (r : Z) : word 64 (demo_generate r).
Proof. unfold word, demo_generate. lia. Qed.

Lemma demo_generate_valid (r : Z) : (W.work_validate r (demo_generate r)).1 = false.
Proof. reflexivity. Qed.

Definition demo_genesis : block := open_block (mk_open 1 (2 ^ 90) (2 ^ 90)) 0 0.
Definition demo_ledger : store := LT.store_of (initialize (hash demo_genesis) (2 ^ 90) 0 demo_genesis).

Lemma demo_ledger_inv : inv demo_ledger.
Proof.
  apply (LT.initialize_ok (2 ^ 90) 0 demo_genesis); [| reflexivity].
  split; [concrete_block_ok | repeat split; vm_compute; discriminate].
Qed.

(** The keys of the accounts 2^90 and 2^91, and an account that is only watched. *)
Definition demo_wallet : WS.wallet_store :=
  match WS.wallet_open demo_draws 4 ∅ with
  | Some w => match event_run demo_draws w [we_adhoc (2 ^ 90); we_adhoc (2 ^ 91); we_watch (2 ^ 92)] with Some w => w | None => w end
  | None => WS.mk_wallet ∅ (WS.mk_fan 0 []) (WS.mk_fan 0 [])
  end.

Lemma send_accepted_witness : exists b,
  send_action demo_generate [] no_faults demo_ledger demo_wallet ∅ (2 ^ 90) (2 ^ 91) 1000 0 true None =
    Some (Some b, ∅, handed b (2 ^ 90) true).
Proof.
  destruct (send_accepted demo_generate [] demo_generate_word demo_ledger demo_wallet ∅ (2 ^ 90) (2 ^ 91) 1000 0 (2 ^ 90) true)
    as (b & E & _).
  - exact demo_ledger_inv.
  - vm_compute. reflexivity.
  - split; [reflexivity |]. vm_compute. discriminate.
  - unfold word. lia.
  - vm_compute. split; congruence.
  - exact demo_generate_valid.
  - exists b. exact E.
Defined.

Definition block_of (x : option (option block * send_ids * list output)) : block :=
  match x with Some (Some b, _, _) => b | _ => demo_genesis end.
Definition ids_of (x : option (option block * send_ids * list output)) : send_ids :=
  match x with Some (_, ids, _) => ids | _ => ∅ end.

(** The block of the first wallet, and the ledger after it. *)
Definition demo_call : option (option block * send_ids * list output) :=
  send_action demo_generate [] no_faults demo_ledger demo_wallet ∅ (2 ^ 90) (2 ^ 91) 1000 0 true (Some [1]).
Definition demo_block : block := Eval vm_compute in block_of demo_call.
Definition demo_after : store :=
  match process demo_ledger demo_block sv_unknown with Done (_, s) => s | _ => demo_ledger end.

Lemma demo_after_inv : inv demo_after.
Proof.
  assert (Ha : admissible demo_ledger demo_block sv_unknown).
  { split; [concrete_block_ok | vm_compute; discriminate | | discriminate | discriminate |].
    - intros x. replace (block_get_full demo_ledger (hash demo_block)) with (@None entry) by (vm_compute; reflexivity). discriminate.
    - intros _ E. vm_compute in E. discriminate E. }
  destruct (process_settled demo_ledger demo_block sv_unknown demo_ledger_inv Ha) as (r & s' & E & Hc).
  unfold demo_after. rewrite E. destruct Hc as [[_ ->] | (_ & sb & a & old & new & c & Hap & _)]; [exact demo_ledger_inv |].
  exact (append_inv _ _ _ _ _ _ _ _ demo_ledger_inv Hap).
Qed.

Lemma receive_accepted_witness : exists b,
  receive_action demo_generate [] 1 demo_after demo_wallet demo_block 4 1000 0 false = Some (Some b, handed b (2 ^ 91) false).
Proof.
  destruct (receive_accepted demo_generate [] demo_generate_word 1 demo_after demo_wallet demo_block (2 ^ 91) 4 1000 0 (2 ^ 91) false
    (mk_pending_info (2 ^ 90) 1000 epoch_0)) as (b & E & _).
  - exact demo_after_inv.
  - vm_compute. reflexivity.
  - vm_compute. reflexivity.
  - reflexivity.
  - lia.
  - vm_compute. reflexivity.
  - discriminate.
  - unfold word. lia.
  - vm_compute. discriminate.
  - vm_compute. split; congruence.
  - exact demo_generate_valid.
  - exists b. exact E.
Defined.

Lemma send_once_witness :
  send_action demo_generate [] no_faults demo_after demo_wallet (ids_of demo_call) 3 4 5 6 false (Some [1]) =
    Some (Some demo_block, ids_of demo_call, [out_republish demo_block]).
Proof.
  apply (send_once demo_generate [] no_faults no_faults demo_ledger demo_after demo_wallet demo_wallet ∅ (ids_of demo_call) [1]
    (2 ^ 90) (2 ^ 91) 1000 0 3 4 5 6 true false demo_block (handed demo_block (2 ^ 90) true)).
  - exact demo_ledger_inv.
  - vm_compute. reflexivity.
  - vm_compute. reflexivity.
  - reflexivity.
Defined.

(** The account that is only watched receives an amount, which opens it elsewhere. *)
Definition demo_watched : WS.wallet_store :=
  match WS.wallet_open demo_draws 4 ∅ with
  | Some w => match event_run demo_draws w [we_watch (2 ^ 90)] with Some w => w | None => w end
  | None => WS.mk_wallet ∅ (WS.mk_fan 0 []) (WS.mk_fan 0 [])
  end.

Lemma watched_account_aborts_witness :
  send_action demo_generate [] no_faults demo_ledger demo_watched ∅ (2 ^ 90) (2 ^ 91) 1000 0 true None = None.
Proof.
  destruct (watched_account_aborts demo_generate [] demo_ledger demo_watched ∅ (2 ^ 90) (2 ^ 91) 1000 0 true (WS.mk_value 0 0)
    (mk_account_info (hash demo_genesis) (hash demo_genesis) (hash demo_genesis) (2 ^ 128 - 1) 0 1 epoch_0)) as [E _].
  - exact demo_ledger_inv.
  - vm_compute. reflexivity.
  - vm_compute. reflexivity.
  - reflexivity.
  - vm_compute. reflexivity.
  - reflexivity.
  - cbn. lia.
  - exact E.
Defined.

End WalletLedger.
