(* ===== verification/WalletNode.v ===== *)
(** * Searching, queueing and reloading

    The rest of [WalletActions]: the search for used accounts after a seed was entered,
    the order in which the actions of the wallets run, the reloading of the set of
    wallets, and the representatives, whose keys [VoteGenerator] asks for. *)

From stdpp Require Import base gmap list sorting.
From Stdlib Require Import ZArith Lia.
From S2P Require Import Prelude Blake2b Blocks Store Ledger Numbers Work Signing VoteStore VoteGenerator Wallet WalletTheorems WalletActions.
Local Open Scope Z_scope.

Module WalletNode.
Import Ledger.Ledger WalletActions.WalletActions.
Module VG := VoteGenerator.VoteGenerator.
Module WT := WalletTheorems.WalletTheorems.

#[local] Opaque WS.derive.

(** ** Used accounts *)

Section Search.

Context {CI : WS.Cipher} {SG : VS.Signatures}.
Context (s : store) (w : WS.wallet_store) (V : WS.valid_password w = true).

Definition used_at (i : Z) : bool := used s (VS.pub_key (WS.derive (WS.seed w) i)).

(** Where the search ends that last found [r], having begun after [index]. *)
Definition horizon (index r : Z) : Z := if r =? index then index + 64 else r + 64 + r / 64.

Lemma horizon_mono (index r B : Z) : 0 <= index <= r -> r <= B -> horizon index r <= B + 64 + B / 64.
Proof.
  intros H1 H2. unfold horizon. assert (r / 64 <= B / 64) by (apply Z.div_le_mono; lia).
  assert (0 <= r / 64) by (apply Z.div_pos; lia). destruct (Z.eqb_spec r index); lia.
Qed.

(** The accounts beyond [B] are not used, and nothing wraps around. *)
Context (index B : Z) (Hi : 0 <= index <= B) (HB : B + 64 + B / 64 < 2 ^ 32).
Context (Hu : forall i, index < i -> used_at i = true -> i <= B).

Lemma check_loop_ok (fuel : nat) (r i : Z) : index <= r -> r < i -> i <= horizon index r ->
  (r = index \/ used_at r = true) -> (forall j, r < j < i -> used_at j = false) ->
  B + 64 + B / 64 - i <= Z.of_nat fuel ->
  exists r', check_loop fuel s w r i (horizon index r) = Some r' /\ index <= r' /\ (r' = index \/ used_at r' = true) /\
    forall j, r' < j < horizon index r' -> used_at j = false.
Proof.
  revert r i. induction fuel as [| n IH]; intros r i H1 H2 H3 H4 H5 Hf; cbn [check_loop].
  - assert (r <= B) by (destruct H4 as [-> | H4]; [lia | destruct (Z.eq_dec r index); [lia | apply Hu; [lia | done]]]).
    pose proof (horizon_mono index r B ltac:(lia) ltac:(lia)).
    assert (i = horizon index r) as -> by lia. rewrite Z.ltb_irrefl. exists r. auto.
  - assert (Hr : r <= B) by (destruct H4 as [-> | H4]; [lia | destruct (Z.eq_dec r index); [lia | apply Hu; [lia | done]]]).
    pose proof (horizon_mono index r B ltac:(lia) Hr) as Hh.
    destruct (Z.ltb_spec i (horizon index r)) as [Hlt | Hge].
    2: { assert (i = horizon index r) by lia. subst i. exists r. auto. }
    unfold WS.deterministic_key. rewrite V. fold (used_at i). rewrite (u32_small (i + 1)) by lia. destruct (used_at i) eqn:U.
    + assert (Hib : i <= B) by (apply Hu; [lia | done]). pose proof (horizon_mono index i B ltac:(lia) Hib) as Hh'.
      assert (Eh : u32 (i + 64 + i / 64) = horizon index i).
      { unfold horizon in *. rewrite (proj2 (Z.eqb_neq i index)) in * by lia. apply u32_small.
        assert (0 <= i / 64) by (apply Z.div_pos; lia). lia. }
      rewrite Eh. apply IH; [lia | lia | | now right | intros j Hj; lia | lia].
      unfold horizon. rewrite (proj2 (Z.eqb_neq i index)) by lia. assert (0 <= i / 64) by (apply Z.div_pos; lia). lia.
    + apply IH; [lia | lia | lia | done | | lia]. intros j Hj. destruct (Z.eq_dec j i) as [-> |]; [done | apply H5; lia].
Qed.

(** The search for used accounts ends; it gives the index it began after, or an account
    that is used, and the next 63 accounts after it (and more in a large wallet) are not
    used: no used account is missed unless so many unused ones come before it. *)
Theorem check_finds (fuel : nat) (Hf : B + 64 + B / 64 <= Z.of_nat fuel) :
  exists r, deterministic_check fuel s w index = Some r /\ index <= r /\ (r = index \/ used_at r = true) /\
    forall j, r < j < horizon index r -> used_at j = false.
Proof.
  unfold deterministic_check. assert (E : horizon index index = index + 64) by (unfold horizon; now rewrite Z.eqb_refl).
  assert (0 <= B / 64) by (apply Z.div_pos; lia). rewrite !u32_small by lia. rewrite <- E.
  apply check_loop_ok; [lia | lia | lia | now left | intros j Hj; lia | lia].
Qed.

End Search.

(** ** The queue *)

Definition later (x y : Z * (Z * action)) : Prop := y.1 <= x.1.

Definition of_priority (p : Z) (l : actions) : actions := List.filter (fun x => x.1 =? p) l.

Lemma queue_elements (p wid : Z) (a : action) (l : actions) :
  queue_wallet_action p wid a l ≡ₚ (p, (wid, a)) :: l.
Proof.
  induction l as [| x l IH]; cbn [queue_wallet_action]; [done |]. destruct (x.1 <? p); [done |]. rewrite IH. apply Permutation_swap.
Qed.

(** Actions are run by priority, and in the order of their arrival among those of one
    priority: queueing keeps the order and puts an action behind those of its priority. *)
Theorem actions_ordered (p wid : Z) (a : action) (l : actions) (Hl : StronglySorted later l) :
  StronglySorted later (queue_wallet_action p wid a l) /\
  (forall q, of_priority q (queue_wallet_action p wid a l) =
     if q =? p then of_priority q l ++ [(p, (wid, a))] else of_priority q l).
Proof.
  induction Hl as [| x l Hl IH Hx]; cbn [queue_wallet_action].
  - split; [repeat constructor |]. intros q. unfold of_priority. cbn. rewrite (Z.eqb_sym p q). now destruct (q =? p).
  - destruct (Z.ltb_spec x.1 p) as [Hlt | Hge].
    + split.
      * constructor; [now constructor |]. constructor; [unfold later; cbn; lia |].
        eapply Forall_impl; [exact Hx |]. unfold later. cbn. intros y Hy. lia.
      * intros q. change (of_priority q ((p, (wid, a)) :: x :: l)) with
          (if p =? q then (p, (wid, a)) :: of_priority q (x :: l) else of_priority q (x :: l)).
        rewrite (Z.eqb_sym p q). destruct (Z.eqb_spec q p) as [-> | Hne]; [| reflexivity].
        replace (of_priority p (x :: l)) with (@nil (Z * (Z * action))); [reflexivity |].
        symmetry. assert (Hall : Forall (fun y => y.1 < p) (x :: l)).
        { constructor; [lia |]. eapply Forall_impl; [exact Hx |]. unfold later. intros y Hy. cbn in Hy. lia. }
        clear -Hall. unfold of_priority. induction Hall as [| y l' Hy _ IH]; [done |]. cbn [List.filter].
        rewrite (proj2 (Z.eqb_neq _ _)) by lia. exact IH.
    + destruct IH as [IH1 IH2]. split.
      * constructor; [exact IH1 |]. rewrite (queue_elements p wid a l). constructor; [unfold later; cbn; lia | exact Hx].
      * intros q. specialize (IH2 q). unfold of_priority in *. cbn [List.filter]. rewrite IH2. destruct (x.1 =? q), (q =? p); done.
Qed.

(** ** Reloading *)

Lemma reload_none {A : Type} (l : list A) (f : gmap Z wallet -> A -> option (gmap Z wallet)) :
  foldl (fun m id => match m with Some m => f m id | None => None end) None l = None.
Proof. induction l as [| x l IH]; [done | exact IH]. Qed.

Lemma reload_keeps (open : Z -> wallet) (stored : list Z) (items : gmap Z wallet) (id : Z) : is_Some (items !! id) ->
  is_Some (foldl (fun m id => if WS.is_some (m !! id) then m else <[id := open id]> m) items stored !! id).
Proof.
  revert items. induction stored as [| x l IH]; intros items H; [exact H |]. cbn [foldl]. apply IH.
  destruct (WS.is_some (items !! x)); [exact H |]. apply lookup_insert_is_Some. destruct (decide (x = id)); auto.
Qed.

(** Reloading when the table of a wallet is gone fails an assertion: the code asserts that
    the wallet it is about to forget is not among the wallets. *)
Theorem reload_aborts (open : Z -> wallet) (stored : list Z) (items : gmap Z wallet) (id : Z)
  (Hi : is_Some (items !! id)) (Hn : id ∉ stored) : reload open stored items = None.
Proof.
  unfold reload. set (m := foldl _ items stored). assert (Hm : is_Some (m !! id)) by now apply reload_keeps.
  set (deleted := List.filter _ _). assert (Hd : id ∈ deleted).
  { apply list_elem_of_In. unfold deleted. apply filter_In. split; [apply list_elem_of_In, elem_of_elements, elem_of_dom, Hm |].
    apply negb_true_iff. apply not_true_is_false. intros (x & Hx & ->%Z.eqb_eq)%existsb_exists. now apply Hn, list_elem_of_In. }
  assert (Hall : forall x, x ∈ deleted -> is_Some (m !! x)).
  { intros x Hx. apply elem_of_dom, elem_of_elements, list_elem_of_In. apply list_elem_of_In, filter_In in Hx. apply Hx. }
  destruct deleted as [| x l]; [now apply not_elem_of_nil in Hd |]. cbn [foldl].
  destruct (Hall x) as [y Hy]; [now left |]. rewrite Hy. apply (reload_none l (fun m id => if WS.is_some (m !! id) then None else Some (delete id m))).
Qed.

(** ** Representatives *)

Section Representatives.

Context {CI : WS.Cipher} {SG : VS.Signatures}.
Context (vote_minimum : Z) (weight : Z -> Z).

(** The accounts of a wallet that are its representatives. *)
Definition represents (w : WS.wallet_store) (a : Z) : Prop :=
  WS.special_count <= a /\ is_Some (WS.entries w !! a) /\ vote_minimum <= weight a.

Lemma compute_one (w : WS.wallet_store) (count : Z) : exists reps count',
  WS.walk fst (compute_body vote_minimum weight) (WS.walk_fuel w) WS.special_count (w, (∅, count)) = Some (w, (reps, count')) /\
  forall a, a ∈ reps <-> represents w a.
Proof.
  destruct (WT.walk_rule fst (compute_body vote_minimum weight) (fun lo x => x.1 = w /\ WS.special_count <= lo /\
      forall a, a ∈ x.2.1 <-> represents w a /\ a < lo)) with (fuel := WS.walk_fuel w) (lo := WS.special_count) (s := (w, (∅ : gset Z, count)))
    as (lo & [w' [reps c]] & -> & (E & L & Hr) & Hend).
  - intros lo k v [w' [reps c]] (E & L & Hr) Hs. cbn [fst snd] in *. subst w'. pose proof (WT.seek_spec lo (WS.entries w)) as Hk.
    rewrite Hs in Hk. destruct Hk as (K1 & K2 & K3). unfold compute_body. eexists (k + 1), _. split; [reflexivity |]. split.
    + split; [now destruct (vote_minimum <=? weight k) |]. split; [lia |]. intros a.
      assert (Hnext : represents w a /\ a < k + 1 <-> represents w a /\ a < lo \/ represents w a /\ a = k).
      { split; [intros [R Ha] | intros [[R Ha] | [R ->]]; (split; [done | lia])].
        destruct (Z.lt_ge_cases a lo) as [| Hge]; [auto |]. right. split; [done |].
        destruct R as (_ & Hin & _). specialize (K3 a Hge Hin). lia. }
      rewrite Hnext, <- Hr. destruct (Z.leb_spec vote_minimum (weight k)) as [Hw | Hw]; cbn [fst snd].
      * rewrite elem_of_union, elem_of_singleton. split; [intros [-> | ?]; [right | now left] | intros [? | [_ ->]]; auto].
        split; [| done]. split_and!; [lia | eauto | done].
      * split; [now left |]. intros [? | [(_ & _ & R) ->]]; [done | lia].
    + replace ((if vote_minimum <=? weight k then _ else _ : WS.wallet_store * (gset Z * Z)).1) with w by now destruct (_ <=? _).
      apply (WT.ahead_less lo (k + 1) k v); [done | lia |]. intros k' Hk'. now rewrite (proj2 (Z.eqb_neq _ _)) by lia.
  - cbn [fst snd]. split_and!; [done | done |]. intros a. split; [intros Ha; now apply not_elem_of_empty in Ha | intros [[? _] ?]; lia].
  - apply WT.walk_fuel_enough.
  - cbn [fst snd] in *. subst w'. exists reps, c. split; [done |]. intros a. rewrite Hr. split; [now intros [? _] |]. intros R.
    split; [done |]. destruct (Z.lt_ge_cases a lo) as [| Hge]; [done |]. destruct R as (_ & Hin & _). rewrite (Hend a Hge) in Hin. now destruct Hin.
Qed.

(** What the code that makes votes reads of a wallet. *)
Definition voter (w : wallet) : VG.wallet :=
  VG.mk_wallet (elements (w_representatives w)) (WS.exists_account (w_store w)) (WS.valid_password (w_store w)) (WS.fetch (w_store w)).

Lemma voter_ok (w : wallet) : (forall a, a ∈ w_representatives w -> represents (w_store w) a) ->
  (forall a, represents (w_store w) a -> WS.valid_password (w_store w) = true -> is_Some (WS.fetch (w_store w) a)) ->
  VG.wallet_ok (voter w).
Proof.
  intros Hr Hf a Ha _ V. cbn in Ha, V. apply elem_of_elements in Ha. destruct (Hf a (Hr a Ha) V) as [prv E]. exists prv. split; [exact E |].
  now apply WT.fetch_pub in E as [-> _].
Qed.

Lemma wallet_keys_missing (w : VG.wallet) (a : Z) (l : list Z) : a ∈ l -> VG.w_exists w a = true ->
  Numbers.uint128_is_zero (weight a) = false -> VG.w_valid_password w = true -> VG.w_fetch w a = None ->
  VG.wallet_keys weight w l = None.
Proof.
  intros Ha H1 H2 H3 H4. induction l as [| b l IH]; [now apply not_elem_of_nil in Ha |]. cbn [VG.wallet_keys].
  apply elem_of_cons in Ha as [<- | Ha]; [now rewrite H1, H2, H3, H4 |].
  rewrite (IH Ha). destruct (_ && _ && _); [| done]. now destruct (VG.w_fetch w b).
Qed.

(** Computing the representatives of the wallets, and voting with them: a wallet that has
    the keys of its accounts answers what [VoteGenerator] asks; an account that is only
    watched becomes a representative all the same, and making the next vote with the
    unlocked wallet then fails an assertion. *)
Theorem representatives_computed (w : wallet) (count : Z) :
  exists w' count', compute_reps vote_minimum weight [w] count = Some ([w'], count') /\
    w_store w' = w_store w /\ (forall a, a ∈ w_representatives w' <-> represents (w_store w) a) /\
    ((forall a, represents (w_store w) a -> WS.valid_password (w_store w) = true -> is_Some (WS.fetch (w_store w) a)) ->
       VG.wallet_ok (voter w')) /\
    (forall a v, WS.valid_password (w_store w) = true -> WS.special_count <= a -> WS.entries (w_store w) !! a = Some v ->
       WS.wv_key v = 0 -> vote_minimum <= weight a -> Numbers.uint128_is_zero (weight a) = false ->
       VG.foreach_representative true weight [voter w'] = None).
Proof.
  destruct (compute_one (w_store w) count) as (reps & count' & E & Hr).
  exists (mk_w (w_store w) (w_live w) reps (w_free w)), count'. cbn [compute_reps]. rewrite E. cbn [w_store w_representatives].
  split_and!; try done.
  - intros Hf. apply voter_ok; cbn [w_store w_representatives]; [intros a Ha; now apply Hr | exact Hf].
  - intros a v V Ha Hv H0 Hw Hz. cbn [VG.foreach_representative VG.all_keys].
    rewrite (wallet_keys_missing (voter (mk_w (w_store w) (w_live w) reps (w_free w))) a); [done | | | done | exact V |].
    + cbn. apply elem_of_elements, Hr. split_and!; [done | eauto | done].
    + cbn. apply WT.account_exists_spec. unfold WS.special_count in Ha. split; [lia | eauto].
    + cbn. unfold WS.fetch, WS.entry_get_raw. now rewrite V, Hv, H0.
Qed.

End Representatives.

End WalletNode.
